(* ===== verification/_CoqProject ===== *)
-Q . S2P
Prelude.v
Bytes.v
TypeHelpers.v
HttpUtils.v
Ranges.v
HeaderStore.v
ServerConfig.v
CookieStore.v
HttpResponse.v
HttpStreamResponse.v
HttpFileResponse.v
Effects.v
BodyStream.v
HttpRequest.v
ErrorFactory.v
HttpTypes.v
Router.v
Net.v
ConnectionIO.v
ChunkDecoder.v
HttpConnection.v
Streaming.v
MultipartParser.v
MultipartForm.v
Executor.v
PipePool.v
ThreadPool.v
AsyncPool.v
Session.v
CorsMiddleware.v
CacheControlMiddleware.v
HttpDate.v
Compression.v
Codecs.v
CompressionMiddleware.v
MimeTypes.v
FileIO.v
ByteRanges.v
StaticFiles.v
StaticMiddleware.v
DbValue.v
Model.v
Predicate.v
Conditions.v
SelectQuery.v
WriteQueries.v
ActiveRecord.v
Repository.v
ManyToMany.v
Sqlite.v
Transactions.v
Task.v
HttpServer.v
Endpoints.v
Kernel.v
Streams.v
MmapCache.v
Json.v
Relations.v
DemoModels.v
TestRunner.v
SuiteState.v
PredicateTests.v
CteTests.v
RecordTests.v
RelationTests.v
Demo.v
StreamRoutes.v
PoolRoutes.v
FormRoutes.v
DemoApp.v
