(* ===== verification/Prelude.v ===== *)
(** * RuKh: verification library of the HTTP server

    RuKh (src/rukh) is an asynchronous C++23 web framework: one event loop per
    thread, a coroutine per connection, a router with middlewares, and request
    and response objects.  This library models the path of a request through
    the server, from the bytes of the socket to the bytes of the response, and
    proves what each part promises to the next.

    ** The parts and how they interact

    A connection (HttpConnection.hpp, [HttpConnection.v]) runs one coroutine over
    its buffers (ConnectionIO.hpp, [ConnectionIO.v]), which read and write a
    stream (TcpStream, TlsStream; [Net.v]).  For each request it looks for the
    empty line, has the request parse the header (HttpRequest.cpp,
    [HttpRequest.v]), gives it a body stream (BodyStream.hpp, [BodyStream.v])
    whose closures read the buffers directly or through the decoder of chunked
    bodies (ChunkDecoder.hpp, [ChunkDecoder.v]), dispatches it through the router
    and the middlewares (Router.cpp, [Router.v]; the shared types HttpTypes.hpp,
    [HttpTypes.v]), drains what the handler left of the body, and serializes the
    response, one of three kinds ([HttpResponse.v], [HttpStreamResponse.v],
    [HttpFileResponse.v], with the header fields of [HeaderStore.v] and the
    cookies of [CookieStore.v]).  Errors become responses through content
    negotiation ([ErrorFactory.v]).  Handlers may parse their body as
    multipart/form-data ([MultipartParser.v]).  The middlewares of
    http/middleware wrap the handlers: sessions, CORS, cache control,
    compression and static files.  Beneath the connections the event loop
    ([Executor.v]) resumes coroutines, and pools hand out pipes ([PipePool.v]),
    worker threads ([ThreadPool.v]) and database connections ([AsyncPool.v]).

    ** The files

    - [Prelude.v]: byte strings, [outcome] (a value, an exception, or
      undefined behaviour), generic lemmas, hints and tactics.
    - [Bytes.v]: std::string operations, stringUtils.hpp and utils.hpp
      ([find_sub] is [string::find], [from_chars], [to_chars], [trim] ...);
      [TypeHelpers.v]: the type functions of TypeHelpers.hpp, on names of types.
    - [HttpUtils.v]: paths, percent-encoding and media types of httpUtils.hpp.
    - [Ranges.v]: HttpRequest::getRanges (parse_ranges) and
      validateAndCleanRanges.
    - [HeaderStore.v], [CookieStore.v], [ServerConfig.v]: the classes of these
      names; the configuration is a record that the components take.
    - [HttpResponse.v], [HttpStreamResponse.v], [HttpFileResponse.v]: the three
      responses; serialization is at the level of memory writes ([memwrite] is
      undefined outside the buffer) so that the size computation is checked.
    - [Effects.v]: the state-and-exception monad [M] of the coroutines and the
      monad [co] of coroutines with early [co_return]s.
    - [BodyStream.v]: the stream handed to handlers.  The closures it was built
      with are the interface [BodyIO], implemented in [HttpConnection.v].
    - [HttpRequest.v], [ErrorFactory.v], [HttpTypes.v], [Router.v]: as above.
    - [Net.v]: the class [Net] (a transport: receive, send, handshake, suspend,
      with the law that bytes are neither lost nor invented) and its instances:
      TcpStream over a scripted socket, and a well-behaved peer.
    - [ConnectionIO.v]: the buffers with lazily erased prefixes, against any
      [Net]; [ChunkDecoder.v], [HttpConnection.v], [MultipartParser.v]: the
      classes of these names; [Streaming.v]: a streamed response on a connection,
      and its decoding; [MultipartForm.v]: a whole form through the parser.
    - [Executor.v]: the event loop over the reports of the kernel; [PipePool.v]:
      the pipes and TcpStream::sendFileSplice; [ThreadPool.v]: workers, and the
      hand-over of a result to the awaiting coroutine, as interleaved steps;
      [AsyncPool.v]: the bounded pool with its line of waiters.
    - [Session.v]: sessions, the store in memory, and SessionMiddleware.
    - [CorsMiddleware.v], [CacheControlMiddleware.v]: the middlewares of these
      names; [HttpDate.v]: toHttpDate and parseHttpDate, with the calendar of
      gmtime and timegm.
    - [Compression.v]: the interface of a compressor, its factory, and the chunk
      function of a compressed stream; [Codecs.v]: GzipCompressor and
      BrotliCompressor around the calls of zlib and brotli;
      [CompressionMiddleware.v]: the negotiation.
    - [MimeTypes.v], [FileIO.v]: the table of types; paths, AsyncFileReader,
      AsyncFileWriter and FileCache over a file system.
    - [StaticFiles.v]: looking up and compressing a static file;
      [StaticMiddleware.v]: the handler; [ByteRanges.v]: the stream of several
      ranges.
    - [DbValue.v]: values and rows of a database (db/DbValue.hpp, DbTypes.hpp);
      [Model.v]: the models of the ORM as data, and hydration (orm/Column.hpp,
      hydrators.hpp); [Predicate.v]: conditions, [Conditions.v]: their meaning on
      rows, LIKE included; [SelectQuery.v]: SELECT; [WriteQueries.v]: INSERT,
      UPDATE, DELETE, UPSERT and dispatch; [ActiveRecord.v]: saving and finding
      objects, foreign keys; [Repository.v]: records as a map from keys;
      [ManyToMany.v]: many-to-many relations.
    - [Sqlite.v]: running statements (Sqlite3QueryExecutor.hpp) over the calls of
      SQLite; [Transactions.v]: Sqlite3Transaction, ScopedTransaction and Sqlite3Db
      as a step relation whose states hold every connection in one place.
    - [Task.v]: the coroutine type: frames, promises and transfers of control;
      [HttpServer.v]: configuration, workers, accept loops, sockets, as calls of
      the executor; [Endpoints.v]: the making of listeners and the life of the stream
      objects; [Kernel.v]: EpollInstance and IoUringInstance beneath it;
      [Streams.v]: TcpStream::sendFile, and TlsStream as an instance of [Net];
      [MmapCache.v]: the cache of file mappings and TcpStream::sendFileMmap.
    - [Json.v]: JSON over the interface of nlohmann/json, and the documents of records
      (ActiveRecord::toJson, utils.hpp); [Relations.v]: relations as models declare
      them; [DemoModels.v], [Demo.v]: the models and most routes of the demo (src/app)
      as clients of the ORM, and of the router, sessions, cookies, bodies and JSON;
      [StreamRoutes.v], [PoolRoutes.v], [FormRoutes.v]: its routes that stream, use
      the thread pool, and take a multipart form.
    - [TestRunner.v]: how a suite of the demo runs its steps (app/include/TestRunner.hpp),
      [SuiteState.v]: the local objects of a suite, and transactions; the four suites of
      ormTestRoutes.cpp: [PredicateTests.v], [CteTests.v], [RecordTests.v],
      [RelationTests.v].
    - [DemoApp.v]: the demo as a whole: settings of the middlewares, all the groups of
      routes over one state, and what main starts.

    Definitions keep the names of the source; a field keeps the name of the
    member.  A handler or operation is one Definition with the guards of the
    code in their order; a [while] loop is a Fixpoint with fuel.

    ** What the theorems show

    - Ranges: accepted range sets become disjoint, ordered ranges of exactly the
      requested bytes; which inputs dereference a disengaged optional; printing
      and parsing are inverse.
    - Paths and encodings: [normalizePath] computes the non-empty segments;
      percent-decoding inverts encoding; query and form parameters and cookies
      reach the handler as they were sent.
    - Header fields: an invariant (lower-case keys, singletons at most once) kept
      by every operation and by the parser on every input, and the effect of
      every operation on every lookup.
    - Responses: serialization writes exactly the response's bytes within the
      buffer or refuses; a plain response has exactly one Content-Length, that
      of its last body, and HEAD responses carry no body.
    - Requests: a well-formed request is received as it was sent.
    - Router: the trie refines the routing table (a list of patterns), the search
      finds the preferred match, path parameters are the decoded segments, and
      dispatch answers 404, 405 and OPTIONS as documented.
    - Buffers: they refine two byte queues; a read appends exactly the peer's
      next bytes within the limit, a write loses none, whatever the transport.
    - Bodies: the chunk decoder delivers the bytes of the encoded body under any
      segmentation, within its limits on any input, and inverts the response
      serializer; the drain leaves the connection exactly behind the body.
    - Connection: requests that arrive together are answered one by one, in order.
    - Multipart: a form is received as it was sent: parts of any size reach the handler
      of their name whole and in order, and the parser ends; the headers that browsers
      write are understood; a second file of the same name is undefined behaviour.
    - Streams: what a lambda gives is what a receiver decodes, up to the first empty
      block; an exception ends the body with its text and the connection.
    - Event loop and pools: suspended coroutines are neither lost nor resumed
      twice, expired ones are resumed, a turn ends; pipes are counted exactly; a
      job's result reaches its coroutine under every interleaving.
    - Sessions: what a handler stored is found by the next request.
    - CORS and cache control: preflights grant exactly what is configured; the
      Cache-Control sent is the one of the first rule that applies (and which
      paths a pattern really selects).
    - Dates: printing and parsing are inverse for the years 1970 to 9999.
    - Compression: the best encoding both sides know is chosen; what is sent,
      in one piece or as a stream, decompresses to what the handler gave.
    - Static files: what is served lies under (the text of) the root; a client
      that revalidates is answered 304; HEAD agrees with GET; a file is never
      sent past its end; the stream of several ranges loses exactly the bytes
      the theorem counts.

    - ORM: an object is read back as it was written; the text of every statement,
      with each mark replaced by the parameter bound to it, is the statement with
      its values written out ([fill] and the [inline_] functions are that
      specification), so that no value becomes text; the simplifications of
      conditions are valid in three-valued logic; an UPDATE or DELETE of an object
      concerns its own row; foreign keys are followed consistently in both
      directions; what addRelation stores manyRelated finds (and, for single-row
      symmetry, from one end only).
    - Conditions: the text builders (contains, iContains, startsWith, endsWith, ilike)
      select exactly the rows they name, for texts within LIKE's limit, and the
      comparisons select what they say, NULL by isNull and by notIn of nothing only.
    - Records: find, save, destroy, reload and modify refine a map from primary keys to
      records, for every model with a key and every database that keeps a table.
    - SQLite: a cached statement runs like a new one, with its own parameters only; a
      query is answered with all its rows or an error; rows become well-typed objects
      or exceptions, and objects survive storage (but for booleans); no connection is
      in two places, none is lost but in two ways, a free one is outside of any
      transaction; calling abandon breaks this.
    - Coroutines: co_await means call, through frames, continuations and exceptions;
      destroying a suspended coroutine frees its whole chain, once.
    - Server: an event makes an accept loop serve all that waits; an accept error ends
      its listener; the limit of TLS connections counts those of all times.
    - The kernel's rings hold what the executor waits for, and every completion resumes
      its coroutine once; the interest set of epoll mirrors the executor; a file is sent
      exactly, but without regard to deadlines, and through a mapping likewise; every
      mapping is released once; sessions of TLS and descriptors are freed once, but for
      the ones an assignment forgets.
    - Demo: its routes are registered and reached as intended (but one); what a client
      stores in its session is found by its later requests, which save it again; likes
      and follows are found from both ends; requests its handlers do not expect; all its
      groups are registered together and reached; its suite of conditions passes on every
      database of the laws, a rolled-back insertion is not seen, and the code between the
      steps of two suites lets an exception escape; echoed bodies are decoded as they
      were sent; concurrent jobs are answered in order; a form is answered with what was
      in it, and its file is stored and closed.

    ** Interfaces

    [BodyIO] (the closures of a body), [Net] (a transport), [HasRequest] and
    [HasProcess] (where the request and the thread's cache are in a state),
    [ISessionStore] with [SessionStoreLaws], [ICompressor] and [Compressors] with
    [CompressorLaws], [Zlib] and [BrotliLib] with theirs, [FileSystem], [SubQuery]
    (what a condition asks of a query within it), [SQLite] with [SQLiteLaws] and
    [SQLiteTransactions] (what SQLite documents of statements and transactions),
    [OpenSSL] (its calls on a connection), [NlohmannJson] with [JsonLaws] and
    [JsonBooleans] (JSON documents), [World] (what the event loop runs and is told),
    [Conditions] with [ConditionLaws] (how a database judges a condition), [Table] and
    [UsersTable] (a database that keeps a table), the records [IDatabase] and
    [ITransaction] (the interfaces of these names), [StdWhat] (texts of exceptions),
    [PoolAccess] with [PoolAccessLaws] (a thread pool and a clock), [FormFrame] with
    [FormLaws] (the variables and the file of a handler).  Clients are
    proved against the interface; the modules that implement one prove its laws.

    ** Parameters and hypotheses

    What is not in the repository is a parameter: JSON (nlohmann) and
    [strtof] in [ErrorFactory.v]; the date printer and [open(2)] in the responses;
    the transport in [ConnectionIO.v] and above, with the law of [Net] and, where
    a theorem needs it, [PromptNet] (a suspension that has not timed out ends
    with something to receive); [std::sort] as any sorting function (class
    [StdSort]); handlers and middlewares as arbitrary effects.  Every theorem
    with such a hypothesis has a witness at a concrete instance.

    ** Fuel

    Loops over a string have the string's length as fuel, which is enough since
    every round removes a character; the theorems say so (their specifications
    hold for any fuel of at least the length).  Loops over a transport take a
    fuel argument, and [io_measure] (what the transport can still deliver, its
    budget of suspensions) bounds it: the read and write theorems are stated
    for every fuel above the measure and give the result, not only its
    correctness.  The request loop of a keep-alive connection takes one unit
    per request.  The multipart loops report fuel that is used up as still
    running, because on a truncated body they do not end.

    ** Not modelled

    The passing of time (deadlines appear as suspensions that time out, or as
    reports to the event loop), logging, the clock behind the Date field, the prompts of
    main, the calls of the kernel, OpenSSL, zlib, brotli, SQLite and the JSON library
    themselves, and signals; getOne, getOneOptional and getOneOrCreate of SelectQuery.hpp
    do not compile when they are used.  What templates decide at
    compile time (the columns of a model, the relation of a name) is decided by
    functions on data.  The manifest lists each with the reason. *)
From Stdlib Require Export ZArith Lia Ascii String Sorted.
From stdpp Require Export base gmap sets list strings.

#[global] Open Scope string_scope.
#[global] Open Scope nat_scope.
#[global] Open Scope list_scope.
#[export] Set Default Goal Selector "!".
#[export] Set Warnings "-clear-no-such-hyp".

(** ** Byte strings

    [std::string], [std::string_view] and [std::vector<unsigned char>] are
    sequences of bytes.  A byte is an [ascii] (eight bits); string literals of
    the source are written as Rocq strings and coerced. *)
Abbreviation bytes := (list ascii).
Coercion list_ascii_of_string : string >-> list.

(** The numeric value of a byte read as [unsigned char]. *)
Definition code (c : ascii) : Z := Z.of_N (N_of_ascii c).
Definition chr (z : Z) : ascii := ascii_of_N (Z.to_N z).

Definition literals (l : list string) : list bytes := map list_ascii_of_string l.

(** Characters that the literals of the source need. *)
Definition CR : ascii := chr 13.
Definition LF : ascii := chr 10.
Definition TAB : ascii := chr 9.
Definition SP : ascii := " "%char.
Definition DQUOTE : ascii := chr 34.
Definition NUL : ascii := chr 0.
Definition CRLF : bytes := [CR; LF].
Definition CRLF2 : bytes := [CR; LF; CR; LF].

(** ** Boolean equality of byte strings ([operator==] on strings) *)
Fixpoint beqb (x y : bytes) : bool :=
  match x, y with
  | [], [] => true
  | a :: x, b :: y => Ascii.eqb a b && beqb x y
  | _, _ => false
  end.

Lemma beqb_spec x y : reflect (x = y) (beqb x y).
Proof.
  apply iff_reflect. revert y.
  induction x as [|a x IH]; intros [|b y]; simpl; try (split; congruence).
  rewrite andb_true_iff, Ascii.eqb_eq, <- IH. split; [|intros [-> ->]; done].
  intros H. by injection H as -> ->.
Qed.

Lemma beqb_refl x : beqb x x = true.
Proof. by destruct (beqb_spec x x). Qed.

Lemma beqb_eq x y : beqb x y = true <-> x = y.
Proof. destruct (beqb_spec x y); split; congruence. Qed.

Lemma beqb_neq x y : beqb x y = false <-> x <> y.
Proof. destruct (beqb_spec x y); split; congruence. Qed.

Lemma beqb_sym x y : beqb x y = beqb y x.
Proof. destruct (beqb_spec x y), (beqb_spec y x); congruence. Qed.

Infix "=?b" := beqb (at level 70, no associativity).

(** ** Machine integers: [size_t] and [uintmax_t] are 64 bits wide *)
Definition two64 : Z := (2 ^ 64)%Z.
Definition u64 (z : Z) : Z := (z mod two64)%Z.
Definition is_u64 (z : Z) : Prop := (0 <= z < two64)%Z.

Lemma two64_val : two64 = 18446744073709551616%Z.
Proof. reflexivity. Qed.

Lemma u64_small z : is_u64 z -> u64 z = z.
Proof. unfold is_u64, u64. intros. by apply Z.mod_small. Qed.

Lemma u64_range z : is_u64 (u64 z).
Proof. unfold is_u64, u64. apply Z.mod_pos_bound. reflexivity. Qed.

(** ** Exceptions and undefined behaviour

    What a C++ function can do besides returning: throw one of the exceptions
    the program uses, or run into undefined behaviour (a disengaged
    [std::optional] dereferenced, an element read out of range). *)
Inductive exn :=
| SocketException (msg : bytes)
| EpollException (msg : bytes)
| ServerException (msg : bytes) (status_code : Z) (fatal : bool)
| HandlerException (msg : bytes) (status_code : Z) (fatal : bool)
| CompressorException (msg : bytes)
| ConnectionException (msg : bytes)
| DatabaseException (msg : bytes)
| OrmException (msg : bytes)
| InvalidArgument (msg : bytes)
| RuntimeError (msg : bytes)
| OutOfRange
| BadExpectedAccess
| BadVariantAccess
| UnknownException.

Inductive outcome (A : Type) :=
| Ret (a : A)
| Throw (e : exn)
| Undef.
Arguments Ret {A} a.
Arguments Throw {A} e.
Arguments Undef {A}.

#[export] Instance outcome_ret : MRet outcome := @Ret.
#[export] Instance outcome_bind : MBind outcome := fun A B f m =>
  match m with
  | Ret a => f a
  | Throw e => Throw e
  | Undef => Undef
  end.
#[export] Instance outcome_fmap : FMap outcome := fun A B f m =>
  match m with
  | Ret a => Ret (f a)
  | Throw e => Throw e
  | Undef => Undef
  end.

Lemma outcome_bind_ret {A B} (m : outcome A) (f : A -> outcome B) b :
  m ≫= f = Ret b <-> exists a, m = Ret a /\ f a = Ret b.
Proof.
  destruct m; simpl; split; try done; try (intros (? & [=] & ?); by subst); eauto.
Qed.

Lemma outcome_bind_assoc {A B C} (m : outcome A) (f : A -> outcome B) (g : B -> outcome C) :
  (m ≫= f) ≫= g = m ≫= (fun a => f a ≫= g).
Proof. by destruct m. Qed.

(** [ret_or] is the value of an outcome, for witnesses. *)
Definition is_ret {A} (m : outcome A) : bool :=
  match m with Ret _ => true | _ => false end.

(** ** [std::sort]

    The library specifies only that the result is an ordered permutation: equal
    elements come in an unspecified order.  The code is modelled against this
    interface, so that what is proved holds for every conforming sort. *)
Record strict_weak_on {A} (P : A -> Prop) (lt : A -> A -> bool) : Prop := {
  sw_irrefl a : P a -> lt a a = false;
  sw_trans a b c : P a -> P b -> P c -> lt a b = true -> lt b c = true -> lt a c = true;
  sw_incomp a b c : P a -> P b -> P c -> lt a b = false -> lt b c = false -> lt a c = false;
}.

Class StdSort := {
  std_sort {A} : (A -> A -> bool) -> list A -> list A;
  std_sort_perm {A} (lt : A -> A -> bool) l : strict_weak_on (fun x => x ∈ l) lt -> std_sort lt l ≡ₚ l;
  std_sort_sorted {A} (lt : A -> A -> bool) l :
    strict_weak_on (fun x => x ∈ l) lt -> StronglySorted (fun a b => lt b a = false) (std_sort lt l);
}.

Module InsertionSort.
Fixpoint insert {A} (lt : A -> A -> bool) (x : A) (l : list A) : list A :=
  match l with
  | [] => [x]
  | y :: l' => if lt x y then x :: y :: l' else y :: insert lt x l'
  end.

(** Keeps equal elements in their order, as libstdc++ does for short ranges. *)
Definition sort {A} (lt : A -> A -> bool) (l : list A) : list A :=
  fold_left (fun acc x => insert lt x acc) l [].

Lemma insert_perm {A} (lt : A -> A -> bool) x l : insert lt x l ≡ₚ x :: l.
Proof.
  induction l as [|y l IH]; simpl; [done|].
  destruct (lt x y); [done|]. rewrite IH. constructor.
Qed.

Lemma insert_sorted {A} (P : A -> Prop) (lt : A -> A -> bool) x l :
  strict_weak_on P lt -> P x -> Forall P l ->
  StronglySorted (fun a b => lt b a = false) l ->
  StronglySorted (fun a b => lt b a = false) (insert lt x l).
Proof.
  intros SW Hx Hl. induction 1 as [|y l Hs IH Hall]; simpl.
  - repeat constructor.
  - apply Forall_cons in Hl as [Hy Hl]. destruct (lt x y) eqn:E.
    + assert (lt y x = false) as Hyx.
      { destruct (lt y x) eqn:E2; [|done].
        pose proof (sw_trans _ _ SW _ _ _ Hx Hy Hx E E2) as Hxx.
        by rewrite (sw_irrefl _ _ SW x Hx) in Hxx. }
      constructor; [by constructor|]. constructor; [done|].
      apply Forall_forall. intros z Hz. rewrite Forall_forall in Hall, Hl.
      apply (sw_incomp _ _ SW z y x); auto.
    + constructor; [by apply IH|]. rewrite insert_perm. by constructor.
Qed.

Lemma sort_perm {A} (lt : A -> A -> bool) l : sort lt l ≡ₚ l.
Proof.
  unfold sort. rewrite <- (app_nil_r l) at 2. generalize (@nil A) as acc.
  induction l as [|x l IH]; intros acc; simpl; [done|].
  rewrite IH, insert_perm. symmetry. apply Permutation_middle.
Qed.

Lemma sort_sorted {A} (lt : A -> A -> bool) l :
  strict_weak_on (fun x => x ∈ l) lt -> StronglySorted (fun a b => lt b a = false) (sort lt l).
Proof.
  intros SW. unfold sort.
  assert (forall k acc, Forall (fun x => x ∈ l) k -> Forall (fun x => x ∈ l) acc ->
    StronglySorted (fun a b => lt b a = false) acc ->
    StronglySorted (fun a b => lt b a = false) (fold_left (fun acc x => insert lt x acc) k acc)) as Hall.
  { intros k. induction k as [|x k IH]; intros acc Hk HP Hacc; simpl; [done|].
    apply Forall_cons in Hk as [Hx Hk]. apply IH; [done| |by eapply insert_sorted].
    rewrite insert_perm. by constructor. }
  apply Hall; [by apply Forall_forall|constructor..].
Qed.

Definition insertion_sort : StdSort := {|
  std_sort := @sort;
  std_sort_perm A lt l _ := sort_perm lt l;
  std_sort_sorted A lt l SW := sort_sorted lt l SW;
|}.
End InsertionSort.

(** ** Generic list lemmas *)
Lemma filter_all {A} (P : A -> Prop) `{forall x, Decision (P x)} (l : list A) :
  Forall P l -> filter P l = l.
Proof. induction 1; [done|]. rewrite filter_cons_True by done. by f_equal. Qed.

Lemma forallb_rev {A} (p : A -> bool) l : forallb p (rev l) = forallb p l.
Proof.
  induction l as [|x l IH]; simpl; [done|].
  rewrite forallb_app, IH. simpl. by rewrite andb_true_r, andb_comm.
Qed.

Lemma take_drop_middle_app {A} (l k : list A) : take (length l) (l ++ k) = l.
Proof. by rewrite take_app_length. Qed.

Lemma drop_app_length_plus {A} (l k : list A) n : drop (length l + n) (l ++ k) = drop n k.
Proof. rewrite <- drop_drop. by rewrite drop_app_length. Qed.

Lemma drop_app_cons {A} (l k : list A) x : drop (length l + 1) (l ++ x :: k) = k.
Proof. by rewrite drop_app_length_plus. Qed.

(** ** Tactics of the development *)

(** Case analysis on every string comparison of the goal. *)
Ltac beq :=
  repeat match goal with
  | |- context [?x =?b ?y] => destruct (beqb_spec x y); subst; try done
  | H : context [?x =?b ?y] |- _ => destruct (beqb_spec x y); subst; try done
  end.

(** Decompose [bind = Ret] hypotheses. *)
Ltac inv_ret :=
  repeat match goal with
  | H : mbind _ _ = Ret _ |- _ => apply outcome_bind_ret in H as (? & ? & H)
  | H : Ret _ = Ret _ |- _ => injection H as H
  | H : Throw _ = Ret _ |- _ => discriminate H
  | H : Undef = Ret _ |- _ => discriminate H
  end.

Create HintDb rukh.
Create Rewrite HintDb rukh.
#[export] Hint Rewrite beqb_refl : rukh.
#[export] Hint Resolve u64_range : rukh.
