(* ===== verification/Bytes.v ===== *)
(** Operations of the C++ standard library on strings that the program uses,
    and the helpers of [stringUtils.hpp] and [utils.hpp].  Positions are [nat]
    ([npos] is [None]); numeric values are [Z]. *)
From S2P Require Import Prelude.

(** ** Character classes of the "C" locale *)
Definition isupper (c : ascii) : bool := (65 <=? code c)%Z && (code c <=? 90)%Z.
Definition islower (c : ascii) : bool := (97 <=? code c)%Z && (code c <=? 122)%Z.
Definition isdigit (c : ascii) : bool := (48 <=? code c)%Z && (code c <=? 57)%Z.
Definition isalnum (c : ascii) : bool := isupper c || islower c || isdigit c.
Definition isspace (c : ascii) : bool := ((9 <=? code c)%Z && (code c <=? 13)%Z) || (code c =? 32)%Z.
Definition tolower (c : ascii) : ascii := if isupper c then chr (code c + 32) else c.

(** ** Searching *)
Fixpoint find_if {A} (p : A -> bool) (l : list A) : option nat :=
  match l with
  | [] => None
  | x :: l' => if p x then Some 0 else S <$> find_if p l'
  end.

Definition find_char (c : ascii) (s : bytes) : option nat := find_if (Ascii.eqb c) s.

Fixpoint prefixb (p s : bytes) : bool :=
  match p, s with
  | [], _ => true
  | a :: p', b :: s' => Ascii.eqb a b && prefixb p' s'
  | _ :: _, [] => false
  end.

(** [std::search] / [string::find]: the first occurrence of [p] in [s]. *)
Fixpoint find_sub (p s : bytes) : option nat :=
  if prefixb p s then Some 0
  else match s with
       | [] => None
       | _ :: s' => S <$> find_sub p s'
       end.

Definition contains_sub (p s : bytes) : bool :=
  match find_sub p s with Some _ => true | None => false end.
Definition starts_with (p s : bytes) : bool := prefixb p s.
Definition ends_with (p s : bytes) : bool := prefixb (rev p) (rev s).

(** ** Numbers: [std::to_chars] and [std::from_chars] for unsigned 64-bit *)
Definition digit_char (d : Z) : ascii := if (d <? 10)%Z then chr (48 + d) else chr (87 + d).

Definition digit_val (c : ascii) : option Z :=
  if isdigit c then Some (code c - 48)%Z
  else if islower c then Some (code c - 87)%Z
  else if isupper c then Some (code c - 55)%Z
  else None.

(** The digits of [n], most significant first; [fuel] bounds their number. *)
Fixpoint to_chars_fuel (fuel : nat) (base n : Z) (acc : bytes) : bytes :=
  match fuel with
  | O => acc
  | S fuel' =>
      let acc' := digit_char (n mod base) :: acc in
      if (n <? base)%Z then acc' else to_chars_fuel fuel' base (n / base) acc'
  end.

(** 64 digits are enough for every 64-bit value in base two or more. *)
Definition to_chars (base n : Z) : bytes := to_chars_fuel 64 base n [].
Definition to_string (n : Z) : bytes :=
  if (n <? 0)%Z then "-" ++ to_chars 10 (- n) else to_chars 10 n.

(** The leading digits of [s], their value, and how many there are. *)
Fixpoint scan_digits (base : Z) (s : bytes) (v : Z) (n : nat) : Z * nat :=
  match s with
  | c :: s' =>
      match digit_val c with
      | Some d => if (d <? base)%Z then scan_digits base s' (v * base + d)%Z (S n) else (v, n)
      | None => (v, n)
      end
  | [] => (v, n)
  end.

(** [std::from_chars] into a [size_t]: no sign, no blanks, no prefix; [None]
    for [errc::invalid_argument] and [errc::result_out_of_range]. *)
Definition from_chars (base : Z) (s : bytes) : option Z :=
  let '(v, n) := scan_digits base s 0%Z 0 in
  if bool_decide (n = 0) then None
  else if (v <? two64)%Z then Some v else None.

(** ** stringUtils.hpp *)
Fixpoint comma_loop (i : nat) (strings : list bytes) : bytes :=
  match strings with
  | [] => []
  | s :: rest => (if bool_decide (0 < i) then ", " else "") ++ s ++ comma_loop (S i) rest
  end.

Definition getCommaSeparatedString (strings : list bytes) : bytes :=
  match strings with [] => [] | _ => comma_loop 0 strings end.

Fixpoint prefixb_by (eqc : ascii -> ascii -> bool) (p s : bytes) : bool :=
  match p, s with
  | [], _ => true
  | a :: p', b :: s' => eqc b a && prefixb_by eqc p' s'
  | _ :: _, [] => false
  end.

Fixpoint search_by (eqc : ascii -> ascii -> bool) (p s : bytes) : bool :=
  prefixb_by eqc p s ||
  match s with [] => false | _ :: s' => search_by eqc p s' end.

Definition icontains (haystack needle : bytes) : bool :=
  if bool_decide (length needle = 0) then true
  else if bool_decide (length haystack < length needle) then false
  else search_by (fun a b => Ascii.eqb (tolower a) (tolower b)) needle haystack.

Definition toLowerCase (s : bytes) : bytes := map tolower s.

(** [std::views::split]: an empty input has no part, an empty delimiter splits
    between all characters. *)
Fixpoint split_fuel (fuel : nat) (s delim : bytes) : list bytes :=
  match fuel with
  | O => [s]
  | S fuel' =>
      match find_sub delim s with
      | Some i => take i s :: split_fuel fuel' (drop (i + length delim) s) delim
      | None => [s]
      end
  end.

Definition split (s delim : bytes) : list bytes :=
  match s, delim with
  | [], _ => []
  | _, [] => map (fun c => [c]) s
  | _, _ => split_fuel (length s) s delim
  end.

Fixpoint drop_while {A} (p : A -> bool) (s : list A) : list A :=
  match s with
  | c :: s' => if p c then drop_while p s' else s
  | [] => []
  end.

Definition trim (s : bytes) : bytes :=
  rev (drop_while isspace (rev (drop_while isspace s))).

(** ** utils.hpp *)
Definition digit_count (x : Z) : Z :=
  let v := (if (x <? 0)%Z then (- x) mod 2 ^ 32 else x mod 2 ^ 32)%Z in
  (if 1000000000 <=? v then 10
   else if 100000000 <=? v then 9
   else if 10000000 <=? v then 8
   else if 1000000 <=? v then 7
   else if 100000 <=? v then 6
   else if 10000 <=? v then 5
   else if 1000 <=? v then 4
   else if 100 <=? v then 3
   else if 10 <=? v then 2
   else 1)%Z.

(** A vector of string pairs used as an ordered multimap. *)
Abbreviation fields := (list (bytes * bytes)).

Definition has_key {V} (key : bytes) (p : bytes * V) : bool := p.1 =?b key.

Fixpoint assoc_first {V} (key : bytes) (mp : list (bytes * V)) : option V :=
  match mp with
  | [] => None
  | (k, v) :: mp' => if k =?b key then Some v else assoc_first key mp'
  end.

Definition assoc_last {V} (key : bytes) (mp : list (bytes * V)) : option V :=
  assoc_first key (rev mp).

Definition getOrDefault {V} (mp : list (bytes * V)) (key : bytes) (defaultValue : V) : V :=
  default defaultValue (assoc_first key mp).

(** The code ignores [defaultValue] and answers the empty string. *)
Definition getLastOrDefault (mp : fields) (key defaultValue : bytes) : bytes :=
  default ([] : bytes) (assoc_last key mp).

Definition getAllValues (mp : fields) (key : bytes) : list bytes :=
  map snd (List.filter (has_key key) mp).

(** [std::erase_if] on the fields with the given key. *)
Definition erase_key (key : bytes) (mp : fields) : fields :=
  List.filter (fun p => negb (has_key key p)) mp.

(** ** Searching: lemmas *)
Lemma find_if_Some {A} (p : A -> bool) l i :
  find_if p l = Some i ->
  exists x, l !! i = Some x /\ p x = true /\ forallb (fun y => negb (p y)) (take i l) = true.
Proof.
  revert i. induction l as [|x l IH]; intros i; simpl; [done|].
  destruct (p x) eqn:E.
  - intros [= <-]. exists x. by rewrite E.
  - destruct (find_if p l) as [j|]; [|done]. intros [= <-].
    destruct (IH j eq_refl) as (y & Hy & Hp & Hall). exists y. simpl. by rewrite E.
Qed.

Lemma find_if_None {A} (p : A -> bool) l :
  find_if p l = None <-> forallb (fun y => negb (p y)) l = true.
Proof.
  induction l as [|x l IH]; simpl; [done|].
  destruct (p x); simpl; [done|]. rewrite <- IH. by destruct (find_if p l).
Qed.

Lemma find_if_app {A} (p : A -> bool) a x b :
  forallb (fun y => negb (p y)) a = true -> p x = true ->
  find_if p (a ++ x :: b) = Some (length a).
Proof.
  intros Ha Hx. induction a as [|y a IH]; simpl in *; [by rewrite Hx|].
  apply andb_true_iff in Ha as [Hy Ha]. destruct (p y); [done|]. by rewrite IH.
Qed.

Lemma forallb_not_elem (c : ascii) s :
  forallb (fun y => negb (Ascii.eqb c y)) s = true <-> c ∉ s.
Proof.
  induction s as [|a s IH]; simpl; [split; [inversion 2|done]|].
  rewrite andb_true_iff, IH, negb_true_iff, Ascii.eqb_neq, not_elem_of_cons. done.
Qed.

Lemma find_char_Some c s i :
  find_char c s = Some i -> s = take i s ++ c :: drop (S i) s /\ c ∉ take i s.
Proof.
  intros (x & Hx & Hp & Hall)%find_if_Some. apply Ascii.eqb_eq in Hp as <-.
  apply forallb_not_elem in Hall. split; [|done]. by rewrite take_drop_middle.
Qed.

Lemma find_char_None c s : find_char c s = None <-> c ∉ s.
Proof. unfold find_char. by rewrite find_if_None, forallb_not_elem. Qed.

Lemma find_char_app c a b : c ∉ a -> find_char c (a ++ c :: b) = Some (length a).
Proof.
  intros H. apply find_if_app; [by apply forallb_not_elem|]. apply Ascii.eqb_refl.
Qed.

Lemma find_char_lt c s i : find_char c s = Some i -> i < length s.
Proof. intros (x & Hx & _)%find_if_Some. by eapply lookup_lt_Some. Qed.

Lemma prefixb_spec p s : prefixb p s = true <-> exists r, s = p ++ r.
Proof.
  revert s. induction p as [|a p IH]; intros s; simpl; [naive_solver|].
  destruct s as [|b s]; [naive_solver|].
  rewrite andb_true_iff, Ascii.eqb_eq, IH. naive_solver.
Qed.

Lemma prefixb_app p r : prefixb p (p ++ r) = true.
Proof. apply prefixb_spec. by exists r. Qed.

Lemma find_sub_Some p s i :
  find_sub p s = Some i ->
  s = take i s ++ p ++ drop (i + length p) s /\ i + length p <= length s /\
  forall j, j < i -> prefixb p (drop j s) = false.
Proof.
  revert i. induction s as [|a s IH]; intros i; simpl.
  - destruct p; simpl; [|done]. intros [= <-]. simpl. split_and!; [done|lia|lia].
  - destruct (prefixb p (a :: s)) eqn:E.
    + intros [= <-]. apply prefixb_spec in E as [r Hr]. rewrite Hr.
      simpl. rewrite drop_app_length. apply (f_equal length) in Hr.
      rewrite length_app in Hr. simpl in Hr. split_and!; [done|lia|lia].
    + destruct (find_sub p s) as [k|]; [|done]. intros [= <-].
      destruct (IH k eq_refl) as (H1 & H2 & H3). simpl. split_and!.
      * by f_equal.
      * lia.
      * intros [|j] Hj; [done|]. simpl. apply H3. lia.
Qed.

Lemma find_sub_None p s :
  find_sub p s = None -> forall j, j <= length s -> prefixb p (drop j s) = false.
Proof.
  induction s as [|a s IH]; simpl.
  - destruct p; simpl; [done|]. intros _ [|j] Hj; simpl; [done|lia].
  - destruct (prefixb p (a :: s)) eqn:E; [done|].
    destruct (find_sub p s); [done|]. intros _ [|j] Hj; [done|]. simpl. apply IH; [done|lia].
Qed.

Lemma find_sub_app_first p a b :
  (forall j, j < length a -> prefixb p (drop j (a ++ p ++ b)) = false) ->
  find_sub p (a ++ p ++ b) = Some (length a).
Proof.
  intros H. induction a as [|x a IH]; simpl.
  - destruct (p ++ b) eqn:E; simpl; rewrite <- E, prefixb_app; done.
  - pose proof (H 0 ltac:(simpl; lia)) as H0. simpl in H0. rewrite H0.
    rewrite IH; [done|]. intros j Hj. apply (H (S j)). simpl. lia.
Qed.

(** A pattern that starts with a byte absent from [a] cannot start inside [a]. *)
Lemma prefixb_extend p s r : prefixb p s = true -> prefixb p (s ++ r) = true.
Proof. intros [k ->]%prefixb_spec. apply prefixb_spec. exists (k ++ r). by rewrite app_assoc. Qed.

Lemma prefixb_long p s r : length p <= length s -> prefixb p (s ++ r) = prefixb p s.
Proof.
  revert s. induction p as [|a p IH]; intros [|b s] Hl; simpl in *; try done; [lia|].
  by rewrite IH by lia.
Qed.

(** More input does not move the first occurrence. *)
Lemma find_sub_extend p s r i : find_sub p s = Some i -> find_sub p (s ++ r) = Some i.
Proof.
  intros (H1 & H2 & H3)%find_sub_Some.
  assert (take i s ++ p ++ (drop (i + length p) s ++ r) = s ++ r) as He by (rewrite H1 at 3; by rewrite <- !app_assoc).
  rewrite <- He, find_sub_app_first; [by rewrite length_take, Nat.min_l by lia|].
  intros j Hj. rewrite length_take in Hj. rewrite He, drop_app_le by lia.
  rewrite prefixb_long; [apply H3; lia|]. rewrite length_drop. lia.
Qed.

(** An occurrence stays the first when what stands before it is shortened, and is
    found in any prefix that holds it. *)
Lemma find_sub_drop p w k n : find_sub p w = Some k -> n <= k -> find_sub p (drop n w) = Some (k - n).
Proof.
  intros (H1 & H2 & H3)%find_sub_Some Hn.
  assert (drop n w = drop n (take k w) ++ p ++ drop (k + length p) w) as He.
  { rewrite H1 at 1. rewrite drop_app_le; [done|]. rewrite length_take. lia. }
  rewrite He, find_sub_app_first; [f_equal; rewrite length_drop, length_take; lia|].
  intros j Hj. rewrite length_drop, length_take in Hj. rewrite <- He, drop_drop. apply H3. lia.
Qed.

Lemma find_sub_drop_None p w n : find_sub p w = None -> find_sub p (drop n w) = None.
Proof.
  intros Hn. destruct (find_sub p (drop n w)) as [i|] eqn:E; [|done].
  destruct (find_sub_Some _ _ _ E) as (H1 & H2 & _). rewrite length_drop in H2.
  destruct (Nat.le_gt_cases n (length w)) as [Hle|Hgt].
  - pose proof (find_sub_None _ _ Hn (n + i) ltac:(lia)) as Hp. rewrite <- drop_drop in Hp. rewrite H1 in Hp.
    rewrite drop_app_ge in Hp by (rewrite length_take; lia). rewrite length_take, length_drop, Nat.min_l, Nat.sub_diag in Hp by lia.
    by rewrite drop_0, prefixb_app in Hp.
  - pose proof (find_sub_None _ _ Hn (length w) ltac:(lia)) as Hp. rewrite drop_all in Hp.
    assert (length p = 0) as Hl by lia. apply nil_length_inv in Hl. by subst.
Qed.

Lemma find_sub_take p w k m : find_sub p w = Some k -> k + length p <= m -> find_sub p (take m w) = Some k.
Proof.
  intros Hf Hm. destruct (find_sub p (take m w)) as [i|] eqn:E.
  - apply (find_sub_extend _ _ (drop m w)) in E. rewrite take_drop in E. congruence.
  - destruct (find_sub_Some _ _ _ Hf) as (H1 & H2 & _).
    pose proof (find_sub_None _ _ E k ltac:(rewrite length_take; lia)) as Hp.
    assert (drop k (take m w) = p ++ take (m - (k + length p)) (drop (k + length p) w)) as Hd.
    { rewrite H1 at 1. rewrite take_app_ge by (rewrite length_take; lia). rewrite length_take, Nat.min_l by lia.
      rewrite drop_app_ge by (rewrite length_take; lia). rewrite length_take, Nat.min_l, Nat.sub_diag, drop_0 by lia.
      rewrite take_app_ge by lia. do 2 f_equal. lia. }
    by rewrite Hd, prefixb_app in Hp.
Qed.

Lemma find_sub_app_notin c p a b :
  c ∉ a -> find_sub (c :: p) (a ++ (c :: p) ++ b) = Some (length a).
Proof.
  intros Hc. apply find_sub_app_first. intros j Hj.
  rewrite drop_app_le by lia. destruct (drop j a) as [|d r] eqn:E.
  - apply (f_equal length) in E. rewrite length_drop in E. simpl in E. lia.
  - simpl. destruct (Ascii.eqb_spec c d) as [->|]; [|done].
    exfalso. apply Hc. rewrite <- (take_drop j a), E. set_solver.
Qed.

(** ** Numbers: lemmas *)
Lemma digit_val_char d : (0 <= d < 36)%Z -> digit_val (digit_char d) = Some d.
Proof.
  intros H.
  assert (forallb (fun n => bool_decide (digit_val (digit_char (Z.of_nat n)) = Some (Z.of_nat n)))
            (seq 0 36) = true) as Hall by (vm_compute; reflexivity).
  rewrite forallb_forall in Hall. specialize (Hall (Z.to_nat d)).
  rewrite in_seq, bool_decide_eq_true, Z2Nat.id in Hall by lia. apply Hall. lia.
Qed.

Lemma to_chars_fuel_scan fuel base n acc :
  (2 <= base <= 36)%Z -> (0 <= n < base ^ Z.of_nat fuel)%Z -> 0 < fuel ->
  exists L, 1 <= L /\ length (to_chars_fuel fuel base n acc) = L + length acc /\
    (n < base ^ Z.of_nat L)%Z /\ (L = 1 \/ (base ^ (Z.of_nat L - 1) <= n)%Z) /\
    forall v k, scan_digits base (to_chars_fuel fuel base n acc) v k
              = scan_digits base acc (v * base ^ Z.of_nat L + n)%Z (k + L).
Proof.
  intros Hb. revert n acc. induction fuel as [|fuel IH]; intros n acc Hn Hf; [lia|].
  simpl. destruct (Z.ltb_spec n base) as [Hlt|Hge].
  - exists 1. rewrite Z.mod_small by lia. split_and!; [lia|done|change (Z.of_nat 1) with 1%Z; lia|by left|].
    intros v k. simpl. rewrite digit_val_char by lia.
    rewrite (proj2 (Z.ltb_lt n base) Hlt), Z.pow_1_r, Nat.add_1_r. done.
  - rewrite Nat2Z.inj_succ, Z.pow_succ_r in Hn by lia.
    assert (0 <= n / base < base ^ Z.of_nat fuel)%Z as Hq.
    { split; [apply Z.div_pos; lia|]. apply Z.div_lt_upper_bound; lia. }
    assert (0 < fuel) as Hf'.
    { destruct fuel; [|lia]. change (base ^ Z.of_nat 0)%Z with 1%Z in *. lia. }
    destruct (IH (n / base)%Z (digit_char (n mod base) :: acc) Hq Hf')
      as (L & HL & Hlen & Hup & Hlow & Hscan).
    pose proof (Z.mod_pos_bound n base ltac:(lia)) as Hm.
    pose proof (Z.div_mod n base ltac:(lia)) as Hdm.
    exists (S L). rewrite Nat2Z.inj_succ, !Z.pow_succ_r by lia. split_and!.
    + lia.
    + rewrite Hlen. simpl. lia.
    + nia.
    + right. replace (Z.succ (Z.of_nat L) - 1)%Z with (Z.succ (Z.of_nat L - 1)) by lia.
      rewrite Z.pow_succ_r by lia. destruct Hlow as [->|Hlow]; [|nia].
      change (Z.of_nat 1 - 1)%Z with 0%Z. rewrite Z.pow_0_r. lia.
    + intros v k. rewrite Hscan. simpl. rewrite digit_val_char by lia.
      rewrite (proj2 (Z.ltb_lt _ base)) by lia. f_equal; [|lia]. nia.
Qed.

Lemma to_chars_scan base n :
  (2 <= base <= 36)%Z -> is_u64 n ->
  exists L, 1 <= L /\ length (to_chars base n) = L /\
    (n < base ^ Z.of_nat L)%Z /\ (L = 1 \/ (base ^ (Z.of_nat L - 1) <= n)%Z) /\
    forall rest, (forall v k, scan_digits base rest v k = (v, k)) ->
      scan_digits base (to_chars base n ++ rest) 0 0 = (n, L).
Proof.
  intros Hb [H0 H1].
  assert (forall acc, exists L, 1 <= L /\ length (to_chars_fuel 64 base n acc) = L + length acc /\
    (n < base ^ Z.of_nat L)%Z /\ (L = 1 \/ (base ^ (Z.of_nat L - 1) <= n)%Z) /\
    forall v k, scan_digits base (to_chars_fuel 64 base n acc) v k
              = scan_digits base acc (v * base ^ Z.of_nat L + n)%Z (k + L)) as Hall.
  { intros acc. apply to_chars_fuel_scan; [done| |lia]. split; [done|].
    eapply Z.lt_le_trans; [exact H1|]. change two64 with (2 ^ Z.of_nat 64)%Z.
    apply Z.pow_le_mono_l. lia. }
  assert (forall fuel m acc, to_chars_fuel fuel base m acc = to_chars_fuel fuel base m [] ++ acc) as Happ.
  { induction fuel as [|fuel IH]; intros m acc; simpl; [done|].
    destruct (m <? base)%Z; [done|]. rewrite IH, (IH _ [_]). by rewrite <- app_assoc. }
  destruct (Hall []) as (L & HL & Hlen & Hup & Hlow & _).
  exists L. unfold to_chars. rewrite Hlen, Nat.add_0_r. split_and!; [done..|].
  intros rest Hrest. rewrite <- Happ.
  destruct (Hall rest) as (L' & HL' & Hlen' & _ & _ & Hscan).
  rewrite Happ, length_app, Hlen in Hlen'. simpl in Hlen'.
  assert (L' = L) as -> by lia. rewrite Hscan, Hrest. f_equal; lia.
Qed.

(** [std::from_chars] reads back what [std::to_chars] printed. *)
Lemma from_chars_to_chars base n :
  (2 <= base <= 36)%Z -> is_u64 n -> from_chars base (to_chars base n) = Some n.
Proof.
  intros Hb Hn. destruct (to_chars_scan base n Hb Hn) as (L & HL & _ & _ & _ & Hscan).
  specialize (Hscan [] ltac:(done)). rewrite app_nil_r in Hscan.
  unfold from_chars. rewrite Hscan, bool_decide_eq_false_2 by lia.
  unfold is_u64 in Hn. by rewrite (proj2 (Z.ltb_lt _ _)) by lia.
Qed.

Lemma scan_nonneg base s n : (0 < base)%Z -> from_chars base s = Some n -> (0 <= n)%Z.
Proof.
  intros Hb. unfold from_chars.
  assert (forall s v k, (0 <= v)%Z -> (0 <= (scan_digits base s v k).1)%Z) as Hs.
  { clear s. induction s as [|c s IH]; intros v k Hv; simpl; [done|].
    destruct (digit_val c) as [d|] eqn:Ed; [|done]. destruct (Z.ltb_spec d base); [|done]. apply IH.
    assert (0 <= d)%Z; [|nia]. unfold digit_val in Ed.
    revert Ed. destruct (isdigit c) eqn:H1, (islower c) eqn:H2, (isupper c) eqn:H3; intros [= <-];
      unfold isdigit, islower, isupper in *; lia. }
  specialize (Hs s 0%Z 0 ltac:(lia)). destruct (scan_digits _ _ _ _) as [v k]. case_bool_decide; [done|].
  destruct (v <? two64)%Z; [|done]. by intros [= <-].
Qed.

Lemma from_chars_range base s n : from_chars base s = Some n -> (n < two64)%Z.
Proof.
  unfold from_chars. destruct (scan_digits _ _ _ _) as [v k]. case_bool_decide; [done|].
  destruct (Z.ltb_spec v two64); [|done]. by intros [= <-].
Qed.

Lemma from_chars_u64 base s n : (0 < base)%Z -> from_chars base s = Some n -> is_u64 n.
Proof. intros Hb H. split; [by eapply scan_nonneg|by eapply from_chars_range]. Qed.

Lemma digit_count_bounds x :
  (0 <= x < 2 ^ 31)%Z ->
  exists d, digit_count x = d /\ (1 <= d)%Z /\ (x < 10 ^ d)%Z /\
    (d = 1%Z \/ (10 ^ (d - 1) <= x)%Z).
Proof.
  intros Hx. unfold digit_count.
  rewrite (proj2 (Z.ltb_ge x 0)) by lia. rewrite Z.mod_small by lia.
  repeat match goal with
  | |- context [(?a <=? x)%Z] => destruct (Z.leb_spec a x)
  end; eexists; (split; [reflexivity|]); (split; [done|]);
  split; try (left; reflexivity);
  try (right; match goal with |- context [(?d - 1)%Z] =>
         let r := eval vm_compute in (d - 1)%Z in change (d - 1)%Z with r end);
  lia.
Qed.

(** The size precomputed for a decimal number is the number of bytes written. *)
Lemma digit_count_to_chars x :
  (0 <= x < 2 ^ 31)%Z -> digit_count x = Z.of_nat (length (to_chars 10 x)).
Proof.
  intros Hx. destruct (to_chars_scan 10 x ltac:(lia)) as (L & HL & -> & Hup & Hlow & _).
  { unfold is_u64. rewrite two64_val. lia. }
  destruct (digit_count_bounds x Hx) as (d & -> & Hd & Hdup & Hdlow).
  assert (forall a b, (1 <= a)%Z -> (1 <= b)%Z -> (x < 10 ^ a)%Z ->
            (b = 1%Z \/ (10 ^ (b - 1) <= x)%Z) -> (b <= a)%Z) as Hmono.
  { intros a b Ha Hb Hua [->|Hlb]; [lia|]. destruct (Z.le_gt_cases b a); [done|].
    assert (10 ^ a <= 10 ^ (b - 1))%Z by (apply Z.pow_le_mono_r; lia). lia. }
  apply Z.le_antisymm; apply Hmono; try lia; try done.
Qed.

Lemma digit_char_decimal d : (0 <= d < 10)%Z -> isdigit (digit_char d) = true.
Proof.
  intros H.
  assert (forallb (fun n => isdigit (digit_char (Z.of_nat n))) (seq 0 10) = true) as Hall
    by (vm_compute; reflexivity).
  rewrite forallb_forall in Hall. specialize (Hall (Z.to_nat d)).
  rewrite in_seq, Z2Nat.id in Hall by lia. apply Hall. lia.
Qed.

Lemma to_chars_decimal n : (0 <= n)%Z -> forallb isdigit (to_chars 10 n) = true.
Proof.
  assert (forall fuel m acc, (0 <= m)%Z -> forallb isdigit acc = true ->
            forallb isdigit (to_chars_fuel fuel 10 m acc) = true) as Hall.
  { induction fuel as [|fuel IH]; intros m acc Hm Hacc; simpl; [done|].
    pose proof (Z.mod_pos_bound m 10 ltac:(lia)).
    assert (forallb isdigit (digit_char (m mod 10) :: acc) = true).
    { simpl. by rewrite digit_char_decimal by lia. }
    destruct (m <? 10)%Z; [done|]. apply IH; [|done]. apply Z.div_pos; lia. }
  intros Hn. by apply Hall.
Qed.

(** ** [trim] *)
Lemma to_chars_alnum base n : (2 <= base <= 36)%Z -> (0 <= n)%Z -> forallb isalnum (to_chars base n) = true.
Proof.
  intros Hb.
  assert (forall d, (0 <= d < 36)%Z -> isalnum (digit_char d) = true) as Hd.
  { intros d Hd. assert (forallb (fun n => isalnum (digit_char (Z.of_nat n))) (seq 0 36) = true) as Hall
      by (vm_compute; reflexivity).
    rewrite forallb_forall in Hall. rewrite <- (Z2Nat.id d) by lia. apply Hall, in_seq. lia. }
  assert (forall fuel m acc, (0 <= m)%Z -> forallb isalnum acc = true ->
            forallb isalnum (to_chars_fuel fuel base m acc) = true) as Hall.
  { induction fuel as [|fuel IH]; intros m acc Hm Hacc; simpl; [done|].
    assert (forallb isalnum (digit_char (m mod base) :: acc) = true) as Hacc'.
    { simpl. rewrite Hd, Hacc by (pose proof (Z.mod_pos_bound m base); lia). done. }
    destruct (Z.ltb_spec m base); [done|]. apply IH; [|done]. by apply Z.div_pos; lia. }
  intros Hn. by apply Hall.
Qed.

Lemma to_chars_notin base n c :
  (2 <= base <= 36)%Z -> (0 <= n)%Z -> isalnum c = false -> c ∉ to_chars base n.
Proof.
  intros Hb Hn Hc Hin. pose proof (to_chars_alnum base n Hb Hn) as Hall.
  rewrite forallb_forall in Hall. rewrite (Hall c) in Hc; [done|]. by apply list_elem_of_In.
Qed.

Lemma drop_while_head {A} (p : A -> bool) s c r :
  drop_while p s = c :: r -> p c = false.
Proof.
  induction s as [|a s IH]; simpl; [done|]. destruct (p a) eqn:E; [done|].
  by intros [= <- <-].
Qed.

Lemma drop_while_id {A} (p : A -> bool) s :
  match s with c :: _ => p c = false | [] => True end -> drop_while p s = s.
Proof. destruct s as [|a s]; simpl; [done|]. by intros ->. Qed.

Lemma drop_while_suffix {A} (p : A -> bool) s :
  exists a, s = a ++ drop_while p s /\ forallb p a = true.
Proof.
  induction s as [|c s [a [H1 H2]]]; simpl; [by exists []|].
  destruct (p c) eqn:E; [|by exists []]. exists (c :: a). simpl. rewrite E, <- H1. done.
Qed.

(** [trim] removes blanks at both ends and nothing else. *)
Lemma trim_spec s :
  exists a b, s = a ++ trim s ++ b /\ forallb isspace a = true /\ forallb isspace b = true.
Proof.
  unfold trim. destruct (drop_while_suffix isspace s) as (a & H1 & H2).
  destruct (drop_while_suffix isspace (rev (drop_while isspace s))) as (b & H3 & H4).
  exists a, (rev b). split_and!; [|done|].
  - rewrite <- rev_app_distr, <- H3, rev_involutive. done.
  - by rewrite forallb_rev.
Qed.

Definition no_blank_ends (s : bytes) : Prop :=
  match s with c :: _ => isspace c = false | [] => True end /\
  match rev s with c :: _ => isspace c = false | [] => True end.

Lemma trim_id s : no_blank_ends s -> trim s = s.
Proof.
  intros [H1 H2]. unfold trim. rewrite (drop_while_id _ s) by done.
  rewrite drop_while_id by done. apply rev_involutive.
Qed.

(** ** Keys and fields *)
Lemma has_key_eq {V} key (p : bytes * V) : has_key key p = true <-> p.1 = key.
Proof. apply beqb_eq. Qed.

Lemma assoc_first_app {V} key (a b : list (bytes * V)) :
  assoc_first key (a ++ b)
  = match assoc_first key a with Some v => Some v | None => assoc_first key b end.
Proof. induction a as [|[k v] a IH]; simpl; [done|]. by destruct (k =?b key). Qed.

Lemma assoc_first_None {V} key (mp : list (bytes * V)) :
  assoc_first key mp = None <-> key ∉ mp.*1.
Proof.
  induction mp as [|[k v] mp IH]; simpl; [split; [inversion 2|done]|].
  rewrite not_elem_of_cons. destruct (beqb_spec k key) as [->|]; [naive_solver|].
  rewrite IH. naive_solver.
Qed.

Lemma assoc_first_elem {V} key (mp : list (bytes * V)) v :
  assoc_first key mp = Some v -> (key, v) ∈ mp.
Proof.
  induction mp as [|[k w] mp IH]; simpl; [done|]. destruct (beqb_spec k key) as [->|].
  - intros [= ->]. left.
  - intros H. right. by apply IH.
Qed.

Lemma assoc_last_snoc {V} key k v (mp : list (bytes * V)) :
  assoc_last key (mp ++ [(k, v)]) = if k =?b key then Some v else assoc_last key mp.
Proof. unfold assoc_last. rewrite rev_app_distr. simpl. done. Qed.

Lemma assoc_last_None {V} key (mp : list (bytes * V)) :
  assoc_last key mp = None <-> key ∉ mp.*1.
Proof.
  unfold assoc_last. rewrite assoc_first_None.
  split; intros H Hin; apply H; apply list_elem_of_fmap in Hin as ([k v] & -> & Hin);
    apply list_elem_of_fmap; exists (k, v); (split; [done|]);
    apply list_elem_of_In; apply list_elem_of_In in Hin.
  - by apply in_rev in Hin.
  - by apply in_rev.
Qed.

Lemma erase_key_keys key (mp : fields) k :
  k ∈ (erase_key key mp).*1 <-> k ∈ mp.*1 /\ k <> key.
Proof.
  induction mp as [|[k' v] mp IH]; simpl; [set_solver|].
  unfold has_key at 1. simpl. destruct (beqb_spec k' key) as [->|]; simpl;
    rewrite ?elem_of_cons, IH; naive_solver.
Qed.

Lemma erase_key_id key (mp : fields) : key ∉ mp.*1 -> erase_key key mp = mp.
Proof.
  induction mp as [|[k v] mp IH]; simpl; [done|]. rewrite not_elem_of_cons. intros [H1 H2].
  unfold has_key at 1. simpl. destruct (beqb_spec k key) as [->|]; [done|]. simpl. by rewrite IH.
Qed.

Lemma assoc_last_erase_ne key k (mp : fields) :
  k <> key -> assoc_last k (erase_key key mp) = assoc_last k mp.
Proof.
  intros Hne. unfold assoc_last, erase_key.
  induction mp as [|[k' v] mp IH] using rev_ind; simpl; [done|].
  rewrite List.filter_app, !rev_app_distr. simpl. unfold has_key at 1. simpl.
  destruct (beqb_spec k' key) as [->|]; simpl.
  - rewrite IH. by destruct (beqb_spec key k).
  - by rewrite IH.
Qed.

Lemma getAllValues_erase key (mp : fields) : getAllValues (erase_key key mp) key = [].
Proof.
  unfold getAllValues. induction mp as [|[k v] mp IH]; simpl; [done|].
  unfold has_key at 2. simpl. destruct (beqb_spec k key) as [->|Hne]; simpl; [done|].
  unfold has_key at 1. simpl. by rewrite (proj2 (beqb_neq k key) Hne).
Qed.

(** ** Lower case *)
Lemma tolower_idem c : tolower (tolower c) = tolower c.
Proof. destruct c as [[] [] [] [] [] [] [] []]; reflexivity. Qed.

Lemma toLowerCase_idem s : toLowerCase (toLowerCase s) = toLowerCase s.
Proof. unfold toLowerCase. rewrite map_map. apply map_ext, tolower_idem. Qed.

#[export] Hint Rewrite toLowerCase_idem @length_app : rukh.
