(* ===== verification/TypeHelpers.v ===== *)
(** The type traits of the mapper ([TypeHelpers.hpp]): computations on types at compile
    time, as functions on their names; a specialisation that does not compile is [None]. *)
From S2P Require Import Prelude Bytes.

(** The types that the traits tell apart; a tuple of types is a list. *)
Inductive ctype := Named (name : bytes) | Optional (t : ctype) | MemberPointer (class type : ctype).
#[export] Instance ctype_eq_dec : EqDecision ctype.
Proof. solve_decision. Defined.

Definition OptionalT (t : ctype) : bool := match t with Optional _ => true | _ => false end.
Definition FieldPointer (t : ctype) : bool := match t with MemberPointer _ _ => true | _ => false end.

(** One layer is stripped. *)
Definition remove_optional (t : ctype) : ctype := match t with Optional t => t | t => t end.
Definition remove_member_pointer (t : ctype) : ctype := match t with MemberPointer _ t => t | t => t end.
Definition get_field_t (t : ctype) : ctype := remove_member_pointer t.
Definition get_raw_field_t (t : ctype) : ctype := remove_optional (remove_member_pointer t).
Definition get_class (t : ctype) : ctype := match t with MemberPointer c _ => c | t => t end.

Definition AllOptionalFieldPtrs (l : list ctype) : bool := forallb (fun t => OptionalT (get_field_t t)) l.

(** [std::disjunction<std::is_same<T, Ts>...>] *)
Definition is_in_tuple (t : ctype) (l : list ctype) : bool := existsb (fun u => bool_decide (t = u)) l.

(** The specialisations: found at the head, further on, or a failing assertion. *)
Fixpoint get_index_of (t : ctype) (l : list ctype) : option nat :=
  match l with
  | [] => None
  | u :: rest => if decide (t = u) then Some 0 else S <$> get_index_of t rest
  end.

(** A literal with its terminator, and the text that is seen of it. *)
Record FixedString := { fixed_data : bytes }.
Definition FixedString_new (str : bytes) : FixedString := {| fixed_data := str ++ [NUL] |}.
Definition view (s : FixedString) : bytes := take (length (fixed_data s) - 1) (fixed_data s).

Lemma view_new str : view (FixedString_new str) = str.
Proof. unfold view, FixedString_new. cbn [fixed_data]. rewrite length_app. cbn [length]. by rewrite Nat.add_sub, take_app_length. Qed.

(** The index is that of the first occurrence; there is one exactly for the types of the tuple. *)
Lemma get_index_of_first t l i : get_index_of t l = Some i <-> l !! i = Some t /\ forall j, j < i -> l !! j <> Some t.
Proof.
  revert i. induction l as [|u l IH]; intros i; cbn [get_index_of]; [split; [done|by intros [? _]]|].
  destruct (decide (t = u)) as [->|N].
  - split; [intros [= <-]; split; [done|lia]|]. intros [H F]. destruct i as [|i]; [done|]. by destruct (F 0 ltac:(lia)).
  - destruct i as [|i].
    + split; [by intros (j & _ & [=])%fmap_Some|]. intros [[= ->] _]. done.
    + split.
      * intros (j & E & [= ->])%fmap_Some. apply IH in E as [H F]. split; [done|]. intros [|k] Hk; [cbn; congruence|apply F; lia].
      * intros [H F]. apply fmap_Some. exists i. split; [|done]. apply IH. split; [done|]. intros j Hj. apply (F (S j)). lia.
Qed.

Lemma is_in_tuple_index t l : is_in_tuple t l = true <-> is_Some (get_index_of t l).
Proof.
  induction l as [|u l IH]; cbn; [split; [done|by intros [? ?]]|]. rewrite orb_true_iff, IH, bool_decide_eq_true.
  destruct (decide (t = u)) as [->|N]; [by split; eauto|]. rewrite fmap_is_Some. tauto.
Qed.

(** The raw type of a member is its type, without the outermost optional. *)
Lemma raw_field c t : get_raw_field_t (MemberPointer c t) = t \/ get_field_t (MemberPointer c t) = Optional (get_raw_field_t (MemberPointer c t)).
Proof. destruct t; [by left|by right|by left]. Qed.
