(* ===== verification/HttpUtils.v ===== *)
(** Path, percent-encoding and media-type helpers of [httpUtils.hpp].  A path is
    compared with its list of non-empty segments, the reference the router works on. *)
From S2P Require Import Prelude Bytes.

Definition SLASH : ascii := "/"%char.

(** ** Model *)

(** [std::unique]: an element equivalent to the last one kept is dropped. *)
Fixpoint unique_aux (eqc : ascii -> ascii -> bool) (last : ascii) (s : bytes) : bytes :=
  match s with
  | [] => []
  | c :: s' => if eqc last c then unique_aux eqc last s' else c :: unique_aux eqc c s'
  end.

Definition unique (eqc : ascii -> ascii -> bool) (s : bytes) : bytes :=
  match s with [] => [] | c :: s' => c :: unique_aux eqc c s' end.

Definition both_slash (a b : ascii) : bool := Ascii.eqb a SLASH && Ascii.eqb b SLASH.

(** [if (!path.empty() && path.front() == '/') path.erase(0, 1)] *)
Definition erase_front (s : bytes) : bytes :=
  match s with c :: s' => if Ascii.eqb c SLASH then s' else s | [] => [] end.

(** [if (!path.empty() && path.back() == '/') path.pop_back()] *)
Definition erase_back (s : bytes) : bytes :=
  match rev s with c :: s' => if Ascii.eqb c SLASH then rev s' else s | [] => s end.

Definition normalizePath (path : bytes) : bytes :=
  match find_sub "//" path with
  | None => erase_back (erase_front path)
  | Some _ => erase_back (erase_front (unique both_slash path))
  end.

Definition fromHex (c : ascii) : Z :=
  (if isdigit c then code c - 48
   else if (97 <=? code c) && (code c <=? 102) then code c - 97 + 10
   else if (65 <=? code c) && (code c <=? 70) then code c - 65 + 10
   else -1)%Z.

Fixpoint percentDecode (s : bytes) : bytes :=
  match s with
  | [] => []
  | c :: s1 =>
      if Ascii.eqb c "+" then SP :: percentDecode s1
      else if Ascii.eqb c "%" then
        match s1 with
        | h :: l :: s3 =>
            let hi := fromHex h in
            let lo := fromHex l in
            if (negb (hi =? -1) && negb (lo =? -1))%Z
            then chr (Z.lor (Z.shiftl hi 4) lo) :: percentDecode s3
            else c :: percentDecode s1
        | _ => c :: percentDecode s1
        end
      else c :: percentDecode s1
  end.

(** [p[i]] on a [string_view]: undefined past the end. *)
Definition at_ (s : bytes) (i : nat) : outcome ascii :=
  match s !! i with Some c => Ret c | None => Undef end.

Definition mime_match (p v : bytes) : outcome bool :=
  if p =?b "*/*" then Ret true
  else match find_char SLASH p, find_char SLASH v with
  | Some ps, Some vs =>
      p0 ← at_ p 0;
      v0 ← at_ v 0;
      if Ascii.eqb p0 "*" || Ascii.eqb v0 "*" || (take ps p =?b take vs v) then
        p1 ← at_ p (ps + 1);
        if Ascii.eqb p1 "*" then Ret true
        else
          v1 ← at_ v (vs + 1);
          Ret (Ascii.eqb v1 "*" || (drop (ps + 1) p =?b drop (vs + 1) v))
      else Ret false
  | _, _ => Ret false
  end.

(** ** Reference: the segments of a path *)
Fixpoint split_on (c : ascii) (s : bytes) : list bytes :=
  match s with
  | [] => [[]]
  | a :: s' =>
      if Ascii.eqb a c then [] :: split_on c s'
      else match split_on c s' with h :: t => (a :: h) :: t | [] => [[a]] end
  end.

Fixpoint join_with (c : ascii) (l : list bytes) : bytes :=
  match l with
  | [] => []
  | [x] => x
  | x :: l' => x ++ c :: join_with c l'
  end.

Definition segments (s : bytes) : list bytes := filter (fun p => p <> []) (split_on SLASH s).

(** The encoder an HTTP client uses: every byte outside the unreserved set is written [%XX]. *)
Definition unreserved (c : ascii) : bool :=
  isalnum c || (c =? "-")%char || (c =? "_")%char || (c =? ".")%char || (c =? "~")%char.

Definition hex_upper (d : Z) : ascii := if (d <? 10)%Z then chr (48 + d) else chr (55 + d).

Fixpoint percentEncode (s : bytes) : bytes :=
  match s with
  | [] => []
  | c :: s' =>
      if unreserved c then c :: percentEncode s'
      else "%"%char :: hex_upper (code c / 16) :: hex_upper (code c mod 16) :: percentEncode s'
  end.

(** ** Splitting and joining: lemmas *)
Lemma split_on_cons c s : exists h t, split_on c s = h :: t.
Proof.
  destruct s as [|a s]; simpl; [by eexists _, _|].
  destruct (Ascii.eqb a c); [by eexists _, _|].
  destruct (split_on c s); by eexists _, _.
Qed.

Lemma split_on_app c a b : split_on c (a ++ c :: b) = split_on c a ++ split_on c b.
Proof.
  induction a as [|x a IH]; simpl; [by rewrite Ascii.eqb_refl|].
  rewrite IH. destruct (Ascii.eqb x c); [done|].
  by destruct (split_on_cons c a) as (h & t & ->).
Qed.

Lemma split_on_notin c s : c ∉ s -> split_on c s = [s].
Proof.
  induction s as [|a s IH]; simpl; [done|]. rewrite not_elem_of_cons. intros [H1 H2].
  rewrite IH by done. by destruct (Ascii.eqb_spec a c) as [->|].
Qed.

Lemma split_on_parts c s : Forall (fun p => c ∉ p) (split_on c s).
Proof.
  induction s as [|a s IH]; simpl; [constructor; [inversion 1|constructor]|].
  destruct (Ascii.eqb_spec a c) as [->|Hne].
  - constructor; [inversion 1|done].
  - destruct (split_on_cons c s) as (h & t & Hs). rewrite Hs in *.
    apply Forall_cons in IH as [H1 H2]. constructor; [|done]. set_solver.
Qed.

Lemma join_split_on c s : join_with c (split_on c s) = s.
Proof.
  induction s as [|a s IH]; simpl; [done|].
  destruct (split_on_cons c s) as (h & t & Hs). rewrite Hs in *.
  destruct (Ascii.eqb_spec a c) as [->|Hne].
  - simpl in *. by rewrite IH.
  - rewrite <- IH. by destruct t.
Qed.

(** [views::split] on a one-byte delimiter is [split_on]. *)
Lemma split_fuel_split_on c fuel s :
  length s <= fuel -> split_fuel fuel s [c] = split_on c s.
Proof.
  revert s. induction fuel as [|fuel IH]; intros s Hf; simpl.
  { destruct s; [done|simpl in *; lia]. }
  assert (find_sub [c] s = find_char c s) as ->.
  { clear. unfold find_char. induction s as [|a s IH]; simpl; [done|].
    rewrite andb_true_r, IH. done. }
  destruct (find_char c s) as [i|] eqn:E.
  - pose proof (find_char_lt _ _ _ E). apply find_char_Some in E as [E1 E2].
    rewrite Nat.add_1_r, IH by (rewrite length_drop; lia).
    rewrite E1 at 3. rewrite split_on_app, (split_on_notin c (take i s)) by done. done.
  - apply find_char_None in E. by rewrite split_on_notin.
Qed.

Lemma split_char c s : split s [c] = match s with [] => [] | _ => split_on c s end.
Proof. unfold split. destruct s as [|a s]; [done|]. by apply split_fuel_split_on. Qed.

(** ** Segments *)
Lemma segments_app a b : segments (a ++ SLASH :: b) = segments a ++ segments b.
Proof. unfold segments. by rewrite split_on_app, filter_app. Qed.

Lemma segments_nil : segments [] = [].
Proof. reflexivity. Qed.

Lemma segments_slash s : segments (SLASH :: s) = segments s.
Proof. apply (segments_app []). Qed.

Lemma segments_erase_front s : segments (erase_front s) = segments s.
Proof.
  destruct s as [|c s]; simpl; [done|].
  destruct (Ascii.eqb_spec c SLASH) as [->|]; [by rewrite segments_slash|done].
Qed.

Lemma segments_erase_back s : segments (erase_back s) = segments s.
Proof.
  unfold erase_back. destruct (rev s) as [|c r] eqn:E; [done|].
  apply (f_equal (@rev ascii)) in E. rewrite rev_involutive in E. simpl in E. subst s.
  destruct (Ascii.eqb_spec c SLASH) as [->|]; [|done].
  by rewrite segments_app, segments_nil, app_nil_r.
Qed.

Lemma filter_nonempty_cons (x : ascii) h (t : list bytes) :
  filter (fun p => p <> []) ((x :: h) :: t) = (x :: h) :: filter (fun p => p <> []) t.
Proof. by apply filter_cons_True. Qed.

Lemma filter_nonempty_nil (t : list bytes) :
  filter (fun p => p <> []) ([] :: t) = filter (fun p => p <> []) t.
Proof. apply filter_cons_False. auto. Qed.

Lemma segments_cons_cong x s s' :
  head s = head s' -> segments s = segments s' -> segments (x :: s) = segments (x :: s').
Proof.
  intros Hh Hs. destruct (Ascii.eqb_spec x SLASH) as [->|Hx]; [by rewrite !segments_slash|].
  unfold segments in *. simpl. destruct (Ascii.eqb_spec x SLASH) as [|_]; [done|].
  destruct s as [|a s], s' as [|a' s']; simpl in Hh; try done.
  injection Hh as ->. simpl in *.
  destruct (Ascii.eqb a' SLASH) eqn:E.
  - rewrite !filter_nonempty_nil in Hs. by rewrite !filter_nonempty_cons, Hs.
  - destruct (split_on_cons SLASH s) as (h & t & Ht).
    destruct (split_on_cons SLASH s') as (h' & t' & Ht'). rewrite Ht, Ht' in *.
    rewrite !filter_nonempty_cons in *. congruence.
Qed.

Lemma segments_unique_aux x s :
  segments (x :: unique_aux both_slash x s) = segments (x :: s).
Proof.
  revert x. induction s as [|c s IH]; intros x; simpl; [done|].
  destruct (both_slash x c) eqn:E.
  - unfold both_slash in E. apply andb_true_iff in E as [->%Ascii.eqb_eq ->%Ascii.eqb_eq].
    by rewrite IH, !segments_slash.
  - by apply segments_cons_cong.
Qed.

Lemma segments_unique s : segments (unique both_slash s) = segments s.
Proof. destruct s; [done|]. apply segments_unique_aux. Qed.

Lemma segments_normalizePath s : segments (normalizePath s) = segments s.
Proof.
  unfold normalizePath. destruct (find_sub "//" s);
    by rewrite segments_erase_back, segments_erase_front, ?segments_unique.
Qed.

(** No two slashes in a row. *)
Definition no_double (s : bytes) : Prop :=
  forall a b, s <> a ++ SLASH :: SLASH :: b.

Lemma no_double_tail c s : no_double (c :: s) -> no_double s.
Proof. intros H a b ->. by apply (H (c :: a) b). Qed.

Lemma no_double_find s : find_sub "//" s = None -> no_double s.
Proof.
  intros H a b ->. pose proof (find_sub_None _ _ H (length a)) as Hp.
  rewrite drop_app_length in Hp. specialize (Hp ltac:(rewrite length_app; lia)).
  done.
Qed.

Lemma no_double_unique s : no_double (unique both_slash s).
Proof.
  destruct s as [|x s]; simpl; [by intros [] ? ?|].
  revert x. induction s as [|c s IH]; intros x; simpl.
  - intros a b Heq. apply (f_equal length) in Heq. rewrite length_app in Heq. simpl in Heq. lia.
  - destruct (both_slash x c) eqn:E; [apply IH|].
    intros [|y a] b Heq; simpl in Heq.
    + by injection Heq as -> -> _.
    + injection Heq as _ Heq. by eapply IH.
Qed.

Lemma no_double_parts c s :
  no_double (c :: s) -> last (c :: s) <> Some SLASH ->
  Forall (fun p => p <> []) (split_on SLASH (if Ascii.eqb c SLASH then s else c :: s)).
Proof.
  revert c. induction s as [|a s IH]; intros c Hnd Hl; simpl.
  - destruct (Ascii.eqb_spec c SLASH) as [->|Hc]; [done|]. simpl.
    destruct (Ascii.eqb_spec c SLASH); [done|]. by repeat constructor.
  - specialize (IH a (no_double_tail _ _ Hnd) Hl).
    destruct (Ascii.eqb_spec c SLASH) as [->|Hc].
    + destruct (Ascii.eqb_spec a SLASH) as [->|Ha]; [by destruct (Hnd [] s)|done].
    + destruct (Ascii.eqb_spec a SLASH) as [->|Ha].
      * simpl. destruct (Ascii.eqb_spec c SLASH); [done|]. by constructor.
      * simpl in *. destruct (Ascii.eqb_spec c SLASH), (Ascii.eqb_spec a SLASH); try done.
        destruct (split_on_cons SLASH s) as (h & t & Ht). rewrite Ht in *.
        apply Forall_cons in IH as [? ?]. by constructor.
Qed.

(** A path without double slash and without a slash at either end is the join of its segments. *)
Lemma clean_join s :
  no_double s -> head s <> Some SLASH -> last s <> Some SLASH ->
  join_with SLASH (segments s) = s.
Proof.
  intros Hnd Hh Hl. destruct s as [|c s]; [done|].
  assert (c <> SLASH) as Hc by (intros ->; done).
  pose proof (no_double_parts c s Hnd Hl) as H.
  destruct (Ascii.eqb_spec c SLASH) as [|_]; [done|].
  unfold segments. rewrite filter_all by done. apply join_split_on.
Qed.

Lemma no_double_erase_front s : no_double s -> no_double (erase_front s).
Proof.
  destruct s as [|c s]; simpl; [done|]. intros H. destruct (Ascii.eqb c SLASH); [|done].
  by eapply no_double_tail.
Qed.

Lemma head_erase_front s : no_double s -> head (erase_front s) <> Some SLASH.
Proof.
  destruct s as [|c s]; simpl; [done|]. intros H.
  destruct (Ascii.eqb_spec c SLASH) as [->|]; [|by intros [= ->]].
  destruct s as [|a s]; simpl; [done|]. intros [= ->]. by apply (H [] s).
Qed.

Lemma erase_back_spec s :
  no_double s -> head s <> Some SLASH ->
  no_double (erase_back s) /\ head (erase_back s) <> Some SLASH /\
  last (erase_back s) <> Some SLASH.
Proof.
  intros Hnd Hh. unfold erase_back. destruct (rev s) as [|c r] eqn:E.
  { apply (f_equal (@rev ascii)) in E. rewrite rev_involutive in E. by subst s. }
  apply (f_equal (@rev ascii)) in E. rewrite rev_involutive in E. simpl in E. subst s.
  destruct (Ascii.eqb_spec c SLASH) as [->|Hc].
  - split_and!.
    + intros a b Heq. apply (Hnd a (b ++ [SLASH])). rewrite Heq, <- app_assoc. done.
    + by destruct (rev r).
    + destruct r as [|d r]; simpl; [done|]. rewrite last_snoc. intros [= ->].
      apply (Hnd (rev r) []). simpl. by rewrite <- app_assoc.
  - split_and!; [done..|]. rewrite last_snoc. by intros [= ->].
Qed.

Lemma normalizePath_join s : normalizePath s = join_with SLASH (segments s).
Proof.
  rewrite <- segments_normalizePath. symmetry.
  assert (forall u, no_double u -> join_with SLASH (segments (erase_back (erase_front u)))
                                   = erase_back (erase_front u)) as Hu.
  { intros u Hu. destruct (erase_back_spec (erase_front u)) as (H1 & H2 & H3).
    - by apply no_double_erase_front.
    - by apply head_erase_front.
    - by apply clean_join. }
  unfold normalizePath. destruct (find_sub "//" s) eqn:E; apply Hu.
  - apply no_double_unique.
  - by apply no_double_find.
Qed.

Lemma segments_nonempty s : Forall (fun p => p <> [] /\ SLASH ∉ p) (segments s).
Proof.
  unfold segments. apply Forall_forall. intros p [Hp Hin]%list_elem_of_filter.
  pose proof (split_on_parts SLASH s) as H. rewrite Forall_forall in H. auto.
Qed.

(** Joining segments and splitting again gives them back. *)
Lemma segments_join l :
  Forall (fun p => p <> [] /\ SLASH ∉ p) l -> segments (join_with SLASH l) = l.
Proof.
  induction 1 as [|p l [Hp Hs] Hl IH]; [done|].
  assert (segments p = [p]) as Hseg.
  { unfold segments. rewrite split_on_notin by done.
    destruct p; [done|]. by rewrite filter_nonempty_cons. }
  destruct l as [|q l]; [done|].
  change (join_with SLASH (p :: q :: l)) with (p ++ SLASH :: join_with SLASH (q :: l)).
  by rewrite segments_app, IH, Hseg.
Qed.

(** ** Percent decoding: lemmas *)
Lemma hex_upper_val d : (0 <= d < 16)%Z -> fromHex (hex_upper d) = d.
Proof.
  intros H.
  assert (forallb (fun n => bool_decide (fromHex (hex_upper (Z.of_nat n)) = Z.of_nat n))
            (seq 0 16) = true) as Hall by (vm_compute; reflexivity).
  rewrite forallb_forall in Hall. specialize (Hall (Z.to_nat d)).
  rewrite in_seq, bool_decide_eq_true, Z2Nat.id in Hall by lia. apply Hall. lia.
Qed.

Lemma code_range c : (0 <= code c < 256)%Z.
Proof. unfold code. pose proof (N_ascii_bounded c). lia. Qed.

Lemma chr_code c : chr (code c) = c.
Proof. unfold chr, code. by rewrite N2Z.id, ascii_N_embedding. Qed.

Lemma nibbles z : (0 <= z < 256)%Z -> Z.lor (Z.shiftl (z / 16) 4) (z mod 16) = z.
Proof.
  intros H. rewrite Z.shiftl_mul_pow2 by lia. change (2 ^ 4)%Z with 16%Z.
  assert (forallb (fun n => bool_decide
            (Z.lor (Z.of_nat n / 16 * 16) (Z.of_nat n mod 16) = Z.of_nat n)%Z)
            (seq 0 256) = true) as Hall by (vm_compute; reflexivity).
  rewrite forallb_forall in Hall. specialize (Hall (Z.to_nat z)).
  rewrite in_seq, bool_decide_eq_true, Z2Nat.id in Hall by lia. apply Hall. lia.
Qed.

Lemma unreserved_plain c : unreserved c = true -> Ascii.eqb c "+" = false /\ Ascii.eqb c "%" = false.
Proof. destruct c as [[] [] [] [] [] [] [] []]; vm_compute; done. Qed.

Lemma percentDecode_plain c s :
  Ascii.eqb c "+" = false -> Ascii.eqb c "%" = false ->
  percentDecode (c :: s) = c :: percentDecode s.
Proof. simpl. by intros -> ->. Qed.

Lemma percentDecode_length s : length (percentDecode s) <= length s.
Proof.
  enough (forall n s, length s <= n -> length (percentDecode s) <= length s) by eauto.
  clear s. intros n. induction n as [|n IH]; intros s Hn.
  { destruct s; simpl in *; lia. }
  destruct s as [|c s1]; simpl in *; [lia|].
  pose proof (IH s1 ltac:(lia)).
  destruct (Ascii.eqb c "+"); [simpl; lia|]. destruct (Ascii.eqb c "%"); [|simpl; lia].
  destruct s1 as [|h [|l s3]]; [cbn [length] in *; lia..|].
  pose proof (IH s3 ltac:(cbn [length] in *; lia)).
  case_match; cbn [length] in *; lia.
Qed.

Lemma percentDecode_inv s : percentDecode (percentEncode s) = s.
Proof.
  induction s as [|c s IH]; [done|]. cbn [percentEncode].
  destruct (unreserved c) eqn:E.
  - destruct (unreserved_plain c E). by rewrite percentDecode_plain, IH.
  - pose proof (code_range c) as Hc.
    assert (0 <= code c / 16 < 16)%Z by (split; [apply Z.div_pos; lia|apply Z.div_lt_upper_bound; lia]).
    pose proof (Z.mod_pos_bound (code c) 16 ltac:(lia)).
    cbn [percentDecode]. change (Ascii.eqb "%" "+") with false.
    change (Ascii.eqb "%" "%") with true. cbn [negb].
    rewrite !hex_upper_val by lia.
    assert ((code c / 16 =? -1)%Z = false) as -> by lia.
    assert ((code c mod 16 =? -1)%Z = false) as -> by lia.
    cbn [negb andb]. by rewrite nibbles, chr_code, IH.
Qed.

Module HttpUtilsProps.
(** [normalizePath], with its fast path and its slow path, computes the
    non-empty segments of the path joined by single slashes; so it is idempotent
    and the result never starts or ends with a slash or holds an empty segment. *)
Theorem normalizePath_segments (path : bytes) :
  normalizePath path = join_with SLASH (segments path) /\
  segments (normalizePath path) = segments path /\
  normalizePath (normalizePath path) = normalizePath path.
Proof.
  rewrite !normalizePath_join. split_and!; [done| |];
    rewrite segments_join by apply segments_nonempty; done.
Qed.

(** decoding what a client percent-encoded gives the original bytes, for
    every byte string, and decoding never makes a string longer. *)
Theorem percentDecode_encode (s : bytes) :
  percentDecode (percentEncode s) = s /\
  length (percentDecode s) <= length s.
Proof.
  split; [apply percentDecode_inv|apply percentDecode_length].
Qed.
End HttpUtilsProps.
