(* ===== verification/Ranges.v ===== *)
(** Byte ranges: the parsing of the [Range] header ([HttpRequest::getRanges]) and
    [validateAndCleanRanges] of [httpUtils.hpp], with the byte selection of RFC 9110
    as the reference. *)
From S2P Require Import Prelude Bytes.

#[local] Open Scope Z_scope.

(** ** Model *)

(** [HttpRequest::Range] *)
Abbreviation range := (option Z * option Z)%type.

(** The loop of [getRanges] over the text after "bytes=". *)
Fixpoint ranges_loop (fuel : nat) (rangeHeader : bytes) (ranges : list range) : list range :=
  match fuel with
  | O => ranges
  | S fuel' =>
      match rangeHeader with
      | [] => ranges
      | _ =>
          let rangeEnd := find_char "," rangeHeader in
          let rng := match rangeEnd with None => rangeHeader | Some i => take i rangeHeader end in
          let next := match rangeEnd with None => [] | Some i => drop (i + 1) rangeHeader end in
          match find_char "-" rng with
          | None => []
          | Some dash =>
              let start := from_chars 10 (take dash rng) in
              let end_ := from_chars 10 (drop (dash + 1) rng) in
              match start, end_ with
              | None, None => ranges_loop fuel' next ranges
              | _, _ => ranges_loop fuel' next (ranges ++ [(start, end_)])
              end
          end
      end
  end.

(** [HttpRequest::getRanges] on the value of the header. *)
Definition parse_ranges (rangeHeader : bytes) : list range :=
  match rangeHeader with
  | [] => []
  | _ =>
      match find_sub "bytes=" rangeHeader with
      | None => []
      | Some rangestart =>
          let h := drop (rangestart + 6) rangeHeader in
          ranges_loop (length h) h []
      end
  end.

(** One iteration of the first loop of [validateAndCleanRanges]: [None] is
    [return false]; reading [*end] of an open-ended range is undefined. *)
Definition clean_range (fileSize : Z) (r : range) : outcome (option (Z * Z)) :=
  let check (start end_ : Z) : outcome (option (Z * Z)) :=
    if end_ <? start then Ret None
    else if fileSize <=? start then Ret None
    else Ret (Some (start, end_)) in
  match r with
  | (None, None) => Ret None
  | (None, Some end_) =>
      check (if fileSize <=? end_ then 0 else u64 (fileSize - end_)) (u64 (fileSize - 1))
  | (Some start, None) => Undef
  | (Some start, Some end_) =>
      check start (if fileSize <=? end_ then u64 (fileSize - 1) else end_)
  end.

Fixpoint clean_ranges (fileSize : Z) (l : list range) : outcome (option (list (Z * Z))) :=
  match l with
  | [] => Ret (Some [])
  | r :: l' =>
      c ← clean_range fileSize r;
      match c with
      | None => Ret None
      | Some p =>
          rest ← clean_ranges fileSize l';
          Ret (option_map (cons p) rest)
      end
  end.

Definition by_start (a b : Z * Z) : bool := a.1 <? b.1.

(** The second loop: [cur] is [merged.back()]. *)
Fixpoint merge_loop (cur : Z * Z) (l : list (Z * Z)) : list (Z * Z) :=
  match l with
  | [] => [cur]
  | r :: l' =>
      if r.1 <=? u64 (cur.2 + 1) then merge_loop (cur.1, Z.max cur.2 r.2) l'
      else cur :: merge_loop r l'
  end.

Definition validateAndCleanRanges `{StdSort} (ranges : list range) (fileSize : Z) :
    outcome (option (list (Z * Z))) :=
  match ranges with
  | [] => Ret (Some [])
  | _ =>
      c ← clean_ranges fileSize ranges;
      match c with
      | None => Ret None
      | Some l =>
          match std_sort by_start l with
          | [] => Undef
          | r0 :: rest => Ret (Some (merge_loop r0 rest))
          end
      end
  end.

(** ** Reference *)

(** The bytes a range selects of a representation of [fileSize] bytes (RFC 9110, 14.1.2). *)
Definition selects (fileSize : Z) (r : range) (b : Z) : Prop :=
  match r with
  | (Some s, Some e) => s <= b <= e /\ b < fileSize
  | (None, Some n) => fileSize - n <= b < fileSize /\ 0 <= b
  | (Some s, None) => s <= b < fileSize
  | (None, None) => False
  end.

Definition covers (l : list (Z * Z)) (b : Z) : Prop := Exists (fun p => p.1 <= b <= p.2) l.

(** Disjoint and not even adjacent, in increasing order. *)
Definition gapped (l : list (Z * Z)) : Prop :=
  Forall (fun p => p.1 <= p.2) l /\ StronglySorted (fun a b => a.2 + 1 < b.1) l.

Definition range_wf (r : range) : Prop :=
  match r.1 with Some s => is_u64 s | None => True end /\
  match r.2 with Some e => is_u64 e | None => True end.

Definition closed_range (r : range) : Prop := r.2 <> None \/ r.1 = None.

(** How a client writes a range set. *)
Definition print_bound (o : option Z) : bytes :=
  match o with Some z => to_string z | None => [] end.

Definition print_range (r : range) : bytes := print_bound r.1 ++ "-" ++ print_bound r.2.

Fixpoint print_set (l : list range) : bytes :=
  match l with
  | [] => []
  | [r] => print_range r
  | r :: l' => print_range r ++ "," ++ print_set l'
  end.

Definition print_ranges (l : list range) : bytes := "bytes=" ++ print_set l.

(** ** Lemmas *)
Lemma ranges_loop_wf fuel h acc : Forall range_wf acc -> Forall range_wf (ranges_loop fuel h acc).
Proof.
  assert (B : forall s, match from_chars 10 s with Some z => is_u64 z | None => True end).
  { intros s. destruct (from_chars 10 s) eqn:E; [|done]. by apply (from_chars_u64 10 s). }
  revert h acc. induction fuel as [|fuel IH]; intros h acc Ha; [done|]. cbn [ranges_loop]. destruct h as [|c h]; [done|].
  destruct (find_char "-" _) as [dash|]; [|done]. set (s := take dash _). set (e := drop (dash + 1) _).
  pose proof (B s) as Bs. pose proof (B e) as Be.
  destruct (from_chars 10 s), (from_chars 10 e); apply IH; try done;
    (apply Forall_app; split; [done|]; constructor; [by split|constructor]).
Qed.

Lemma parse_ranges_wf h : Forall range_wf (parse_ranges h).
Proof. unfold parse_ranges. destruct h; [done|]. destruct (find_sub _ _); [|done]. by apply ranges_loop_wf. Qed.

Lemma clean_range_spec fs r s e :
  is_u64 fs -> range_wf r -> clean_range fs r = Ret (Some (s, e)) ->
  0 <= s <= e /\ e < fs /\ forall b, s <= b <= e <-> selects fs r b.
Proof.
  unfold is_u64, range_wf, clean_range, selects, u64. rewrite two64_val.
  intros Hfs Hwf. destruct r as [[a|] [c|]]; simpl in *; try done;
    unfold is_u64 in *; rewrite ?two64_val in *;
    repeat match goal with
    | |- context [(?x <=? ?y)] => destruct (Z.leb_spec x y)
    | |- context [(?x <? ?y)] => destruct (Z.ltb_spec x y)
    end; try done; intros [= <- <-];
    rewrite ?Z.mod_small in * by lia; split_and!; intros; lia.
Qed.

Lemma clean_ranges_spec fs l cl :
  is_u64 fs -> Forall range_wf l -> clean_ranges fs l = Ret (Some cl) ->
  length cl = length l /\
  Forall (fun p => 0 <= p.1 <= p.2 /\ p.2 < fs) cl /\
  forall b, covers cl b <-> Exists (fun r => selects fs r b) l.
Proof.
  intros Hfs Hwf. revert cl. induction Hwf as [|r l Hr Hl IH]; intros cl; simpl.
  { intros [= <-]. split_and!; [done|done|]. intros b. unfold covers. by rewrite !Exists_nil. }
  intros Hc. inv_ret. destruct x as [[s e]|]; [|done]. inv_ret.
  destruct x as [cl'|]; simpl in *; [|done]. simplify_eq.
  destruct (clean_range_spec fs r s e Hfs Hr) as (H1 & H2 & H3); [done|].
  destruct (IH cl') as (H4 & H5 & H6); [done|]. split_and!.
  - simpl. by rewrite H4.
  - by constructor.
  - intros b. unfold covers in *. by rewrite !Exists_cons, H6, <- H3.
Qed.

Lemma merge_loop_covers cur l b :
  cur.2 < two64 - 1 -> 0 <= cur.1 <= cur.2 ->
  Forall (fun p => 0 <= p.1 <= p.2 /\ p.2 < two64 - 1) l ->
  StronglySorted (fun a b => by_start b a = false) (cur :: l) ->
  covers (merge_loop cur l) b <-> covers (cur :: l) b.
Proof.
  rewrite two64_val. intros Hc H0 Hl Hs. revert cur Hc H0 Hs.
  induction Hl as [|r l [Hr Hr2] Hl IH]; intros cur Hc H0 Hs; simpl; [done|].
  apply StronglySorted_inv in Hs as [Hs Hhd]. apply StronglySorted_inv in Hs as [Hs Hhd'].
  apply Forall_cons in Hhd as [Hcr Hhd]. unfold by_start in Hcr. apply Z.ltb_ge in Hcr.
  unfold u64. rewrite two64_val, Z.mod_small by lia.
  unfold covers in *. destruct (Z.leb_spec r.1 (cur.2 + 1)).
  - rewrite (IH (cur.1, Z.max cur.2 r.2)); simpl; [|lia|lia|by constructor].
    rewrite !Exists_cons. simpl.
    assert (cur.1 <= b <= Z.max cur.2 r.2 <-> cur.1 <= b <= cur.2 \/ r.1 <= b <= r.2) by lia.
    tauto.
  - rewrite !Exists_cons, IH; [|lia|lia|by constructor]. by rewrite !Exists_cons.
Qed.

Lemma merge_loop_gapped cur l :
  cur.2 < two64 - 1 -> 0 <= cur.1 <= cur.2 ->
  Forall (fun p => 0 <= p.1 <= p.2 /\ p.2 < two64 - 1) l ->
  StronglySorted (fun a b => by_start b a = false) (cur :: l) ->
  gapped (merge_loop cur l) /\ Forall (fun p => cur.1 <= p.1) (merge_loop cur l).
Proof.
  rewrite two64_val. intros Hc H0 Hl Hs. revert cur Hc H0 Hs.
  induction Hl as [|r l [Hr Hr2] Hl IH]; intros cur Hc H0 Hs; simpl.
  { repeat constructor; lia. }
  apply StronglySorted_inv in Hs as [Hs Hhd]. apply StronglySorted_inv in Hs as [Hs Hhd'].
  apply Forall_cons in Hhd as [Hcr Hhd]. unfold by_start in Hcr. apply Z.ltb_ge in Hcr.
  unfold u64. rewrite two64_val, Z.mod_small by lia.
  destruct (Z.leb_spec r.1 (cur.2 + 1)).
  - apply (IH (cur.1, Z.max cur.2 r.2)); simpl; [lia|lia|by constructor].
  - destruct (IH r) as [[Hok Hsrt] Hge]; [lia|lia|by constructor|].
    split; [split|].
    + by constructor; [lia|].
    + constructor; [done|]. eapply Forall_impl; [exact Hge|]. simpl. lia.
    + constructor; [lia|]. eapply Forall_impl; [exact Hge|]. simpl. lia.
Qed.

Lemma merge_loop_nonempty cur l : merge_loop cur l <> [].
Proof. revert cur. induction l as [|r l IH]; intros cur; simpl; [done|]. by destruct (_ <=? _). Qed.

Lemma by_start_sw P : strict_weak_on P by_start.
Proof. unfold by_start. split; intros; rewrite ?Z.ltb_lt, ?Z.ltb_ge in *; lia. Qed.

Lemma covers_perm l l' b : l ≡ₚ l' -> covers l b <-> covers l' b.
Proof. unfold covers. intros Hp. by rewrite Hp. Qed.

(** Two gapped lists that cover the same bytes are equal. *)
Lemma gapped_unique l l' :
  gapped l -> gapped l' -> (forall b, covers l b <-> covers l' b) -> l = l'.
Proof.
  unfold gapped, covers. revert l'.
  assert (forall (p : Z * Z) (l : list (Z * Z)) b, Forall (fun p => p.1 <= p.2) l ->
            Forall (fun q => p.2 + 1 < q.1) l -> Exists (fun q => q.1 <= b <= q.2) l -> p.2 + 1 < b) as Hout.
  { intros p m b _ Hm. rewrite Exists_exists. intros (q & Hq & ?).
    rewrite Forall_forall in Hm. specialize (Hm q Hq). simpl in *. lia. }
  induction l as [|[s e] l IH]; intros [|[s' e'] l'] [Hf Hg] [Hf' Hg'] Hc; simpl in *.
  - done.
  - apply Forall_cons in Hf' as [? _]. specialize (Hc s').
    rewrite Exists_nil, Exists_cons in Hc. simpl in *. exfalso. apply Hc. left. lia.
  - apply Forall_cons in Hf as [? _]. specialize (Hc s).
    rewrite Exists_nil, Exists_cons in Hc. simpl in *. exfalso. apply Hc. left. lia.
  - apply Forall_cons in Hf as [H1 Hf]. apply Forall_cons in Hf' as [H1' Hf'].
    apply StronglySorted_inv in Hg as [Hg Hh]. apply StronglySorted_inv in Hg' as [Hg' Hh'].
    pose proof (Hout (s, e) l) as Ho. pose proof (Hout (s', e') l') as Ho'. simpl in *.
    assert (forall b, s <= b <= e \/ Exists (fun q => q.1 <= b <= q.2) l <->
                      s' <= b <= e' \/ Exists (fun q => q.1 <= b <= q.2) l') as Hc'.
    { intros b. specialize (Hc b). by rewrite !Exists_cons in Hc. }
    assert (s = s') as ->.
    { destruct (proj1 (Hc' s) ltac:(lia)) as [|HE]; destruct (proj2 (Hc' s') ltac:(lia)) as [|HE'];
      try (pose proof (Ho s' Hf Hh HE')); try (pose proof (Ho' s Hf' Hh' HE)); lia. }
    assert (e = e') as ->.
    { destruct (Z.lt_trichotomy e e') as [Hlt|[|Hlt]]; [|done|].
      - destruct (proj2 (Hc' (e + 1)) ltac:(lia)) as [|HE]; [lia|]. pose proof (Ho _ Hf Hh HE). lia.
      - destruct (proj1 (Hc' (e' + 1)) ltac:(lia)) as [|HE]; [lia|]. pose proof (Ho' _ Hf' Hh' HE). lia. }
    f_equal. apply IH; [done..|]. intros b. specialize (Hc' b).
    split; intros HE; [pose proof (Ho b Hf Hh HE)|pose proof (Ho' b Hf' Hh' HE)];
      destruct Hc' as [Ha Hb]; [destruct (Ha (or_intror HE))|destruct (Hb (or_intror HE))];
      try done; lia.
Qed.

Lemma clean_ranges_closed fs l :
  Forall closed_range l -> clean_ranges fs l <> Undef /\ (forall e, clean_ranges fs l <> Throw e).
Proof.
  induction 1 as [|[[s|] [e|]] l Hr Hl [IH IH']]; simpl; try done;
    unfold closed_range in Hr; simpl in Hr; try (by destruct Hr);
    repeat match goal with |- context [if ?b then _ else _] => destruct b end; simpl; try done;
    destruct (clean_ranges fs l); try done; split; try done;
    by intros e0; specialize (IH' e0).
Qed.

Lemma clean_range_none fs r :
  is_u64 fs -> range_wf r -> closed_range r ->
  clean_range fs r = Ret None <-> forall b, ~ selects fs r b.
Proof.
  unfold clean_range, closed_range, selects, is_u64, range_wf, u64. rewrite two64_val.
  intros Hfs Hwf Hcl. destruct r as [[s|] [e|]]; simpl in *; unfold is_u64 in *; rewrite ?two64_val in *.
  - destruct (Z.leb_spec fs e) as [He|He]; rewrite ?(Z.mod_small (fs - 1)) in * by lia;
      repeat match goal with
      | |- context [(?x <=? ?y)] => destruct (Z.leb_spec x y)
      | |- context [(?x <? ?y)] => destruct (Z.ltb_spec x y)
      end; rewrite ?(Z.mod_small (fs - 1)) in * by lia;
      split; intros Hn; first [done | intros; lia | exfalso; apply (Hn s); lia].
  - by destruct Hcl.
  - destruct (decide (fs = 0)) as [->|Hfs0].
    { rewrite (proj2 (Z.leb_le 0 e)) by lia. destruct (_ <? _); simpl; split; intros; first [done | lia]. }
    rewrite (Z.mod_small (fs - 1)) by lia.
    destruct (Z.leb_spec fs e) as [He|He]; rewrite ?Z.mod_small in * by lia;
      repeat match goal with
      | |- context [(?x <=? ?y)] => destruct (Z.leb_spec x y)
      | |- context [(?x <? ?y)] => destruct (Z.ltb_spec x y)
      end; split; intros Hn; first [done | intros; lia | exfalso; apply (Hn (fs - 1)); lia].
  - split; [intros _ _; tauto|done].
Qed.

Lemma clean_ranges_none fs l :
  is_u64 fs -> Forall range_wf l -> Forall closed_range l ->
  clean_ranges fs l = Ret None <-> Exists (fun r => forall b, ~ selects fs r b) l.
Proof.
  intros Hfs Hwf. induction Hwf as [|r l Hr Hl IH]; intros Hc; simpl.
  { by rewrite Exists_nil. }
  apply Forall_cons in Hc as [Hcr Hc]. rewrite Exists_cons, <- IH by done.
  rewrite <- clean_range_none by done.
  destruct (clean_ranges_closed fs [r]) as [Hu Ht]; [by constructor|]. simpl in Hu, Ht.
  destruct (clean_range fs r) as [[p|]|e|]; simpl in *; try done.
  - destruct (clean_ranges fs l) as [[cl|]|e|]; simpl; naive_solver.
  - naive_solver.
  - by destruct (Ht e).
Qed.

Lemma validate_cons `{StdSort} ranges fs out :
  ranges <> [] -> validateAndCleanRanges ranges fs = Ret (Some out) ->
  exists cl r0 rest, clean_ranges fs ranges = Ret (Some cl) /\
    std_sort by_start cl = r0 :: rest /\ out = merge_loop r0 rest.
Proof.
  intros Hne. unfold validateAndCleanRanges. destruct ranges as [|r l]; [done|]. intros Hv.
  inv_ret. destruct x as [cl|]; [|done]. destruct (std_sort by_start cl) as [|r0 rest] eqn:E; [done|].
  exists cl, r0, rest. by injection Hv.
Qed.

(** What the merged output is, whatever the sort. *)
Lemma validate_spec `{StdSort} ranges fs out :
  is_u64 fs -> Forall range_wf ranges -> ranges <> [] ->
  validateAndCleanRanges ranges fs = Ret (Some out) ->
  gapped out /\ Forall (fun p => 0 <= p.1 /\ p.2 < fs) out /\ out <> [] /\
  forall b, covers out b <-> Exists (fun r => selects fs r b) ranges.
Proof.
  intros Hfs Hwf Hne Hv.
  destruct (validate_cons _ _ _ Hne Hv) as (cl & r0 & rest & Hcl & Hsort & ->).
  destruct (clean_ranges_spec fs ranges cl Hfs Hwf Hcl) as (_ & Hok & Hcov).
  pose proof (std_sort_perm by_start cl (by_start_sw _)) as Hp.
  pose proof (std_sort_sorted by_start cl (by_start_sw _)) as Hs.
  rewrite Hsort in Hp, Hs. rewrite <- Hp in Hok. apply Forall_cons in Hok as [Hr0 Hrest].
  assert (Forall (fun p => 0 <= p.1 <= p.2 /\ p.2 < two64 - 1) rest) as Hb.
  { eapply Forall_impl; [exact Hrest|]. unfold is_u64 in Hfs. simpl. lia. }
  unfold is_u64 in Hfs.
  assert (forall b, covers (merge_loop r0 rest) b <-> Exists (fun r => selects fs r b) ranges) as Hc.
  { intros b. rewrite merge_loop_covers; [|lia|lia|done|done]. rewrite <- Hcov. by apply covers_perm. }
  destruct (merge_loop_gapped r0 rest ltac:(lia) ltac:(lia) Hb Hs) as [Hg Hge].
  split_and!; [done| |intros Hnil|done].
  - apply Forall_forall. intros p Hin. rewrite Forall_forall in Hge. pose proof (Hge p Hin).
    split; [lia|]. destruct Hg as [Hle _]. rewrite Forall_forall in Hle. pose proof (Hle p Hin).
    assert (covers (merge_loop r0 rest) p.2) as Hcp.
    { apply Exists_exists. exists p. simpl in *. split; [done|lia]. }
    apply Hc in Hcp. apply Exists_exists in Hcp as (r & _ & Hsel).
    destruct r as [[?|] [?|]]; simpl in Hsel; lia.
  - by apply (merge_loop_nonempty r0 rest).
Qed.

Lemma print_bound_plain c o :
  match o with Some z => is_u64 z | None => True end -> isdigit c = false -> c ∉ print_bound o.
Proof.
  destruct o as [z|]; simpl; [|intros _ _; inversion 1]. intros Hz Hc Hin.
  unfold to_string in Hin. unfold is_u64 in Hz. rewrite (proj2 (Z.ltb_ge z 0)) in Hin by lia.
  pose proof (to_chars_decimal z (proj1 Hz)) as Hd. rewrite forallb_forall in Hd.
  apply list_elem_of_In in Hin. specialize (Hd c Hin). congruence.
Qed.

Lemma from_chars_print_bound o :
  match o with Some z => is_u64 z | None => True end -> from_chars 10 (print_bound o) = o.
Proof.
  destruct o as [z|]; simpl; [|done]. intros Hz. unfold to_string.
  unfold is_u64 in Hz. rewrite (proj2 (Z.ltb_ge z 0)) by lia. apply from_chars_to_chars; [lia|done].
Qed.

Lemma print_range_dash r :
  range_wf r -> (","%char ∉ print_range r) /\ find_char "-" (print_range r) = Some (length (print_bound r.1)).
Proof.
  intros [H1 H2]. unfold print_range. split.
  - rewrite !not_elem_of_app. split_and!; try (by apply print_bound_plain).
    simpl. rewrite not_elem_of_cons. split; [done|inversion 1].
  - apply find_char_app. by apply print_bound_plain.
Qed.

Lemma ranges_loop_print fuel l acc :
  Forall range_wf l -> Forall (fun r => r <> (None, None)) l ->
  (length (print_set l) <= fuel)%nat -> ranges_loop fuel (print_set l) acc = acc ++ l.
Proof.
  revert l acc. induction fuel as [|fuel IH]; intros l acc Hwf Hne Hf.
  { destruct l as [|r [|r' l]]; [by rewrite app_nil_r|..]; simpl in Hf;
      unfold print_range in Hf; rewrite ?length_app in Hf; simpl in Hf; lia. }
  destruct Hwf as [|r l Hr Hl]; [by rewrite app_nil_r|].
  apply Forall_cons in Hne as [Hrn Hne]. destruct (print_range_dash r Hr) as [Hc Hd].
  assert (exists a s, print_range r = a :: s) as (a & s & Hcons).
  { unfold print_range. destruct (print_bound r.1); simpl; by eexists _, _. }
  assert (from_chars 10 (take (length (print_bound r.1)) (print_range r)) = r.1) as Ha.
  { unfold print_range. rewrite take_app_length. by apply from_chars_print_bound, Hr. }
  assert (from_chars 10 (drop (length (print_bound r.1) + 1) (print_range r)) = r.2) as Hb.
  { unfold print_range. rewrite drop_app_length_plus. simpl. rewrite drop_0.
    by apply from_chars_print_bound, Hr. }
  destruct l as [|r' l].
  - cbn [print_set ranges_loop]. rewrite Hcons. rewrite <- Hcons.
    rewrite (proj2 (find_char_None _ _) Hc), Hd.
    rewrite Ha, Hb. transitivity (ranges_loop fuel [] (acc ++ [r])).
    { by destruct r as [[?|] [?|]]. }
    etransitivity; [apply (IH [] (acc ++ [r])); [constructor|constructor|simpl; lia]|].
    by rewrite app_nil_r.
  - change (print_set (r :: r' :: l)) with (print_range r ++ ","%char :: print_set (r' :: l)) in *.
    cbn [ranges_loop]. rewrite Hcons at 1. simpl app at 1.
    rewrite find_char_app by done. rewrite take_app_length, drop_app_length_plus, Hd.
    change (drop 1 (","%char :: print_set (r' :: l))) with (print_set (r' :: l)).
    rewrite Ha, Hb. transitivity (ranges_loop fuel (print_set (r' :: l)) (acc ++ [r])).
    + by destruct r as [[?|] [?|]].
    + rewrite IH; [by rewrite <- app_assoc|done|done|].
      rewrite length_app in Hf. simpl in *. lia.
Qed.

Module RangesProps.
(** C17: when [validateAndCleanRanges] accepts a range set, its output is a
    non-empty list of disjoint, non-adjacent ranges in increasing order inside the
    file that covers exactly the bytes the requested ranges select. *)
Theorem validate_correct `{StdSort} (ranges : list range) (fileSize : Z) out :
  is_u64 fileSize -> Forall range_wf ranges -> ranges <> [] ->
  validateAndCleanRanges ranges fileSize = Ret (Some out) ->
  gapped out /\ Forall (fun p => 0 <= p.1 /\ p.2 < fileSize) out /\ out <> [] /\
  forall b, covers out b <-> Exists (fun r => selects fileSize r b) ranges.
Proof. apply validate_spec. Qed.

(** the result does not depend on how [std::sort] orders ranges with the
    same start: any two conforming sorts give the same merged list. *)
Theorem validate_sort_independent (S1 S2 : StdSort) (ranges : list range) (fileSize : Z) o1 o2 :
  is_u64 fileSize -> Forall range_wf ranges ->
  @validateAndCleanRanges S1 ranges fileSize = Ret (Some o1) ->
  @validateAndCleanRanges S2 ranges fileSize = Ret (Some o2) -> o1 = o2.
Proof.
  intros Hfs Hwf H1 H2. destruct (decide (ranges = [])) as [->|Hne]; [by simplify_eq/=|].
  destruct (@validate_spec S1 _ _ _ Hfs Hwf Hne H1) as (Hg1 & _ & _ & Hc1).
  destruct (@validate_spec S2 _ _ _ Hfs Hwf Hne H2) as (Hg2 & _ & _ & Hc2).
  apply gapped_unique; [done..|]. intros b. by rewrite Hc1, Hc2.
Qed.

(** a header "bytes=..." printed from a non-empty range set parses back to
    that set: explicit, open-ended and suffix ranges, in order. *)
Theorem ranges_roundtrip (l : list range) :
  Forall range_wf l -> Forall (fun r => r <> (None, None)) l ->
  parse_ranges (print_ranges l) = l.
Proof.
  intros Hwf Hne. unfold parse_ranges, print_ranges.
  assert (find_sub "bytes=" ("bytes=" ++ print_set l) = Some 0%nat) as ->.
  { by apply (find_sub_app_first "bytes=" [] (print_set l)); simpl; lia. }
  simpl. rewrite drop_0. by apply (ranges_loop_print _ l []).
Qed.

(** an open-ended range "N-", which [getRanges] produces from a valid header,
    makes [validateAndCleanRanges] read a disengaged optional; a set without
    open-ended ranges always gets an answer, and it is the rejection (416) exactly
    when one of the ranges selects no byte. *)
Theorem validate_total `{StdSort} (fileSize start : Z) (ranges : list range) :
  validateAndCleanRanges ((Some start, None) :: ranges) fileSize = Undef /\
  (Forall closed_range ranges -> Forall range_wf ranges -> is_u64 fileSize ->
   (exists res, validateAndCleanRanges ranges fileSize = Ret res) /\
   (validateAndCleanRanges ranges fileSize = Ret None <->
    Exists (fun r => forall b, ~ selects fileSize r b) ranges)).
Proof.
  split; [done|]. intros Hc Hwf Hfs. unfold validateAndCleanRanges.
  destruct ranges as [|r l]; [split; [by eexists|by rewrite Exists_nil]|].
  rewrite <- clean_ranges_none by done.
  destruct (clean_ranges_closed fileSize (r :: l) Hc) as [Hu Ht].
  destruct (clean_ranges fileSize (r :: l)) as [[cl|]|e|] eqn:E;
    [|split; [by eexists|done]|by destruct (Ht e)|done].
  cbn [mbind outcome_bind]. destruct (std_sort by_start cl) eqn:Es.
  - destruct (clean_ranges_spec fileSize (r :: l) cl Hfs Hwf E) as (Hlen & _).
    pose proof (std_sort_perm by_start cl (by_start_sw _)) as Hp. rewrite Es in Hp.
    apply Permutation_nil in Hp. by subst cl.
  - split; [by eexists|]. done.
Qed.
End RangesProps.

(** ** Witnesses *)
Module RangesWitnesses.
Import RangesProps.

Definition sample : list range := [(Some 20, Some 40); (Some 5, Some 9); (Some 0, Some 5); (None, Some 8)].

Lemma sample_wf : Forall range_wf sample.
Proof. repeat constructor; vm_compute; intuition congruence. Qed.

Lemma validate_correct_witness :
  gapped [(0, 9); (20, 29)] /\ covers [(0, 9); (20, 29)] 7.
Proof.
  destruct (@validate_correct InsertionSort.insertion_sort sample 30 [(0, 9); (20, 29)])
    as (Hg & _ & _ & Hc).
  - vm_compute. intuition congruence.
  - exact sample_wf.
  - discriminate.
  - vm_compute. reflexivity.
  - split; [exact Hg|]. apply Hc. right. left. vm_compute. intuition congruence.
Defined.

(** A sort that differs from insertion sort on equal elements only. *)
Definition rev_sort : StdSort.
Proof.
  refine {| std_sort A lt l := InsertionSort.sort lt (rev l) |}.
  - intros A lt l _. rewrite InsertionSort.sort_perm. symmetry. apply Permutation_rev.
  - intros A lt l SW. apply InsertionSort.sort_sorted.
    destruct SW as [H1 H2 H3].
    assert (forall x, x ∈ rev l -> x ∈ l) as Hr by (intros x; by rewrite !list_elem_of_In, <- in_rev).
    split; eauto 10.
Defined.

Lemma validate_sort_independent_witness :
  let dup := [(Some 3, Some 4); (Some 3, Some 9)] in
  @validateAndCleanRanges InsertionSort.insertion_sort dup 30 = Ret (Some [(3, 9)]) /\
  @validateAndCleanRanges rev_sort dup 30 = Ret (Some [(3, 9)]) /\ [(3, 9)] = [(3, 9)].
Proof.
  intros dup. split; [vm_compute; reflexivity|]. split; [vm_compute; reflexivity|].
  apply (validate_sort_independent InsertionSort.insertion_sort rev_sort dup 30).
  - vm_compute. intuition congruence.
  - repeat constructor; vm_compute; intuition congruence.
  - vm_compute. reflexivity.
  - vm_compute. reflexivity.
Defined.

Lemma ranges_roundtrip_witness :
  print_ranges [(Some 0, Some 499); (Some 9500, None); (None, Some 500)] = "bytes=0-499,9500-,-500" /\
  parse_ranges "bytes=0-499,9500-,-500" = [(Some 0, Some 499); (Some 9500, None); (None, Some 500)].
Proof.
  split; [vm_compute; reflexivity|].
  apply (ranges_roundtrip [(Some 0, Some 499); (Some 9500, None); (None, Some 500)]).
  - repeat constructor; vm_compute; intuition congruence.
  - repeat constructor; discriminate.
Defined.

Lemma validate_total_witness :
  exists res, @validateAndCleanRanges InsertionSort.insertion_sort sample 30 = Ret res.
Proof.
  apply (@validate_total InsertionSort.insertion_sort 30 0 sample).
  - repeat constructor; vm_compute; intuition congruence.
  - exact sample_wf.
  - vm_compute. intuition congruence.
Defined.
End RangesWitnesses.
