(* ===== verification/HeaderStore.v ===== *)
(** The header store of responses ([HeaderStore.hpp]): an ordered list of fields
    whose keys are lower case.  The operations are those of the class; the
    requests ([HttpRequest.v]) reuse the primitives [set_field] and [add_field]. *)
From S2P Require Import Prelude Bytes.

(** ** Primitives on the vector of pairs *)

(** [std::erase_if] on the key, then [emplace_back]. *)
Definition set_field (key value : bytes) (headers_ : fields) : fields :=
  erase_key key headers_ ++ [(key, value)].

(** [emplace_back], except that a singleton header already present is kept. *)
Definition add_field (singletons : list bytes) (key value : bytes) (headers_ : fields) : fields :=
  if existsb (beqb key) singletons then
    match find_if (has_key key) headers_ with
    | None => headers_ ++ [(key, value)]
    | Some _ => headers_
    end
  else headers_ ++ [(key, value)].

(** ** The class *)
Definition singletonHeaders_ : list bytes :=
  literals ["content-length"; "content-type"; "transfer-encoding"; "date"; "server"; "location"].

Definition getHeader (name : bytes) (headers_ : fields) : bytes :=
  getLastOrDefault headers_ (toLowerCase name) "".

Definition getHeaderLower (name : bytes) (headers_ : fields) : bytes :=
  getLastOrDefault headers_ name "".

Definition getHeaders (name : bytes) (headers_ : fields) : list bytes :=
  getAllValues headers_ (toLowerCase name).

Definition getHeadersLower (name : bytes) (headers_ : fields) : list bytes :=
  getAllValues headers_ name.

Definition setHeader (name value : bytes) (headers_ : fields) : fields :=
  let lowerKey := toLowerCase name in set_field lowerKey value headers_.

Definition setHeaderLower (lowercaseKey value : bytes) (headers_ : fields) : fields :=
  set_field lowercaseKey value headers_.

Definition addHeader (name value : bytes) (headers_ : fields) : fields :=
  let key := toLowerCase name in add_field singletonHeaders_ key value headers_.

Definition addHeaderLower (lowercaseKey value : bytes) (headers_ : fields) : fields :=
  add_field singletonHeaders_ lowercaseKey value headers_.

Definition removeHeader (name : bytes) (headers_ : fields) : fields :=
  let key := toLowerCase name in erase_key key headers_.

Definition setCacheControl (cacheControlHeader : bytes) (headers_ : fields) : fields :=
  setHeaderLower "cache-control" cacheControlHeader headers_.

Definition setContentRange (start end_ filesize : Z) (headers_ : fields) : fields :=
  setHeaderLower "content-range"
    ("bytes " ++ to_string start ++ "-" ++ to_string end_ ++ "/" ++ to_string filesize) headers_.

(** ** Operations as data, for statements about any sequence of calls *)
Inductive header_op :=
| OpSet (name value : bytes)
| OpAdd (name value : bytes)
| OpRemove (name : bytes)
| OpCacheControl (value : bytes)
| OpContentRange (start end_ filesize : Z).

Definition run_op (o : header_op) (hs : fields) : fields :=
  match o with
  | OpSet n v => setHeader n v hs
  | OpAdd n v => addHeader n v hs
  | OpRemove n => removeHeader n hs
  | OpCacheControl v => setCacheControl v hs
  | OpContentRange s e f => setContentRange s e f hs
  end.

Definition run_ops (l : list header_op) : fields := fold_left (fun hs o => run_op o hs) l [].

(** ** The invariant *)
Definition lower_keys (hs : fields) : Prop := Forall (fun p => toLowerCase p.1 = p.1) hs.

Definition count_key (key : bytes) (hs : fields) : nat := length (getAllValues hs key).

Definition singles_once (singletons : list bytes) (hs : fields) : Prop :=
  forall key, existsb (beqb key) singletons = true -> count_key key hs <= 1.

(** ** Lemmas *)
Lemma assoc_last_set key k v hs :
  assoc_last k (set_field key v hs) = if key =?b k then Some v else assoc_last k hs.
Proof.
  unfold set_field. rewrite assoc_last_snoc. destruct (beqb_spec key k) as [|Hne]; [done|].
  by apply assoc_last_erase_ne.
Qed.

Lemma getAllValues_app a b key : getAllValues (a ++ b) key = getAllValues a key ++ getAllValues b key.
Proof. unfold getAllValues. by rewrite List.filter_app, map_app. Qed.

Lemma getAllValues_notin key (hs : fields) : key ∉ hs.*1 -> getAllValues hs key = [].
Proof.
  unfold getAllValues. induction hs as [|[k v] hs IH]; simpl; [done|].
  rewrite not_elem_of_cons. intros [Hne Hin]. unfold has_key at 1. simpl.
  rewrite (proj2 (beqb_neq k key)) by congruence. by apply IH.
Qed.

Lemma getAllValues_single key k v : getAllValues [(k, v)] key = if k =?b key then [v] else [].
Proof. unfold getAllValues. simpl. unfold has_key. simpl. by destruct (k =?b key). Qed.

Lemma getAllValues_erase_ne key k (hs : fields) :
  k <> key -> getAllValues (erase_key key hs) k = getAllValues hs k.
Proof.
  intros Hne. induction hs as [|[k' v] hs IH]; [done|].
  rewrite (getAllValues_app [(k', v)] hs k : getAllValues ((k', v) :: hs) k = _).
  rewrite getAllValues_single. simpl. unfold has_key at 1. simpl.
  destruct (beqb_spec k' key) as [->|]; simpl.
  - by rewrite (proj2 (beqb_neq key k)) by congruence.
  - rewrite (getAllValues_app [(k', v)] _ k : getAllValues ((k', v) :: _) k = _).
    by rewrite getAllValues_single, IH.
Qed.

Lemma find_key_None key (hs : fields) : find_if (has_key key) hs = None <-> key ∉ hs.*1.
Proof.
  rewrite find_if_None. induction hs as [|[k v] hs IH]; simpl; [split; [inversion 2|done]|].
  rewrite andb_true_iff, IH, negb_true_iff, not_elem_of_cons. unfold has_key. simpl.
  rewrite beqb_neq. naive_solver.
Qed.

Lemma find_key_Some key (hs : fields) i : find_if (has_key key) hs = Some i -> key ∈ hs.*1.
Proof.
  intros H. destruct (decide (key ∈ hs.*1)) as [|Hn]; [done|].
  apply find_key_None in Hn. congruence.
Qed.

Lemma getAllValues_elem key (hs : fields) : key ∈ hs.*1 -> getAllValues hs key <> [].
Proof.
  unfold getAllValues. induction hs as [|[a b] hs IH]; simpl; [by inversion 1|].
  unfold has_key at 1. simpl. destruct (beqb_spec a key) as [->|]; [done|].
  intros [|]%elem_of_cons; [congruence|]. auto.
Qed.

Lemma lower_keys_set key v hs : toLowerCase key = key -> lower_keys hs -> lower_keys (set_field key v hs).
Proof.
  intros Hk H. unfold set_field, lower_keys. apply Forall_app. split; [|by repeat constructor].
  unfold lower_keys, erase_key in *. rewrite Forall_forall in *. intros p Hp. apply H.
  apply list_elem_of_In in Hp. apply filter_In in Hp as [Hp _]. by apply list_elem_of_In.
Qed.

Lemma lower_keys_erase key hs : lower_keys hs -> lower_keys (erase_key key hs).
Proof.
  unfold lower_keys, erase_key. rewrite !Forall_forall. intros H p Hp. apply H.
  apply list_elem_of_In in Hp. apply filter_In in Hp as [Hp _]. by apply list_elem_of_In.
Qed.

Lemma lower_keys_add sg key v hs : toLowerCase key = key -> lower_keys hs -> lower_keys (add_field sg key v hs).
Proof.
  intros Hk H. assert (lower_keys (hs ++ [(key, v)])).
  { apply Forall_app. split; [done|by repeat constructor]. }
  unfold add_field. destruct (existsb _ _); [|done]. by destruct (find_if _ hs).
Qed.

Lemma count_set key k v hs :
  count_key k (set_field key v hs) = if key =?b k then 1 else count_key k hs.
Proof.
  unfold count_key, set_field. rewrite getAllValues_app, length_app, getAllValues_single.
  destruct (beqb_spec key k) as [->|Hne]; simpl.
  - by rewrite getAllValues_erase.
  - by rewrite getAllValues_erase_ne, Nat.add_0_r by done.
Qed.

Lemma singles_once_set sg key v hs : singles_once sg hs -> singles_once sg (set_field key v hs).
Proof. intros H k Hk. rewrite count_set. destruct (key =?b k); [lia|by apply H]. Qed.

Lemma singles_once_erase sg key hs : singles_once sg hs -> singles_once sg (erase_key key hs).
Proof.
  intros H k Hk. unfold count_key. destruct (decide (k = key)) as [->|].
  - rewrite getAllValues_erase. simpl. lia.
  - rewrite getAllValues_erase_ne by done. by apply H.
Qed.

Lemma singles_once_add sg key v hs : singles_once sg hs -> singles_once sg (add_field sg key v hs).
Proof.
  intros H k Hk. unfold add_field. destruct (existsb (beqb key) sg) eqn:E.
  - destruct (find_if (has_key key) hs) eqn:F; [by apply H|].
    apply find_key_None in F. unfold count_key. rewrite getAllValues_app, length_app, getAllValues_single.
    destruct (beqb_spec key k) as [->|]; simpl.
    + rewrite getAllValues_notin by done. simpl. lia.
    + rewrite Nat.add_0_r. by apply H.
  - unfold count_key. rewrite getAllValues_app, length_app, getAllValues_single.
    destruct (beqb_spec key k) as [->|]; simpl; [congruence|].
    rewrite Nat.add_0_r. by apply H.
Qed.

Lemma count_add_other sg key k v hs : k <> key -> getAllValues (add_field sg key v hs) k = getAllValues hs k.
Proof.
  intros Hne. assert (getAllValues (hs ++ [(key, v)]) k = getAllValues hs k).
  { rewrite getAllValues_app, getAllValues_single, (proj2 (beqb_neq key k)) by congruence.
    apply app_nil_r. }
  unfold add_field. destruct (existsb _ _); [|done]. by destruct (find_if _ hs).
Qed.

#[export] Hint Resolve lower_keys_set lower_keys_erase lower_keys_add
  singles_once_set singles_once_erase singles_once_add toLowerCase_idem : rukh.

(** after any sequence of header operations every stored key is lower case
    and every singleton header occurs at most once. *)
Theorem header_ops_invariant (l : list header_op) :
  lower_keys (run_ops l) /\ singles_once singletonHeaders_ (run_ops l).
Proof.
  unfold run_ops. assert (lower_keys [] /\ singles_once singletonHeaders_ []) as H.
  { split; [constructor|]. intros k _. unfold count_key. simpl. lia. }
  revert H. generalize (@nil (bytes * bytes)) as hs.
  induction l as [|o l IH]; intros hs [Hl Hs]; simpl; [done|]. apply IH.
  destruct o; split; simpl; unfold setHeader, addHeader, removeHeader, setCacheControl,
    setContentRange, setHeaderLower; auto with rukh.
Qed.

(** header names are case-insensitive: setting a name makes every spelling of
    it read the new value, exactly once, and leaves the other names alone; removing
    it makes every spelling absent; adding to a singleton keeps the first value. *)
Theorem header_lookup (n n' v : bytes) (hs : fields) :
  getHeader n' (setHeader n v hs)
    = (if toLowerCase n =?b toLowerCase n' then v else getHeader n' hs) /\
  getHeaders n' (setHeader n v hs)
    = (if toLowerCase n =?b toLowerCase n' then [v] else getHeaders n' hs) /\
  getHeaders n' (removeHeader n hs)
    = (if toLowerCase n =?b toLowerCase n' then [] else getHeaders n' hs) /\
  getHeaders n' (addHeader n v hs)
    = (if (toLowerCase n =?b toLowerCase n') &&
          negb (existsb (beqb (toLowerCase n)) singletonHeaders_ &&
                bool_decide (getHeaders n hs <> []))
       then getHeaders n' hs ++ [v] else getHeaders n' hs).
Proof.
  unfold getHeader, getHeaders, setHeader, removeHeader, addHeader, getLastOrDefault.
  rewrite assoc_last_set. set (k := toLowerCase n). set (k' := toLowerCase n').
  split_and!.
  - by destruct (k =?b k').
  - unfold set_field. rewrite getAllValues_app, getAllValues_single.
    destruct (beqb_spec k k') as [->|]; [by rewrite getAllValues_erase|].
    by rewrite getAllValues_erase_ne, app_nil_r by done.
  - destruct (beqb_spec k k') as [->|]; [by rewrite getAllValues_erase|].
    by rewrite getAllValues_erase_ne by done.
  - destruct (beqb_spec k k') as [->|Hne]; [|by rewrite count_add_other by done].
    unfold add_field. generalize (existsb (beqb k') singletonHeaders_) as b.
    intros [|]; cbn [andb negb].
    + destruct (find_if (has_key k') hs) as [i|] eqn:F.
      * rewrite bool_decide_eq_true_2; [done|].
        by apply getAllValues_elem, (find_key_Some _ _ i).
      * apply find_key_None in F. rewrite bool_decide_eq_false_2 by (rewrite getAllValues_notin; auto).
        cbn [negb]. by rewrite getAllValues_app, getAllValues_single, beqb_refl.
    + by rewrite getAllValues_app, getAllValues_single, beqb_refl.
Qed.
