(* ===== verification/ServerConfig.v ===== *)
(** The server's configuration ([ServerConfig.hpp]): process-wide mutable limits,
    here one record that the components take as an argument.  Sizes and times
    are [Z]; [STATIC_CACHE_DIR] and [EPOLL_WAIT_TIMEOUT_S] (a double, here in
    milliseconds) are kept for completeness. *)
From S2P Require Import Prelude Bytes.

Definition KB : Z := 1024.
Definition MB : Z := 1024 * KB.
Definition GB : Z := 1024 * MB.

Record ServerConfig := {
  INACTIVITY_TIMEOUT_S : Z;
  FORMATION_TIMEOUT_S : Z;
  GRACEFUL_SHUTDOWN_TIMEOUT_S : Z;
  EPOLL_WAIT_TIMEOUT_MS : Z;
  CONNECTION_CLOSE_MAX_BYTES : Z;
  GRACEFUL_CONNECTION_CLOSE_TIMEOUT_S : Z;
  SINGLE_READ_BYTES : Z;
  MAX_HEADER_BYTES : Z;
  MAX_CONTENT_LENGTH : Z;
  MAX_TE_CHUNK_LENGTH : Z;
  MAX_TE_LENGTH : Z;
  MAX_WRITE_BUFFER_BYTES : Z;
  FILE_CONTENT_CACHE_THRESHOLD : Z;
  FILE_BUFFERING_THRESHOLD : Z;
  MAX_MULTIPART_CONTENT_LENGTH : Z;
  MAX_MULTIPART_TE_LENGTH : Z;
  MAX_MULTIPART_FIELD_SIZE : Z;
  MAX_MULTIPART_FILE_SIZE : Z;
  MAX_MULTIPART_PART_HEADER_SIZE : Z;
  MAX_MULTIPART_PARTS : Z;
  MAX_MULTIPART_BOUNDARY_LENGTH : Z;
  MULTIPART_BUFFER_SIZE : Z;
  ENABLE_STATIC_COMPRESSION : bool;
  COMPRESSION_BUFFER_SIZE : Z;
  STATIC_STREAM_CHUNK_SIZE : Z;
  STATIC_CACHE_DIR : bytes;
  IO_URING_RING_SIZE : Z;
  PIPE_BUFFER_SIZE : Z;
  COMPRESS_MIN_BYTES : Z;
  STATIC_GZIP_COMPRESS_LEVEL : Z;
  CONNECTION_LIMIT : Z;
  serverName_ : bytes;
  serverLine_ : bytes;
}.

(** The initialisers of the class. *)
Definition default_config : ServerConfig := {|
  INACTIVITY_TIMEOUT_S := 20;
  FORMATION_TIMEOUT_S := 120;
  GRACEFUL_SHUTDOWN_TIMEOUT_S := 20;
  EPOLL_WAIT_TIMEOUT_MS := 5;
  CONNECTION_CLOSE_MAX_BYTES := 16 * KB;
  GRACEFUL_CONNECTION_CLOSE_TIMEOUT_S := 2;
  SINGLE_READ_BYTES := 1 * KB;
  MAX_HEADER_BYTES := 8 * KB;
  MAX_CONTENT_LENGTH := 1 * MB;
  MAX_TE_CHUNK_LENGTH := 1 * MB;
  MAX_TE_LENGTH := 10 * MB;
  MAX_WRITE_BUFFER_BYTES := 32 * MB;
  FILE_CONTENT_CACHE_THRESHOLD := 64 * KB;
  FILE_BUFFERING_THRESHOLD := 64 * KB;
  MAX_MULTIPART_CONTENT_LENGTH := 50 * MB;
  MAX_MULTIPART_TE_LENGTH := 50 * MB;
  MAX_MULTIPART_FIELD_SIZE := 64 * KB;
  MAX_MULTIPART_FILE_SIZE := 20 * MB;
  MAX_MULTIPART_PART_HEADER_SIZE := 8 * KB;
  MAX_MULTIPART_PARTS := 256;
  MAX_MULTIPART_BOUNDARY_LENGTH := 64;
  MULTIPART_BUFFER_SIZE := 4 * KB;
  ENABLE_STATIC_COMPRESSION := true;
  COMPRESSION_BUFFER_SIZE := 64 * KB;
  STATIC_STREAM_CHUNK_SIZE := 8 * MB;
  STATIC_CACHE_DIR := "./.server_cache";
  IO_URING_RING_SIZE := 256;
  PIPE_BUFFER_SIZE := 1 * MB;
  COMPRESS_MIN_BYTES := 512 * KB;
  STATIC_GZIP_COMPRESS_LEVEL := 1;
  CONNECTION_LIMIT := 100000;
  serverName_ := "rukh/v2.9.0";
  serverLine_ := "server: rukh/v2.9.0" ++ CRLF;
|}.

Definition setServerName (name : bytes) (c : ServerConfig) : outcome ServerConfig :=
  if bool_decide (name = []) then Throw (RuntimeError "Server name cannot be empty")
  else Ret {|
    INACTIVITY_TIMEOUT_S := INACTIVITY_TIMEOUT_S c;
    FORMATION_TIMEOUT_S := FORMATION_TIMEOUT_S c;
    GRACEFUL_SHUTDOWN_TIMEOUT_S := GRACEFUL_SHUTDOWN_TIMEOUT_S c;
    EPOLL_WAIT_TIMEOUT_MS := EPOLL_WAIT_TIMEOUT_MS c;
    CONNECTION_CLOSE_MAX_BYTES := CONNECTION_CLOSE_MAX_BYTES c;
    GRACEFUL_CONNECTION_CLOSE_TIMEOUT_S := GRACEFUL_CONNECTION_CLOSE_TIMEOUT_S c;
    SINGLE_READ_BYTES := SINGLE_READ_BYTES c;
    MAX_HEADER_BYTES := MAX_HEADER_BYTES c;
    MAX_CONTENT_LENGTH := MAX_CONTENT_LENGTH c;
    MAX_TE_CHUNK_LENGTH := MAX_TE_CHUNK_LENGTH c;
    MAX_TE_LENGTH := MAX_TE_LENGTH c;
    MAX_WRITE_BUFFER_BYTES := MAX_WRITE_BUFFER_BYTES c;
    FILE_CONTENT_CACHE_THRESHOLD := FILE_CONTENT_CACHE_THRESHOLD c;
    FILE_BUFFERING_THRESHOLD := FILE_BUFFERING_THRESHOLD c;
    MAX_MULTIPART_CONTENT_LENGTH := MAX_MULTIPART_CONTENT_LENGTH c;
    MAX_MULTIPART_TE_LENGTH := MAX_MULTIPART_TE_LENGTH c;
    MAX_MULTIPART_FIELD_SIZE := MAX_MULTIPART_FIELD_SIZE c;
    MAX_MULTIPART_FILE_SIZE := MAX_MULTIPART_FILE_SIZE c;
    MAX_MULTIPART_PART_HEADER_SIZE := MAX_MULTIPART_PART_HEADER_SIZE c;
    MAX_MULTIPART_PARTS := MAX_MULTIPART_PARTS c;
    MAX_MULTIPART_BOUNDARY_LENGTH := MAX_MULTIPART_BOUNDARY_LENGTH c;
    MULTIPART_BUFFER_SIZE := MULTIPART_BUFFER_SIZE c;
    ENABLE_STATIC_COMPRESSION := ENABLE_STATIC_COMPRESSION c;
    COMPRESSION_BUFFER_SIZE := COMPRESSION_BUFFER_SIZE c;
    STATIC_STREAM_CHUNK_SIZE := STATIC_STREAM_CHUNK_SIZE c;
    STATIC_CACHE_DIR := STATIC_CACHE_DIR c;
    IO_URING_RING_SIZE := IO_URING_RING_SIZE c;
    PIPE_BUFFER_SIZE := PIPE_BUFFER_SIZE c;
    COMPRESS_MIN_BYTES := COMPRESS_MIN_BYTES c;
    STATIC_GZIP_COMPRESS_LEVEL := STATIC_GZIP_COMPRESS_LEVEL c;
    CONNECTION_LIMIT := CONNECTION_LIMIT c;
    serverName_ := name;
    serverLine_ := "server: " ++ name ++ CRLF;
  |}.
