(* ===== verification/CookieStore.v ===== *)
(** The cookies of a response ([Cookie.hpp], [CookieStore.hpp]) and the memory
    writes that serialize responses.  The buffer is sized first; every [write] is
    a [memcpy] at the cursor, undefined when it leaves the buffer. *)
From S2P Require Import Prelude Bytes.

#[local] Arguments list_ascii_of_string : simpl never.

(** ** Memory writes *)

(** The buffer and the cursor [out], as an offset. *)
Abbreviation mem := (bytes * nat)%type.

(** [memcpy(out, s.data(), s.size()); out += s.size();] *)
Definition memwrite (s : bytes) (m : mem) : outcome mem :=
  let '(buf, out) := m in
  if bool_decide (out + length s <= length buf)
  then Ret (take out buf ++ s ++ drop (out + length s) buf, out + length s)
  else Undef.

(** Statements in sequence. *)
Definition andthen {S} (f g : S -> outcome S) (s : S) : outcome S := f s ≫= g.
Notation "f ;;; g" := (andthen f g) (at level 62, right associativity).

Fixpoint for_each {A S} (body : A -> S -> outcome S) (l : list A) (s : S) : outcome S :=
  match l with
  | [] => Ret s
  | x :: l' => (body x ;;; for_each body l') s
  end.

Definition when {S} (b : bool) (f : S -> outcome S) (s : S) : outcome S :=
  if b then f s else Ret s.

(** ** Cookies *)
Record Cookie := {
  name : bytes;
  value : bytes;
  path : bytes;
  httpOnly : bool;
  secure : bool;
  sameSite : bytes;
  maxAge : Z;
  expires : option Z;   (** seconds since the epoch; [None] is [time_point::max()] *)
  domain : bytes;
}.

Definition mkCookie (n v p : bytes) (age : Z) (exp : option Z) : Cookie :=
  {| name := n; value := v; path := p; httpOnly := false; secure := false;
     sameSite := "Lax"; maxAge := age; expires := exp; domain := "" |}.

Definition Cookie_name_value (n v : bytes) : Cookie := mkCookie n v "/" (-1) None.

Definition setCookie (c : Cookie) (cookies_ : list Cookie) : list Cookie := cookies_ ++ [c].

Definition unsetCookie (n : bytes) (cookies_ : list Cookie) : list Cookie :=
  List.filter (fun p => negb (name p =?b n)) cookies_.

Definition deleteCookie (n p : bytes) (cookies_ : list Cookie) : list Cookie :=
  cookies_ ++ [mkCookie n "" p 0 (Some 0%Z)].

Definition getCookie (n : bytes) (cookies_ : list Cookie) : option Cookie :=
  List.find (fun c => name c =?b n) cookies_.

Definition engaged {A} (o : option A) : bool := match o with Some _ => true | None => false end.

Section Cookies.
(** [toHttpDate] formats with [std::format]/[strftime]: a parameter. *)
Context (toHttpDate : Z -> bytes).

Definition expires_text (c : Cookie) : bytes :=
  match expires c with Some t => toHttpDate t | None => [] end.

Definition cookie_using {S} (write : bytes -> S -> outcome S) (cookie : Cookie) : S -> outcome S :=
  write "set-cookie: " ;;; write (name cookie) ;;; write "=" ;;; write (value cookie) ;;;
  write "; Path=" ;;; write (path cookie) ;;; write "; SameSite=" ;;; write (sameSite cookie) ;;;
  when (httpOnly cookie) (write "; HttpOnly") ;;;
  when (secure cookie) (write "; Secure") ;;;
  when (negb (domain cookie =?b "")) (write "; Domain=" ;;; write (domain cookie)) ;;;
  when (engaged (expires cookie)) (write "; Expires=" ;;; write (expires_text cookie)) ;;;
  when (-1 <? maxAge cookie)%Z (write "; Max-Age=" ;;; write (to_chars 10 (maxAge cookie))) ;;;
  write CRLF.

Definition serializeUsing {S} (write : bytes -> S -> outcome S) (cookies_ : list Cookie) : S -> outcome S :=
  for_each (cookie_using write) cookies_.

(** The literals' sizes are those of the source ([sizeof("...") - 1]). *)
Definition cookie_size (cookie : Cookie) : nat :=
  length ("Set-Cookie: " : bytes) +
  (length (name cookie) + length ("=" : bytes) + length (value cookie) + length ("; Path=" : bytes) +
   length (path cookie) + length ("; SameSite=" : bytes) + length (sameSite cookie)) +
  (if httpOnly cookie then length ("; HttpOnly" : bytes) else 0) +
  (if secure cookie then length ("; Secure" : bytes) else 0) +
  (if negb (domain cookie =?b "") then length ("; Domain=" : bytes) + length (domain cookie) else 0) +
  (if engaged (expires cookie) then length ("; Expires=" : bytes) + length (expires_text cookie) else 0) +
  (if (-1 <? maxAge cookie)%Z then length ("; Max-Age=" : bytes) + Z.to_nat (digit_count (maxAge cookie)) else 0) +
  length CRLF.

Definition getSerializedSize (cookies_ : list Cookie) : nat :=
  fold_left (fun total cookie => total + cookie_size cookie) cookies_ 0.

End Cookies.

(** ** What is written, as one string *)

Definition cookie_line (toHttpDate : Z -> bytes) (c : Cookie) : bytes :=
  "set-cookie: " ++ name c ++ "=" ++ value c ++ "; Path=" ++ path c ++ "; SameSite=" ++ sameSite c ++
  (if httpOnly c then "; HttpOnly" : bytes else []) ++
  (if secure c then "; Secure" : bytes else []) ++
  (if domain c =?b [] then [] else "; Domain=" ++ domain c) ++
  (match expires c with Some t => "; Expires=" ++ toHttpDate t | None => [] end) ++
  (if (0 <=? maxAge c)%Z then "; Max-Age=" ++ to_chars 10 (maxAge c) else []) ++ CRLF.

Definition cookie_lines (toHttpDate : Z -> bytes) (l : list Cookie) : bytes :=
  concat (map (cookie_line toHttpDate) l).

(** [maxAge] is an [int]. *)
Definition int_cookie (c : Cookie) : Prop := (- 2 ^ 31 <= maxAge c < 2 ^ 31)%Z.

(** ** A calculus of writes

    [Writes f s]: started anywhere with room for [s], [f] writes exactly [s] at
    the cursor and advances it by its length.  The instances compute [s] from
    the program. *)
Class Writes (f : mem -> outcome mem) (s : bytes) : Prop :=
  writes_at (pre gap : bytes) : length s <= length gap ->
    f (pre ++ gap, length pre) = Ret ((pre ++ s) ++ drop (length s) gap, length (pre ++ s)).

#[export] Instance writes_write s : Writes (memwrite s) s.
Proof.
  intros pre gap H. unfold memwrite. rewrite length_app, bool_decide_eq_true_2 by lia.
  rewrite take_app_length, drop_app_length_plus, length_app. by rewrite <- app_assoc.
Qed.

#[export] Instance writes_andthen f g a b : Writes f a -> Writes g b -> Writes (f ;;; g) (a ++ b).
Proof.
  intros Hf Hg pre gap H. rewrite length_app in H. unfold andthen.
  rewrite Hf by lia. cbn. rewrite Hg by (rewrite length_drop; lia).
  by rewrite drop_drop, <- (app_assoc pre a b), (length_app a b).
Qed.

#[export] Instance writes_when b f s : Writes f s -> Writes (when b f) (if b then s else []).
Proof.
  intros Hf pre gap H. unfold when. destruct b; [by apply Hf|].
  cbn. by rewrite app_nil_r.
Qed.

#[export] Instance writes_for_each {A} (body : A -> mem -> outcome mem) (r : A -> bytes) l :
  (forall x, Writes (body x) (r x)) -> Writes (for_each body l) (concat (map r l)).
Proof.
  intros Hb. induction l as [|x l IH].
  - intros pre gap _. cbn. by rewrite app_nil_r.
  - change (Writes (body x ;;; for_each body l) (r x ++ concat (map r l))). apply _.
Qed.

Lemma writes_eq f a b : Writes f a -> a = b -> Writes f b.
Proof. by intros H <-. Qed.

(** Writing [size] bytes into a buffer grown by exactly [size] fills it. *)
Lemma writes_fill f s buf fill :
  Writes f s -> length fill = length s ->
  f (buf ++ fill, length buf) = Ret (buf ++ s, length (buf ++ s)).
Proof. intros H Hl. rewrite H by lia. by rewrite <- Hl, drop_all, app_nil_r. Qed.

#[export] Instance cookie_using_writes toHttpDate c :
  Writes (cookie_using toHttpDate memwrite c) (cookie_line toHttpDate c).
Proof.
  eapply writes_eq; [apply _|]. unfold cookie_line, expires_text.
  replace (-1 <? maxAge c)%Z with (0 <=? maxAge c)%Z by lia.
  change (list_ascii_of_string "") with (@nil ascii).
  by destruct (domain c =?b []), (expires c).
Qed.

#[export] Instance serializeUsing_writes toHttpDate l :
  Writes (serializeUsing toHttpDate memwrite l) (cookie_lines toHttpDate l).
Proof. apply writes_for_each, _. Qed.

Lemma cookie_size_line toHttpDate c :
  int_cookie c -> cookie_size toHttpDate c = length (cookie_line toHttpDate c).
Proof.
  intros Hi. unfold cookie_size, cookie_line, expires_text.
  change (list_ascii_of_string "") with (@nil ascii).
  replace (-1 <? maxAge c)%Z with (0 <=? maxAge c)%Z by lia.
  assert ((0 <=? maxAge c)%Z = true ->
          Z.to_nat (digit_count (maxAge c)) = length (to_chars 10 (maxAge c))) as Hd.
  { intros H%Z.leb_le. unfold int_cookie in Hi. rewrite digit_count_to_chars by lia. apply Nat2Z.id. }
  rewrite !length_app. change (length ("Set-Cookie: " : bytes)) with (length ("set-cookie: " : bytes)).
  destruct (httpOnly c), (secure c), (domain c =?b []), (expires c), (0 <=? maxAge c)%Z;
    cbn [negb engaged]; rewrite ?length_app, ?Hd by done; change (length (@nil ascii)) with 0; lia.
Qed.

(** The size computed in advance is the number of bytes written. *)
Lemma getSerializedSize_lines toHttpDate l :
  Forall int_cookie l -> getSerializedSize toHttpDate l = length (cookie_lines toHttpDate l).
Proof.
  intros H. unfold getSerializedSize, cookie_lines.
  rewrite <- (Nat.add_0_l (length _)). generalize 0 as n.
  induction H as [|c l Hc _ IH]; intros n; cbn [fold_left map concat]; [cbn; lia|].
  rewrite IH, length_app, cookie_size_line by done. lia.
Qed.
