(* ===== verification/HttpResponse.v ===== *)
(** Plain responses ([HttpResponse.hpp], [HttpResponse.cpp]).  The size is computed
    first, the write buffer resized, and the parts copied into it; the final
    assertion is part of the model (a failed one is [Undef]). *)
From S2P Require Import Prelude Bytes HeaderStore ServerConfig CookieStore.

#[local] Arguments list_ascii_of_string : simpl never.

(** ** Status lines *)
Definition statusStrings_ : list (Z * bytes) :=
  [(100%Z, "Continue" : bytes);
   (101%Z, "Switching Protocols" : bytes);
   (102%Z, "Processing" : bytes);
   (103%Z, "Early Hints" : bytes);
   (200%Z, "OK" : bytes);
   (201%Z, "Created" : bytes);
   (202%Z, "Accepted" : bytes);
   (203%Z, "Non-Authoritative Information" : bytes);
   (204%Z, "No Content" : bytes);
   (205%Z, "Reset Content" : bytes);
   (206%Z, "Partial Content" : bytes);
   (207%Z, "Multi-Status" : bytes);
   (208%Z, "Already Reported" : bytes);
   (226%Z, "IM Used" : bytes);
   (300%Z, "Multiple Choices" : bytes);
   (301%Z, "Moved Permanently" : bytes);
   (302%Z, "Found" : bytes);
   (303%Z, "See Other" : bytes);
   (304%Z, "Not Modified" : bytes);
   (305%Z, "Use Proxy" : bytes);
   (307%Z, "Temporary Redirect" : bytes);
   (308%Z, "Permanent Redirect" : bytes);
   (400%Z, "Bad Request" : bytes);
   (401%Z, "Unauthorized" : bytes);
   (402%Z, "Payment Required" : bytes);
   (403%Z, "Forbidden" : bytes);
   (404%Z, "Not Found" : bytes);
   (405%Z, "Method Not Allowed" : bytes);
   (406%Z, "Not Acceptable" : bytes);
   (407%Z, "Proxy Authentication Required" : bytes);
   (408%Z, "Request Timeout" : bytes);
   (409%Z, "Conflict" : bytes);
   (410%Z, "Gone" : bytes);
   (411%Z, "Length Required" : bytes);
   (412%Z, "Precondition Failed" : bytes);
   (413%Z, "Content Too Large" : bytes);
   (414%Z, "URI Too Long" : bytes);
   (415%Z, "Unsupported Media Type" : bytes);
   (416%Z, "Range Not Satisfiable" : bytes);
   (417%Z, "Expectation Failed" : bytes);
   (418%Z, "I'm a teapot" : bytes);
   (421%Z, "Misdirected Request" : bytes);
   (422%Z, "Unprocessable Content" : bytes);
   (423%Z, "Locked" : bytes);
   (424%Z, "Failed Dependency" : bytes);
   (425%Z, "Too Early" : bytes);
   (426%Z, "Upgrade Required" : bytes);
   (428%Z, "Precondition Required" : bytes);
   (429%Z, "Too Many Requests" : bytes);
   (431%Z, "Request Header Fields Too Large" : bytes);
   (451%Z, "Unavailable For Legal Reasons" : bytes);
   (500%Z, "Internal Server Error" : bytes);
   (501%Z, "Not Implemented" : bytes);
   (502%Z, "Bad Gateway" : bytes);
   (503%Z, "Service Unavailable" : bytes);
   (504%Z, "Gateway Timeout" : bytes);
   (505%Z, "HTTP Version Not Supported" : bytes);
   (506%Z, "Variant Also Negotiates" : bytes);
   (507%Z, "Insufficient Storage" : bytes);
   (508%Z, "Loop Detected" : bytes);
   (510%Z, "Not Extended" : bytes);
   (511%Z, "Network Authentication Required" : bytes)].

Fixpoint assoc_int {V} (key : Z) (mp : list (Z * V)) : option V :=
  match mp with
  | [] => None
  | (k, v) :: mp' => if (k =? key)%Z then Some v else assoc_int key mp'
  end.

Definition statusText (statusCode : Z) : bytes := default ("Unknown" : bytes) (assoc_int statusCode statusStrings_).

Definition getStatusLine (code : Z) : bytes :=
  (match code with
  | 200 => "HTTP/1.1 200 OK" ++ CRLF
  | 201 => "HTTP/1.1 201 Created" ++ CRLF
  | 204 => "HTTP/1.1 204 No Content" ++ CRLF
  | 206 => "HTTP/1.1 206 Partial Content" ++ CRLF
  | 301 => "HTTP/1.1 301 Moved Permanently" ++ CRLF
  | 302 => "HTTP/1.1 302 Found" ++ CRLF
  | 304 => "HTTP/1.1 304 Not Modified" ++ CRLF
  | 400 => "HTTP/1.1 400 Bad Request" ++ CRLF
  | 401 => "HTTP/1.1 401 Unauthorized" ++ CRLF
  | 403 => "HTTP/1.1 403 Forbidden" ++ CRLF
  | 404 => "HTTP/1.1 404 Not Found" ++ CRLF
  | 405 => "HTTP/1.1 405 Method Not Allowed" ++ CRLF
  | 408 => "HTTP/1.1 408 Request Timeout" ++ CRLF
  | 411 => "HTTP/1.1 411 Length Required"
  | 413 => "HTTP/1.1 413 Content Too Large" ++ CRLF
  | 415 => "HTTP/1.1 415 Unsupported Media Type"
  | 416 => "HTTP/1.1 416 Range Not Satisfiable" ++ CRLF
  | 417 => "HTTP/1.1 417 Expectation Failed" ++ CRLF
  | 429 => "HTTP/1.1 429 Too Many Requests" ++ CRLF
  | 431 => "HTTP/1.1 431 Request Header Fields Too Large" ++ CRLF
  | 500 => "HTTP/1.1 500 Internal Server Error" ++ CRLF
  | 501 => "HTTP/1.1 501 Not Implemented" ++ CRLF
  | 503 => "HTTP/1.1 503 Service Unavailable" ++ CRLF
  | _ => "HTTP/1.1 " ++ to_string code ++ " " ++ statusText code ++ CRLF
  end)%Z.

(** ** The class *)
Record HttpResponse := {
  headers : fields;
  cookies : list Cookie;
  body_ : bytes;
  version_ : bytes;
  statusCode_ : Z;
}.

Definition noBody : list Z := [100; 101; 102; 103; 204; 304]%Z.

Definition with_headers (f : fields -> fields) (r : HttpResponse) : HttpResponse :=
  {| headers := f (headers r); cookies := cookies r; body_ := body_ r;
     version_ := version_ r; statusCode_ := statusCode_ r |}.

Definition with_cookies (f : list Cookie -> list Cookie) (r : HttpResponse) : HttpResponse :=
  {| headers := headers r; cookies := f (cookies r); body_ := body_ r;
     version_ := version_ r; statusCode_ := statusCode_ r |}.

Definition with_body (b : bytes) (r : HttpResponse) : HttpResponse :=
  {| headers := headers r; cookies := cookies r; body_ := b;
     version_ := version_ r; statusCode_ := statusCode_ r |}.

Definition size_header (b : bytes) : fields -> fields :=
  setHeaderLower "content-length" (to_string (Z.of_nat (length b))).

(** The four constructors. *)
Definition HttpResponse_default : HttpResponse :=
  {| headers := []; cookies := []; body_ := []; version_ := "HTTP/1.1"; statusCode_ := -1 |}.

Definition HttpResponse_code (statusCode : Z) : HttpResponse :=
  {| headers := size_header [] []; cookies := []; body_ := [];
     version_ := "HTTP/1.1"; statusCode_ := statusCode |}.

Definition HttpResponse_body (statusCode : Z) (body : bytes) : HttpResponse :=
  {| headers := size_header body []; cookies := []; body_ := body;
     version_ := "HTTP/1.1"; statusCode_ := statusCode |}.

Definition HttpResponse_typed (statusCode : Z) (contentType body : bytes) : HttpResponse :=
  {| headers := setHeaderLower "content-type" contentType (size_header body []); cookies := [];
     body_ := body; version_ := "HTTP/1.1"; statusCode_ := statusCode |}.

Definition setBody (body : bytes) (r : HttpResponse) : HttpResponse :=
  with_headers (size_header body) (with_body body r).

Definition setContentType (contentType : bytes) (r : HttpResponse) : HttpResponse :=
  with_headers (setHeaderLower "content-type" contentType) r.

Definition stripBody (r : HttpResponse) : HttpResponse := with_body [] r.

Definition setStatusCode (statusCode : Z) (r : HttpResponse) : HttpResponse :=
  {| headers := headers r; cookies := cookies r; body_ := body_ r;
     version_ := version_ r; statusCode_ := statusCode |}.

Definition setVersion (version : bytes) (r : HttpResponse) : HttpResponse :=
  {| headers := headers r; cookies := cookies r; body_ := body_ r;
     version_ := version; statusCode_ := statusCode_ r |}.

(** The media type without its parameters. *)
Definition media_type (header : bytes) : bytes :=
  match find_char ";" header with Some i => take i header | None => header end.

Definition getContentType (r : HttpResponse) : bytes :=
  media_type (getHeaderLower "content-type" (headers r)).

(** ** Serialization *)
Section Serialize.
Context (cfg : ServerConfig) (toHttpDate : Z -> bytes) (date : bytes).

(** [continue]s past the fields that are not written. *)
Definition headers_size (skip : bytes -> bool) (hs : fields) (size : nat) : nat :=
  fold_left (fun size p => if skip p.1 then size else size + (length p.1 + 2 + length p.2 + 2)) hs size.

Definition write_headers (skip : bytes -> bool) (hs : fields) : mem -> outcome mem :=
  for_each (fun p => when (negb (skip p.1))
    (memwrite p.1 ;;; memwrite ": " ;;; memwrite p.2 ;;; memwrite CRLF)) hs.

Definition serializeInto (r : HttpResponse) (buf : bytes) : outcome (bool * bytes) :=
  let hasBody := negb (bool_decide (statusCode_ r ∈ noBody)) in
  let skip k := negb hasBody && (k =?b "content-length") in
  let statusLine := getStatusLine (statusCode_ r) in
  let size := length statusLine in
  let size := headers_size skip (headers r) size in
  let size := size + length (serverLine_ cfg) in
  let size := size + (length ("date" : bytes) + length date + 4) in
  let size := size + getSerializedSize toHttpDate (cookies r) in
  let size := size + 2 in
  let size := size + (if hasBody then length (body_ r) else 0) in
  if (MAX_WRITE_BUFFER_BYTES cfg <? Z.of_nat (length buf + size))%Z then Ret (false, buf)
  else
    let oldSize := length buf in
    '(buf, out) ← (memwrite statusLine ;;;
                   write_headers skip (headers r) ;;;
                   memwrite (serverLine_ cfg) ;;;
                   memwrite "date: " ;;; memwrite date ;;; memwrite CRLF ;;;
                   serializeUsing toHttpDate memwrite (cookies r) ;;;
                   memwrite CRLF ;;;
                   when hasBody (memwrite (body_ r)))
                  (buf ++ replicate size NUL, oldSize);
    if bool_decide (out = oldSize + size) then Ret (true, buf) else Undef.

End Serialize.

(** ** The bytes on the wire *)
Definition field_line (p : bytes * bytes) : bytes := p.1 ++ ": " ++ p.2 ++ CRLF.

Definition field_lines (hs : fields) : bytes := concat (map field_line hs).

Definition head_bytes (cfg : ServerConfig) (toHttpDate : Z -> bytes) (date : bytes)
    (statusCode : Z) (hs : fields) (cs : list Cookie) : bytes :=
  getStatusLine statusCode ++ field_lines hs ++ serverLine_ cfg ++
  "date: " ++ date ++ CRLF ++ cookie_lines toHttpDate cs ++ CRLF.

Definition response_bytes (cfg : ServerConfig) (toHttpDate : Z -> bytes) (date : bytes)
    (r : HttpResponse) : bytes :=
  if bool_decide (statusCode_ r ∈ noBody)
  then head_bytes cfg toHttpDate date (statusCode_ r) (erase_key "content-length" (headers r)) (cookies r)
  else head_bytes cfg toHttpDate date (statusCode_ r) (headers r) (cookies r) ++ body_ r.


(** ** Lemmas *)
Definition skipping (skip : bytes -> bool) (p : bytes * bytes) : bytes :=
  if skip p.1 then [] else field_line p.

Lemma headers_size_spec skip hs n :
  headers_size skip hs n = n + length (concat (map (skipping skip) hs)).
Proof.
  unfold headers_size, skipping. revert n.
  induction hs as [|p hs IH]; intros n; cbn [fold_left map concat]; [cbn; lia|].
  rewrite IH, length_app. destruct (skip p.1); cbn [length]; [lia|].
  unfold field_line. rewrite !length_app. change (length CRLF) with 2.
  change (length (": " : bytes)) with 2. lia.
Qed.

#[export] Instance write_headers_writes skip hs :
  Writes (write_headers skip hs) (concat (map (skipping skip) hs)).
Proof.
  apply writes_for_each. intros p. eapply writes_eq; [apply _|].
  unfold skipping, field_line. by destruct (skip p.1).
Qed.

Lemma skipping_erase key hs :
  concat (map (skipping (fun k => true && (k =?b key))) hs) = field_lines (erase_key key hs).
Proof.
  unfold field_lines, erase_key, skipping, has_key.
  induction hs as [|p hs IH]; cbn [map concat List.filter]; [done|].
  cbn [andb]. destruct (p.1 =?b key); cbn [negb map concat app]; by rewrite <- IH.
Qed.

Lemma skipping_none key hs :
  concat (map (skipping (fun k => false && (k =?b key))) hs) = field_lines hs.
Proof. reflexivity. Qed.

Lemma Zltb_leb a b : (a <? b)%Z = negb (b <=? a)%Z.
Proof. destruct (Z.ltb_spec a b), (Z.leb_spec b a); lia || done. Qed.

Lemma serializeInto_eq cfg toHttpDate date r buf :
  Forall int_cookie (cookies r) ->
  serializeInto cfg toHttpDate date r buf =
    let wire := response_bytes cfg toHttpDate date r in
    Ret (if (Z.of_nat (length (buf ++ wire)) <=? MAX_WRITE_BUFFER_BYTES cfg)%Z
         then (true, buf ++ wire) else (false, buf)).
Proof.
  intros Hc. unfold serializeInto. cbv zeta.
  set (hasBody := negb (bool_decide (statusCode_ r ∈ noBody))).
  set (skip := fun k => negb hasBody && _).
  set (size := _ + (if hasBody then _ else 0)).
  set (prog := _ ;;; _).
  assert (exists s, Writes prog s /\ length s = size /\ s = response_bytes cfg toHttpDate date r)
    as (s & Hw & Hs & ->).
  { eexists. split; [apply _|]. split.
    - subst size. rewrite headers_size_spec, (getSerializedSize_lines _ _ Hc), !length_app.
      change (length CRLF) with 2. change (length ("date: " : bytes)) with 6.
      change (length ("date" : bytes)) with 4. destruct hasBody; cbn [length]; lia.
    - unfold response_bytes, head_bytes. subst skip hasBody.
      destruct (bool_decide _); cbn [negb].
      + by rewrite skipping_erase, app_nil_r.
      + rewrite skipping_none, <- !app_assoc. done. }
  rewrite Zltb_leb, length_app, Hs. destruct (Z.leb_spec (Z.of_nat (length buf + size)) (MAX_WRITE_BUFFER_BYTES cfg));
    cbn [negb]; [|done].
  rewrite (writes_fill prog _ buf (replicate size NUL) Hw) by (by rewrite length_replicate).
  cbn. by rewrite length_app, Hs, bool_decide_eq_true_2 by done.
Qed.

(** C9: serializing appends exactly the response's bytes to the write buffer, or
    refuses and leaves the buffer as it was when the buffer limit would be
    exceeded; no write leaves the buffer and the size assertion holds. *)
Theorem serializeInto_spec cfg toHttpDate date r buf :
  Forall int_cookie (cookies r) ->
  serializeInto cfg toHttpDate date r buf =
    let wire := response_bytes cfg toHttpDate date r in
    Ret (if (Z.of_nat (length (buf ++ wire)) <=? MAX_WRITE_BUFFER_BYTES cfg)%Z
         then (true, buf ++ wire) else (false, buf)).
Proof. apply serializeInto_eq. Qed.

(** every status line is the protocol version, the code, its reason phrase
    and a line end, except those of 411 and 415, which lack the line end. *)
Theorem status_line code :
  getStatusLine code =
    ("HTTP/1.1 " : bytes) ++ to_string code ++ " " ++ statusText code ++
    (if (code =? 411)%Z || (code =? 415)%Z then [] else CRLF).
Proof.
  destruct code as [|p|p]; [reflexivity| |reflexivity].
  do 9 (try destruct p as [p|p|]); reflexivity.
Qed.

(** ** Framing: the declared length *)
Inductive constructor :=
| FromCode (statusCode : Z)
| FromBody (statusCode : Z) (body : bytes)
| FromTyped (statusCode : Z) (contentType body : bytes).

Inductive response_op :=
| RStatus (statusCode : Z)
| RBody (body : bytes)
| RContentType (contentType : bytes)
| RHeader (o : header_op)
| RSetCookie (c : Cookie)
| RUnsetCookie (n : bytes)
| RDeleteCookie (n p : bytes)
| RStripBody.

Definition construct (c : constructor) : HttpResponse :=
  match c with
  | FromCode s => HttpResponse_code s
  | FromBody s b => HttpResponse_body s b
  | FromTyped s t b => HttpResponse_typed s t b
  end.

Definition response_step (o : response_op) (r : HttpResponse) : HttpResponse :=
  match o with
  | RStatus s => setStatusCode s r
  | RBody b => setBody b r
  | RContentType t => setContentType t r
  | RHeader o => with_headers (run_op o) r
  | RSetCookie c => with_cookies (setCookie c) r
  | RUnsetCookie n => with_cookies (unsetCookie n) r
  | RDeleteCookie n p => with_cookies (deleteCookie n p) r
  | RStripBody => stripBody r
  end.

Definition run_response (c : constructor) (l : list response_op) : HttpResponse :=
  fold_left (fun r o => response_step o r) l (construct c).

(** The header an operation names. *)
Definition op_key (o : header_op) : bytes :=
  match o with
  | OpSet n _ | OpAdd n _ | OpRemove n => toLowerCase n
  | OpCacheControl _ => "cache-control"
  | OpContentRange _ _ _ => "content-range"
  end.

Definition leaves_length (o : response_op) : bool :=
  match o with RHeader o => negb (op_key o =?b "content-length") | _ => true end.

(** The body given last, and whether it was stripped since. *)
Definition constructed_body (c : constructor) : bytes :=
  match c with FromCode _ => [] | FromBody _ b => b | FromTyped _ _ b => b end.

Definition body_step (s : bytes * bool) (o : response_op) : bytes * bool :=
  match o with RBody b => (b, false) | RStripBody => (s.1, true) | _ => s end.

Definition framed (r : HttpResponse) (s : bytes * bool) : Prop :=
  getAllValues (headers r) "content-length" = [to_string (Z.of_nat (length s.1))] /\
  body_ r = if s.2 then [] else s.1.

Lemma set_other key v k hs : key <> k -> getAllValues (set_field key v hs) k = getAllValues hs k.
Proof.
  intros H. unfold set_field. rewrite getAllValues_app, getAllValues_single.
  rewrite (proj2 (beqb_neq key k)) by done. by rewrite getAllValues_erase_ne, app_nil_r by congruence.
Qed.

Lemma set_same key v hs : getAllValues (set_field key v hs) key = [v].
Proof.
  unfold set_field. by rewrite getAllValues_app, getAllValues_single, getAllValues_erase, beqb_refl.
Qed.

Lemma run_op_other o k hs : op_key o <> k -> getAllValues (run_op o hs) k = getAllValues hs k.
Proof.
  destruct o; cbn [run_op op_key]; intros H; unfold setHeader, addHeader, removeHeader,
    setCacheControl, setContentRange, setHeaderLower;
    solve [by apply set_other | by apply count_add_other | by apply getAllValues_erase_ne].
Qed.

Lemma framed_step o r s : leaves_length o = true -> framed r s -> framed (response_step o r) (body_step s o).
Proof.
  unfold framed. intros Ho [Hl Hb]. destruct o; cbn [response_step body_step fst snd]; try done.
  - split; [|done]. apply set_same.
  - split; [|done]. rewrite <- Hl. by apply set_other.
  - split; [|done]. rewrite <- Hl. apply run_op_other. by apply beqb_neq, negb_true_iff.
Qed.

Lemma framed_construct c : framed (construct c) (constructed_body c, false).
Proof.
  destruct c; (split; [|done]); reflexivity.
Qed.

(** whatever is done to a response except naming Content-Length by hand, it
    carries exactly one Content-Length, the size of the body given last, and its
    body is that body, or empty once stripped (the answer to a HEAD request). *)
Theorem response_framing c l :
  forallb leaves_length l = true ->
  let r := run_response c l in
  let s := fold_left body_step l (constructed_body c, false) in
  getHeaders "Content-Length" (headers r) = [to_string (Z.of_nat (length s.1))] /\
  body_ r = (if s.2 then [] else s.1).
Proof.
  intros Hl. cbv zeta. change (framed (run_response c l) (fold_left body_step l (constructed_body c, false))).
  unfold run_response. generalize (framed_construct c).
  generalize (construct c) (constructed_body c, false).
  induction l as [|o l IH]; intros r s H; [done|].
  cbn [forallb] in Hl. apply andb_true_iff in Hl as [Ho Hl].
  cbn [fold_left]. apply IH; [done|]. by apply framed_step.
Qed.

Lemma serializeInto_spec_witness :
  serializeInto default_config (fun _ => []) "now"
    (setBody "hi" (with_cookies (setCookie (Cookie_name_value "a" "b")) (HttpResponse_code 200))) []
  = Ret (true, response_bytes default_config (fun _ => []) "now"
      (setBody "hi" (with_cookies (setCookie (Cookie_name_value "a" "b")) (HttpResponse_code 200)))).
Proof.
  rewrite serializeInto_spec; [reflexivity|]. repeat constructor; vm_compute; congruence.
Defined.

Lemma response_framing_witness :
  let r := run_response (FromCode 200) [RBody "hello"; RHeader (OpSet "Server" "x"); RStripBody] in
  getHeaders "Content-Length" (headers r) = [list_ascii_of_string "5"] /\ body_ r = [].
Proof.
  exact (response_framing (FromCode 200) [RBody "hello"; RHeader (OpSet "Server" "x"); RStripBody] eq_refl).
Defined.
