(* ===== verification/HttpStreamResponse.v ===== *)
(** Streamed responses ([HttpStreamResponse.hpp], [HttpStreamResponse.cpp]): the
    header is written once, the blocks one at a time, as chunks of
    [Transfer-Encoding: chunked] unless the handler switched that off. *)
From S2P Require Import Prelude Bytes HeaderStore ServerConfig CookieStore HttpResponse.

#[local] Arguments list_ascii_of_string : simpl never.

(** The chunk function is a coroutine of the handler: [NextChunkFn] is its type. *)
Record HttpStreamResponse (NextChunkFn : Type) := {
  headers : fields;
  cookies : list Cookie;
  statusCode_ : Z;
  version_ : bytes;
  isChunked_ : bool;
  nextChunkFn_ : option NextChunkFn;
}.
Arguments headers {_}. Arguments cookies {_}. Arguments statusCode_ {_}.
Arguments version_ {_}. Arguments isChunked_ {_}. Arguments nextChunkFn_ {_}.

Section Class.
Context {NextChunkFn : Type}.
#[local] Abbreviation HttpStreamResponse := (HttpStreamResponse NextChunkFn).
#[local] Abbreviation Build := (Build_HttpStreamResponse NextChunkFn).

Definition HttpStreamResponse_default : HttpStreamResponse := Build [] [] (-1) "HTTP/1.1" true None.

Definition HttpStreamResponse_code (statusCode : Z) : HttpStreamResponse :=
  Build (setHeaderLower "transfer-encoding" "chunked" []) [] statusCode "HTTP/1.1" true None.

Definition HttpStreamResponse_fn (statusCode : Z) (fn : NextChunkFn) : HttpStreamResponse :=
  Build (setHeaderLower "transfer-encoding" "chunked" []) [] statusCode "HTTP/1.1" true (Some fn).

Definition HttpStreamResponse_typed (statusCode : Z) (contentType : bytes) (fn : NextChunkFn) : HttpStreamResponse :=
  Build (setHeaderLower "content-type" contentType (setHeaderLower "transfer-encoding" "chunked" []))
    [] statusCode "HTTP/1.1" true (Some fn).

Definition setChunked (chunked : bool) (r : HttpStreamResponse) : HttpStreamResponse :=
  Build (if negb chunked then removeHeader "transfer-encoding" (headers r) else headers r)
    (cookies r) (statusCode_ r) (version_ r) chunked (nextChunkFn_ r).

Definition setContentType (contentType : bytes) (r : HttpStreamResponse) : HttpStreamResponse :=
  Build (setHeaderLower "content-type" contentType (headers r))
    (cookies r) (statusCode_ r) (version_ r) (isChunked_ r) (nextChunkFn_ r).

Definition getContentType (r : HttpStreamResponse) : bytes :=
  media_type (getHeaderLower "content-type" (headers r)).

Definition setNextChunkFn (fn : NextChunkFn) (r : HttpStreamResponse) : HttpStreamResponse :=
  Build (headers r) (cookies r) (statusCode_ r) (version_ r) (isChunked_ r) (Some fn).

(** A moved-from [move_only_function] is empty. *)
Definition takeNextChunkFn (r : HttpStreamResponse) : option NextChunkFn * HttpStreamResponse :=
  (nextChunkFn_ r,
   Build (headers r) (cookies r) (statusCode_ r) (version_ r) (isChunked_ r) None).

Definition setStatusCode (statusCode : Z) (r : HttpStreamResponse) : HttpStreamResponse :=
  Build (headers r) (cookies r) statusCode (version_ r) (isChunked_ r) (nextChunkFn_ r).

(** ** Serialization *)
Context (cfg : ServerConfig).

Definition serializeHeaderInto (toHttpDate : Z -> bytes) (date : bytes)
    (r : HttpStreamResponse) (buf : bytes) : outcome (bool * bytes) :=
  let statusLine := getStatusLine (statusCode_ r) in
  let size := length statusLine in
  let size := headers_size (fun _ => false) (headers r) size in
  let size := size + length (serverLine_ cfg) in
  let size := size + (length ("date" : bytes) + length date + 4) in
  let size := size + getSerializedSize toHttpDate (cookies r) in
  let size := size + 2 in
  let oldSize := length buf in
  if (MAX_WRITE_BUFFER_BYTES cfg <? Z.of_nat (oldSize + size))%Z then Ret (false, buf)
  else
    '(buf, out) ← (memwrite statusLine ;;;
                   write_headers (fun _ => false) (headers r) ;;;
                   memwrite (serverLine_ cfg) ;;;
                   memwrite "date: " ;;; memwrite date ;;; memwrite CRLF ;;;
                   serializeUsing toHttpDate memwrite (cookies r) ;;;
                   memwrite CRLF)
                  (buf ++ replicate size NUL, oldSize);
    if bool_decide (out = oldSize + size) then Ret (true, buf) else Undef.

(** [buf\[offset++\] = c] *)
Definition put (c : ascii) : mem -> outcome mem := memwrite [c].

(** [hexBuf] has 16 places, the digits of any 64-bit size. *)
Definition serializeChunkInto (chunk buf : bytes) : outcome (bool * bytes) :=
  let hexBuf := to_chars 16 (Z.of_nat (length chunk)) in
  let hexLen := length hexBuf in
  if bool_decide (16 < hexLen) then Undef else
  let oldSize := length buf in
  if (MAX_WRITE_BUFFER_BYTES cfg <? Z.of_nat (oldSize + length chunk + hexLen + 4))%Z then Ret (false, buf)
  else
    '(buf, _) ← (memwrite hexBuf ;;; put CR ;;; put LF ;;; memwrite chunk ;;; put CR ;;; put LF)
                (buf ++ replicate (length chunk + hexLen + 4) NUL, oldSize);
    Ret (true, buf).

Definition serializeBlockInto (r : HttpStreamResponse) (chunk buf : bytes) : outcome (bool * bytes) :=
  if isChunked_ r then serializeChunkInto chunk buf
  else
    let oldSize := length buf in
    if (MAX_WRITE_BUFFER_BYTES cfg <? Z.of_nat (oldSize + length chunk))%Z then Ret (false, buf)
    else
      '(buf, _) ← memwrite chunk (buf ++ replicate (length chunk) NUL, oldSize);
      Ret (true, buf).

End Class.

(** ** The bytes on the wire *)
Definition chunk_bytes (chunk : bytes) : bytes :=
  to_chars 16 (Z.of_nat (length chunk)) ++ CRLF ++ chunk ++ CRLF.

(** Appending [wire], or refusing when the write buffer would outgrow its limit. *)
Definition append_or_refuse (cfg : ServerConfig) (buf wire : bytes) : bool * bytes :=
  if (Z.of_nat (length (buf ++ wire)) <=? MAX_WRITE_BUFFER_BYTES cfg)%Z
  then (true, buf ++ wire) else (false, buf).

(** ** Lemmas *)
Lemma write_head_program cfg toHttpDate date code hs cs :
  Writes (memwrite (getStatusLine code) ;;;
          write_headers (fun _ => false) hs ;;;
          memwrite (serverLine_ cfg) ;;;
          memwrite "date: " ;;; memwrite date ;;; memwrite CRLF ;;;
          serializeUsing toHttpDate memwrite cs ;;;
          memwrite CRLF)
         (head_bytes cfg toHttpDate date code hs cs).
Proof. eapply writes_eq; [apply _|]. reflexivity. Qed.

Lemma head_size cfg toHttpDate date code hs cs :
  Forall int_cookie cs ->
  headers_size (fun _ => false) hs (length (getStatusLine code)) + length (serverLine_ cfg) +
    (length ("date" : bytes) + length date + 4) + getSerializedSize toHttpDate cs + 2
  = length (head_bytes cfg toHttpDate date code hs cs).
Proof.
  intros Hc. rewrite headers_size_spec, (getSerializedSize_lines _ _ Hc). unfold head_bytes.
  rewrite !length_app. change (length CRLF) with 2. change (length ("date: " : bytes)) with 6.
  change (length ("date" : bytes)) with 4.
  change (concat (map (skipping (fun _ => false)) hs)) with (field_lines hs). lia.
Qed.

Lemma hex_length n : is_u64 n -> length (to_chars 16 n) <= 16.
Proof.
  intros Hn. destruct (to_chars_scan 16 n ltac:(lia) Hn) as (L & HL & -> & _ & Hlow & _).
  destruct Hlow as [->|Hlow]; [lia|]. destruct (decide (L <= 16)) as [|HL']; [done|].
  assert (16 ^ 16 <= 16 ^ (Z.of_nat L - 1))%Z by (apply Z.pow_le_mono_r; lia).
  unfold is_u64 in Hn. rewrite two64_val in Hn. lia.
Qed.

Lemma serializeChunkInto_spec cfg chunk buf :
  is_u64 (Z.of_nat (length chunk)) ->
  serializeChunkInto cfg chunk buf = Ret (append_or_refuse cfg buf (chunk_bytes chunk)).
Proof.
  intros Hn. unfold serializeChunkInto, append_or_refuse. cbv zeta.
  rewrite bool_decide_eq_false_2 by (pose proof (hex_length _ Hn); lia).
  set (hex := to_chars _ _). set (size := length chunk + length hex + 4).
  assert (length (chunk_bytes chunk) = size) as Hs.
  { unfold chunk_bytes. fold hex. rewrite !length_app. change (length CRLF) with 2. lia. }
  replace (length buf + length chunk + length hex + 4) with (length (buf ++ chunk_bytes chunk))
    by (rewrite length_app; lia).
  rewrite Zltb_leb. destruct (_ <=? _)%Z; cbn [negb]; [|done].
  rewrite (writes_fill _ (chunk_bytes chunk)); [done| |by rewrite length_replicate].
  eapply writes_eq; [apply _|]. reflexivity.
Qed.

(** the header of a streamed response is appended exactly and within bounds,
    or refused; a block is appended as one chunk (or verbatim when chunking is
    off), or refused, and a refusal leaves the write buffer unchanged. *)
Theorem stream_serialize {F} cfg toHttpDate date (r : HttpStreamResponse F) chunk buf :
  Forall int_cookie (cookies r) -> is_u64 (Z.of_nat (length chunk)) ->
  serializeHeaderInto cfg toHttpDate date r buf =
    Ret (append_or_refuse cfg buf
      (head_bytes cfg toHttpDate date (statusCode_ r) (headers r) (cookies r))) /\
  serializeBlockInto cfg r chunk buf =
    Ret (append_or_refuse cfg buf (if isChunked_ r then chunk_bytes chunk else chunk)).
Proof.
  intros Hc Hn. split.
  - unfold serializeHeaderInto, append_or_refuse. cbv zeta. rewrite head_size by done.
    rewrite Zltb_leb, length_app. destruct (_ <=? _)%Z; cbn [negb]; [|done].
    rewrite (writes_fill _ _ buf _ (write_head_program _ _ _ _ _ _)) by (by rewrite length_replicate).
    cbn. by rewrite length_app, bool_decide_eq_true_2.
  - unfold serializeBlockInto. destruct (isChunked_ r); [by apply serializeChunkInto_spec|].
    unfold append_or_refuse. cbv zeta. rewrite Zltb_leb, length_app.
    destruct (_ <=? _)%Z; cbn [negb]; [|done].
    by rewrite (writes_fill _ chunk buf _ _) by (by rewrite length_replicate).
Qed.

Lemma stream_serialize_witness :
  let r := HttpStreamResponse_fn 200 tt in
  serializeBlockInto default_config r "hello" [] = Ret (true, "5" ++ CRLF ++ "hello" ++ CRLF).
Proof.
  intros r. apply (stream_serialize default_config (fun _ => []) [] r "hello" []).
  - constructor.
  - by vm_compute.
Defined.
