(* ===== verification/HttpFileResponse.v ===== *)
(** File responses ([HttpFileResponse.hpp], [HttpFileResponse.cpp]): a header, and
    a byte range of a file sent from a descriptor the response may own. *)
From S2P Require Import Prelude Bytes HeaderStore ServerConfig CookieStore HttpResponse.
From S2P Require HttpStreamResponse.

#[local] Arguments list_ascii_of_string : simpl never.

(** [core/FileIoHelpers.hpp] *)
Inductive FileOpenError := NotFound | Forbidden | Malformed | ResourceExhausted | Unexpected.

(** The [errno] values the code distinguishes; [EOTHER] stands for any other. *)
Inductive errno :=
| ENOENT | ENOTDIR | EACCES | EPERM | ENAMETOOLONG | ELOOP | EMFILE | ENFILE | ENOMEM | EOTHER (n : Z).

Record HttpFileResponse := {
  headers : fields;
  cookies : list Cookie;
  statusCode_ : Z;
  version_ : bytes;
  filePath_ : bytes;
  fd_ : Z;
  ownsFd_ : bool;
  offset_ : Z;
  contentLength_ : option Z;           (** [None]: not initialised *)
  cachedFileContent_ : option bytes;
}.

Definition HttpFileResponse_path (statusCode : Z) (filePath : bytes) : HttpFileResponse :=
  {| headers := []; cookies := []; statusCode_ := statusCode; version_ := "HTTP/1.1";
     filePath_ := filePath; fd_ := -1; ownsFd_ := true; offset_ := 0;
     contentLength_ := None; cachedFileContent_ := None |}.

Definition HttpFileResponse_default : HttpFileResponse := HttpFileResponse_path (-1) [].

Definition with_headers (f : fields -> fields) (r : HttpFileResponse) : HttpFileResponse :=
  {| headers := f (headers r); cookies := cookies r; statusCode_ := statusCode_ r;
     version_ := version_ r; filePath_ := filePath_ r; fd_ := fd_ r; ownsFd_ := ownsFd_ r;
     offset_ := offset_ r; contentLength_ := contentLength_ r;
     cachedFileContent_ := cachedFileContent_ r |}.

Definition with_cookies (f : list Cookie -> list Cookie) (r : HttpFileResponse) : HttpFileResponse :=
  {| headers := headers r; cookies := f (cookies r); statusCode_ := statusCode_ r;
     version_ := version_ r; filePath_ := filePath_ r; fd_ := fd_ r; ownsFd_ := ownsFd_ r;
     offset_ := offset_ r; contentLength_ := contentLength_ r;
     cachedFileContent_ := cachedFileContent_ r |}.

Definition HttpFileResponse_typed (statusCode : Z) (contentType filePath : bytes) : HttpFileResponse :=
  with_headers (setHeaderLower "content-type" contentType) (HttpFileResponse_path statusCode filePath).

Definition setContentType (contentType : bytes) (r : HttpFileResponse) : HttpFileResponse :=
  with_headers (setHeaderLower "content-type" contentType) r.

Definition getContentType (r : HttpFileResponse) : bytes :=
  media_type (getHeaderLower "content-type" (headers r)).

Definition setOffset (offset : Z) (r : HttpFileResponse) : HttpFileResponse :=
  {| headers := headers r; cookies := cookies r; statusCode_ := statusCode_ r;
     version_ := version_ r; filePath_ := filePath_ r; fd_ := fd_ r; ownsFd_ := ownsFd_ r;
     offset_ := offset; contentLength_ := contentLength_ r;
     cachedFileContent_ := cachedFileContent_ r |}.

Definition setContentLength (contentLength : Z) (r : HttpFileResponse) : HttpFileResponse :=
  {| headers := setHeaderLower "content-length" (to_string contentLength) (headers r);
     cookies := cookies r; statusCode_ := statusCode_ r;
     version_ := version_ r; filePath_ := filePath_ r; fd_ := fd_ r; ownsFd_ := ownsFd_ r;
     offset_ := offset_ r; contentLength_ := Some contentLength;
     cachedFileContent_ := cachedFileContent_ r |}.

(** Reading the member before [setContentLength] is undefined. *)
Definition getContentLength (r : HttpFileResponse) : outcome (option Z) :=
  match contentLength_ r with Some n => Ret (Some n) | None => Undef end.

Definition setFd (fd : Z) (owns : bool) (r : HttpFileResponse) : HttpFileResponse :=
  {| headers := headers r; cookies := cookies r; statusCode_ := statusCode_ r;
     version_ := version_ r; filePath_ := filePath_ r; fd_ := fd; ownsFd_ := owns;
     offset_ := offset_ r; contentLength_ := contentLength_ r;
     cachedFileContent_ := cachedFileContent_ r |}.

Definition setFilePath (filePath : bytes) (r : HttpFileResponse) : HttpFileResponse :=
  {| headers := headers r; cookies := cookies r; statusCode_ := statusCode_ r;
     version_ := version_ r; filePath_ := filePath; fd_ := fd_ r; ownsFd_ := ownsFd_ r;
     offset_ := offset_ r; contentLength_ := contentLength_ r;
     cachedFileContent_ := cachedFileContent_ r |}.

Definition setStatusCode (statusCode : Z) (r : HttpFileResponse) : HttpFileResponse :=
  {| headers := headers r; cookies := cookies r; statusCode_ := statusCode;
     version_ := version_ r; filePath_ := filePath_ r; fd_ := fd_ r; ownsFd_ := ownsFd_ r;
     offset_ := offset_ r; contentLength_ := contentLength_ r;
     cachedFileContent_ := cachedFileContent_ r |}.

Definition isCached (r : HttpFileResponse) : bool := engaged (cachedFileContent_ r).

Definition setCachedFileContent (content : option bytes) (r : HttpFileResponse) : HttpFileResponse :=
  {| headers := headers r; cookies := cookies r; statusCode_ := statusCode_ r;
     version_ := version_ r; filePath_ := filePath_ r; fd_ := fd_ r; ownsFd_ := ownsFd_ r;
     offset_ := offset_ r; contentLength_ := contentLength_ r;
     cachedFileContent_ := content |}.

Definition open_error (e : errno) : FileOpenError :=
  match e with
  | ENOENT | ENOTDIR => NotFound
  | EACCES | EPERM => Forbidden
  | ENAMETOOLONG | ELOOP => Malformed
  | EMFILE | ENFILE | ENOMEM => ResourceExhausted
  | EOTHER _ => Unexpected
  end.

(** [open] is the system call: a descriptor, or an error. *)
Definition openFile (open : bytes -> Z + errno) (r : HttpFileResponse) : option FileOpenError * HttpFileResponse :=
  match open (filePath_ r) with
  | inl fd => (None, setFd fd (ownsFd_ r) r)
  | inr e => (Some (open_error e), setFd (-1) (ownsFd_ r) r)
  end.

(** The destructor: the descriptor it closes. *)
Definition destruct_closes (r : HttpFileResponse) : option Z :=
  if ownsFd_ r && negb (fd_ r =? -1)%Z then Some (fd_ r) else None.

(** ** Serialization *)
Definition serializeHeaderInto (cfg : ServerConfig) (toHttpDate : Z -> bytes) (date : bytes)
    (r : HttpFileResponse) (buf : bytes) : outcome (bool * bytes) :=
  let statusLine := getStatusLine (statusCode_ r) in
  let size := length statusLine in
  let size := headers_size (fun _ => false) (headers r) size in
  let size := size + length (serverLine_ cfg) in
  let size := size + (length ("date" : bytes) + length date + 4) in
  let size := size + getSerializedSize toHttpDate (cookies r) in
  let size := size + 2 in
  let oldSize := length buf in
  if (MAX_WRITE_BUFFER_BYTES cfg <? Z.of_nat (oldSize + size))%Z then Ret (false, buf)
  else
    '(buf, out) ← (memwrite statusLine ;;;
                   write_headers (fun _ => false) (headers r) ;;;
                   memwrite (serverLine_ cfg) ;;;
                   memwrite "date: " ;;; memwrite date ;;; memwrite CRLF ;;;
                   serializeUsing toHttpDate memwrite (cookies r) ;;;
                   memwrite CRLF)
                  (buf ++ replicate size NUL, oldSize);
    if bool_decide (out = oldSize + size) then Ret (true, buf) else Undef.

(** The code is that of a streamed response's header. *)
Lemma serializeHeaderInto_stream cfg toHttpDate date r buf :
  serializeHeaderInto cfg toHttpDate date r buf =
  HttpStreamResponse.serializeHeaderInto cfg toHttpDate date
    (HttpStreamResponse.Build_HttpStreamResponse unit (headers r) (cookies r)
       (statusCode_ r) (version_ r) true None) buf.
Proof. reflexivity. Qed.
