(* ===== verification/Effects.v ===== *)
(** Effects.  A coroutine of the program (a [core::Task]) that reads and writes
    shared state and may throw is a state transformer: it returns an outcome and
    the state it leaves, also when it throws, so that a [catch] block sees what
    was done before the exception. *)
From S2P Require Import Prelude.

Definition M (S A : Type) : Type := S -> outcome A * S.

#[export] Instance M_ret {S} : MRet (M S) := fun A a s => (Ret a, s).
#[export] Instance M_bind {S} : MBind (M S) := fun A B f m s =>
  match m s with
  | (Ret a, s') => f a s'
  | (Throw e, s') => (Throw e, s')
  | (Undef, s') => (Undef, s')
  end.

Definition throw {S A} (e : exn) : M S A := fun s => (Throw e, s).
Definition undefined {S A} : M S A := fun s => (Undef, s).
Definition gets {S A} (f : S -> A) : M S A := fun s => (Ret (f s), s).
Definition modify {S} (f : S -> S) : M S unit := fun s => (Ret tt, f s).
Definition lift {S A} (o : outcome A) : M S A := fun s => (o, s).

(** [try { m } catch (...) { h }] *)
Definition catch {S A} (m : M S A) (h : exn -> M S A) : M S A := fun s =>
  match m s with
  | (Throw e, s') => h e s'
  | r => r
  end.

(** [if (b) m] *)
Definition mwhen {S} (b : bool) (m : M S unit) : M S unit := if b then m else mret tt.

(** A field of the state, read and written through a pair of functions. *)
Definition zoom {S T A} (get : S -> T) (put : T -> S -> S) (m : T -> A * T) : M S A := fun s =>
  let '(a, t) := m (get s) in (Ret a, put t s).

Lemma mbind_ret {S A B} (a : A) (f : A -> M S B) s : (mret a ≫= f) s = f a s.
Proof. reflexivity. Qed.

Lemma mbind_Ret {S A B} (m : M S A) (f : A -> M S B) s a s' :
  m s = (Ret a, s') -> (m ≫= f) s = f a s'.
Proof. intros H. unfold mbind, M_bind. by rewrite H. Qed.

Lemma mbind_Throw {S A B} (m : M S A) (f : A -> M S B) s e s' :
  m s = (Throw e, s') -> (m ≫= f) s = (Throw e, s').
Proof. intros H. unfold mbind, M_bind. by rewrite H. Qed.

Lemma mbind_inv {S A B} (m : M S A) (f : A -> M S B) s b s' :
  (m ≫= f) s = (Ret b, s') -> exists a s1, m s = (Ret a, s1) /\ f a s1 = (Ret b, s').
Proof.
  unfold mbind, M_bind. destruct (m s) as [[a| |] s1]; [|done|done]. eauto.
Qed.

Lemma mbind_assoc {S A B C} (m : M S A) (f : A -> M S B) (g : B -> M S C) s :
  ((m ≫= f) ≫= g) s = (m ≫= (fun a => f a ≫= g)) s.
Proof. unfold mbind, M_bind. by destruct (m s) as [[a| |] s1]. Qed.

(** Symbolic execution of a bind whose first step is known. *)
Ltac mstep H := rewrite (mbind_Ret _ _ _ _ _ H).

(** ** Coroutines that may stop early

    [None] instead of a result: the coroutine has returned ([co_return]), or, where
    a loop is given fuel, it is still running when the fuel is used up. *)
Definition co (S A : Type) : Type := M S (option A).
Definition co_return {S A} : co S A := fun s => (Ret None, s).
Definition co_ret {S A} (a : A) : co S A := fun s => (Ret (Some a), s).
Definition co_lift {S A} (m : M S A) : co S A := fun s =>
  match m s with
  | (Ret a, s') => (Ret (Some a), s')
  | (Throw e, s') => (Throw e, s')
  | (Undef, s') => (Undef, s')
  end.
Definition co_bind {S A B} (m : co S A) (f : A -> co S B) : co S B := fun s =>
  match m s with
  | (Ret (Some a), s') => f a s'
  | (Ret None, s') => (Ret None, s')
  | (Throw e, s') => (Throw e, s')
  | (Undef, s') => (Undef, s')
  end.

Declare Scope co_scope.
Notation "'let*' x := m 'in' k" := (co_bind m (fun x => k)) (at level 10, x pattern, m at level 200, k at level 200) : co_scope.
Notation "m ;* k" := (co_bind m (fun _ => k)) (at level 100, k at level 200, right associativity) : co_scope.

Lemma co_bind_Some {S A B} (m : co S A) (f : A -> co S B) s a s' :
  m s = (Ret (Some a), s') -> co_bind m f s = f a s'.
Proof. intros H. unfold co_bind. by rewrite H. Qed.

Lemma co_bind_None {S A B} (m : co S A) (f : A -> co S B) s s' :
  m s = (Ret None, s') -> co_bind m f s = (Ret None, s').
Proof. intros H. unfold co_bind. by rewrite H. Qed.

Lemma co_lift_Ret {S A} (m : M S A) s a s' : m s = (Ret a, s') -> co_lift m s = (Ret (Some a), s').
Proof. intros H. unfold co_lift. by rewrite H. Qed.
