(* ===== verification/BodyStream.v ===== *)
(** The request body as the handlers see it ([BodyStream.hpp]).  The closures that
    the connection stores in a stream are one of three kinds ([body_source]); what
    they do is an interface, [BodyIO], which the connection implements. *)
From S2P Require Import Prelude Bytes Effects ServerConfig.

#[local] Open Scope Z_scope.

(** The pair of closures a stream was built with: [chunkReadFn]/[chunkDrainFn],
    [readFn]/[drainFn] for a Content-Length body, or those of an empty body. *)
Inductive body_source := ChunkedBody | LengthBody | NoBody.

Record BodyStream := {
  exhausted_ : bool;
  remaining_ : Z;
  source_ : body_source;
}.

Definition mkBodyStream (contentLength : Z) (src : body_source) : BodyStream :=
  {| exhausted_ := false; remaining_ := contentLength; source_ := src |}.

(** Where the stream lives, and what its closures do: [readFn] fills a buffer of
    the given size and returns the bytes it wrote there. *)
Class BodyIO (S : Type) := {
  get_body : S -> option BodyStream;
  put_body : option BodyStream -> S -> S;
  readFn : body_source -> Z -> Z -> M S bytes;
  drainFn : body_source -> Z -> M S unit;
}.

Section Methods.
Context {S : Type} {BIO : BodyIO S}.

(** [bodyStream_->]: undefined through a null pointer. *)
Definition the_body : M S BodyStream := fun s =>
  match get_body s with Some b => (Ret b, s) | None => (Undef, s) end.

Definition isExhausted : M S bool := b ← the_body; mret (exhausted_ b).

Definition read (size : Z) : M S bytes :=
  b ← the_body;
  if exhausted_ b then mret [] else
  data ← readFn (source_ b) size (remaining_ b);
  let n := Z.of_nat (length data) in
  b' ← the_body;
  let remaining := u64 (remaining_ b' - n) in
  modify (put_body (Some {| exhausted_ := exhausted_ b' || (n =? 0) || (remaining =? 0);
                            remaining_ := remaining; source_ := source_ b' |}));;
  mret data.

Definition scratch_size : Z := 4096.

(** [while (data.size() < limit)]; the result is [data] and the last [n].  Every
    round but the last makes [data] longer, so [fuel] rounds with [fuel > limit]
    are all there can be. *)
Fixpoint readAll_loop (fuel : nat) (limit : Z) (data : bytes) (n : Z) : M S (bytes * Z) :=
  match fuel with
  | O => undefined
  | Datatypes.S fuel' =>
      if Z.of_nat (length data) <? limit then
        chunk ← read scratch_size;
        match chunk with
        | [] => mret (data, 0)
        | _ => readAll_loop fuel' limit (data ++ chunk) (Z.of_nat (length chunk))
        end
      else mret (data, n)
  end.

Definition readAll (data : bytes) (limit : Z) : M S bytes :=
  b ← the_body;
  if exhausted_ b then mret data else
  '(data, n) ← readAll_loop (Datatypes.S (Z.to_nat limit)) limit data 0;
  if 0 <? n then throw (ServerException "Content limit exceeded" 413 true) else mret data.

(** [fn] is the handler's; [fuel] bounds the number of blocks. *)
Fixpoint streamUsing (fuel : nat) (fn : bytes -> M S unit) : M S unit :=
  match fuel with
  | O => undefined
  | Datatypes.S fuel' =>
      chunk ← read scratch_size;
      match chunk with
      | [] => mret tt
      | _ => fn chunk;; streamUsing fuel' fn
      end
  end.

Definition drain : M S unit :=
  b ← the_body;
  if exhausted_ b then mret tt else drainFn (source_ b) (remaining_ b).

(** [HttpRequest::consumeBody] *)
Definition consumeBody (cfg : ServerConfig) : M S bytes :=
  e ← isExhausted;
  if (e : bool) then throw (HandlerException "Body stream is exhausted (Do not call fullBody() twice)" 500 true)
  else readAll [] (MAX_CONTENT_LENGTH cfg).
End Methods.
