(* ===== verification/HttpRequest.v ===== *)
(** The request object ([HttpRequest.hpp], [HttpRequest.cpp]): the parser of the
    request line and header fields, and the views on the parsed parts.  Views into
    the read buffer and into [path_] are values here; both outlive their uses. *)
From S2P Require Import Prelude Bytes HttpUtils HeaderStore HttpResponse BodyStream.
From S2P Require Ranges.

#[local] Arguments list_ascii_of_string : simpl never.

Inductive ContentLengthError := NO_CONTENT_LENGTH_HEADER | INVALID_CONTENT_LENGTH.

Record HttpRequest := {
  headers_ : fields;
  queryParams_ : fields;
  attributes_ : fields;
  pathParams_ : fields;
  contentLength_ : option Z;
  bodyStream_ : option BodyStream;
  sessionHandle_ : option nat;       (** an address, [None] for [nullptr] *)
  method_ : bytes;
  rawPath_ : bytes;
  path_ : bytes;
  version_ : bytes;
  ip_ : bytes;
  port_ : Z;
  pathParts_ : list bytes;
}.

Definition singletonHeaders_ : list bytes :=
  literals ["host"; "content-length"; "content-type"; "transfer-encoding"; "authorization"; "expect"].

(** ** Field updates *)
Definition with_headers (f : fields -> fields) (r : HttpRequest) : HttpRequest :=
  {| headers_ := f (headers_ r); queryParams_ := queryParams_ r; attributes_ := attributes_ r;
     pathParams_ := pathParams_ r; contentLength_ := contentLength_ r; bodyStream_ := bodyStream_ r;
     sessionHandle_ := sessionHandle_ r; method_ := method_ r; rawPath_ := rawPath_ r;
     path_ := path_ r; version_ := version_ r; ip_ := ip_ r; port_ := port_ r; pathParts_ := pathParts_ r |}.

Definition with_attributes (f : fields -> fields) (r : HttpRequest) : HttpRequest :=
  {| headers_ := headers_ r; queryParams_ := queryParams_ r; attributes_ := f (attributes_ r);
     pathParams_ := pathParams_ r; contentLength_ := contentLength_ r; bodyStream_ := bodyStream_ r;
     sessionHandle_ := sessionHandle_ r; method_ := method_ r; rawPath_ := rawPath_ r;
     path_ := path_ r; version_ := version_ r; ip_ := ip_ r; port_ := port_ r; pathParts_ := pathParts_ r |}.

Definition with_contentLength (n : option Z) (r : HttpRequest) : HttpRequest :=
  {| headers_ := headers_ r; queryParams_ := queryParams_ r; attributes_ := attributes_ r;
     pathParams_ := pathParams_ r; contentLength_ := n; bodyStream_ := bodyStream_ r;
     sessionHandle_ := sessionHandle_ r; method_ := method_ r; rawPath_ := rawPath_ r;
     path_ := path_ r; version_ := version_ r; ip_ := ip_ r; port_ := port_ r; pathParts_ := pathParts_ r |}.

Definition with_line (m raw p v : bytes) (r : HttpRequest) : HttpRequest :=
  {| headers_ := headers_ r; queryParams_ := queryParams_ r; attributes_ := attributes_ r;
     pathParams_ := pathParams_ r; contentLength_ := contentLength_ r; bodyStream_ := bodyStream_ r;
     sessionHandle_ := sessionHandle_ r; method_ := m; rawPath_ := raw;
     path_ := p; version_ := v; ip_ := ip_ r; port_ := port_ r; pathParts_ := pathParts_ r |}.

Definition with_target (p : bytes) (parts : list bytes) (query : fields) (r : HttpRequest) : HttpRequest :=
  {| headers_ := headers_ r; queryParams_ := query; attributes_ := attributes_ r;
     pathParams_ := pathParams_ r; contentLength_ := contentLength_ r; bodyStream_ := bodyStream_ r;
     sessionHandle_ := sessionHandle_ r; method_ := method_ r; rawPath_ := rawPath_ r;
     path_ := p; version_ := version_ r; ip_ := ip_ r; port_ := port_ r; pathParts_ := parts |}.

Definition setMethod (m : bytes) (r : HttpRequest) : HttpRequest :=
  with_line m (rawPath_ r) (path_ r) (version_ r) r.

Definition setVersion (v : bytes) (r : HttpRequest) : HttpRequest :=
  with_line (method_ r) (rawPath_ r) (path_ r) v r.

Definition setRawPath (p : bytes) (r : HttpRequest) : HttpRequest :=
  with_line (method_ r) p (path_ r) (version_ r) r.

Definition setPathParams (ps : fields) (r : HttpRequest) : HttpRequest :=
  {| headers_ := headers_ r; queryParams_ := queryParams_ r; attributes_ := attributes_ r;
     pathParams_ := ps; contentLength_ := contentLength_ r; bodyStream_ := bodyStream_ r;
     sessionHandle_ := sessionHandle_ r; method_ := method_ r; rawPath_ := rawPath_ r;
     path_ := path_ r; version_ := version_ r; ip_ := ip_ r; port_ := port_ r; pathParts_ := pathParts_ r |}.

Definition attachBodyStream (b : option BodyStream) (r : HttpRequest) : HttpRequest :=
  {| headers_ := headers_ r; queryParams_ := queryParams_ r; attributes_ := attributes_ r;
     pathParams_ := pathParams_ r; contentLength_ := contentLength_ r; bodyStream_ := b;
     sessionHandle_ := sessionHandle_ r; method_ := method_ r; rawPath_ := rawPath_ r;
     path_ := path_ r; version_ := version_ r; ip_ := ip_ r; port_ := port_ r; pathParts_ := pathParts_ r |}.

Definition setSessionHandle (h : option nat) (r : HttpRequest) : HttpRequest :=
  {| headers_ := headers_ r; queryParams_ := queryParams_ r; attributes_ := attributes_ r;
     pathParams_ := pathParams_ r; contentLength_ := contentLength_ r; bodyStream_ := bodyStream_ r;
     sessionHandle_ := h; method_ := method_ r; rawPath_ := rawPath_ r;
     path_ := path_ r; version_ := version_ r; ip_ := ip_ r; port_ := port_ r; pathParts_ := pathParts_ r |}.

(** [reset]; a new request is in this state too. *)
Definition fresh (ip : bytes) (port : Z) : HttpRequest :=
  {| headers_ := []; queryParams_ := []; attributes_ := []; pathParams_ := [];
     contentLength_ := None; bodyStream_ := None; sessionHandle_ := None;
     method_ := []; rawPath_ := []; path_ := []; version_ := []; ip_ := ip; port_ := port;
     pathParts_ := [] |}.

Definition reset (ip : bytes) (port : Z) (r : HttpRequest) : HttpRequest :=
  {| headers_ := []; queryParams_ := []; attributes_ := []; pathParams_ := [];
     contentLength_ := None; bodyStream_ := None; sessionHandle_ := None;
     method_ := []; rawPath_ := []; path_ := []; version_ := []; ip_ := ip; port_ := port;
     pathParts_ := [] |}.

(** ** Headers and attributes *)
Definition getHeader (n : bytes) (r : HttpRequest) : bytes :=
  let key := toLowerCase n in default [] (assoc_last key (headers_ r)).

Definition getHeaderLower (lowerKey : bytes) (r : HttpRequest) : bytes :=
  default [] (assoc_last lowerKey (headers_ r)).

Definition getHeaders (n : bytes) (r : HttpRequest) : list bytes :=
  getAllValues (headers_ r) (toLowerCase n).

Definition setHeader (n v : bytes) (r : HttpRequest) : HttpRequest :=
  let key := toLowerCase n in with_headers (set_field key v) r.

Definition setHeaderLower (lowercaseKey v : bytes) (r : HttpRequest) : HttpRequest :=
  with_headers (set_field lowercaseKey v) r.

Definition addHeader (n v : bytes) (r : HttpRequest) : HttpRequest :=
  let key := toLowerCase n in with_headers (add_field singletonHeaders_ key v) r.

Definition addHeaderLower (lowercaseKey v : bytes) (r : HttpRequest) : HttpRequest :=
  with_headers (add_field singletonHeaders_ lowercaseKey v) r.

Definition removeHeader (n : bytes) (r : HttpRequest) : HttpRequest :=
  let key := toLowerCase n in with_headers (erase_key key) r.

Definition setAttribute (key v : bytes) (r : HttpRequest) : HttpRequest :=
  with_attributes (set_field key v) r.

Definition getAttribute (key defaultValue : bytes) (r : HttpRequest) : bytes :=
  getLastOrDefault (attributes_ r) key defaultValue.

Definition getQueryParam (key defaultValue : bytes) (r : HttpRequest) : bytes :=
  getLastOrDefault (queryParams_ r) key defaultValue.

Definition getQueryParams (key : bytes) (r : HttpRequest) : list bytes :=
  getAllValues (queryParams_ r) key.

Definition getPathParam (key defaultValue : bytes) (r : HttpRequest) : bytes :=
  getLastOrDefault (pathParams_ r) key defaultValue.

(** ** Views computed on demand *)
Definition getContentType (r : HttpRequest) : bytes :=
  media_type (getHeaderLower "content-type" r).

Definition getRanges (r : HttpRequest) : list Ranges.range :=
  Ranges.parse_ranges (getHeaderLower "range" r).

Definition getContentLength (r : HttpRequest) : (Z + ContentLengthError) * HttpRequest :=
  match contentLength_ r with
  | Some n => (inl n, r)
  | None =>
      match getHeaderLower "content-length" r with
      | [] => (inr NO_CONTENT_LENGTH_HEADER, r)
      | lenStr =>
          match from_chars 10 lenStr with
          | None => (inr INVALID_CONTENT_LENGTH, r)
          | Some len => (inl len, with_contentLength (Some len) r)
          end
      end
  end.

(** The text after the first [i] bytes, or nothing: the loops below walk a view. *)
Fixpoint cookies_loop (fuel : nat) (cookieHeader : bytes) (acc : fields) : fields :=
  match fuel with
  | O => acc
  | S fuel' =>
      let cookieDelim := find_char ";" cookieHeader in
      let cookiePair := match cookieDelim with None => cookieHeader | Some i => take i cookieHeader end in
      let cookiePair := trim cookiePair in
      let acc := match find_char "=" cookiePair with
                 | Some eqpos => acc ++ [(take eqpos cookiePair, drop (eqpos + 1) cookiePair)]
                 | None => acc
                 end in
      match cookieDelim with
      | None => acc
      | Some i => cookies_loop fuel' (drop (i + 1) cookieHeader) acc
      end
  end.

Definition getCookies (r : HttpRequest) : fields :=
  match getHeaderLower "cookie" r with
  | [] => []
  | h => cookies_loop (S (length h)) h []
  end.

Definition getCookie (n : bytes) (r : HttpRequest) : option bytes :=
  assoc_first n (getCookies r).

(** [std::unordered_map<std::string, std::vector<std::string>>] *)
Abbreviation form := (gmap bytes (list bytes)).

Fixpoint form_loop (fuel : nat) (bodyView : bytes) (formData : form) : form :=
  match fuel with
  | O => formData
  | S fuel' =>
      let paramDelim := find_char "&" bodyView in
      let pair := match paramDelim with None => bodyView | Some i => take i bodyView end in
      let formData :=
        match pair with
        | [] => formData
        | _ =>
            match find_char "=" pair with
            | Some eqpos =>
                let k := percentDecode (take eqpos pair) in
                <[k := default [] (formData !! k) ++ [percentDecode (drop (eqpos + 1) pair)]]> formData
            | None =>
                let k := percentDecode pair in
                match formData !! k with Some _ => formData | None => <[k := []]> formData end
            end
        end in
      match paramDelim with
      | None => formData
      | Some i => form_loop fuel' (drop (i + 1) bodyView) formData
      end
  end.

(** [getFormData] on the consumed body. *)
Definition getFormData (r : HttpRequest) (body : bytes) : form :=
  if starts_with "application/x-www-form-urlencoded" (toLowerCase (getContentType r))
  then form_loop (S (length body)) body ∅ else ∅.

(** ** The parser *)
Fixpoint query_loop (fuel : nat) (view : bytes) (queryParams : fields) : fields :=
  match fuel with
  | O => queryParams
  | S fuel' =>
      let paramDelim := find_char "&" view in
      let pair := match paramDelim with None => view | Some i => take i view end in
      let queryParams :=
        match find_char "=" pair with
        | Some eqpos =>
            let val := percentDecode (drop (eqpos + 1) pair) in
            queryParams ++ [(percentDecode (take eqpos pair), if val =?b "" then "true" : bytes else val)]
        | None => queryParams ++ [(percentDecode pair, "true" : bytes)]
        end in
      match paramDelim with
      | None => queryParams
      | Some i => query_loop fuel' (drop (i + 1) view) queryParams
      end
  end.

Fixpoint parts_loop (fuel : nat) (remaining : bytes) (parts : list bytes) : list bytes :=
  match fuel with
  | O => parts
  | S fuel' =>
      match remaining with
      | [] => parts
      | _ =>
          match find_char SLASH remaining with
          | None => parts ++ [remaining]
          | Some pos =>
              parts_loop fuel' (drop (pos + 1) remaining)
                (if bool_decide (0 < pos) then parts ++ [take pos remaining] else parts)
          end
      end
  end.

Definition parsePathAndQueryParams (rawPathView : bytes) (r : HttpRequest) : HttpRequest :=
  let '(path, query) :=
    match find_char "?" rawPathView with
    | None => (normalizePath rawPathView, queryParams_ r)
    | Some qpos =>
        let path := normalizePath (take qpos rawPathView) in
        let view := drop (qpos + 1) rawPathView in
        let view := match find_char "#" view with Some i => take i view | None => view end in
        (path, query_loop (S (length view)) view (queryParams_ r))
    end in
  with_target path (parts_loop (length path) path (pathParts_ r)) query r.

Definition slash_or_question (c : ascii) : bool := Ascii.eqb c SLASH || Ascii.eqb c "?".

Definition parseRequestLine (requestLine : bytes) (r : HttpRequest) : bool * HttpRequest :=
  match find_char SP requestLine with
  | None => (false, r)
  | Some method_end =>
      let r := setMethod (take method_end requestLine) r in
      let requestLine := drop (method_end + 1) requestLine in
      match find_char SP requestLine with
      | None => (false, r)
      | Some path_end =>
          let rawPath := take path_end requestLine in
          let r := setRawPath rawPath r in
          let '(rawPath, r) :=
            match find_sub "://" rawPath with
            | None => (rawPath, r)
            | Some hostStart =>
                let rawPath := drop (hostStart + 3) rawPath in
                match find_if slash_or_question rawPath with
                | Some hostEnd => (drop hostEnd rawPath, setHeaderLower "host" (take hostEnd rawPath) r)
                | None => ("/" : bytes, setHeaderLower "host" rawPath r)
                end
            end in
          let r := parsePathAndQueryParams rawPath r in
          (true, setVersion (drop (path_end + 1) requestLine) r)
      end
  end.

(** [if (not line.empty() && line.back() == '\r') line.remove_suffix(1)] *)
Definition strip_cr (line : bytes) : bytes :=
  match rev line with c :: l => if Ascii.eqb c CR then rev l else line | [] => line end.

Definition blank_front (line : bytes) : bool :=
  match line with c :: _ => Ascii.eqb c SP || Ascii.eqb c TAB | [] => false end.

Fixpoint headers_loop (fuel : nat) (headerView : bytes) (r : HttpRequest) : bool * HttpRequest :=
  match fuel with
  | O => (true, r)
  | S fuel' =>
      match headerView with
      | [] => (true, r)
      | _ =>
          let lineEnd := find_char LF headerView in
          let line := match lineEnd with None => headerView | Some i => take i headerView end in
          if blank_front line then (false, r)
          else
            let headerView := match lineEnd with None => [] | Some i => drop (i + 1) headerView end in
            let line := strip_cr line in
            match find_char ":" line with
            | None => headers_loop fuel' headerView r
            | Some pos =>
                let key := take pos line in
                let value := trim (drop (pos + 1) line) in
                headers_loop fuel' headerView (addHeaderLower (toLowerCase key) value r)
            end
      end
  end.

(** Every round consumes a line: the length of the view is fuel enough. *)
Definition parseRequestHeaders (headerView : bytes) (r : HttpRequest) : bool * HttpRequest :=
  headers_loop (length headerView) headerView r.

Definition parseRequestHeader (headerView : bytes) (r : HttpRequest) : bool * HttpRequest :=
  match find_char LF headerView with
  | None => (false, r)
  | Some lineEnd =>
      let requestLine := strip_cr (take lineEnd headerView) in
      match parseRequestLine requestLine r with
      | (false, r) => (false, r)
      | (true, r) => parseRequestHeaders (drop (lineEnd + 1) headerView) r
      end
  end.

(** ** Reference: the loops as operations on the split text *)
Definition pair_at (c : ascii) (s : bytes) : option (bytes * bytes) :=
  match find_char c s with Some i => Some (take i s, drop (i + 1) s) | None => None end.

Definition query_param (pair : bytes) : bytes * bytes :=
  match pair_at "=" pair with
  | Some (k, v) =>
      (percentDecode k, match percentDecode v with [] => "true" : bytes | v' => v' end)
  | None => (percentDecode pair, "true" : bytes)
  end.

Definition query_params (view : bytes) : fields := map query_param (split_on "&" view).

Definition cookie_pairs (h : bytes) : fields :=
  omap (fun p => pair_at "=" (trim p)) (split_on ";" h).

Definition form_add (f : form) (pair : bytes) : form :=
  match pair_at "=" pair with
  | Some (k, v) => <[percentDecode k := default [] (f !! percentDecode k) ++ [percentDecode v]]> f
  | None => match f !! percentDecode pair with
            | Some _ => f
            | None => <[percentDecode pair := []]> f
            end
  end.

Definition form_pairs (body : bytes) : list bytes := filter (fun p => p <> []) (split_on "&" body).

Definition field_of_line (line : bytes) : option (bytes * bytes) :=
  match pair_at ":" (strip_cr line) with
  | Some (k, v) => Some (toLowerCase k, trim v)
  | None => None
  end.

Fixpoint parse_lines (lines : list bytes) (r : HttpRequest) : bool * HttpRequest :=
  match lines with
  | [] => (true, r)
  | l :: lines =>
      if blank_front l then (false, r)
      else parse_lines lines (match field_of_line l with
                              | Some (k, v) => addHeaderLower k v r
                              | None => r
                              end)
  end.

(** ** Lemmas on the loops *)
Lemma split_on_find c s :
  split_on c s = match find_char c s with
                 | Some i => take i s :: split_on c (drop (i + 1) s)
                 | None => [s]
                 end.
Proof.
  destruct (find_char c s) as [i|] eqn:E.
  - apply find_char_Some in E as [E1 E2]. rewrite E1 at 1.
    by rewrite split_on_app, (split_on_notin c (take i s)), Nat.add_1_r by done.
  - apply find_char_None in E. by apply split_on_notin.
Qed.

Lemma query_loop_spec fuel view acc :
  length view < fuel -> query_loop fuel view acc = acc ++ query_params view.
Proof.
  revert view acc. induction fuel as [|fuel IH]; intros view acc Hf; [lia|].
  cbn [query_loop]. unfold query_params. rewrite split_on_find.
  assert (forall pair, (match find_char "=" pair with
      | Some eqpos =>
          let val := percentDecode (drop (eqpos + 1) pair) in
          acc ++ [(percentDecode (take eqpos pair), if val =?b "" then "true" : bytes else val)]
      | None => acc ++ [(percentDecode pair, "true" : bytes)]
      end) = acc ++ [query_param pair]) as Hq.
  { intros pair. unfold query_param, pair_at. destruct (find_char "=" pair) as [i|]; [|done].
    cbv zeta. by destruct (percentDecode (drop (i + 1) pair)). }
  destruct (find_char "&" view) as [i|] eqn:E; rewrite Hq; [|done].
  apply find_char_lt in E. rewrite IH by (rewrite length_drop; lia).
  by rewrite <- app_assoc.
Qed.

Lemma cookies_loop_spec fuel h acc :
  length h < fuel -> cookies_loop fuel h acc = acc ++ cookie_pairs h.
Proof.
  revert h acc. induction fuel as [|fuel IH]; intros h acc Hf; [lia|].
  cbn [cookies_loop]. unfold cookie_pairs. rewrite split_on_find.
  assert (forall p, (match find_char "=" p with
      | Some eqpos => acc ++ [(take eqpos p, drop (eqpos + 1) p)]
      | None => acc
      end) = acc ++ option_list (pair_at "=" p)) as Hq.
  { intros p. unfold pair_at. destruct (find_char "=" p); [done|]. by rewrite app_nil_r. }
  destruct (find_char ";" h) as [i|] eqn:E; rewrite Hq.
  - apply find_char_lt in E. rewrite IH by (rewrite length_drop; lia).
    unfold cookie_pairs. cbn [omap list_omap]. rewrite <- app_assoc.
    by destruct (pair_at "=" (trim (take i h))).
  - cbn [omap list_omap]. by destruct (pair_at "=" (trim h)).
Qed.

Lemma form_loop_spec fuel body f :
  length body < fuel -> form_loop fuel body f = fold_left form_add (form_pairs body) f.
Proof.
  revert body f. induction fuel as [|fuel IH]; intros body f Hf; [lia|].
  cbn [form_loop]. unfold form_pairs. rewrite split_on_find.
  assert (forall p, (match p with
      | [] => f
      | _ =>
          match find_char "=" p with
          | Some eqpos =>
              let k := percentDecode (take eqpos p) in
              <[k := default [] (f !! k) ++ [percentDecode (drop (eqpos + 1) p)]]> f
          | None =>
              let k := percentDecode p in
              match f !! k with Some _ => f | None => <[k := []]> f end
          end
      end) = fold_left form_add (filter (fun p => p <> []) [p]) f) as Hq.
  { intros [|c p]; [done|]. rewrite filter_cons_True by done. cbn [fold_left filter list_filter].
    unfold form_add, pair_at. by destruct (find_char "=" (c :: p)). }
  destruct (find_char "&" body) as [i|] eqn:E; rewrite Hq; [|done].
  apply find_char_lt in E. rewrite IH by (rewrite length_drop; lia).
  rewrite <- fold_left_app. unfold form_pairs. by rewrite <- filter_app.
Qed.

Lemma parts_loop_spec fuel s parts :
  length s <= fuel -> parts_loop fuel s parts = parts ++ segments s.
Proof.
  revert s parts. induction fuel as [|fuel IH]; intros s parts Hf.
  { destruct s; [by rewrite app_nil_r|simpl in Hf; lia]. }
  destruct s as [|c s]; [by rewrite app_nil_r|].
  cbn [parts_loop]. set (w := c :: s) in *. unfold segments. rewrite split_on_find.
  destruct (find_char SLASH w) as [i|] eqn:E.
  - pose proof (find_char_lt _ _ _ E). rewrite IH by (rewrite length_drop; lia).
    destruct i as [|i]; [done|]. rewrite filter_cons_True by done.
    rewrite bool_decide_eq_true_2 by lia. by rewrite <- app_assoc.
  - done.
Qed.

Lemma headers_loop_spec fuel view r :
  length view <= fuel -> headers_loop fuel view r = parse_lines (split_on LF view) r.
Proof.
  revert view r. induction fuel as [|fuel IH]; intros view r Hf.
  { destruct view; [done|simpl in Hf; lia]. }
  destruct view as [|c s]; [done|].
  cbn [headers_loop]. set (w := c :: s) in *. rewrite split_on_find.
  assert (forall line (g : HttpRequest -> bool * HttpRequest),
    (match find_char ":" (strip_cr line) with
     | None => g r
     | Some pos => g (addHeaderLower (toLowerCase (take pos (strip_cr line)))
                        (trim (drop (pos + 1) (strip_cr line))) r)
     end) = g (match field_of_line line with Some (k, v) => addHeaderLower k v r | None => r end)) as Hq.
  { intros line g. unfold field_of_line, pair_at. by destruct (find_char ":" (strip_cr line)). }
  cbv zeta. rewrite (Hq _ (headers_loop fuel _)).
  destruct (find_char LF w) as [i|] eqn:E; cbn [parse_lines].
  - pose proof (find_char_lt _ _ _ E). by rewrite IH by (rewrite length_drop; lia).
  - destruct (blank_front w); [done|]. by destruct fuel.
Qed.

Lemma parseRequestHeaders_spec view r : parseRequestHeaders view r = parse_lines (split_on LF view) r.
Proof. by apply headers_loop_spec. Qed.

(** ** How a client writes a request *)
Definition header_line (p : bytes * bytes) : bytes := p.1 ++ ": " ++ p.2.

Definition request_line (m t v : bytes) : bytes := m ++ (SP :: (t ++ (SP :: v))).

(** Lines separated by CRLF: what stands before the blank line. *)
Fixpoint join_lines (l : list bytes) : bytes :=
  match l with
  | [] => []
  | [x] => x
  | x :: l' => x ++ CRLF ++ join_lines l'
  end.

Definition request_head (m t v : bytes) (hs : fields) : bytes :=
  join_lines (request_line m t v :: map header_line hs).

Definition field_ok (p : bytes * bytes) : Prop :=
  blank_front p.1 = false /\ (p.1 <> []) /\ (":"%char ∉ p.1) /\ (LF ∉ p.1) /\ (LF ∉ p.2) /\ no_blank_ends p.2.

Definition no_scheme (t : bytes) : Prop := find_sub "://" t = None.

Record request_ok (m t v : bytes) (hs : fields) : Prop := {
  ok_method : (SP ∉ m) /\ (LF ∉ m);
  ok_target : (SP ∉ t) /\ (LF ∉ t) /\ no_scheme t;
  ok_version : (LF ∉ v) /\ (CR ∉ v);
  ok_fields : Forall field_ok hs /\ hs <> [];
}.

(** What the receiver should hold. *)
Definition target_path (t : bytes) : bytes :=
  match find_char "?" t with Some i => take i t | None => t end.

Definition target_query (t : bytes) : fields :=
  match find_char "?" t with
  | None => []
  | Some i =>
      let view := drop (i + 1) t in
      query_params (match find_char "#" view with Some j => take j view | None => view end)
  end.

Definition received (hs : fields) : fields :=
  fold_left (fun acc p => add_field singletonHeaders_ (toLowerCase p.1) p.2 acc) hs [].

(** ** Lemmas *)
Lemma parsePath_spec raw r :
  parsePathAndQueryParams raw r =
  with_target (normalizePath (target_path raw)) (pathParts_ r ++ segments (target_path raw))
    (queryParams_ r ++ target_query raw) r.
Proof.
  unfold parsePathAndQueryParams, target_path, target_query. cbv zeta.
  destruct (find_char "?" raw) as [i|].
  - rewrite query_loop_spec by lia. by rewrite parts_loop_spec, segments_normalizePath by lia.
  - by rewrite parts_loop_spec, segments_normalizePath, app_nil_r by lia.
Qed.

Lemma strip_cr_snoc l : strip_cr (l ++ [CR]) = l.
Proof. unfold strip_cr. rewrite rev_app_distr. simpl. by rewrite rev_involutive. Qed.

Lemma strip_cr_id l : last l <> Some CR -> strip_cr l = l.
Proof.
  unfold strip_cr. destruct (rev l) as [|c r] eqn:E; [done|].
  apply (f_equal (@rev ascii)) in E. rewrite rev_involutive in E. simpl in E. subst l.
  rewrite last_snoc. destruct (Ascii.eqb_spec c CR) as [->|]; [done|]. done.
Qed.

Lemma trim_space s : no_blank_ends s -> trim (SP :: s) = s.
Proof.
  intros H. rewrite <- (trim_id s H) at 2. unfold trim. reflexivity.
Qed.

Lemma last_not_cr s : no_blank_ends s -> last s <> Some CR.
Proof.
  intros [_ H]. destruct (rev s) as [|c r] eqn:E.
  - apply (f_equal (@rev ascii)) in E. rewrite rev_involutive in E. by subst s.
  - apply (f_equal (@rev ascii)) in E. rewrite rev_involutive in E. simpl in E. subst s.
    rewrite last_snoc. by intros [= ->].
Qed.

Lemma header_line_last p : field_ok p -> last (header_line p) <> Some CR.
Proof.
  intros (_ & _ & _ & _ & _ & Hv). unfold header_line.
  rewrite app_assoc, last_app. pose proof (last_not_cr _ Hv) as Hl.
  destruct (last p.2); [done|]. rewrite last_app. cbn. done.
Qed.

Lemma header_line_lf p : field_ok p -> LF ∉ header_line p.
Proof.
  intros (_ & _ & _ & Hk & Hv & _). unfold header_line. rewrite !not_elem_of_app.
  split_and!; [done| |done]. by apply (bool_decide_unpack _).
Qed.

Lemma field_of_header_line p :
  field_ok p -> field_of_line (header_line p) = Some (toLowerCase p.1, p.2) /\
  field_of_line (header_line p ++ [CR]) = Some (toLowerCase p.1, p.2) /\
  blank_front (header_line p) = false /\ blank_front (header_line p ++ [CR]) = false.
Proof.
  intros Hok. pose proof (header_line_last p Hok) as Hlast. destruct Hok as (Hb & Hne & Hc & _ & _ & Hv).
  unfold field_of_line. rewrite strip_cr_snoc, strip_cr_id by done.
  assert (pair_at ":" (header_line p) = Some (p.1, SP :: p.2)) as ->.
  { unfold pair_at, header_line. change (list_ascii_of_string ": " ++ p.2) with (":"%char :: SP :: p.2).
    rewrite find_char_app by done. by rewrite take_app_length, drop_app_length_plus. }
  rewrite trim_space by done. unfold header_line.
  destruct p as [[|c k] w]; [done|]. simpl in *. done.
Qed.

Lemma split_join_lines x l :
  LF ∉ x -> Forall (fun y => LF ∉ y) l ->
  split_on LF (join_lines (x :: l)) =
  match l with [] => [x] | y :: l' => (x ++ [CR]) :: split_on LF (join_lines (y :: l')) end.
Proof.
  intros Hx Hl. destruct l as [|y l]; [by apply split_on_notin|].
  change (join_lines (x :: y :: l)) with (x ++ CRLF ++ join_lines (y :: l)).
  change (CRLF ++ join_lines (y :: l)) with ([CR] ++ LF :: join_lines (y :: l)).
  rewrite app_assoc, split_on_app, (split_on_notin LF (x ++ [CR])); [done|].
  rewrite not_elem_of_app. split; [done|]. by rewrite list_elem_of_singleton.
Qed.

Lemma parse_lines_fields hs r :
  Forall field_ok hs ->
  parse_lines (split_on LF (join_lines (map header_line hs))) r =
  (true, fold_left (fun r p => addHeaderLower (toLowerCase p.1) p.2 r) hs r).
Proof.
  intros H. revert r. induction H as [|p hs Hp Hhs IH]; intros r; [done|].
  pose proof (field_of_header_line p Hp) as (Hf1 & Hf2 & Hb1 & Hb2).
  cbn [map]. rewrite split_join_lines.
  - destruct hs as [|q hs]; cbn [map parse_lines].
    + by rewrite Hb1, Hf1.
    + by rewrite Hb2, Hf2, IH.
  - by apply header_line_lf.
  - apply Forall_map. eapply Forall_impl; [exact Hhs|]. intros q Hq. by apply header_line_lf.
Qed.

Lemma fold_addHeader hs r :
  fold_left (fun r p => addHeaderLower (toLowerCase p.1) p.2 r) hs r =
  with_headers (fold_left (fun acc p => add_field singletonHeaders_ (toLowerCase p.1) p.2 acc) hs) r.
Proof.
  revert r. induction hs as [|p hs IH]; intros r; [by destruct r|].
  cbn [fold_left]. by rewrite IH.
Qed.

Lemma parseRequestLine_origin m t v r :
  SP ∉ m -> SP ∉ t -> no_scheme t ->
  parseRequestLine (request_line m t v) r =
  (true, setVersion v (parsePathAndQueryParams t (setRawPath t (setMethod m r)))).
Proof.
  intros Hm Ht Hs. unfold parseRequestLine, request_line.
  rewrite find_char_app by done. cbv zeta. rewrite take_app_length, drop_app_cons.
  rewrite find_char_app by done. rewrite take_app_length, drop_app_cons.
  unfold no_scheme in Hs. by rewrite Hs.
Qed.

Lemma request_line_no_cr m t v :
  CR ∉ v -> last (request_line m t v) <> Some CR.
Proof.
  intros Hv. unfold request_line.
  replace (m ++ (SP :: (t ++ (SP :: v)))) with (((m ++ (SP :: t)) ++ [SP]) ++ v)
    by (rewrite <- !app_assoc; done).
  rewrite last_app. destruct (last v) as [c|] eqn:E; [|by rewrite last_snoc].
  intros [= ->]. apply Hv. by apply last_Some_elem_of.
Qed.

(** How a client writes parameters. *)
Definition encode_param (p : bytes * bytes) : bytes := percentEncode p.1 ++ ("="%char :: percentEncode p.2).

Definition encode_params (ps : fields) : bytes := join_with "&" (map encode_param ps).

Definition or_true (p : bytes * bytes) : bytes * bytes :=
  (p.1, match p.2 with [] => "true" : bytes | v => v end).

Lemma encoded_chars s c : c ∈ percentEncode s -> unreserved c = true \/ c = "%"%char.
Proof.
  assert (forall d, (0 <= d < 16)%Z -> unreserved (hex_upper d) = true) as Hhex.
  { intros d Hd.
    assert (forallb (fun n => unreserved (hex_upper (Z.of_nat n))) (seq 0 16) = true) as Hall
      by (vm_compute; reflexivity).
    rewrite forallb_forall in Hall. specialize (Hall (Z.to_nat d)).
    rewrite in_seq, Z2Nat.id in Hall by lia. apply Hall. lia. }
  induction s as [|a s IH]; cbn [percentEncode]; [by inversion 1|].
  pose proof (code_range a).
  destruct (unreserved a) eqn:E; rewrite !elem_of_cons; [by intros [->|]; auto|].
  intros [->|[->|[->|Hin]]]; [by right| | |by auto]; left; apply Hhex.
  - split; [apply Z.div_pos; lia|apply Z.div_lt_upper_bound; lia].
  - apply Z.mod_pos_bound. lia.
Qed.

Lemma encoded_notin s c : unreserved c = false -> c <> "%"%char -> c ∉ percentEncode s.
Proof. intros H1 H2 [|]%encoded_chars; congruence. Qed.

Lemma pair_at_encode p : pair_at "=" (encode_param p) = Some (percentEncode p.1, percentEncode p.2).
Proof.
  unfold pair_at, encode_param.
  rewrite find_char_app by (by apply encoded_notin). by rewrite take_app_length, drop_app_cons.
Qed.

Lemma encode_param_notin c p : unreserved c = false -> c <> "%"%char -> c <> "="%char -> c ∉ encode_param p.
Proof.
  intros H1 H2 H3. unfold encode_param. rewrite not_elem_of_app, not_elem_of_cons.
  split_and!; [by apply encoded_notin|done|by apply encoded_notin].
Qed.

Lemma split_join c l : l <> [] -> Forall (fun x => c ∉ x) l -> split_on c (join_with c l) = l.
Proof.
  intros Hne H. induction H as [|x l Hx Hl IH]; [done|].
  destruct l as [|y l]; [by apply split_on_notin|].
  change (join_with c (x :: y :: l)) with (x ++ c :: join_with c (y :: l)).
  by rewrite split_on_app, (split_on_notin c x), IH by done.
Qed.

Lemma split_encode_params ps : ps <> [] -> split_on "&" (encode_params ps) = map encode_param ps.
Proof.
  intros Hne. apply split_join; [by destruct ps|].
  apply Forall_map, Forall_forall. intros p _. by apply encode_param_notin.
Qed.

Lemma query_params_encode ps : ps <> [] -> query_params (encode_params ps) = map or_true ps.
Proof.
  intros Hne. unfold query_params. rewrite split_encode_params, map_map by done.
  apply map_ext. intros p. unfold query_param. rewrite pair_at_encode, !percentDecode_inv. done.
Qed.

Lemma join_with_notin c d l : c <> d -> Forall (fun x => c ∉ x) l -> c ∉ join_with d l.
Proof.
  intros Hcd. induction 1 as [|x l Hx Hl IH]; [by inversion 1|].
  destruct l as [|y l]; [done|].
  change (join_with d (x :: y :: l)) with (x ++ d :: join_with d (y :: l)).
  by rewrite not_elem_of_app, not_elem_of_cons.
Qed.

Lemma form_fold ps f k :
  fold_left form_add (map encode_param ps) f !! k =
  (if bool_decide (k ∈ ps.*1) || bool_decide (is_Some (f !! k))
   then Some (default [] (f !! k) ++ getAllValues ps k) else None).
Proof.
  revert f. induction ps as [|[k' v] ps IH]; intros f; cbn [map fold_left].
  - rewrite bool_decide_eq_false_2 by (inversion 1). cbn [orb getAllValues List.filter map].
    unfold getAllValues. cbn. rewrite app_nil_r.
    destruct (f !! k); [by rewrite bool_decide_eq_true_2|rewrite bool_decide_eq_false_2; [done|]].
    by intros [].
  - rewrite IH. unfold form_add. rewrite pair_at_encode. cbn [fst snd fmap list_fmap]. rewrite !percentDecode_inv.
    rewrite (getAllValues_app [(k', v)] ps k : getAllValues ((k', v) :: ps) k = _), getAllValues_single.
    destruct (beqb_spec k' k) as [->|Hne].
    + rewrite !lookup_insert_eq. rewrite (bool_decide_eq_true_2 (is_Some _)) by done.
      rewrite (bool_decide_eq_true_2 (k ∈ k :: _)) by (left). rewrite orb_true_r. cbn [orb].
      cbn [default from_option id]. by rewrite <- app_assoc.
    + rewrite !lookup_insert_ne by done.
      rewrite (bool_decide_ext (k ∈ k' :: ps.*1) (k ∈ ps.*1)); [done|].
      rewrite elem_of_cons. naive_solver.
Qed.

Lemma lower_host : toLowerCase "host" = "host".
Proof. reflexivity. Qed.

(** ** Content-Length, cookies, absolute targets *)
Definition no_digit_front (s : bytes) : Prop :=
  match s with c :: _ => isdigit c = false | [] => True end.

Lemma scan_digits_stop s v n : no_digit_front s -> scan_digits 10 s v n = (v, n).
Proof.
  destruct s as [|c s]; [done|]. cbn [no_digit_front scan_digits]. intros H.
  destruct (digit_val c) as [d|] eqn:E; [|done].
  destruct (Z.ltb_spec d 10) as [Hd|]; [|done]. exfalso. revert E H Hd. clear.
  unfold digit_val, isdigit, islower, isupper. intros E H.
  repeat case_match; simplify_eq; lia.
Qed.

Lemma from_chars_prefix n junk :
  is_u64 n -> no_digit_front junk -> from_chars 10 (to_chars 10 n ++ junk) = Some n.
Proof.
  intros Hn Hj. destruct (to_chars_scan 10 n ltac:(lia) Hn) as (L & HL & _ & _ & _ & Hscan).
  unfold from_chars. rewrite Hscan by (intros v k; by apply scan_digits_stop).
  rewrite bool_decide_eq_false_2 by lia. unfold is_u64 in Hn. by rewrite (proj2 (Z.ltb_lt _ _)) by lia.
Qed.

Definition cookie_ok (p : bytes * bytes) : Prop :=
  ("="%char ∉ p.1) /\ (";"%char ∉ p.1) /\ (";"%char ∉ p.2) /\ no_blank_ends (p.1 ++ ("="%char :: p.2)).

Definition cookie_text (p : bytes * bytes) : bytes := p.1 ++ ("="%char :: p.2).

(** [Cookie: a=1; b=2] *)
Fixpoint cookie_header (cs : fields) : bytes :=
  match cs with
  | [] => []
  | [p] => cookie_text p
  | p :: cs' => cookie_text p ++ ";"%char :: SP :: cookie_header cs'
  end.

Lemma cookie_text_notin p : cookie_ok p -> (";"%char ∉ cookie_text p) /\ (";"%char ∉ SP :: cookie_text p).
Proof.
  intros (_ & H1 & H2 & _). unfold cookie_text.
  repeat (rewrite not_elem_of_cons || rewrite not_elem_of_app). split_and!; done.
Qed.

Lemma pair_at_cookie p : cookie_ok p ->
  pair_at "=" (trim (cookie_text p)) = Some p /\ pair_at "=" (trim (SP :: cookie_text p)) = Some p.
Proof.
  intros (H1 & _ & _ & Hb). rewrite trim_space, trim_id by done.
  unfold pair_at, cookie_text. rewrite find_char_app by done.
  rewrite take_app_length, drop_app_cons. by destruct p.
Qed.

Lemma cookie_pairs_header cs (pre : bytes) :
  pre = [] \/ pre = [SP] -> Forall cookie_ok cs -> cs <> [] ->
  omap (fun p => pair_at "=" (trim p)) (split_on ";" (pre ++ cookie_header cs)) = cs.
Proof.
  intros Hpre H Hne. revert pre Hpre. induction H as [|p cs Hp Hcs IH]; intros pre Hpre; [done|].
  destruct (cookie_text_notin p Hp) as [N1 N2]. destruct (pair_at_cookie p Hp) as [P1 P2].
  destruct cs as [|q cs].
  - cbn [cookie_header]. destruct Hpre as [-> | ->]; cbn [app];
      rewrite split_on_notin by done; cbn [omap list_omap]; by rewrite ?P1, ?P2.
  - change (cookie_header (p :: q :: cs)) with (cookie_text p ++ ";"%char :: ([SP] ++ cookie_header (q :: cs))).
    rewrite app_assoc, split_on_app. destruct Hpre as [-> | ->]; cbn [app];
      rewrite (split_on_notin ";" (_ : bytes)) by done; cbn [app omap list_omap];
      rewrite ?P1, ?P2; f_equal; apply (IH ltac:(done) [SP]); by right.
Qed.

Module HttpRequestProps.
(** C8: a well-formed request is received as it was sent: method, raw target,
    version, path and its segments, decoded query, and the fields in order under
    lower-case names, the first value winning for the singleton headers. *)
Theorem request_roundtrip m t v hs ip port :
  request_ok m t v hs ->
  parseRequestHeader (request_head m t v hs) (fresh ip port) =
  (true,
   {| headers_ := received hs; queryParams_ := target_query t; attributes_ := [];
      pathParams_ := []; contentLength_ := None; bodyStream_ := None; sessionHandle_ := None;
      method_ := m; rawPath_ := t; path_ := normalizePath (target_path t); version_ := v;
      ip_ := ip; port_ := port; pathParts_ := segments (target_path t) |}).
Proof.
  intros [[Hm Hm'] (Ht & Ht' & Hs) [Hv Hv'] [Hhs Hne]].
  unfold parseRequestHeader, request_head.
  destruct hs as [|p hs]; [done|]. cbn [map].
  change (join_lines (request_line m t v :: header_line p :: map header_line hs))
    with (request_line m t v ++ [CR] ++ (LF :: join_lines (map header_line (p :: hs)))).
  rewrite app_assoc, find_char_app, take_app_length, drop_app_cons, strip_cr_snoc.
  - rewrite parseRequestLine_origin, parsePath_spec by done.
    rewrite parseRequestHeaders_spec, parse_lines_fields, fold_addHeader by done. done.
  - unfold request_line. repeat (rewrite not_elem_of_app || rewrite not_elem_of_cons).
    split_and!; try done. inversion 1.
Qed.

(** whatever bytes a client sends, accepted or not, the fields stored have
    lower-case names and hold at most one Host, Content-Length, Content-Type,
    Transfer-Encoding, Authorization and Expect. *)
Theorem parse_invariant view ip port :
  let r := (parseRequestHeader view (fresh ip port)).2 in
  lower_keys (headers_ r) /\ singles_once singletonHeaders_ (headers_ r).
Proof.
  cbv zeta. set (inv := fun r => lower_keys (headers_ r) /\ singles_once singletonHeaders_ (headers_ r)).
  assert (forall ls r, inv r -> inv (parse_lines ls r).2) as Hlines.
  { intros ls. induction ls as [|l ls IH]; intros r Hr; [done|]. cbn [parse_lines].
    destruct (blank_front l); [done|]. apply IH. unfold field_of_line.
    destruct (pair_at ":" (strip_cr l)) as [[k w]|]; [|done].
    destruct Hr. split; cbn; auto with rukh. }
  assert (forall l r, inv r -> inv (parseRequestLine l r).2) as Hline.
  { intros l r Hr. unfold parseRequestLine.
    destruct (find_char SP l) as [i|]; [|done]. cbv zeta.
    destruct (find_char SP (drop (i + 1) l)) as [j|]; [|done].
    destruct (find_sub "://" _) as [k|]; [destruct (find_if slash_or_question _)|];
      rewrite parsePath_spec; destruct Hr; split;
      cbn [headers_ with_target with_line with_headers setHeaderLower setVersion setRawPath setMethod snd];
      auto using lower_host with rukh. }
  unfold parseRequestHeader. assert (inv (fresh ip port)) as H0.
  { split; [constructor|]. intros k _. unfold count_key. simpl. lia. }
  destruct (find_char LF view) as [i|]; [|done].
  pose proof (Hline (strip_cr (take i view)) _ H0) as H1.
  destruct (parseRequestLine _ _) as [[] r]; [|done].
  rewrite parseRequestHeaders_spec. by apply Hlines.
Qed.

(** parameters that a client percent-encodes reach the handler unchanged, in
    order, from the query string (a fragment is ignored and an empty value reads
    "true") and from a form body (every value of every name, in order). *)
Theorem params_roundtrip p ps frag r ctype :
  ("?"%char ∉ p) -> ps <> [] ->
  starts_with "application/x-www-form-urlencoded" (toLowerCase ctype) = true ->
  target_path (p ++ "?"%char :: encode_params ps ++ "#"%char :: frag) = p /\
  queryParams_ (parsePathAndQueryParams (p ++ "?"%char :: encode_params ps ++ "#"%char :: frag)
                  (fresh (ip_ r) (port_ r))) = map or_true ps /\
  (getContentType r = ctype -> forall k,
     getFormData r (encode_params ps) !! k =
     if bool_decide (k ∈ ps.*1) then Some (getAllValues ps k) else None).
Proof.
  intros Hp Hps Hct. split_and!.
  - unfold target_path. by rewrite find_char_app, take_app_length.
  - rewrite parsePath_spec. cbn [queryParams_ with_target fresh app].
    unfold target_query. rewrite find_char_app, drop_app_cons by done. cbv zeta.
    rewrite find_char_app, take_app_length; [by apply query_params_encode|].
    apply join_with_notin; [done|]. apply Forall_map, Forall_forall. intros q _. by apply encode_param_notin.
  - intros <- k. unfold getFormData. rewrite Hct, form_loop_spec by lia.
    unfold form_pairs. rewrite split_encode_params, filter_all by
      (try done; apply Forall_map, Forall_forall; intros q _; unfold encode_param; by destruct (percentEncode q.1)).
    rewrite form_fold, lookup_empty. cbn [default from_option]. rewrite (bool_decide_eq_false_2 (is_Some None)).
    + by rewrite orb_false_r.
    + by intros [].
Qed.

(** the Content-Length a request declares: absent, invalid (no leading digit),
    or the number its text starts with, whatever follows that number; once read,
    the value no longer depends on the headers. *)
Theorem content_length_spec r text :
  contentLength_ r = None -> getHeaderLower "content-length" r = text ->
  (text = [] -> getContentLength r = (inr NO_CONTENT_LENGTH_HEADER, r)) /\
  (text <> [] -> no_digit_front text -> getContentLength r = (inr INVALID_CONTENT_LENGTH, r)) /\
  (forall n junk, is_u64 n -> no_digit_front junk -> text = to_chars 10 n ++ junk ->
     getContentLength r = (inl n, with_contentLength (Some n) r)) /\
  (forall n r' f, getContentLength r = (inl n, r') ->
     getContentLength (with_headers f r') = (inl n, with_headers f r')).
Proof.
  intros Hc Ht. unfold getContentLength at 1 2 3 4. rewrite Hc, Ht. split_and!.
  - by intros ->.
  - intros Hne Hd. destruct text as [|c text]; [done|].
    assert (from_chars 10 (c :: text) = None) as ->; [|done].
    unfold from_chars. by rewrite scan_digits_stop.
  - intros n junk Hn Hj ->.
    destruct (to_chars 10 n ++ junk) as [|c s] eqn:E; [exfalso|by rewrite <- E, from_chars_prefix].
    destruct (to_chars_scan 10 n ltac:(lia) Hn) as (L & HL & Hlen & _).
    apply (f_equal length) in E. rewrite length_app in E. simpl in E. lia.
  - intros n r' f H. destruct text as [|c text]; [done|].
    destruct (from_chars 10 (c :: text)); [|done]. by injection H as -> <-.
Qed.

(** the cookies a client sends are received, in order, with the first of a
    name answering a lookup by name. *)
Theorem cookies_roundtrip r cs n :
  Forall cookie_ok cs -> getHeaderLower "cookie" r = cookie_header cs ->
  getCookies r = cs /\ getCookie n r = assoc_first n cs.
Proof.
  intros H Hh. assert (getCookies r = cs) as Hg; [|unfold getCookie; by rewrite Hg].
  unfold getCookies. rewrite Hh. destruct cs as [|p cs]; [done|].
  destruct (cookie_header (p :: cs)) as [|c h] eqn:E.
  - exfalso. apply (f_equal length) in E. destruct cs; cbn [cookie_header] in E;
      unfold cookie_text in E; rewrite !length_app in E; simpl in E; lia.
  - rewrite cookies_loop_spec, <- E by lia. exact (cookie_pairs_header (p :: cs) [] (or_introl eq_refl) H ltac:(done)).
Qed.

(** a target is taken for an absolute one wherever "://" occurs in it: when
    it first occurs after [a], even inside a query string, the text behind it
    replaces the Host header and the path. *)
Theorem scheme_anywhere m a host rest v r :
  (SP ∉ m) -> (SP ∉ a) -> (":"%char ∉ a) ->
  (SP ∉ host) -> forallb (fun c => negb (slash_or_question c)) host = true -> (SP ∉ rest) ->
  let t := a ++ "://" ++ host ++ (SLASH :: rest) in
  let '(ok, r') := parseRequestLine (request_line m t v) r in
  ok = true /\ getHeaders "Host" r' = [host] /\
  path_ r' = normalizePath (target_path (SLASH :: rest)) /\ rawPath_ r' = t.
Proof.
  intros Hm Ha Hc Hh Hf Hr t. unfold parseRequestLine, request_line.
  rewrite find_char_app by done. cbv zeta. rewrite take_app_length, drop_app_cons.
  assert (SP ∉ t) as Ht.
  { unfold t. rewrite !not_elem_of_app, not_elem_of_cons.
    split_and!; try done. by apply (bool_decide_unpack _). }
  rewrite find_char_app, take_app_length, drop_app_cons by done.
  assert (find_sub "://" t = Some (length a)) as ->.
  { apply (find_sub_app_notin ":" ["/"; "/"]%char a (host ++ (SLASH :: rest))). done. }
  assert (drop (length a + 3) t = host ++ (SLASH :: rest)) as ->.
  { unfold t. by rewrite drop_app_length_plus. }
  assert (find_if slash_or_question (host ++ (SLASH :: rest)) = Some (length host)) as ->
    by (by apply find_if_app).
  rewrite take_app_length, drop_app_length, parsePath_spec.
  cbn [path_ rawPath_ with_target with_line with_headers setHeaderLower setVersion setRawPath setMethod getHeaders headers_].
  split_and!; [done| |done|done]. apply set_same.
Qed.
End HttpRequestProps.

Module HttpRequestWitnesses.
Lemma request_roundtrip_witness :
  parseRequestHeader (request_head "GET" "/a//b?x=1" "HTTP/1.1" [("Host" : bytes, "h" : bytes)]) (fresh [] 0) =
  (true,
   {| headers_ := [("host" : bytes, "h" : bytes)]; queryParams_ := [("x" : bytes, "1" : bytes)]; attributes_ := [];
      pathParams_ := []; contentLength_ := None; bodyStream_ := None; sessionHandle_ := None;
      method_ := "GET"; rawPath_ := "/a//b?x=1"; path_ := "a/b"; version_ := "HTTP/1.1";
      ip_ := []; port_ := 0; pathParts_ := literals ["a"; "b"] |}).
Proof.
  rewrite HttpRequestProps.request_roundtrip; [reflexivity|].
  split; (split_and?; try (by apply (bool_decide_unpack _)); try done).
  repeat constructor; try (by apply (bool_decide_unpack _)); done.
Defined.

Lemma params_roundtrip_witness :
  queryParams_ (parsePathAndQueryParams
    ("/p" ++ "?"%char :: encode_params [("a b" : bytes, "&" : bytes)] ++ "#"%char :: []) (fresh [] 0))
  = [("a b" : bytes, "&" : bytes)].
Proof.
  refine (proj1 (proj2 (HttpRequestProps.params_roundtrip "/p" [("a b" : bytes, "&" : bytes)] []
    (fresh [] 0) "application/x-www-form-urlencoded" _ _ _))).
  - by apply (bool_decide_unpack _).
  - done.
  - reflexivity.
Defined.

Lemma content_length_spec_witness :
  getContentLength (addHeader "Content-Length" "12abc" (fresh [] 0)) =
  (inl 12%Z, with_contentLength (Some 12%Z) (addHeader "Content-Length" "12abc" (fresh [] 0))).
Proof.
  refine (proj1 (proj2 (proj2 (HttpRequestProps.content_length_spec
    (addHeader "Content-Length" "12abc" (fresh [] 0)) "12abc" _ _))) 12%Z "abc" _ _ _).
  - reflexivity.
  - reflexivity.
  - by vm_compute.
  - reflexivity.
  - reflexivity.
Defined.

Lemma cookies_roundtrip_witness :
  getCookies (addHeader "Cookie" "a=1; b=2" (fresh [] 0)) = [("a" : bytes, "1" : bytes); ("b" : bytes, "2" : bytes)].
Proof.
  refine (proj1 (HttpRequestProps.cookies_roundtrip _ [("a" : bytes, "1" : bytes); ("b" : bytes, "2" : bytes)] [] _ _)).
  - repeat constructor; (try (by apply (bool_decide_unpack _))); done.
  - reflexivity.
Defined.

Lemma scheme_anywhere_witness :
  getHeaders "Host" (parseRequestLine "GET /login?next=http://evil/x HTTP/1.1" (addHeader "Host" "good" (fresh [] 0))).2
  = [list_ascii_of_string "evil"].
Proof.
  refine (proj1 (proj2 (HttpRequestProps.scheme_anywhere "GET" "/login?next=http" "evil" "x" "HTTP/1.1"
    (addHeader "Host" "good" (fresh [] 0)) _ _ _ _ _ _))); by apply (bool_decide_unpack _).
Defined.
End HttpRequestWitnesses.
