(* ===== verification/ErrorFactory.v ===== *)
(** Error responses ([ErrorFactory.hpp], [ErrorFactory.cpp]): content negotiation
    on the Accept header among the registered formatters.  [strtof] and the JSON
    printer are parameters; floats are the IEEE values of [SpecFloat]. *)
From Stdlib Require Import Floats.SpecFloat.
From S2P Require Import Prelude Bytes HttpUtils HeaderStore HttpResponse.
From S2P Require HttpRequest.

#[local] Arguments list_ascii_of_string : simpl never.

(** ** Floats *)
Abbreviation float := spec_float.

Definition float0 : float := S754_zero false.
(** [1.0f]: 2^23 * 2^-23. *)
Definition float1 : float := S754_finite false 8388608 (-23).

Definition is_nan (f : float) : bool := match f with S754_nan => true | _ => false end.

(** [std::clamp] *)
Definition clamp (v lo hi : float) : float :=
  if SFltb v lo then lo else if SFltb hi v then hi else v.

(** [std::function<HttpResponse(int, std::string_view)>] *)
Abbreviation Formatter := (Z -> bytes -> HttpResponse).

(** ** httpUtils.hpp: quality values *)
Section ErrorFactory.
Context (strtof : bytes -> float) (json_dump : Z -> bytes -> bytes) {SS : StdSort}.

Definition qvalue (typeQ : bytes) (sepIt : option nat) : float :=
  match sepIt with
  | None => float1
  | Some i =>
      let params := drop (i + 1) typeQ in
      match find_sub "q=" params with
      | None => float1
      | Some qpos => clamp (strtof (trim (drop (qpos + 2) params))) float0 float1
      end
  end.

(** One round of the loop of [parseQValues]. *)
Definition q_step (acc : list (bytes * float) * list bytes) (typeQ : bytes) :
    list (bytes * float) * list bytes :=
  let '(typePrefs, excluded) := acc in
  let typeQ := trim typeQ in
  let sepIt := find_char ";" typeQ in
  let type := trim (match sepIt with Some i => take i typeQ | None => typeQ end) in
  match type with
  | [] => (typePrefs, excluded)
  | _ =>
      let q := qvalue typeQ sepIt in
      if SFeqb q float0 then (typePrefs, excluded ++ [type])
      else (typePrefs ++ [(type, q)], excluded)
  end.

Definition parseQValues (acceptString : bytes) : list (bytes * float) * list bytes :=
  fold_left q_step (split acceptString ",") ([], []).

(** ** The class *)
Record ErrorFactory := {
  registeredFormatters_ : list (bytes * Formatter);
  fallbackFormatterPair_ : bytes * Formatter;
}.

Definition json_formatter : Formatter := fun statusCode message =>
  let response := HttpResponse_code statusCode in
  let body := json_dump statusCode (if message =?b "" then statusText statusCode else message) in
  let response := with_headers (setHeaderLower "content-type" "application/json") response in
  let response := with_headers (setCacheControl "no-store") response in
  setBody body response.

Definition ErrorFactory_new : ErrorFactory :=
  {| registeredFormatters_ := []; fallbackFormatterPair_ := ("application/json" : bytes, json_formatter) |}.

Definition setFallbackFormatter (type : bytes) (formatter : Formatter) (f : ErrorFactory) : ErrorFactory :=
  {| registeredFormatters_ := registeredFormatters_ f; fallbackFormatterPair_ := (type, formatter) |}.

Definition setFormatter (type : bytes) (formatter : Formatter) (f : ErrorFactory) : ErrorFactory :=
  {| registeredFormatters_ := registeredFormatters_ f ++ [(toLowerCase type, formatter)];
     fallbackFormatterPair_ := fallbackFormatterPair_ f |}.

(** [std::find_if], [std::none_of] with a predicate that may be undefined. *)
Fixpoint find_formatter (p : bytes -> outcome bool) (l : list (bytes * Formatter)) : outcome (option Formatter) :=
  match l with
  | [] => Ret None
  | f :: l' => b ← p f.1; if (b : bool) then Ret (Some f.2) else find_formatter p l'
  end.

Fixpoint none_of {A} (p : A -> outcome bool) (l : list A) : outcome bool :=
  match l with
  | [] => Ret true
  | x :: l' => b ← p x; if (b : bool) then Ret false else none_of p l'
  end.

(** The loop over the preferred types. *)
Fixpoint prefs_loop (fs : list (bytes * Formatter)) (typePrefs : list (bytes * float)) : outcome (option Formatter) :=
  match typePrefs with
  | [] => Ret None
  | t :: rest =>
      r ← find_formatter (fun f => mime_match f t.1) fs;
      match r with Some fmt => Ret (Some fmt) | None => prefs_loop fs rest end
  end.

(** [std::sort] needs a strict weak order: a NaN among several values breaks it. *)
Definition by_quality (a b : bytes * float) : bool := SFltb b.2 a.2.

Definition sortable (l : list (bytes * float)) : bool :=
  bool_decide (length l <= 1) || forallb (fun p => negb (is_nan p.2)) l.

Definition build (f : ErrorFactory) (req : HttpRequest.HttpRequest) (statusCode : Z) (message : bytes) :
    outcome HttpResponse :=
  match HttpRequest.getHeaders "Accept" req with
  | [] => Ret ((fallbackFormatterPair_ f).2 statusCode message)
  | acceptVector =>
      let acceptString := concat (map (fun a => a ++ ",") acceptVector) in
      let '(typePrefs, excluded) := parseQValues acceptString in
      match typePrefs, excluded with
      | [], [] => Ret ((fallbackFormatterPair_ f).2 statusCode message)
      | [], _ =>
          r ← find_formatter (fun t => none_of (fun ex => mime_match ex t) excluded) (registeredFormatters_ f);
          Ret (match r with
               | Some formatter => formatter statusCode message
               | None => (fallbackFormatterPair_ f).2 406%Z []
               end)
      | _, _ =>
          if sortable typePrefs then
            r ← prefs_loop (registeredFormatters_ f) (std_sort by_quality typePrefs);
            Ret (match r with
                 | Some formatter => formatter statusCode message
                 | None => (fallbackFormatterPair_ f).2 406%Z []
                 end)
          else Undef
      end
  end.
End ErrorFactory.

(** ** Floats that are numbers are ordered *)
Definition rank (f : float) : Z * Z * Z :=
  (match f with
   | S754_zero _ | S754_nan => (0, 0, 0)
   | S754_infinity s => (if s then -2 else 2, 0, 0)
   | S754_finite s m e => if s then (-1, - e, - Zpos m) else (1, e, Zpos m)
   end)%Z.

Definition lexb (x y : Z * Z * Z) : bool :=
  ((x.1.1 <? y.1.1) || ((x.1.1 =? y.1.1) && ((x.1.2 <? y.1.2) || ((x.1.2 =? y.1.2) && (x.2 <? y.2)))))%Z.

Lemma SFltb_rank a b : is_nan a = false -> is_nan b = false -> SFltb a b = lexb (rank a) (rank b).
Proof.
  destruct a as [[]|[]| |[] m e], b as [[]|[]| |[] m' e']; try done; intros _ _;
    unfold SFltb, SFcompare, lexb, rank; cbn [fst snd Z.ltb Z.eqb Z.compare Pos.compare Pos.compare_cont orb andb Pos.eqb];
    try done; destruct (Z.compare_spec e e') as [->|H|H].
  all: rewrite ?Z.ltb_irrefl, ?Z.eqb_refl; cbn [orb andb].
  - change (PosDef.Pos.compare_cont Eq m m') with (Pos.compare m m').
    destruct (Pos.compare_spec m m'); cbn [CompOpp]; symmetry; lia.
  - symmetry. lia.
  - symmetry. lia.
  - change (PosDef.Pos.compare_cont Eq m m') with (Pos.compare m m').
    destruct (Pos.compare_spec m m'); symmetry; lia.
  - symmetry. lia.
  - symmetry. lia.
Qed.

Lemma by_quality_sw l :
  forallb (fun p : bytes * float => negb (is_nan p.2)) l = true -> strict_weak_on (fun x => x ∈ l) by_quality.
Proof.
  intros Hn. assert (forall p, p ∈ l -> is_nan p.2 = false) as Hl.
  { intros p Hp. rewrite forallb_forall in Hn. apply negb_true_iff, Hn. by apply list_elem_of_In. }
  unfold by_quality. split; intros; rewrite ?SFltb_rank in * by auto; unfold lexb in *; lia.
Qed.

Lemma sortable_sw l : sortable l = true -> strict_weak_on (fun x => x ∈ l) by_quality.
Proof.
  unfold sortable. intros [Hl|Hn]%orb_true_iff; [|by apply by_quality_sw].
  apply bool_decide_eq_true_1 in Hl. assert (forall p, p ∈ l -> by_quality p p = false) as Hrefl.
  { intros [t f] _. unfold by_quality. cbn [snd]. unfold SFltb.
    destruct f as [[]|[]| |[] m e]; cbn; try done; rewrite ?Z.compare_refl, ?Pos.compare_cont_refl; done. }
  assert (forall p q, p ∈ l -> q ∈ l -> p = q) as Heq.
  { destruct l as [|x [|y l]]; [by inversion 1| |simpl in Hl; lia].
    intros p q. rewrite !list_elem_of_singleton. congruence. }
  split; intros; repeat match goal with
    | H : ?p ∈ l, H' : ?q ∈ l |- _ => assert_fails (constr_eq p q); pose proof (Heq p q H H'); subst q; clear H'
    end; rewrite ?Hrefl in * by done; done.
Qed.

(** ** Negotiation *)
Definition well_typed (t : bytes) : Prop := forall i, find_char SLASH t = Some i -> i + 1 < length t.

Lemma at_ok s i : i < length s -> exists c, at_ s i = Ret c.
Proof. intros H. unfold at_. destruct (lookup_lt_is_Some_2 s i H) as [c ->]. by exists c. Qed.

(** With well-formed media types the comparison never reads out of range. *)
Lemma mime_match_ok p v : well_typed p -> well_typed v -> exists b, mime_match p v = Ret b.
Proof.
  intros Hp Hv. unfold mime_match. destruct (p =?b "*/*"); [by eexists|].
  destruct (find_char SLASH p) as [i|] eqn:Ep; [|by eexists].
  destruct (find_char SLASH v) as [j|] eqn:Ev; [|by eexists].
  specialize (Hp i Ep). specialize (Hv j Ev).
  destruct (at_ok p 0 ltac:(lia)) as [p0 ->], (at_ok v 0 ltac:(lia)) as [v0 ->].
  cbn [mbind outcome_bind]. destruct (_ || _ || _); [|by eexists].
  destruct (at_ok p (i + 1) ltac:(lia)) as [p1 ->]. cbn [mbind outcome_bind].
  destruct (Ascii.eqb p1 "*"); [by eexists|].
  destruct (at_ok v (j + 1) ltac:(lia)) as [v1 ->]. by eexists.
Qed.

(** The registered formatters a media type accepts. *)
Definition accepted (fs : list (bytes * Formatter)) (t : bytes) (f : bytes * Formatter) : Prop :=
  f ∈ fs /\ mime_match f.1 t = Ret true.

Lemma find_formatter_spec p fs :
  (forall f, f ∈ fs -> exists b, p f.1 = Ret b) ->
  exists r, find_formatter p fs = Ret r /\
    match r with
    | Some fmt => exists f, f ∈ fs /\ p f.1 = Ret true /\ f.2 = fmt
    | None => forall f, f ∈ fs -> p f.1 = Ret false
    end.
Proof.
  induction fs as [|f fs IH]; intros H; cbn [find_formatter].
  { eexists. split; [done|]. simpl. by inversion 1. }
  destruct (H f ltac:(left)) as [b Hb]. rewrite Hb. cbn [mbind outcome_bind]. destruct b.
  - eexists. split; [done|]. exists f. split; [left|done].
  - destruct IH as ([fmt|] & -> & Hr); [intros; apply H; by right| |]; eexists; (split; [done|]).
    + destruct Hr as (g & Hg & ? & ?). exists g. split; [by right|done].
    + intros g [->|]%elem_of_cons; auto.
Qed.

Lemma prefs_loop_spec fs l :
  Forall (fun f => well_typed f.1) fs -> Forall (fun t => well_typed t.1) l ->
  StronglySorted (fun a b => by_quality b a = false) l ->
  exists r, prefs_loop fs l = Ret r /\
    match r with
    | Some fmt => exists t f, t ∈ l /\ accepted fs t.1 f /\ f.2 = fmt /\
                    forall t' f', t' ∈ l -> accepted fs t'.1 f' -> by_quality t' t = false
    | None => forall t f, t ∈ l -> ~ accepted fs t.1 f
    end.
Proof.
  intros Hfs. induction l as [|t l IH]; intros Hl Hs; cbn [prefs_loop].
  { eexists. split; [done|]. simpl. by inversion 1. }
  apply Forall_cons in Hl as [Ht Hl]. apply StronglySorted_inv in Hs as [Hs Hall].
  destruct (find_formatter_spec (fun f => mime_match f t.1) fs) as ([fmt|] & -> & Hr).
  { intros f Hf. rewrite Forall_forall in Hfs. apply mime_match_ok; auto. }
  - cbn [mbind outcome_bind]. eexists. split; [done|]. destruct Hr as (f & Hf & Hm & <-).
    exists t, f. split_and!; [left|done|done|]. intros t' f' [->|Hin]%elem_of_cons _.
    + destruct (sortable_sw [t] eq_refl) as [Hirr _ _]. by apply Hirr, list_elem_of_singleton.
    + rewrite Forall_forall in Hall. by apply Hall.
  - cbn [mbind outcome_bind]. destruct (IH Hl Hs) as (r & -> & Hr'). eexists. split; [done|].
    assert (forall f', ~ accepted fs t.1 f') as Hno.
    { intros f' [Hf' Hm]. specialize (Hr f' Hf'). congruence. }
    destruct r as [fmt|].
    + destruct Hr' as (u & f & Hu & Ha & He & Hbest). exists u, f. split_and!; [by right|done|done|].
      intros t' f' [->|Hin]%elem_of_cons Ha'; [by destruct (Hno f')|eauto].
    + intros u f [->|Hin]%elem_of_cons; [apply Hno|by apply Hr'].
Qed.

Lemma build_prefs strtof {SS : StdSort} f req code msg prefs excluded :
  let accept := HttpRequest.getHeaders "Accept" req in
  accept <> [] -> parseQValues strtof (concat (map (fun a => a ++ ",") accept)) = (prefs, excluded) ->
  prefs <> [] -> sortable prefs = true ->
  build strtof f req code msg =
    r ← prefs_loop (registeredFormatters_ f) (std_sort by_quality prefs);
    Ret (match r with Some formatter => formatter code msg | None => (fallbackFormatterPair_ f).2 406%Z [] end).
Proof.
  intros accept Ha E Hp Hs. unfold build. fold accept. destruct accept as [|a l]; [done|]. rewrite E.
  destruct prefs; [done|]. by rewrite Hs.
Qed.

(** which formatter answers an error: with no Accept header (or an empty one)
    the fallback; else, if any media type of positive quality is accepted by a
    registered formatter, one of the formatters registered for a type of the
    highest quality among those; else the fallback with status 406. *)
Theorem negotiation strtof {SS : StdSort} f req code msg :
  let accept := HttpRequest.getHeaders "Accept" req in
  let '(prefs, excluded) := parseQValues strtof (concat (map (fun a => a ++ ",") accept)) in
  let fs := registeredFormatters_ f in
  let fallback := (fallbackFormatterPair_ f).2 in
  Forall (fun g => well_typed g.1) fs -> Forall (fun t => well_typed t.1) prefs ->
  sortable prefs = true ->
  (accept = [] \/ (prefs = [] /\ excluded = []) -> build strtof f req code msg = Ret (fallback code msg)) /\
  (accept <> [] -> prefs <> [] ->
   (exists t g, t ∈ prefs /\ accepted fs t.1 g /\ build strtof f req code msg = Ret (g.2 code msg) /\
      forall t' g', t' ∈ prefs -> accepted fs t'.1 g' -> by_quality t' t = false) \/
   ((forall t g, t ∈ prefs -> ~ accepted fs t.1 g) /\ build strtof f req code msg = Ret (fallback 406%Z []))).
Proof.
  intros accept. destruct (parseQValues _ _) as [prefs excluded] eqn:E.
  intros fs fallback Hfs Hprefs Hsort. split.
  - intros H. unfold build. fold accept. destruct accept as [|a accept']; [done|]. rewrite E.
    by destruct H as [|[-> ->]].
  - intros Ha Hp. rewrite (build_prefs _ _ _ _ _ _ _ Ha E Hp Hsort).
    pose proof (std_sort_perm by_quality prefs (sortable_sw _ Hsort)) as Hperm.
    destruct (prefs_loop_spec fs (std_sort by_quality prefs) Hfs) as (r & Hr & Hspec).
    { by rewrite Hperm. }
    { by apply std_sort_sorted, sortable_sw. }
    fold fs. rewrite Hr. cbn [mbind outcome_bind]. destruct r as [fmt|].
    + left. destruct Hspec as (t & g & Ht & Hacc & <- & Hbest). exists t, g.
      rewrite Hperm in Ht. split_and!; [done..|]. intros t' g' Ht'. apply Hbest. by rewrite Hperm.
    + right. split; [|done]. intros t g Ht. apply Hspec. by rewrite Hperm.
Qed.

(** A concrete [strtof] for the witness: it knows "0.5". *)
Definition sample_strtof (s : bytes) : float :=
  if s =?b "0.5" then S754_finite false 8388608 (-24) else float1.

Definition sample_factory : ErrorFactory :=
  setFormatter "text/html" (fun c _ => HttpResponse_typed c "text/html" "<p>")
    (setFormatter "text/plain" (fun c _ => HttpResponse_typed c "text/plain" "p")
      (ErrorFactory_new (fun _ m => m))).

Definition sample_request : HttpRequest.HttpRequest :=
  HttpRequest.addHeader "Accept" "text/plain;q=0.5, text/html" (HttpRequest.fresh [] 0).

Lemma negotiation_witness :
  let prefs := [("text/plain" : bytes, S754_finite false 8388608 (-24)); ("text/html" : bytes, float1)] in
  let b := @build sample_strtof InsertionSort.insertion_sort sample_factory sample_request 404 [] in
  (exists t g, t ∈ prefs /\ accepted (registeredFormatters_ sample_factory) t.1 g /\ b = Ret (g.2 404%Z []) /\
     forall t' g', t' ∈ prefs -> accepted (registeredFormatters_ sample_factory) t'.1 g' -> by_quality t' t = false) \/
  ((forall t g, t ∈ prefs -> ~ accepted (registeredFormatters_ sample_factory) t.1 g) /\
   b = Ret ((fallbackFormatterPair_ sample_factory).2 406%Z [])).
Proof.
  intros prefs b.
  pose proof (@negotiation sample_strtof InsertionSort.insertion_sort sample_factory sample_request 404 []) as H.
  cbv zeta in H.
  assert (parseQValues sample_strtof (concat (map (fun a => a ++ ",")
            (HttpRequest.getHeaders "Accept" sample_request))) = (prefs, [])) as E by (vm_compute; reflexivity).
  rewrite E in H. apply H.
  - cbn [sample_factory setFormatter registeredFormatters_ ErrorFactory_new app].
    apply Forall_cons_2; [|apply Forall_cons_2; [|by apply Forall_nil_2]];
      intros i Hi; vm_compute in Hi; injection Hi as <-; vm_compute; lia.
  - apply Forall_cons_2; [|apply Forall_cons_2; [|by apply Forall_nil_2]];
      intros i Hi; vm_compute in Hi; injection Hi as <-; vm_compute; lia.
  - reflexivity.
  - vm_compute. discriminate.
  - discriminate.
Defined.
