(* ===== verification/HttpTypes.v ===== *)
(** The types handlers and middlewares share ([HttpTypes.hpp]): the variant of
    the three responses, and handlers, middlewares and [Next] as effects over a
    state that holds the request ([HttpRequest &]). *)
From S2P Require Import Prelude Bytes Effects.
From S2P Require HttpRequest HttpResponse HttpStreamResponse HttpFileResponse HeaderStore.

Inductive Response (F : Type) :=
| Plain (r : HttpResponse.HttpResponse)
| Stream (r : HttpStreamResponse.HttpStreamResponse F)
| File (r : HttpFileResponse.HttpFileResponse).
Arguments Plain {F} r.
Arguments Stream {F} r.
Arguments File {F} r.

(** Where the request lives in the state of the connection. *)
Class HasRequest (S : Type) := {
  get_request : S -> HttpRequest.HttpRequest;
  put_request : HttpRequest.HttpRequest -> S -> S;
  get_put r s : get_request (put_request r s) = r;
  put_put r r' s : put_request r (put_request r' s) = put_request r s;
  put_get s : put_request (get_request s) s = s;
}.

(** A request on its own is such a state. *)
#[export] Instance request_has_request : HasRequest HttpRequest.HttpRequest.
Proof. by refine {| get_request r := r; put_request r _ := r |}. Defined.

Section Types.
Context {S : Type} {HR : HasRequest S} {F : Type}.

Definition modify_request (f : HttpRequest.HttpRequest -> HttpRequest.HttpRequest) : M S unit :=
  modify (fun s => put_request (f (get_request s)) s).

(** A view of a field of the request, taken when the fields were those of [before] and
    read now: it is stale when they have changed in between. *)
Definition read_view (key : bytes) (before : HttpRequest.HttpRequest) : M S bytes :=
  request ← gets get_request;
  if bool_decide (HttpRequest.headers_ request = HttpRequest.headers_ before)
  then mret (HttpRequest.getHeaderLower key request) else undefined.

Lemma read_view_ok key before s :
  HttpRequest.headers_ (get_request s) = HttpRequest.headers_ before ->
  read_view key before s = (Ret (HttpRequest.getHeaderLower key before), s).
Proof.
  intros H. unfold read_view, gets, mbind, M_bind, HttpRequest.getHeaderLower. cbv beta iota.
  by rewrite bool_decide_eq_true_2, H.
Qed.

(** [res.headers], for any alternative ([std::visit]). *)
Definition map_headers (f : fields -> fields) (r : Response F) : Response F :=
  match r with
  | Plain r => Plain (HttpResponse.with_headers f r)
  | Stream r => Stream (HttpStreamResponse.Build_HttpStreamResponse F (f (HttpStreamResponse.headers r))
      (HttpStreamResponse.cookies r) (HttpStreamResponse.statusCode_ r) (HttpStreamResponse.version_ r)
      (HttpStreamResponse.isChunked_ r) (HttpStreamResponse.nextChunkFn_ r))
  | File r => File (HttpFileResponse.with_headers f r)
  end.

Definition response_headers (r : Response F) : fields :=
  match r with
  | Plain r => HttpResponse.headers r
  | Stream r => HttpStreamResponse.headers r
  | File r => HttpFileResponse.headers r
  end.

Definition response_status (r : Response F) : Z :=
  match r with
  | Plain r => HttpResponse.statusCode_ r
  | Stream r => HttpStreamResponse.statusCode_ r
  | File r => HttpFileResponse.statusCode_ r
  end.
End Types.

Abbreviation Handler S F := (M S (Response F)).
Abbreviation Next S F := (M S (Response F)).
Abbreviation Middleware S F := (Next S F -> M S (Response F)).
