(* ===== verification/Router.v ===== *)
(** The router ([Router.hpp], [Router.cpp]): a trie of route patterns with
    literal, parameter, wildcard and deep wildcard children, searched with
    backtracking, and the dispatch of a request through the middlewares. *)
From S2P Require Import Prelude Bytes Effects HttpUtils HeaderStore HttpTypes.
From S2P Require HttpRequest HttpResponse HttpStreamResponse HttpFileResponse.

#[local] Arguments list_ascii_of_string : simpl never.

#[local] Set Warnings "-register-all".

Inductive RouterResponse := OK | NOT_FOUND | METHOD_NOT_ALLOWED.

(** ** The trie *)
Inductive RouteNode (H : Type) := Node {
  children : list (bytes * RouteNode H);
  paramChild : option (RouteNode H);
  wildcardChild : option (RouteNode H);
  deepWildcardChild : option (RouteNode H);
  requestHandlers : list (bytes * H);
  patternParts : list bytes;
  allowedMethods : bytes;
}.
Arguments Node {H}. Arguments children {H}. Arguments paramChild {H}. Arguments wildcardChild {H}.
Arguments deepWildcardChild {H}. Arguments requestHandlers {H}. Arguments patternParts {H}.
Arguments allowedMethods {H}.

Definition empty_node {H} : RouteNode H := Node [] None None None [] [] [].

(** Which child a part of a pattern selects. *)
Inductive kind := KLit (s : bytes) | KParam | KWild | KDeep.

Definition kind_of (part : bytes) : kind :=
  if starts_with "<" part && ends_with ">" part then KParam
  else if part =?b "**" then KDeep
  else if part =?b "*" then KWild
  else KLit part.

(** [children\[key\] = c] *)
Fixpoint put_assoc {V} (key : bytes) (c : V) (l : list (bytes * V)) : list (bytes * V) :=
  match l with
  | [] => [(key, c)]
  | (k, v) :: l' => if k =?b key then (k, c) :: l' else (k, v) :: put_assoc key c l'
  end.

Definition get_child {H} (k : kind) (n : RouteNode H) : option (RouteNode H) :=
  match k with
  | KLit s => assoc_first s (children n)
  | KParam => paramChild n
  | KWild => wildcardChild n
  | KDeep => deepWildcardChild n
  end.

Definition set_child {H} (k : kind) (c : RouteNode H) (n : RouteNode H) : RouteNode H :=
  match k with
  | KLit s => Node (put_assoc s c (children n)) (paramChild n) (wildcardChild n) (deepWildcardChild n)
                (requestHandlers n) (patternParts n) (allowedMethods n)
  | KParam => Node (children n) (Some c) (wildcardChild n) (deepWildcardChild n)
                (requestHandlers n) (patternParts n) (allowedMethods n)
  | KWild => Node (children n) (paramChild n) (Some c) (deepWildcardChild n)
                (requestHandlers n) (patternParts n) (allowedMethods n)
  | KDeep => Node (children n) (paramChild n) (wildcardChild n) (Some c)
                (requestHandlers n) (patternParts n) (allowedMethods n)
  end.

(** The loop of [addRoute] down the trie, creating the nodes that are missing,
    then [f] at the node it stops at. *)
Fixpoint walk {H R} (parts : list bytes) (f : RouteNode H -> R * RouteNode H) (node : RouteNode H) :
    R * RouteNode H :=
  match parts with
  | [] => f node
  | part :: rest =>
      let '(r, c) := walk rest f (default empty_node (get_child (kind_of part) node)) in
      (r, set_child (kind_of part) c node)
  end.

Definition isValidParamChar (c : ascii) : bool := isalnum c || Ascii.eqb c "_".

(** [str.substr(1, str.size() - 2)] *)
Definition param_name (part : bytes) : bytes := take (length part - 2) (drop 1 part).

(** The loop of [validatePattern]; [i] and [params] are its variables. *)
Fixpoint validate_loop (pattern : bytes) (n i : nat) (params : list bytes) (parts : list bytes) : outcome unit :=
  match parts with
  | [] => Ret tt
  | part :: rest =>
      if part =?b [] then Throw (InvalidArgument ("Empty segment in pattern: " ++ pattern))
      else
        let isLast := bool_decide (i = n - 1) in
        if ((part =?b "*") || (part =?b "**")) && negb isLast then
          Throw (InvalidArgument ("Wildcard '" ++ part ++ "' must be the last segment in pattern: " ++ pattern))
        else if starts_with "<" part && ends_with ">" part then
          let param := param_name part in
          if param =?b [] then Throw (InvalidArgument ("Parameter name cannot be empty: " ++ pattern))
          else if negb (forallb isValidParamChar param) then
            Throw (InvalidArgument ("Parameter name '" ++ param ++
                                    "' contains invalid characters in pattern: " ++ pattern))
          else if existsb (beqb param) params then
            Throw (InvalidArgument ("Duplicate parameter '" ++ param ++ "' in pattern: " ++ pattern))
          else validate_loop pattern n (S i) (param :: params) rest
        else validate_loop pattern n (S i) params rest
  end.

Definition validatePattern (pattern : bytes) (parts : list bytes) : outcome unit :=
  validate_loop pattern (length parts) 0 [] parts.

(** The end of [addRoute], at the node of the pattern. *)
Definition add_handler {H} (pattern method : bytes) (parts : list bytes) (handler : H) (node : RouteNode H) :
    outcome unit * RouteNode H :=
  match assoc_first method (requestHandlers node) with
  | Some _ => (Throw (InvalidArgument ("Duplicate route: " ++ pattern)), node)
  | None =>
      let allowed :=
        match allowedMethods node with
        | [] => method ++ ", OPTIONS"
        | a => a ++ ", " ++ method
        end in
      let allowed := if method =?b "GET" then allowed ++ ", HEAD" else allowed in
      (Ret tt, Node (children node) (paramChild node) (wildcardChild node) (deepWildcardChild node)
                 (requestHandlers node ++ [(method, handler)]) parts allowed)
  end.

(** ** The search *)
Fixpoint backtrack {H} (node : RouteNode H) (path : list bytes) : option (RouteNode H) :=
  match path with
  | [] => Some node
  | part :: rest =>
      let literal := match assoc_first part (children node) with
                     | Some c => backtrack c rest
                     | None => None
                     end in
      match literal with
      | Some r => Some r
      | None =>
          let param := match paramChild node with Some c => backtrack c rest | None => None end in
          match param with
          | Some r => Some r
          | None =>
              let wildcard := match wildcardChild node with Some c => backtrack c rest | None => None end in
              match wildcard with
              | Some r => Some r
              | None => deepWildcardChild node
              end
          end
      end
  end.

(** [captured] of [getPathParams]. *)
Definition captured (parts : list bytes) : bytes :=
  let s := concat (map (fun p => p ++ [SLASH]) parts) in
  match s with [] => [] | _ => take (length s - 1) s end.

(** [pathParts\[i\]], undefined out of range. *)
Definition part_at (pathParts : list bytes) (i : nat) : outcome bytes :=
  match pathParts !! i with Some p => Ret p | None => Undef end.

Fixpoint params_loop (i : nat) (pattern : list bytes) (pathParts : list bytes) (acc : fields) : outcome fields :=
  match pattern with
  | [] => Ret acc
  | part :: rest =>
      if part =?b "**" then Ret (acc ++ [("**" : bytes, captured (drop i pathParts))])
      else if part =?b "*" then
        p ← part_at pathParts i;
        params_loop (S i) rest pathParts (acc ++ [("*" : bytes, p)])
      else if starts_with "<" part && ends_with ">" part then
        p ← part_at pathParts i;
        params_loop (S i) rest pathParts (acc ++ [(param_name part, percentDecode p)])
      else params_loop (S i) rest pathParts acc
  end.

Definition getPathParams (pattern pathParts : list bytes) : outcome fields :=
  params_loop 0 pattern pathParts [].

(** ** The class *)
Record Router (H MW : Type) := {
  pathTreeRoot_ : RouteNode H;
  middlewares_ : list MW;
  registeredMethods_ : gset bytes;
}.
Arguments pathTreeRoot_ {H MW}. Arguments middlewares_ {H MW}. Arguments registeredMethods_ {H MW}.

Definition Router_new {H MW} : Router H MW := Build_Router H MW empty_node [] ∅.

Section Registration.
Context {H MW : Type}.

Definition addRoute (routePattern method : bytes) (handler : H) (r : Router H MW) : outcome unit * Router H MW :=
  let pattern := normalizePath routePattern in
  let parts := split pattern "/" in
  match validatePattern pattern parts with
  | Ret _ =>
      let '(res, root) := walk parts (add_handler pattern method parts handler) (pathTreeRoot_ r) in
      (res, Build_Router H MW root (middlewares_ r)
              (match res with Ret _ => {[method]} ∪ registeredMethods_ r | _ => registeredMethods_ r end))
  | Throw e => (Throw e, r)
  | Undef => (Undef, r)
  end.

Definition get path handler := addRoute path "GET" handler.
Definition post path handler := addRoute path "POST" handler.
Definition put path handler := addRoute path "PUT" handler.
Definition patch path handler := addRoute path "PATCH" handler.
Definition delete_ path handler := addRoute path "DELETE" handler.

Definition use (middleware : MW) (r : Router H MW) : Router H MW :=
  Build_Router H MW (pathTreeRoot_ r) (middlewares_ r ++ [middleware]) (registeredMethods_ r).

Definition findMatchingRouteEntry (r : Router H MW) (pathParts : list bytes) : option (RouteNode H) :=
  match backtrack (pathTreeRoot_ r) pathParts with
  | Some result => match requestHandlers result with [] => None | _ => Some result end
  | None => None
  end.

Definition lookup_method (method : bytes) : bytes := if method =?b "HEAD" then "GET" else method.

Definition validate (r : Router H MW) (request : HttpRequest.HttpRequest) : RouterResponse :=
  match findMatchingRouteEntry r (HttpRequest.pathParts_ request) with
  | None => NOT_FOUND
  | Some pathNode =>
      match assoc_first (lookup_method (HttpRequest.method_ request)) (requestHandlers pathNode) with
      | None => METHOD_NOT_ALLOWED
      | Some _ => OK
      end
  end.

Definition getAllowedMethodsString (r : Router H MW) (request : HttpRequest.HttpRequest) : bytes :=
  match findMatchingRouteEntry r (HttpRequest.pathParts_ request) with
  | None => []
  | Some pathNode => allowedMethods pathNode
  end.
End Registration.

(** ** Dispatch *)
Section Dispatch.
Context {S F : Type} {HR : HasRequest S}.

(** [errorFactory_.build], and the order in which an [unordered_set] is walked. *)
Context (build : HttpRequest.HttpRequest -> Z -> bytes -> outcome HttpResponse.HttpResponse)
        (iterate : gset bytes -> list bytes).

#[local] Abbreviation Handler := (Handler S F).
#[local] Abbreviation Middleware := (Middleware S F).
#[local] Abbreviation Response := (Response F).

Definition build_error (code : Z) : M S HttpResponse.HttpResponse :=
  r ← gets get_request; lift (build r code []).

Definition current_method : M S bytes := gets (fun s => HttpRequest.method_ (get_request s)).

(** [for (auto &\[k, v\] : stream.headers.getAllHeaders()) res.headers.setHeader(k, v)] *)
Definition copy_headers (from to : fields) : fields :=
  fold_left (fun hs p => HeaderStore.setHeader p.1 p.2 hs) from to.

(** What becomes of a handler's response to a HEAD request. *)
Definition strip_for_head (response : Response) : outcome Response :=
  match response with
  | Plain r => Ret (Plain (HttpResponse.stripBody r))
  | Stream stream =>
      let res := HttpResponse.HttpResponse_code (HttpStreamResponse.statusCode_ stream) in
      let res := HttpResponse.with_headers (HeaderStore.removeHeader "content-length") res in
      let res := HttpResponse.with_headers (copy_headers (HttpStreamResponse.headers stream)) res in
      Ret (Plain (HttpResponse.stripBody res))
  | File _ => Throw BadVariantAccess
  end.

Definition terminal (pathNode : option (RouteNode Handler)) : Handler :=
  match pathNode with
  | None =>
      response ← build_error 404;
      m ← current_method;
      mret (Plain (if m =?b "HEAD" then HttpResponse.stripBody response else response))
  | Some node =>
      parts ← gets (fun s => HttpRequest.pathParts_ (get_request s));
      pathParams ← lift (getPathParams (patternParts node) parts);
      modify_request (HttpRequest.setPathParams pathParams);;
      m ← current_method;
      match assoc_first (lookup_method m) (requestHandlers node) with
      | Some handler =>
          response ← handler;
          m ← current_method;
          if m =?b "HEAD" then lift (strip_for_head response) else mret response
      | None =>
          if m =?b "OPTIONS" then
            mret (Plain (HttpResponse.with_headers (HeaderStore.setHeaderLower "allow" (allowedMethods node))
                           (HttpResponse.HttpResponse_code 204)))
          else
            response ← build_error 405;
            let response := if m =?b "HEAD" then HttpResponse.stripBody response else response in
            mret (Plain (HttpResponse.with_headers (HeaderStore.setHeaderLower "allow" (allowedMethods node)) response))
      end
  end.

(** [runChain(request, handler, startIndex)]: the middlewares from [startIndex] on. *)
Fixpoint run_from (mws : list Middleware) (handler : Handler) : Handler :=
  match mws with
  | [] => handler
  | middleware :: rest => middleware (run_from rest handler)
  end.

Definition runChain (r : Router Handler Middleware) (handler : Handler) (startIndex : nat) : Handler :=
  run_from (drop startIndex (middlewares_ r)) handler.

Definition dispatch (r : Router Handler Middleware) : M S Response :=
  method ← current_method;
  if (method =?b "TRACE") || (method =?b "CONNECT") then
    response ← build_error 501; mret (Plain response)
  else
    requestPath ← gets (fun s => HttpRequest.path_ (get_request s));
    if (method =?b "OPTIONS") && (requestPath =?b "*") then
      let methods := {["OPTIONS" : bytes]} ∪ registeredMethods_ r in
      let methods := if bool_decide (("GET" : bytes) ∈ methods) then {["HEAD" : bytes]} ∪ methods else methods in
      mret (Plain (HttpResponse.with_headers
                     (HeaderStore.setHeaderLower "allow" (getCommaSeparatedString (iterate methods)))
                     (HttpResponse.HttpResponse_code 204)))
    else
      parts ← gets (fun s => HttpRequest.pathParts_ (get_request s));
      let pathNode := findMatchingRouteEntry r parts in
      match pathNode with
      | Some node => modify_request (HttpRequest.setAttribute "allowedMethods" (allowedMethods node))
      | None => mret tt
      end;;
      runChain r (terminal pathNode) 0.
End Dispatch.

(** ** Reference: patterns as lists of kinds *)
#[export] Instance kind_eq_dec : EqDecision kind.
Proof. solve_decision. Defined.

Inductive matches : list kind -> list bytes -> Prop :=
| m_nil : matches [] []
| m_lit s ks ps : matches ks ps -> matches (KLit s :: ks) (s :: ps)
| m_param p ks ps : matches ks ps -> matches (KParam :: ks) (p :: ps)
| m_wild p ks ps : matches ks ps -> matches (KWild :: ks) (p :: ps)
| m_deep p ps : matches [KDeep] (p :: ps).

Definition priority (k : kind) : nat :=
  match k with KLit _ => 0 | KParam => 1 | KWild => 2 | KDeep => 3 end.

(** Literals before parameters before wildcards before deep wildcards, the
    leftmost part deciding. *)
Inductive preferred : list kind -> list kind -> Prop :=
| p_nil ks : preferred [] ks
| p_lt k k' ks ks' : priority k < priority k' -> preferred (k :: ks) (k' :: ks')
| p_eq k ks ks' : preferred ks ks' -> preferred (k :: ks) (k :: ks').

Fixpoint node_at {H} (ks : list kind) (n : RouteNode H) : option (RouteNode H) :=
  match ks with
  | [] => Some n
  | k :: ks => match get_child k n with Some c => node_at ks c | None => None end
  end.

(** ** The search finds the preferred match *)
Lemma node_at_cons {H} k ks (n : RouteNode H) :
  node_at (k :: ks) n = match get_child k n with Some c => node_at ks c | None => None end.
Proof. reflexivity. Qed.

Definition found {H} (n : RouteNode H) (path : list bytes) (r : option (RouteNode H)) : Prop :=
  match r with
  | Some m => exists ks, matches ks path /\ node_at ks n = Some m /\
      forall ks', matches ks' path -> is_Some (node_at ks' n) -> preferred ks ks'
  | None => forall ks, matches ks path -> node_at ks n = None
  end.

(** What trying the child of kind [k] gives. *)
Definition tried {H} (n : RouteNode H) (k : kind) (p : bytes) (ps : list bytes) (r : option (RouteNode H)) : Prop :=
  match r with
  | Some m => exists ks, matches (k :: ks) (p :: ps) /\ node_at (k :: ks) n = Some m /\
      forall ks', matches (k :: ks') (p :: ps) -> is_Some (node_at (k :: ks') n) -> preferred (k :: ks) (k :: ks')
  | None => forall ks, matches (k :: ks) (p :: ps) -> node_at (k :: ks) n = None
  end.

Lemma tried_child {H} (n : RouteNode H) k p ps :
  k = KLit p \/ k = KParam \/ k = KWild -> (forall c : RouteNode H, found c ps (backtrack c ps)) ->
  tried n k p ps (match get_child k n with Some c => backtrack c ps | None => None end).
Proof.
  intros Hk IH.
  assert (forall ks, matches (k :: ks) (p :: ps) <-> matches ks ps) as Hm.
  { intros ks. destruct Hk as [-> | [-> | ->]]; (split; [by inversion 1|by constructor]). }
  destruct (get_child k n) as [c|] eqn:Ec; [|intros ks _; by rewrite node_at_cons, Ec].
  specialize (IH c). destruct (backtrack c ps) as [m|]; cbn [found tried] in *.
  - destruct IH as (ks & H1 & H2 & H3). exists ks. rewrite Hm, node_at_cons, Ec. split_and!; [done..|].
    intros ks'. rewrite Hm, node_at_cons, Ec. intros. by apply p_eq, H3.
  - intros ks. rewrite Hm, node_at_cons, Ec. apply IH.
Qed.

Lemma found_first {H} (n : RouteNode H) p ps k m :
  tried n k p ps (Some m) ->
  (forall k' ks, priority k' < priority k -> matches (k' :: ks) (p :: ps) -> node_at (k' :: ks) n = None) ->
  (forall k' ks, priority k' = priority k -> matches (k' :: ks) (p :: ps) -> k' = k) ->
  found n (p :: ps) (Some m).
Proof.
  intros (ks & H1 & H2 & H3) Hlt Heq. exists (k :: ks). split_and!; [done..|].
  intros ks' Hm Hs. destruct ks' as [|k' ks']; [by inversion Hm|].
  destruct (Nat.lt_trichotomy (priority k) (priority k')) as [Hp|[Hp|Hp]]; [by apply p_lt| |].
  - assert (k' = k) as -> by (by eapply Heq). by apply H3.
  - rewrite (Hlt k' ks' Hp Hm) in Hs. by destruct Hs.
Qed.

Lemma backtrack_found {H} (n : RouteNode H) path : found n path (backtrack n path).
Proof.
  revert n. induction path as [|p ps IH]; intros n; cbn [backtrack].
  { exists []. split_and!; [constructor|done|]. intros ks' _ _. constructor. }
  pose proof (tried_child n (KLit p) p ps (or_introl eq_refl) IH) as T1.
  pose proof (tried_child n KParam p ps (or_intror (or_introl eq_refl)) IH) as T2.
  pose proof (tried_child n KWild p ps (or_intror (or_intror eq_refl)) IH) as T3.
  cbn [get_child] in T1, T2, T3.
  destruct (match assoc_first p (children n) with Some c => backtrack c ps | None => None end) as [m|].
  { apply (found_first n p ps _ m T1); [intros [] ks Hlt; simpl in Hlt; lia|].
    intros k' ks Hp Hm. by inversion Hm; subst. }
  destruct (match paramChild n with Some c => backtrack c ps | None => None end) as [m|].
  { apply (found_first n p ps _ m T2).
    - intros k' ks Hlt Hm. inversion Hm; subst; simpl in Hlt; try lia. by apply T1.
    - intros k' ks Hp Hm. by inversion Hm; subst. }
  destruct (match wildcardChild n with Some c => backtrack c ps | None => None end) as [m|].
  { apply (found_first n p ps _ m T3).
    - intros k' ks Hlt Hm. inversion Hm; subst; simpl in Hlt; try lia; [by apply T1|by apply T2].
    - intros k' ks Hp Hm. by inversion Hm; subst. }
  destruct (deepWildcardChild n) as [m|] eqn:E.
  - apply (found_first n p ps KDeep m).
    + exists []. split_and!; [constructor|by rewrite node_at_cons; simpl; rewrite E|].
      intros ks' Hm _. inversion Hm; subst. apply p_eq, p_nil.
    + intros k' ks Hlt Hm. inversion Hm; subst; simpl in Hlt; try lia; [by apply T1|by apply T2|by apply T3].
    + intros k' ks Hp Hm. by inversion Hm; subst.
  - intros ks Hm. inversion Hm; subst; [by apply T1|by apply T2|by apply T3|].
    rewrite node_at_cons. simpl. by rewrite E.
Qed.

(** ** What registration does to the trie *)
Definition content {H} (n : RouteNode H) : list (bytes * H) * list bytes * bytes :=
  (requestHandlers n, patternParts n, allowedMethods n).

Definition content_at {H} (ks : list kind) (n : RouteNode H) := content <$> node_at ks n.

Definition empty_content {H} : list (bytes * H) * list bytes * bytes := ([], [], []).

Lemma assoc_put {V} k key (c : V) l :
  assoc_first k (put_assoc key c l) = if key =?b k then Some c else assoc_first k l.
Proof.
  induction l as [|[k' v] l IH]; simpl; [done|].
  destruct (beqb_spec k' key) as [->|Hne]; simpl.
  - by destruct (beqb_spec key k).
  - rewrite IH. destruct (beqb_spec k' k) as [->|]; [|done]. by rewrite (proj2 (beqb_neq key k)) by congruence.
Qed.

Lemma get_set_same {H} k (c n : RouteNode H) : get_child k (set_child k c n) = Some c.
Proof. destruct k; simpl; [|done..]. by rewrite assoc_put, beqb_refl. Qed.

Lemma get_set_other {H} k k' (c n : RouteNode H) : k <> k' -> get_child k (set_child k' c n) = get_child k n.
Proof.
  intros Hne. destruct k, k'; simpl; try done.
  rewrite assoc_put. rewrite (proj2 (beqb_neq _ _)); [done|]. congruence.
Qed.

Lemma content_set {H} k (c n : RouteNode H) : content (set_child k c n) = content n.
Proof. by destruct k. Qed.

Lemma content_at_empty {H} ks : content_at ks (@empty_node H) = if bool_decide (ks = []) then Some empty_content else None.
Proof. destruct ks as [|k ks]; [done|]. by destruct k. Qed.

Lemma content_at_cons {H} k ks (n : RouteNode H) :
  content_at (k :: ks) n = match get_child k n with Some c => content_at ks c | None => None end.
Proof. unfold content_at. rewrite node_at_cons. by destruct (get_child k n). Qed.

Lemma content_default {H} ks (o : option (RouteNode H)) :
  content_at ks (default empty_node o) =
  match o with Some c => content_at ks c | None => if bool_decide (ks = []) then Some empty_content else None end.
Proof. destruct o; [done|]. apply content_at_empty. Qed.

(** [f] only changes what is stored at its node. *)
Definition keeps_children {H R} (f : RouteNode H -> R * RouteNode H) : Prop :=
  forall k n, get_child k (f n).2 = get_child k n.

Definition res_content {H R} (f : RouteNode H -> R * RouteNode H) (n : RouteNode H) := (( f n).1, content (f n).2).

Lemma walk_content {H R} (parts : list bytes) (f : RouteNode H -> R * RouteNode H) n ks :
  keeps_children f ->
  let kp := map kind_of parts in
  let target := default empty_node (node_at kp n) in
  (walk parts f n).1 = (f target).1 /\
  content_at ks (walk parts f n).2 =
    if bool_decide (ks = kp) then Some (content (f target).2)
    else if bool_decide (ks `prefix_of` kp) then Some (default empty_content (content_at ks n))
    else content_at ks n.
Proof.
  intros Hf. revert n ks. induction parts as [|p parts IH]; intros n ks; cbn [walk map].
  { split; [done|]. cbn [node_at default from_option id]. destruct ks as [|k ks]; [done|].
    rewrite !bool_decide_eq_false_2 by (try done; by intros [? ?]).
    by rewrite !content_at_cons, Hf. }
  set (k0 := kind_of p). set (kp := map kind_of parts) in *.
  set (c0 := default empty_node (get_child k0 n)).
  destruct (walk parts f c0) as [r c] eqn:Ew. cbn [fst snd].
  assert (default empty_node (node_at (k0 :: kp) n) = default empty_node (node_at kp c0)) as Ht.
  { rewrite node_at_cons. unfold c0. destruct (get_child k0 n); [done|]. simpl.
    destruct kp as [|k kp]; [done|]. by destruct k. }
  rewrite Ht. pose proof (IH c0) as IH0. rewrite Ew in IH0. cbn [fst snd] in IH0.
  split; [by apply (IH0 [])|].
  destruct ks as [|k ks].
  { rewrite bool_decide_eq_false_2, bool_decide_eq_true_2 by (try done; by eexists).
    unfold content_at. simpl. by rewrite content_set. }
  rewrite content_at_cons. destruct (decide (k = k0)) as [->|Hne].
  - rewrite get_set_same. rewrite (proj2 (IH0 ks)), content_at_cons. unfold c0 at 2 3.
    rewrite content_default.
    rewrite (bool_decide_ext (k0 :: ks = k0 :: kp) (ks = kp)) by naive_solver.
    rewrite (bool_decide_ext (k0 :: ks `prefix_of` k0 :: kp) (ks `prefix_of` kp))
      by (split; [apply prefix_cons_inv_2|apply prefix_cons]).
    destruct (get_child k0 n); [done|]. destruct (bool_decide (ks = kp)); [done|].
    destruct ks as [|k ks]; [|done]. by rewrite bool_decide_eq_true_2 by apply prefix_nil.
  - rewrite get_set_other, content_at_cons by done.
    rewrite bool_decide_eq_false_2 by congruence. rewrite bool_decide_eq_false_2; [done|].
    intros Hp%prefix_cons_inv_1. done.
Qed.

(** ** The abstract routing table *)
Record route (H : Type) := mkRoute { r_parts : list bytes; r_method : bytes; r_handler : H }.
Arguments mkRoute {H}. Arguments r_parts {H}. Arguments r_method {H}. Arguments r_handler {H}.

Definition kinds {H} (r : route H) : list kind := map kind_of (r_parts r).

Definition routes_at {H} (ks : list kind) (rs : list (route H)) : list (route H) :=
  filter (fun r => kinds r = ks) rs.

(** "GET, OPTIONS, HEAD, POST": the methods registered, in order. *)
Definition listed (m : bytes) : bytes := m ++ (if m =?b "GET" then ", HEAD" : bytes else []).

Definition allowed_of (ms : list bytes) : bytes :=
  match ms with
  | [] => []
  | m :: ms => m ++ ", OPTIONS" ++ (if m =?b "GET" then ", HEAD" : bytes else []) ++
               concat (map (fun m => ", " ++ listed m) ms)
  end.

Definition node_known {H} (ks : list kind) (rs : list (route H)) : Prop :=
  ks = [] \/ Exists (fun r => ks `prefix_of` kinds r) rs.

#[export] Instance node_known_dec {H} ks (rs : list (route H)) : Decision (node_known ks rs).
Proof. unfold node_known. apply _. Defined.

Definition entries {H} (rs : list (route H)) : list (bytes * H) := map (fun r => (r_method r, r_handler r)) rs.

Definition table_content {H} (rs : list (route H)) (ks : list kind) :
    option (list (bytes * H) * list bytes * bytes) :=
  if bool_decide (node_known ks rs) then
    let here := routes_at ks rs in
    Some (entries here, match last here with Some r => r_parts r | None => [] end,
          allowed_of (map r_method here))
  else None.

(** A history of registrations: those that threw left nothing behind. *)
Inductive registered {H MW : Type} : list (route H) -> Router H MW -> Prop :=
| reg_new : registered [] Router_new
| reg_use rs r mw : registered rs r -> registered rs (use mw r)
| reg_add rs r pat m h r' :
    registered rs r -> m <> [] -> addRoute pat m h r = (Ret tt, r') ->
    registered (rs ++ [mkRoute (split (normalizePath pat) "/") m h]) r'
| reg_fail rs r pat m h e r' :
    registered rs r -> m <> [] -> addRoute pat m h r = (Throw e, r') -> registered rs r'.

Lemma assoc_entries {H} m (rs : list (route H)) :
  assoc_first m (entries rs) = None <-> m ∉ map r_method rs.
Proof.
  rewrite assoc_first_None. unfold entries. assert ((map (fun r => (r_method r, r_handler r)) rs).*1 = map r_method rs) as ->.
  { induction rs as [|r rs IH]; [done|]. cbn. by f_equal. }
  done.
Qed.

Lemma allowed_of_snoc ms m :
  m <> [] -> Forall (fun m => m <> []) ms ->
  allowed_of (ms ++ [m]) =
    let allowed := match allowed_of ms with [] => m ++ ", OPTIONS" | a => a ++ ", " ++ m end in
    if m =?b "GET" then allowed ++ ", HEAD" else allowed.
Proof.
  intros Hm Hms. destruct ms as [|m0 ms]; cbn [allowed_of app].
  - destruct (m =?b "GET"); cbn [map concat app]; by rewrite ?app_nil_r, <- ?app_assoc.
  - apply Forall_cons in Hms as [Hm0 _]. rewrite map_app, concat_app. cbn [map concat].
    destruct (m0 ++ ", OPTIONS" ++ (if m0 =?b "GET" then ", HEAD" : bytes else []) ++
              concat (map (fun m => ", " ++ listed m) ms)) as [|c a] eqn:E.
    { by destruct m0. }
    cbv zeta. rewrite (app_comm_cons a _ c), <- E. unfold listed at 2.
    destruct (m =?b "GET"); rewrite <- ?app_assoc; cbn [app]; by rewrite ?app_nil_r, <- ?app_assoc.
Qed.

Lemma routes_at_snoc {H} ks (rs : list (route H)) r :
  routes_at ks (rs ++ [r]) = routes_at ks rs ++ (if bool_decide (kinds r = ks) then [r] else []).
Proof.
  unfold routes_at. rewrite filter_app. f_equal. destruct (decide (kinds r = ks)).
  - by rewrite filter_cons_True, bool_decide_eq_true_2.
  - by rewrite filter_cons_False, bool_decide_eq_false_2.
Qed.

Lemma node_known_snoc {H} ks (rs : list (route H)) r :
  node_known ks (rs ++ [r]) <-> node_known ks rs \/ ks `prefix_of` kinds r.
Proof. unfold node_known. rewrite Exists_app, Exists_cons, Exists_nil. naive_solver. Qed.

Lemma routes_at_unknown {H} ks (rs : list (route H)) : ~ node_known ks rs -> routes_at ks rs = [].
Proof.
  intros Hn. unfold routes_at. induction rs as [|r rs IH]; [done|]. rewrite filter_cons_False.
  - apply IH. intros [->|Hp]; apply Hn; [by left|right; by right].
  - intros <-. apply Hn. right. left. done.
Qed.

Definition agrees {H} (rs : list (route H)) (root : RouteNode H) : Prop :=
  forall ks, content_at ks root = table_content rs ks.

Lemma add_handler_keeps {H} pattern m parts (h : H) : keeps_children (add_handler pattern m parts h).
Proof. intros k n. unfold add_handler. by destruct (assoc_first m (requestHandlers n)), k. Qed.

(** What the node of a pattern holds before it is added. *)
Lemma target_content {H} (rs : list (route H)) root kp :
  agrees rs root ->
  content (default empty_node (node_at kp root)) =
    (entries (routes_at kp rs), match last (routes_at kp rs) with Some r => r_parts r | None => [] end,
     allowed_of (map r_method (routes_at kp rs))).
Proof.
  intros Ha. specialize (Ha kp). unfold content_at, table_content in Ha.
  destruct (node_at kp root) as [n|]; cbn [fmap option_fmap option_map default from_option id] in *.
  - by destruct (bool_decide (node_known kp rs)); simplify_eq.
  - destruct (bool_decide (node_known kp rs)) eqn:E; [done|].
    apply bool_decide_eq_false_1 in E. by rewrite (routes_at_unknown kp rs E).
Qed.

(** Registering at a node known or not, as the table sees it. *)
Lemma agrees_step {H} (rs : list (route H)) root pat m parts (h : H) :
  agrees rs root -> m <> [] -> Forall (fun r => r_method r <> []) rs ->
  let r := mkRoute parts m h in
  let '(res, root') := walk parts (add_handler pat m parts h) root in
  if bool_decide (m ∈ map r_method (routes_at (kinds r) rs))
  then res = Throw (InvalidArgument ("Duplicate route: " ++ pat)) /\ agrees rs root'
  else res = Ret tt /\ agrees (rs ++ [r]) root'.
Proof.
  intros Ha Hm Hms r. set (kp := kinds r). pose proof (target_content rs root kp Ha) as Ht.
  destruct (walk parts (add_handler pat m parts h) root) as [res root'] eqn:Ew.
  pose proof (fun ks => walk_content parts _ root ks (add_handler_keeps pat m parts h)) as Hw.
  rewrite Ew in Hw. cbn [fst snd] in Hw. change (map kind_of parts) with kp in Hw.
  set (target := default empty_node (node_at kp root)) in *. unfold content in Ht.
  injection Ht as Hh Hp Hal. set (here := routes_at kp rs) in *.
  assert (Forall (fun m => m <> []) (map r_method here)) as Hhere.
  { apply Forall_map. apply Forall_forall.
    intros q [_ Hq]%list_elem_of_filter. rewrite Forall_forall in Hms. auto. }
  destruct (bool_decide (m ∈ map r_method here)) eqn:Ed.
  - apply bool_decide_eq_true_1 in Ed.
    assert (assoc_first m (requestHandlers target) <> None) as Hs by (rewrite Hh, assoc_entries; auto).
    unfold add_handler in Hw. destruct (assoc_first m (requestHandlers target)) eqn:Ea; [|done].
    split; [by apply (Hw [])|]. intros ks. rewrite (proj2 (Hw ks)). cbn [snd].
    assert (node_known kp rs) as Hk.
    { destruct (decide (node_known kp rs)) as [|Hn]; [done|]. unfold here in Ed.
      rewrite (routes_at_unknown kp rs Hn) in Ed. by inversion Ed. }
    destruct (bool_decide (ks = kp)) eqn:Ek.
    + apply bool_decide_eq_true_1 in Ek as ->. unfold table_content. rewrite bool_decide_eq_true_2 by done.
      unfold content. by rewrite Hh, Hp, Hal.
    + destruct (bool_decide (ks `prefix_of` kp)) eqn:Epre; [|apply Ha]. rewrite Ha. unfold table_content.
      apply bool_decide_eq_true_1 in Epre. rewrite bool_decide_eq_true_2; [done|].
      destruct Hk as [Hk|Hk]; [left; rewrite Hk in Epre; by apply prefix_nil_inv|right].
      eapply Exists_impl; [exact Hk|]. intros q Hq. by etrans.
  - apply bool_decide_eq_false_1 in Ed.
    assert (assoc_first m (requestHandlers target) = None) as Hs by (by rewrite Hh, assoc_entries).
    unfold add_handler in Hw. rewrite Hs in Hw. split; [by apply (Hw [])|].
    intros ks. rewrite (proj2 (Hw ks)). cbn [snd]. unfold table_content. rewrite routes_at_snoc.
    change (kinds r) with kp. rewrite (bool_decide_ext (kp = ks) (ks = kp)) by naive_solver.
    rewrite (bool_decide_ext _ _ (node_known_snoc ks rs r)). change (kinds r) with kp.
    destruct (bool_decide (ks = kp)) eqn:Ek.
    + apply bool_decide_eq_true_1 in Ek as ->. rewrite bool_decide_eq_true_2 by (by right).
      fold here. unfold content. cbn [requestHandlers patternParts allowedMethods].
      rewrite last_snoc. unfold entries in *. rewrite !map_app, Hh. cbn [map r_method r_handler r r_parts].
      by rewrite allowed_of_snoc, Hal by done.
    + rewrite app_nil_r. destruct (bool_decide (ks `prefix_of` kp)) eqn:Epre.
      * apply bool_decide_eq_true_1 in Epre. rewrite bool_decide_eq_true_2 by (by right). rewrite Ha.
        unfold table_content. destruct (bool_decide (node_known ks rs)) eqn:Ekn; [done|].
        apply bool_decide_eq_false_1 in Ekn. by rewrite (routes_at_unknown ks rs Ekn).
      * rewrite Ha. unfold table_content. apply bool_decide_eq_false_1 in Epre.
        rewrite (bool_decide_ext (node_known ks rs \/ ks `prefix_of` kp) (node_known ks rs)) by naive_solver.
        done.
Qed.

Lemma registered_agrees {H MW} (rs : list (route H)) (r : Router H MW) :
  registered rs r ->
  agrees rs (pathTreeRoot_ r) /\ Forall (fun q => r_method q <> []) rs /\
  registeredMethods_ r = list_to_set (map r_method rs).
Proof.
  induction 1 as [|rs r mw _ IH|rs r pat m h r' _ (Ha & Hms & Hreg) Hm Hadd|rs r pat m h e r' _ (Ha & Hms & Hreg) Hm Hadd].
  - split_and!; [|constructor|done]. intros ks. cbn [pathTreeRoot_ Router_new].
    rewrite content_at_empty. unfold table_content.
    rewrite (bool_decide_ext (node_known ks []) (ks = [])); [by destruct ks|].
    unfold node_known. rewrite Exists_nil. naive_solver.
  - done.
  - unfold addRoute in Hadd. cbv zeta in Hadd.
    destruct (validatePattern _ _) as [[]| |]; [|done|done].
    pose proof (agrees_step rs (pathTreeRoot_ r) (normalizePath pat) m (split (normalizePath pat) "/") h Ha Hm Hms) as Hs.
    cbv zeta in Hs. destruct (walk _ _ _) as [res root']. injection Hadd as -> <-.
    destruct (bool_decide _); [by destruct Hs|]. destruct Hs as [_ Ha']. split_and!; [done| |].
    + apply Forall_app. split; [done|]. by repeat constructor.
    + cbn [registeredMethods_]. rewrite map_app, list_to_set_app_L, Hreg. cbn. set_solver.
  - unfold addRoute in Hadd. cbv zeta in Hadd.
    destruct (validatePattern _ _) as [[]|e'|]; [|by injection Hadd as _ <-|done].
    pose proof (agrees_step rs (pathTreeRoot_ r) (normalizePath pat) m (split (normalizePath pat) "/") h Ha Hm Hms) as Hs.
    cbv zeta in Hs. destruct (walk _ _ _) as [res root']. injection Hadd as -> <-.
    destruct (bool_decide _); [|by destruct Hs]. destruct Hs as [_ Ha']. done.
Qed.

(** ** Path parameters *)
Fixpoint params_ref (pattern path : list bytes) : fields :=
  match pattern, path with
  | part :: pattern', p :: path' =>
      match kind_of part with
      | KDeep => [("**" : bytes, join_with SLASH path)]
      | KWild => ("*" : bytes, p) :: params_ref pattern' path'
      | KParam => (param_name part, percentDecode p) :: params_ref pattern' path'
      | KLit _ => params_ref pattern' path'
      end
  | _, _ => []
  end.

Lemma captured_join l : captured l = join_with SLASH l.
Proof.
  unfold captured. destruct l as [|x l]; [done|].
  assert (concat (map (fun p => p ++ [SLASH]) (x :: l)) = join_with SLASH (x :: l) ++ [SLASH]) as ->.
  { revert x. induction l as [|y l IH]; intros x; [cbn; by rewrite app_nil_r|].
    cbn [map concat] in *. rewrite (IH y).
    change (join_with SLASH (x :: y :: l)) with (x ++ SLASH :: join_with SLASH (y :: l)).
    by rewrite <- !app_assoc. }
  destruct (join_with SLASH (x :: l) ++ [SLASH]) as [|c s] eqn:E; [by destruct (join_with SLASH (x :: l))|].
  rewrite <- E, length_app. cbn [length]. rewrite Nat.add_sub. apply take_app_length.
Qed.

Lemma stars_not_param part : part = "**" \/ part = "*" -> starts_with "<" part && ends_with ">" part = false.
Proof. by intros [-> | ->]. Qed.

Lemma params_loop_spec pre pattern path acc :
  matches (map kind_of pattern) path ->
  params_loop (length pre) pattern (pre ++ path) acc = Ret (acc ++ params_ref pattern path).
Proof.
  revert pre path acc. induction pattern as [|part pattern IH]; intros pre path acc Hm.
  { cbn. by rewrite app_nil_r. }
  assert (forall p path' f, part_at (pre ++ p :: path') (length pre) ≫= f = (f p : outcome fields)) as Hat.
  { intros p path' f. unfold part_at. by rewrite list_lookup_middle. }
  assert (forall p path' acc, matches (map kind_of pattern) path' ->
            params_loop (S (length pre)) pattern (pre ++ p :: path') acc = Ret (acc ++ params_ref pattern path')) as IH'.
  { intros p path' acc' Hm'. specialize (IH (pre ++ [p]) path' acc' Hm').
    by rewrite length_app, Nat.add_1_r, <- app_assoc in IH. }
  cbn [params_loop map] in *. destruct path as [|p path]; [by inversion Hm|]. cbn [params_ref].
  destruct (beqb_spec part "**") as [->|Hd].
  { change (kind_of "**") with KDeep in *. by rewrite drop_app_length, captured_join. }
  destruct (beqb_spec part "*") as [->|Hw].
  { change (kind_of "*") with KWild in *. rewrite Hat, IH' by (by inversion Hm). by rewrite <- app_assoc. }
  unfold kind_of in *. destruct (starts_with "<" part && ends_with ">" part) eqn:Ep.
  { rewrite Hat, IH' by (by inversion Hm). by rewrite <- app_assoc. }
  rewrite (proj2 (beqb_neq part "**") Hd), (proj2 (beqb_neq part "*") Hw) in *.
  apply IH'. by inversion Hm.
Qed.

Lemma getPathParams_spec pattern path :
  matches (map kind_of pattern) path -> getPathParams pattern path = Ret (params_ref pattern path).
Proof. apply (params_loop_spec []). Qed.

(** ** Resolution *)
Lemma table_content_some {H} (rs : list (route H)) ks c :
  table_content rs ks = Some c ->
  node_known ks rs /\ c = (entries (routes_at ks rs),
    match last (routes_at ks rs) with Some r => r_parts r | None => [] end,
    allowed_of (map r_method (routes_at ks rs))).
Proof. unfold table_content. case_bool_decide; [|done]. by intros [= <-]. Qed.

Lemma node_known_at {H} (rs : list (route H)) root ks :
  agrees rs root -> node_known ks rs <-> is_Some (node_at ks root).
Proof.
  intros Ha. specialize (Ha ks). unfold content_at, table_content in Ha.
  destruct (node_at ks root) as [n|], (bool_decide (node_known ks rs)) eqn:E; try done;
    rewrite ?bool_decide_eq_true, ?bool_decide_eq_false in E; split; intros H0; try done; try by destruct H0.
Qed.

Lemma last_routes_at {H} (rs : list (route H)) ks r :
  last (routes_at ks rs) = Some r -> kinds r = ks.
Proof.
  intros Hl. apply last_Some_elem_of in Hl. by apply list_elem_of_filter in Hl as [Hk _].
Qed.

(** The node found, as the table sees it. *)
Lemma find_entry {H MW} (rs : list (route H)) (r : Router H MW) path n :
  registered rs r -> findMatchingRouteEntry r path = Some n ->
  exists ks, matches ks path /\ routes_at ks rs <> [] /\
    content n = (entries (routes_at ks rs), match last (routes_at ks rs) with Some q => r_parts q | None => [] end,
                 allowed_of (map r_method (routes_at ks rs))) /\
    (forall ks', matches ks' path -> node_known ks' rs -> preferred ks ks').
Proof.
  intros Hr Hf. destruct (registered_agrees rs r Hr) as (Ha & _).
  unfold findMatchingRouteEntry in Hf. pose proof (backtrack_found (pathTreeRoot_ r) path) as Hb.
  destruct (backtrack (pathTreeRoot_ r) path) as [n'|]; [|done]. destruct Hb as (ks & Hm & Hat & Hbest).
  assert (content_at ks (pathTreeRoot_ r) = Some (content n')) as Hc by (unfold content_at; by rewrite Hat).
  rewrite Ha in Hc. apply table_content_some in Hc as [_ Hc]. unfold content in Hc. pose proof Hc as Hc'.
  injection Hc as Hh _ _. destruct (requestHandlers n') eqn:Ehs; [done|]. injection Hf as <-.
  exists ks. split_and!; [done| | |].
  - intros E. by rewrite E in Hh.
  - unfold content. by rewrite Ehs.
  - intros ks' Hm' Hk'. apply Hbest; [done|]. by apply (node_known_at rs).
Qed.

Lemma find_none {H MW} (rs : list (route H)) (r : Router H MW) path :
  registered rs r -> findMatchingRouteEntry r path = None ->
  (forall ks, matches ks path -> ~ node_known ks rs) \/
  exists ks, matches ks path /\ node_known ks rs /\ routes_at ks rs = [] /\
    (forall ks', matches ks' path -> node_known ks' rs -> preferred ks ks').
Proof.
  intros Hr Hf. destruct (registered_agrees rs r Hr) as (Ha & _).
  unfold findMatchingRouteEntry in Hf. pose proof (backtrack_found (pathTreeRoot_ r) path) as Hb.
  destruct (backtrack (pathTreeRoot_ r) path) as [n|]; cbn [found] in Hb.
  - right. destruct Hb as (ks & Hm & Hat & Hbest).
    assert (content_at ks (pathTreeRoot_ r) = Some (content n)) as Hc by (unfold content_at; by rewrite Hat).
    rewrite Ha in Hc. apply table_content_some in Hc as [Hk Hc]. unfold content in Hc. injection Hc as Hh _ _.
    exists ks. split_and!; [done|done| |].
    + rewrite Hh in Hf. by destruct (routes_at ks rs).
    + intros ks' Hm' Hk'. apply Hbest; [done|]. by apply (node_known_at rs).
  - left. intros ks Hm Hk. apply (node_known_at rs _ _ Ha) in Hk as [n Hn]. rewrite Hb in Hn; done.
Qed.

Lemma find_params {H MW} (rs : list (route H)) (r : Router H MW) path n :
  registered rs r -> findMatchingRouteEntry r path = Some n ->
  getPathParams (patternParts n) path = Ret (params_ref (patternParts n) path).
Proof.
  intros Hr Hf. apply getPathParams_spec. destruct (find_entry rs r path n Hr Hf) as (ks & Hm & Hne & Hc & _).
  unfold content in Hc. injection Hc as _ Hp _. rewrite Hp.
  destruct (last (routes_at ks rs)) as [q|] eqn:El; [|by apply last_None in El].
  apply last_routes_at in El. unfold kinds in El. by rewrite El.
Qed.

Module RouterProps.
(** after any history of registrations the trie holds exactly the routing
    table: for every list of kinds, a node exists when some pattern starts with
    it, and it stores the handlers registered under patterns of these kinds in
    order, the pattern of the last of them and the Allow list of their methods;
    a further valid registration is refused exactly when it is a duplicate. *)
Theorem registration_refines {H MW} (rs : list (route H)) (r : Router H MW) :
  registered rs r ->
  (forall ks, content_at ks (pathTreeRoot_ r) = table_content rs ks) /\
  registeredMethods_ r = list_to_set (map r_method rs) /\
  forall pat m h, m <> [] -> is_ret (validatePattern (normalizePath pat) (split (normalizePath pat) "/")) = true ->
    let q := mkRoute (split (normalizePath pat) "/") m h in
    (addRoute pat m h r).1 =
      if bool_decide (m ∈ map r_method (routes_at (kinds q) rs))
      then Throw (InvalidArgument ("Duplicate route: " ++ normalizePath pat)) else Ret tt.
Proof.
  intros Hr. destruct (registered_agrees rs r Hr) as (Ha & Hms & Hreg). split_and!; [done|done|].
  intros pat m h Hm Hv q. unfold addRoute. cbv zeta.
  destruct (validatePattern _ _) as [[]| |]; [|done|done].
  pose proof (agrees_step rs (pathTreeRoot_ r) (normalizePath pat) m (split (normalizePath pat) "/") h Ha Hm Hms) as Hs.
  cbv zeta in Hs. fold q in Hs. destruct (walk _ _ _) as [res root'].
  destruct (bool_decide _); by destruct Hs.
Qed.

(** C4: resolution by the table: the node found is the preferred one (literals
    before parameters before wildcards before deep wildcards, leftmost first)
    among the prefixes of patterns that match the path, and it holds routes; when
    none is found, no pattern prefix matches, or the preferred one is no route,
    even if a less preferred pattern is one. *)
Theorem resolution {H MW} (rs : list (route H)) (r : Router H MW) path :
  registered rs r ->
  match findMatchingRouteEntry r path with
  | Some n => exists ks, matches ks path /\ routes_at ks rs <> [] /\
      content n = (entries (routes_at ks rs), match last (routes_at ks rs) with Some q => r_parts q | None => [] end,
                   allowed_of (map r_method (routes_at ks rs))) /\
      (forall ks', matches ks' path -> node_known ks' rs -> preferred ks ks')
  | None => (forall ks, matches ks path -> ~ node_known ks rs) \/
      exists ks, matches ks path /\ node_known ks rs /\ routes_at ks rs = [] /\
        (forall ks', matches ks' path -> node_known ks' rs -> preferred ks ks')
  end.
Proof.
  intros Hr. destruct (findMatchingRouteEntry r path) as [n|] eqn:E.
  - by apply (find_entry rs r).
  - by apply (find_none rs r).
Qed.

(** the path parameters of the node found are always defined (no path
    segment is read out of range) and are, part by part, the decoded segments
    under the names of the pattern last registered there. *)
Theorem path_params {H MW} (rs : list (route H)) (r : Router H MW) path n :
  registered rs r -> findMatchingRouteEntry r path = Some n ->
  getPathParams (patternParts n) path = Ret (params_ref (patternParts n) path).
Proof. apply find_params. Qed.

(** a literal prefix that is no route of its own hides a matching parameter
    route: with GET a/b/c and GET a/<x> registered, the path a/b is not found. *)
Theorem literal_shadows {H MW} (h1 h2 : H) (r : Router H MW) :
  registered [mkRoute (literals ["a"; "b"; "c"]) "GET" h1; mkRoute (literals ["a"; "<x>"]) "GET" h2] r ->
  matches (map kind_of (literals ["a"; "<x>"])) (literals ["a"; "b"]) /\
  findMatchingRouteEntry r (literals ["a"; "b"]) = None.
Proof.
  set (rs := [_; _]). intros Hr. split; [repeat constructor|].
  destruct (registered_agrees rs r Hr) as (Ha & _). unfold findMatchingRouteEntry.
  pose proof (backtrack_found (pathTreeRoot_ r) (literals ["a"; "b"])) as Hb.
  destruct (backtrack _ _) as [n|]; [|done]. destruct Hb as (ks & Hm & Hat & Hbest).
  assert (preferred ks [KLit "a"; KLit "b"]) as Hpref.
  { apply Hbest; [repeat constructor|]. apply (node_known_at rs _ _ Ha). right. left.
    by exists [KLit "c"]. }
  assert (ks = [KLit "a"; KLit "b"]) as ->.
  { inversion Hm as [|s ks1 ps Hm1|p ks1 ps Hm1|p ks1 ps Hm1|]; subst;
      inversion Hpref; subst; simpl in *; try lia.
    inversion Hm1 as [|s ks2 ps Hm2|p ks2 ps Hm2|p ks2 ps Hm2|]; subst;
      match goal with H : preferred (_ :: _) [_] |- _ => inversion H; subst; simpl in *; try lia end.
    by inversion Hm2. }
  assert (content_at [KLit "a"; KLit "b"] (pathTreeRoot_ r) = Some (content n)) as Hc by (unfold content_at; by rewrite Hat).
  rewrite Ha in Hc. apply table_content_some in Hc as [_ Hc]. unfold content in Hc. injection Hc as Hh _ _.
  by rewrite Hh.
Qed.
End RouterProps.

(** ** Dispatch *)
Section DispatchLemmas.
Context {S F : Type} {HR : HasRequest S}.
Context (build : HttpRequest.HttpRequest -> Z -> bytes -> outcome HttpResponse.HttpResponse)
        (iterate : gset bytes -> list bytes).
#[local] Abbreviation Handler := (Handler S F).
#[local] Abbreviation Middleware := (Middleware S F).

(** The request as the handler of [n] sees it. *)
Definition routed (n : RouteNode Handler) (ps : fields) (s : S) : S :=
  put_request (HttpRequest.setPathParams ps
    (HttpRequest.setAttribute "allowedMethods" (allowedMethods n) (get_request s))) s.

(** A request that reaches the routes: neither TRACE nor CONNECT nor OPTIONS *. *)
Definition routable (q : HttpRequest.HttpRequest) : Prop :=
  HttpRequest.method_ q <> "TRACE" /\ HttpRequest.method_ q <> "CONNECT" /\
  ~ (HttpRequest.method_ q = "OPTIONS" /\ HttpRequest.path_ q = "*").

Lemma dispatch_routable (r : Router Handler Middleware) s :
  routable (get_request s) ->
  let node := findMatchingRouteEntry r (HttpRequest.pathParts_ (get_request s)) in
  dispatch build iterate r s =
  run_from (middlewares_ r) (terminal build node)
    (match node with
     | Some n => put_request (HttpRequest.setAttribute "allowedMethods" (allowedMethods n) (get_request s)) s
     | None => s
     end).
Proof.
  intros (Ht & Hc & Ho) node. unfold dispatch, current_method, gets, mbind, M_bind. cbv beta iota.
  rewrite (proj2 (beqb_neq _ _) Ht), (proj2 (beqb_neq _ _) Hc). cbn [orb].
  assert ((HttpRequest.method_ (get_request s) =?b "OPTIONS") && (HttpRequest.path_ (get_request s) =?b "*") = false) as ->.
  { apply andb_false_iff. destruct (beqb_spec (HttpRequest.method_ (get_request s)) "OPTIONS"); [right|by left].
    apply beqb_neq. naive_solver. }
  fold node. unfold runChain. rewrite drop_0. by destruct node.
Qed.

Lemma terminal_node n ps s :
  let s1 := put_request (HttpRequest.setAttribute "allowedMethods" (allowedMethods n) (get_request s)) s in
  let m := HttpRequest.method_ (get_request s) in
  getPathParams (patternParts n) (HttpRequest.pathParts_ (get_request s)) = Ret ps ->
  terminal build (Some n) s1 =
  match assoc_first (lookup_method m) (requestHandlers n) with
  | Some handler =>
      (response ← handler; m ← current_method;
       if m =?b "HEAD" then lift (strip_for_head response) else mret response) (routed n ps s)
  | None =>
      if m =?b "OPTIONS" then
        (Ret (Plain (HttpResponse.with_headers (HeaderStore.setHeaderLower "allow" (allowedMethods n))
                       (HttpResponse.HttpResponse_code 204))), routed n ps s)
      else
        ((fun x => Plain (HttpResponse.with_headers (HeaderStore.setHeaderLower "allow" (allowedMethods n))
                            (if m =?b "HEAD" then HttpResponse.stripBody x else x)))
           <$> build (get_request (routed n ps s)) 405 [], routed n ps s)
  end.
Proof.
  intros s1 m Hps. subst s1.
  unfold terminal, current_method, build_error, modify_request, modify, gets, lift, mbind, M_bind. cbv beta iota.
  rewrite get_put. cbn [HttpRequest.pathParts_ HttpRequest.setAttribute HttpRequest.with_attributes].
  rewrite Hps, put_put. fold (routed n ps s).
  assert (HttpRequest.method_ (get_request (routed n ps s)) = m) as -> by (unfold routed; by rewrite get_put).
  destruct (assoc_first (lookup_method m) (requestHandlers n)); [done|].
  destruct (m =?b "OPTIONS"); [done|]. by destruct (build (get_request (routed n ps s)) 405 []).
Qed.
End DispatchLemmas.

Section DispatchProps.
Context {S F : Type} {HR : HasRequest S}.
Context (build : HttpRequest.HttpRequest -> Z -> bytes -> outcome HttpResponse.HttpResponse)
        (iterate : gset bytes -> list bytes).
#[local] Abbreviation Handler := (Handler S F).
#[local] Abbreviation Middleware := (Middleware S F).


(** the answer to a HEAD request carries no body: whatever the handlers
    return, as long as they leave the request's method alone, dispatch gives a
    plain response with an empty body, or throws (always so for a file). *)
Theorem head_has_no_body (rs : list (route Handler)) (r : Router Handler Middleware) s resp s' :
  registered rs r -> middlewares_ r = [] ->
  HttpRequest.method_ (get_request s) = "HEAD" ->
  (forall q h x s1 s2, q ∈ rs -> r_handler q = h -> h s1 = (Ret x, s2) ->
     HttpRequest.method_ (get_request s2) = HttpRequest.method_ (get_request s1)) ->
  dispatch build iterate r s = (Ret resp, s') ->
  exists p, resp = Plain p /\ HttpResponse.body_ p = [].
Proof.
  intros Hr Hmw Hm Hkeep. rewrite dispatch_routable, Hmw by (unfold routable; rewrite Hm; split_and!; [done|done|by intros []]).
  cbn [run_from]. destruct (findMatchingRouteEntry r _) as [n|] eqn:Ef.
  - assert (getPathParams (patternParts n) (HttpRequest.pathParts_ (get_request s))
      = Ret (params_ref (patternParts n) (HttpRequest.pathParts_ (get_request s)))) as Hps by (by eapply find_params).
    rewrite (terminal_node build n _ s Hps), Hm. set (s1 := routed n _ s). cbv zeta.
    destruct (assoc_first (lookup_method "HEAD") (requestHandlers n)) as [h|] eqn:Eh.
    + intros (x & s2 & Hx & H)%mbind_inv. apply mbind_inv in H as (m & s3 & H1 & H2).
      unfold current_method, gets in H1. injection H1 as <- <-.
      assert (HttpRequest.method_ (get_request s2) = "HEAD") as Hm2.
      { destruct (find_entry rs r _ n Hr Ef) as (ks & _ & _ & Hc & _). injection Hc as Hh _ _.
        apply assoc_first_elem in Eh. rewrite Hh in Eh. unfold entries in Eh.
        apply list_elem_of_fmap in Eh as (q & [= _ ->] & Hq). apply list_elem_of_filter in Hq as [_ Hq].
        rewrite (Hkeep q _ x s1 s2 Hq eq_refl Hx). unfold s1, routed. by rewrite get_put. }
      rewrite Hm2 in H2. cbn in H2. unfold lift in H2. injection H2 as H2 _.
      destruct x as [p|st|f]; cbn [strip_for_head] in H2; [| |done]; injection H2 as <-; by eexists.
    + cbn. destruct (build _ _ _) as [x| |]; [|done|done]. cbn. intros [= <- _]. by eexists.
  - unfold terminal, build_error, current_method, gets, lift, mbind, M_bind. cbv beta iota. rewrite Hm.
    destruct (build (get_request s) 404 []) as [x| |]; [|done|done]. intros [= <- _]. by eexists.
Qed.
End DispatchProps.

Module RouterWitnesses.
Lemma reg_add_fst {H MW} rs (r : Router H MW) pat m h :
  registered rs r -> m <> [] -> (addRoute pat m h r).1 = Ret tt ->
  registered (rs ++ [mkRoute (split (normalizePath pat) "/") m h]) (addRoute pat m h r).2.
Proof. intros Hr Hm H1. eapply reg_add; [exact Hr|done|]. rewrite <- H1. by destruct (addRoute pat m h r). Qed.

Definition shadow {H} (h1 h2 : H) : Router H unit := (get "/a/<x>" h2 (get "/a/b/c" h1 Router_new).2).2.

Lemma shadow_registered {H} (h1 h2 : H) :
  registered [mkRoute (literals ["a"; "b"; "c"]) "GET" h1; mkRoute (literals ["a"; "<x>"]) "GET" h2] (shadow h1 h2).
Proof.
  apply (reg_add_fst [mkRoute (literals ["a"; "b"; "c"]) "GET" h1] _ "/a/<x>" "GET" h2); [|done|reflexivity].
  apply (reg_add_fst [] _ "/a/b/c" "GET" h1); [constructor|done|reflexivity].
Qed.

Lemma registration_refines_witness :
  content_at [KLit "a"; KParam] (pathTreeRoot_ (shadow 1 2))
  = Some ([("GET" : bytes, 2)], literals ["a"; "<x>"], "GET, OPTIONS, HEAD" : bytes).
Proof. rewrite (proj1 (RouterProps.registration_refines _ _ (shadow_registered 1 2))). reflexivity. Defined.

Lemma resolution_witness :
  exists n, findMatchingRouteEntry (shadow 1 2) (literals ["a"; "z"]) = Some n /\
  exists ks, matches ks (literals ["a"; "z"]) /\
    routes_at ks [mkRoute (literals ["a"; "b"; "c"]) "GET" 1; mkRoute (literals ["a"; "<x>"]) "GET" 2] <> [].
Proof.
  pose proof (RouterProps.resolution _ _ (literals ["a"; "z"]) (shadow_registered 1 2)) as H.
  destruct (findMatchingRouteEntry (shadow 1 2) (literals ["a"; "z"])) as [n|] eqn:E.
  - exists n. split; [done|]. destruct H as (ks & H1 & H2 & _). by exists ks.
  - vm_compute in E. discriminate.
Defined.

Lemma path_params_witness :
  exists n, findMatchingRouteEntry (shadow 1 2) (literals ["a"; "x%20y"]) = Some n /\
  getPathParams (patternParts n) (literals ["a"; "x%20y"]) = Ret [("x" : bytes, "x y" : bytes)].
Proof.
  destruct (findMatchingRouteEntry (shadow 1 2) (literals ["a"; "x%20y"])) as [n|] eqn:E; [|vm_compute in E; discriminate].
  exists n. split; [done|]. rewrite (RouterProps.path_params _ _ _ n (shadow_registered 1 2) E).
  vm_compute in E. injection E as <-. reflexivity.
Defined.

Lemma literal_shadows_witness :
  findMatchingRouteEntry (shadow 1 2) (literals ["a"; "b"]) = None.
Proof. exact (proj2 (RouterProps.literal_shadows 1 2 _ (shadow_registered 1 2))). Defined.

(** A router whose handlers answer 200 with a body. *)
Definition hello : Handler HttpRequest.HttpRequest unit :=
  mret (Plain (HttpResponse.HttpResponse_body 200 "hello")).

Definition site : Router (Handler HttpRequest.HttpRequest unit) (Middleware HttpRequest.HttpRequest unit) :=
  (get "/hello" hello Router_new).2.

Lemma site_registered : registered [mkRoute (literals ["hello"]) "GET" hello] site.
Proof. apply (reg_add_fst [] _ "/hello" "GET" hello); [constructor|done|reflexivity]. Qed.

Definition sample_build (_ : HttpRequest.HttpRequest) (code : Z) (_ : bytes) : outcome HttpResponse.HttpResponse :=
  Ret (HttpResponse.HttpResponse_code code).

Definition request (m p : bytes) : HttpRequest.HttpRequest :=
  HttpRequest.parsePathAndQueryParams p (HttpRequest.setMethod m (HttpRequest.fresh [] 0)).


Lemma head_has_no_body_witness :
  exists p, fst (dispatch sample_build (fun _ => []) site (request "HEAD" "/hello")) = Ret (Plain p) /\ HttpResponse.body_ p = [].
Proof.
  destruct (dispatch sample_build (fun _ => []) site (request "HEAD" "/hello")) as [[resp| |] s'] eqn:E;
    try (vm_compute in E; discriminate).
  destruct (head_has_no_body sample_build (fun _ => []) _ site (request "HEAD" "/hello") resp s' site_registered) as (p & -> & Hb).
  - reflexivity.
  - reflexivity.
  - intros q h x s1 s2 Hq <- Hx. apply list_elem_of_singleton in Hq as ->. by injection Hx as _ <-.
  - exact E.
  - by exists p.
Defined.
End RouterWitnesses.
