(* ===== verification/Net.v ===== *)
(** Streams ([StreamResults.hpp], [TcpStream.hpp/.cpp]): what a connection needs
    of its transport is an interface, [Net], whose laws say that bytes are neither
    lost nor invented; [TcpStream] over a scripted socket implements it. *)
From S2P Require Import Prelude Bytes.

Inductive HandshakeResult := DONE | WANT_READ | WANT_WRITE | HS_ERROR | NO_TLS.

Inductive Status := DATA | CLOSED | WOULD_BLOCK | ERROR.

(** [receive] fills at most the given number of bytes: the bytes stand for the
    part of the span that was written. *)
Record ReceiveResult := { status : Status; data : bytes }.

(** The transport and the executor as a connection sees them: [receive], [send],
    and [suspend], after which [tl_timed_out] (the executor's [core::tl_timed_out])
    tells whether the coroutine was resumed by its deadline: it keeps that value
    until the coroutine suspends again.  [incoming] are the bytes the peer has sent
    or will send that were not received yet, [sent] the bytes handed to the peer.
    [budget] bounds what the transport can still do: receiving uses some of it up,
    and so does a suspension that is not ended by its deadline. *)
Class Net (K : Type) := {
  receive : nat -> K -> ReceiveResult * K;
  send : bytes -> K -> Z * K;
  suspend : K -> K;
  tl_timed_out : K -> bool;
  handshake : K -> HandshakeResult * K;
  incoming : K -> bytes;
  sent : K -> bytes;
  budget : K -> nat;
  receive_law n k : 0 < n ->
    let '(r, k') := receive n k in
    sent k' = sent k /\ tl_timed_out k' = tl_timed_out k /\
    match status r with
    | DATA => data r <> [] /\ length (data r) <= n /\ incoming k = data r ++ incoming k' /\
              budget k' + length (data r) <= budget k
    | _ => data r = [] /\ incoming k' = incoming k /\ budget k' <= budget k
    end;
  send_law d k :
    let '(n, k') := send d k in
    (n <= Z.of_nat (length d))%Z /\ incoming k' = incoming k /\ tl_timed_out k' = tl_timed_out k /\
    sent k' = sent k ++ take (Z.to_nat n) d /\ budget k' = budget k;
  suspend_law k : incoming (suspend k) = incoming k /\ sent (suspend k) = sent k /\ budget (suspend k) <= budget k /\
    (tl_timed_out (suspend k) = true \/ budget (suspend k) < budget k);
  handshake_law k :
    let '(_, k') := handshake k in
    incoming k' = incoming k /\ sent k' = sent k /\ budget k' <= budget k;
}.

(** A transport whose wake-ups are never spurious: after a suspension that was not
    ended by the deadline there is something to receive. *)
Class PromptNet (K : Type) `{!Net K} := {
  prompt_law n k : 0 < n -> tl_timed_out (suspend k) = false ->
    status (receive n (suspend k)).1 <> WOULD_BLOCK;
}.

(** ** A socket with a script *)

(** What [recv] meets: bytes in the kernel's buffer, nothing yet, or an error. *)
Inductive recv_event := Arrived (b : bytes) | NothingYet | ConnReset | RecvError.
(** What [send] meets: room for some bytes, none, or an error. *)
Inductive send_event := Room (n : nat) | NoRoom | SendError.

Record Kernel := {
  recv_script : list recv_event;   (** exhausted: the peer has closed *)
  send_script : list send_event;   (** exhausted: everything fits *)
  timeouts : list bool;            (** one per suspension; exhausted: timed out *)
  outbox : bytes;
  flag : bool;
}.

Definition with_recv (l : list recv_event) (k : Kernel) : Kernel :=
  {| recv_script := l; send_script := send_script k; timeouts := timeouts k; outbox := outbox k; flag := flag k |}.

(** [TcpStream::receive] *)
Definition tcp_receive (n : nat) (k : Kernel) : ReceiveResult * Kernel :=
  match recv_script k with
  | [] => ({| status := CLOSED; data := [] |}, k)
  | Arrived [] :: rest => ({| status := WOULD_BLOCK; data := [] |}, with_recv rest k)
  | Arrived b :: rest =>
      ({| status := if bool_decide (n = 0) then CLOSED else DATA; data := take n b |},
       with_recv (match drop n b with [] => rest | b' => Arrived b' :: rest end) k)
  | NothingYet :: rest => ({| status := WOULD_BLOCK; data := [] |}, with_recv rest k)
  | ConnReset :: _ => ({| status := CLOSED; data := [] |}, k)
  | RecvError :: rest => ({| status := ERROR; data := [] |}, with_recv rest k)
  end.

(** [TcpStream::send]: 0 when the socket would block, negative on an error. *)
Definition tcp_send (d : bytes) (k : Kernel) : Z * Kernel :=
  match send_script k with
  | [] => (Z.of_nat (length d),
           {| recv_script := recv_script k; send_script := []; timeouts := timeouts k; outbox := outbox k ++ d; flag := flag k |})
  | Room n :: rest =>
      (Z.of_nat (length (take n d)),
       {| recv_script := recv_script k; send_script := rest; timeouts := timeouts k; outbox := outbox k ++ take n d; flag := flag k |})
  | NoRoom :: rest =>
      (0%Z, {| recv_script := recv_script k; send_script := rest; timeouts := timeouts k; outbox := outbox k; flag := flag k |})
  | SendError :: rest =>
      ((-1)%Z, {| recv_script := recv_script k; send_script := rest; timeouts := timeouts k; outbox := outbox k; flag := flag k |})
  end.

(** A suspended coroutine is resumed by an event or by its deadline. *)
Definition tcp_suspend (k : Kernel) : Kernel :=
  match timeouts k with
  | [] => {| recv_script := recv_script k; send_script := send_script k; timeouts := []; outbox := outbox k; flag := true |}
  | b :: rest =>
      {| recv_script := recv_script k; send_script := send_script k; timeouts := rest; outbox := outbox k; flag := b |}
  end.

(** [TcpStream::handshake] *)
Definition tcp_handshake (k : Kernel) : HandshakeResult * Kernel := (NO_TLS, k).

(** The bytes of the script that can still be received. *)
Fixpoint arriving (l : list recv_event) : bytes :=
  match l with
  | [] => []
  | Arrived b :: rest => b ++ arriving rest
  | ConnReset :: _ => []
  | _ :: rest => arriving rest
  end.

Definition event_budget (e : recv_event) : nat := match e with Arrived b => S (length b) | _ => 1 end.

Definition script_budget (l : list recv_event) : nat := sum_list_with event_budget l.

#[export, refine] Instance tcp_net : Net Kernel := {|
  receive := tcp_receive;
  send := tcp_send;
  suspend := tcp_suspend;
  tl_timed_out := flag;
  handshake := tcp_handshake;
  incoming k := arriving (recv_script k);
  sent := outbox;
  budget k := script_budget (recv_script k) + length (timeouts k);
|}.
Proof.
  - intros n k Hn. unfold tcp_receive. destruct (recv_script k) as [|[[|c b]| | |] rest] eqn:E;
      cbn [status data with_recv recv_script outbox arriving timeouts]; rewrite ?E; unfold script_budget; cbn [sum_list_with event_budget]; try (split_and!; (done || lia)).
    rewrite bool_decide_eq_false_2 by lia. split; [done|]. split; [done|]. cbn [status].
    split; [by destruct n; [lia|]|]. split; [rewrite length_take; lia|].
    split.
    + rewrite <- (take_drop n (c :: b)) at 1. rewrite <- app_assoc. f_equal. destruct (drop n (c :: b)); done.
    + assert (length (c :: b) = length (take n (c :: b)) + length (drop n (c :: b))) as -> by
        (rewrite length_take, length_drop; lia).
      destruct (drop n (c :: b)); cbn [sum_list_with event_budget length]; lia.
  - intros d k. unfold tcp_send. destruct (send_script k) as [|[n| |] rest]; cbn; rewrite ?app_nil_r.
    + rewrite Nat2Z.id, firstn_all. split_and!; (done || lia).
    + rewrite Nat2Z.id, length_take. split_and!; [lia|done|done| |done]. f_equal.
      destruct (Nat.le_gt_cases n (length d)); [by rewrite Nat.min_l|].
      rewrite Nat.min_r, (take_ge d n), firstn_all by lia. done.
    + split_and!; [lia|done..].
    + split_and!; [lia|done..].
  - intros k. unfold tcp_suspend. destruct (timeouts k) eqn:E; cbn [recv_script timeouts outbox flag length];
      split_and!; try done; try lia; by left.
  - intros k. cbn. split_and!; (done || lia).
Defined.

(** ** A peer that sends its bytes in segments *)
Record Peer := {
  arrived : bytes;                     (** in the kernel's buffer *)
  later : list (ascii * bytes);        (** segments still to come, none empty *)
  out : bytes;
  late : bool;
}.

Definition segment (s : ascii * bytes) : bytes := s.1 :: s.2.

Definition peer_receive (n : nat) (k : Peer) : ReceiveResult * Peer :=
  match arrived k with
  | [] => ({| status := match later k with [] => CLOSED | _ => WOULD_BLOCK end; data := [] |}, k)
  | b => ({| status := if bool_decide (n = 0) then CLOSED else DATA; data := take n b |},
          {| arrived := drop n b; later := later k; out := out k; late := late k |})
  end.

Definition peer_send (d : bytes) (k : Peer) : Z * Peer :=
  (Z.of_nat (length d), {| arrived := arrived k; later := later k; out := out k ++ d; late := late k |}).

Definition peer_suspend (k : Peer) : Peer :=
  match later k with
  | [] => {| arrived := arrived k; later := []; out := out k; late := true |}
  | s :: rest => {| arrived := arrived k ++ segment s; later := rest; out := out k; late := false |}
  end.

#[export, refine] Instance peer_net : Net Peer := {|
  receive := peer_receive;
  send := peer_send;
  suspend := peer_suspend;
  tl_timed_out := late;
  handshake k := (NO_TLS, k);
  incoming k := arrived k ++ concat (segment <$> later k);
  sent := out;
  budget k := length (arrived k) + sum_list_with (fun s => S (length (segment s))) (later k);
|}.
Proof.
  - intros n k Hn. unfold peer_receive. destruct (arrived k) as [|c b] eqn:E.
    + destruct (later k); rewrite ?E; cbn; split_and!; (done || lia).
    + rewrite bool_decide_eq_false_2 by lia. cbn [status data sent out arrived later late]. split_and!; try done.
      * by destruct n; [lia|].
      * rewrite length_take. lia.
      * by rewrite app_assoc, take_drop.
      * rewrite length_drop, length_take. lia.
  - intros d k. cbn. rewrite Nat2Z.id, firstn_all. split_and!; (done || lia).
  - intros k. unfold peer_suspend. destruct (later k) as [|s rest]; cbn [arrived later out late fmap list_fmap concat sum_list_with].
    + split_and!; (done || lia || by left).
    + rewrite length_app, app_assoc. split_and!; (done || lia).
  - intros k. split_and!; (done || lia).
Defined.

#[export] Instance peer_prompt : PromptNet Peer.
Proof.
  constructor. intros n k Hn. cbn [tl_timed_out suspend receive peer_net]. unfold peer_suspend, peer_receive.
  destruct (later k) as [|s rest]; cbn [late]; [done|]. intros _. cbn [arrived].
  destruct (arrived k); cbn [app segment]; rewrite bool_decide_eq_false_2 by lia; done.
Qed.
