(* ===== verification/ConnectionIO.v ===== *)
(** [ConnectionIO.hpp]: the read and write buffers of a connection, with their
    lazily erased prefixes, over a transport. *)
From S2P Require Import Prelude Bytes Net.

Inductive ReadResult :=
| RD_DATA | RD_CLOSED | RD_WOULD_BLOCK | RD_BUFFER_LIMIT_EXCEEDED | RD_ERROR | RD_TIMED_OUT.
#[export] Instance ReadResult_eq_dec : EqDecision ReadResult.
Proof. solve_decision. Defined.

Inductive WriteResult := WR_OK | WR_ERROR | WR_TIMED_OUT.

Record ConnectionIO (K : Type) := {
  stream_ : K;
  readOffset_ : nat;
  writeOffset_ : nat;
  readBuffer_ : bytes;
  writeBuffer_ : bytes;
}.
Arguments stream_ {K}. Arguments readOffset_ {K}. Arguments writeOffset_ {K}.
Arguments readBuffer_ {K}. Arguments writeBuffer_ {K}.

Section IO.
Context {K : Type} {N : Net K}.
#[local] Abbreviation ConnectionIO := (ConnectionIO K).
#[local] Abbreviation Build := (Build_ConnectionIO K).

Definition ConnectionIO_new (stream : K) : ConnectionIO := Build stream 0 0 [] [].

Definition getReadBufferSize (io : ConnectionIO) : nat := length (readBuffer_ io) - readOffset_ io.
Definition getWriteBufferSize (io : ConnectionIO) : nat := length (writeBuffer_ io) - writeOffset_ io.
Definition hasPendingWrites (io : ConnectionIO) : bool := bool_decide (0 < getWriteBufferSize io).

(** The range from [readBufferBegin()] to [readBufferEnd()]. *)
Definition readBuffer (io : ConnectionIO) : bytes := drop (readOffset_ io) (readBuffer_ io).
Definition writeBuffer (io : ConnectionIO) : bytes := drop (writeOffset_ io) (writeBuffer_ io).

Definition enqueue (d : bytes) (io : ConnectionIO) : ConnectionIO :=
  Build (stream_ io) (readOffset_ io) (writeOffset_ io) (readBuffer_ io) (writeBuffer_ io ++ d).

(** The caller serializes into [getWriteBuffer()] directly. *)
Definition setWriteBuffer (b : bytes) (io : ConnectionIO) : ConnectionIO :=
  Build (stream_ io) (readOffset_ io) (writeOffset_ io) (readBuffer_ io) b.

Definition setReadBuffer (b : bytes) (io : ConnectionIO) : ConnectionIO :=
  Build (stream_ io) (readOffset_ io) (writeOffset_ io) b (writeBuffer_ io).

(** Lazy erasure; erasing past the end is undefined. *)
Definition eraseFromReadBuffer (n : nat) (io : ConnectionIO) : outcome ConnectionIO :=
  let offset := readOffset_ io + n in
  if bool_decide (length (readBuffer_ io) / 2 < offset) then
    if bool_decide (offset <= length (readBuffer_ io))
    then Ret (Build (stream_ io) 0 (writeOffset_ io) (drop offset (readBuffer_ io)) (writeBuffer_ io))
    else Undef
  else Ret (Build (stream_ io) offset (writeOffset_ io) (readBuffer_ io) (writeBuffer_ io)).

Definition eraseFromWriteBuffer (n : nat) (io : ConnectionIO) : outcome ConnectionIO :=
  let offset := writeOffset_ io + n in
  if bool_decide (length (writeBuffer_ io) / 2 < offset) then
    if bool_decide (offset <= length (writeBuffer_ io))
    then Ret (Build (stream_ io) (readOffset_ io) 0 (readBuffer_ io) (drop offset (writeBuffer_ io)))
    else Undef
  else Ret (Build (stream_ io) (readOffset_ io) offset (readBuffer_ io) (writeBuffer_ io)).

(** The loop of [drainIntoReadBuffer]: every round that goes on adds a byte. *)
Fixpoint drain_loop (fuel : nat) (targetSize maxBufferSize : Z) (gotData : bool) (io : ConnectionIO) :
    option (ReadResult * ConnectionIO) :=
  match fuel with
  | O => None
  | S fuel' =>
      let currentSize := Z.of_nat (getReadBufferSize io) in
      if (maxBufferSize <=? currentSize)%Z then Some (RD_BUFFER_LIMIT_EXCEEDED, io)
      else if (targetSize <=? currentSize)%Z then Some (RD_DATA, io)
      else
        let spaceToAllow := Z.to_nat (Z.min (maxBufferSize - currentSize) (targetSize - currentSize)) in
        let old := readBuffer_ io in
        let '(result, stream) := receive spaceToAllow (stream_ io) in
        let io := Build stream (readOffset_ io) (writeOffset_ io) old (writeBuffer_ io) in
        match status result with
        | DATA => drain_loop fuel' targetSize maxBufferSize true (setReadBuffer (old ++ data result) io)
        | WOULD_BLOCK => Some (if gotData then RD_DATA else RD_WOULD_BLOCK, io)
        | CLOSED => Some (RD_CLOSED, setReadBuffer (old ++ replicate spaceToAllow NUL) io)
        | ERROR => Some (RD_ERROR, setReadBuffer (old ++ replicate spaceToAllow NUL) io)
        end
  end.

Definition drain_fuel (targetSize : Z) (io : ConnectionIO) : nat :=
  S (Z.to_nat (targetSize - Z.of_nat (getReadBufferSize io))).

Definition drainIntoReadBuffer (targetSize maxBufferSize : Z) (io : ConnectionIO) : option (ReadResult * ConnectionIO) :=
  drain_loop (drain_fuel targetSize io) targetSize maxBufferSize false io.

Fixpoint flush_loop (fuel : nat) (io : ConnectionIO) : outcome (bool * ConnectionIO) :=
  match fuel with
  | O => Undef
  | S fuel' =>
      if hasPendingWrites io then
        let '(n, stream) := send (writeBuffer io) (stream_ io) in
        let io := Build stream (readOffset_ io) (writeOffset_ io) (readBuffer_ io) (writeBuffer_ io) in
        if (n <? 0)%Z then Ret (false, io)
        else if (n =? 0)%Z then Ret (true, io)
        else io ← eraseFromWriteBuffer (Z.to_nat n) io; flush_loop fuel' io
      else Ret (true, io)
  end.

Definition flushFromWriteBuffer (io : ConnectionIO) : outcome (bool * ConnectionIO) :=
  flush_loop (S (getWriteBufferSize io)) io.

(** [drainDiscard]: the scratch buffer has 4096 bytes. *)
Fixpoint discard_loop (fuel : nat) (maxBytes bytesRead : Z) (k : K) : option (bool * K) :=
  match fuel with
  | O => None
  | S fuel' =>
      let '(result, k) := receive 4096 k in
      match status result with
      | DATA =>
          let bytesRead := (bytesRead + Z.of_nat (length (data result)))%Z in
          if (maxBytes <=? bytesRead)%Z then Some (true, k) else discard_loop fuel' maxBytes bytesRead k
      | WOULD_BLOCK => Some (false, k)
      | CLOSED | ERROR => Some (true, k)
      end
  end.

Definition with_stream (k : K) (io : ConnectionIO) : ConnectionIO :=
  Build k (readOffset_ io) (writeOffset_ io) (readBuffer_ io) (writeBuffer_ io).

Definition drainDiscard (maxBytes : Z) (io : ConnectionIO) : option (bool * ConnectionIO) :=
  match discard_loop (S (length (incoming (stream_ io)))) maxBytes 0 (stream_ io) with
  | Some (b, k) => Some (b, with_stream k io)
  | None => None
  end.

(** [co_await io.read(targetSize, maxBufferSize, deadline)]: [ReadDataAwaitable]. *)
Definition co_read (targetSize maxBufferSize : Z) (io : ConnectionIO) : option (ReadResult * ConnectionIO) :=
  let targetBytes := (Z.of_nat (getReadBufferSize io) + targetSize)%Z in
  match drainIntoReadBuffer targetBytes maxBufferSize io with
  | Some (RD_WOULD_BLOCK, io) =>
      let k := suspend (stream_ io) in
      if tl_timed_out k then Some (RD_TIMED_OUT, with_stream k io)
      else drainIntoReadBuffer targetBytes maxBufferSize (with_stream k io)
  | r => r
  end.

(** [WriteDataAwaitable::await_resume]: it looks at [tl_timed_out] also when the
    coroutine was not suspended. *)
Definition write_resume (io : ConnectionIO) : outcome (WriteResult * ConnectionIO) :=
  if tl_timed_out (stream_ io) then Ret (WR_TIMED_OUT, io)
  else
    '(ok, io) ← flushFromWriteBuffer io;
    if negb ok then Ret (WR_ERROR, io) else Ret (WR_OK, io).

(** [co_await io.write(inactivitySeconds)]: [WriteDataAwaitable]. *)
Definition co_write (io : ConnectionIO) : outcome (WriteResult * ConnectionIO) :=
  '(ok, io) ← flushFromWriteBuffer io;
  if negb ok then Ret (WR_ERROR, io)
  else if hasPendingWrites io then write_resume (with_stream (suspend (stream_ io)) io)
  else write_resume io.

(** [co_await io.awaitClientFin(deadline, maxBytes)]. *)
Definition co_awaitClientFin (maxBytes : Z) (io : ConnectionIO) : option ConnectionIO :=
  match drainDiscard maxBytes io with
  | Some (true, io) => Some io
  | Some (false, io) =>
      let k := suspend (stream_ io) in
      let io := with_stream k io in
      if tl_timed_out k then Some io
      else match drainDiscard maxBytes io with Some (_, io) => Some io | None => None end
  | None => None
  end.
End IO.

(** ** Lemmas *)
Section Lemmas.
Context {K : Type} {N : Net K}.
#[local] Abbreviation ConnectionIO := (ConnectionIO K).

Definition io_wf (io : ConnectionIO) : Prop :=
  readOffset_ io <= length (readBuffer_ io) /\ writeOffset_ io <= length (writeBuffer_ io).

Lemma readBuffer_length (io : ConnectionIO) : length (readBuffer io) = getReadBufferSize io.
Proof. apply length_drop. Qed.

Lemma writeBuffer_length (io : ConnectionIO) : length (writeBuffer io) = getWriteBufferSize io.
Proof. apply length_drop. Qed.

Lemma erase_read n (io : ConnectionIO) :
  io_wf io ->
  match eraseFromReadBuffer n io with
  | Ret io' => n <= length (readBuffer io) /\ io_wf io' /\ readBuffer io' = drop n (readBuffer io) /\
      writeBuffer io' = writeBuffer io /\ stream_ io' = stream_ io
  | Undef => length (readBuffer io) < n
  | Throw _ => False
  end.
Proof.
  intros [Hr Hw]. unfold eraseFromReadBuffer, io_wf, readBuffer, writeBuffer. cbv zeta. rewrite length_drop.
  pose proof (Nat.Div0.div_le_upper_bound (length (readBuffer_ io)) 2 (length (readBuffer_ io)) ltac:(lia)).
  case_bool_decide; [case_bool_decide|];
    cbn [readOffset_ writeOffset_ readBuffer_ writeBuffer_ stream_]; rewrite ?drop_drop; [|lia|].
  - rewrite Nat.add_0_r. split_and!; (done || lia).
  - split_and!; (done || lia).
Qed.

Lemma erase_write n (io : ConnectionIO) :
  io_wf io ->
  match eraseFromWriteBuffer n io with
  | Ret io' => n <= length (writeBuffer io) /\ io_wf io' /\ writeBuffer io' = drop n (writeBuffer io) /\
      readBuffer io' = readBuffer io /\ stream_ io' = stream_ io
  | Undef => length (writeBuffer io) < n
  | Throw _ => False
  end.
Proof.
  intros [Hr Hw]. unfold eraseFromWriteBuffer, io_wf, readBuffer, writeBuffer. cbv zeta. rewrite length_drop.
  pose proof (Nat.Div0.div_le_upper_bound (length (writeBuffer_ io)) 2 (length (writeBuffer_ io)) ltac:(lia)).
  case_bool_decide; [case_bool_decide|];
    cbn [readOffset_ writeOffset_ readBuffer_ writeBuffer_ stream_]; rewrite ?drop_drop; [|lia|].
  - rewrite Nat.add_0_r. split_and!; (done || lia).
  - split_and!; (done || lia).
Qed.

Lemma enqueue_write d (io : ConnectionIO) :
  io_wf io -> io_wf (enqueue d io) /\ writeBuffer (enqueue d io) = writeBuffer io ++ d /\
  readBuffer (enqueue d io) = readBuffer io /\ stream_ (enqueue d io) = stream_ io.
Proof.
  intros [Hr Hw]. unfold io_wf, writeBuffer, enqueue. cbn. rewrite length_app, drop_app_le by lia.
  split_and!; (done || lia).
Qed.

Lemma setReadBuffer_app (io : ConnectionIO) b k :
  io_wf io -> let io' := setReadBuffer (readBuffer_ io ++ b) (with_stream k io) in
  io_wf io' /\ readBuffer io' = readBuffer io ++ b /\ writeBuffer io' = writeBuffer io.
Proof.
  intros [Hr Hw]. unfold io_wf, readBuffer, writeBuffer. cbn. rewrite length_app, drop_app_le by lia.
  split_and!; (done || lia).
Qed.

(** What a drain of the socket did: [got] was received; [pad] are bytes left in the
    buffer by the resize when the socket was closed or failed. *)
Record drained (target lim : Z) (gotData : bool) (io io' : ConnectionIO) (res : ReadResult) (got pad : bytes) : Prop := {
  dr_wf : io_wf io';
  dr_buffer : readBuffer io' = readBuffer io ++ got ++ pad;
  dr_incoming : incoming (stream_ io) = got ++ incoming (stream_ io');
  dr_sent : sent (stream_ io') = sent (stream_ io);
  dr_timed : tl_timed_out (stream_ io') = tl_timed_out (stream_ io);
  dr_write : writeBuffer io' = writeBuffer io;
  dr_budget : budget (stream_ io') + length got <= budget (stream_ io);
  dr_bound : got <> [] -> (Z.of_nat (length (readBuffer io ++ got)) <= lim)%Z;
  dr_result : match res with
    | RD_DATA => pad = [] /\ (gotData = true \/ got <> [] \/ (target <= Z.of_nat (length (readBuffer io)))%Z)
    | RD_WOULD_BLOCK => pad = [] /\ got = [] /\ gotData = false
    | RD_BUFFER_LIMIT_EXCEEDED => pad = [] /\ (lim <= Z.of_nat (length (readBuffer io ++ got)))%Z
    | RD_CLOSED | RD_ERROR =>
        pad = replicate (Z.to_nat (lim - Z.of_nat (length (readBuffer io ++ got)))) NUL /\
        (Z.of_nat (length (readBuffer io ++ got)) < lim)%Z
    | RD_TIMED_OUT => False
    end;
}.

(** A round that received [b], then the rest. *)
Lemma drained_step t lim g (io io1 io' : ConnectionIO) res b got pad :
  b <> [] -> (Z.of_nat (length (readBuffer io ++ b)) <= lim)%Z ->
  readBuffer io1 = readBuffer io ++ b -> writeBuffer io1 = writeBuffer io ->
  incoming (stream_ io) = b ++ incoming (stream_ io1) -> sent (stream_ io1) = sent (stream_ io) ->
  tl_timed_out (stream_ io1) = tl_timed_out (stream_ io) ->
  budget (stream_ io1) + length b <= budget (stream_ io) ->
  drained t lim true io1 io' res got pad -> drained t lim g io io' res (b ++ got) pad.
Proof.
  intros Hb Hlim Hr Hw Hi Hs Ht Hbu [D1 D2 D3 D4 D5 D6 D6' D7 D8].
  assert (readBuffer io1 ++ got = readBuffer io ++ b ++ got) as He by (by rewrite Hr, <- app_assoc).
  split; try congruence.
  - by rewrite D2, Hr, <- !app_assoc.
  - by rewrite Hi, D3, <- app_assoc.
  - rewrite length_app. lia.
  - intros _. destruct got as [|c got]; [by rewrite app_nil_r|]. rewrite <- He. by apply D7.
  - destruct res; rewrite ?He in *; try done.
    + destruct D8 as [-> _]. split; [done|]. right. left. by destruct b.
    + by destruct D8 as (_ & _ & ?).
Qed.

Lemma drain_loop_spec fuel target max g (io : ConnectionIO) :
  io_wf io -> 0 < fuel -> (target - Z.of_nat (getReadBufferSize io) < Z.of_nat fuel)%Z ->
  exists res io' got pad, drain_loop fuel target max g io = Some (res, io') /\
    drained target (Z.min target max) g io io' res got pad.
Proof.
  revert g io. induction fuel as [|fuel IH]; intros g io Hwf Hf0 Hf; [lia|]. cbn [drain_loop].
  pose proof (readBuffer_length io) as Hlen.
  assert (forall res, match res with RD_BUFFER_LIMIT_EXCEEDED => (max <= Z.of_nat (length (readBuffer io)))%Z
            | RD_DATA => (target <= Z.of_nat (length (readBuffer io)))%Z | _ => False end ->
            drained target (Z.min target max) g io io res [] []) as Hdone.
  { intros res Hres. split; rewrite ?app_nil_r; try done; [by rewrite Nat.add_0_r|]. destruct res; try done; auto. split; [done|lia]. }
  destruct (Z.leb_spec max (Z.of_nat (getReadBufferSize io))) as [Hm|Hm].
  { eexists _, _, [], []. split; [done|]. apply Hdone. lia. }
  destruct (Z.leb_spec target (Z.of_nat (getReadBufferSize io))) as [Ht|Ht].
  { eexists _, _, [], []. split; [done|]. apply Hdone. lia. }
  set (space := Z.to_nat _). assert (0 < space) as Hsp by lia.
  pose proof (receive_law space (stream_ io) Hsp) as Hlaw.
  destruct (receive space (stream_ io)) as [r k]. destruct Hlaw as (Hs & Hto & Hst).
  destruct (status r).
  - destruct Hst as (Hne & Hle & Hin & Hbu).
    destruct (setReadBuffer_app io (data r) k Hwf) as (Hwf1 & Hr1 & Hw1).
    set (io1 := setReadBuffer (readBuffer_ io ++ data r) (with_stream k io)) in *.
    assert (0 < length (data r)) by (destruct (data r); [done|simpl; lia]).
    assert (Z.of_nat (length (readBuffer io ++ data r)) <= Z.min target max)%Z as Hb by (rewrite length_app; lia).
    destruct (IH true io1 Hwf1) as (res & io' & got & pad & Hrun & Hd).
    { lia. }
    { rewrite <- readBuffer_length, Hr1, length_app. lia. }
    exists res, io', (data r ++ got), pad. split; [exact Hrun|].
    by apply (drained_step _ _ g io io1).
  - destruct (setReadBuffer_app io (replicate space NUL) k Hwf) as (Hwf1 & Hr1 & Hw1).
    eexists _, _, [], _. split; [done|]. destruct Hst as (_ & Hin & Hbu). split; try done; cbn [length stream_ with_stream setReadBuffer]; [lia|].
    rewrite app_nil_r. split; [f_equal; lia|lia].
  - eexists _, _, [], []. split; [done|]. destruct Hst as (_ & Hin & Hbu).
    split; try done; rewrite ?app_nil_r; try done; cbn [length stream_]; [lia|]. destruct g; auto.
  - destruct (setReadBuffer_app io (replicate space NUL) k Hwf) as (Hwf1 & Hr1 & Hw1).
    eexists _, _, [], _. split; [done|]. destruct Hst as (_ & Hin & Hbu). split; try done; cbn [length stream_ with_stream setReadBuffer]; [lia|].
    rewrite app_nil_r. split; [f_equal; lia|lia].
Qed.

Lemma drain_spec target max (io : ConnectionIO) :
  io_wf io -> exists res io' got pad, drainIntoReadBuffer target max io = Some (res, io') /\
    drained target (Z.min target max) false io io' res got pad.
Proof. intros Hwf. apply drain_loop_spec; [done|unfold drain_fuel; lia..]. Qed.

(** What writing does: bytes move from the write buffer to the peer, in order. *)
Record flushed (io io' : ConnectionIO) : Prop := {
  fl_wf : io_wf io';
  fl_bytes : sent (stream_ io') ++ writeBuffer io' = sent (stream_ io) ++ writeBuffer io;
  fl_incoming : incoming (stream_ io') = incoming (stream_ io);
  fl_timed : tl_timed_out (stream_ io') = tl_timed_out (stream_ io);
  fl_read : readBuffer io' = readBuffer io;
}.

Lemma flushed_refl (io : ConnectionIO) : io_wf io -> flushed io io.
Proof. by split. Qed.

Lemma flushed_trans (a b c : ConnectionIO) : flushed a b -> flushed b c -> flushed a c.
Proof. intros [] []. split; congruence. Qed.

Lemma pending_size (io : ConnectionIO) : hasPendingWrites io = negb (bool_decide (writeBuffer io = [])).
Proof.
  unfold hasPendingWrites. rewrite <- writeBuffer_length. destruct (writeBuffer io); [done|].
  rewrite bool_decide_eq_true_2; [done|simpl; lia].
Qed.

Lemma flush_loop_spec fuel (io : ConnectionIO) :
  io_wf io -> length (writeBuffer io) < fuel ->
  exists ok io', flush_loop fuel io = Ret (ok, io') /\ flushed io io'.
Proof.
  revert io. induction fuel as [|fuel IH]; intros io Hwf Hf; [lia|]. cbn [flush_loop].
  destruct (hasPendingWrites io) eqn:Ep; [|eexists _, _; split; [done|]; by apply flushed_refl].
  pose proof (send_law (writeBuffer io) (stream_ io)) as Hlaw.
  destruct (send (writeBuffer io) (stream_ io)) as [n k]. destruct Hlaw as (Hle & Hin & Hto & Hsent & _).
  assert (forall d, Z.to_nat n = d -> d = 0 -> flushed io (with_stream k io)) as Hzero.
  { intros d Hd ->. split; try done. cbn [with_stream stream_]. rewrite Hsent, Hd. by rewrite app_nil_r. }
  destruct (Z.ltb_spec n 0) as [Hneg|Hneg].
  { eexists _, _. split; [done|]. apply (Hzero 0); lia. }
  destruct (Z.eqb_spec n 0) as [->|Hz].
  { eexists _, _. split; [done|]. by apply (Hzero 0). }
  pose proof (erase_write (Z.to_nat n) (with_stream k io) Hwf) as He.
  change (writeBuffer (with_stream k io)) with (writeBuffer io) in He.
  change (Build_ConnectionIO K k _ _ _ _) with (with_stream k io).
  destruct (eraseFromWriteBuffer (Z.to_nat n) (with_stream k io)) as [io1| |]; [|done|lia].
  destruct He as (Hn & Hwf1 & Hw1 & Hr1 & Hst1). cbn [mbind outcome_bind].
  destruct (IH io1 Hwf1) as (ok & io' & Hrun & Hfl).
  { rewrite Hw1, length_drop. lia. }
  exists ok, io'. split; [done|]. eapply flushed_trans; [|exact Hfl].
  split; rewrite ?Hst1; try done. cbn [with_stream stream_].
  by rewrite Hw1, Hsent, <- app_assoc, take_drop.
Qed.

Lemma flush_spec (io : ConnectionIO) :
  io_wf io -> exists ok io', flushFromWriteBuffer io = Ret (ok, io') /\ flushed io io'.
Proof. intros Hwf. apply flush_loop_spec; [done|]. rewrite writeBuffer_length. lia. Qed.

(** Suspension keeps the bytes; only the time-out flag may change. *)
Record moved (io io' : ConnectionIO) : Prop := {
  mv_wf : io_wf io';
  mv_bytes : sent (stream_ io') ++ writeBuffer io' = sent (stream_ io) ++ writeBuffer io;
  mv_incoming : incoming (stream_ io') = incoming (stream_ io);
  mv_read : readBuffer io' = readBuffer io;
}.

Lemma flushed_moved a b : flushed a b -> moved a b.
Proof. intros []. by split. Qed.

Lemma moved_trans a b c : moved a b -> moved b c -> moved a c.
Proof. intros [] []. split; congruence. Qed.

Lemma suspend_moved (io : ConnectionIO) : io_wf io -> moved io (with_stream (suspend (stream_ io)) io).
Proof.
  intros Hwf. destruct (suspend_law (stream_ io)) as (Hi & Hs & _ & _). split; try done. cbn. by rewrite Hs.
Qed.

Lemma write_resume_spec (io : ConnectionIO) :
  io_wf io -> exists res io', write_resume io = Ret (res, io') /\ moved io io' /\
    (res = WR_TIMED_OUT <-> tl_timed_out (stream_ io) = true).
Proof.
  intros Hwf. unfold write_resume. destruct (tl_timed_out (stream_ io)).
  { eexists _, _. split; [done|]. split; [|done]. by apply flushed_moved, flushed_refl. }
  destruct (flush_spec io Hwf) as (ok & io' & -> & Hfl). cbn [mbind outcome_bind].
  destruct ok; eexists _, _; (split; [done|]); (split; [by apply flushed_moved|done]).
Qed.

Lemma co_write_spec (io : ConnectionIO) :
  io_wf io -> exists res io', co_write io = Ret (res, io') /\ moved io io'.
Proof.
  intros Hwf. unfold co_write. destruct (flush_spec io Hwf) as (ok & io1 & -> & Hfl). cbn [mbind outcome_bind].
  destruct ok; cbn [negb]; [|eexists _, _; split; [done|]; by apply flushed_moved].
  destruct Hfl as [Hwf1 ? ? ? ?] eqn:E. destruct (hasPendingWrites io1).
  - destruct (write_resume_spec (with_stream (suspend (stream_ io1)) io1) Hwf1) as (res & io' & -> & Hm & _).
    eexists _, _. split; [done|]. eapply moved_trans; [by apply flushed_moved|].
    eapply moved_trans; [by apply suspend_moved|done].
  - destruct (write_resume_spec io1 Hwf1) as (res & io' & -> & Hm & _).
    eexists _, _. split; [done|]. eapply moved_trans; [by apply flushed_moved|done].
Qed.
(** What a read of at most [lim] buffered bytes did: [got] are the bytes received,
    [pad] what the resize of a failed read left behind. *)
Definition read_result (lim : Z) (io io' : ConnectionIO) (res : ReadResult) (got pad : bytes) : Prop :=
    readBuffer io' = readBuffer io ++ got ++ pad /\
    incoming (stream_ io) = got ++ incoming (stream_ io') /\
    sent (stream_ io') = sent (stream_ io) /\ writeBuffer io' = writeBuffer io /\ io_wf io' /\
    budget (stream_ io') + length got <= budget (stream_ io) /\
    (got <> [] -> Z.of_nat (length (readBuffer io ++ got)) <= lim)%Z /\
    match res with
    | RD_DATA => pad = [] /\ got <> []
    | RD_WOULD_BLOCK => pad = [] /\ got = [] /\ budget (stream_ io') < budget (stream_ io)
    | RD_TIMED_OUT => pad = [] /\ got = []
    | RD_BUFFER_LIMIT_EXCEEDED => pad = [] /\ (lim <= Z.of_nat (length (readBuffer io ++ got)))%Z
    | RD_CLOSED | RD_ERROR =>
        pad = replicate (Z.to_nat (lim - Z.of_nat (length (readBuffer io ++ got)))) NUL /\ pad <> []
    end.

Lemma co_read_spec (io : ConnectionIO) (targetSize max : Z) :
  io_wf io -> (0 < targetSize)%Z ->
  let lim := Z.min (Z.of_nat (length (readBuffer io)) + targetSize) max in
  exists res io' got pad, co_read targetSize max io = Some (res, io') /\
    read_result lim io io' res got pad.
Proof.
  intros Hwf Ht lim. unfold co_read. cbv zeta.
  assert (forall io1, io_wf io1 -> readBuffer io1 = readBuffer io -> writeBuffer io1 = writeBuffer io ->
    incoming (stream_ io1) = incoming (stream_ io) -> sent (stream_ io1) = sent (stream_ io) ->
    budget (stream_ io1) <= budget (stream_ io) ->
    forall res io' got pad, (res = RD_WOULD_BLOCK -> budget (stream_ io1) < budget (stream_ io)) ->
    drained (Z.of_nat (length (readBuffer io)) + targetSize) lim false io1 io' res got pad ->
    read_result lim io io' res got pad) as Hd.
  { intros io1 _ Hr1 Hw1 Hi1 Hs1 Hb1 res io' got pad Hwb [D1 D2 D3 D4 D5 D6 D6' D7 D8]. rewrite Hr1 in *. unfold read_result.
    split_and!; try congruence; try done; [lia|]. destruct res; try done.
    - destruct D8 as (-> & [|[|]]); [done..|lia].
    - destruct D8 as (-> & D8). split; [done|]. destruct (Z.to_nat _) eqn:E; [lia|done].
    - destruct D8 as (-> & -> & _). specialize (Hwb eq_refl). cbn [length] in D6'. split_and!; done || lia.
    - destruct D8 as (-> & D8). split; [done|]. destruct (Z.to_nat _) eqn:E; [lia|done]. }
  rewrite <- readBuffer_length. fold lim.
  destruct (drain_spec (Z.of_nat (length (readBuffer io)) + targetSize) max io Hwf) as (res & io1 & got & pad & Hrun & Hdr).
  fold lim in Hdr. rewrite Hrun. destruct (decide (res = RD_WOULD_BLOCK)) as [->|Hne].
  - destruct Hdr as [D1 D2 D3 D4 D5 D6 D6' D7 (-> & -> & _)]. rewrite app_nil_r in D2. cbn [app] in D3.
    destruct (suspend_law (stream_ io1)) as (Hi & Hs & Hbs & Hto).
    destruct (tl_timed_out (suspend (stream_ io1))).
    + exists RD_TIMED_OUT. eexists _, [], []. split; [done|]. unfold read_result.
      change (readBuffer (with_stream (suspend (stream_ io1)) io1)) with (readBuffer io1).
      cbn [stream_ with_stream app]. rewrite app_nil_r, D2, Hi, Hs. cbn [length] in *. split_and!; done || congruence || lia.
    + destruct (drain_spec (Z.of_nat (length (readBuffer io)) + targetSize) max
        (with_stream (suspend (stream_ io1)) io1) D1) as (res & io2 & got & pad & Hrun2 & Hdr2).
      fold lim in Hdr2. exists res, io2, got, pad. split; [done|].
      eapply (Hd (with_stream (suspend (stream_ io1)) io1)); try done; cbn [stream_ with_stream length] in *; try congruence; try lia.
      all: destruct Hto; [done|]; intros; lia.
  - exists res, io1, got, pad. split; [by destruct res|]. by apply (Hd io).
Qed.

(** ** What a client of the buffers relies on *)

(** The bytes that are still to be parsed: buffered, or to be received. *)
Definition wire (io : ConnectionIO) : bytes := readBuffer io ++ incoming (stream_ io).

(** Bounds the rounds of a loop that parses and reads. *)
Definition io_measure (io : ConnectionIO) : nat := budget (stream_ io) + length (readBuffer io).

(** Reading and erasing only: nothing was written. *)
Record kept (io io' : ConnectionIO) : Prop := {
  kp_wf : io_wf io';
  kp_sent : sent (stream_ io') = sent (stream_ io);
  kp_write : writeBuffer io' = writeBuffer io;
  kp_incoming : exists got, incoming (stream_ io) = got ++ incoming (stream_ io');
}.

(** [c] was parsed, and more may have been received. *)
Record took (c : bytes) (io io' : ConnectionIO) : Prop := {
  tk_kept : kept io io';
  tk_wire : wire io = c ++ wire io';
  tk_measure : io_measure io' + length c <= io_measure io;
}.

Lemma kept_refl (io : ConnectionIO) : io_wf io -> kept io io.
Proof. split; [done..|by exists []]. Qed.

Lemma kept_trans (a b c : ConnectionIO) : kept a b -> kept b c -> kept a c.
Proof.
  intros [? ? ? [g1 I1]] [? ? ? [g2 I2]]. split; [congruence..|].
  exists (g1 ++ g2). by rewrite I1, I2, app_assoc.
Qed.

Lemma kept_all_received (io io' : ConnectionIO) :
  kept io io' -> incoming (stream_ io) = [] -> incoming (stream_ io') = [].
Proof. intros [_ _ _ [got Hg]] H. rewrite H in Hg. by apply eq_sym, app_eq_nil in Hg as [_ ?]. Qed.

Lemma took_refl (io : ConnectionIO) : io_wf io -> took [] io io.
Proof. intros H. split; [by apply kept_refl|done|simpl; lia]. Qed.

Lemma took_trans x y (a b c : ConnectionIO) : took x a b -> took y b c -> took (x ++ y) a c.
Proof.
  intros [K1 W1 M1] [K2 W2 M2]. split.
  - by eapply kept_trans.
  - by rewrite W1, W2, app_assoc.
  - rewrite length_app. lia.
Qed.

Lemma took_erase n (io : ConnectionIO) :
  io_wf io -> n <= length (readBuffer io) ->
  exists io', eraseFromReadBuffer n io = Ret io' /\ took (take n (readBuffer io)) io io' /\
    readBuffer io' = drop n (readBuffer io) /\ stream_ io' = stream_ io.
Proof.
  intros Hwf Hn. pose proof (erase_read n io Hwf) as H.
  destruct (eraseFromReadBuffer n io) as [io'| |]; [|done|lia].
  destruct H as (_ & Hwf' & Hr & Hw & Hst). exists io'. split; [done|]. split; [|done].
  split; unfold wire, io_measure; rewrite ?Hr, ?Hst.
  - split; rewrite ?Hst; [done..|by exists []].
  - by rewrite app_assoc, take_drop.
  - rewrite length_drop, length_take. lia.
Qed.

(** A read that did not fail brings the peer's next bytes, and uses up the budget. *)
Lemma co_read_progress targetSize max (io : ConnectionIO) :
  io_wf io -> (0 < targetSize)%Z ->
  exists res io', co_read targetSize max io = Some (res, io') /\ kept io io' /\
    match res with
    | RD_DATA | RD_WOULD_BLOCK =>
        took [] io io' /\ budget (stream_ io') < budget (stream_ io) /\
        exists got, readBuffer io' = readBuffer io ++ got /\ (res = RD_DATA -> got <> [])
    | _ => True
    end.
Proof.
  intros Hwf Ht. destruct (co_read_spec io targetSize max Hwf Ht) as (res & io' & got & pad & -> & Hr).
  destruct Hr as (Hbuf & Hin & Hs & Hw & Hwf' & Hbu & _ & Hres).
  assert (kept io io') as Hk by (split; [done..|by exists got]).
  exists res, io'. split; [done|]. split; [done|].
  assert (pad = [] -> took [] io io' /\ exists got, readBuffer io' = readBuffer io ++ got) as Htook.
  { intros ->. rewrite app_nil_r in Hbuf. split; [|by exists got]. split; [done| |].
    - unfold wire. cbn [app]. by rewrite Hbuf, Hin, <- app_assoc.
    - unfold io_measure. rewrite Hbuf, length_app. simpl. lia. }
  destruct res; try done.
  - destruct Hres as [-> Hne]. destruct (Htook eq_refl) as [? _]. rewrite app_nil_r in Hbuf.
    split_and!; [done| |by exists got].
    assert (0 < length got) by (destruct got; [done|simpl; lia]). lia.
  - destruct Hres as (-> & -> & Hlt). destruct (Htook eq_refl) as [? _]. rewrite app_nil_r in Hbuf.
    split_and!; [done|done|exists []; by rewrite app_nil_r].
Qed.

(** Without spurious wake-ups a read never comes back empty-handed. *)
Lemma co_read_prompt `{!PromptNet K} targetSize max (io : ConnectionIO) res io' :
  io_wf io -> co_read targetSize max io = Some (res, io') -> res <> RD_WOULD_BLOCK.
Proof.
  intros Hwf. unfold co_read. cbv zeta. set (target := (_ + targetSize)%Z).
  destruct (drain_spec target max io Hwf) as (res1 & io1 & got1 & pad1 & Hrun & Hdr). rewrite Hrun.
  destruct (decide (res1 = RD_WOULD_BLOCK)) as [->|Hne]; [|destruct res1; try done; by intros [= <- <-]].
  destruct (tl_timed_out (suspend (stream_ io1))) eqn:Eto; [by intros [= <- _]|].
  assert (io_wf io1) as Hwf1 by apply Hdr. set (io2 := with_stream (suspend (stream_ io1)) io1).
  unfold drainIntoReadBuffer, drain_fuel. cbn [drain_loop].
  destruct (Z.leb_spec max (Z.of_nat (getReadBufferSize io2))); [by intros [= <- _]|].
  destruct (Z.leb_spec target (Z.of_nat (getReadBufferSize io2))); [by intros [= <- _]|].
  set (space := Z.to_nat (Z.min _ _)). assert (0 < space) as Hsp by lia.
  pose proof (prompt_law space (stream_ io1) Hsp Eto) as Hp. cbn [stream_ with_stream io2].
  pose proof (receive_law space (suspend (stream_ io1)) Hsp) as Hlaw.
  destruct (receive space (suspend (stream_ io1))) as [r k]. destruct Hlaw as (_ & _ & Hst). cbn [fst] in Hp.
  destruct (status r); [|by intros [= <- _]|done|by intros [= <- _]].
  destruct Hst as (Hd & Hle & _).
  destruct (setReadBuffer_app io2 (data r) k Hwf1) as (Hwf3 & Hr3 & _).
  set (io3 := setReadBuffer _ _) in *.
  assert (0 < length (data r)) by (destruct (data r); [done|simpl; lia]).
  destruct (drain_loop_spec (Z.to_nat (target - Z.of_nat (getReadBufferSize io2))) target max true io3 Hwf3)
    as (res3 & io4 & got & pad & Hrun3 & [_ _ _ _ _ _ _ _ D8]); [lia| |].
  { rewrite <- (readBuffer_length io3), Hr3, length_app, readBuffer_length. lia. }
  intros Hrun4. rewrite Hrun3 in Hrun4. injection Hrun4 as <- _. intros ->. by destruct D8 as (_ & _ & ?).
Qed.
End Lemmas.

(** ** Properties *)
Section Props.
Context {K : Type} {N : Net K}.
#[local] Abbreviation ConnectionIO := (ConnectionIO K).

(** The buffers as two queues. *)
Inductive io_op := OpErase (n : nat) | OpEnqueue (d : bytes) | OpEraseWrite (n : nat).

Definition io_step (o : io_op) (io : ConnectionIO) : outcome ConnectionIO :=
  match o with
  | OpErase n => eraseFromReadBuffer n io
  | OpEnqueue d => Ret (enqueue d io)
  | OpEraseWrite n => eraseFromWriteBuffer n io
  end.

Fixpoint io_run (l : list io_op) (io : ConnectionIO) : outcome ConnectionIO :=
  match l with [] => Ret io | o :: l => io ← io_step o io; io_run l io end.

Definition queue_step (o : io_op) (q : bytes * bytes) : option (bytes * bytes) :=
  match o with
  | OpErase n => if bool_decide (n <= length q.1) then Some (drop n q.1, q.2) else None
  | OpEnqueue d => Some (q.1, q.2 ++ d)
  | OpEraseWrite n => if bool_decide (n <= length q.2) then Some (q.1, drop n q.2) else None
  end.

Fixpoint queue_run (l : list io_op) (q : bytes * bytes) : option (bytes * bytes) :=
  match l with [] => Some q | o :: l => match queue_step o q with Some q => queue_run l q | None => None end end.

(** C11: the lazily erased buffers refine a pair of byte queues: a sequence of
    operations is defined exactly when the queues never underflow, and then what
    is visible of the buffers is what is in the queues. *)
Theorem buffers_refine_queues (l : list io_op) (io : ConnectionIO) :
  io_wf io ->
  match queue_run l (readBuffer io, writeBuffer io) with
  | Some (r, w) => exists io', io_run l io = Ret io' /\ readBuffer io' = r /\ writeBuffer io' = w /\ io_wf io'
  | None => io_run l io = Undef
  end.
Proof.
  revert io. induction l as [|o l IH]; intros io Hwf; cbn [queue_run io_run]; [by exists io|].
  assert (match queue_step o (readBuffer io, writeBuffer io) with
          | Some q => exists io', io_step o io = Ret io' /\ (readBuffer io', writeBuffer io') = q /\ io_wf io'
          | None => io_step o io = Undef end) as Hs.
  { destruct o as [n|d|n]; cbn [queue_step io_step fst snd].
    - pose proof (erase_read n io Hwf) as H. destruct (eraseFromReadBuffer n io) as [io'| |]; [|done|].
      + destruct H as (Hn & Hw & Hr & Hwr & _). rewrite bool_decide_eq_true_2 by done. exists io'. by rewrite Hr, Hwr.
      + by rewrite bool_decide_eq_false_2 by lia.
    - destruct (enqueue_write d io Hwf) as (Hw & Hr & Hwr & _). eexists. split; [done|]. by rewrite Hr, Hwr.
    - pose proof (erase_write n io Hwf) as H. destruct (eraseFromWriteBuffer n io) as [io'| |]; [|done|].
      + destruct H as (Hn & Hw & Hr & Hwr & _). rewrite bool_decide_eq_true_2 by done. exists io'. by rewrite Hr, Hwr.
      + by rewrite bool_decide_eq_false_2 by lia. }
  destruct (queue_step o _) as [q|].
  - destruct Hs as (io' & -> & <- & Hwf'). cbn [mbind outcome_bind]. by apply IH.
  - by rewrite Hs.
Qed.

(** a read always ends; what it adds to the buffer are the next bytes of the
    peer, in order and within the limit; it leaves nothing else behind unless the
    connection is closed or failed, when the rest of the space asked for stays in
    the buffer as zero bytes; DATA means that progress was made. *)
Theorem read_spec (io : ConnectionIO) (targetSize max : Z) :
  io_wf io -> (0 < targetSize)%Z ->
  let lim := Z.min (Z.of_nat (length (readBuffer io)) + targetSize) max in
  exists res io' got pad, co_read targetSize max io = Some (res, io') /\
    read_result lim io io' res got pad.
Proof. apply co_read_spec. Qed.

(** writing always ends and moves bytes from the write buffer to the peer in
    order, losing none, whatever it reports. *)
Theorem write_spec (io : ConnectionIO) :
  io_wf io ->
  exists res io', co_write io = Ret (res, io') /\ io_wf io' /\
    sent (stream_ io') ++ writeBuffer io' = sent (stream_ io) ++ writeBuffer io /\
    readBuffer io' = readBuffer io /\ incoming (stream_ io') = incoming (stream_ io).
Proof.
  intros Hwf. destruct (co_write_spec io Hwf) as (res & io' & -> & [H1 H2 H3 H4]). by exists res, io'.
Qed.

(** after the coroutine was resumed by a time-out, a write that the socket
    takes whole without blocking is still reported as timed out. *)
Theorem stale_timeout (io : ConnectionIO) k :
  io_wf io -> writeBuffer io <> [] -> tl_timed_out (stream_ io) = true ->
  send (writeBuffer io) (stream_ io) = (Z.of_nat (length (writeBuffer io)), k) ->
  exists io', co_write io = Ret (WR_TIMED_OUT, io') /\ writeBuffer io' = [] /\
    sent (stream_ io') = sent (stream_ io) ++ writeBuffer io.
Proof.
  intros Hwf Hne Ht Hs. unfold co_write, flushFromWriteBuffer. cbn [flush_loop].
  assert (hasPendingWrites io = true) as Hp by (rewrite pending_size, bool_decide_eq_false_2; done).
  assert (0 < length (writeBuffer io)) as Hl by (destruct (writeBuffer io); [done|simpl; lia]).
  pose proof (send_law (writeBuffer io) (stream_ io)) as Hlaw. rewrite Hs in Hlaw.
  destruct Hlaw as (_ & _ & Hto & Hsent & _). rewrite Hp, Hs.
  destruct (Z.ltb_spec (Z.of_nat (length (writeBuffer io))) 0); [lia|].
  destruct (Z.eqb_spec (Z.of_nat (length (writeBuffer io))) 0); [lia|].
  rewrite Nat2Z.id in *. pose proof (erase_write (length (writeBuffer io)) (with_stream k io) Hwf) as He.
  change (writeBuffer (with_stream k io)) with (writeBuffer io) in He.
  change (Build_ConnectionIO K k _ _ _ _) with (with_stream k io).
  destruct (eraseFromWriteBuffer _ (with_stream k io)) as [io1| |]; [|done|lia].
  destruct He as (_ & Hwf1 & Hw1 & _ & Hst). rewrite drop_all in Hw1. cbn [mbind outcome_bind].
  rewrite <- writeBuffer_length. destruct (length (writeBuffer io)) as [|f] eqn:El; [lia|]. cbn [flush_loop].
  assert (hasPendingWrites io1 = false) as Hp1 by (by rewrite pending_size, Hw1).
  cbn [mbind outcome_bind]. rewrite ?Hp1. cbn [negb mbind outcome_bind]. rewrite ?Hp1. unfold write_resume. rewrite Hst. cbn [with_stream stream_].
  rewrite Hto, Ht. exists io1. split_and!; [done|done|]. rewrite Hst. cbn. rewrite Hsent. f_equal.
  by rewrite <- El, firstn_all.
Qed.
End Props.

Module IOWitnesses.
Definition kernel (r : list recv_event) (s : list send_event) (f : bool) : Kernel :=
  {| recv_script := r; send_script := s; timeouts := [false]; outbox := []; flag := f |}.

Lemma buffers_refine_queues_witness :
  exists io', io_run [OpEnqueue "abcd"; OpEraseWrite 3] (ConnectionIO_new (kernel [] [] false)) = Ret io' /\
    readBuffer io' = [] /\ writeBuffer io' = "d" /\ io_wf io'.
Proof.
  apply (buffers_refine_queues [OpEnqueue "abcd"; OpEraseWrite 3] (ConnectionIO_new (kernel [] [] false))).
  split; simpl; lia.
Defined.

Lemma read_spec_witness :
  let io := ConnectionIO_new (kernel [Arrived "hello"; NothingYet] [] false) in
  exists res io' got pad, co_read 4 100 io = Some (res, io') /\ read_result 4 io io' res got pad.
Proof.
  intros io. apply (read_spec io 4 100); [split; simpl; lia|lia].
Defined.

Lemma write_spec_witness :
  let io := enqueue "hello" (ConnectionIO_new (kernel [] [Room 2; NoRoom] false)) in
  exists res io', co_write io = Ret (res, io') /\ sent (stream_ io') ++ writeBuffer io' = "hello".
Proof.
  intros io. destruct (write_spec io) as (res & io' & H1 & _ & H2 & _); [split; simpl; lia|].
  by exists res, io'.
Defined.

Lemma stale_timeout_witness :
  let io := enqueue "hello" (ConnectionIO_new (kernel [] [] true)) in
  exists io', co_write io = Ret (WR_TIMED_OUT, io') /\ writeBuffer io' = [] /\ sent (stream_ io') = "hello".
Proof.
  intros io. destruct (stale_timeout io {| recv_script := []; send_script := []; timeouts := [false]; outbox := "hello"; flag := true |})
    as (io' & H1 & H2 & H3).
  - split; simpl; lia.
  - done.
  - reflexivity.
  - reflexivity.
  - exists io'. split_and!; [exact H1|exact H2|]. rewrite H3. reflexivity.
Defined.
End IOWitnesses.
