(* ===== verification/ChunkDecoder.v ===== *)
(** [ChunkDecoder.hpp]: the decoder of chunked request bodies, a state machine over
    the read buffer of the connection. *)
From S2P Require Import Prelude Bytes Effects ServerConfig HttpStreamResponse Net ConnectionIO.

#[local] Open Scope Z_scope.

Inductive ChunkError := MALFORMED | CHUNK_TOO_LARGE | REQUEST_SIZE_LIMIT_EXCEEDED.

(** [enum class State]; its [DONE] is [BODY_DONE] here. *)
Inductive State := CHUNK_SIZE | CHUNK_BODY | CHUNK_CRLF | TRAILER | BODY_DONE.
#[export] Instance State_eq_dec : EqDecision State.
Proof. solve_decision. Defined.

Record ChunkDecoder := {
  state_ : State;
  chunkRemaining_ : Z;
  totalBytes_ : Z;
  trailers_ : bytes;
}.

(** The initial values of the members, and what [reset] stores. *)
Definition ChunkDecoder_reset : ChunkDecoder :=
  {| state_ := CHUNK_SIZE; chunkRemaining_ := 0; totalBytes_ := 0; trailers_ := [] |}.

Definition getTrailers (d : ChunkDecoder) : bytes := trailers_ d.
Definition isDone (d : ChunkDecoder) : bool := bool_decide (state_ d = BODY_DONE).

Definition set_state (st : State) (d : ChunkDecoder) : ChunkDecoder :=
  {| state_ := st; chunkRemaining_ := chunkRemaining_ d; totalBytes_ := totalBytes_ d; trailers_ := trailers_ d |}.

(** [ChunkDecoder::handleIO] *)
Definition handleIO {S} (r : ReadResult) : M S unit :=
  match r with
  | RD_BUFFER_LIMIT_EXCEEDED => throw (ServerException "Buffer limit exceeded" 500 true)
  | RD_CLOSED | RD_ERROR => throw (ConnectionException "Connection closed")
  | RD_TIMED_OUT => throw (ConnectionException "Read timed out")
  | RD_DATA | RD_WOULD_BLOCK => mret tt
  end.

(** How an iteration of the loop of [readSome] ends. *)
Inductive loop_ctl := Continue | Break | Fail (e : ChunkError).

Section Decoder.
Context {K : Type} {N : Net K} (cfg : ServerConfig).
#[local] Abbreviation ST := (ChunkDecoder * ConnectionIO K)%type.

Definition on_dec (f : ChunkDecoder -> ChunkDecoder) : M ST unit := modify (fun s => (f s.1, s.2)).
Definition dec : M ST ChunkDecoder := gets fst.
Definition the_io : M ST (ConnectionIO K) := gets snd.

(** [io.eraseFromReadBuffer(n)] *)
Definition erase (n : nat) : M ST unit := fun s =>
  match eraseFromReadBuffer n s.2 with
  | Ret io' => (Ret tt, (s.1, io'))
  | Throw e => (Throw e, s)
  | Undef => (Undef, s)
  end.

(** [handleIO(co_await io.read(SINGLE_READ_BYTES, MAX_CONTENT_LENGTH, deadline))] *)
Definition io_read : M ST unit := fun s =>
  match co_read (SINGLE_READ_BYTES cfg) (MAX_CONTENT_LENGTH cfg) s.2 with
  | Some (r, io') => handleIO r (s.1, io')
  | None => (Undef, s)
  end.

(** [while (!ready) handleIO(co_await io.read(...))] *)
Fixpoint await_loop {A} (fuel : nat) (ready : bytes -> option A) : M ST A :=
  io ← the_io;
  match ready (readBuffer io) with
  | Some a => mret a
  | None =>
      match fuel with
      | O => undefined
      | S fuel' => io_read;; await_loop fuel' ready
      end
  end.

(** Every read uses up some of the transport's budget. *)
Definition await {A} (ready : bytes -> option A) : M ST A := fun s =>
  await_loop (S (budget (stream_ s.2))) ready s.

Definition on_chunk_size : M ST loop_ctl :=
  it ← await (find_sub CRLF);
  io ← the_io;
  match from_chars 16 (take it (readBuffer io)) with
  | None => mret (Fail MALFORMED)
  | Some chunkSize =>
      erase (it + 2);;
      if chunkSize =? 0 then on_dec (set_state TRAILER);; mret Continue else
      if MAX_TE_CHUNK_LENGTH cfg <? chunkSize then mret (Fail CHUNK_TOO_LARGE) else
      on_dec (fun d => {| state_ := state_ d; chunkRemaining_ := chunkRemaining_ d;
                          totalBytes_ := u64 (totalBytes_ d + chunkSize); trailers_ := trailers_ d |});;
      d ← dec;
      if MAX_TE_LENGTH cfg <? totalBytes_ d then mret (Fail REQUEST_SIZE_LIMIT_EXCEEDED) else
      on_dec (fun d => {| state_ := CHUNK_BODY; chunkRemaining_ := chunkSize;
                          totalBytes_ := totalBytes_ d; trailers_ := trailers_ d |});;
      mret Continue
  end.

(** [chunkRemaining_ -= toCopy] and the change of state at the end of the chunk. *)
Definition chunk_copied (n : nat) (d : ChunkDecoder) : ChunkDecoder :=
  let remaining := chunkRemaining_ d - Z.of_nat n in
  {| state_ := if remaining =? 0 then CHUNK_CRLF else state_ d; chunkRemaining_ := remaining;
     totalBytes_ := totalBytes_ d; trailers_ := trailers_ d |}.

(** Returns the bytes copied into [buf]. *)
Definition on_chunk_body (space : nat) : M ST bytes :=
  io0 ← the_io;
  mwhen (bool_decide (getReadBufferSize io0 = 0%nat)) io_read;;
  io ← the_io;
  d ← dec;
  let toCopy := Nat.min (getReadBufferSize io) (Nat.min (Z.to_nat (chunkRemaining_ d)) space) in
  let copied := take toCopy (readBuffer io) in
  erase toCopy;;
  on_dec (chunk_copied toCopy);;
  mret copied.

Definition on_chunk_crlf : M ST loop_ctl :=
  '(a, b) ← await (fun s => match s with a :: b :: _ => Some (a, b) | _ => None end);
  if negb (Ascii.eqb a CR) || negb (Ascii.eqb b LF) then mret (Fail MALFORMED) else
  erase 2;; on_dec (set_state CHUNK_SIZE);; mret Continue.

Definition on_trailer : M ST loop_ctl :=
  io0 ← the_io;
  if prefixb CRLF (readBuffer io0) then
    erase 2;; on_dec (set_state BODY_DONE);; mret Break
  else
    it ← await (find_sub CRLF2);
    io ← the_io;
    on_dec (fun d => {| state_ := state_ d; chunkRemaining_ := chunkRemaining_ d; totalBytes_ := totalBytes_ d;
                        trailers_ := take it (readBuffer io) |});;
    erase (it + 4);;
    on_dec (set_state BODY_DONE);; mret Break.

(** [while (written < buf.size())]; [written] are the bytes stored in [buf] so far. *)
Fixpoint readSome_loop (fuel : nat) (size : nat) (written : bytes) : M ST (bytes + ChunkError) :=
  match fuel with
  | O => undefined
  | S fuel' =>
      let next (ctl : loop_ctl) : M ST (bytes + ChunkError) :=
        match ctl with
        | Continue => readSome_loop fuel' size written
        | Break => mret (inl written)
        | Fail e => mret (inr e)
        end in
      if bool_decide (length written < size)%nat then
        d ← dec;
        match state_ d with
        | CHUNK_SIZE => on_chunk_size ≫= next
        | CHUNK_BODY =>
            copied ← on_chunk_body (size - length written)%nat;
            readSome_loop fuel' size (written ++ copied)
        | CHUNK_CRLF => on_chunk_crlf ≫= next
        | TRAILER => on_trailer ≫= next
        | BODY_DONE => mret (inl written)
        end
      else mret (inl written)
  end.

(** [ChunkDecoder::readSome]: every iteration but the last parses a byte or uses up
    some of the transport's budget. *)
Definition readSome (size : nat) : M ST (bytes + ChunkError) := fun s =>
  if isDone s.1 then (Ret (inl []), s)
  else readSome_loop (S (io_measure s.2)) size [] s.
End Decoder.

(** ** Lemmas *)

(** The exceptions a read can end with. *)
Definition net_exn (e : exn) : Prop :=
  e = ServerException "Buffer limit exceeded" 500 true \/
  e = ConnectionException "Connection closed" \/ e = ConnectionException "Read timed out".

(** The limits that the arithmetic of the decoder needs. *)
Definition limits_ok (cfg : ServerConfig) : Prop :=
  0 < SINGLE_READ_BYTES cfg /\ (0 <= MAX_TE_LENGTH cfg /\ 0 <= MAX_TE_CHUNK_LENGTH cfg) /\
  MAX_TE_CHUNK_LENGTH cfg + MAX_TE_LENGTH cfg < two64.

Record dec_wf (cfg : ServerConfig) (d : ChunkDecoder) : Prop := {
  dw_total : 0 <= totalBytes_ d <= MAX_TE_LENGTH cfg;
  dw_remaining : match state_ d with
    | CHUNK_BODY => 0 < chunkRemaining_ d <= totalBytes_ d
    | _ => chunkRemaining_ d = 0
    end;
}.

(** ** The coding, independently of the decoder

    [decodes cfg st remaining total w body tail]: in state [st], with [remaining]
    bytes of the current chunk to come and [total] bytes announced so far, the
    bytes [w] are an encoding of [body] within the limits, followed by [tail],
    which begins with the trailer section. *)
Inductive decodes (cfg : ServerConfig) : State -> Z -> Z -> bytes -> bytes -> bytes -> Prop :=
| de_size rem total w i n body tail :
    find_sub CRLF w = Some i -> from_chars 16 (take i w) = Some n ->
    0 < n <= MAX_TE_CHUNK_LENGTH cfg -> total + n <= MAX_TE_LENGTH cfg ->
    decodes cfg CHUNK_BODY n (total + n) (drop (i + 2) w) body tail ->
    decodes cfg CHUNK_SIZE rem total w body tail
| de_last rem total w i :
    find_sub CRLF w = Some i -> from_chars 16 (take i w) = Some 0 ->
    decodes cfg CHUNK_SIZE rem total w [] (drop (i + 2) w)
| de_body rem total c w body tail :
    c <> [] -> Z.of_nat (length c) = rem -> decodes cfg CHUNK_CRLF 0 total w body tail ->
    decodes cfg CHUNK_BODY rem total (c ++ w) (c ++ body) tail
| de_crlf total w body tail :
    decodes cfg CHUNK_SIZE 0 total w body tail ->
    decodes cfg CHUNK_CRLF 0 total (CRLF ++ w) body tail
| de_trailer rem total w :
    decodes cfg TRAILER rem total w [] w.

(** Where the decoder is. *)
Definition dec_decodes (cfg : ServerConfig) (d : ChunkDecoder) : bytes -> bytes -> bytes -> Prop :=
  decodes cfg (state_ d) (chunkRemaining_ d) (totalBytes_ d).

(** How the trailer section ended: [after] follows the body. *)
Definition body_end (trailers tail after : bytes) : Prop :=
  tail = CRLF ++ after \/
  exists i, find_sub CRLF2 tail = Some i /\ trailers = take i tail /\ after = drop (i + 4) tail.

(** What [readSome] has done when [written] was there before and [body] was to come. *)
Definition decoded {K} {N : Net K} (cfg : ServerConfig) (size : nat) (written body tail : bytes) (io : ConnectionIO K)
    (r : outcome (bytes + ChunkError) * (ChunkDecoder * ConnectionIO K)) : Prop :=
  match r with
  | (Ret (inl out), (d', io')) =>
      kept io io' /\ (length out <= size)%nat /\
      exists data body', out = written ++ data /\ body = data ++ body' /\
        (state_ d' <> BODY_DONE /\ length out = size /\ dec_wf cfg d' /\ dec_decodes cfg d' (wire io') body' tail \/
         state_ d' = BODY_DONE /\ body' = [] /\ body_end (trailers_ d') tail (wire io') /\
           (incoming (stream_ io) = [] -> prefixb CRLF tail = true -> tail = CRLF ++ wire io'))
  | (Throw e, (_, io')) =>
      net_exn e /\ kept io io' /\
      (incoming (stream_ io) = [] -> prefixb CRLF tail = false /\ find_sub CRLF2 tail = None)
  | _ => False
  end.

Section Lemmas.
Context {K : Type} {N : Net K} (cfg : ServerConfig) (Hlim : limits_ok cfg).
#[local] Abbreviation ConnectionIO := (ConnectionIO K).
#[local] Abbreviation ST := (ChunkDecoder * ConnectionIO)%type.

(** The ways a step can end: with a value, or with a failed read. *)
Definition read_failed {A} (io : ConnectionIO) (r : outcome A * ST) : Prop :=
  match r with
  | (Throw e, (_, io')) => net_exn e /\ kept io io'
  | _ => False
  end.

Lemma on_dec_bind {A} f (g : unit -> M ST A) d (io : ConnectionIO) :
  (on_dec f ≫= g) (d, io) = g tt (f d, io).
Proof. done. Qed.

Lemma io_read_spec d (io : ConnectionIO) :
  io_wf io ->
  (exists io', io_read cfg (d, io) = (Ret tt, (d, io')) /\ took [] io io' /\
     (budget (stream_ io') < budget (stream_ io))%nat /\ exists got, readBuffer io' = readBuffer io ++ got) \/
  read_failed io (io_read cfg (d, io)).
Proof.
  intros Hwf. unfold io_read, read_failed. cbn [fst snd].
  destruct (co_read_progress (SINGLE_READ_BYTES cfg) (MAX_CONTENT_LENGTH cfg) io Hwf ltac:(apply Hlim))
    as (res & io' & -> & Hk & Hres).
  unfold net_exn. destruct res; cbn [handleIO]; try (right; unfold throw; cbn [fst snd]; split; [auto|done]).
  all: left; exists io'; split; [done|]; destruct Hres as (? & ? & got & ? & _); split_and!; [done|done|by exists got].
Qed.

Lemma io_read_prompt `{!PromptNet K} d (io : ConnectionIO) :
  io_wf io ->
  (exists io', io_read cfg (d, io) = (Ret tt, (d, io')) /\ took [] io io' /\
     (budget (stream_ io') < budget (stream_ io))%nat /\ exists got, readBuffer io' = readBuffer io ++ got /\ got <> []) \/
  read_failed io (io_read cfg (d, io)).
Proof.
  intros Hwf. unfold io_read, read_failed. cbn [fst snd].
  destruct (co_read_progress (SINGLE_READ_BYTES cfg) (MAX_CONTENT_LENGTH cfg) io Hwf ltac:(apply Hlim))
    as (res & io' & E & Hk & Hres). pose proof (co_read_prompt _ _ _ _ _ Hwf E) as Hp. rewrite E.
  unfold net_exn. destruct res; cbn [handleIO]; try (right; unfold throw; cbn [fst snd]; split; [auto|done]); [|done].
  left. exists io'. split; [done|]. destruct Hres as (? & ? & got & ? & ?). split_and!; [done|done|]. exists got. auto.
Qed.

Lemma read_failed_kept {A} (io io1 : ConnectionIO) (r : outcome A * ST) :
  kept io io1 -> read_failed io1 r -> read_failed io r.
Proof.
  unfold read_failed. destruct r as [[| |] [? ?]]; try done. intros Hk [He Hk']. split; [done|].
  by eapply kept_trans.
Qed.

Lemma read_failed_bind {A B} (m : M ST A) (f : A -> M ST B) io s :
  read_failed io (m s) -> read_failed io ((m ≫= f) s).
Proof. unfold read_failed, mbind, M_bind. by destruct (m s) as [[| |] [? ?]]. Qed.

Lemma await_loop_spec {A} (ready : bytes -> option A) fuel d (io : ConnectionIO) :
  io_wf io -> (budget (stream_ io) < fuel)%nat ->
  (exists a io', await_loop cfg fuel ready (d, io) = (Ret a, (d, io')) /\
     ready (readBuffer io') = Some a /\ took [] io io' /\ exists got, readBuffer io' = readBuffer io ++ got) \/
  read_failed io (await_loop cfg fuel ready (d, io)) /\ ready (readBuffer io) = None.
Proof.
  revert io. induction fuel as [|fuel IH]; intros io Hwf Hf; [lia|]. cbn [await_loop].
  rewrite (mbind_Ret the_io _ _ io (d, io)) by done.
  destruct (ready (readBuffer io)) as [a|] eqn:Er;
    [left; exists a, io; split_and!; [done|done|by apply took_refl|exists []; by rewrite app_nil_r]|].
  destruct (io_read_spec d io Hwf) as [(io1 & E & Ht & Hb & [g1 Hg])|Hfail].
  - rewrite (mbind_Ret _ _ _ _ _ E).
    destruct (IH io1) as [(a & io2 & -> & Ha & Ht2 & [g2 Hg2])|[Hfail _]]; [apply Ht|lia| |].
    + left. exists a, io2. split_and!; [done|done|by apply (took_trans [] [] io io1 io2)|].
      exists (g1 ++ g2). by rewrite Hg2, Hg, app_assoc.
    + right. split; [|done]. by apply (read_failed_kept io io1); [apply Ht|].
  - right. split; [|done]. by apply read_failed_bind.
Qed.

Lemma await_spec {A} (ready : bytes -> option A) d (io : ConnectionIO) :
  io_wf io ->
  (exists a io', await cfg ready (d, io) = (Ret a, (d, io')) /\
     ready (readBuffer io') = Some a /\ took [] io io' /\ exists got, readBuffer io' = readBuffer io ++ got) \/
  read_failed io (await cfg ready (d, io)) /\ ready (readBuffer io) = None.
Proof. intros Hwf. apply await_loop_spec; [done|simpl; lia]. Qed.

Lemma erase_spec n d (io : ConnectionIO) :
  io_wf io -> (n <= length (readBuffer io))%nat ->
  exists io', erase n (d, io) = (Ret tt, (d, io')) /\ took (take n (readBuffer io)) io io' /\
    readBuffer io' = drop n (readBuffer io).
Proof.
  intros Hwf Hn. destruct (took_erase n io Hwf Hn) as (io' & E & ? & ? & _).
  exists io'. unfold erase. cbn [fst snd]. by rewrite E.
Qed.

(** The wire is what is buffered, and then some. *)
Lemma take_wire n (io : ConnectionIO) : (n <= length (readBuffer io))%nat -> take n (wire io) = take n (readBuffer io).
Proof. intros H. unfold wire. by rewrite take_app_le. Qed.

Lemma took_wire n (io io' : ConnectionIO) :
  (n <= length (readBuffer io))%nat -> took (take n (readBuffer io)) io io' -> wire io' = drop n (wire io).
Proof.
  intros Hn Ht. rewrite (tk_wire _ _ _ Ht). rewrite drop_app_ge by (rewrite length_take; lia).
  rewrite length_take, Nat.min_l, Nat.sub_diag by lia. by rewrite drop_0.
Qed.

(** What a chunk-size line does to the decoder. *)
Definition size_decision (d : ChunkDecoder) (line : bytes) : loop_ctl * ChunkDecoder :=
  match from_chars 16 line with
  | None => (Fail MALFORMED, d)
  | Some n =>
      if n =? 0 then (Continue, set_state TRAILER d) else
      if MAX_TE_CHUNK_LENGTH cfg <? n then (Fail CHUNK_TOO_LARGE, d) else
      let total := totalBytes_ d + n in
      if MAX_TE_LENGTH cfg <? total
      then (Fail REQUEST_SIZE_LIMIT_EXCEEDED,
            {| state_ := state_ d; chunkRemaining_ := chunkRemaining_ d; totalBytes_ := total; trailers_ := trailers_ d |})
      else (Continue,
            {| state_ := CHUNK_BODY; chunkRemaining_ := n; totalBytes_ := total; trailers_ := trailers_ d |})
  end.

Lemma on_chunk_size_spec d (io : ConnectionIO) :
  io_wf io -> dec_wf cfg d ->
  (exists i ctl d' io', find_sub CRLF (wire io) = Some i /\
     size_decision d (take i (wire io)) = (ctl, d') /\
     on_chunk_size cfg (d, io) = (Ret ctl, (d', io')) /\ kept io io' /\
     (ctl = Continue -> took (take (i + 2) (wire io)) io io')) \/
  read_failed io (on_chunk_size cfg (d, io)) /\ find_sub CRLF (readBuffer io) = None.
Proof.
  intros Hwf Hd. unfold on_chunk_size.
  destruct (await_spec (find_sub CRLF) d io Hwf) as [(i & io1 & E & Hi & Ht & _)|[Hf ?]];
    [|right; split; [by apply read_failed_bind|done]].
  left. rewrite (mbind_Ret _ _ _ _ _ E). rewrite (mbind_Ret the_io _ _ io1 (d, io1)) by done.
  assert (wire io = wire io1) as Hw by apply Ht.
  destruct (find_sub_Some _ _ _ Hi) as (_ & Hle & _). change (length CRLF) with 2%nat in Hle.
  exists i. rewrite Hw, (take_wire i) by lia. unfold size_decision.
  destruct (from_chars 16 (take i (readBuffer io1))) as [n|] eqn:Ec.
  2: { eexists _, _, io1. split; [by apply find_sub_extend|]. do 2 (split; [done|]). split; [apply Ht|done]. }
  destruct (erase_spec (i + 2) d io1) as (io2 & Ee & Ht2 & Hb); [apply Ht|lia|].
  rewrite (mbind_Ret _ _ _ _ _ Ee).
  pose proof (from_chars_range _ _ _ Ec).
  assert (took (take (i + 2) (wire io1)) io io2) as Htook.
  { rewrite take_wire by lia. by apply (took_trans [] _ io io1 io2). }
  destruct (Z.eqb_spec n 0) as [->|Hn0]; [|destruct (Z.ltb_spec (MAX_TE_CHUNK_LENGTH cfg) n)].
  - eexists _, _, io2. split; [by apply find_sub_extend|]. do 2 (split; [done|]). split; [apply Htook|done].
  - eexists _, _, io2. split; [by apply find_sub_extend|]. do 2 (split; [done|]). split; [apply Htook|done].
  - unfold on_dec, modify, dec, gets, mbind, M_bind. cbn [fst snd totalBytes_].
    destruct Hd as [Htot _]. rewrite u64_small by (unfold is_u64; destruct Hlim as (_ & _ & ?);
      pose proof (scan_nonneg 16 (take i (readBuffer io1)) n ltac:(lia) Ec); lia).
    destruct (Z.ltb_spec (MAX_TE_LENGTH cfg) (totalBytes_ d + n)).
    all: eexists _, _, io2; split; [by apply find_sub_extend|]; do 2 (split; [done|]); split; [apply Htook|done].
Qed.

(** Space for at least one byte: the loop gets on. *)
Lemma on_chunk_body_spec space d (io : ConnectionIO) :
  io_wf io -> (0 < space)%nat -> 0 < chunkRemaining_ d ->
  (exists copied io', on_chunk_body cfg space (d, io) = (Ret copied, (chunk_copied (length copied) d, io')) /\
     took copied io io' /\ (io_measure io' < io_measure io)%nat /\
     (length copied <= space)%nat /\ Z.of_nat (length copied) <= chunkRemaining_ d) \/
  read_failed io (on_chunk_body cfg space (d, io)) /\ readBuffer io = [].
Proof.
  intros Hwf Hs Hr. unfold on_chunk_body. rewrite (mbind_Ret the_io _ _ io (d, io)) by done.
  rewrite <- readBuffer_length.
  assert ((exists io1, mwhen (bool_decide (length (readBuffer io) = 0%nat)) (io_read cfg) (d, io) = (Ret tt, (d, io1)) /\
             took [] io io1 /\ ((io_measure io1 < io_measure io)%nat \/ (0 < length (readBuffer io1))%nat)) \/
          read_failed io (mwhen (bool_decide (length (readBuffer io) = 0%nat)) (io_read cfg) (d, io)) /\ readBuffer io = [])
    as [(io1 & E & Ht & Hm)|[Hf ?]]; [| |right; split; [by apply read_failed_bind|done]].
  { case_bool_decide as Hb; cbn [mwhen].
    - apply nil_length_inv in Hb. destruct (io_read_spec d io Hwf) as [(io1 & E & Ht & Hlt & [got Hg])|]; [left|by right].
      exists io1. split_and!; [done|done|]. unfold io_measure. rewrite Hb in *. cbn [app] in Hg.
      pose proof (tk_measure _ _ _ Ht) as Hm. unfold io_measure in Hm. rewrite Hb in Hm.
      destruct (readBuffer io1); simpl in *; lia.
    - left. exists io. split_and!; [done|by apply took_refl|lia]. }
  left. rewrite (mbind_Ret _ _ _ _ _ E). rewrite (mbind_Ret the_io _ _ io1 (d, io1)) by done.
  rewrite (mbind_Ret dec _ _ d (d, io1)) by done. cbv zeta. rewrite <- readBuffer_length.
  set (n := Nat.min _ _).
  destruct (erase_spec n d io1) as (io2 & Ee & Ht2 & _); [apply Ht|lia|]. rewrite (mbind_Ret _ _ _ _ _ Ee).
  assert (length (take n (readBuffer io1)) = n) as Hl by (rewrite length_take; lia).
  exists (take n (readBuffer io1)), io2. rewrite Hl.
  pose proof (took_trans [] _ io io1 io2 Ht Ht2) as Htook. cbn [app] in Htook.
  split_and!; [done|done| |lia|lia].
  pose proof (tk_measure _ _ _ Ht) as M1. pose proof (tk_measure _ _ _ Ht2) as M2. rewrite Hl in M2. simpl in M1.
  destruct Hm as [Hm|Hm]; [lia|]. assert (0 < n)%nat by lia. lia.
Qed.

Lemma on_chunk_crlf_spec d (io : ConnectionIO) :
  io_wf io ->
  (exists a b rest io', wire io = a :: b :: rest /\ kept io io' /\
     if Ascii.eqb a CR && Ascii.eqb b LF
     then on_chunk_crlf cfg (d, io) = (Ret Continue, (set_state CHUNK_SIZE d, io')) /\ took [a; b] io io'
     else on_chunk_crlf cfg (d, io) = (Ret (Fail MALFORMED), (d, io'))) \/
  read_failed io (on_chunk_crlf cfg (d, io)) /\ (length (readBuffer io) < 2)%nat.
Proof.
  intros Hwf. unfold on_chunk_crlf.
  destruct (await_spec (fun s => match s with a :: b :: _ => Some (a, b) | _ => None end) d io Hwf)
    as [([a b] & io1 & E & Hi & Ht & _)|[Hf Hn]].
  - left. rewrite (mbind_Ret _ _ _ _ _ E). destruct (readBuffer io1) as [|a' [|b' rest]] eqn:Er; try done.
    injection Hi as -> ->. exists a, b. assert (wire io = wire io1) as Hw by apply Ht.
    exists (rest ++ incoming (stream_ io1)). rewrite Hw. unfold wire at 1. rewrite Er.
    destruct (Ascii.eqb a CR && Ascii.eqb b LF) eqn:Eab; rewrite <- negb_andb, Eab; cbn [negb].
    + destruct (erase_spec 2 d io1) as (io2 & Ee & Ht2 & Hb); [apply Ht|rewrite Er; simpl; lia|].
      rewrite Er in Ht2. cbn [take] in Ht2. pose proof (took_trans [] _ io io1 io2 Ht Ht2) as Htook.
      exists io2. split; [done|]. split; [apply Htook|]. by rewrite (mbind_Ret _ _ _ _ _ Ee).
    + exists io1. split_and!; [done|apply Ht|done].
  - right. split; [by apply read_failed_bind|]. destruct (readBuffer io) as [|? [|? ?]]; simpl; [lia|lia|done].
Qed.

(** The end of the body: a bare CRLF that has already been received, or everything
    up to an empty line. *)
Lemma on_trailer_spec d (io : ConnectionIO) :
  io_wf io ->
  (exists d' io', on_trailer cfg (d, io) = (Ret Break, (d', io')) /\
     state_ d' = BODY_DONE /\ chunkRemaining_ d' = chunkRemaining_ d /\ totalBytes_ d' = totalBytes_ d /\
     if prefixb CRLF (readBuffer io) then took CRLF io io' /\ trailers_ d' = trailers_ d
     else exists i, find_sub CRLF2 (wire io) = Some i /\ took (take (i + 4) (wire io)) io io' /\
       trailers_ d' = take i (wire io)) \/
  read_failed io (on_trailer cfg (d, io)) /\ prefixb CRLF (readBuffer io) = false /\
    find_sub CRLF2 (readBuffer io) = None.
Proof.
  intros Hwf. unfold on_trailer. rewrite (mbind_Ret the_io _ _ io (d, io)) by done.
  destruct (prefixb CRLF (readBuffer io)) eqn:Ep.
  - apply prefixb_spec in Ep as [r Er].
    destruct (erase_spec 2 d io Hwf) as (io2 & Ee & Ht2 & Hb); [rewrite Er; simpl; lia|].
    rewrite Er in Ht2. change (take 2 (CRLF ++ r)) with CRLF in Ht2.
    left. eexists _, io2. rewrite (mbind_Ret _ _ _ _ _ Ee). by split_and!.
  - destruct (await_spec (find_sub CRLF2) d io Hwf) as [(i & io1 & E & Hi & Ht & _)|[Hf ?]];
      [|right; split_and!; [by apply read_failed_bind|done|done]].
    left. rewrite (mbind_Ret _ _ _ _ _ E). rewrite (mbind_Ret the_io _ _ io1 (d, io1)) by done.
    assert (wire io = wire io1) as Hw by apply Ht.
    destruct (find_sub_Some _ _ _ Hi) as (_ & Hle & _). change (length CRLF2) with 4%nat in Hle.
    rewrite on_dec_bind.
    pose proof (fun d1 => erase_spec (i + 4) d1 io1 ltac:(apply Ht) ltac:(lia)) as He.
    edestruct He as (io2 & Ee & Ht2 & Hb). rewrite (mbind_Ret _ _ _ _ _ Ee).
    eexists _, io2. split; [done|]. split_and!; [done..|].
    exists i. rewrite Hw, !take_wire by lia. split; [by apply find_sub_extend|]. split; [|done].
    by apply (took_trans [] _ io io1 io2).
Qed.

(** After a step that took [c] and delivered [data]. *)
Lemma decoded_step size written data body tail c (io io1 : ConnectionIO) r :
  took c io io1 -> decoded cfg size (written ++ data) body tail io1 r ->
  decoded cfg size written (data ++ body) tail io r.
Proof.
  intros Ht. pose proof (kept_all_received _ _ (tk_kept _ _ _ Ht)) as Hi. destruct Ht as [Hk _ _]. unfold decoded.
  destruct r as [[[out|]| |] [d' io']]; try done.
  - intros (Hk2 & Hs & data2 & body' & -> & -> & H). split; [by eapply kept_trans|]. split; [done|].
    exists (data ++ data2), body'. rewrite <- !app_assoc in *. do 2 (split; [done|]).
    destruct H as [H|(H1 & H2 & H3 & H4)]; [by left|right]. split_and!; auto.
  - intros (He & Hk2 & H). split_and!; [done|by eapply kept_trans|auto].
Qed.

Lemma failed_decoded size written body tail (io : ConnectionIO) (r : outcome (bytes + ChunkError) * ST) :
  read_failed io r -> (incoming (stream_ io) = [] -> prefixb CRLF tail = false /\ find_sub CRLF2 tail = None) ->
  decoded cfg size written body tail io r.
Proof. unfold read_failed, decoded. destruct r as [[| |] [? ?]]; try done. intros [? ?] ?. by split_and!. Qed.

Lemma wire_buffered (io : ConnectionIO) : incoming (stream_ io) = [] -> wire io = readBuffer io.
Proof. intros H. unfold wire. by rewrite H, app_nil_r. Qed.

Lemma dec_set_wf st d : dec_wf cfg d -> chunkRemaining_ d = 0 -> st <> CHUNK_BODY -> dec_wf cfg (set_state st d).
Proof.
  intros [H1 H2] Hr Hst. split; [done|]. cbn [state_ set_state chunkRemaining_].
  by destruct st.
Qed.

(** What the induction over the iterations of the loop knows. *)
Definition loop_ok (fuel size : nat) (tail : bytes) : Prop := forall written d (io : ConnectionIO) body,
  (io_measure io < fuel)%nat -> io_wf io -> dec_wf cfg d -> (length written <= size)%nat ->
  state_ d <> BODY_DONE -> dec_decodes cfg d (wire io) body tail ->
  decoded cfg size written body tail io (readSome_loop cfg fuel size written (d, io)).

Lemma loop_size fuel size tail written d (io : ConnectionIO) body :
  loop_ok fuel size tail -> state_ d = CHUNK_SIZE -> (length written < size)%nat ->
  (io_measure io < S fuel)%nat -> io_wf io -> dec_wf cfg d -> dec_decodes cfg d (wire io) body tail ->
  decoded cfg size written body tail io (readSome_loop cfg (S fuel) size written (d, io)).
Proof.
  intros IH Est Hlt Hf Hwf Hd Hdec. cbn [readSome_loop]. rewrite bool_decide_eq_true_2 by done.
  rewrite (mbind_Ret dec _ _ d (d, io)), Est by done.
  assert (length written <= size)%nat as Hw by lia.
  unfold dec_decodes in Hdec. pose proof Hd as [Htot Hrem]. rewrite Est in *.
  destruct (on_chunk_size_spec d io Hwf Hd) as [(i & ctl & d' & io' & Hi & Hdecide & E & Hk & Htook)|[Hfail Hnone]].
  2: { apply failed_decoded; [by apply read_failed_bind|]. intros Hin. rewrite <- (wire_buffered _ Hin) in Hnone.
       inversion Hdec; congruence. }
  rewrite (mbind_Ret _ _ _ _ _ E). unfold size_decision in Hdecide.
  assert (took (take (i + 2) (wire io)) io io' -> wire io' = drop (i + 2) (wire io)) as Hdrop.
  { intros Ht. pose proof (tk_wire _ _ _ Ht) as Hwi. rewrite <- (take_drop (i + 2) (wire io)) in Hwi at 1.
    by apply app_inv_head in Hwi. }
  assert (took (take (i + 2) (wire io)) io io' -> (io_measure io' < io_measure io)%nat) as Hmeas.
  { intros Ht. pose proof (tk_measure _ _ _ Ht) as Hm. destruct (find_sub_Some _ _ _ Hi) as (_ & Hle & _).
    change (length CRLF) with 2%nat in Hle. rewrite length_take in Hm. lia. }
  inversion Hdec as [? ? ? i' n ? ? Hi' Hn Hrange Hsum Hnext|? ? ? i' Hi' Hn| | |]; subst;
    rewrite Hi in Hi'; injection Hi' as <-; rewrite Hn in Hdecide.
  + destruct (Z.eqb_spec n 0); [lia|]. destruct (Z.ltb_spec (MAX_TE_CHUNK_LENGTH cfg) n); [lia|].
    destruct (Z.ltb_spec (MAX_TE_LENGTH cfg) (totalBytes_ d + n)); [lia|].
    injection Hdecide as <- <-. specialize (Htook eq_refl).
    apply (decoded_step size written [] body tail _ io io' _ Htook). rewrite app_nil_r.
    apply IH; [specialize (Hmeas Htook); lia|apply Htook| |done|done|].
    * split; [simpl; lia|]. simpl. lia.
    * unfold dec_decodes. cbn. rewrite Hdrop by done. exact Hnext.
  + injection Hdecide as <- <-. specialize (Htook eq_refl).
    apply (decoded_step size written [] [] _ _ io io' _ Htook). rewrite app_nil_r.
    apply IH; [specialize (Hmeas Htook); lia|apply Htook|by apply dec_set_wf|done|done|].
    unfold dec_decodes. cbn. rewrite Hdrop by done. constructor.
Qed.

Lemma loop_body fuel size tail written d (io : ConnectionIO) body :
  loop_ok fuel size tail -> state_ d = CHUNK_BODY -> (length written < size)%nat ->
  (io_measure io < S fuel)%nat -> io_wf io -> dec_wf cfg d -> dec_decodes cfg d (wire io) body tail ->
  decoded cfg size written body tail io (readSome_loop cfg (S fuel) size written (d, io)).
Proof.
  intros IH Est Hlt Hf Hwf Hd Hdec. cbn [readSome_loop]. rewrite bool_decide_eq_true_2 by done.
  rewrite (mbind_Ret dec _ _ d (d, io)), Est by done.
  assert (length written <= size)%nat as Hw by lia.
  unfold dec_decodes in Hdec. pose proof Hd as [Htot Hrem]. rewrite Est in *.
  inversion Hdec as [| |? ? c w body' ? Hc Hlen Hnext| |]; subst.
  match goal with H : _ = wire io |- _ => rename H into Hcw end.
  destruct (on_chunk_body_spec (size - length written) d io Hwf ltac:(lia)) as
    [(copied & io' & E & Htook & Hmeas & Hsp & Hle)|[Hfail Hnone]].
  { assert (0 < length c)%nat by (destruct c; [done|simpl; lia]). lia. }
  2: { apply failed_decoded; [by apply read_failed_bind|]. intros Hin. rewrite <- (wire_buffered _ Hin) in Hnone.
       destruct c; [done|]. simpl in *; congruence. }
  rewrite (mbind_Ret _ _ _ _ _ E).
  pose proof (tk_wire _ _ _ Htook) as Hwire. rewrite <- Hcw in Hwire.
  assert (exists c2, c = copied ++ c2 /\ wire io' = c2 ++ w) as (c2 & -> & Hw').
  { apply app_eq_app in Hwire as (l & [[H1 H2]|[H1 H2]]).
    - exists l. by split.
    - assert (l = []) as ->. { apply nil_length_inv. apply (f_equal length) in H1. rewrite length_app in H1. lia. }
      exists []. rewrite app_nil_r in *. by subst. }
  rewrite <- app_assoc. apply (decoded_step size written copied (c2 ++ body') tail _ io io' _ Htook).
  rewrite length_app in Hlen.
  apply IH; [lia|apply Htook| |rewrite length_app; lia| |].
  + split; cbn; [done|]. destruct (Z.eqb_spec (chunkRemaining_ d - Z.of_nat (length copied)) 0); cbn; [done|].
    rewrite Est. cbn. lia.
  + cbn. destruct (_ =? 0); [done|congruence].
  + unfold dec_decodes. cbn. rewrite Hw'.
    destruct (Z.eqb_spec (chunkRemaining_ d - Z.of_nat (length copied)) 0) as [Hz|Hz].
    * assert (c2 = []) as -> by (apply nil_length_inv; lia). rewrite Hz. exact Hnext.
    * rewrite Est. constructor; [intros ->; simpl in *; lia|lia|done].
Qed.

Lemma loop_crlf fuel size tail written d (io : ConnectionIO) body :
  loop_ok fuel size tail -> state_ d = CHUNK_CRLF -> (length written < size)%nat ->
  (io_measure io < S fuel)%nat -> io_wf io -> dec_wf cfg d -> dec_decodes cfg d (wire io) body tail ->
  decoded cfg size written body tail io (readSome_loop cfg (S fuel) size written (d, io)).
Proof.
  intros IH Est Hlt Hf Hwf Hd Hdec. cbn [readSome_loop]. rewrite bool_decide_eq_true_2 by done.
  rewrite (mbind_Ret dec _ _ d (d, io)), Est by done.
  assert (length written <= size)%nat as Hw by lia.
  unfold dec_decodes in Hdec. pose proof Hd as [Htot Hrem]. rewrite Est in *.
  inversion Hdec as [| | |? w ? ? Hnext|]; subst.
  match goal with H : _ = wire io |- _ => rename H into Hcw end.
  destruct (on_chunk_crlf_spec d io Hwf) as [(a & b & rest & io' & Hwi & Hk & Hres)|[Hfail Hnone]].
  2: { apply failed_decoded; [by apply read_failed_bind|]. intros Hin. rewrite <- (wire_buffered _ Hin), <- Hcw in Hnone.
       simpl in Hnone. exfalso. lia. }
  rewrite <- Hcw in Hwi. injection Hwi as <- <- <-. destruct Hres as [E Htook].
  rewrite (mbind_Ret _ _ _ _ _ E).
  apply (decoded_step size written [] body tail _ io io' _ Htook). rewrite app_nil_r.
  pose proof (tk_measure _ _ _ Htook) as Hm. simpl in Hm.
  apply IH; [lia|apply Htook|by apply dec_set_wf|done|done|].
  unfold dec_decodes. cbn. rewrite Hrem. pose proof (tk_wire _ _ _ Htook) as Hwire. rewrite <- Hcw in Hwire.
  injection Hwire as Hwire. by rewrite <- Hwire.
Qed.

Lemma loop_trailer fuel size tail written d (io : ConnectionIO) body :
  loop_ok fuel size tail -> state_ d = TRAILER -> (length written < size)%nat ->
  (io_measure io < S fuel)%nat -> io_wf io -> dec_wf cfg d -> dec_decodes cfg d (wire io) body tail ->
  decoded cfg size written body tail io (readSome_loop cfg (S fuel) size written (d, io)).
Proof.
  intros IH Est Hlt Hf Hwf Hd Hdec. cbn [readSome_loop]. rewrite bool_decide_eq_true_2 by done.
  rewrite (mbind_Ret dec _ _ d (d, io)), Est by done.
  assert (length written <= size)%nat as Hw by lia.
  unfold dec_decodes in Hdec. pose proof Hd as [Htot Hrem]. rewrite Est in *.
  inversion Hdec as [| | | |]; subst.
  destruct (on_trailer_spec d io Hwf) as [(d' & io' & E & Hst & Hr' & Ht' & Hres)|(Hfail & Hp & Hnone)].
  2: { apply failed_decoded; [by apply read_failed_bind|]. intros Hin. by rewrite (wire_buffered _ Hin). }
  rewrite (mbind_Ret _ _ _ _ _ E). unfold mret, M_ret, decoded. split.
  { destruct (prefixb CRLF (readBuffer io)); [apply Hres|destruct Hres as (? & _ & H & _); apply H]. }
  split; [done|]. exists [], []. rewrite app_nil_r. do 2 (split; [done|]). right. do 2 (split; [done|]).
  unfold body_end. destruct (prefixb CRLF (readBuffer io)) eqn:Ep.
  + destruct Hres as [Htook _]. pose proof (tk_wire _ _ _ Htook). auto.
  + destruct Hres as (i & Hi & Htook & Htr). split.
    * right. exists i. split_and!; [done|done|]. pose proof (tk_wire _ _ _ Htook) as Hwi.
      rewrite <- (take_drop (i + 4) (wire io)) in Hwi at 1. by apply app_inv_head in Hwi.
    * intros Hin. rewrite (wire_buffered _ Hin). congruence.
Qed.

Lemma readSome_loop_spec fuel size tail : loop_ok fuel size tail.
Proof.
  induction fuel as [|fuel IH]; intros written d io body Hf Hwf Hd Hw Hnd Hdec; [lia|].
  destruct (decide (length written < size)%nat) as [Hlt|Hlt].
  - destruct (state_ d) eqn:Est; [by apply loop_size|by apply loop_body|by apply loop_crlf|by apply loop_trailer|done].
  - cbn [readSome_loop]. rewrite bool_decide_eq_false_2 by done. unfold mret, M_ret, decoded.
    split; [by apply kept_refl|]. split; [done|]. exists [], body. rewrite app_nil_r.
    do 2 (split; [done|]). left. split_and!; done || lia.
Qed.

(** What [readSome] does on any input. *)
Definition bounded (size : nat) (written : bytes) (d : ChunkDecoder) (io : ConnectionIO)
    (r : outcome (bytes + ChunkError) * ST) : Prop :=
  match r with
  | (Ret (inl out), (d', io')) =>
      kept io io' /\ (length out <= size)%nat /\ (length out = size \/ state_ d' = BODY_DONE) /\ dec_wf cfg d' /\
      (io_measure io' + length out <= io_measure io + length written)%nat /\
      totalBytes_ d' - chunkRemaining_ d' + Z.of_nat (length written) =
        totalBytes_ d - chunkRemaining_ d + Z.of_nat (length out)
  | (Ret (inr _), (_, io')) => kept io io'
  | (Throw e, (_, io')) => net_exn e /\ kept io io'
  | (Undef, _) => False
  end.

Lemma bounded_step size written written' d d1 (io io1 : ConnectionIO) r :
  kept io io1 -> (io_measure io1 + length written' <= io_measure io + length written)%nat ->
  totalBytes_ d1 - chunkRemaining_ d1 + Z.of_nat (length written) =
    totalBytes_ d - chunkRemaining_ d + Z.of_nat (length written') ->
  bounded size written' d1 io1 r -> bounded size written d io r.
Proof.
  intros Hk Hm Hd. unfold bounded. destruct r as [[[out|e]| e|] [d' io']]; try done.
  - intros (Hk2 & Hs & Hend & Hwf & Hm2 & Hacc). split_and!; try done; [by eapply kept_trans|lia|lia].
  - intros Hk2. by eapply kept_trans.
  - intros [He Hk2]. split; [done|]. by eapply kept_trans.
Qed.

Lemma failed_bounded size written d (io : ConnectionIO) (r : outcome (bytes + ChunkError) * ST) :
  read_failed io r -> bounded size written d io r.
Proof. unfold read_failed, bounded. by destruct r as [[| |] [? ?]]. Qed.

Lemma size_decision_wf d line n d' :
  dec_wf cfg d -> chunkRemaining_ d = 0 -> from_chars 16 line = Some n -> size_decision d line = (Continue, d') ->
  dec_wf cfg d' /\ totalBytes_ d' - chunkRemaining_ d' = totalBytes_ d - chunkRemaining_ d /\
  (state_ d' = TRAILER \/ state_ d' = CHUNK_BODY).
Proof.
  intros Hd Hr Hn. unfold size_decision. rewrite Hn. pose proof (scan_nonneg 16 line n ltac:(lia) Hn).
  destruct (Z.eqb_spec n 0); [|destruct (Z.ltb_spec (MAX_TE_CHUNK_LENGTH cfg) n); [done|];
    destruct (Z.ltb_spec (MAX_TE_LENGTH cfg) (totalBytes_ d + n)); [done|]]; intros [= <-].
  - split; [by apply dec_set_wf|]. simpl. auto.
  - destruct Hd as [Htot _]. split; [split; simpl; lia|]. simpl. split; [lia|auto].
Qed.

Lemma readSome_loop_bounded fuel size written d (io : ConnectionIO) :
  (io_measure io < fuel)%nat -> io_wf io -> dec_wf cfg d -> (length written <= size)%nat ->
  bounded size written d io (readSome_loop cfg fuel size written (d, io)).
Proof.
  revert written d io. induction fuel as [|fuel IH]; intros written d io Hf Hwf Hd Hw; [lia|].
  pose proof Hd as [Htot Hrem]. cbn [readSome_loop]. case_bool_decide as Hlt.
  2: { unfold mret, M_ret, bounded. split_and!; [by apply kept_refl|done|lia|done|lia|lia]. }
  rewrite (mbind_Ret dec _ _ d (d, io)) by done. destruct (state_ d) eqn:Est; cbn in Hrem.
  - destruct (on_chunk_size_spec d io Hwf Hd) as [(i & ctl & d' & io' & Hi & Hdecide & E & Hk & Htook)|[Hfail _]];
      [|by apply failed_bounded, read_failed_bind].
    rewrite (mbind_Ret _ _ _ _ _ E). destruct (find_sub_Some _ _ _ Hi) as (_ & Hle & _).
    change (length CRLF) with 2%nat in Hle.
    destruct (from_chars 16 (take i (wire io))) as [n|] eqn:En.
    2: { unfold size_decision in Hdecide. rewrite En in Hdecide. by injection Hdecide as <- <-. }
    destruct ctl as [| |e]; [specialize (Htook eq_refl)|exfalso|done].
    + destruct (size_decision_wf _ _ _ _ Hd Hrem En Hdecide) as (Hd' & Hacc & _).
      pose proof (tk_measure _ _ _ Htook) as Hm. rewrite length_take in Hm.
      apply (bounded_step size written written d d' io io'); [done|lia|lia|]. apply IH; try done; [lia|apply Hk].
    + revert Hdecide. unfold size_decision. rewrite En. by repeat case_match.
  - destruct (on_chunk_body_spec (size - length written) d io Hwf ltac:(lia) ltac:(lia)) as
      [(copied & io' & E & Htook & Hmeas & Hsp & Hle)|[Hfail _]]; [|by apply failed_bounded, read_failed_bind].
    rewrite (mbind_Ret _ _ _ _ _ E).
    apply (bounded_step size written (written ++ copied) d (chunk_copied (length copied) d) io io'); [apply Htook| |rewrite length_app; cbn; lia|].
    { pose proof (tk_measure _ _ _ Htook). rewrite length_app. lia. }
    apply IH; [lia|apply Htook| |rewrite length_app; lia].
    split; cbn; [done|]. destruct (Z.eqb_spec (chunkRemaining_ d - Z.of_nat (length copied)) 0); [done|].
    rewrite Est. lia.
  - destruct (on_chunk_crlf_spec d io Hwf) as [(a & b & rest & io' & _ & Hk & Hres)|[Hfail _]];
      [|by apply failed_bounded, read_failed_bind].
    destruct (Ascii.eqb a CR && Ascii.eqb b LF).
    + destruct Hres as [E Htook]. rewrite (mbind_Ret _ _ _ _ _ E). pose proof (tk_measure _ _ _ Htook) as Hm.
      simpl in Hm. apply (bounded_step size written written d (set_state CHUNK_SIZE d) io io'); [done|lia|done|].
      apply IH; [lia|apply Hk|by apply dec_set_wf|done].
    + by rewrite (mbind_Ret _ _ _ _ _ Hres).
  - destruct (on_trailer_spec d io Hwf) as [(d' & io' & E & Hst & Hr' & Ht' & Hres)|(Hfail & _)];
      [|by apply failed_bounded, read_failed_bind].
    rewrite (mbind_Ret _ _ _ _ _ E). unfold mret, M_ret, bounded. split_and!; [|done|by right| | |lia].
    + destruct (prefixb CRLF (readBuffer io)); [apply Hres|destruct Hres as (? & _ & H & _); apply H].
    + split; [lia|]. by rewrite Hst, Hr'.
    + destruct (prefixb CRLF (readBuffer io)); [destruct Hres as [Ht _]|destruct Hres as (? & _ & Ht & _)];
        apply tk_measure in Ht; lia.
  - unfold mret, M_ret, bounded. split_and!; [by apply kept_refl|done|by right|done|lia|lia].
Qed.

(** What [HttpStreamResponse] writes for a body is an encoding of it. *)
Definition encoded (chunks : list bytes) : bytes := concat (chunk_bytes <$> chunks) ++ chunk_bytes [].

Lemma chunk_line_find n rest : is_u64 n -> find_sub CRLF (to_chars 16 n ++ CRLF ++ rest) = Some (length (to_chars 16 n)).
Proof.
  intros Hn. apply (find_sub_app_notin CR [LF]). apply to_chars_notin; [lia|apply Hn|done].
Qed.

Lemma encoded_decodes chunks rest total :
  Forall (fun c => 0 < Z.of_nat (length c) <= MAX_TE_CHUNK_LENGTH cfg) chunks ->
  0 <= total -> total + Z.of_nat (length (concat chunks)) <= MAX_TE_LENGTH cfg ->
  decodes cfg CHUNK_SIZE 0 total (encoded chunks ++ rest) (concat chunks) (CRLF ++ rest).
Proof.
  destruct Hlim as (_ & _ & Hcap). unfold encoded. intros Hall. revert total.
  induction Hall as [|c chunks Hc Hall IH]; intros total Ht Hsum; cbn [fmap list_fmap concat app].
  - apply (de_last cfg 0 total ("0" ++ CRLF ++ CRLF ++ rest) 1); reflexivity.
  - cbn [concat] in Hsum. rewrite length_app in Hsum. unfold chunk_bytes at 1. rewrite <- !app_assoc.
    set (n := Z.of_nat (length c)) in *. assert (is_u64 n) as Hn by (unfold is_u64; lia).
    eapply (de_size cfg 0 total _ (length (to_chars 16 n)) n).
    + by apply chunk_line_find.
    + rewrite take_app_length. apply from_chars_to_chars; [lia|done].
    + done.
    + lia.
    + rewrite drop_app_length_plus. change (drop 2 (CRLF ++ ?x)) with x. constructor; [intros ->; simpl in *; lia|done|].
      constructor. rewrite app_assoc. apply IH; lia.
Qed.
End Lemmas.

(** ** Properties *)
Section Props.
Context {K : Type} {N : Net K} (cfg : ServerConfig).
#[local] Abbreviation ConnectionIO := (ConnectionIO K).

(** C3: however the peer's bytes are segmented, and whatever was read before, a
    read delivers the next bytes of the encoded body, as many as fit unless the
    body ends, and is never refused; it can only fail with the connection. *)
Theorem readSome_decodes size d (io : ConnectionIO) body tail :
  limits_ok cfg -> io_wf io -> dec_wf cfg d -> state_ d <> BODY_DONE ->
  dec_decodes cfg d (wire io) body tail ->
  decoded cfg size [] body tail io (readSome cfg size (d, io)).
Proof.
  intros Hlim Hwf Hd Hnd Hdec. unfold readSome, isDone. cbn [fst snd]. rewrite bool_decide_eq_false_2 by done.
  apply readSome_loop_spec; simpl; done || lia.
Qed.

(** C19: on any input a read ends without undefined behaviour, delivers at most what
    fits, and keeps the account of the body: what was ever delivered is
    [totalBytes_ - chunkRemaining_], at most [MAX_TE_LENGTH]. *)
Theorem readSome_bounded size d (io : ConnectionIO) :
  limits_ok cfg -> io_wf io -> dec_wf cfg d ->
  bounded cfg size [] d io (readSome cfg size (d, io)).
Proof.
  intros Hlim Hwf Hd. unfold readSome, isDone. cbn [fst snd]. case_bool_decide as Hs.
  - unfold bounded. split_and!; [by apply kept_refl|simpl; lia|by right|done|simpl; lia|simpl; lia].
  - apply readSome_loop_bounded; simpl; done || lia.
Qed.

(** what the response serializer writes as chunks, the decoder reads back
    exactly, and leaves what follows the body in the buffer. *)
Theorem chunks_roundtrip size (io : ConnectionIO) chunks rest :
  limits_ok cfg -> io_wf io -> incoming (stream_ io) = [] ->
  Forall (fun c => 0 < Z.of_nat (length c) <= MAX_TE_CHUNK_LENGTH cfg) chunks ->
  Z.of_nat (length (concat chunks)) <= MAX_TE_LENGTH cfg -> (length (concat chunks) < size)%nat ->
  readBuffer io = encoded chunks ++ rest ->
  exists d' io', readSome cfg size (ChunkDecoder_reset, io) = (Ret (inl (concat chunks)), (d', io')) /\
    isDone d' = true /\ readBuffer io' = rest.
Proof.
  intros Hlim Hwf Hin Hall Hsum Hsize Hb.
  assert (dec_decodes cfg ChunkDecoder_reset (wire io) (concat chunks) (CRLF ++ rest)) as Hdec.
  { unfold wire. rewrite Hin, app_nil_r, Hb. apply encoded_decodes; [done|done|done|simpl; lia]. }
  assert (decoded cfg size [] (concat chunks) (CRLF ++ rest) io (readSome cfg size (ChunkDecoder_reset, io))) as Hd.
  { unfold readSome, isDone. cbn [fst snd]. rewrite bool_decide_eq_false_2 by done.
    apply readSome_loop_spec; simpl; try done; try lia. split; simpl; [|done]. destruct Hlim; lia. }
  unfold decoded in Hd. destruct (readSome cfg size _) as [[[out|]|e|] [d' io']]; try done.
  - destruct Hd as (Hk & _ & data & body' & -> & Hbody & [(_ & Hlen & _)|(Hst & -> & _ & Hend)]).
    { apply (f_equal length) in Hbody. rewrite length_app in Hbody. simpl in Hlen. lia. }
    exists d', io'. rewrite app_nil_r in Hbody. rewrite Hbody. split; [done|]. split.
    + unfold isDone. by rewrite bool_decide_eq_true_2.
    + specialize (Hend Hin (prefixb_app _ _)). apply app_inv_head in Hend. unfold wire in Hend.
      by rewrite (kept_all_received _ _ Hk Hin), app_nil_r in Hend.
  - destruct Hd as (_ & _ & H). destruct (H Hin) as [H1 _]. by rewrite prefixb_app in H1.
Qed.

(** What became of a request pipelined behind the body. *)
Definition swallowed (trailers rest : bytes) (r : outcome (bytes + ChunkError) * (ChunkDecoder * ConnectionIO)) : Prop :=
  match r with
  | (Ret r, (d', io')) => r = inl [] /\ isDone d' = true /\ trailers_ d' = trailers /\ wire io' = rest
  | (Throw e, _) => net_exn e
  | (Undef, _) => False
  end.

Lemma swallow_failed trailers rest (io : ConnectionIO) r : read_failed io r -> swallowed trailers rest r.
Proof. unfold read_failed, swallowed. destruct r as [[| |] [? ?]]; naive_solver. Qed.

(** the bare CRLF that ends a body without trailers is recognised only if it
    was received before the decoder looks for it; when it comes later, together
    with a pipelined request, the head of that request is taken for trailers. *)
Theorem trailer_race size d (io : ConnectionIO) head rest :
  limits_ok cfg -> io_wf io -> (0 < size)%nat -> state_ d = TRAILER -> readBuffer io = [] ->
  incoming (stream_ io) = CRLF ++ head ++ CRLF2 ++ rest ->
  find_sub CRLF2 (CRLF ++ head ++ CRLF2 ++ rest) = Some (length (CRLF ++ head)) ->
  swallowed (CRLF ++ head) rest (readSome cfg size (d, io)).
Proof.
  intros Hlim Hwf Hs Hst Hb Hin Hf. unfold readSome, isDone. cbn [fst snd].
  rewrite bool_decide_eq_false_2 by congruence. cbn [readSome_loop]. rewrite bool_decide_eq_true_2 by done.
  rewrite (mbind_Ret dec _ _ d (d, io)), Hst by done.
  destruct (on_trailer_spec cfg Hlim d io Hwf) as [(d' & io' & E & Hst' & _ & _ & Hres)|(Hfail & _)].
  - rewrite (mbind_Ret _ _ _ _ _ E). unfold mret, M_ret, swallowed. rewrite Hb in Hres. cbn [prefixb CRLF] in Hres.
    destruct Hres as (i & Hi & Htook & Htr). pose proof (tk_wire _ _ _ Htook) as Hw.
    assert (wire io = (CRLF ++ head) ++ CRLF2 ++ rest) as Hwi
      by (unfold wire; by rewrite Hb, Hin, app_nil_l, app_assoc).
    rewrite app_assoc, <- Hwi in Hf. assert (i = length (CRLF ++ head)) as -> by congruence. split; [done|].
    split; [by apply bool_decide_eq_true_2|]. rewrite Hwi, take_app_length in Htr. split; [done|].
    rewrite Hwi in Hw. rewrite (take_app_add _ _ 4) in Hw. change (take 4 (CRLF2 ++ rest)) with CRLF2 in Hw.
    rewrite <- !app_assoc in Hw. by do 3 apply app_inv_head in Hw.
  - by apply swallow_failed with io, read_failed_bind.
Qed.
End Props.

Module DecoderWitnesses.
Definition kernel (r : list recv_event) : Kernel :=
  {| recv_script := r; send_script := []; timeouts := [false; false]; outbox := []; flag := false |}.

Lemma limits_default : limits_ok default_config.
Proof. vm_compute. split_and!; (done || congruence). Qed.

Definition sample : bytes := "5" ++ CRLF ++ "hello" ++ CRLF ++ "0" ++ CRLF.

(** The body comes in three segments. *)
Definition segmented : ConnectionIO Kernel :=
  ConnectionIO_new (kernel [Arrived (take 4 sample); Arrived (drop 4 sample); NothingYet; Arrived CRLF]).

Lemma readSome_decodes_witness :
  decoded default_config 3 [] "hello" CRLF segmented (readSome default_config 3 (ChunkDecoder_reset, segmented)).
Proof.
  apply (readSome_decodes default_config 3 ChunkDecoder_reset segmented "hello" CRLF).
  - apply limits_default.
  - split; simpl; lia.
  - split; simpl; [split; [lia|by vm_compute]|done].
  - done.
  - apply (de_size default_config 0 0 _ 1 5); [reflexivity|reflexivity|vm_compute; split; congruence|by vm_compute|].
    apply (de_body default_config 5 5 "hello" (CRLF ++ "0" ++ CRLF ++ CRLF) [] CRLF); [done|reflexivity|].
    constructor. apply (de_last default_config 0 5 ("0" ++ CRLF ++ CRLF) 1); reflexivity.
Defined.

Lemma readSome_bounded_witness :
  bounded default_config 3 [] ChunkDecoder_reset segmented (readSome default_config 3 (ChunkDecoder_reset, segmented)).
Proof.
  apply (readSome_bounded default_config 3 ChunkDecoder_reset segmented).
  - apply limits_default.
  - split; simpl; lia.
  - split; simpl; [split; [lia|by vm_compute]|done].
Defined.

Lemma chunks_roundtrip_witness :
  let io := setReadBuffer (encoded ["hello"%string : bytes] ++ "GET /") (ConnectionIO_new (kernel [])) in
  exists d' io', readSome default_config 6 (ChunkDecoder_reset, io) = (Ret (inl ("hello" : bytes)), (d', io')) /\
    isDone d' = true /\ readBuffer io' = "GET /".
Proof.
  intros io. apply (chunks_roundtrip default_config 6 io ["hello"%string : bytes] "GET /").
  - apply limits_default.
  - split; simpl; lia.
  - reflexivity.
  - constructor; [vm_compute; split; congruence|constructor].
  - by vm_compute.
  - simpl. lia.
  - reflexivity.
Defined.

(** The last CRLF comes with the next request, which is lost. *)
Lemma trailer_race_witness :
  let d := set_state TRAILER ChunkDecoder_reset in
  let io := ConnectionIO_new (kernel [Arrived (CRLF ++ "GET /x HTTP/1.1" ++ CRLF ++ "Host: a" ++ CRLF2 ++ "tail"); NothingYet]) in
  exists d' io', readSome default_config 10 (d, io) = (Ret (inl []), (d', io')) /\
    trailers_ d' = CRLF ++ "GET /x HTTP/1.1" ++ CRLF ++ "Host: a" /\ wire io' = "tail".
Proof.
  intros d io.
  pose proof (trailer_race default_config 10 d io ("GET /x HTTP/1.1" ++ CRLF ++ "Host: a") "tail" limits_default
    ltac:(split; simpl; lia) ltac:(lia) eq_refl eq_refl eq_refl ltac:(vm_compute; reflexivity)) as H.
  assert (exists s, readSome default_config 10 (d, io) = (Ret (inl []), s)) as [[d' io'] E]
    by (eexists; vm_compute; reflexivity).
  rewrite E in H. destruct H as (_ & _ & H1 & H2). by exists d', io'.
Defined.
End DecoderWitnesses.
