(* ===== verification/HttpConnection.v ===== *)
(** [HttpConnection.hpp]: the life of a connection in one coroutine: handshake,
    and for each request its header, the body stream, dispatch, drain, response. *)
From S2P Require Import Prelude Bytes Effects ServerConfig HttpTypes BodyStream Net ConnectionIO ChunkDecoder.
From S2P Require HttpRequest HttpResponse HttpStreamResponse HttpFileResponse HeaderStore Router HttpUtils.

#[local] Open Scope Z_scope.
#[local] Arguments list_ascii_of_string : simpl never.

Record HttpConnection (K : Type) := {
  request_ : HttpRequest.HttpRequest;
  chunkDecoder_ : ChunkDecoder;
  io_ : ConnectionIO K;
  keepAlive_ : bool;
}.
Arguments request_ {K}. Arguments chunkDecoder_ {K}. Arguments io_ {K}. Arguments keepAlive_ {K}.

(** ** The state, and a coroutine that may return early *)
Section State.
Context {K : Type} {N : Net K}.
#[local] Abbreviation HttpConnection := (HttpConnection K).

Definition with_request (r : HttpRequest.HttpRequest) (s : HttpConnection) : HttpConnection :=
  {| request_ := r; chunkDecoder_ := chunkDecoder_ s; io_ := io_ s; keepAlive_ := keepAlive_ s |}.

Definition with_io (io : ConnectionIO K) (s : HttpConnection) : HttpConnection :=
  {| request_ := request_ s; chunkDecoder_ := chunkDecoder_ s; io_ := io; keepAlive_ := keepAlive_ s |}.

Definition with_decoder (d : ChunkDecoder) (s : HttpConnection) : HttpConnection :=
  {| request_ := request_ s; chunkDecoder_ := d; io_ := io_ s; keepAlive_ := keepAlive_ s |}.

Definition setKeepAlive (b : bool) (s : HttpConnection) : HttpConnection :=
  {| request_ := request_ s; chunkDecoder_ := chunkDecoder_ s; io_ := io_ s; keepAlive_ := b |}.

#[export] Instance connection_has_request : HasRequest HttpConnection.
Proof. refine {| get_request := request_; put_request := with_request |}; by intros; destruct s. Defined.

(** Code of the decoder and of the buffers, run on the members of the connection. *)
Definition on_io {A} (m : M (ChunkDecoder * ConnectionIO K) A) : M HttpConnection A := fun s =>
  let '(a, (d, io)) := m (chunkDecoder_ s, io_ s) in (a, with_io io (with_decoder d s)).

Definition buffers : M HttpConnection (ConnectionIO K) := gets io_.

(** A function that is total on the buffers but may run into undefined behaviour. *)
Definition on_buffers {A} (f : ConnectionIO K -> outcome (A * ConnectionIO K)) : M HttpConnection A := fun s =>
  match f (io_ s) with
  | Ret (a, io) => (Ret a, with_io io s)
  | Throw e => (Throw e, s)
  | Undef => (Undef, s)
  end.
End State.

#[local] Open Scope co_scope.

(** ** The body streams of a connection *)
Section Body.
Context {K : Type} {N : Net K} (cfg : ServerConfig).
#[local] Abbreviation HttpConnection := (HttpConnection K).

(** The exceptions for the errors of the decoder. *)
Definition chunk_error {A} (e : ChunkError) : M HttpConnection A :=
  match e with
  | MALFORMED => throw (ServerException "Malformed chunk encoding" 400 true)
  | CHUNK_TOO_LARGE => throw (ServerException "Chunk too large" 413 true)
  | REQUEST_SIZE_LIMIT_EXCEEDED => throw (ServerException "Request body size limit exceeded" 413 true)
  end.

Definition decode (size : nat) : M HttpConnection bytes :=
  result ← on_io (readSome cfg size);
  match result with inl data => mret data | inr e => chunk_error e end.

(** [chunkReadFn] *)
Definition chunkReadFn (size : Z) : M HttpConnection bytes :=
  result ← decode (Z.to_nat size);
  d ← gets chunkDecoder_;
  mwhen (isDone d) (modify_request (HttpRequest.setAttribute "chunkTrailers" (getTrailers d)));;
  mret result.

(** [chunkDrainFn]: every block but the last uses up wire or transport. *)
Fixpoint chunk_drain_loop (fuel : nat) : M HttpConnection unit :=
  match fuel with
  | O => undefined
  | Datatypes.S fuel' =>
      result ← decode 4096;
      match result with [] => mret tt | _ => chunk_drain_loop fuel' end
  end.

Definition chunkDrainFn : M HttpConnection unit := fun s =>
  chunk_drain_loop (Datatypes.S (io_measure (io_ s))) s.

(** [std::memcpy(buf.data(), io_.readBufferData(), n); io_.eraseFromReadBuffer(n)] *)
Definition take_bytes (n : nat) : M HttpConnection bytes :=
  io ← buffers;
  on_io (erase n);;
  mret (take n (readBuffer io)).

(** [readFn] of a body with a Content-Length. *)
Definition lengthReadFn (size remaining : Z) : M HttpConnection bytes :=
  io ← buffers;
  if size <=? Z.of_nat (getReadBufferSize io) then take_bytes (Z.to_nat size) else
  if remaining <=? Z.of_nat (getReadBufferSize io) then take_bytes (Z.to_nat remaining) else
  on_io (io_read cfg);;
  io ← buffers;
  take_bytes (Z.to_nat (Z.min (Z.of_nat (getReadBufferSize io)) (Z.min size remaining))).

(** [drainFn] of such a body: every read uses up some of the transport's budget. *)
Fixpoint length_drain_loop (fuel : nat) (remaining : Z) : M HttpConnection unit :=
  io ← buffers;
  if Z.of_nat (getReadBufferSize io) <? remaining then
    match fuel with
    | O => undefined
    | Datatypes.S fuel' => on_io (io_read cfg);; length_drain_loop fuel' remaining
    end
  else mret tt.

Definition lengthDrainFn (remaining : Z) : M HttpConnection unit :=
  (fun s => length_drain_loop (Datatypes.S (budget (stream_ (io_ s)))) remaining s);;
  on_io (erase (Z.to_nat remaining)).

#[export] Instance connection_body_io : BodyIO HttpConnection := {|
  get_body s := HttpRequest.bodyStream_ (request_ s);
  put_body b s := with_request (HttpRequest.attachBodyStream b (request_ s)) s;
  readFn src size remaining :=
    match src with
    | ChunkedBody => chunkReadFn size
    | LengthBody => lengthReadFn size remaining
    | NoBody => mret []
    end;
  drainFn src remaining :=
    match src with
    | ChunkedBody => chunkDrainFn
    | LengthBody => lengthDrainFn remaining
    | NoBody => mret tt
    end;
|}.
End Body.

(** ** Writing *)
Section Writing.
Context {K : Type} {N : Net K} (cfg : ServerConfig).
#[local] Abbreviation HttpConnection := (HttpConnection K).

(** [while (io_.hasPendingWrites()) if (write() != OK) ...]: [false] after a write
    that was not OK.  A write that leaves bytes pending has suspended. *)
Fixpoint write_pending_loop (fuel : nat) : M HttpConnection bool :=
  match fuel with
  | O => undefined
  | Datatypes.S fuel' =>
      io ← buffers;
      if hasPendingWrites io then
        r ← on_buffers co_write;
        match r with
        | WR_OK => write_pending_loop fuel'
        | _ => mret false
        end
      else mret true
  end.

Definition write_pending : M HttpConnection bool := fun s =>
  write_pending_loop (Datatypes.S (Datatypes.S (budget (stream_ (io_ s))))) s.

(** [if (...) co_return] *)
Definition co_unless (m : M HttpConnection bool) : co HttpConnection unit :=
  let* ok := co_lift m in if (ok : bool) then co_ret tt else co_return.

Definition awaitClientFinBeforeClose : M HttpConnection unit :=
  on_buffers (fun io =>
    match co_awaitClientFin (CONNECTION_CLOSE_MAX_BYTES cfg) io with
    | Some io => Ret (tt, io)
    | None => Undef
    end).

(** [serialize(io_.getWriteBuffer())] *)
Definition into_write_buffer (f : bytes -> outcome (bool * bytes)) : M HttpConnection bool :=
  on_buffers (fun io => '(ok, buf) ← f (writeBuffer_ io); Ret (ok, setWriteBuffer buf io)).
End Writing.

(** ** The coroutine *)
Section Run.
Context {K : Type} {N : Net K} {F : Type} (cfg : ServerConfig).
#[local] Abbreviation HttpConnection := (HttpConnection K).
#[local] Abbreviation Response := (Response F).
#[local] Existing Instance connection_body_io.

(** The error factory's [build], the order of an [unordered_set], the HTTP date of
    an expiry time and of now, the text of an exception of the standard library,
    and the server's shutdown flag as this coroutine reads it. *)
Context (build : HttpRequest.HttpRequest -> Z -> bytes -> outcome HttpResponse.HttpResponse)
        (iterate : gset bytes -> list bytes)
        (toHttpDate : Z -> bytes) (date : K -> bytes)
        (std_what : exn -> bytes)
        (shutdown_ : K -> bool).

(** A handler's chunk function, and what file responses need of the system: [open],
    [read] at an offset, [sendfile], and aborting the connection. *)
Context (nextChunk : F -> M HttpConnection (option bytes * F))
        (open : bytes -> Z + HttpFileResponse.errno)
        (file_read : Z -> Z -> nat -> K -> (Z * bytes) * K)
        (sendFile : Z -> Z -> Z -> K -> Z * K)
        (reset_connection : K -> K).

Context (router_ : Router.Router (Handler HttpConnection F) (Middleware HttpConnection F)).

Definition on_stream {A} (f : K -> A * K) : M HttpConnection A :=
  on_buffers (fun io => let '(a, k) := f (stream_ io) in Ret (a, with_stream k io)).

Definition resetConnection : M HttpConnection unit := on_stream (fun k => (tt, reset_connection k)).

(** [e.what()] *)
Definition what (e : exn) : bytes :=
  match e with
  | SocketException m | EpollException m | ServerException m _ _ | HandlerException m _ _
  | CompressorException m | ConnectionException m | DatabaseException m | OrmException m
  | InvalidArgument m | RuntimeError m => m
  | OutOfRange | BadExpectedAccess | BadVariantAccess | UnknownException => std_what e
  end.

(** *** Error responses *)
Definition buildErrorResponse (statusCode : Z) (message : bytes) : M HttpConnection HttpResponse.HttpResponse :=
  req ← gets request_;
  response ← lift (build req statusCode message);
  let response := if HttpRequest.method_ req =?b "HEAD" then HttpResponse.stripBody response else response in
  mret (if statusCode =? 405
        then HttpResponse.with_headers (HeaderStore.setHeaderLower "allow" (Router.getAllowedMethodsString router_ req)) response
        else response).

Definition serialize_plain (response : HttpResponse.HttpResponse) : M HttpConnection bool := fun s =>
  into_write_buffer (HttpResponse.serializeInto cfg toHttpDate (date (stream_ (io_ s))) response) s.

(** The result says nothing: every caller returns afterwards. *)
Definition sendErrorResponseAndClose (statusCode : Z) (message : bytes) : co HttpConnection unit :=
  let* response := co_lift (buildErrorResponse statusCode message) in
  co_lift (modify (setKeepAlive false)) ;*
  let response := HttpResponse.with_headers (HeaderStore.setHeaderLower "connection" "close") response in
  if HttpResponse.statusCode_ response =? -1 then co_return else
  co_unless (serialize_plain response) ;*
  co_unless write_pending ;*
  co_lift (awaitClientFinBeforeClose cfg) ;*
  co_return.

(** *** Handshake *)
Definition suspend_io : M HttpConnection bool :=
  on_stream (fun k => let k := suspend k in (tl_timed_out k, k)).

Fixpoint handshake_loop (fuel : nat) : co HttpConnection unit :=
  match fuel with
  | O => co_lift undefined
  | Datatypes.S fuel' =>
      let* result := co_lift (on_stream handshake) in
      match result with
      | DONE | NO_TLS => co_ret tt
      | WANT_READ | WANT_WRITE =>
          let* timed_out := co_lift suspend_io in
          if (timed_out : bool) then co_return else handshake_loop fuel'
      | HS_ERROR => co_return
      end
  end.

Definition handshake_phase : co HttpConnection unit := fun s =>
  handshake_loop (Datatypes.S (budget (stream_ (io_ s)))) s.

(** *** The header of a request *)
Fixpoint strip_crlf (fuel : nat) : M HttpConnection unit :=
  io ← buffers;
  if prefixb CRLF (readBuffer io) then
    match fuel with
    | O => undefined
    | Datatypes.S fuel' => on_io (erase 2);; strip_crlf fuel'
    end
  else mret tt.

Fixpoint header_loop (fuel : nat) : co HttpConnection nat :=
  match fuel with
  | O => co_lift undefined
  | Datatypes.S fuel' =>
      co_lift (fun s => strip_crlf (length (readBuffer (io_ s))) s) ;*
      let* io := co_lift buffers in
      match find_sub CRLF2 (readBuffer io) with
      | Some headerSize => co_ret headerSize
      | None =>
          let* readResult := co_lift (on_buffers (fun io =>
            match co_read (SINGLE_READ_BYTES cfg) (MAX_HEADER_BYTES cfg) io with Some r => Ret r | None => Undef end)) in
          match readResult with
          | RD_DATA | RD_WOULD_BLOCK => header_loop fuel'
          | RD_CLOSED | RD_ERROR => co_return
          | RD_BUFFER_LIMIT_EXCEEDED => sendErrorResponseAndClose 431 [] ;* co_return
          | RD_TIMED_OUT => sendErrorResponseAndClose 408 [] ;* co_return
          end
      end
  end.

Definition read_head : co HttpConnection nat := fun s => header_loop (Datatypes.S (budget (stream_ (io_ s)))) s.

Definition close_with (statusCode : Z) (message : bytes) : co HttpConnection unit :=
  sendErrorResponseAndClose statusCode message ;* co_return.

Definition parse_head (headerSize : nat) : co HttpConnection unit :=
  if MAX_HEADER_BYTES cfg <? Z.of_nat headerSize then close_with 431 [] else
  let* io := co_lift buffers in
  let headerView := take headerSize (readBuffer io) in
  let* req := co_lift (gets request_) in
  let '(parsed, req) := HttpRequest.parseRequestHeader headerView req in
  co_lift (modify (with_request req)) ;*
  if negb parsed then close_with 400 "Malformed Header" else
  if negb (HttpRequest.version_ req =?b "HTTP/1.1") then close_with 505 [] else
  if HttpRequest.getHeaderLower "host" req =?b [] then close_with 400 "No Host Header Provided" else
  co_lift (on_io (erase (headerSize + 4))).

Definition content_length : M HttpConnection (Z + HttpRequest.ContentLengthError) := fun s =>
  let '(r, req) := HttpRequest.getContentLength (request_ s) in (Ret r, with_request req s).

(** *** Expect: 100-continue *)
Definition check_expect : co HttpConnection unit :=
  let* req := co_lift (gets request_) in
  let expect := HttpRequest.getHeaderLower "expect" req in
  if expect =?b [] then co_ret tt else
  if toLowerCase expect =?b "100-continue" then
    let* res := co_lift content_length in
    match res with
    | inr HttpRequest.INVALID_CONTENT_LENGTH => close_with 400 "Invalid content-length header"
    | inr HttpRequest.NO_CONTENT_LENGTH_HEADER =>
        if negb (contains_sub "chunked" (toLowerCase (HttpRequest.getHeaderLower "transfer-encoding" req)))
        then close_with 400 "Missing content-length header"
        else co_lift (throw BadExpectedAccess)
    | inl n =>
        if MAX_CONTENT_LENGTH cfg <? n then close_with 413 [] else
        let* req := co_lift (gets request_) in
        match Router.validate router_ req with
        | Router.NOT_FOUND => close_with 404 []
        | Router.METHOD_NOT_ALLOWED => close_with 405 []
        | Router.OK =>
            co_lift (on_buffers (fun io => Ret (tt, enqueue ("HTTP/1.1 100 Continue" ++ CRLF2) io))) ;*
            co_unless write_pending
        end
    end
  else close_with 417 [].

(** *** The body stream *)
Definition attach_body (b : BodyStream) : co HttpConnection unit :=
  co_lift (modify_request (HttpRequest.attachBodyStream (Some b))).

Definition make_body : co HttpConnection unit :=
  let* req := co_lift (gets request_) in
  let hasContentLengthHeader := negb (HttpRequest.getHeaderLower "content-length" req =?b []) in
  let transferEncodingHeader := HttpRequest.getHeaderLower "transfer-encoding" req in
  if hasContentLengthHeader && negb (transferEncodingHeader =?b []) then
    close_with 400 "Request cannot contain both Content-Length and Transfer-Encoding headers"
  else if negb (transferEncodingHeader =?b []) then
    if negb (icontains transferEncodingHeader "chunked") then close_with 501 []
    else attach_body (mkBodyStream 0 ChunkedBody)
  else if hasContentLengthHeader then
    let* contentLengthResult := co_lift content_length in
    match contentLengthResult with
    | inr HttpRequest.NO_CONTENT_LENGTH_HEADER => co_lift undefined
    | inr HttpRequest.INVALID_CONTENT_LENGTH => close_with 400 "Invalid Content-Length header"
    | inl contentLength =>
        if MAX_CONTENT_LENGTH cfg <? contentLength then close_with 413 []
        else attach_body (mkBodyStream contentLength LengthBody)
    end
  else attach_body (mkBodyStream 0 NoBody).

(** *** Dispatch *)
Definition error_plain (statusCode : Z) (message : bytes) (keep : bool) : M HttpConnection Response :=
  response ← buildErrorResponse statusCode message;
  modify (setKeepAlive keep);;
  mret (Plain response).

Definition dispatch_phase : M HttpConnection Response :=
  catch (Router.dispatch build iterate router_)
    (fun e => match e with
     | ServerException m code fatal | HandlerException m code fatal => error_plain code m (negb fatal)
     | UnknownException => error_plain 500 [] false
     | _ => error_plain 500 (what e) false
     end).

Definition shouldKeepAlive (req : HttpRequest.HttpRequest) : bool :=
  negb (icontains (HttpRequest.getHeaderLower "connection" req) "close").

Definition set_connection (response : Response) : M HttpConnection Response :=
  s ← gets id;
  let close := map_headers (HeaderStore.setHeaderLower "connection" "close") response in
  if shutdown_ (stream_ (io_ s)) then modify (setKeepAlive false);; mret close
  else mret (if negb (keepAlive_ s) || negb (shouldKeepAlive (request_ s)) then close else response).

(** *** Sending the response *)
Definition send_plain (res : HttpResponse.HttpResponse) : co HttpConnection unit :=
  if HttpResponse.statusCode_ res <? 0 then co_return else
  co_unless (serialize_plain res) ;*
  co_unless write_pending.

Definition serialize_block (r : HttpStreamResponse.HttpStreamResponse F) (block : bytes) : M HttpConnection bool :=
  into_write_buffer (HttpStreamResponse.serializeBlockInto cfg r block).

(** A refused block aborts the connection. *)
Definition block_or_reset (r : HttpStreamResponse.HttpStreamResponse F) (block : bytes) : co HttpConnection unit :=
  let* ok := co_lift (serialize_block r block) in
  if (ok : bool) then co_ret tt else co_lift resetConnection ;* co_return.

(** [getNextChunk], with what was thrown as a value. *)
Definition next_chunk (r : HttpStreamResponse.HttpStreamResponse F) :
    M HttpConnection (exn + (option bytes * HttpStreamResponse.HttpStreamResponse F)) :=
  match HttpStreamResponse.nextChunkFn_ r with
  | None => undefined
  | Some fn =>
      catch ('(chunk, fn) ← nextChunk fn; mret (inr (chunk, HttpStreamResponse.setNextChunkFn fn r)))
            (fun e => mret (inl e))
  end.

Fixpoint stream_loop (fuel : nat) (r : HttpStreamResponse.HttpStreamResponse F) : co HttpConnection unit :=
  match fuel with
  | O => co_lift undefined
  | Datatypes.S fuel' =>
      let* chunkOpt := co_lift (next_chunk r) in
      match chunkOpt with
      | inl e =>
          block_or_reset r (match e with UnknownException => "Internal Server Error" | _ => what e end) ;*
          block_or_reset r [] ;*
          co_unless write_pending ;*
          co_return
      | inr (None, r) =>
          block_or_reset r [] ;*
          co_unless write_pending
      | inr (Some chunk, r) =>
          block_or_reset r chunk ;*
          let* ok := co_lift write_pending in
          if (ok : bool) then stream_loop fuel' r else co_lift resetConnection ;* co_return
      end
  end.

Definition send_stream (fuel : nat) (r : HttpStreamResponse.HttpStreamResponse F) : co HttpConnection unit :=
  co_unless (fun s => into_write_buffer
    (HttpStreamResponse.serializeHeaderInto cfg toHttpDate (date (stream_ (io_ s))) r) s) ;*
  co_unless write_pending ;*
  stream_loop fuel r.

Definition open_status (e : HttpFileResponse.FileOpenError) : Z :=
  match e with
  | HttpFileResponse.NotFound => 404
  | HttpFileResponse.Forbidden => 403
  | HttpFileResponse.Malformed => 400
  | HttpFileResponse.ResourceExhausted => 503
  | HttpFileResponse.Unexpected => 500
  end.

Definition serialize_file (r : HttpFileResponse.HttpFileResponse) : M HttpConnection bool := fun s =>
  into_write_buffer (HttpFileResponse.serializeHeaderInto cfg toHttpDate (date (stream_ (io_ s))) r) s.

(** Bytes placed at the end of the write buffer. *)
Definition append_body (d : bytes) : M HttpConnection bool :=
  into_write_buffer (fun buf => Ret (true, buf ++ d)).

Definition send_cached (r : HttpFileResponse.HttpFileResponse) (contentLength : Z) (cachedFile : bytes) : co HttpConnection unit :=
  let offset := HttpFileResponse.offset_ r in
  let size := Z.of_nat (length cachedFile) in
  if (size <? offset) || (size - offset <? contentLength) then close_with 416 [] else
  co_unless (serialize_file r) ;*
  co_unless (append_body (take (Z.to_nat contentLength) (drop (Z.to_nat offset) cachedFile))) ;*
  co_unless write_pending.

Definition send_buffered (r : HttpFileResponse.HttpFileResponse) (contentLength : Z) : co HttpConnection unit :=
  let* result := co_lift (on_stream (file_read (HttpFileResponse.fd_ r) (HttpFileResponse.offset_ r) (Z.to_nat contentLength))) in
  let '(n, content) := (result : Z * bytes) in
  co_unless (append_body (take (Z.to_nat contentLength) (content ++ replicate (Z.to_nat contentLength) NUL))) ;*
  if n <? 0 then co_lift (throw (RuntimeError "readChunk(): File Read Awaitable failed")) else
  if n <? contentLength then co_lift resetConnection ;* co_return else
  co_unless write_pending.

Definition send_by_kernel (r : HttpFileResponse.HttpFileResponse) (contentLength : Z) : co HttpConnection unit :=
  co_unless (serialize_file r) ;*
  co_unless write_pending ;*
  let* n := co_lift (on_stream (sendFile (HttpFileResponse.fd_ r) (HttpFileResponse.offset_ r) contentLength)) in
  if n =? contentLength then co_ret tt else co_lift resetConnection ;* co_return.

Definition send_file (r : HttpFileResponse.HttpFileResponse) : co HttpConnection unit :=
  let '(result, r) := if HttpFileResponse.fd_ r <? 0 then HttpFileResponse.openFile open r else (None, r) in
  match result with
  | Some e => close_with (open_status e) []
  | None =>
      let* len := co_lift (lift (HttpFileResponse.getContentLength r)) in
      match len with
      | None => close_with 500 []
      | Some contentLength =>
          match HttpFileResponse.cachedFileContent_ r with
          | Some cachedFile => send_cached r contentLength cachedFile
          | None =>
              if contentLength <? FILE_BUFFERING_THRESHOLD cfg then send_buffered r contentLength
              else send_by_kernel r contentLength
          end
      end
  end.

Definition send_response (fuel : nat) (response : Response) : co HttpConnection unit :=
  match response with
  | Plain res => send_plain res
  | Stream r => send_stream fuel r
  | File r => send_file r
  end.

(** *** The loop *)
Definition resetForNextRequest (ip : bytes) (port : Z) : M HttpConnection unit :=
  modify_request (HttpRequest.reset ip port);;
  modify (with_decoder ChunkDecoder_reset).

Context (ip : bytes) (port : Z).

(** One round of the request loop; [blocks] bounds the blocks of a streamed response. *)
Definition serve_request (blocks : nat) : co HttpConnection unit :=
  let* s := co_lift (gets id) in
  if negb (keepAlive_ s) then co_lift (awaitClientFinBeforeClose cfg) ;* co_return else
  let* headerSize := read_head in
  parse_head headerSize ;*
  check_expect ;*
  make_body ;*
  let* response := co_lift dispatch_phase in
  co_lift (BodyStream.drain (BIO := connection_body_io cfg)) ;*
  let* response := co_lift (set_connection response) in
  send_response blocks response ;*
  co_lift (resetForNextRequest ip port).

Fixpoint request_loop (rounds blocks : nat) : co HttpConnection unit :=
  match rounds with
  | O => co_lift undefined
  | Datatypes.S rounds' => serve_request blocks ;* request_loop rounds' blocks
  end.

(** [HttpConnection::run], as far as [rounds] requests. *)
Definition run (rounds blocks : nat) : M HttpConnection unit := fun s =>
  match (handshake_phase ;* request_loop rounds blocks) s with
  | (Ret _, s') => (Ret tt, s')
  | (Throw e, s') => (Throw e, s')
  | (Undef, s') => (Undef, s')
  end.

Definition HttpConnection_new (stream : K) : HttpConnection :=
  {| request_ := HttpRequest.fresh ip port; chunkDecoder_ := ChunkDecoder_reset;
     io_ := ConnectionIO_new stream; keepAlive_ := true |}.
End Run.

(** ** Bodies: what a stream promises the handlers *)
Section BodyLemmas.
Context {K : Type} {N : Net K} {PN : PromptNet K} (cfg : ServerConfig) (Hlim : limits_ok cfg).
#[local] Abbreviation HttpConnection := (HttpConnection K).
#[local] Instance body_io : BodyIO HttpConnection := connection_body_io cfg.

(** A trailer section [tail] that can only end before [after]: with trailers, or a
    bare CRLF that has arrived with everything else. *)
Definition clean_end (io : ConnectionIO K) (tail after : bytes) : Prop :=
  tail = CRLF ++ after /\ incoming (stream_ io) = [] \/
  prefixb CRLF tail = false /\ exists i, find_sub CRLF2 tail = Some i /\ after = drop (i + 4) tail.

(** The decoder has [body] still to deliver, and [after] follows. *)
Definition chunks_left (s : HttpConnection) (body after : bytes) : Prop :=
  let d := chunkDecoder_ s in
  dec_wf cfg d /\
  (state_ d = BODY_DONE /\ body = [] /\ wire (io_ s) = after \/
   state_ d <> BODY_DONE /\ exists tail, dec_decodes cfg d (wire (io_ s)) body tail /\ clean_end (io_ s) tail after).

Definition delivered (s : HttpConnection) : Z := totalBytes_ (chunkDecoder_ s) - chunkRemaining_ (chunkDecoder_ s).

(** [body] is still to be delivered by the stream, and is followed by [after]. *)
Definition body_left (b : BodyStream) (s : HttpConnection) (body after : bytes) : Prop :=
  io_wf (io_ s) /\
  if exhausted_ b then body = [] /\ wire (io_ s) = after else
  match source_ b with
  | NoBody => body = [] /\ wire (io_ s) = after
  | LengthBody => remaining_ b = Z.of_nat (length body) /\ is_u64 (remaining_ b) /\ wire (io_ s) = body ++ after
  | ChunkedBody => chunks_left s body after /\ remaining_ b = u64 (- delivered s)
  end.

(** What the body API may change. *)
Record body_only (s s' : HttpConnection) : Prop := {
  bo_kept : kept (io_ s) (io_ s');
  bo_alive : keepAlive_ s' = keepAlive_ s;
}.

(** A failed operation: the connection is lost, which cannot happen when all has arrived. *)
Definition body_failed {A} (s : HttpConnection) (r : outcome A * HttpConnection) : Prop :=
  match r with
  | (Throw e, s') => net_exn e /\ body_only s s' /\ incoming (stream_ (io_ s)) <> []
  | _ => False
  end.

Lemma body_only_refl (s : HttpConnection) : io_wf (io_ s) -> body_only s s.
Proof. intros. split; [by apply kept_refl|done]. Qed.

Lemma body_only_trans (a b c : HttpConnection) : body_only a b -> body_only b c -> body_only a c.
Proof. intros [] []. split; [by eapply kept_trans|congruence]. Qed.

Lemma body_failed_bind {A B} (m : M HttpConnection A) (f : A -> M HttpConnection B) s0 s :
  body_failed s0 (m s) -> body_failed s0 ((m ≫= f) s).
Proof. unfold body_failed, mbind, M_bind. by destruct (m s) as [[| |] ?]. Qed.

Lemma body_failed_returns {A} (s : HttpConnection) (r : outcome A * HttpConnection) : body_failed s r -> is_ret r.1 = false.
Proof. unfold body_failed. by destruct r as [[| |] ?]. Qed.

Lemma body_failed_step {A} (s s1 : HttpConnection) (r : outcome A * HttpConnection) :
  body_only s s1 -> body_failed s1 r -> body_failed s r.
Proof.
  intros Hb. unfold body_failed. destruct r as [[| |] s']; try done. intros (He & Hb' & Hin).
  split_and!; [done|by eapply body_only_trans|]. intros H. apply Hin.
  eapply kept_all_received; [apply Hb|done].
Qed.

Lemma on_io_eq {A} (m : M (ChunkDecoder * ConnectionIO K) A) (s : HttpConnection) a d io :
  m (chunkDecoder_ s, io_ s) = (a, (d, io)) -> on_io m s = (a, with_io io (with_decoder d s)).
Proof. intros H. unfold on_io. by rewrite H. Qed.

Lemma on_io_failed {A} (m : M (ChunkDecoder * ConnectionIO K) A) (s : HttpConnection) :
  read_failed (io_ s) (m (chunkDecoder_ s, io_ s)) -> incoming (stream_ (io_ s)) <> [] -> body_failed s (on_io m s).
Proof.
  unfold read_failed, on_io, body_failed. destruct (m _) as [[| |] [d io]]; try done. intros [He Hk] Hin.
  split_and!; [done| |done]. by split.
Qed.

Lemma take_bytes_spec n (s : HttpConnection) :
  io_wf (io_ s) -> (n <= length (readBuffer (io_ s)))%nat ->
  exists s', take_bytes n s = (Ret (take n (readBuffer (io_ s))), s') /\
    took (take n (readBuffer (io_ s))) (io_ s) (io_ s') /\ body_only s s' /\ request_ s' = request_ s /\
    chunkDecoder_ s' = chunkDecoder_ s.
Proof.
  intros Hwf Hn. destruct (erase_spec n (chunkDecoder_ s) (io_ s) Hwf Hn) as (io' & E & Ht & _).
  exists (with_io io' (with_decoder (chunkDecoder_ s) s)). split; [|split_and!; [done| |done|done]].
  - unfold take_bytes. rewrite (mbind_Ret buffers _ _ (io_ s) s) by done.
    by rewrite (mbind_Ret _ _ _ _ _ (on_io_eq _ _ _ _ _ E)).
  - split; [apply Ht|done].
Qed.

(** What a read of a body with a Content-Length does; [size] never reaches into
    what follows the body. *)
Lemma lengthReadFn_spec size (s : HttpConnection) body after :
  io_wf (io_ s) -> 0 < size -> body <> [] -> wire (io_ s) = body ++ after ->
  (size <= Z.of_nat (length body) \/ Z.of_nat (length (body ++ after)) < size) ->
  (exists data body' s', lengthReadFn cfg size (Z.of_nat (length body)) s = (Ret data, s') /\
     body = data ++ body' /\ data <> [] /\ Z.of_nat (length data) <= size /\ wire (io_ s') = body' ++ after /\
     body_only s s' /\ request_ s' = request_ s) \/
  body_failed s (lengthReadFn cfg size (Z.of_nat (length body)) s).
Proof.
  intros Hwf Hsize Hne Hw Hover. unfold lengthReadFn. rewrite (mbind_Ret buffers _ _ (io_ s) s) by done.
  assert (0 < length body)%nat as Hl by (destruct body; [done|simpl; lia]).
  assert (forall (s1 : HttpConnection) n, body_only s s1 -> request_ s1 = request_ s -> wire (io_ s1) = body ++ after ->
    (0 < n)%nat -> (n <= length body)%nat -> (n <= length (readBuffer (io_ s1)))%nat -> Z.of_nat n <= size ->
    exists data body' s', take_bytes n s1 = (Ret data, s') /\
     body = data ++ body' /\ data <> [] /\ Z.of_nat (length data) <= size /\ wire (io_ s') = body' ++ after /\
     body_only s s' /\ request_ s' = request_ s) as Htake.
  { intros s1 n Hb Hr Hw1 Hn0 Hn Hrb Hns. destruct (take_bytes_spec n s1) as (s' & E & Ht & Hb' & Hr' & _);
      [apply Hb|done|].
    assert (take n (readBuffer (io_ s1)) = take n body) as Hd.
    { rewrite <- (take_wire n) by done. by rewrite Hw1, take_app_le by done. }
    exists (take n body), (drop n body), s'. rewrite <- Hd at 1. split_and!; [done| | | | | |congruence].
    - by rewrite take_drop.
    - intros H. apply (f_equal length) in H. rewrite length_take in H. simpl in H. lia.
    - rewrite length_take. lia.
    - rewrite Hd in Ht. pose proof (tk_wire _ _ _ Ht) as Hwi. rewrite Hw1 in Hwi.
      rewrite <- (take_drop n body) in Hwi at 1. rewrite <- app_assoc in Hwi. by apply app_inv_head in Hwi.
    - by eapply body_only_trans. }
  pose proof (body_only_refl s Hwf) as Hrefl. rewrite <- !readBuffer_length.
  assert (length (readBuffer (io_ s)) <= length (wire (io_ s)))%nat as Hrw by (unfold wire; rewrite length_app; lia).
  rewrite Hw, length_app in Hrw. rewrite length_app in Hover.
  destruct (Z.leb_spec size (Z.of_nat (length (readBuffer (io_ s))))) as [H1|H1].
  { left. apply Htake; try done; lia. }
  destruct (Z.leb_spec (Z.of_nat (length body)) (Z.of_nat (length (readBuffer (io_ s))))) as [H2|H2].
  { left. rewrite Nat2Z.id. apply Htake; try done; lia. }
  destruct (io_read_prompt cfg Hlim (chunkDecoder_ s) (io_ s) Hwf) as [(io1 & E & Ht & _ & got & Hg & Hgne)|Hfail].
  - left. rewrite (mbind_Ret _ _ _ _ _ (on_io_eq _ _ _ _ _ E)).
    set (s1 := with_io io1 (with_decoder (chunkDecoder_ s) s)).
    rewrite (mbind_Ret buffers _ _ io1 s1) by done. rewrite <- readBuffer_length, Hg, length_app.
    assert (0 < length got)%nat by (destruct got; [done|simpl; lia]).
    apply Htake; try lia; [by split; [apply Ht|]|done| |cbn [io_ s1 with_io with_decoder]; rewrite Hg, length_app; lia].
    cbn [io_ s1 with_io with_decoder]. rewrite <- Hw. symmetry. apply (tk_wire _ _ _ Ht).
  - right. apply body_failed_bind, on_io_failed; [done|]. intros Hin. rewrite (wire_buffered _ Hin) in Hw.
    apply (f_equal length) in Hw. rewrite length_app in Hw. lia.
Qed.

Lemma length_drain_loop_spec fuel (s : HttpConnection) body after :
  (budget (stream_ (io_ s)) < fuel)%nat -> io_wf (io_ s) -> wire (io_ s) = body ++ after ->
  (exists s', length_drain_loop cfg fuel (Z.of_nat (length body)) s = (Ret tt, s') /\ body_only s s' /\
     wire (io_ s') = body ++ after /\ (length body <= length (readBuffer (io_ s')))%nat) \/
  body_failed s (length_drain_loop cfg fuel (Z.of_nat (length body)) s).
Proof.
  revert s. induction fuel as [|fuel IH]; intros s Hf Hwf Hw; [lia|]. cbn [length_drain_loop].
  rewrite (mbind_Ret buffers _ _ (io_ s) s), <- readBuffer_length by done.
  destruct (Z.ltb_spec (Z.of_nat (length (readBuffer (io_ s)))) (Z.of_nat (length body))) as [Hlt|Hge].
  2: { left. exists s. split_and!; [done|by apply body_only_refl|done|lia]. }
  destruct (io_read_spec cfg Hlim (chunkDecoder_ s) (io_ s) Hwf) as [(io1 & E & Ht & Hb & _)|Hfail].
  - rewrite (mbind_Ret _ _ _ _ _ (on_io_eq _ _ _ _ _ E)).
    set (s1 := with_io io1 (with_decoder (chunkDecoder_ s) s)).
    assert (body_only s s1) as Hb1 by (split; [apply Ht|done]).
    destruct (IH s1) as [(s2 & E2 & Hb2 & Hw2 & Hl2)|Hf2].
    + cbn [io_ s1 with_io]. lia.
    + apply Ht.
    + cbn [io_ s1 with_io]. rewrite <- Hw. symmetry. apply (tk_wire _ _ _ Ht).
    + left. exists s2. split_and!; [done|by eapply body_only_trans|done|done].
    + right. by apply (body_failed_step s s1).
  - right. apply body_failed_bind, on_io_failed; [done|]. intros Hin. rewrite (wire_buffered _ Hin) in Hw.
    apply (f_equal length) in Hw. rewrite length_app in Hw. lia.
Qed.

Lemma lengthDrainFn_spec (s : HttpConnection) body after :
  io_wf (io_ s) -> wire (io_ s) = body ++ after ->
  (exists s', lengthDrainFn cfg (Z.of_nat (length body)) s = (Ret tt, s') /\ body_only s s' /\ wire (io_ s') = after) \/
  body_failed s (lengthDrainFn cfg (Z.of_nat (length body)) s).
Proof.
  intros Hwf Hw. unfold lengthDrainFn.
  destruct (length_drain_loop_spec (S (budget (stream_ (io_ s)))) s body after ltac:(lia) Hwf Hw)
    as [(s1 & E & Hb & Hw1 & Hl)|Hf]; [left|right; by apply body_failed_bind].
  rewrite (mbind_Ret (fun s => _) _ s tt s1 E), Nat2Z.id.
  destruct (erase_spec (length body) (chunkDecoder_ s1) (io_ s1)) as (io2 & Ee & Ht & _); [apply Hb|done|].
  rewrite (on_io_eq _ _ _ _ _ Ee). eexists. split; [done|]. split.
  - eapply body_only_trans; [done|]. split; [apply Ht|done].
  - cbn [io_ with_io]. rewrite (took_wire _ _ _ Hl Ht), Hw1. apply drop_app_length.
Qed.

Lemma clean_end_kept io io' tail after : kept io io' -> clean_end io tail after -> clean_end io' tail after.
Proof.
  intros Hk [[? ?]|?]; [left|by right]. split; [done|]. by eapply kept_all_received.
Qed.

Lemma decode_spec size (s : HttpConnection) body after :
  io_wf (io_ s) -> chunks_left s body after ->
  (exists data body' s', decode cfg size s = (Ret data, s') /\ body = data ++ body' /\ (length data <= size)%nat /\
     chunks_left s' body' after /\ body_only s s' /\ request_ s' = request_ s /\
     delivered s' = delivered s + Z.of_nat (length data) /\
     (io_measure (io_ s') + length data <= io_measure (io_ s))%nat /\
     (data = [] -> (0 < size)%nat -> body = [] /\ wire (io_ s') = after)) \/
  body_failed s (decode cfg size s).
Proof.
  intros Hwf [Hd Hleft]. set (d := chunkDecoder_ s) in *.
  assert (bounded cfg size [] d (io_ s) (readSome cfg size (d, io_ s))) as Hbound.
  { unfold readSome, isDone. cbn [fst snd]. case_bool_decide as Hs.
    - unfold bounded. split_and!; [by apply kept_refl|simpl; lia|by right|done|simpl; lia|simpl; lia].
    - apply readSome_loop_bounded; simpl; done || lia. }
  destruct Hleft as [(Hdone & -> & Hw)|(Hnd & tail & Hdec & Hend)].
  - left. exists [], [], s. assert (readSome cfg size (d, io_ s) = (Ret (inl []), (d, io_ s))) as E.
    { unfold readSome, isDone. cbn [fst snd]. by rewrite bool_decide_eq_true_2. }
    split; [|split_and!; try done; try lia; try (simpl; lia)].
    + unfold decode. rewrite (mbind_Ret _ _ _ _ _ (on_io_eq _ _ _ _ _ E)). unfold mret, M_ret. by destruct s.
    + split; [done|]. by left.
    + by apply body_only_refl.
  - assert (decoded cfg size [] body tail (io_ s) (readSome cfg size (d, io_ s))) as Hdecoded.
    { unfold readSome, isDone. cbn [fst snd]. rewrite bool_decide_eq_false_2 by done.
      apply readSome_loop_spec; simpl; done || lia. }
    unfold decoded in Hdecoded. unfold bounded in Hbound.
    destruct (readSome cfg size (d, io_ s)) as [[[out|e]|e|] [d' io']] eqn:E; try done.
    + left. destruct Hbound as (Hk & Hlen & Hend' & Hwf' & Hm & Hacc).
      destruct Hdecoded as (_ & _ & data & body' & Hout & -> & Hcase). cbn [app] in Hout. subst out.
      exists data, body', (with_io io' (with_decoder d' s)).
      split; [unfold decode; by rewrite (mbind_Ret _ _ _ _ _ (on_io_eq _ _ _ _ _ E))|].
      assert (chunks_left (with_io io' (with_decoder d' s)) body' after) as Hleft.
      { split; [done|]. cbn [chunkDecoder_ io_ with_io with_decoder].
        destruct Hcase as [(Hst & _ & _ & Hdec')|(Hst & -> & Hbe & Hrace)].
        - right. split; [done|]. exists tail. split; [done|]. by eapply clean_end_kept.
        - left. do 2 (split; [done|]). destruct Hend as [[-> Hin]|(Hp & i & Hi & ->)].
          + specialize (Hrace Hin (prefixb_app _ _)). by apply app_inv_head in Hrace.
          + destruct Hbe as [->|(j & Hj & _ & ->)]; [by rewrite prefixb_app in Hp|congruence]. }
      split_and!; try done; unfold delivered; cbn [chunkDecoder_ io_ with_io with_decoder length] in *; try lia.
      * subst d. lia.
      * intros -> Hsz. destruct Hend' as [Hl|Hst]; [simpl in Hl; lia|].
        destruct Hleft as [_ [(_ & -> & Hw)|(Hn & _)]]; [done|by cbn in Hn].
    + right. unfold decode. apply body_failed_bind, on_io_failed.
      * fold d. rewrite E. by destruct Hdecoded as (? & ? & _).
      * destruct Hdecoded as (_ & _ & H). intros Hin. destruct (H Hin) as [H1 H2].
        destruct Hend as [[-> _]|(Hp & i & Hi & _)]; [by rewrite prefixb_app in H1|congruence].
Qed.

Lemma chunk_drain_loop_spec fuel (s : HttpConnection) body after :
  (io_measure (io_ s) < fuel)%nat -> io_wf (io_ s) -> chunks_left s body after ->
  (exists s', chunk_drain_loop cfg fuel s = (Ret tt, s') /\ body_only s s' /\ wire (io_ s') = after) \/
  body_failed s (chunk_drain_loop cfg fuel s).
Proof.
  revert s body. induction fuel as [|fuel IH]; intros s body Hf Hwf Hleft; [lia|]. cbn [chunk_drain_loop].
  destruct (decode_spec 4096 s body after Hwf Hleft) as
    [(data & body' & s1 & E & Hbody & Hlen & Hleft1 & Hb & _ & _ & Hm & Hdone)|Hfail];
    [|right; by apply body_failed_bind].
  rewrite (mbind_Ret _ _ _ _ _ E). destruct data as [|c data].
  - left. exists s1. split; [done|]. split; [done|]. by apply Hdone; [|lia].
  - destruct (IH s1 body') as [(s2 & E2 & Hb2 & Hw2)|Hf2]; [simpl in Hm; lia|apply Hb|done| |].
    + left. exists s2. split; [done|]. split; [by eapply body_only_trans|done].
    + right. by apply (body_failed_step s s1).
Qed.

Lemma u64_sub_idemp a b : u64 (u64 a - b) = u64 (a - b).
Proof. unfold u64. by rewrite Zminus_mod_idemp_l. Qed.

Lemma delivered_range (s : HttpConnection) body after :
  chunks_left s body after -> 0 <= delivered s <= MAX_TE_LENGTH cfg.
Proof.
  intros [[Ht Hr] _]. unfold delivered. destruct (state_ (chunkDecoder_ s)); lia.
Qed.

(** The stream after a read of [n] bytes. *)
Definition after_read (b : BodyStream) (n : Z) : BodyStream :=
  {| exhausted_ := exhausted_ b || (n =? 0) || (u64 (remaining_ b - n) =? 0);
     remaining_ := u64 (remaining_ b - n); source_ := source_ b |}.

Lemma read_step size (s s1 : HttpConnection) b data :
  get_body s = Some b -> exhausted_ b = false -> get_body s1 = Some b ->
  readFn (source_ b) size (remaining_ b) s = (Ret data, s1) ->
  BodyStream.read size s = (Ret data, put_body (Some (after_read b (Z.of_nat (length data)))) s1).
Proof.
  intros Hb He Hb1 Hr. unfold BodyStream.read, the_body. rewrite (mbind_Ret _ _ s b s) by (by rewrite Hb).
  rewrite He, (mbind_Ret _ _ _ _ _ Hr). by rewrite (mbind_Ret _ _ s1 b s1) by (by rewrite Hb1).
Qed.

Lemma read_step_failed size (s : HttpConnection) b :
  get_body s = Some b -> exhausted_ b = false ->
  body_failed s (readFn (source_ b) size (remaining_ b) s) -> body_failed s (BodyStream.read size s).
Proof.
  intros Hb He Hf. unfold BodyStream.read, the_body. rewrite (mbind_Ret _ _ s b s) by (by rewrite Hb).
  rewrite He. by apply body_failed_bind.
Qed.

(** What a read through the interface does. *)
Definition read_ok (size : Z) (s : HttpConnection) (b : BodyStream) (body after : bytes)
    (r : outcome bytes * HttpConnection) : Prop :=
  (exists data body' b' s', r = (Ret data, s') /\ get_body s' = Some b' /\ source_ b' = source_ b /\
     body_left b' s' body' after /\ body = data ++ body' /\ Z.of_nat (length data) <= size /\
     (data = [] -> body = [] /\ wire (io_ s') = after) /\ body_only s s') \/
  body_failed s r.

Lemma length_read_ok size (s : HttpConnection) b body after :
  get_body s = Some b -> source_ b = LengthBody -> exhausted_ b = false -> body_left b s body after -> 0 < size ->
  (size <= Z.of_nat (length body) \/ Z.of_nat (length (body ++ after)) < size) ->
  read_ok size s b body after (BodyStream.read size s).
Proof.
  intros Hb Hsrc He Hleft Hsize Hover. destruct Hleft as [Hwf Hleft]. rewrite He, Hsrc in Hleft.
  destruct Hleft as (Hrem & Hu & Hw).
  assert (forall data body' s1, lengthReadFn cfg size (remaining_ b) s = (Ret data, s1) -> body = data ++ body' ->
    (data = [] -> body = []) -> Z.of_nat (length data) <= size -> wire (io_ s1) = body' ++ after -> body_only s s1 ->
    request_ s1 = request_ s -> read_ok size s b body after (BodyStream.read size s)) as Hok.
  { intros data body' s1 E Hbody Hnil Hlen Hw1 Hbo Hreq. left.
    assert (get_body s1 = Some b) as Hb1 by (cbn [get_body body_io connection_body_io] in *; by rewrite Hreq).
    exists data, body', (after_read b (Z.of_nat (length data))), (put_body (Some (after_read b (Z.of_nat (length data)))) s1).
    assert (u64 (remaining_ b - Z.of_nat (length data)) = Z.of_nat (length body')) as Hr'.
    { rewrite Hrem, Hbody, length_app. rewrite u64_small; [lia|]. unfold is_u64 in *.
      rewrite Hrem, Hbody, length_app in Hu. lia. }
    split; [apply read_step; try done; by rewrite Hsrc|]. split; [done|]. split; [done|]. split.
    - split; [apply Hbo|]. cbn [exhausted_ after_read]. rewrite He, Hr'. cbn [orb].
      destruct ((Z.of_nat (length data) =? 0) || (Z.of_nat (length body') =? 0)) eqn:Eex.
      + assert (body' = []) as ->.
        { apply orb_true_iff in Eex as [Eex|Eex]; apply Z.eqb_eq in Eex; [|by apply nil_length_inv; lia].
          assert (data = []) as Hd by (apply nil_length_inv; lia). specialize (Hnil Hd). rewrite Hd in Hbody. cbn [app] in Hbody. congruence. }
        done.
      + cbn [source_ remaining_ after_read]. rewrite Hsrc. rewrite Hr'. split_and!; [done| |done].
        unfold is_u64 in *. rewrite Hrem, Hbody, length_app in Hu. lia.
    - split_and!; [done|done| |split; apply Hbo]. intros Hd. specialize (Hnil Hd). split; [done|].
      cbn. rewrite Hw1. rewrite Hnil in Hbody. apply eq_sym, app_eq_nil in Hbody as [_ ->]. done. }
  destruct (decide (body = [])) as [->|Hne].
  - destruct (take_bytes_spec 0 s Hwf ltac:(lia)) as (s1 & E & Ht & Hbo & Hreq & _).
    apply (Hok [] [] s1); try done; [|simpl; lia|].
    + unfold lengthReadFn. rewrite (mbind_Ret buffers _ _ (io_ s) s), <- readBuffer_length, Hrem by done.
      assert (length (readBuffer (io_ s)) <= length (wire (io_ s)))%nat as Hrw by (unfold wire; rewrite length_app; lia).
      rewrite Hw in Hrw. destruct (Z.leb_spec size (Z.of_nat (length (readBuffer (io_ s))))); [simpl in *; lia|].
      destruct (Z.leb_spec (Z.of_nat (length ([] : bytes))) (Z.of_nat (length (readBuffer (io_ s))))); [done|simpl in *; lia].
    + pose proof (tk_wire _ _ _ Ht) as Hwi. rewrite Hw in Hwi; simpl in Hwi. simpl. congruence.
  - destruct (lengthReadFn_spec size s body after Hwf Hsize Hne Hw Hover) as
      [(data & body' & s1 & E & Hbody & Hd & Hlen & Hw1 & Hbo & Hreq)|Hfail].
    + rewrite <- Hrem in E. by apply (Hok data body' s1).
    + right. apply (read_step_failed size s b); [done|done|]. rewrite Hsrc. cbn [readFn body_io connection_body_io]. by rewrite Hrem.
Qed.

Lemma chunk_read_ok size (s : HttpConnection) b body after :
  get_body s = Some b -> source_ b = ChunkedBody -> exhausted_ b = false -> body_left b s body after -> 0 < size ->
  read_ok size s b body after (BodyStream.read size s).
Proof.
  intros Hb Hsrc He [Hwf Hleft] Hsize. rewrite He, Hsrc in Hleft. destruct Hleft as [Hleft Hrem].
  destruct (decode_spec (Z.to_nat size) s body after Hwf Hleft) as
    [(data & body' & s1 & E & Hbody & Hlen & Hleft1 & Hbo & Hreq & Hdel & _ & Hnil)|Hfail].
  2: { right. apply (read_step_failed size s b); [done|done|]. rewrite Hsrc. cbn [readFn body_io connection_body_io].
       unfold chunkReadFn. by apply body_failed_bind. }
  set (s2 := if isDone (chunkDecoder_ s1)
             then with_request (HttpRequest.setAttribute "chunkTrailers" (getTrailers (chunkDecoder_ s1)) (request_ s1)) s1
             else s1).
  assert (chunkReadFn cfg size s = (Ret data, s2)) as E2.
  { unfold chunkReadFn. rewrite (mbind_Ret _ _ _ _ _ E). rewrite (mbind_Ret (gets chunkDecoder_) _ s1 (chunkDecoder_ s1) s1) by done.
    unfold s2. by destruct (isDone (chunkDecoder_ s1)). }
  assert (get_body s2 = Some b /\ io_ s2 = io_ s1 /\ chunkDecoder_ s2 = chunkDecoder_ s1 /\ keepAlive_ s2 = keepAlive_ s1)
    as (Hb2 & Hio2 & Hd2 & Hk2).
  { cbn [get_body body_io connection_body_io] in *. unfold s2. destruct (isDone _); cbn; by rewrite ?Hreq. }
  left. exists data, body', (after_read b (Z.of_nat (length data))), (put_body (Some (after_read b (Z.of_nat (length data)))) s2).
  split; [apply read_step; try done; by rewrite Hsrc|]. split; [done|]. split; [done|].
  pose proof (delivered_range _ _ _ Hleft) as Hr0. pose proof (delivered_range _ _ _ Hleft1) as Hr1.
  destruct Hlim as (_ & [_ Hcl] & Hcap).
  split; [|split_and!; [done|lia| |]].
  - split; [cbn; rewrite Hio2; apply Hbo|]. cbn [exhausted_ after_read]. rewrite He. cbn [orb].
    cbn [source_ remaining_ after_read]. rewrite Hsrc, Hrem, u64_sub_idemp.
    assert (- delivered s - Z.of_nat (length data) = - delivered s1) as -> by lia.
    assert (u64 (- delivered s1) = 0 -> delivered s1 = 0) as Hz.
    { unfold u64. intros H0. destruct (Z.eq_dec (delivered s1) 0) as [|Hnz]; [done|].
      pose proof (Z.mod_small (delivered s1) two64 ltac:(lia)) as Hm.
      rewrite Z.mod_opp_l_nz, Hm in H0; [lia|by rewrite two64_val|by rewrite Hm]. }
    destruct ((Z.of_nat (length data) =? 0) || (u64 (- delivered s1) =? 0)) eqn:Eex.
    + assert (data = []) as Hd0.
      { apply orb_true_iff in Eex as [Eex|Eex]; apply Z.eqb_eq in Eex; [by apply nil_length_inv; lia|].
        specialize (Hz Eex). apply nil_length_inv. lia. }
      destruct (Hnil Hd0 ltac:(lia)) as [Hbn Hwn]. rewrite Hbn in Hbody. apply eq_sym, app_eq_nil in Hbody as [_ ->].
      split; [done|]. cbn. by rewrite Hio2.
    + split; [|unfold delivered; cbn; by rewrite Hd2]. unfold chunks_left. cbn. by rewrite Hio2, Hd2.
  - intros Hd0. destruct (Hnil Hd0 ltac:(lia)) as [Hn Hwn]. split; [exact Hn|]. cbn. by rewrite Hio2.
  - destruct Hbo as [Hk Ha]. split; cbn; [by rewrite Hio2|by rewrite Hk2].
Qed.

(** A read that cannot reach behind a body of [left] bytes, [extra] bytes following. *)
Definition careful_read (size : Z) (left extra : nat) : Prop :=
  0 < size /\ (size <= Z.of_nat left \/ Z.of_nat (left + extra) < size).

Lemma body_read_ok size (s : HttpConnection) b body after :
  get_body s = Some b -> body_left b s body after -> 0 < size ->
  (source_ b = LengthBody -> careful_read size (length body) (length after)) ->
  read_ok size s b body after (BodyStream.read size s).
Proof.
  intros Hb Hleft Hsize Hcare. destruct (exhausted_ b) eqn:He.
  - destruct Hleft as [Hwf Hleft]. pose proof Hleft as Hl. rewrite He in Hleft. destruct Hleft as [-> Hw].
    left. exists [], [], b, s. split.
    { unfold BodyStream.read, the_body. rewrite (mbind_Ret _ _ s b s) by (by rewrite Hb). by rewrite He. }
    split_and!; try done; [simpl; lia|by apply body_only_refl].
  - destruct (source_ b) eqn:Hsrc.
    + by apply chunk_read_ok.
    + destruct (Hcare eq_refl) as [_ Hc]. apply length_read_ok; try done. by rewrite length_app.
    + destruct Hleft as [Hwf Hleft]. rewrite He, Hsrc in Hleft. destruct Hleft as [-> Hw].
      left. exists [], [], (after_read b 0), (put_body (Some (after_read b 0)) s).
      split; [apply (read_step size s s b []); by rewrite ?Hsrc|]. split; [done|]. split; [by cbn; rewrite Hsrc|].
      split_and!; try done; [|simpl; lia|by split; [apply kept_refl|]].
      split; [done|]. cbn [exhausted_ after_read]. by rewrite He.
Qed.

Lemma drain_ok (s : HttpConnection) b body after :
  get_body s = Some b -> body_left b s body after ->
  (exists s', BodyStream.drain s = (Ret tt, s') /\ body_only s s' /\ wire (io_ s') = after) \/
  body_failed s (BodyStream.drain s).
Proof.
  intros Hb [Hwf Hleft]. unfold BodyStream.drain, the_body. rewrite (mbind_Ret _ _ s b s) by (by rewrite Hb).
  destruct (exhausted_ b).
  { left. exists s. split_and!; [done|by apply body_only_refl|apply Hleft]. }
  destruct (source_ b); cbn [drainFn body_io connection_body_io].
  - destruct Hleft as [Hleft _]. apply (chunk_drain_loop_spec _ s body after); [lia|done|done].
  - destruct Hleft as (-> & _ & Hw). by apply lengthDrainFn_spec.
  - left. exists s. split_and!; [done|by apply body_only_refl|apply Hleft].
Qed.

(** A client of the body: it asks for bytes and goes on with what it gets. *)
Inductive reader (A : Type) :=
| Finish (a : A)
| ReadThen (size : Z) (k : bytes -> reader A).
Arguments Finish {A} a.
Arguments ReadThen {A} size k.

Fixpoint run_reader {A} (r : reader A) : M HttpConnection A :=
  match r with
  | Finish a => mret a
  | ReadThen size k => data ← BodyStream.read size; run_reader (k data)
  end.

(** The same client on the bytes of the body. *)
Inductive reads_from {A} : reader A -> bytes -> A -> Prop :=
| rf_finish a body : reads_from (Finish a) body a
| rf_read size k data body a :
    Z.of_nat (length data) <= size -> (data = [] -> body = []) ->
    reads_from (k data) body a -> reads_from (ReadThen size k) (data ++ body) a.

Fixpoint careful {A} (src : body_source) (r : reader A) (left extra : nat) : Prop :=
  match r with
  | Finish _ => True
  | ReadThen size k =>
      0 < size /\ (src = LengthBody -> careful_read size left extra) /\
      forall data, careful src (k data) (left - length data) extra
  end.

Lemma run_reader_ok {A} (r : reader A) (s : HttpConnection) b body after :
  get_body s = Some b -> body_left b s body after -> careful (source_ b) r (length body) (length after) ->
  (exists a b' body' s', run_reader r s = (Ret a, s') /\ reads_from r body a /\ body_only s s' /\
     get_body s' = Some b' /\ body_left b' s' body' after) \/
  body_failed s (run_reader r s).
Proof.
  revert s b body. induction r as [a|size k IH]; intros s b body Hb Hleft Hc; cbn [run_reader].
  - left. exists a, b, body, s. split_and!; [done|constructor|by apply body_only_refl, Hleft|done|done].
  - destruct Hc as (Hsize & Hcare & Hk).
    destruct (body_read_ok size s b body after Hb Hleft Hsize Hcare) as
      [(data & body' & b1 & s1 & E & Hb1 & Hsrc & Hleft1 & -> & Hlen & Hnil & Hbo)|Hfail];
      [|right; by apply body_failed_bind].
    rewrite (mbind_Ret _ _ _ _ _ E). specialize (Hk data). rewrite length_app in Hk.
    destruct (IH data s1 b1 body' Hb1 Hleft1) as [(a & b2 & body2 & s2 & E2 & Hr & Hbo2 & Hb2 & Hleft2)|Hf2].
    + rewrite Hsrc. by replace (length data + length body' - length data)%nat with (length body') in Hk by lia.
    + left. exists a, b2, body2, s2. split_and!; try done; [|by eapply body_only_trans].
      constructor; [done| |done]. intros Hd. destruct (Hnil Hd) as [Hn _]. by apply app_eq_nil in Hn as [_ ?].
    + right. by apply (body_failed_step s s1).
Qed.

Definition small_reads (b : BodyStream) (body after : bytes) : Prop :=
  source_ b = LengthBody -> after = [] \/ Z.of_nat (length (body ++ after)) < scratch_size.

Lemma small_reads_careful b body after :
  small_reads b body after -> source_ b = LengthBody -> careful_read scratch_size (length body) (length after).
Proof.
  intros H Hb. split; [done|]. destruct (H Hb) as [->|Hs]; [simpl; lia|]. rewrite length_app in Hs. lia.
Qed.

Lemma readAll_loop_ok limit fuel data n (s : HttpConnection) b body after :
  get_body s = Some b -> body_left b s body after -> small_reads b body after ->
  (Z.to_nat limit - length data < fuel)%nat -> 0 < n \/ Z.of_nat (length data) < limit ->
  (exists s', readAll_loop fuel limit data n s = (Ret (data ++ body, 0), s') /\ body_only s s' /\
      Z.of_nat (length (data ++ body)) < limit /\ wire (io_ s') = after) \/
  (exists got s' n', readAll_loop fuel limit data n s = (Ret (got, n'), s') /\ body_only s s' /\ 0 < n' /\
      limit <= Z.of_nat (length (data ++ body))) \/
  body_failed s (readAll_loop fuel limit data n s).
Proof.
  revert data n s b body. induction fuel as [|fuel IH]; intros data n s b body Hb Hleft Hsmall Hf Hn; [lia|].
  cbn [readAll_loop]. destruct (Z.ltb_spec (Z.of_nat (length data)) limit) as [Hlt|Hge].
  2: { right. left. exists data, s, n. split_and!; [done|apply body_only_refl, Hleft|lia|rewrite length_app; lia]. }
  destruct (body_read_ok scratch_size s b body after Hb Hleft ltac:(done) (small_reads_careful _ _ _ Hsmall)) as
    [(chunk & body' & b1 & s1 & E & Hb1 & Hsrc & Hleft1 & -> & Hlen & Hnil & Hbo)|Hfail];
    [|right; right; by apply body_failed_bind].
  rewrite (mbind_Ret _ _ _ _ _ E). destruct chunk as [|c chunk].
  - left. destruct (Hnil eq_refl) as [Hn0 Hw]. cbn [app] in Hn0. subst body'. exists s1. rewrite !app_nil_r.
    split_and!; [done|done|done|done].
  - destruct (IH (data ++ c :: chunk) (Z.of_nat (length (c :: chunk))) s1 b1 body' Hb1 Hleft1) as
      [(s2 & E2 & Hbo2 & Hl2 & Hw2)|[(got & s2 & n2 & E2 & Hbo2 & Hn2 & Hl2)|Hf2]].
    + intros Hs1. rewrite Hsrc in Hs1. destruct (Hsmall Hs1) as [|Hs]; [by left|right].
      rewrite !length_app in *. lia.
    + rewrite length_app. simpl. lia.
    + simpl. lia.
    + left. exists s2. rewrite <- app_assoc in *. split_and!; [done|by eapply body_only_trans|done|done].
    + right. left. exists got, s2, n2. rewrite <- app_assoc in Hl2. split_and!; [done|by eapply body_only_trans|done|done].
    + right. right. by apply (body_failed_step s s1).
Qed.
End BodyLemmas.
Arguments Finish {A} a.
Arguments ReadThen {A} size k.

(** ** Properties of the bodies *)
Section BodyProps.
Context {K : Type} {N : Net K} (cfg : ServerConfig).
#[local] Abbreviation HttpConnection := (HttpConnection K).
#[local] Instance props_body_io : BodyIO HttpConnection := connection_body_io cfg.


(** [consumeBody] returns the whole body if it is shorter than
    [MAX_CONTENT_LENGTH], and is refused with 413 otherwise, also when the body has
    exactly that many bytes, which the connection accepts. *)
Theorem consume_body {PN : PromptNet K} (s : HttpConnection) b body after :
  limits_ok cfg -> 0 < MAX_CONTENT_LENGTH cfg ->
  get_body s = Some b -> exhausted_ b = false -> body_left cfg b s body after -> small_reads b body after ->
  (exists s', body_only s s' /\
     if Z.of_nat (length body) <? MAX_CONTENT_LENGTH cfg
     then consumeBody cfg s = (Ret body, s') /\ wire (io_ s') = after
     else consumeBody cfg s = (Throw (ServerException "Content limit exceeded" 413 true), s')) \/
  body_failed s (consumeBody cfg s).
Proof.
  intros Hlim Hmax Hb He Hleft Hsmall.
  assert (isExhausted s = (Ret false, s)) as Hex.
  { unfold isExhausted, the_body, mbind, M_bind. by rewrite Hb, He. }
  unfold consumeBody. rewrite (mbind_Ret _ _ _ _ _ Hex). unfold readAll, the_body. rewrite (mbind_Ret _ _ s b s) by (by rewrite Hb). rewrite He.
  destruct (readAll_loop_ok cfg Hlim (MAX_CONTENT_LENGTH cfg) (S (Z.to_nat (MAX_CONTENT_LENGTH cfg))) [] 0 s b body after Hb Hleft Hsmall)
    as [(s1 & E & Hbo & Hl & Hw)|[(got & s1 & n & E & Hbo & Hn & Hl)|Hf]]; cbn [app length] in *; [lia|lia| | |].
  - left. exists s1. split; [done|]. rewrite (mbind_Ret _ _ _ _ _ E).
    by destruct (Z.ltb_spec (Z.of_nat (length body)) (MAX_CONTENT_LENGTH cfg)); [|lia].
  - left. exists s1. split; [done|]. rewrite (mbind_Ret _ _ _ _ _ E).
    destruct (Z.ltb_spec (Z.of_nat (length body)) (MAX_CONTENT_LENGTH cfg)); [lia|].
    by destruct (Z.ltb_spec 0 n); [|lia].
  - right. by apply body_failed_bind.
Qed.

(** what the reads of a body with a Content-Length rely on.  A buffer that is
    larger than what is left of the body is filled beyond the body when that many
    bytes have arrived, and the count of what is left wraps around; and a wake-up
    with nothing to receive ends the body early. *)
Theorem length_read_hazards size (s : HttpConnection) b :
  get_body s = Some b -> source_ b = LengthBody -> exhausted_ b = false -> io_wf (io_ s) ->
  0 < remaining_ b < size ->
  (size <= Z.of_nat (length (readBuffer (io_ s))) -> size < two64 ->
   exists s', BodyStream.read size s = (Ret (take (Z.to_nat size) (readBuffer (io_ s))), s') /\
     get_body s' = Some {| exhausted_ := false; remaining_ := two64 - (size - remaining_ b); source_ := LengthBody |}) /\
  (forall io', readBuffer (io_ s) = [] ->
   co_read (SINGLE_READ_BYTES cfg) (MAX_CONTENT_LENGTH cfg) (io_ s) = Some (RD_WOULD_BLOCK, io') ->
   readBuffer io' = [] -> io_wf io' ->
   exists s', BodyStream.read size s = (Ret [], s') /\
     get_body s' = Some {| exhausted_ := true; remaining_ := u64 (remaining_ b); source_ := LengthBody |}).
Proof.
  intros Hb Hsrc He Hwf Hrem. split.
  - intros Hsize Hcap. destruct (take_bytes_spec (Z.to_nat size) s Hwf ltac:(lia)) as (s1 & E & _ & _ & Hreq & _).
    eexists. split.
    + apply (read_step cfg size s s1 b); [done|done|by cbn in *; rewrite Hreq|]. rewrite Hsrc.
      change (readFn LengthBody size (remaining_ b)) with (lengthReadFn cfg size (remaining_ b)). unfold lengthReadFn. rewrite (mbind_Ret buffers _ _ (io_ s) s), <- readBuffer_length by done.
      destruct (Z.leb_spec size (Z.of_nat (length (readBuffer (io_ s))))); [done|lia].
    + cbn. unfold after_read. rewrite length_take, Hsrc, He.
      assert (Z.of_nat (Z.to_nat size `min` length (readBuffer (io_ s))) = size) as -> by lia.
      assert (u64 (remaining_ b - size) = two64 - (size - remaining_ b)) as ->.
      { unfold u64. rewrite <- (Z.mod_add _ 1) by (rewrite two64_val; lia). rewrite Z.mod_small; lia. }
      destruct (Z.eqb_spec size 0); [lia|]. by destruct (Z.eqb_spec (two64 - (size - remaining_ b)) 0); [lia|].
  - intros io' Hrb Hread Hrb' Hwf'. set (s1 := with_io io' (with_decoder (chunkDecoder_ s) s)).
    destruct (take_bytes_spec 0 s1 Hwf' ltac:(lia)) as (s2 & E & _ & _ & Hreq & _). eexists. split.
    + apply (read_step cfg size s s2 b []); [done|done|by cbn in *; rewrite Hreq|]. rewrite Hsrc.
      change (readFn LengthBody size (remaining_ b)) with (lengthReadFn cfg size (remaining_ b)). unfold lengthReadFn.
      rewrite (mbind_Ret buffers _ _ (io_ s) s), <- readBuffer_length, Hrb by done. cbn [length].
      destruct (Z.leb_spec size (Z.of_nat 0)); [lia|]. destruct (Z.leb_spec (remaining_ b) (Z.of_nat 0)); [lia|].
      assert (on_io (io_read cfg) s = (Ret tt, s1)) as Er.
      { apply on_io_eq. unfold io_read. cbn [fst snd]. by rewrite Hread. }
      rewrite (mbind_Ret _ _ _ _ _ Er), (mbind_Ret buffers _ _ io' s1), <- readBuffer_length, Hrb' by done. cbn [length].
      by replace (Z.to_nat (Z.min (Z.of_nat 0) (Z.min size (remaining_ b)))) with 0%nat by lia.
    + cbn. unfold after_read. by rewrite Hsrc, He, Z.sub_0_r.
Qed.

(** a request with [Expect: 100-continue] and a chunked body is answered by an
    exception that leaves the coroutine. *)
Theorem expect_chunked_throws {F} build toHttpDate date
    (router_ : Router.Router (Handler HttpConnection F) (Middleware HttpConnection F)) (s : HttpConnection) :
  toLowerCase (HttpRequest.getHeaderLower "expect" (request_ s)) = "100-continue" ->
  HttpRequest.getHeaderLower "content-length" (request_ s) = [] -> HttpRequest.contentLength_ (request_ s) = None ->
  contains_sub "chunked" (toLowerCase (HttpRequest.getHeaderLower "transfer-encoding" (request_ s))) = true ->
  exists s', check_expect cfg build toHttpDate date router_ s = (Throw BadExpectedAccess, s') /\ io_ s' = io_ s.
Proof.
  intros He Hcl Hc Hte. unfold check_expect, co_bind, co_lift, gets.
  destruct (beqb_spec (HttpRequest.getHeaderLower "expect" (request_ s)) []) as [H0|_]; [by rewrite H0 in He|].
  rewrite He, beqb_refl. unfold content_length, HttpRequest.getContentLength. rewrite Hc, Hcl, Hte.
  cbn [negb]. unfold throw. by eexists.
Qed.
End BodyProps.

(** ** Serving requests that have arrived *)
Section Serving.
Context {K : Type} {N : Net K} {F : Type} (cfg : ServerConfig).
#[local] Abbreviation HttpConnection := (HttpConnection K).
#[local] Instance serving_body_io : BodyIO HttpConnection := connection_body_io cfg.
Context (build : HttpRequest.HttpRequest -> Z -> bytes -> outcome HttpResponse.HttpResponse)
        (iterate : gset bytes -> list bytes)
        (toHttpDate : Z -> bytes) (date : K -> bytes)
        (std_what : exn -> bytes)
        (shutdown_ : K -> bool)
        (nextChunk : F -> M HttpConnection (option bytes * F))
        (open : bytes -> Z + HttpFileResponse.errno)
        (file_read : Z -> Z -> nat -> K -> (Z * bytes) * K)
        (sendFile : Z -> Z -> Z -> K -> Z * K)
        (reset_connection : K -> K)
        (router_ : Router.Router (Handler HttpConnection F) (Middleware HttpConnection F))
        (ip : bytes) (port : Z).

(** The peer takes whatever is sent; the date stands still; no shutdown. *)
Hypothesis send_all : forall d k, (send d k).1 = Z.of_nat (length d).
Context (today : bytes).
Hypothesis same_day : forall k, date k = today.
Hypothesis no_shutdown : forall k, shutdown_ k = false.

(** Between two requests: nothing to be written, no stale time-out. *)
Record ready (s : HttpConnection) (buffered sofar : bytes) : Prop := {
  rd_wf : io_wf (io_ s);
  rd_read : readBuffer (io_ s) = buffered;
  rd_write : writeBuffer_ (io_ s) = [] /\ writeOffset_ (io_ s) = 0%nat;
  rd_sent : sent (stream_ (io_ s)) = sofar;
  rd_timed : tl_timed_out (stream_ (io_ s)) = false;
  rd_alive : keepAlive_ s = true;
}.

Lemma send_whole (io : ConnectionIO K) w :
  io_wf io -> writeBuffer_ io = w -> writeOffset_ io = 0%nat -> w <> [] -> tl_timed_out (stream_ io) = false ->
  exists io', co_write io = Ret (WR_OK, io') /\ io_wf io' /\ readBuffer io' = readBuffer io /\
    writeBuffer_ io' = [] /\ writeOffset_ io' = 0%nat /\ sent (stream_ io') = sent (stream_ io) ++ w /\
    tl_timed_out (stream_ io') = false.
Proof.
  intros Hwf Hw Ho Hne Ht.
  assert (writeBuffer io = w) as Hwb by (unfold writeBuffer; by rewrite Ho, drop_0).
  assert (0 < length w)%nat as Hl by (destruct w; [done|simpl; lia]).
  pose proof (send_law w (stream_ io)) as Hlaw. pose proof (send_all w (stream_ io)) as Hall.
  destruct (send w (stream_ io)) as [n k] eqn:Es. cbn [fst] in Hall. subst n.
  destruct Hlaw as (_ & _ & Hto & Hsent & _). rewrite Nat2Z.id, firstn_all in Hsent.
  set (io' := Build_ConnectionIO K k (readOffset_ io) 0 (readBuffer_ io) []).
  assert (flushFromWriteBuffer io = Ret (true, io')) as Hflush.
  { unfold flushFromWriteBuffer. rewrite <- writeBuffer_length, Hwb. destruct (length w) as [|m] eqn:Em; [lia|].
    cbn [flush_loop]. assert (hasPendingWrites io = true) as -> by (rewrite pending_size, Hwb, bool_decide_eq_false_2; done).
    rewrite Hwb, Es. destruct (Z.ltb_spec (Z.of_nat (S m)) 0); [lia|]. destruct (Z.eqb_spec (Z.of_nat (S m)) 0); [lia|].
    rewrite Nat2Z.id. unfold eraseFromWriteBuffer. cbn [readOffset_ writeOffset_ readBuffer_ writeBuffer_ stream_].
    rewrite Ho, Hw, Nat.add_0_l, Em.
    pose proof (Nat.Div0.div_lt_upper_bound (S m) 2 (S m) ltac:(lia)).
    rewrite bool_decide_eq_true_2, bool_decide_eq_true_2 by lia. rewrite <- Em, drop_all.
    cbn [mbind outcome_bind]. fold io'. destruct m; [done|]. cbn [flush_loop].
    assert (hasPendingWrites io' = false) as -> by by rewrite pending_size. done. }
  exists io'. assert (hasPendingWrites io' = false) as Hp by by rewrite pending_size.
  assert (flushFromWriteBuffer io' = Ret (true, io')) as Hflush' by (unfold flushFromWriteBuffer; cbn [flush_loop]; by rewrite Hp).
  split.
  - unfold co_write. rewrite Hflush. cbn [mbind outcome_bind negb]. rewrite Hp. unfold write_resume.
    cbn [stream_ io']. rewrite Hto, Ht. fold io'. by rewrite Hflush'.
  - destruct Hwf as [Hr _]. split_and!; try done; cbn; by rewrite Hto.
Qed.

Lemma write_pending_whole (s : HttpConnection) w :
  io_wf (io_ s) -> writeBuffer_ (io_ s) = w -> writeOffset_ (io_ s) = 0%nat ->
  tl_timed_out (stream_ (io_ s)) = false ->
  exists io', write_pending s = (Ret true, with_io io' s) /\ io_wf io' /\ readBuffer io' = readBuffer (io_ s) /\
    writeBuffer_ io' = [] /\ writeOffset_ io' = 0%nat /\ sent (stream_ io') = sent (stream_ (io_ s)) ++ w /\
    tl_timed_out (stream_ io') = false.
Proof.
  intros Hwf Hw Ho Ht. unfold write_pending. cbn [write_pending_loop].
  assert (forall s1 : HttpConnection, writeBuffer_ (io_ s1) = [] -> writeOffset_ (io_ s1) = 0%nat -> hasPendingWrites (io_ s1) = false) as Hnone.
  { intros s1 H1 H2. rewrite pending_size. unfold writeBuffer. by rewrite H1, H2. }
  rewrite (mbind_Ret buffers _ _ (io_ s) s) by done.
  destruct (decide (w = [])) as [Hnil|Hne].
  - exists (io_ s). rewrite Hnil in Hw. rewrite (Hnone s Hw Ho), Hnil, app_nil_r. split_and!; try done. by destruct s.
  - assert (hasPendingWrites (io_ s) = true) as ->.
    { rewrite pending_size. unfold writeBuffer. by rewrite Ho, drop_0, Hw, bool_decide_eq_false_2. }
    destruct (send_whole (io_ s) w Hwf Hw Ho Hne Ht) as (io' & E & Hwf' & Hr & Hw' & Ho' & Hs & Ht').
    exists io'. split; [|by split_and!].
    assert (on_buffers co_write s = (Ret WR_OK, with_io io' s)) as Ew by (unfold on_buffers; by rewrite E).
    rewrite (mbind_Ret _ _ _ _ _ Ew), (mbind_Ret buffers _ _ io' (with_io io' s)) by done.
    pose proof (Hnone (with_io io' s) Hw' Ho') as Hp. cbn [io_ with_io] in Hp. by rewrite Hp.
Qed.

(** A request without a body, as its header [head] is parsed. *)
Record plain_request (head : bytes) (q : HttpRequest.HttpRequest) : Prop := {
  pr_parse : HttpRequest.parseRequestHeader head (HttpRequest.fresh ip port) = (true, q);
  pr_size : Z.of_nat (length head) <= MAX_HEADER_BYTES cfg;
  pr_end rest : find_sub CRLF2 (head ++ CRLF2 ++ rest) = Some (length head);
  pr_front rest : prefixb CRLF (head ++ CRLF2 ++ rest) = false;
  pr_version : HttpRequest.version_ q = "HTTP/1.1";
  pr_host : HttpRequest.getHeaderLower "host" q <> [];
  pr_expect : HttpRequest.getHeaderLower "expect" q = [];
  pr_length : HttpRequest.getHeaderLower "content-length" q = [];
  pr_coding : HttpRequest.getHeaderLower "transfer-encoding" q = [];
}.

Definition no_body : BodyStream := mkBodyStream 0 NoBody.

(** Dispatch answers the request with [resp], whatever the rest of the connection
    is, and changes at most the request; the client does not ask to close. *)
Definition answers (q : HttpRequest.HttpRequest) (resp : HttpResponse.HttpResponse) : Prop :=
  forall s : HttpConnection, request_ s = HttpRequest.attachBodyStream (Some no_body) q ->
  exists q', Router.dispatch build iterate router_ s = (Ret (Plain resp), with_request q' s) /\
    HttpRequest.bodyStream_ q' = Some no_body /\ shouldKeepAlive q' = true.

Record sendable (resp : HttpResponse.HttpResponse) : Prop := {
  sd_cookies : Forall CookieStore.int_cookie (HttpResponse.cookies resp);
  sd_status : 0 <= HttpResponse.statusCode_ resp;
  sd_size : Z.of_nat (length (HttpResponse.response_bytes cfg toHttpDate today resp)) <= MAX_WRITE_BUFFER_BYTES cfg;
}.

#[local] Abbreviation serve := (serve_request cfg build iterate toHttpDate date std_what shutdown_ nextChunk open
  file_read sendFile reset_connection router_ ip port).

Lemma read_head_arrived (s : HttpConnection) head q rest :
  plain_request head q -> readBuffer (io_ s) = head ++ CRLF2 ++ rest ->
  read_head cfg build toHttpDate date router_ s = (Ret (Some (length head)), s).
Proof.
  intros Hq Hrb. unfold read_head. cbn [header_loop].
  assert (co_lift (fun s : HttpConnection => strip_crlf (length (readBuffer (io_ s))) s) s = (Ret (Some tt), s)) as E.
  { apply co_lift_Ret. destruct (length (readBuffer (io_ s))); cbn [strip_crlf];
      rewrite (mbind_Ret buffers _ _ (io_ s) s), Hrb, (pr_front _ _ Hq) by done; done. }
  rewrite (co_bind_Some _ _ _ _ _ E).
  rewrite (co_bind_Some _ _ _ (io_ s) s) by done. by rewrite Hrb, (pr_end _ _ Hq).
Qed.

Lemma parse_head_arrived (s : HttpConnection) head q rest sofar :
  plain_request head q -> ready s (head ++ CRLF2 ++ rest) sofar -> request_ s = HttpRequest.fresh ip port ->
  exists s', parse_head cfg build toHttpDate date router_ (length head) s = (Ret (Some tt), s') /\
    ready s' rest sofar /\ request_ s' = q.
Proof.
  intros Hq Hr Hreq. unfold parse_head. pose proof (pr_size _ _ Hq).
  destruct (Z.ltb_spec (MAX_HEADER_BYTES cfg) (Z.of_nat (length head))); [lia|].
  rewrite (co_bind_Some _ _ _ (io_ s) s), (co_bind_Some _ _ _ (request_ s) s) by done.
  rewrite (rd_read _ _ _ Hr), take_app_length, Hreq, (pr_parse _ _ Hq).
  rewrite (co_bind_Some _ _ _ tt (with_request q s)) by done. cbn [negb].
  rewrite (pr_version _ _ Hq), beqb_refl. cbn [negb].
  destruct (beqb_spec (HttpRequest.getHeaderLower "host" q) []) as [Hhost|_]; [by destruct (pr_host _ _ Hq)|].
  pose proof (rd_wf _ _ _ Hr) as Hwf. pose proof (rd_read _ _ _ Hr) as Hrb.
  destruct (took_erase (length head + 4) (io_ s) Hwf) as (io' & E & Ht & Hb & Hst).
  { rewrite Hrb, !length_app. simpl. lia. }
  eexists. split; [|split].
  - apply co_lift_Ret, on_io_eq. unfold erase. cbn [fst snd io_ with_request chunkDecoder_]. by rewrite E.
  - pose proof (erase_read (length head + 4) (io_ s) Hwf) as He. rewrite E in He. destruct He as (_ & Hwf' & _ & _ & _).
    destruct Hr as [_ _ [Hw1 Hw2] Hs Htm Ha]. split; cbn [io_ with_io with_decoder with_request keepAlive_]; try done.
    + rewrite Hb, Hrb, drop_app_length_plus. done.
    + unfold eraseFromReadBuffer in E. repeat case_bool_decide; try done; injection E as <-; done.
    + by rewrite Hst.
    + by rewrite Hst.
  - done.
Qed.

Lemma send_plain_arrived (s : HttpConnection) resp buffered sofar :
  sendable resp -> ready s buffered sofar ->
  exists s', send_plain cfg toHttpDate date resp s = (Ret (Some tt), s') /\
    ready s' buffered (sofar ++ HttpResponse.response_bytes cfg toHttpDate today resp).
Proof.
  intros [Hc Hst Hsz] Hr. unfold send_plain. destruct (Z.ltb_spec (HttpResponse.statusCode_ resp) 0); [lia|].
  destruct Hr as [Hwf Hrb [Hw Ho] Hs Ht Ha]. set (w := HttpResponse.response_bytes cfg toHttpDate today resp) in *.
  set (s1 := with_io (setWriteBuffer w (io_ s)) s).
  assert (co_unless (serialize_plain cfg toHttpDate date resp) s = (Ret (Some tt), s1)) as E1.
  { unfold co_unless. rewrite (co_bind_Some _ _ _ true s1); [done|]. apply co_lift_Ret.
    unfold serialize_plain, into_write_buffer, on_buffers. rewrite same_day, HttpResponse.serializeInto_eq, Hw by done.
    cbv zeta. fold w. cbn [app]. by destruct (Z.leb_spec (Z.of_nat (length w)) (MAX_WRITE_BUFFER_BYTES cfg)); [|lia]. }
  rewrite (co_bind_Some _ _ _ _ _ E1).
  destruct (write_pending_whole s1 w) as (io' & E2 & Hwf' & Hrb' & Hw' & Ho' & Hs' & Ht'); [|done|done|done|].
  { destruct Hwf as [H1 H2]. split; cbn; [done|]. rewrite Ho. lia. }
  exists (with_io io' s1). split.
  - unfold co_unless. rewrite (co_bind_Some _ _ _ true (with_io io' s1)); [done|]. by apply co_lift_Ret.
  - split; cbn [io_ with_io keepAlive_ s1]; try done; [by rewrite Hrb'|rewrite Hs'; cbn; by rewrite Hs].
Qed.

(** One request, one response. *)
Lemma serve_arrived blocks (s : HttpConnection) head q resp rest sofar :
  ready s (head ++ CRLF2 ++ rest) sofar -> request_ s = HttpRequest.fresh ip port ->
  plain_request head q -> answers q resp -> sendable resp ->
  exists s', serve blocks s = (Ret (Some tt), s') /\ request_ s' = HttpRequest.fresh ip port /\
    ready s' rest (sofar ++ HttpResponse.response_bytes cfg toHttpDate today resp).
Proof.
  intros Hr Hreq Hq Hans Hsend. unfold serve_request.
  rewrite (co_bind_Some _ _ _ s s) by done. rewrite (rd_alive _ _ _ Hr). cbn [negb].
  rewrite (co_bind_Some _ _ _ _ _ (read_head_arrived s head q rest Hq (rd_read _ _ _ Hr))).
  destruct (parse_head_arrived s head q rest sofar Hq Hr Hreq) as (s1 & E1 & Hr1 & Hq1).
  rewrite (co_bind_Some _ _ _ _ _ E1).
  assert (check_expect cfg build toHttpDate date router_ s1 = (Ret (Some tt), s1)) as E2.
  { unfold check_expect. rewrite (co_bind_Some _ _ _ (request_ s1) s1), Hq1, (pr_expect _ _ Hq) by done. done. }
  rewrite (co_bind_Some _ _ _ _ _ E2).
  set (s2 := with_request (HttpRequest.attachBodyStream (Some no_body) q) s1).
  assert (make_body cfg build toHttpDate date router_ s1 = (Ret (Some tt), s2)) as E3.
  { unfold make_body. rewrite (co_bind_Some _ _ _ (request_ s1) s1), Hq1, (pr_length _ _ Hq), (pr_coding _ _ Hq) by done.
    cbn [beqb negb andb]. unfold attach_body, s2, no_body. apply co_lift_Ret. unfold modify_request, modify. cbn. by rewrite Hq1. }
  rewrite (co_bind_Some _ _ _ _ _ E3).
  destruct (Hans s2 eq_refl) as (q' & E4 & Hb & Hka). set (s3 := with_request q' s2) in *.
  rewrite (co_bind_Some _ _ _ (Plain resp) s3).
  2: { apply co_lift_Ret. unfold dispatch_phase, catch. by rewrite E4. }
  assert (BodyStream.drain (BIO := connection_body_io cfg) s3 = (Ret tt, s3)) as E5.
  { unfold BodyStream.drain, the_body. rewrite (mbind_Ret _ _ s3 no_body s3); [done|]. cbn. by rewrite Hb. }
  rewrite (co_bind_Some _ _ _ _ _ (co_lift_Ret _ _ _ _ E5)).
  assert (ready s3 rest sofar) as Hr3 by (destruct Hr1; by split).
  assert (set_connection (F:=F) shutdown_ (Plain resp) s3 = (Ret (Plain resp), s3)) as E6.
  { unfold set_connection. rewrite (mbind_Ret (gets id) _ s3 s3 s3), no_shutdown by done. cbn [id].
    rewrite (rd_alive _ _ _ Hr3). cbn [request_ s3 with_request]. by rewrite Hka. }
  rewrite (co_bind_Some _ _ _ _ _ (co_lift_Ret _ _ _ _ E6)).
  destruct (send_plain_arrived s3 resp rest sofar Hsend Hr3) as (s4 & E7 & Hr4). unfold send_response.
  rewrite (co_bind_Some _ _ _ _ _ E7). eexists. split; [by apply co_lift_Ret|]. split; [done|]. by destruct Hr4.
Qed.

(** A request as it arrives, as it is parsed, and its answer. *)
Record exchange := { x_head : bytes; x_request : HttpRequest.HttpRequest; x_response : HttpResponse.HttpResponse }.

Definition served (x : exchange) : Prop :=
  plain_request (x_head x) (x_request x) /\ answers (x_request x) (x_response x) /\ sendable (x_response x).

Definition heads (l : list exchange) : bytes := concat (map (fun x => x_head x ++ CRLF2) l).
Definition responses (l : list exchange) : bytes :=
  concat (map (fun x => HttpResponse.response_bytes cfg toHttpDate today (x_response x)) l).

#[local] Abbreviation loop := (request_loop cfg build iterate toHttpDate date std_what shutdown_ nextChunk open
  file_read sendFile reset_connection router_ ip port).

End Serving.

Module ConnectionWitnesses.
Definition peer (now : bytes) (segments : list (ascii * bytes)) : Peer :=
  {| arrived := now; later := segments; out := []; late := false |}.

Definition connection (k : Peer) (buffered : bytes) (b : BodyStream) : HttpConnection Peer :=
  {| request_ := HttpRequest.attachBodyStream (Some b) (HttpRequest.fresh [] 0);
     chunkDecoder_ := ChunkDecoder_reset; io_ := setReadBuffer buffered (ConnectionIO_new k); keepAlive_ := true |}.

(** A body of five bytes comes in three segments, the last with the next request,
    whose rest comes later. *)
Definition upload : HttpConnection Peer :=
  connection (peer "h" [("e"%char, "l" : bytes); ("l"%char, "oGET /" : bytes); ("x"%char, [])]) [] (mkBodyStream 5 LengthBody).


Lemma consume_body_witness :
  let s := connection (peer [] []) (encoded ["hello"%string : bytes; " world"%string : bytes] ++ "GET /") (mkBodyStream 0 ChunkedBody) in
  exists s', @consumeBody _ (connection_body_io default_config) default_config s = (Ret ("hello world" : bytes), s') /\
    wire (io_ s') = "GET /".
Proof.
  intros s. destruct (consume_body default_config s (mkBodyStream 0 ChunkedBody) "hello world" "GET /") as [(s' & _ & H)|Hf].
  - apply DecoderWitnesses.limits_default.
  - reflexivity.
  - reflexivity.
  - reflexivity.
  - split; [split; simpl; lia|]. cbn [exhausted_ mkBodyStream source_]. split; [|reflexivity]. split.
    + split; [vm_compute; split; congruence|reflexivity].
    + right. split; [done|]. exists (CRLF ++ "GET /"). split; [|left; split; reflexivity].
      apply (encoded_decodes default_config DecoderWitnesses.limits_default ["hello"%string : bytes; " world"%string : bytes] "GET /" 0);
        [|lia|vm_compute; congruence]. repeat constructor; vm_compute; congruence.
  - done.
  - exists s'. exact H.
  - exfalso. apply body_failed_returns in Hf. revert Hf. vm_compute. discriminate.
Defined.

(** Five bytes of body are left; a buffer of eight is filled from the next request. *)
Lemma length_read_hazards_witness :
  let s := connection (peer [] []) "helloGET / HTTP/1.1" (mkBodyStream 5 LengthBody) in
  exists s', BodyStream.read (BIO := connection_body_io default_config) 8 s = (Ret ("helloGET" : bytes), s') /\
    HttpRequest.bodyStream_ (request_ s') = Some {| exhausted_ := false; remaining_ := two64 - 3; source_ := LengthBody |}.
Proof.
  intros s. destruct (length_read_hazards default_config 8 s (mkBodyStream 5 LengthBody)) as [H _].
  - reflexivity.
  - reflexivity.
  - reflexivity.
  - split; simpl; lia.
  - simpl. lia.
  - apply H; [simpl; lia|by rewrite two64_val].
Defined.

Definition hello : Handler (HttpConnection Peer) unit :=
  mret (Plain (HttpResponse.setBody "hello" (HttpResponse.HttpResponse_code 200))).

Definition site : Router.Router (Handler (HttpConnection Peer) unit) (Middleware (HttpConnection Peer) unit) :=
  (Router.get "/hello" hello Router.Router_new).2.

Definition error_page (_ : HttpRequest.HttpRequest) (code : Z) (_ : bytes) : outcome HttpResponse.HttpResponse :=
  Ret (HttpResponse.HttpResponse_code code).

Lemma expect_chunked_throws_witness :
  let s := with_request (HttpRequest.with_headers (fun _ =>
      [("host" : bytes, "a" : bytes); ("expect" : bytes, "100-Continue" : bytes); ("transfer-encoding" : bytes, "chunked" : bytes)])
      (HttpRequest.fresh [] 0)) (connection (peer [] []) [] no_body) in
  exists s', check_expect default_config error_page (fun _ => []) (fun _ => []) site s = (Throw BadExpectedAccess, s').
Proof.
  intros s. destruct (expect_chunked_throws default_config error_page (fun _ => []) (fun _ => []) site s) as (s' & E & _);
    [reflexivity..|]. exists s'. exact E.
Defined.

Definition head : bytes := "GET /hello HTTP/1.1" ++ CRLF ++ "Host: a".
Definition request : HttpRequest.HttpRequest :=
  (HttpRequest.parseRequestHeader head (HttpRequest.fresh [] 0)).2.
Definition answer : HttpResponse.HttpResponse :=
  HttpResponse.setBody "hello" (HttpResponse.HttpResponse_code 200).

Lemma hello_served :
  served default_config error_page (fun _ => []) (fun _ => []) site [] 0 "today" {| x_head := head; x_request := request; x_response := answer |}.
Proof.
  split; [split; try reflexivity|split].
  - vm_compute. congruence.
  - vm_compute. congruence.
  - intros s Hs. exists (HttpRequest.setPathParams [] (HttpRequest.setAttribute "allowedMethods" "GET, OPTIONS, HEAD" (request_ s))).
    destruct s as [rq d io ka]. cbn [request_] in Hs. subst rq. split; [vm_compute; reflexivity|split; reflexivity].
  - split; [constructor|vm_compute; congruence|vm_compute; congruence].
Qed.

End ConnectionWitnesses.
