(* ===== verification/Streaming.v ===== *)
(** What a connection sends for a streamed response ([http/HttpConnection.hpp], the branch
    of [HttpStreamResponse] in [run]), and that a decoder of chunks reads it back. *)
From S2P Require Import Prelude Bytes Effects ServerConfig Net ConnectionIO ChunkDecoder BodyStream HttpTypes HttpConnection.
From S2P Require HttpRequest HttpResponse HttpStreamResponse CookieStore.

#[local] Open Scope Z_scope.
#[local] Arguments list_ascii_of_string : simpl never.

(** A lambda that looks at nothing but its own variables: called until it ends or throws,
    it gives these blocks. *)
Inductive gives {F : Type} (step : F -> outcome (option bytes * F)) : F -> list bytes -> option exn -> Prop :=
| gives_end f f' : step f = Ret (None, f') -> gives step f [] None
| gives_throw f e : step f = Throw e -> gives step f [] (Some e)
| gives_chunk f c f' l failure : step f = Ret (Some c, f') -> gives step f' l failure -> gives step f (c :: l) failure.

Section Streaming.
Context {K : Type} {N : Net K} {F : Type} (cfg : ServerConfig).
#[local] Abbreviation HttpConnection := (HttpConnection K).
#[local] Abbreviation StreamResponse := (HttpStreamResponse.HttpStreamResponse F).
Context (toHttpDate : Z -> bytes) (date : K -> bytes) (std_what : exn -> bytes) (nextChunk : F -> M HttpConnection (option bytes * F))
        (reset_connection : K -> K).

Hypothesis send_all : forall d k, (send d k).1 = Z.of_nat (length d).
Context (today : bytes).
Hypothesis same_day : forall k, date k = today.
Context (step : F -> outcome (option bytes * F)).
Hypothesis pure : forall f s, nextChunk f s = (step f, s).

#[local] Abbreviation stream_loop := (stream_loop cfg std_what nextChunk reset_connection).
#[local] Abbreviation send_stream := (send_stream cfg toHttpDate date std_what nextChunk reset_connection).
#[local] Abbreviation block_or_reset := (block_or_reset cfg reset_connection).

(** A block as it is sent, and the text of an exception. *)
Definition wire_block (r : StreamResponse) (c : bytes) : bytes := if HttpStreamResponse.isChunked_ r then HttpStreamResponse.chunk_bytes c else c.
Definition error_text (e : exn) : bytes := match e with UnknownException => "Internal Server Error" | _ => what std_what e end.

(** The blocks that come behind those of the lambda. *)
Definition last_blocks (failure : option exn) : list bytes := match failure with None => [[] : bytes] | Some e => [error_text e; [] : bytes] end.

(** What is sent at once has to fit into the write buffer. *)
Definition fits (w : bytes) : Prop := Z.of_nat (length w) <= MAX_WRITE_BUFFER_BYTES cfg.
Definition block_ok (r : StreamResponse) (c : bytes) : Prop := is_u64 (Z.of_nat (length c)) /\ fits (wire_block r c).

Record stream_ok (r : StreamResponse) (chunks : list bytes) (failure : option exn) : Prop := {
  so_cookies : Forall CookieStore.int_cookie (HttpStreamResponse.cookies r);
  so_head : fits (HttpResponse.head_bytes cfg toHttpDate today (HttpStreamResponse.statusCode_ r) (HttpStreamResponse.headers r) (HttpStreamResponse.cookies r));
  so_chunks : Forall (block_ok r) chunks;
  so_last : Forall (fun c => is_u64 (Z.of_nat (length c))) (last_blocks failure) /\ fits (concat (map (wire_block r) (last_blocks failure)));
}.

(** A connection that has [w] to write. *)
Record writing (s : HttpConnection) (w buffered sofar : bytes) : Prop := {
  wr_wf : io_wf (io_ s);
  wr_read : readBuffer (io_ s) = buffered;
  wr_write : writeBuffer_ (io_ s) = w /\ writeOffset_ (io_ s) = 0%nat;
  wr_sent : sent (stream_ (io_ s)) = sofar;
  wr_timed : tl_timed_out (stream_ (io_ s)) = false;
  wr_alive : keepAlive_ s = true;
}.

Lemma ready_writing s buffered sofar : ready s buffered sofar <-> writing s [] buffered sofar.
Proof. split; intros []; by split. Qed.

Lemma appended f (s : HttpConnection) w w' buffered sofar : writing s w buffered sofar -> f w = Ret (true, w ++ w') ->
  exists s', into_write_buffer f s = (Ret true, s') /\ writing s' (w ++ w') buffered sofar /\ request_ s' = request_ s.
Proof.
  intros [Hwf Hrb [Hw Ho] Hs Ht Ha] E. eexists. split.
  - unfold into_write_buffer, on_buffers. rewrite Hw, E. reflexivity.
  - split; [|done]. split; cbn; try done. destruct Hwf as [H1 H2]. split; cbn; [done|]. rewrite Ho. lia.
Qed.

Lemma flushed (s : HttpConnection) w buffered sofar : writing s w buffered sofar ->
  exists s', write_pending s = (Ret true, s') /\ writing s' [] buffered (sofar ++ w) /\ request_ s' = request_ s.
Proof.
  intros [Hwf Hrb [Hw Ho] Hs Ht Ha]. destruct (write_pending_whole send_all s w Hwf Hw Ho Ht) as (io' & E & Hwf' & Hrb' & Hw' & Ho' & Hs' & Ht').
  exists (with_io io' s). split; [done|]. split; [|done]. split; cbn; try done; [by rewrite Hrb'|by rewrite Hs', Hs].
Qed.

Lemma append_fits w w' : fits (w ++ w') -> HttpStreamResponse.append_or_refuse cfg w w' = (true, w ++ w').
Proof. unfold fits, HttpStreamResponse.append_or_refuse. intros H. by rewrite (proj2 (Z.leb_le _ _)). Qed.

Lemma block_sent r c (s : HttpConnection) w buffered sofar : Forall CookieStore.int_cookie (HttpStreamResponse.cookies r) ->
  is_u64 (Z.of_nat (length c)) -> fits (w ++ wire_block r c) -> writing s w buffered sofar ->
  exists s', block_or_reset r c s = (Ret (Some tt), s') /\ writing s' (w ++ wire_block r c) buffered sofar /\ request_ s' = request_ s.
Proof.
  intros Hk Hc Hf W. destruct (appended (HttpStreamResponse.serializeBlockInto cfg r c) s w (wire_block r c) buffered sofar W) as (s' & E & W' & R).
  { rewrite (proj2 (HttpStreamResponse.stream_serialize cfg toHttpDate [] r c w Hk Hc)). f_equal. apply append_fits, Hf. }
  exists s'. split; [|done]. unfold block_or_reset. rewrite (co_bind_Some _ _ _ true s'); [done|]. by apply co_lift_Ret.
Qed.

Lemma pending_written (s : HttpConnection) w buffered sofar : writing s w buffered sofar ->
  exists s', co_unless write_pending s = (Ret (Some tt), s') /\ writing s' [] buffered (sofar ++ w) /\ request_ s' = request_ s.
Proof.
  intros W. destruct (flushed s w buffered sofar W) as (s' & E & W' & R). exists s'. split; [|done].
  unfold co_unless. rewrite (co_bind_Some _ _ _ true s'); [done|]. by apply co_lift_Ret.
Qed.

(** What the function of a response that is left gives. *)
Lemma next_given r fn c fn' (s : HttpConnection) : HttpStreamResponse.nextChunkFn_ r = Some fn -> step fn = Ret (c, fn') ->
  co_lift (next_chunk nextChunk r) s = (Ret (Some (inr (c, HttpStreamResponse.setNextChunkFn fn' r))), s).
Proof. intros E E'. apply co_lift_Ret. unfold next_chunk. rewrite E. unfold catch, mbind, M_bind. by rewrite pure, E'. Qed.

Lemma next_thrown r fn e (s : HttpConnection) : HttpStreamResponse.nextChunkFn_ r = Some fn -> step fn = Throw e ->
  co_lift (next_chunk nextChunk r) s = (Ret (Some (inl e)), s).
Proof. intros E E'. apply co_lift_Ret. unfold next_chunk. rewrite E. unfold catch, mbind, M_bind. by rewrite pure, E'. Qed.

Lemma stream_loop_sent fn chunks failure : gives step fn chunks failure -> forall r (s : HttpConnection) blocks buffered sofar,
  HttpStreamResponse.nextChunkFn_ r = Some fn -> stream_ok r chunks failure -> writing s [] buffered sofar -> (length chunks < blocks)%nat ->
  exists s', stream_loop blocks r s = (Ret (match failure with None => Some tt | Some _ => None end), s') /\
    writing s' [] buffered (sofar ++ concat (map (wire_block r) (chunks ++ last_blocks failure))) /\ request_ s' = request_ s.
Proof.
  induction 1 as [fn fn' E|fn e E|fn c fn' l failure E _ IH]; intros r s blocks buffered sofar Hn Ok W Hb; (destruct blocks as [|blocks]; [cbn in Hb; lia|]); cbn [HttpConnection.stream_loop].
  - rewrite (co_bind_Some _ _ _ _ _ (next_given r fn None fn' s Hn E)).
    destruct Ok as [Hk _ _ [Hu Hf]]. cbn [last_blocks map concat] in Hu, Hf. rewrite app_nil_r in Hf. apply Forall_cons in Hu as [Hu _].
    destruct (block_sent (HttpStreamResponse.setNextChunkFn fn' r) [] s [] buffered sofar Hk Hu Hf W) as (s1 & E1 & W1 & R1).
    destruct (pending_written s1 _ _ _ W1) as (s2 & E2 & W2 & R2). exists s2. rewrite (co_bind_Some _ _ _ _ _ E1). split; [exact E2|].
    split; [|congruence]. cbn [app last_blocks map concat]. by rewrite app_nil_r.
  - rewrite (co_bind_Some _ _ _ _ _ (next_thrown r fn e s Hn E)).
    destruct Ok as [Hk _ _ [Hu Hf]]. cbn [last_blocks map concat] in Hu, Hf. rewrite app_nil_r in Hf. apply Forall_cons in Hu as [Hu Hu2]. apply Forall_cons in Hu2 as [Hu2 _].
    assert (fits ([] ++ wire_block r (error_text e))) as Hf1 by (unfold fits in *; rewrite length_app in Hf; cbn [app]; lia).
    destruct (block_sent r (error_text e) s [] buffered sofar Hk Hu Hf1 W) as (s1 & E1 & W1 & R1).
    destruct (block_sent r [] s1 _ buffered sofar Hk Hu2 Hf W1) as (s2 & E2 & W2 & R2). destruct (pending_written s2 _ _ _ W2) as (s3 & E3 & W3 & R3).
    exists s3. change (match e with UnknownException => _ | _ => _ end) with (error_text e).
    rewrite (co_bind_Some _ _ _ _ _ E1), (co_bind_Some _ _ _ _ _ E2), (co_bind_Some _ _ _ _ _ E3). split; [done|].
    split; [|congruence]. cbn [app last_blocks map concat]. by rewrite app_nil_r.
  - set (r' := HttpStreamResponse.setNextChunkFn fn' r).
    rewrite (co_bind_Some _ _ _ _ _ (next_given r fn (Some c) fn' s Hn E)).
    destruct Ok as [Hk Hh Hcs Hl]. apply Forall_cons in Hcs as [[Hu Hf] Hcs].
    destruct (block_sent r' c s [] buffered sofar Hk Hu Hf W) as (s1 & E1 & W1 & R1). rewrite (co_bind_Some _ _ _ _ _ E1).
    destruct (flushed s1 _ _ _ W1) as (s2 & E2 & W2 & R2). rewrite (co_bind_Some _ _ _ true s2) by by apply co_lift_Ret. cbv iota.
    destruct (IH r' s2 blocks buffered (sofar ++ wire_block r c)) as (s3 & E3 & W3 & R3); [done|by split|exact W2|cbn in Hb; lia|].
    exists s3. split; [exact E3|]. split; [|congruence]. cbn [app map concat]. by rewrite app_assoc.
Qed.

(** A streamed response is sent exactly: its header, the blocks of the lambda, and the end
    of the body, each block when it is there; if the lambda throws, the text of the
    exception is the last block, and the connection is closed. *)
Lemma send_stream_sent fn chunks failure r (s : HttpConnection) blocks buffered sofar :
  gives step fn chunks failure -> HttpStreamResponse.nextChunkFn_ r = Some fn -> stream_ok r chunks failure -> ready s buffered sofar ->
  (length chunks < blocks)%nat ->
  exists s', send_stream blocks r s = (Ret (match failure with None => Some tt | Some _ => None end), s') /\ request_ s' = request_ s /\
    ready s' buffered (sofar ++
      HttpResponse.head_bytes cfg toHttpDate today (HttpStreamResponse.statusCode_ r) (HttpStreamResponse.headers r) (HttpStreamResponse.cookies r) ++
      concat (map (wire_block r) (chunks ++ last_blocks failure))).
Proof.
  intros G Hn Ok W%ready_writing Hb. set (head := HttpResponse.head_bytes _ _ _ _ _ _).
  destruct (appended (HttpStreamResponse.serializeHeaderInto cfg toHttpDate today r) s [] head buffered sofar W) as (s1 & E1 & W1 & R1).
  { assert (is_u64 (Z.of_nat (length ([] : bytes)))) as Z0 by (by unfold is_u64; cbn). destruct Ok as [Hk Hh _ _].
    rewrite (proj1 (HttpStreamResponse.stream_serialize cfg toHttpDate today r [] [] Hk Z0)). f_equal. by apply append_fits. }
  destruct (pending_written s1 _ _ _ W1) as (s2 & E2 & W2 & R2).
  destruct (stream_loop_sent fn chunks failure G r s2 blocks buffered _ Hn Ok W2 Hb) as (s3 & E3 & W3 & R3).
  exists s3. unfold HttpConnection.send_stream. split; [|split; [congruence|]].
  - assert (co_unless (fun s : HttpConnection => into_write_buffer (HttpStreamResponse.serializeHeaderInto cfg toHttpDate (date (stream_ (io_ s))) r) s) s = (Ret (Some tt), s1)) as E0.
    { unfold co_unless. rewrite (co_bind_Some _ _ _ true s1); [done|]. apply co_lift_Ret. by rewrite same_day. }
    rewrite (co_bind_Some _ _ _ _ _ E0), (co_bind_Some _ _ _ _ _ E2). exact E3.
  - apply ready_writing. rewrite app_assoc. exact W3.
Qed.

(** The blocks of a chunked stream on the wire, up to the first empty one and behind it. *)
Lemma wire_split r blocks before after : HttpStreamResponse.isChunked_ r = true -> blocks = before ++ [] :: after ->
  concat (map (wire_block r) blocks) = encoded before ++ concat (map HttpStreamResponse.chunk_bytes after).
Proof.
  intros Hc ->. rewrite (map_ext (wire_block r) HttpStreamResponse.chunk_bytes) by (intros c; unfold wire_block; by rewrite Hc).
  unfold encoded. by rewrite map_app, concat_app, <- app_assoc.
Qed.

(** C39: A chunked stream on the wire, as a receiver within its limits decodes it: it reads
    the blocks up to the first empty one, and finds what comes behind it.  The blocks are
    those of the lambda, the text of the exception if it throws, and the empty block
    that ends the body; so a stream without empty blocks is received whole, and nothing
    is left behind it. *)
Theorem stream_decodes fn chunks failure r (s : HttpConnection) blocks buffered sofar before after :
  limits_ok cfg -> gives step fn chunks failure -> HttpStreamResponse.nextChunkFn_ r = Some fn ->
  HttpStreamResponse.isChunked_ r = true -> stream_ok r chunks failure -> ready s buffered sofar -> (length chunks < blocks)%nat ->
  chunks ++ last_blocks failure = before ++ [] :: after ->
  Forall (fun c => 0 < Z.of_nat (length c) <= MAX_TE_CHUNK_LENGTH cfg) before -> Z.of_nat (length (concat before)) <= MAX_TE_LENGTH cfg ->
  exists s' w, send_stream blocks r s = (Ret (match failure with None => Some tt | Some _ => None end), s') /\
    ready s' buffered (sofar ++ HttpResponse.head_bytes cfg toHttpDate today (HttpStreamResponse.statusCode_ r) (HttpStreamResponse.headers r) (HttpStreamResponse.cookies r) ++ w) /\
    decodes cfg CHUNK_SIZE 0 0 w (concat before) (CRLF ++ concat (map HttpStreamResponse.chunk_bytes after)).
Proof.
  intros L G Hn Hc Ok Hr Hb Hsplit Hs Ht. destruct (send_stream_sent fn chunks failure r s blocks buffered sofar G Hn Ok Hr Hb) as (s' & E & _ & Hr').
  exists s', (encoded before ++ concat (map HttpStreamResponse.chunk_bytes after)). split; [exact E|]. split; [|by apply encoded_decodes].
  by rewrite <- (wire_split r _ before after Hc Hsplit).
Qed.

(** The end of the blocks of a stream without empty ones. *)
Lemma nothing_after chunks : chunks ++ last_blocks None = chunks ++ [] :: [].
Proof. done. Qed.

(** A lambda that throws: the text of the exception is the last of the body, without the
    heading of an error page, and the connection is closed. *)
Lemma text_after chunks e : chunks ++ last_blocks (Some e) = (chunks ++ [error_text e]) ++ [] :: [].
Proof. by rewrite <- app_assoc. Qed.

(** A lambda that gives an empty block has ended the body for the receiver: whatever it
    gives later stands where the next response is expected. *)
Lemma empty_block_ends chunks later : (chunks ++ [] :: later) ++ last_blocks None = chunks ++ [] :: (later ++ [[]]).
Proof. by rewrite <- app_assoc. Qed.
End Streaming.

(** ** Witnesses *)
Module StreamingWitnesses.
(** A lambda with a list of blocks, which throws at its end if it is told to. *)
Definition blocks_of (f : list bytes * bool) : outcome (option bytes * (list bytes * bool)) :=
  match f with
  | (c :: l, bad) => Ret (Some c, (l, bad))
  | ([], true) => Throw (RuntimeError "no more")
  | ([], false) => Ret (None, f)
  end.

Definition called (f : list bytes * bool) : M (HttpConnection Peer) (option bytes * (list bytes * bool)) := fun s => (blocks_of f, s).
Definition response (l : list bytes) (bad : bool) : HttpStreamResponse.HttpStreamResponse (list bytes * bool) :=
  HttpStreamResponse.HttpStreamResponse_fn 200 (l, bad).

(** Two blocks and an exception: its text is the end of the body. *)
Lemma stream_decodes_witness :
  let r := response ["hello"%string : bytes; " world"%string : bytes] true in
  let s := ConnectionWitnesses.connection (ConnectionWitnesses.peer [] []) [] no_body in
  exists s' w, send_stream default_config (fun _ => []) (fun _ => "today") (fun _ => []) called (fun k => k) 5 r s = (Ret None, s') /\
    decodes default_config CHUNK_SIZE 0 0 w "hello worldno more" CRLF.
Proof.
  intros r s.
  destruct (stream_decodes default_config (fun _ => []) (fun _ => "today") (fun _ => []) called (fun k => k)
    (fun d k => eq_refl : (@send Peer peer_net d k).1 = Z.of_nat (length d)) "today" (fun k => eq_refl) blocks_of (fun f s => eq_refl)
    (["hello"%string : bytes; " world"%string : bytes], true) ["hello"%string : bytes; " world"%string : bytes] (Some (RuntimeError "no more"))
    r s 5 [] [] ["hello"%string : bytes; " world"%string : bytes; "no more"%string : bytes] []) as (s' & w & E & _ & D).
  - apply DecoderWitnesses.limits_default.
  - do 2 (eapply gives_chunk; [reflexivity|]). by apply gives_throw.
  - reflexivity.
  - reflexivity.
  - split; [constructor|vm_compute; congruence|repeat apply Forall_cons_2; try apply Forall_nil_2; repeat split; vm_compute; congruence|].
    split; [|vm_compute; congruence]. repeat apply Forall_cons_2; try apply Forall_nil_2; repeat split; vm_compute; congruence.
  - split; try reflexivity; [split; simpl; lia|done].
  - cbn. lia.
  - reflexivity.
  - repeat apply Forall_cons_2; try apply Forall_nil_2; vm_compute; split; congruence.
  - vm_compute. congruence.
  - exists s', w. split; [exact E|exact D].
Defined.
End StreamingWitnesses.
