(* ===== verification/MultipartParser.v ===== *)
(** [MultipartParser.hpp]: multipart/form-data bodies, read through a buffer from
    the body stream and handed part by part to the registered handlers. *)
From S2P Require Import Prelude Bytes Effects ServerConfig HttpTypes BodyStream.
From S2P Require HttpRequest.

#[local] Open Scope Z_scope.
#[local] Open Scope co_scope.
#[local] Arguments list_ascii_of_string : simpl never.

(** The handlers are coroutines of the program; a file handler is moved out when
    its part is read ([None]: moved from). *)
Record MultipartParser (S : Type) := {
  contentLength_ : Z;
  contentConsumed_ : Z;
  reader_ : bytes;                  (** the valid bytes of [BufferedReader] *)
  boundary_ : bytes;
  fieldHandlers_ : list (bytes * (bytes -> M S unit));
  MultiFieldHandlers_ : list (bytes * (list bytes -> M S unit));
  fileHandlers_ : list (bytes * option (bytes -> M S unit));
}.
Arguments contentLength_ {S}. Arguments contentConsumed_ {S}. Arguments reader_ {S}. Arguments boundary_ {S}.
Arguments fieldHandlers_ {S}. Arguments MultiFieldHandlers_ {S}. Arguments fileHandlers_ {S}.

(** [findBoundary]: where the boundary begins, and whether it is the last one. *)
Definition findBoundary (boundary span : bytes) : option (nat * bool) :=
  match find_sub boundary span with
  | None => None
  | Some it =>
      match drop (it + length boundary) span with
      | a :: b :: _ =>
          if Ascii.eqb a "-" && Ascii.eqb b "-" then Some (it, true)
          else if Ascii.eqb a CR && Ascii.eqb b LF then Some (it, false)
          else None
      | _ => None
      end
  end.

Section Parser.
Context {S : Type} {HR : HasRequest S} {BIO : BodyIO S} (cfg : ServerConfig).
#[local] Abbreviation MultipartParser := (MultipartParser S).

(** [BufferedReader::read]: the span up to [validBytes_], and [n]. *)
Definition reader_read (buf : bytes) : M S (bytes * nat) :=
  data ← BodyStream.read (MULTIPART_BUFFER_SIZE cfg - Z.of_nat (length buf));
  mret (buf ++ data, length data).

(** [BufferedReader::consumeBytes]: undefined for more than the valid bytes. *)
Definition consumeBytes (n : nat) (buf : bytes) : outcome bytes :=
  if bool_decide (n <= length buf)%nat then Ret (drop n buf) else Undef.

Definition too_large {A} : M S A := throw (ServerException "Request size limit exceeded" 413 true).

(** [PartReader::readAndDo]: [doPart] is called with the value [t] it keeps. *)
Fixpoint readAndDo {T} (fuel : nat) (boundary : bytes) (maxSize : Z) (doPart : bytes -> T -> M S T)
    (totalConsumed : Z) (t : T) (buf : bytes) : co S (Z * bool * T * bytes) :=
  match fuel with
  | O => co_return
  | Datatypes.S fuel' =>
      let fullBoundarySize := (length boundary + 2)%nat in
      let* (span, _) := co_lift (reader_read buf) in
      match findBoundary boundary span with
      | None =>
          let totalConsumed := u64 (totalConsumed + u64 (Z.of_nat (length span) - Z.of_nat fullBoundarySize)) in
          if maxSize <? totalConsumed then co_lift too_large else
          if bool_decide (length span < fullBoundarySize)%nat then co_lift undefined else
          let n := (length span - fullBoundarySize)%nat in
          let* t := co_lift (doPart (take n span) t) in
          let* buf := co_lift (lift (consumeBytes n span)) in
          readAndDo fuel' boundary maxSize doPart totalConsumed t buf
      | Some (endOfPart, last) =>
          let endOfBoundary := (endOfPart + fullBoundarySize)%nat in
          let totalConsumed := u64 (totalConsumed + Z.of_nat endOfBoundary) in
          if maxSize <? totalConsumed then co_lift too_large else
          let* t := co_lift (doPart (take endOfPart span) t) in
          let* buf := co_lift (lift (consumeBytes endOfBoundary span)) in
          co_ret (totalConsumed, last, t, buf)
      end
  end.

(** [PartReader::drainTillBoundary] *)
Fixpoint drainTillBoundary (fuel : nat) (boundary : bytes) (maxSize : Z) (totalConsumed : Z) (buf : bytes) :
    co S (Z * bool * bytes) :=
  match fuel with
  | O => co_return
  | Datatypes.S fuel' =>
      let fullBoundarySize := (length boundary + 2)%nat in
      let* (span, _) := co_lift (reader_read buf) in
      match findBoundary boundary span with
      | None =>
          if bool_decide (length span < fullBoundarySize)%nat then co_lift undefined else
          let n := (length span - fullBoundarySize)%nat in
          let* buf := co_lift (lift (consumeBytes n span)) in
          let totalConsumed := u64 (totalConsumed + Z.of_nat n) in
          if maxSize <? totalConsumed then co_lift too_large
          else drainTillBoundary fuel' boundary maxSize totalConsumed buf
      | Some (endOfPart, last) =>
          let endOfBoundary := (endOfPart + fullBoundarySize)%nat in
          let totalConsumed := u64 (totalConsumed + Z.of_nat endOfBoundary) in
          if maxSize <? totalConsumed then co_lift too_large else
          let* buf := co_lift (lift (consumeBytes endOfBoundary span)) in
          co_ret (totalConsumed, last, buf)
      end
  end.

(** [string_view::substr(pos, count)], [pos] beyond the end throws. *)
Definition substr (pos : nat) (count : Z) (s : bytes) : outcome bytes :=
  if bool_decide (pos <= length s)%nat
  then Ret (take (Nat.min (Z.to_nat (Z.min count (Z.of_nat (length s)))) (length s - pos)) (drop pos s))
  else Throw OutOfRange.

(** The boundary of the content type.  [find] returns [npos], that is -1 modulo
    2^64, when there is no [boundary=]. *)
Definition content_boundary (contentType : bytes) : outcome bytes :=
  let boundaryIt := match find_sub "boundary=" contentType with Some i => Z.of_nat i | None => two64 - 1 end in
  let start := u64 (boundaryIt + 9) in
  let boundaryEndIt :=
    match find_char ";" (drop (Z.to_nat start) contentType) with
    | Some i => start + Z.of_nat i
    | None => two64 - 1
    end in
  let boundarySize := u64 (boundaryEndIt - start) in
  b ← substr (Z.to_nat start) boundarySize contentType;
  Ret (CRLF ++ "--" ++ b).

Definition size_limit (request : HttpRequest.HttpRequest) (r : Z + HttpRequest.ContentLengthError) : outcome Z :=
  match r with
  | inr HttpRequest.INVALID_CONTENT_LENGTH => Throw (ServerException "Invalid Content-Length" 400 true)
  | inr HttpRequest.NO_CONTENT_LENGTH_HEADER =>
      if negb (contains_sub "chunked" (toLowerCase (HttpRequest.getHeaderLower "transfer-encoding" request)))
      then Throw (ServerException "Content length or TE chunked required" 411 true)
      else Ret (MAX_MULTIPART_TE_LENGTH cfg)
  | inl n =>
      if MAX_MULTIPART_CONTENT_LENGTH cfg <? n then Throw (ServerException "Request size limit exceeded" 413 true)
      else Ret n
  end.

(** The constructor. *)
Definition MultipartParser_new : M S MultipartParser :=
  request ← gets get_request;
  let '(contentLengthResult, request) := HttpRequest.getContentLength request in
  modify_request (fun _ => request);;
  contentLength ← lift (size_limit request contentLengthResult);
  let contentType := HttpRequest.getHeaderLower "content-type" request in
  if negb (starts_with "multipart/form-data" contentType)
  then throw (ServerException "Request is not multipart/form-data" 415 true) else
  boundary ← lift (content_boundary contentType);
  if bool_decide (length boundary = 0%nat) then throw (ServerException "Boundary for multipart not found" 400 true) else
  if MAX_MULTIPART_BOUNDARY_LENGTH cfg <? Z.of_nat (length boundary)
  then throw (ServerException "Boundary for multipart is too long" 400 true) else
  mret {| contentLength_ := contentLength; contentConsumed_ := 0; reader_ := []; boundary_ := boundary;
          fieldHandlers_ := []; MultiFieldHandlers_ := []; fileHandlers_ := [] |}.

Definition update (consumed : Z) (buf : bytes) (p : MultipartParser) : MultipartParser :=
  {| contentLength_ := contentLength_ p; contentConsumed_ := consumed; reader_ := buf; boundary_ := boundary_ p;
     fieldHandlers_ := fieldHandlers_ p; MultiFieldHandlers_ := MultiFieldHandlers_ p; fileHandlers_ := fileHandlers_ p |}.

Definition onField (name : bytes) (handler : bytes -> M S unit) (p : MultipartParser) : MultipartParser :=
  {| contentLength_ := contentLength_ p; contentConsumed_ := contentConsumed_ p; reader_ := reader_ p; boundary_ := boundary_ p;
     fieldHandlers_ := fieldHandlers_ p ++ [(name, handler)]; MultiFieldHandlers_ := MultiFieldHandlers_ p;
     fileHandlers_ := fileHandlers_ p |}.

Definition onMultiField (name : bytes) (handler : list bytes -> M S unit) (p : MultipartParser) : MultipartParser :=
  {| contentLength_ := contentLength_ p; contentConsumed_ := contentConsumed_ p; reader_ := reader_ p; boundary_ := boundary_ p;
     fieldHandlers_ := fieldHandlers_ p; MultiFieldHandlers_ := MultiFieldHandlers_ p ++ [(name, handler)];
     fileHandlers_ := fileHandlers_ p |}.

Definition with_fileHandlers (l : list (bytes * option (bytes -> M S unit))) (p : MultipartParser) : MultipartParser :=
  {| contentLength_ := contentLength_ p; contentConsumed_ := contentConsumed_ p; reader_ := reader_ p; boundary_ := boundary_ p;
     fieldHandlers_ := fieldHandlers_ p; MultiFieldHandlers_ := MultiFieldHandlers_ p; fileHandlers_ := l |}.

Definition onFile (name : bytes) (handler : bytes -> M S unit) (p : MultipartParser) : MultipartParser :=
  with_fileHandlers (fileHandlers_ p ++ [(name, Some handler)]) p.

(** [storeFieldValue(name, value)]: [put] assigns the referenced string. *)
Definition storeFieldValue (name : bytes) (put : bytes -> S -> S) (p : MultipartParser) : MultipartParser :=
  onField name (fun v => modify (put v)) p.

(** [storeFieldValues(name, values)]: [push] appends to the referenced vector. *)
Definition storeFieldValues (name : bytes) (push : bytes -> S -> S) (p : MultipartParser) : MultipartParser :=
  onMultiField name (fun vs => modify (fun s => fold_left (fun s v => push v s) vs s)) p.

(** *** Part headers *)
Definition malformed_header {A} : outcome A := Throw (ServerException "Malformed part header" 400 true).

Fixpoint header_lines (fuel : nat) (headerView : bytes) (acc : fields) : outcome fields :=
  match headerView, fuel with
  | [], _ => Ret acc
  | _, O => Undef
  | _, Datatypes.S fuel' =>
      let '(header, rest) :=
        match find_sub CRLF headerView with
        | Some i => (take i headerView, drop (i + 2) headerView)
        | None => (headerView, drop 1 headerView)
        end in
      match header with
      | [] => header_lines fuel' rest acc
      | _ =>
          match find_char ":" header with
          | None => malformed_header
          | Some colonIt =>
              let name := trim (toLowerCase (take colonIt header)) in
              let value := trim (drop (colonIt + 1) header) in
              if bool_decide (name = []) || bool_decide (value = []) then malformed_header
              else header_lines fuel' rest (acc ++ [(name, value)])
          end
      end
  end.

(** The parameters of a Content-Disposition: form-data?, the name, a file? *)
Fixpoint disposition_loop (fuel : nat) (cdValue : bytes) (formData : bool) (partName : bytes) (isFile : bool) :
    outcome (bool * bytes * bool) :=
  match cdValue, fuel with
  | [], _ => Ret (formData, partName, isFile)
  | _, O => Undef
  | _, Datatypes.S fuel' =>
      let '(part, rest) :=
        match find_char ";" cdValue with
        | None => (cdValue, [])
        | Some i => (take i cdValue, drop (i + 1) cdValue)
        end in
      let part := trim part in
      if part =?b "form-data" then disposition_loop fuel' rest true partName isFile
      else
        match find_char "=" part with
        | None => disposition_loop fuel' rest formData partName isFile
        | Some equalsIt =>
            let paramName := trim (take equalsIt part) in
            let paramValue := trim (drop (equalsIt + 1) part) in
            if paramName =?b "name" then
              partName ← substr 1 (u64 (Z.of_nat (length paramValue) - 2)) paramValue;
              disposition_loop fuel' rest formData partName isFile
            else if paramName =?b "filename" then disposition_loop fuel' rest formData partName true
            else disposition_loop fuel' rest formData partName isFile
        end
  end.

(** What the headers of a part say: its name, and whether it is a file. *)
Definition part_info (headers : bytes) : outcome (bytes * bool) :=
  if bool_decide (headers = []) then Throw (ServerException "Malformed multipart: No part headers" 400 true) else
  headersVec ← header_lines (length headers) headers [];
  match assoc_first "content-disposition" headersVec with
  | None => Throw (ServerException "Malformed part header: No Content-Disposition" 400 true)
  | Some cdValue =>
      '(formData, partName, isFile) ← disposition_loop (length cdValue) cdValue false [] false;
      if negb (formData : bool)
      then Throw (ServerException "Content-Disposition must be form-data, others are not implemented" 501 true)
      else if bool_decide (partName = []) then Throw (ServerException "Multipart: No part name provided" 400 true)
      else Ret (partName, isFile)
  end.

(** Reading until the blank line: the span, and the size up to and with it. *)
Fixpoint part_head_loop (fuel : nat) (span : bytes) : co S (bytes * nat) :=
  match find_sub CRLF2 span with
  | Some i => co_ret (span, (i + 4)%nat)
  | None =>
      match fuel with
      | O => co_return
      | Datatypes.S fuel' =>
          if MAX_MULTIPART_PART_HEADER_SIZE cfg <? Z.of_nat (length span)
          then co_lift (throw (ServerException "Multipart part headers too large" 400 true)) else
          let* (span, n) := co_lift (reader_read span) in
          if bool_decide (n = 0%nat)
          then co_lift (throw (ServerException "Malformed multipart request: Part headers not found or too large" 400 true))
          else part_head_loop fuel' span
      end
  end.

(** A file handler is found by name and moved out. *)
Fixpoint move_handler (name : bytes) (l : list (bytes * option (bytes -> M S unit))) :
    option (option (bytes -> M S unit) * list (bytes * option (bytes -> M S unit))) :=
  match l with
  | [] => None
  | (k, h) :: rest =>
      if k =?b name then Some (h, (k, None) :: rest)
      else match move_handler name rest with Some (h', rest') => Some (h', (k, h) :: rest') | None => None end
  end.

(** Calling a moved-from [move_only_function] is undefined. *)
Definition call_file (h : option (bytes -> M S unit)) (d : bytes) (_ : unit) : M S unit :=
  match h with Some h => h d | None => undefined end.

Definition multi := gmap bytes (list bytes).

(** The body of a part: is it the last, the parser, the values of multi-fields. *)
Definition part_body (fuel : nat) (partName : bytes) (isFile : bool) (p : MultipartParser) (values : multi) :
    co S (bool * MultipartParser * multi) :=
  if isFile then
    match move_handler partName (fileHandlers_ p) with
    | Some (h, l) =>
        let* (totalConsumed, last, _, buf) :=
          readAndDo fuel (boundary_ p) (MAX_MULTIPART_FILE_SIZE cfg) (call_file h) 0 tt (reader_ p) in
        co_ret (last, update (u64 (contentConsumed_ p + totalConsumed)) buf (with_fileHandlers l p), values)
    | None =>
        let* (totalConsumed, last, buf) :=
          drainTillBoundary fuel (boundary_ p) (MAX_MULTIPART_FILE_SIZE cfg) 0 (reader_ p) in
        co_ret (last, update (if last then contentConsumed_ p else u64 (contentConsumed_ p + totalConsumed)) buf p, values)
    end
  else
    let* (totalConsumed, last, value, buf) :=
      readAndDo fuel (boundary_ p) (MAX_MULTIPART_FIELD_SIZE cfg) (fun d value => mret (value ++ d)) 0 [] (reader_ p) in
    let p := update (u64 (contentConsumed_ p + totalConsumed)) buf p in
    match assoc_first partName (fieldHandlers_ p), assoc_first partName (MultiFieldHandlers_ p) with
    | Some handler, _ => let* _ := co_lift (handler value) in co_ret (last, p, values)
    | None, Some _ => co_ret (last, p, <[partName := default [] (values !! partName) ++ [value]]> values)
    | None, None => co_ret (last, p, values)
    end.

(** [while (contentConsumed_ < contentLength_)] *)
Fixpoint all_parts_loop (rounds fuel : nat) (partCount : Z) (p : MultipartParser) (values : multi) :
    co S (MultipartParser * multi) :=
  match rounds with
  | O => co_return
  | Datatypes.S rounds' =>
      if contentConsumed_ p <? contentLength_ p then
        if MAX_MULTIPART_PARTS cfg <? partCount + 1
        then co_lift (throw (ServerException "Maximum number of multipart parts exceeded" 413 true)) else
        let* (span, _) := co_lift (reader_read (reader_ p)) in
        let* (span, headerSize) := part_head_loop fuel span in
        if MAX_MULTIPART_PART_HEADER_SIZE cfg <? Z.of_nat headerSize
        then co_lift (throw (ServerException "Multipart part headers too large" 400 true)) else
        let* buf := co_lift (lift (consumeBytes headerSize span)) in
        let p := update (u64 (contentConsumed_ p + Z.of_nat headerSize)) buf p in
        let* (partName, isFile) := co_lift (lift (part_info (take headerSize span))) in
        let* (last, p, values) := part_body fuel partName isFile p values in
        if (last : bool) then co_ret (p, values) else all_parts_loop rounds' fuel (partCount + 1) p values
      else co_ret (p, values)
  end.

(** [while (span.size() < firstBoundarySize)] *)
Fixpoint first_loop (fuel : nat) (firstBoundarySize : nat) (span : bytes) : co S bytes :=
  if bool_decide (length span < firstBoundarySize)%nat then
    match fuel with
    | O => co_return
    | Datatypes.S fuel' =>
        let* (span, _) := co_lift (reader_read span) in
        first_loop fuel' firstBoundarySize span
    end
  else co_ret span.

Definition no_initial {A} : M S A :=
  throw (ServerException "Malformed multipart request: no initial boundary found" 400 true).

(** The order in which an [unordered_map] is walked. *)
Context (iterate_map : multi -> list (bytes * list bytes)).

Fixpoint multi_handlers (l : list (bytes * list bytes)) (p : MultipartParser) : M S unit :=
  match l with
  | [] => mret tt
  | (key, val) :: l =>
      match assoc_first key (MultiFieldHandlers_ p) with
      | Some handler => handler val;; multi_handlers l p
      | None => multi_handlers l p
      end
  end.

(** [MultipartParser::go], with [fuel] rounds for each of its loops. *)
Definition go (fuel : nat) (p : MultipartParser) : co S unit :=
  let firstBoundarySize := length (boundary_ p) in
  let* span := first_loop fuel firstBoundarySize (reader_ p) in
  if negb (drop (firstBoundarySize - 2) (take firstBoundarySize span) =?b CRLF) then co_lift no_initial else
  if negb (take (firstBoundarySize - 2) span =?b drop 2 (boundary_ p)) then co_lift no_initial else
  let* buf := co_lift (lift (consumeBytes firstBoundarySize span)) in
  let p := update (u64 (contentConsumed_ p + Z.of_nat firstBoundarySize)) buf p in
  let* (p, values) := all_parts_loop fuel fuel 0 p ∅ in
  if contentLength_ p <? contentConsumed_ p then co_lift too_large else
  co_lift (multi_handlers (iterate_map values) p).
End Parser.

(** ** Properties *)
Section Streaming.
Context {S : Type} {BIO : BodyIO S} (cfg : ServerConfig).
Context {T : Type} (doPart : bytes -> T -> M S T).

(** [Inv s rest t got]: the stream has [rest] to deliver and fills the buffer it is
    given as long as it can; the handler was given [got] so far. *)
Context (Inv : S -> bytes -> T -> bytes -> Prop).
Hypothesis eager : forall s rest t got n, Inv s rest t got -> 0 < n ->
  exists s', BodyStream.read n s = (Ret (take (Z.to_nat n) rest), s') /\ Inv s' (drop (Z.to_nat n) rest) t got.
Hypothesis handled : forall s rest t got d, Inv s rest t got ->
  exists t' s', doPart d t s = (Ret t', s') /\ Inv s' rest t' (got ++ d).

Definition mark (last : bool) : bytes := if last then "--" else CRLF.

Lemma reader_read_eager buf s rest t got :
  Inv s rest t got -> Z.of_nat (length buf) < MULTIPART_BUFFER_SIZE cfg ->
  exists s' n, reader_read cfg buf s =
      (Ret (take (Z.to_nat (MULTIPART_BUFFER_SIZE cfg)) (buf ++ rest), n), s') /\
    Inv s' (drop (Z.to_nat (MULTIPART_BUFFER_SIZE cfg)) (buf ++ rest)) t got.
Proof.
  intros HI Hlt. set (cap := Z.to_nat (MULTIPART_BUFFER_SIZE cfg)).
  destruct (eager s rest t got (MULTIPART_BUFFER_SIZE cfg - Z.of_nat (length buf)) HI ltac:(lia)) as (s' & E & HI').
  unfold reader_read. rewrite (mbind_Ret _ _ _ _ _ E).
  replace (Z.to_nat (MULTIPART_BUFFER_SIZE cfg - Z.of_nat (length buf))) with (cap - length buf)%nat in * by lia.
  exists s', (length (take (cap - length buf) rest)). rewrite take_app_ge, drop_app_ge by lia. by split.
Qed.

Lemma findBoundary_found boundary data last after m :
  find_sub boundary (data ++ boundary ++ mark last ++ after) = Some (length data) ->
  (length data + length boundary + 2 <= m)%nat ->
  findBoundary boundary (take m (data ++ boundary ++ mark last ++ after)) = Some (length data, last).
Proof.
  intros Hf Hm. unfold findBoundary. rewrite (find_sub_take _ _ _ _ Hf) by lia.
  rewrite app_assoc, take_app_ge by (rewrite length_app; lia). rewrite drop_app_ge by (rewrite length_app; lia).
  rewrite length_app, Nat.sub_diag, drop_0.
  rewrite take_app_ge by (destruct last; simpl; lia). by destruct last.
Qed.

Lemma findBoundary_cut boundary data last after m :
  find_sub boundary (data ++ boundary ++ mark last ++ after) = Some (length data) ->
  (m < length data + length boundary + 2)%nat ->
  findBoundary boundary (take m (data ++ boundary ++ mark last ++ after)) = None.
Proof.
  intros Hf Hm. unfold findBoundary. set (w := data ++ boundary ++ mark last ++ after) in *.
  destruct (find_sub boundary (take m w)) as [i|] eqn:E; [|done].
  pose proof (find_sub_extend _ _ (drop m w) _ E) as He. rewrite take_drop, Hf in He. injection He as <-.
  destruct (drop (length data + length boundary) (take m w)) as [|a [|b r]] eqn:Ed; [done|done|].
  apply (f_equal length) in Ed. rewrite length_drop, length_take in Ed. simpl in Ed. lia.
Qed.

(** whatever the size of a part, a stream that fills its buffer hands it to the
    handler whole and in order, block by block, and stops right behind the
    boundary that ends it. *)
Theorem part_streaming fuel boundary maxSize total data last after buf s rest t got :
  Inv s rest t got -> buf ++ rest = data ++ boundary ++ mark last ++ after ->
  find_sub boundary (data ++ boundary ++ mark last ++ after) = Some (length data) ->
  Z.of_nat (length boundary + 2) < MULTIPART_BUFFER_SIZE cfg -> Z.of_nat (length buf) < MULTIPART_BUFFER_SIZE cfg ->
  0 <= total -> total + Z.of_nat (length data + length boundary + 2) <= maxSize < two64 ->
  (length data < fuel)%nat ->
  exists t' buf' s' rest',
    readAndDo cfg fuel boundary maxSize doPart total t buf s =
      (Ret (Some (total + Z.of_nat (length data + length boundary + 2), last, t', buf')), s') /\
    Inv s' rest' t' (got ++ data) /\ buf' ++ rest' = after /\ Z.of_nat (length buf') < MULTIPART_BUFFER_SIZE cfg.
Proof.
  set (cap := Z.to_nat (MULTIPART_BUFFER_SIZE cfg)). set (full := (length boundary + 2)%nat).
  revert total data buf s rest t got. induction fuel as [|fuel IH]; intros total data buf s rest t got HI Hw Hf Hcap Hbuf Ht0 Ht Hfuel; [lia|].
  cbn [readAndDo]. destruct (reader_read_eager buf s rest t got HI Hbuf) as (s1 & n & E & HI1).
  rewrite (co_bind_Some _ _ _ _ _ (co_lift_Ret _ _ _ _ E)). rewrite Hw in *. fold cap in HI1 |- *. fold full.
  set (w := data ++ boundary ++ mark last ++ after) in *.
  assert (length w = length data + full + length after)%nat as Hwl by (unfold w, full; rewrite !length_app; destruct last; simpl; lia).
  destruct (Nat.le_gt_cases (length data + length boundary + 2) cap) as [Hin|Hout].
  - pose proof (findBoundary_found boundary data last after cap Hf ltac:(lia)) as Hfb. fold w in Hfb. rewrite Hfb.
    rewrite u64_small by (unfold is_u64; lia).
    destruct (Z.ltb_spec maxSize (total + Z.of_nat (length data + full))); [unfold full in *; lia|].
    assert (take (length data) (take cap w) = data) as Hd by (rewrite take_take, Nat.min_l by lia; unfold w; apply take_app_length).
    rewrite Hd. destruct (handled s1 _ t got data HI1) as (t' & s2 & E2 & HI2).
    rewrite (co_bind_Some _ _ _ _ _ (co_lift_Ret _ _ _ _ E2)).
    unfold consumeBytes. rewrite bool_decide_eq_true_2 by (rewrite length_take; lia).
    rewrite (co_bind_Some _ _ s2 (drop (length data + full) (take cap w)) s2) by done.
    exists t', (drop (length data + full) (take cap w)), s2, (drop cap w). unfold full at 1. rewrite Nat.add_assoc.
    split_and!; [done|done| |rewrite length_drop, length_take; unfold full; lia].
    rewrite <- drop_app_le, take_drop by (rewrite length_take; lia). unfold w, full.
    rewrite !app_assoc. apply drop_app_length'. rewrite !length_app. destruct last; simpl; lia.
  - pose proof (findBoundary_cut boundary data last after cap Hf ltac:(lia)) as Hfb. fold w in Hfb. rewrite Hfb.
    assert (length (take cap w) = cap) as Hcl by (rewrite length_take; lia). rewrite Hcl.
    set (k := (cap - full)%nat). assert (0 < k <= length data)%nat as Hk by lia.
    replace (Z.of_nat cap - Z.of_nat full) with (Z.of_nat k) by lia.
    rewrite (u64_small (Z.of_nat k)), u64_small by (unfold is_u64; lia).
    destruct (Z.ltb_spec maxSize (total + Z.of_nat k)); [lia|]. rewrite bool_decide_eq_false_2 by lia. fold k.
    assert (take k (take cap w) = take k data) as Hd by (rewrite take_take, Nat.min_l by lia; unfold w; by rewrite take_app_le by lia).
    rewrite Hd. destruct (handled s1 _ t got (take k data) HI1) as (t1 & s2 & E2 & HI2).
    rewrite (co_bind_Some _ _ _ _ _ (co_lift_Ret _ _ _ _ E2)).
    unfold consumeBytes. rewrite bool_decide_eq_true_2 by lia.
    rewrite (co_bind_Some _ _ s2 (drop k (take cap w)) s2) by done.
    assert (drop k w = drop k data ++ boundary ++ mark last ++ after) as Hdw by (unfold w; by rewrite drop_app_le by lia).
    destruct (IH (total + Z.of_nat k) (drop k data) (drop k (take cap w)) s2 (drop cap w) t1 (got ++ take k data) HI2)
      as (t2 & buf2 & s3 & rest3 & E3 & HI3 & Hafter).
    + rewrite <- drop_app_le, take_drop by lia. exact Hdw.
    + rewrite <- Hdw, length_drop. apply find_sub_drop; [done|lia].
    + done.
    + rewrite length_drop. lia.
    + lia.
    + rewrite length_drop. lia.
    + rewrite length_drop. lia.
    + exists t2, buf2, s3, rest3. rewrite E3. split; [do 6 f_equal; rewrite length_drop; lia|].
      rewrite <- app_assoc, take_drop in HI3. by split.
Qed.
End Streaming.

Section Truncated.
Context {S : Type} {HR : HasRequest S} {BIO : BodyIO S} (cfg : ServerConfig).

(** a body that ends without its boundary is never given up: once the stream
    is exhausted, reading a part goes round forever without suspending, and so does
    waiting for the first boundary, whatever the number of rounds. *)
Theorem truncated_hangs {T} (doPart : bytes -> T -> M S T) fuel boundary maxSize total t buf s b :
  get_body s = Some b -> exhausted_ b = true ->
  (forall d t s, get_body s = Some b -> exists t' s', doPart d t s = (Ret t', s') /\ get_body s' = Some b) ->
  find_sub boundary buf = None -> (length boundary + 2 <= length buf)%nat ->
  0 <= total -> total + Z.of_nat (length buf) <= maxSize < two64 ->
  (exists s', readAndDo cfg fuel boundary maxSize doPart total t buf s = (Ret None, s')) /\
  (forall n span, (length span < n)%nat -> first_loop cfg fuel n span s = (Ret None, s)).
Proof.
  intros Hb He Hdo Hf Hlen Ht0 Ht.
  assert (forall (buf : bytes) s, get_body s = Some b -> reader_read cfg buf s = (Ret (buf, 0%nat), s)) as Hread.
  { intros buf' s' Hb'. unfold reader_read, BodyStream.read, the_body, mbind, M_bind. rewrite Hb', He. cbn.
    by rewrite app_nil_r. }
  split.
  - revert total t buf s Hb Hf Hlen Ht0 Ht.
    induction fuel as [|fuel IH]; intros total t buf s Hb Hf Hlen Ht0 Ht; [by exists s|]. cbn [readAndDo].
    rewrite (co_bind_Some _ _ _ _ _ (co_lift_Ret _ _ _ _ (Hread buf s Hb))).
    assert (findBoundary boundary buf = None) as -> by (unfold findBoundary; by rewrite Hf).
    set (k := (length buf - (length boundary + 2))%nat).
    replace (Z.of_nat (length buf) - Z.of_nat (length boundary + 2)) with (Z.of_nat k) by lia.
    rewrite (u64_small (Z.of_nat k)), u64_small by (unfold is_u64; lia).
    destruct (Z.ltb_spec maxSize (total + Z.of_nat k)); [lia|]. rewrite bool_decide_eq_false_2 by lia.
    destruct (Hdo (take k buf) t s Hb) as (t' & s1 & E & Hb1).
    rewrite (co_bind_Some _ _ _ _ _ (co_lift_Ret _ _ _ _ E)).
    unfold consumeBytes. rewrite bool_decide_eq_true_2 by lia.
    rewrite (co_bind_Some _ _ s1 (drop k buf) s1) by done.
    apply IH; [done|by apply find_sub_drop_None|rewrite length_drop; lia|lia|rewrite length_drop; lia].
  - intros n span Hn. induction fuel as [|fuel IH]; cbn [first_loop]; rewrite bool_decide_eq_true_2 by done; [done|].
    by rewrite (co_bind_Some _ _ _ _ _ (co_lift_Ret _ _ _ _ (Hread span s Hb))).
Qed.
End Truncated.

Module MultipartWitnesses.
(** A stream that fills its buffer, and a place for what a handler writes. *)
Record Source := { body : option BodyStream; left : bytes; written : bytes }.

Definition with_body (b : option BodyStream) (s : Source) : Source :=
  {| body := b; left := left s; written := written s |}.

#[local] Instance source_io : BodyIO Source := {|
  get_body := body;
  put_body := with_body;
  readFn _ size _ := fun s =>
    (Ret (take (Z.to_nat size) (left s)), {| body := body s; left := drop (Z.to_nat size) (left s); written := written s |});
  drainFn _ _ := mret tt;
|}.

Definition source (b : bytes) : Source :=
  {| body := Some (mkBodyStream (Z.of_nat (length b)) LengthBody); left := b; written := [] |}.

Definition write (d : bytes) (_ : unit) : M Source unit :=
  modify (fun s => {| body := body s; left := left s; written := written s ++ d |}).

Definition streaming (s : Source) (rest : bytes) (_ : unit) (got : bytes) : Prop :=
  left s = rest /\ written s = got /\
  exists b, body s = Some b /\ remaining_ b = Z.of_nat (length rest) /\ is_u64 (remaining_ b) /\
    (exhausted_ b = true -> rest = []).

Lemma streaming_eager s rest t got n : streaming s rest t got -> 0 < n ->
  exists s', BodyStream.read n s = (Ret (take (Z.to_nat n) rest), s') /\ streaming s' (drop (Z.to_nat n) rest) t got.
Proof.
  intros (Hl & Hw & b & Hb & Hr & Hu & He) Hn. unfold BodyStream.read, the_body, mbind, M_bind, get_body, source_io.
  rewrite Hb. destruct (exhausted_ b) eqn:Ex.
  - exists s. rewrite He, take_nil, drop_nil by done. split; [done|]. split; [by rewrite Hl, He|]. split; [done|].
    exists b. rewrite Hr, He in * by done. by split_and!.
  - unfold readFn. rewrite Hb. cbn. eexists. split; [by rewrite Hl|].
    assert (u64 (remaining_ b - Z.of_nat (length (take (Z.to_nat n) rest))) = Z.of_nat (length (drop (Z.to_nat n) rest))) as Hu'.
    { unfold is_u64 in Hu. rewrite u64_small; rewrite ?Hr, ?length_drop, ?length_take; [lia|]. unfold is_u64. lia. }
    rewrite Hu', Ex. cbn [orb]. split; [done|]. split; [done|]. eexists. split; [done|]. cbn.
    split; [done|]. split; [unfold is_u64 in *; rewrite length_drop; lia|].
    intros [H|H]%orb_true_iff; apply Z.eqb_eq in H; apply nil_length_inv; rewrite ?length_take, ?length_drop in *; lia.
Qed.

Definition small : ServerConfig := default_config.

(** A part of 4500 bytes does not fit the buffer of 4096. *)
Definition data : bytes := replicate 4500 "a"%char.
Definition bound : bytes := CRLF ++ "--xyz".

Lemma part_streaming_witness :
  exists buf' s' rest', readAndDo small 4501 bound (MAX_MULTIPART_FILE_SIZE small) write 0 tt [] (source (data ++ bound ++ "--" ++ "end")) =
      (Ret (Some (4509, true, tt, buf')), s') /\ written s' = data /\ buf' ++ rest' = "end".
Proof.
  destruct (part_streaming small write streaming streaming_eager) with
    (fuel := 4501%nat) (boundary := bound) (maxSize := MAX_MULTIPART_FILE_SIZE small) (total := 0) (data := data)
    (last := true) (after := list_ascii_of_string "end") (buf := @nil ascii) (rest := data ++ bound ++ "--" ++ "end")
    (s := source (data ++ bound ++ "--" ++ "end")) (t := tt) (got := @nil ascii)
    as (t' & buf' & s' & rest' & E & HI & Ha & _).
  - intros s rest [] got d (Hl & Hw & b & Hb & Hrest). eexists tt, _. split; [done|]. split; [done|].
    split; [cbn; by rewrite Hw|]. by exists b.
  - split; [done|]. split; [done|]. eexists. split; [done|]. split; [done|]. split; [vm_compute; split; congruence|done].
  - done.
  - apply (find_sub_app_notin CR (LF :: "--xyz") data). unfold data. intros Hc%elem_of_replicate_inv. by vm_compute in Hc.
  - vm_compute. done.
  - vm_compute. done.
  - done.
  - vm_compute. split; congruence.
  - apply Nat.ltb_lt. vm_compute. done.
  - destruct t'. exists buf', s', rest'. split; [exact E|]. split; [apply HI|exact Ha].
Defined.

Definition exhausted_source : Source := {| body := Some {| exhausted_ := true; remaining_ := 0; source_ := LengthBody |}; left := []; written := [] |}.

Lemma truncated_hangs_witness :
  (exists s', readAndDo small 1000 bound (MAX_MULTIPART_FILE_SIZE small) write 0 tt "no boundary" exhausted_source = (Ret None, s')) /\
  (forall n span, (length span < n)%nat -> first_loop small 1000 n span exhausted_source = (Ret None, exhausted_source)).
Proof.
  apply (truncated_hangs small write 1000 bound (MAX_MULTIPART_FILE_SIZE small) 0 tt "no boundary" exhausted_source
    {| exhausted_ := true; remaining_ := 0; source_ := LengthBody |}).
  - reflexivity.
  - reflexivity.
  - intros d t s Hb. eexists _, _. split; [reflexivity|exact Hb].
  - reflexivity.
  - simpl. lia.
  - lia.
  - vm_compute. split; congruence.
Defined.
End MultipartWitnesses.
