(* ===== verification/MultipartForm.v ===== *)
(** A whole multipart form through [MultipartParser::go] ([http/MultipartParser.hpp]):
    what the registered handlers are given, part by part, for a body made of parts. *)
From S2P Require Import Prelude Bytes Effects ServerConfig HttpTypes BodyStream MultipartParser.
From S2P Require HttpRequest.

#[local] Open Scope Z_scope.
#[local] Arguments list_ascii_of_string : simpl never.

(** ** The text of a form *)

(** A part: its header with the blank line, what the header says, and the data. *)
Record form_part := { part_head : bytes; part_name : bytes; part_file : bool; part_data : bytes }.

(** The parts, each ended by the boundary, the last one by the closing boundary. *)
Fixpoint parts_text (boundary : bytes) (l : list form_part) : bytes :=
  match l with
  | [] => []
  | p :: l => part_head p ++ part_data p ++ boundary ++ mark (match l with [] => true | _ => false end) ++ parts_text boundary l
  end.

Definition form_text (boundary : bytes) (l : list form_part) : bytes := drop 2 boundary ++ CRLF ++ parts_text boundary l.

Section Form.
Context {S : Type} {HR : HasRequest S} {BIO : BodyIO S} (cfg : ServerConfig).
#[local] Abbreviation MultipartParser := (MultipartParser S).

(** [Inv s rest x]: the stream has [rest] to deliver and fills the buffer it is given as
    long as it can; [x] is what the handlers have made of the form so far. *)
Context {X : Type} (Inv : S -> bytes -> X -> Prop).
Hypothesis eager : forall s rest x n, Inv s rest x -> 0 < n ->
  exists s', BodyStream.read n s = (Ret (take (Z.to_nat n) rest), s') /\ Inv s' (drop (Z.to_nat n) rest) x.

(** The registered handlers, and what they do. *)
Context (fields : list (bytes * (bytes -> M S unit))) (multis : list (bytes * (list bytes -> M S unit)))
        (files : list (bytes * option (bytes -> M S unit))).
Context (on_field : bytes -> bytes -> X -> X) (on_multi : bytes -> list bytes -> X -> X) (on_file : bytes -> bytes -> X -> X).

Hypothesis field_handled : forall name h v s rest x, assoc_first name fields = Some h -> Inv s rest x ->
  exists s', h v s = (Ret tt, s') /\ Inv s' rest (on_field name v x).
Hypothesis multi_handled : forall name h vs s rest x, assoc_first name multis = Some h -> Inv s rest x ->
  exists s', h vs s = (Ret tt, s') /\ Inv s' rest (on_multi name vs x).
Hypothesis file_handled : forall name h l d s rest x, move_handler name files = Some (Some h, l) -> Inv s rest x ->
  exists s', h d s = (Ret tt, s') /\ Inv s' rest (on_file name d x).
Hypothesis file_none : forall name x, on_file name [] x = x.
Hypothesis file_blocks : forall name a b x, on_file name (a ++ b) x = on_file name b (on_file name a x).

(** What a part does, and what is kept of the fields with several values. *)
Definition has_file (name : bytes) : bool := match move_handler name files with Some _ => true | None => false end.
Definition has_field (name : bytes) : bool := match assoc_first name fields with Some _ => true | None => false end.
Definition has_multi (name : bytes) : bool := match assoc_first name multis with Some _ => true | None => false end.

Definition deliver_part (st : X * multi) (p : form_part) : X * multi :=
  let '(x, values) := st in
  if part_file p then (if has_file (part_name p) then on_file (part_name p) (part_data p) x else x, values)
  else if has_field (part_name p) then (on_field (part_name p) (part_data p) x, values)
  else if has_multi (part_name p) then (x, <[part_name p := default [] (values !! part_name p) ++ [part_data p]]> values)
  else (x, values).

Definition deliver_multi (x : X) (v : bytes * list bytes) : X := if has_multi v.1 then on_multi v.1 v.2 x else x.

(** A part within the limits, whose data do not contain the boundary. *)
Record part_ok (boundary : bytes) (p : form_part) : Prop := {
  po_head : find_sub CRLF2 (part_head p) = Some (length (part_head p) - 4)%nat /\ (4 <= length (part_head p))%nat;
  po_info : part_info (part_head p) = Ret (part_name p, part_file p);
  po_header : Z.of_nat (length (part_head p)) <= MAX_MULTIPART_PART_HEADER_SIZE cfg;
  po_buffer : Z.of_nat (length (part_head p)) <= MULTIPART_BUFFER_SIZE cfg;
  po_data : find_sub boundary (part_data p ++ boundary) = Some (length (part_data p));
  po_size : Z.of_nat (length (part_data p) + length boundary + 2) <= (if part_file p then MAX_MULTIPART_FILE_SIZE cfg else MAX_MULTIPART_FIELD_SIZE cfg);
}.

Record limits : Prop := {
  li_files : MAX_MULTIPART_FILE_SIZE cfg < two64;
  li_fields : MAX_MULTIPART_FIELD_SIZE cfg < two64;
}.

(** ** Reading *)

Lemma reader_filled buf s rest x : Inv s rest x -> Z.of_nat (length buf) < MULTIPART_BUFFER_SIZE cfg ->
  exists s' n, reader_read cfg buf s = (Ret (take (Z.to_nat (MULTIPART_BUFFER_SIZE cfg)) (buf ++ rest), n), s') /\
    Inv s' (drop (Z.to_nat (MULTIPART_BUFFER_SIZE cfg)) (buf ++ rest)) x.
Proof.
  apply (reader_read_eager cfg (T := unit) (fun s rest _ _ => Inv s rest x) (fun s rest _ _ n => eager s rest x n) buf s rest tt []).
Qed.

(** A part without a handler is read over: as when its blocks went nowhere. *)
Lemma drain_reads fuel boundary maxSize total total' last buf buf' s s' :
  readAndDo cfg fuel boundary maxSize (fun _ t => mret t) total tt buf s = (Ret (Some (total', last, tt, buf')), s') ->
  drainTillBoundary cfg fuel boundary maxSize total buf s = (Ret (Some (total', last, buf')), s').
Proof.
  revert total buf s. induction fuel as [|fuel IH]; intros total buf s; [done|]. cbn [readAndDo drainTillBoundary].
  destruct (reader_read cfg buf s) as [[[span n]|e|] s1] eqn:E; [|unfold co_bind, co_lift; rewrite E; done..].
  rewrite !(co_bind_Some _ _ _ _ _ (co_lift_Ret _ _ _ _ E)). set (full := (length boundary + 2)%nat).
  destruct (findBoundary boundary span) as [[e l]|] eqn:Ef.
  - destruct (Z.ltb_spec maxSize (u64 (total + Z.of_nat (e + full)))); [done|].
    rewrite (co_bind_Some _ _ s1 tt s1) by done. unfold co_bind. destruct (co_lift _ s1) as [[[b|]|x|] s2]; [|done..]. cbn. by intros [= <- <- <- <-].
  - set (k := Z.of_nat (length span) - Z.of_nat full).
    assert (u64 (total + u64 k) = u64 (total + k)) as Hk by (unfold u64; apply Z.add_mod_idemp_r; by rewrite two64_val).
    rewrite Hk. destruct (Z.ltb_spec maxSize (u64 (total + k))); [done|]. destruct (bool_decide_reflect (length span < full)%nat); [done|].
    rewrite (co_bind_Some _ _ s1 tt s1) by done. unfold co_bind at 1 2. destruct (co_lift _ s1) as [[[b|]|x|] s2]; [|done..].
    replace (Z.of_nat (length span - full)) with k by lia. destruct (Z.ltb_spec maxSize (u64 (total + k))); [lia|]. apply IH.
Qed.

(** The handler that a name finds, and what is left when it is moved out. *)
Definition handler_of (name : bytes) (l : list (bytes * option (bytes -> M S unit))) : option (option (bytes -> M S unit)) :=
  match move_handler name l with Some (h, _) => Some h | None => None end.

Lemma moved_out name l h l' n : move_handler name l = Some (h, l') -> n <> name -> handler_of n l' = handler_of n l.
Proof.
  intros E Hn. revert l' E. induction l as [|[k h0] l IH]; intros l' E; [done|]. cbn [move_handler] in E. unfold handler_of in *. cbn [move_handler].
  destruct (beqb_spec k name) as [->|Hk].
  - injection E as <- <-. cbn [move_handler]. destruct (beqb_spec name n); [congruence|by destruct (move_handler n l) as [[? ?]|]].
  - destruct (move_handler name l) as [[h1 l1]|]; [|done]. injection E as -> <-. cbn [move_handler]. destruct (k =?b n); [done|].
    specialize (IH l1 eq_refl). by destruct (move_handler n l1) as [[? ?]|], (move_handler n l) as [[? ?]|].
Qed.

Hypothesis files_ready : forall name h l, move_handler name files = Some (h, l) -> h <> None.
Context (boundary : bytes) (length_ : Z).
Hypothesis small : limits.
Hypothesis fits : Z.of_nat (length boundary + 2) < MULTIPART_BUFFER_SIZE cfg.

(** What stays of a parser, with the files it can still be given. *)
Record set_up (p : MultipartParser) (free : bytes -> Prop) : Prop := {
  su_fields : fieldHandlers_ p = fields;
  su_multis : MultiFieldHandlers_ p = multis;
  su_boundary : boundary_ p = boundary;
  su_length : contentLength_ p = length_;
  su_files : forall name, free name -> handler_of name (fileHandlers_ p) = handler_of name files;
}.

(** The parser, the stream and the handlers in the middle of a form. *)
Record at_text (p : MultipartParser) (free : bytes -> Prop) (text : bytes) (consumed : Z) (x : X) (s : S) : Prop := {
  at_set_up : set_up p free;
  at_rest : exists rest, Inv s rest x /\ reader_ p ++ rest = text;
  at_buffer : Z.of_nat (length (reader_ p)) < MULTIPART_BUFFER_SIZE cfg;
  at_consumed : 0 <= contentConsumed_ p <= consumed;
}.

Lemma set_up_update p free consumed buf : set_up p free -> set_up (update consumed buf p) free.
Proof. by intros []. Qed.

(** The data of a part. *)
Lemma data_found data last after : find_sub boundary (data ++ boundary) = Some (length data) ->
  find_sub boundary (data ++ boundary ++ mark last ++ after) = Some (length data).
Proof. intros H. rewrite app_assoc. by apply find_sub_extend. Qed.

Lemma size_bound part : part_ok boundary part -> forall m, m = (if part_file part then MAX_MULTIPART_FILE_SIZE cfg else MAX_MULTIPART_FIELD_SIZE cfg) ->
  0 + Z.of_nat (length (part_data part) + length boundary + 2) <= m < two64.
Proof. intros [] m ->. destruct small. destruct (part_file part); lia. Qed.

(** The data of a part, given to a handler that keeps [Keep] of what it was given. *)
Lemma data_read {T} (doPart : bytes -> T -> M S T) (Keep : T -> bytes -> X -> Prop) part last after fuel m buf rest s x t :
  (forall s rest x t got d, Inv s rest x -> Keep t got x -> exists t' s' x', doPart d t s = (Ret t', s') /\ Inv s' rest x' /\ Keep t' (got ++ d) x') ->
  part_ok boundary part -> m = (if part_file part then MAX_MULTIPART_FILE_SIZE cfg else MAX_MULTIPART_FIELD_SIZE cfg) ->
  Inv s rest x -> Keep t [] x -> buf ++ rest = part_data part ++ boundary ++ mark last ++ after -> Z.of_nat (length buf) < MULTIPART_BUFFER_SIZE cfg ->
  (length (part_data part) < fuel)%nat ->
  exists t' buf' s' rest' x', readAndDo cfg fuel boundary m doPart 0 t buf s =
      (Ret (Some (Z.of_nat (length (part_data part) + length boundary + 2), last, t', buf')), s') /\
    Inv s' rest' x' /\ Keep t' (part_data part) x' /\ buf' ++ rest' = after /\ Z.of_nat (length buf') < MULTIPART_BUFFER_SIZE cfg.
Proof.
  intros Hdo Ok Hm HI HK Hw Hbuf Hfuel.
  destruct (part_streaming cfg doPart (fun s rest t got => exists x, Inv s rest x /\ Keep t got x)) with (fuel := fuel) (boundary := boundary)
    (maxSize := m) (total := 0) (data := part_data part) (last := last) (after := after) (buf := buf) (s := s) (rest := rest) (t := t) (got := @nil ascii)
    as (t' & buf' & s' & rest' & E & (x' & HI' & HK') & Ha & Hb); [..|by exists t', buf', s', rest', x'].
  - intros s0 rest0 t0 got n (x0 & HI0 & HK0) Hn. destruct (eager s0 rest0 x0 n HI0 Hn) as (s1 & E & HI1). exists s1. split; [done|]. by exists x0.
  - intros s0 rest0 t0 got d (x0 & HI0 & HK0). destruct (Hdo s0 rest0 x0 t0 got d HI0 HK0) as (t1 & s1 & x1 & E & HI1 & HK1). exists t1, s1. split; [done|]. by exists x1.
  - by exists x.
  - done.
  - by apply data_found, Ok.
  - done.
  - done.
  - lia.
  - by apply size_bound.
  - done.
Qed.

(** A part is given to its handler, whatever kind it is. *)
Lemma part_received fuel p free text consumed x values s part last :
  part_ok boundary part -> at_text p free (part_data part ++ boundary ++ mark last ++ text) consumed x s ->
  (part_file part = true -> free (part_name part)) -> (length (part_data part) < fuel)%nat -> 0 <= consumed -> consumed + Z.of_nat (length (part_data part) + length boundary + 2) < two64 ->
  exists p' s', part_body cfg fuel (part_name part) (part_file part) p values s = (Ret (Some (last, p', (deliver_part (x, values) part).2)), s') /\
    at_text p' (fun n => free n /\ ~ (part_file part = true /\ n = part_name part)) text (consumed + Z.of_nat (length (part_data part) + length boundary + 2))
      (deliver_part (x, values) part).1 s'.
Proof.
  intros Ok [Su (rest & HI & Hrest) Hbuf Hc] Hfree Hfuel Hc0 Hc1. set (n := Z.of_nat (length (part_data part) + length boundary + 2)) in *.
  assert (u64 (contentConsumed_ p + n) = contentConsumed_ p + n) as Hu by (apply u64_small; unfold is_u64; lia).
  unfold part_body, deliver_part. rewrite (su_boundary _ _ Su). destruct (part_file part) eqn:Ef.
  - pose proof (su_files _ _ Su _ (Hfree eq_refl)) as Hh. unfold handler_of in Hh. unfold has_file. destruct (move_handler (part_name part) files) as [[h0 l0]|] eqn:Em.
    + destruct (move_handler (part_name part) (fileHandlers_ p)) as [[h' l']|] eqn:Em'; [|done]. injection Hh as ->.
      destruct h0 as [h|]; [|by destruct (files_ready _ _ _ Em)].
      destruct (data_read (call_file (Some h)) (fun _ got x' => x' = on_file (part_name part) got x) part last text fuel (MAX_MULTIPART_FILE_SIZE cfg)
        (reader_ p) rest s x tt) as ([] & buf' & s' & rest' & x' & E & HI' & -> & Hw' & Hb'); try done.
      * intros s0 rest0 x0 [] got d HI0 ->. destruct (file_handled _ _ _ d s0 rest0 _ Em HI0) as (s1 & E & HI1).
        exists tt, s1, (on_file (part_name part) (got ++ d) x). rewrite file_blocks. by split_and!.
      * by rewrite Ef.
      * fold n in E. rewrite (co_bind_Some _ _ _ _ _ E). cbv beta iota. rewrite Hu. eexists _, s'. split; [reflexivity|]. split; [|by exists rest'|done|cbn; lia].
        destruct Su as [H1 H2 H3 H4 H5]. split; try done. intros m [Hm Hne]. cbn. rewrite (moved_out _ _ _ _ _ Em') by (intros ->; by apply Hne). by apply H5.
    + destruct (move_handler (part_name part) (fileHandlers_ p)) as [[h' l']|] eqn:Em'; [done|].
      destruct (data_read (fun _ t => mret t) (fun _ _ x' => x' = x) part last text fuel (MAX_MULTIPART_FILE_SIZE cfg)
        (reader_ p) rest s x tt) as ([] & buf' & s' & rest' & x' & E & HI' & -> & Hw' & Hb'); try done.
      * intros s0 rest0 x0 [] got d HI0 ->. by exists tt, s0, x.
      * by rewrite Ef.
      * fold n in E. rewrite (co_bind_Some _ _ _ _ _ (drain_reads _ _ _ _ _ _ _ _ _ _ E)). cbv beta iota. rewrite Hu. eexists _, s'. split; [reflexivity|].
        split; [|by exists rest'|done|destruct last; cbn; lia]. destruct Su as [H1 H2 H3 H4 H5]. split; try done. intros m [Hm _]. by apply H5.
  - destruct (data_read (fun d value => mret (value ++ d)) (fun t got x' => t = got /\ x' = x) part last text fuel (MAX_MULTIPART_FIELD_SIZE cfg)
        (reader_ p) rest s x []) as (t' & buf' & s' & rest' & x' & E & HI' & [-> ->] & Hw' & Hb'); try done.
    + intros s0 rest0 x0 t0 got d HI0 [-> ->]. by exists (got ++ d), s0, x.
    + by rewrite Ef.
    + fold n in E. rewrite (co_bind_Some _ _ _ _ _ E). cbv beta iota. rewrite Hu. set (p' := update _ _ p).
      assert (set_up p' (fun n => free n /\ ~ (false = true /\ n = part_name part))) as Su'.
      { destruct Su as [H1 H2 H3 H4 H5]. split; try done. intros m [Hm _]. by apply H5. }
      rewrite (su_fields _ _ Su'), (su_multis _ _ Su'). unfold has_field, has_multi.
      destruct (assoc_first (part_name part) fields) as [h|] eqn:Eh.
      * destruct (field_handled _ _ (part_data part) s' rest' x Eh HI') as (s2 & E2 & HI2). rewrite (co_bind_Some _ _ _ _ _ (co_lift_Ret _ _ _ _ E2)).
        eexists _, s2. split; [reflexivity|]. split; [done|by exists rest'|done|cbn; lia].
      * destruct (assoc_first (part_name part) multis); (eexists _, s'; split; [reflexivity|]; split; [done|by exists rest'|done|cbn; lia]).
Qed.

(** A second file of the same name: its handler is gone, and calling it is undefined. *)
Lemma second_file fuel p free text consumed x values s part last : part_ok boundary part -> part_file part = true ->
  at_text p free (part_data part ++ boundary ++ mark last ++ text) consumed x s -> handler_of (part_name part) (fileHandlers_ p) = Some None ->
  exists s', part_body cfg (Datatypes.S fuel) (part_name part) true p values s = (Undef, s').
Proof.
  intros Ok Ef [Su (rest & HI & Hrest) Hbuf _] Hh. unfold part_body. unfold handler_of in Hh. destruct (move_handler _ _) as [[h l]|]; [|done]. injection Hh as ->.
  destruct (reader_filled _ _ _ _ HI Hbuf) as (s1 & n & E & _). pose proof (size_bound part Ok) as Hsize. rewrite Ef in Hsize. specialize (Hsize _ eq_refl).
  rewrite (su_boundary _ _ Su), Hrest in *. cbn [readAndDo]. exists s1. set (w := part_data part ++ boundary ++ mark last ++ text) in *. set (cap := Z.to_nat (MULTIPART_BUFFER_SIZE cfg)) in *.
  assert (length w = length (part_data part) + (length boundary + 2) + length text)%nat as Hw by (assert (length (mark last) = 2%nat) by (by destruct last); unfold w; rewrite !length_app; lia).
  pose proof (data_found _ last text (po_data _ _ Ok)) as Hf. unfold co_bind at 1 2, co_lift at 1. rewrite E. cbv beta iota.
  destruct (Nat.le_gt_cases (length (part_data part) + length boundary + 2) cap).
  - pose proof (findBoundary_found boundary _ last text cap Hf ltac:(lia)) as Hb. fold w in Hb. rewrite Hb, u64_small by (unfold is_u64; lia).
    destruct (Z.ltb_spec (MAX_MULTIPART_FILE_SIZE cfg) (0 + Z.of_nat (length (part_data part) + (length boundary + 2)))); [lia|done].
  - pose proof (findBoundary_cut boundary _ last text cap Hf ltac:(lia)) as Hb. fold w in Hb. rewrite Hb.
    assert (length (take cap w) = cap) as -> by (rewrite length_take; lia). rewrite bool_decide_eq_false_2 by lia.
    rewrite (u64_small (Z.of_nat cap - _)) by (unfold is_u64; lia). rewrite u64_small by (unfold is_u64; lia).
    destruct (Z.ltb_spec (MAX_MULTIPART_FILE_SIZE cfg) (0 + (Z.of_nat cap - Z.of_nat (length boundary + 2)))); [lia|done].
Qed.

(** The header of a part is read as one piece, and taken out of the buffer. *)
Lemma head_read fuel p free text consumed x s part :
  part_ok boundary part -> at_text p free (part_head part ++ text) consumed x s -> 0 <= consumed -> consumed + Z.of_nat (length (part_head part)) < two64 ->
  exists span n buf s', reader_read cfg (reader_ p) s = (Ret (span, n), s') /\
    part_head_loop cfg fuel span s' = (Ret (Some (span, length (part_head part))), s') /\ take (length (part_head part)) span = part_head part /\
    consumeBytes (length (part_head part)) span = Ret buf /\
    at_text (update (u64 (contentConsumed_ p + Z.of_nat (length (part_head part)))) buf p) free text (consumed + Z.of_nat (length (part_head part))) x s'.
Proof.
  intros [[Hf H4] _ _ Hcap _ _] [Su (rest & HI & Hrest) Hbuf Hc] Hc0 Hc1. destruct (reader_filled _ _ _ _ HI Hbuf) as (s' & n & E & HI').
  rewrite Hrest in E, HI'. set (cap := Z.to_nat (MULTIPART_BUFFER_SIZE cfg)) in *. set (h := part_head part) in *.
  assert (length h <= length (take cap (h ++ text)))%nat as Hl by (rewrite length_take, length_app; lia).
  exists (take cap (h ++ text)), n, (drop (length h) (take cap (h ++ text))), s'. split; [exact E|]. split_and!.
  - assert (find_sub CRLF2 (take cap (h ++ text)) = Some (length h - 4)%nat) as Hf'.
    { apply find_sub_take; [by apply find_sub_extend|]. cbn [length CRLF2]. lia. }
    destruct fuel; cbn [part_head_loop]; rewrite Hf'; unfold co_ret; do 4 f_equal; lia.
  - rewrite take_take, Nat.min_l by lia. by rewrite take_app_length.
  - unfold consumeBytes. by rewrite bool_decide_eq_true_2.
  - rewrite u64_small by (unfold is_u64; lia). split; [by apply set_up_update| |cbn; rewrite length_drop, length_take; lia|cbn; lia].
    exists (drop cap (h ++ text)). split; [exact HI'|]. cbn [reader_ update]. by rewrite <- drop_app_le, take_drop, drop_app_length.
Qed.

Definition file_names (l : list form_part) : list bytes := map part_name (List.filter part_file l).

(** Part by part. *)
Lemma parts_received l rounds fuel count p free values s x consumed after :
  l <> [] -> Forall (part_ok boundary) l -> Forall (fun q => (length (part_data q) < fuel)%nat) l -> NoDup (file_names l) ->
  (forall name, name ∈ file_names l -> free name) -> at_text p free (parts_text boundary l ++ after) consumed x s ->
  0 <= consumed -> consumed + Z.of_nat (length (parts_text boundary l)) <= length_ < two64 ->
  count + Z.of_nat (length l) <= MAX_MULTIPART_PARTS cfg -> (length l <= rounds)%nat ->
  exists p' s', all_parts_loop cfg rounds fuel count p values s = (Ret (Some (p', (fold_left deliver_part l (x, values)).2)), s') /\
    at_text p' (fun _ => False) after (consumed + Z.of_nat (length (parts_text boundary l))) (fold_left deliver_part l (x, values)).1 s'.
Proof.
  revert rounds count p free values s x consumed. induction l as [|q l IH]; intros rounds count p free values s x consumed Hne Hok Hfuel Hnd Hfree At Hc0 Hc1 Hn Hr; [done|].
  apply Forall_cons in Hok as [Ok Hok], Hfuel as [Hf Hfuel]. destruct rounds as [|rounds]; [cbn in Hr; lia|].
  set (last := match l with [] => true | _ => false end).
  assert (parts_text boundary (q :: l) ++ after = part_head q ++ part_data q ++ boundary ++ mark last ++ (parts_text boundary l ++ after)) as Htext.
  { cbn [parts_text]. fold last. by rewrite <- !app_assoc. }
  assert (Z.of_nat (length (parts_text boundary (q :: l))) = Z.of_nat (length (part_head q)) + Z.of_nat (length (part_data q) + length boundary + 2) + Z.of_nat (length (parts_text boundary l))) as Hlen.
  { assert (length (mark last) = 2%nat) as H2 by (by destruct last). cbn [parts_text]. fold last. rewrite !length_app. lia. }
  rewrite Htext in At. rewrite Hlen in *. destruct (head_read fuel p free _ consumed x s q Ok At Hc0 ltac:(lia)) as (span & n & buf & s1 & E1 & E2 & E3 & E4 & At1).
  destruct At as [Su _ _ Hc]. cbn [all_parts_loop]. rewrite (su_length _ _ Su). destruct (Z.ltb_spec (contentConsumed_ p) length_); [|destruct (po_head _ _ Ok) as [_ ?]; lia].
  destruct (Z.ltb_spec (MAX_MULTIPART_PARTS cfg) (count + 1)); [cbn [length] in Hn; lia|].
  rewrite (co_bind_Some _ _ _ _ _ (co_lift_Ret _ _ _ _ E1)). cbv beta iota. rewrite (co_bind_Some _ _ _ _ _ E2). cbv beta iota.
  destruct (Z.ltb_spec (MAX_MULTIPART_PART_HEADER_SIZE cfg) (Z.of_nat (length (part_head q)))); [pose proof (po_header _ _ Ok); lia|].
  rewrite (co_bind_Some _ _ s1 buf s1) by (unfold co_lift, lift; by rewrite E4). cbv beta iota zeta.
  rewrite E3. rewrite (co_bind_Some _ _ s1 (part_name q, part_file q) s1) by (unfold co_lift, lift; by rewrite (po_info _ _ Ok)). cbv beta iota.
  destruct (part_received fuel _ free (parts_text boundary l ++ after) _ x values s1 q last Ok At1) as (p2 & s2 & E5 & At2); [|done|lia|lia|].
  { intros Hq. apply Hfree. unfold file_names. cbn [List.filter]. rewrite Hq. by left. }
  rewrite (co_bind_Some _ _ _ _ _ E5). cbv beta iota. cbn [fold_left]. rewrite <- Z.add_assoc in At2. destruct (deliver_part (x, values) q) as [x2 values2] eqn:Ed. cbn [fst snd] in *.
  destruct l as [|q' l].
  - subst last. cbn [parts_text app length] in *. eexists p2, s2. split; [reflexivity|]. cbn [fold_left fst]. rewrite Z.add_0_r.
    destruct At2 as [[F1 F2 F3 F4 _] Hrest Hb Hcons]. by repeat split; try done; try lia.
  - subst last. destruct (IH rounds (count + 1) p2 (fun name => free name /\ ~ (part_file q = true /\ name = part_name q)) values2 s2 x2
      (consumed + (Z.of_nat (length (part_head q)) + Z.of_nat (length (part_data q) + length boundary + 2))) ltac:(done) Hok Hfuel) as (p3 & s3 & E6 & At3).
    + unfold file_names in *. cbn [List.filter] in Hnd. destruct (part_file q); [by apply NoDup_cons in Hnd as [_ Hnd]|done].
    + intros name Hin. unfold file_names in *. cbn [List.filter] in Hnd, Hfree. destruct (part_file q).
      * cbn [map] in Hnd, Hfree. apply NoDup_cons in Hnd as [Hnd _]. split; [apply Hfree; by right|]. by intros [_ ->].
      * split; [by apply Hfree|by intros [? _]].
    + exact At2.
    + lia.
    + lia.
    + cbn [length] in *. lia.
    + cbn [length] in *. lia.
    + exists p3, s3. rewrite Z.add_assoc. split; [exact E6|]. by rewrite <- !Z.add_assoc in At3 |- *.
Qed.

(** At the end the values of the other fields, each list whole. *)
Lemma multi_received vs p free s rest x : set_up p free -> Inv s rest x ->
  exists s', multi_handlers vs p s = (Ret tt, s') /\ Inv s' rest (fold_left deliver_multi vs x).
Proof.
  intros Su. revert s x. induction vs as [|[key val] vs IH]; intros s x HI; cbn [multi_handlers fold_left]; [by exists s|].
  rewrite (su_multis _ _ Su). unfold deliver_multi at 2, has_multi. cbn [fst snd]. destruct (assoc_first key multis) as [h|] eqn:Eh; [|by apply IH].
  destruct (multi_handled key h val s rest x Eh HI) as (s1 & E & HI1). rewrite (mbind_Ret _ _ _ _ _ E). by apply IH.
Qed.

(** What a form makes of [x], the several values in the order in which the map is walked. *)
Definition received (walk : multi -> list (bytes * list bytes)) (l : list form_part) (x : X) : X :=
  let '(x, values) := fold_left deliver_part l (x, ∅) in fold_left deliver_multi (walk values) x.

(** The first boundary. *)
Lemma first_read fuel (p : MultipartParser) text x s : reader_ p = [] -> Inv s text x -> (0 < length boundary <= length text)%nat ->
  exists s', first_loop cfg (Datatypes.S fuel) (length boundary) (reader_ p) s = (Ret (Some (take (Z.to_nat (MULTIPART_BUFFER_SIZE cfg)) text)), s') /\
    Inv s' (drop (Z.to_nat (MULTIPART_BUFFER_SIZE cfg)) text) x.
Proof.
  intros -> HI Hl. destruct (reader_filled [] s text x HI) as (s' & n & E & HI'); [cbn; lia|]. cbn [app] in E, HI'. cbn [first_loop].
  rewrite bool_decide_eq_true_2 by (cbn; lia). exists s'. rewrite (co_bind_Some _ _ _ _ _ (co_lift_Ret _ _ _ _ E)). cbv beta iota. split; [|done].
  destruct fuel; cbn [first_loop]; rewrite bool_decide_eq_false_2 by (rewrite length_take; lia); done.
Qed.

(** A number of rounds beyond the length of the form is enough for its loops. *)
Lemma rounds_enough l : (length l <= length (parts_text boundary l))%nat /\ Forall (fun q => (length (part_data q) <= length (parts_text boundary l))%nat) l.
Proof.
  induction l as [|q l [IH1 IH2]]; [by split|]. cbn [parts_text length]. rewrite !length_app.
  assert (length (mark match l with [] => true | _ => false end) = 2%nat) as -> by by destruct l. split; [lia|].
  constructor; [lia|]. eapply Forall_impl; [exact IH2|]. cbn. intros r Hr. lia.
Qed.

Definition registered (p : MultipartParser) : Prop :=
  fieldHandlers_ p = fields /\ MultiFieldHandlers_ p = multis /\ fileHandlers_ p = files /\
  boundary_ p = boundary /\ contentLength_ p = length_ /\ contentConsumed_ p = 0 /\ reader_ p = [].

(** All of [go]: what the handlers have done, and where the parser stands. *)
Lemma go_received walk fuel (p : MultipartParser) b l after x s :
  boundary = CRLF ++ "--" ++ b -> registered p -> Inv s (form_text boundary l ++ after) x ->
  l <> [] -> Forall (part_ok boundary) l -> NoDup (file_names l) -> Z.of_nat (length l) <= MAX_MULTIPART_PARTS cfg ->
  Z.of_nat (length (form_text boundary l)) <= length_ < two64 -> (length (form_text boundary l) < fuel)%nat ->
  exists s' (p' : MultipartParser) rest', go cfg walk fuel p s = (Ret (Some tt), s') /\ reader_ p' ++ rest' = after /\
    Z.of_nat (length (reader_ p')) < MULTIPART_BUFFER_SIZE cfg /\ Inv s' rest' (received walk l x).
Proof.
  intros Hb (R1 & R2 & R3 & R4 & R5 & R6 & R7) HI Hne Hok Hnd Hn Hlen Hfuel. destruct fuel as [|fuel]; [lia|].
  set (cap := Z.to_nat (MULTIPART_BUFFER_SIZE cfg)). set (tail := parts_text boundary l ++ after).
  set (first := drop 2 boundary ++ CRLF). assert (form_text boundary l ++ after = first ++ tail) as Htext by (unfold form_text, first, tail; by rewrite <- !app_assoc).
  assert (2 <= length boundary)%nat as Hb2 by (rewrite Hb, length_app; cbn; lia).
  assert (length first = length boundary) as Hfl by (unfold first; rewrite length_app, length_drop; cbn; lia).
  assert (length (form_text boundary l) = length boundary + length (parts_text boundary l))%nat as Hft by (rewrite <- Hfl; unfold form_text, first; rewrite !length_app; lia).
  rewrite Htext in HI. destruct (first_read fuel p _ x s R7 HI) as (s1 & E1 & HI1); [rewrite length_app; lia|]. fold cap in E1, HI1.
  assert (take (length boundary) (take cap (first ++ tail)) = first) as Ht by (rewrite take_take, Nat.min_l by lia; rewrite <- Hfl; apply take_app_length).
  unfold go. rewrite R4. rewrite (co_bind_Some _ _ _ _ _ E1). cbv beta. rewrite Ht.
  assert (take (length boundary - 2) (take cap (first ++ tail)) = drop 2 boundary) as Ht2.
  { rewrite take_take, Nat.min_l by lia. unfold first. rewrite <- app_assoc. rewrite <- length_drop. apply take_app_length. }
  assert (drop (length boundary - 2) first = CRLF) as Hd by (unfold first; rewrite <- length_drop; apply drop_app_length).
  rewrite Ht2, Hd, !beqb_refl. cbn [negb]. unfold consumeBytes. rewrite bool_decide_eq_true_2 by (rewrite length_take, length_app; lia).
  rewrite (co_bind_Some _ _ s1 (drop (length boundary) (take cap (first ++ tail))) s1) by done. cbv beta zeta.
  rewrite R6, u64_small by (unfold is_u64; lia). set (p1 := update _ _ p).
  destruct (rounds_enough l) as [F1 F2].
  destruct (parts_received l (Datatypes.S fuel) (Datatypes.S fuel) 0 p1 (fun _ => True) ∅ s1 x (Z.of_nat (length boundary)) after) as (p2 & s2 & E2 & At2); try done; try lia.
  - eapply Forall_impl; [exact F2|]. cbn. intros q Hq. lia.
  - split; [split; try done; intros name _; by rewrite <- R3| |cbn; rewrite length_drop, length_take, length_app; lia|cbn; lia].
    exists (drop cap (first ++ tail)). split; [done|]. cbn [reader_ update p1]. rewrite <- drop_app_le, take_drop by (rewrite length_take, length_app; lia).
    rewrite <- Hfl. apply drop_app_length.
  - rewrite (co_bind_Some _ _ _ _ _ E2). cbv beta iota. destruct At2 as [Su2 (rest2 & HI2 & Hr2) Hb3 Hc2]. rewrite (su_length _ _ Su2).
    destruct (Z.ltb_spec length_ (contentConsumed_ p2)); [lia|]. unfold received. destruct (fold_left deliver_part l (x, ∅)) as [x2 values2]. cbn [fst snd] in *.
    destruct (multi_received (walk values2) p2 _ s2 rest2 x2 Su2 HI2) as (s3 & E3 & HI3). exists s3, p2, rest2. split; [|done]. by apply co_lift_Ret.
Qed.
End Form.

(** ** The header that a browser writes *)
Definition quotes (s : bytes) : bytes := DQUOTE :: s ++ [DQUOTE].
Definition parameter (key value : bytes) : bytes := SP :: (key ++ ["="%char] ++ quotes value).
Definition more (tl : option bytes) : bytes := match tl with Some r => ";"%char :: r | None => [] end.

(** The value of a Content-Disposition, and the header with the blank line. *)
Definition disposition (name : bytes) (file : option bytes) : bytes :=
  "form-data" ++ more (Some (parameter "name" name ++ more (fmap (parameter "filename") file))).
Definition standard_head (name : bytes) (file : option bytes) : bytes :=
  "Content-Disposition: " ++ disposition name file ++ CRLF2.

(** Names that need no quoting. *)
Definition plain (s : bytes) : Prop := (";"%char ∉ s) /\ (CR ∉ s).

Lemma parameter_split a tl : ";"%char ∉ a ->
  match find_char ";" (a ++ more tl) with None => (a ++ more tl, []) | Some i => (take i (a ++ more tl), drop (i + 1) (a ++ more tl)) end = (a, default [] tl).
Proof.
  intros Ha. destruct tl as [r|]; cbn [more default].
  - rewrite find_char_app by done. f_equal; [apply take_app_length|]. by rewrite drop_app_length_plus.
  - rewrite app_nil_r. by rewrite (proj2 (find_char_None _ _) Ha).
Qed.

Lemma disposition_step fuel a tl fd nm fl : ";"%char ∉ a -> a <> [] ->
  disposition_loop (Datatypes.S fuel) (a ++ more tl) fd nm fl =
    if trim a =?b "form-data" then disposition_loop fuel (default [] tl) true nm fl
    else match find_char "=" (trim a) with
         | None => disposition_loop fuel (default [] tl) fd nm fl
         | Some i =>
             let key := trim (take i (trim a)) in let value := trim (drop (i + 1) (trim a)) in
             if key =?b "name" then (n ← substr 1 (u64 (Z.of_nat (length value) - 2)) value; disposition_loop fuel (default [] tl) fd n fl)
             else if key =?b "filename" then disposition_loop fuel (default [] tl) fd nm true
             else disposition_loop fuel (default [] tl) fd nm fl
         end.
Proof.
  intros Ha Hn. destruct (a ++ more tl) as [|c r] eqn:E; [by destruct a|]. cbn [disposition_loop]. rewrite <- E.
  pose proof (parameter_split a tl Ha) as P. by rewrite P.
Qed.

Lemma quotes_ends s : no_blank_ends (quotes s).
Proof. unfold quotes. split; [done|]. cbn [rev]. by rewrite rev_app_distr. Qed.

(** The key and the value of a parameter. *)
Lemma parameter_parts key value : no_blank_ends key -> key <> [] -> "="%char ∉ key ->
  trim (parameter key value) = key ++ ["="%char] ++ quotes value /\ find_char "=" (key ++ ["="%char] ++ quotes value) = Some (length key) /\
  trim (take (length key) (key ++ ["="%char] ++ quotes value)) = key /\ trim (drop (length key + 1) (key ++ ["="%char] ++ quotes value)) = quotes value.
Proof.
  intros [K1 K2] Hk He. split_and!.
  - unfold parameter. apply HttpRequest.trim_space. split.
    + by destruct key.
    + rewrite rev_app_distr. unfold quotes. cbn [app rev]. by rewrite rev_app_distr.
  - by apply find_char_app.
  - rewrite take_app_length. by apply trim_id.
  - rewrite drop_app_length_plus. apply trim_id, quotes_ends.
Qed.

Lemma quoted_value value : is_u64 (Z.of_nat (length value)) -> substr 1 (u64 (Z.of_nat (length (quotes value)) - 2)) (quotes value) = Ret value.
Proof.
  intros Hu. assert (length (quotes value) = length value + 2)%nat as Hl by (unfold quotes; cbn [length]; rewrite length_app; cbn; lia).
  rewrite Hl. replace (Z.of_nat (length value + 2) - 2) with (Z.of_nat (length value)) by lia. rewrite u64_small by done.
  unfold substr. rewrite bool_decide_eq_true_2 by lia. f_equal. rewrite Hl, Z.min_l by lia. rewrite Nat2Z.id, Nat.min_l by lia.
  unfold quotes. change (drop 1 (DQUOTE :: value ++ [DQUOTE])) with (value ++ [DQUOTE]). apply take_app_length.
Qed.

Lemma parameter_plain key value : ";"%char ∉ key -> plain value -> ";"%char ∉ parameter key value.
Proof.
  intros Hk [Hv _]. unfold parameter, quotes. rewrite not_elem_of_cons, !not_elem_of_app, !not_elem_of_cons, not_elem_of_app, not_elem_of_cons.
  by split_and!; try done; inversion 1.
Qed.

Lemma disposition_parsed fuel name file : plain name -> is_u64 (Z.of_nat (length name)) -> (match file with Some f => plain f | None => True end) -> (3 <= fuel)%nat ->
  disposition_loop fuel (disposition name file) false [] false = Ret (true, name, match file with Some _ => true | None => false end).
Proof.
  intros Hn Hu Hf Hfuel. do 3 (destruct fuel as [|fuel]; [lia|]). unfold disposition.
  assert (forall a : bytes, bool_decide (";"%char ∉ a) = true -> ";"%char ∉ a) as Dec by (intros a; apply bool_decide_eq_true).
  rewrite (disposition_step _ "form-data"); [|exact (Dec "form-data" eq_refl)|done].
  change (trim "form-data" =?b "form-data") with true. cbv iota. cbn [default from_option id].
  destruct (parameter_parts "name" name) as (T1 & T2 & T3 & T4); [vm_compute; done|done|exact (proj1 (bool_decide_eq_true ("="%char ∉ ("name" : bytes))) eq_refl)|].
  rewrite (disposition_step _ (parameter "name" name)); [|apply parameter_plain; [exact (Dec "name" eq_refl)|done]|done]. rewrite T1, T2. cbv zeta. rewrite T3, T4, quoted_value by done.
  change ("name" ++ ["="%char] ++ quotes name =?b "form-data") with false. change ("name" =?b "name") with true. cbv iota. cbn [mbind outcome_bind].
  destruct file as [f|]; cbn [fmap option_fmap option_map default]; [|done].
  destruct (parameter_parts "filename" f) as (U1 & U2 & U3 & U4); [vm_compute; done|done|exact (proj1 (bool_decide_eq_true ("="%char ∉ ("filename" : bytes))) eq_refl)|].
  rewrite <- (app_nil_r (parameter "filename" f)). rewrite (disposition_step _ (parameter "filename" f) None); [|apply parameter_plain; [exact (Dec "filename" eq_refl)|done]|done].
  rewrite U1, U2. cbv zeta. rewrite U3, U4.
  change ("filename" ++ ["="%char] ++ quotes f =?b "form-data") with false. by destruct fuel.
Qed.

(** A line of a header. *)
Lemma header_line_step fuel key value rest acc : CR ∉ key -> CR ∉ value -> ":"%char ∉ key -> trim (toLowerCase key) <> [] -> value <> [] -> no_blank_ends value ->
  header_lines (Datatypes.S fuel) (key ++ [":"%char; SP] ++ value ++ CRLF ++ rest) acc = header_lines fuel rest (acc ++ [(trim (toLowerCase key), value)]).
Proof.
  intros Hk Hv Hc Hke Hve Hb. set (line := key ++ [":"%char; SP] ++ value).
  assert (key ++ [":"%char; SP] ++ value ++ CRLF ++ rest = line ++ CRLF ++ rest) as -> by (unfold line; by rewrite <- !app_assoc).
  assert (CR ∉ line) as Hl by (unfold line; rewrite !not_elem_of_app, !not_elem_of_cons; split_and!; try done; inversion 1).
  assert (find_sub CRLF (line ++ CRLF ++ rest) = Some (length line)) as Hf by (by apply (find_sub_app_notin CR [LF])).
  assert (find_char ":" line = Some (length key)) as Hcol by (by apply find_char_app).
  assert (trim (drop (length key + 1) line) = value) as Ht by (unfold line; rewrite drop_app_length_plus; by apply HttpRequest.trim_space).
  assert (take (length key) line = key) as Htk by apply take_app_length.
  assert (line <> []) as Hn by (intros Hz; unfold line in Hz; by destruct key).
  destruct (line ++ CRLF ++ rest) as [|c r] eqn:E; [by destruct line|]. cbn [header_lines]. rewrite <- E in *. rewrite Hf.
  rewrite take_app_length, drop_app_length_plus. change (drop 2 (CRLF ++ rest)) with rest. destruct line as [|c' line'] eqn:El; [done|].
  rewrite Hcol, Htk, Ht. by rewrite !bool_decide_eq_false_2.
Qed.

Lemma header_end fuel acc : header_lines (Datatypes.S fuel) CRLF acc = Ret acc.
Proof. by destruct fuel. Qed.

Lemma disposition_ends name file : no_blank_ends (disposition name file).
Proof.
  split; [done|]. unfold disposition. rewrite rev_app_distr. cbn [more].
  assert (forall a key value l, exists r, rev (a ++ parameter key value) ++ l = DQUOTE :: r) as R.
  { intros a key value l. unfold parameter, quotes. cbn [app]. eexists. rewrite rev_app_distr. cbn [rev]. rewrite !rev_app_distr. cbn [rev]. rewrite rev_app_distr. reflexivity. }
  destruct file as [f|]; cbn [fmap option_fmap option_map more].
  - destruct (R (";"%char :: parameter "name" name ++ [";"%char]) "filename" f (rev ("form-data" : bytes))) as [r E].
    replace (";"%char :: (parameter "name" name ++ ";"%char :: parameter "filename" f)) with ((";"%char :: parameter "name" name ++ [";"%char]) ++ parameter "filename" f)
      by (cbn [app]; by rewrite <- app_assoc). by rewrite E.
  - rewrite app_nil_r. destruct (R [";"%char] "name" name (rev ("form-data" : bytes))) as [r E]. cbn [app] in E. by rewrite E.
Qed.

Lemma disposition_no_cr name file : plain name -> (match file with Some f => plain f | None => True end) -> CR ∉ disposition name file.
Proof.
  intros [_ Hn] Hf. assert (forall key value, bool_decide (CR ∉ key) = true -> CR ∉ value -> CR ∉ parameter key value) as P.
  { intros key value Hk%bool_decide_eq_true Hv. unfold parameter, quotes. rewrite not_elem_of_cons, !not_elem_of_app, !not_elem_of_cons, not_elem_of_app, not_elem_of_cons.
    by split_and!; try done; inversion 1. }
  unfold disposition. cbn [more]. rewrite not_elem_of_app, not_elem_of_cons, not_elem_of_app.
  split; [exact (proj1 (bool_decide_eq_true (CR ∉ ("form-data" : bytes))) eq_refl)|]. split; [done|]. split; [by apply P|].
  destruct file as [f|]; cbn [fmap option_fmap option_map more]; [|inversion 1]. destruct Hf as [_ Hf]. rewrite not_elem_of_cons. split; [done|]. by apply P.
Qed.

Definition content_disposition : bytes := "Content-Disposition".

Lemma standard_lines fuel name file : plain name -> (match file with Some f => plain f | None => True end) ->
  header_lines (Datatypes.S (Datatypes.S fuel)) (standard_head name file) [] = Ret [("content-disposition" : bytes, disposition name file)].
Proof.
  intros Hn Hf. change (standard_head name file) with (content_disposition ++ [":"%char; SP] ++ disposition name file ++ CRLF ++ CRLF).
  assert (trim (toLowerCase content_disposition) = "content-disposition") as E by (vm_compute; reflexivity).
  rewrite header_line_step, header_end, E; [done|exact (proj1 (bool_decide_eq_true (CR ∉ content_disposition)) eq_refl)|by apply disposition_no_cr
    |exact (proj1 (bool_decide_eq_true (":"%char ∉ content_disposition)) eq_refl)|by rewrite E|done|apply disposition_ends].
Qed.

Lemma disposition_long name file : (3 <= length (disposition name file))%nat.
Proof. unfold disposition. rewrite length_app. change (length ("form-data" : bytes)) with 9%nat. lia. Qed.

(** What such a header says. *)
Lemma standard_info name file : plain name -> name <> [] -> is_u64 (Z.of_nat (length name)) -> (match file with Some f => plain f | None => True end) ->
  part_info (standard_head name file) = Ret (name, match file with Some _ => true | None => false end).
Proof.
  intros Hn Hne Hu Hf. unfold part_info. rewrite bool_decide_eq_false_2 by done.
  assert (exists n, length (standard_head name file) = Datatypes.S (Datatypes.S n)) as [n ->].
  { exists (length (standard_head name file) - 2)%nat. pose proof (disposition_long name file). unfold standard_head. rewrite !length_app. lia. }
  rewrite standard_lines by done. cbn [mbind outcome_bind assoc_first]. rewrite beqb_refl, disposition_parsed by (done || apply disposition_long).
  cbn [mbind outcome_bind negb]. by rewrite bool_decide_eq_false_2.
Qed.

(** Where it ends. *)
Lemma standard_end name file : plain name -> (match file with Some f => plain f | None => True end) ->
  find_sub CRLF2 (standard_head name file) = Some (length (standard_head name file) - 4)%nat /\ (4 <= length (standard_head name file))%nat.
Proof.
  intros Hn Hf. unfold standard_head. rewrite app_assoc. set (a := "Content-Disposition: " ++ disposition name file). rewrite length_app. cbn [length CRLF2]. split; [|lia].
  assert (CR ∉ a) as Ha by (unfold a; rewrite not_elem_of_app; split; [exact (proj1 (bool_decide_eq_true (CR ∉ ("Content-Disposition: " : bytes))) eq_refl)|by apply disposition_no_cr]).
  rewrite Nat.add_sub. pose proof (find_sub_app_notin CR [LF; CR; LF] a [] Ha) as F. by rewrite app_nil_r in F.
Qed.

(** ** Witnesses *)
Module MultipartFormWitnesses.
Import MultipartWitnesses.
#[local] Existing Instance source_io.

Definition rounds : nat := Z.to_nat 6000.

Definition appending (d : bytes) : M Source unit := modify (fun s => {| body := body s; left := left s; written := written s ++ d |}).
Definition on_fields : list (bytes * (bytes -> M Source unit)) := [("user" : bytes, appending)].
Definition on_multis : list (bytes * (list bytes -> M Source unit)) := [("terms" : bytes, fun vs => appending (concat vs))].
Definition on_files : list (bytes * option (bytes -> M Source unit)) := [("file" : bytes, Some appending)].

Definition text_part (name data : bytes) : form_part := {| part_head := standard_head name None; part_name := name; part_file := false; part_data := data |}.
Definition file_part (name filename data : bytes) : form_part :=
  {| part_head := standard_head name (Some filename); part_name := name; part_file := true; part_data := data |}.

(** Two values of one field around a file that does not fit the buffer, and a file that
    nobody asked for. *)
Definition form : list form_part :=
  [text_part "terms" "b"; text_part "user" "u"; file_part "file" "a.txt" data; text_part "terms" "c"; file_part "other" "x" "ignored"].

Definition parser (n : Z) : MultipartParser Source :=
  {| contentLength_ := n; contentConsumed_ := 0; reader_ := []; boundary_ := bound; fieldHandlers_ := on_fields;
     MultiFieldHandlers_ := on_multis; fileHandlers_ := on_files |}.

Lemma appending_ok s rest x d : streaming s rest tt x -> exists s', appending d s = (Ret tt, s') /\ streaming s' rest tt (x ++ d).
Proof. intros (Hl & Hw & b & Hb). eexists. split; [reflexivity|]. split; [exact Hl|]. split; [cbn; by rewrite Hw|]. by exists b. Qed.

End MultipartFormWitnesses.
