(* ===== verification/Executor.v ===== *)
(** The event loop ([core/Executor.hpp], [core/Executor.cpp]): it owns the spawned
    coroutines, and resumes a suspended one when its descriptor is ready, its
    deadline has passed, its file operation completed, its pool job was posted or
    its number of turns is over.  What a resumed coroutine does is the sequence of
    calls it makes; the kernel's reports are inputs. *)
From S2P Require Import Prelude.

#[local] Open Scope Z_scope.

(** Conversion of a 64-bit value to [int]: the keys of [suspendedTasks_] and the
    sequence numbers are [int]s. *)
Definition to_int (z : Z) : Z := (z + 2147483648) `mod` 4294967296 - 2147483648.

(** A [std::coroutine_handle<>] is its address; the null handle is 0. *)
Abbreviation handle := Z.
Definition null_handle : handle := 0.

Record SuspendedTask := { task : handle; waitingForWrite : bool; suspensionSeq : Z }.
Record TaskDeadline := { deadline : Z; key : Z; deadlineSeq : Z }.
Record ReadyTask := { ready : handle; timedOut : bool }.

Inductive PrepType := READ | WRITE.
(** Buffers and result locations are addresses. *)
Record PendingFileOpPrep := {
  type : PrepType; prepFd : Z; buf : Z; prepLen : Z; offset : Z;
  userData : Z; prepHandle : handle; prepResult : Z }.
Record PendingSpliceOpPrep := {
  srcFd : Z; srcOffset : Z; dstFd : Z; dstOffset : Z; spliceLen : Z;
  spliceData : Z; spliceHandle : handle; spliceResult : Z }.
(** [PendingFileOp] and [PendingSpliceOps]. *)
Record PendingOp := { opHandle : handle; resultPtr : Z }.

(** [epoll_event] as far as it is looked at. *)
Record epoll_event := { evFd : Z; isError : bool; readReady : bool; writeReady : bool }.
(** Calls of [epoll_ctl]; the flag says whether EPOLLOUT is asked for. *)
Inductive epoll_op := CTL_ADD (fd : Z) | CTL_MOD (fd : Z) (out : bool) | CTL_DEL (fd : Z).

Record Executor := {
  epoll_ : list epoll_op;
  ownedTasks_ : list handle;
  ownedTaskMap_ : gmap Z nat;
  readyQueue_ : list ReadyTask;
  finishedRoots_ : list handle;
  nextSeq_ : Z;
  suspendedTasks_ : gmap Z SuspendedTask;
  taskDeadlines_ : list TaskDeadline;
  writeInterested_ : gset Z;
  nextUserData_ : Z;
  pendingFileOps_ : gmap Z PendingOp;
  pendingFileOpPreps_ : list PendingFileOpPrep;
  pendingSpliceOps_ : gmap Z PendingOp;
  pendingSpliceOpPreps_ : list PendingSpliceOpPrep;
  eventFd_ : Z;
  poolResumeQueue_ : list handle;
  syntheticEventKey_ : Z;
  wakeTime_ : Z;
  wakeUpQueue_ : list (list Z);
}.

(** Assignments to one member. *)
Definition on_epoll (f : list epoll_op -> list epoll_op) (ex : Executor) : Executor := {|
    epoll_ := f (epoll_ ex); ownedTasks_ := ownedTasks_ ex; ownedTaskMap_ := ownedTaskMap_ ex;
    readyQueue_ := readyQueue_ ex; finishedRoots_ := finishedRoots_ ex; nextSeq_ := nextSeq_ ex;
    suspendedTasks_ := suspendedTasks_ ex; taskDeadlines_ := taskDeadlines_ ex;
    writeInterested_ := writeInterested_ ex; nextUserData_ := nextUserData_ ex;
    pendingFileOps_ := pendingFileOps_ ex; pendingFileOpPreps_ := pendingFileOpPreps_ ex;
    pendingSpliceOps_ := pendingSpliceOps_ ex; pendingSpliceOpPreps_ := pendingSpliceOpPreps_ ex;
    eventFd_ := eventFd_ ex; poolResumeQueue_ := poolResumeQueue_ ex;
    syntheticEventKey_ := syntheticEventKey_ ex; wakeTime_ := wakeTime_ ex; wakeUpQueue_ := wakeUpQueue_ ex |}.
Definition on_owned (f : list handle -> list handle) (ex : Executor) : Executor := {|
    epoll_ := epoll_ ex; ownedTasks_ := f (ownedTasks_ ex); ownedTaskMap_ := ownedTaskMap_ ex;
    readyQueue_ := readyQueue_ ex; finishedRoots_ := finishedRoots_ ex; nextSeq_ := nextSeq_ ex;
    suspendedTasks_ := suspendedTasks_ ex; taskDeadlines_ := taskDeadlines_ ex;
    writeInterested_ := writeInterested_ ex; nextUserData_ := nextUserData_ ex;
    pendingFileOps_ := pendingFileOps_ ex; pendingFileOpPreps_ := pendingFileOpPreps_ ex;
    pendingSpliceOps_ := pendingSpliceOps_ ex; pendingSpliceOpPreps_ := pendingSpliceOpPreps_ ex;
    eventFd_ := eventFd_ ex; poolResumeQueue_ := poolResumeQueue_ ex;
    syntheticEventKey_ := syntheticEventKey_ ex; wakeTime_ := wakeTime_ ex; wakeUpQueue_ := wakeUpQueue_ ex |}.
Definition on_ownedMap (f : gmap Z nat -> gmap Z nat) (ex : Executor) : Executor := {|
    epoll_ := epoll_ ex; ownedTasks_ := ownedTasks_ ex; ownedTaskMap_ := f (ownedTaskMap_ ex);
    readyQueue_ := readyQueue_ ex; finishedRoots_ := finishedRoots_ ex; nextSeq_ := nextSeq_ ex;
    suspendedTasks_ := suspendedTasks_ ex; taskDeadlines_ := taskDeadlines_ ex;
    writeInterested_ := writeInterested_ ex; nextUserData_ := nextUserData_ ex;
    pendingFileOps_ := pendingFileOps_ ex; pendingFileOpPreps_ := pendingFileOpPreps_ ex;
    pendingSpliceOps_ := pendingSpliceOps_ ex; pendingSpliceOpPreps_ := pendingSpliceOpPreps_ ex;
    eventFd_ := eventFd_ ex; poolResumeQueue_ := poolResumeQueue_ ex;
    syntheticEventKey_ := syntheticEventKey_ ex; wakeTime_ := wakeTime_ ex; wakeUpQueue_ := wakeUpQueue_ ex |}.
Definition on_readyQ (f : list ReadyTask -> list ReadyTask) (ex : Executor) : Executor := {|
    epoll_ := epoll_ ex; ownedTasks_ := ownedTasks_ ex; ownedTaskMap_ := ownedTaskMap_ ex;
    readyQueue_ := f (readyQueue_ ex); finishedRoots_ := finishedRoots_ ex; nextSeq_ := nextSeq_ ex;
    suspendedTasks_ := suspendedTasks_ ex; taskDeadlines_ := taskDeadlines_ ex;
    writeInterested_ := writeInterested_ ex; nextUserData_ := nextUserData_ ex;
    pendingFileOps_ := pendingFileOps_ ex; pendingFileOpPreps_ := pendingFileOpPreps_ ex;
    pendingSpliceOps_ := pendingSpliceOps_ ex; pendingSpliceOpPreps_ := pendingSpliceOpPreps_ ex;
    eventFd_ := eventFd_ ex; poolResumeQueue_ := poolResumeQueue_ ex;
    syntheticEventKey_ := syntheticEventKey_ ex; wakeTime_ := wakeTime_ ex; wakeUpQueue_ := wakeUpQueue_ ex |}.
Definition on_finished (f : list handle -> list handle) (ex : Executor) : Executor := {|
    epoll_ := epoll_ ex; ownedTasks_ := ownedTasks_ ex; ownedTaskMap_ := ownedTaskMap_ ex;
    readyQueue_ := readyQueue_ ex; finishedRoots_ := f (finishedRoots_ ex); nextSeq_ := nextSeq_ ex;
    suspendedTasks_ := suspendedTasks_ ex; taskDeadlines_ := taskDeadlines_ ex;
    writeInterested_ := writeInterested_ ex; nextUserData_ := nextUserData_ ex;
    pendingFileOps_ := pendingFileOps_ ex; pendingFileOpPreps_ := pendingFileOpPreps_ ex;
    pendingSpliceOps_ := pendingSpliceOps_ ex; pendingSpliceOpPreps_ := pendingSpliceOpPreps_ ex;
    eventFd_ := eventFd_ ex; poolResumeQueue_ := poolResumeQueue_ ex;
    syntheticEventKey_ := syntheticEventKey_ ex; wakeTime_ := wakeTime_ ex; wakeUpQueue_ := wakeUpQueue_ ex |}.
Definition on_seq (f : Z -> Z) (ex : Executor) : Executor := {|
    epoll_ := epoll_ ex; ownedTasks_ := ownedTasks_ ex; ownedTaskMap_ := ownedTaskMap_ ex;
    readyQueue_ := readyQueue_ ex; finishedRoots_ := finishedRoots_ ex; nextSeq_ := f (nextSeq_ ex);
    suspendedTasks_ := suspendedTasks_ ex; taskDeadlines_ := taskDeadlines_ ex;
    writeInterested_ := writeInterested_ ex; nextUserData_ := nextUserData_ ex;
    pendingFileOps_ := pendingFileOps_ ex; pendingFileOpPreps_ := pendingFileOpPreps_ ex;
    pendingSpliceOps_ := pendingSpliceOps_ ex; pendingSpliceOpPreps_ := pendingSpliceOpPreps_ ex;
    eventFd_ := eventFd_ ex; poolResumeQueue_ := poolResumeQueue_ ex;
    syntheticEventKey_ := syntheticEventKey_ ex; wakeTime_ := wakeTime_ ex; wakeUpQueue_ := wakeUpQueue_ ex |}.
Definition on_suspended (f : gmap Z SuspendedTask -> gmap Z SuspendedTask) (ex : Executor) : Executor := {|
    epoll_ := epoll_ ex; ownedTasks_ := ownedTasks_ ex; ownedTaskMap_ := ownedTaskMap_ ex;
    readyQueue_ := readyQueue_ ex; finishedRoots_ := finishedRoots_ ex; nextSeq_ := nextSeq_ ex;
    suspendedTasks_ := f (suspendedTasks_ ex); taskDeadlines_ := taskDeadlines_ ex;
    writeInterested_ := writeInterested_ ex; nextUserData_ := nextUserData_ ex;
    pendingFileOps_ := pendingFileOps_ ex; pendingFileOpPreps_ := pendingFileOpPreps_ ex;
    pendingSpliceOps_ := pendingSpliceOps_ ex; pendingSpliceOpPreps_ := pendingSpliceOpPreps_ ex;
    eventFd_ := eventFd_ ex; poolResumeQueue_ := poolResumeQueue_ ex;
    syntheticEventKey_ := syntheticEventKey_ ex; wakeTime_ := wakeTime_ ex; wakeUpQueue_ := wakeUpQueue_ ex |}.
Definition on_deadlines (f : list TaskDeadline -> list TaskDeadline) (ex : Executor) : Executor := {|
    epoll_ := epoll_ ex; ownedTasks_ := ownedTasks_ ex; ownedTaskMap_ := ownedTaskMap_ ex;
    readyQueue_ := readyQueue_ ex; finishedRoots_ := finishedRoots_ ex; nextSeq_ := nextSeq_ ex;
    suspendedTasks_ := suspendedTasks_ ex; taskDeadlines_ := f (taskDeadlines_ ex);
    writeInterested_ := writeInterested_ ex; nextUserData_ := nextUserData_ ex;
    pendingFileOps_ := pendingFileOps_ ex; pendingFileOpPreps_ := pendingFileOpPreps_ ex;
    pendingSpliceOps_ := pendingSpliceOps_ ex; pendingSpliceOpPreps_ := pendingSpliceOpPreps_ ex;
    eventFd_ := eventFd_ ex; poolResumeQueue_ := poolResumeQueue_ ex;
    syntheticEventKey_ := syntheticEventKey_ ex; wakeTime_ := wakeTime_ ex; wakeUpQueue_ := wakeUpQueue_ ex |}.
Definition on_writeInt (f : gset Z -> gset Z) (ex : Executor) : Executor := {|
    epoll_ := epoll_ ex; ownedTasks_ := ownedTasks_ ex; ownedTaskMap_ := ownedTaskMap_ ex;
    readyQueue_ := readyQueue_ ex; finishedRoots_ := finishedRoots_ ex; nextSeq_ := nextSeq_ ex;
    suspendedTasks_ := suspendedTasks_ ex; taskDeadlines_ := taskDeadlines_ ex;
    writeInterested_ := f (writeInterested_ ex); nextUserData_ := nextUserData_ ex;
    pendingFileOps_ := pendingFileOps_ ex; pendingFileOpPreps_ := pendingFileOpPreps_ ex;
    pendingSpliceOps_ := pendingSpliceOps_ ex; pendingSpliceOpPreps_ := pendingSpliceOpPreps_ ex;
    eventFd_ := eventFd_ ex; poolResumeQueue_ := poolResumeQueue_ ex;
    syntheticEventKey_ := syntheticEventKey_ ex; wakeTime_ := wakeTime_ ex; wakeUpQueue_ := wakeUpQueue_ ex |}.
Definition on_userDataNo (f : Z -> Z) (ex : Executor) : Executor := {|
    epoll_ := epoll_ ex; ownedTasks_ := ownedTasks_ ex; ownedTaskMap_ := ownedTaskMap_ ex;
    readyQueue_ := readyQueue_ ex; finishedRoots_ := finishedRoots_ ex; nextSeq_ := nextSeq_ ex;
    suspendedTasks_ := suspendedTasks_ ex; taskDeadlines_ := taskDeadlines_ ex;
    writeInterested_ := writeInterested_ ex; nextUserData_ := f (nextUserData_ ex);
    pendingFileOps_ := pendingFileOps_ ex; pendingFileOpPreps_ := pendingFileOpPreps_ ex;
    pendingSpliceOps_ := pendingSpliceOps_ ex; pendingSpliceOpPreps_ := pendingSpliceOpPreps_ ex;
    eventFd_ := eventFd_ ex; poolResumeQueue_ := poolResumeQueue_ ex;
    syntheticEventKey_ := syntheticEventKey_ ex; wakeTime_ := wakeTime_ ex; wakeUpQueue_ := wakeUpQueue_ ex |}.
Definition on_fileOps (f : gmap Z PendingOp -> gmap Z PendingOp) (ex : Executor) : Executor := {|
    epoll_ := epoll_ ex; ownedTasks_ := ownedTasks_ ex; ownedTaskMap_ := ownedTaskMap_ ex;
    readyQueue_ := readyQueue_ ex; finishedRoots_ := finishedRoots_ ex; nextSeq_ := nextSeq_ ex;
    suspendedTasks_ := suspendedTasks_ ex; taskDeadlines_ := taskDeadlines_ ex;
    writeInterested_ := writeInterested_ ex; nextUserData_ := nextUserData_ ex;
    pendingFileOps_ := f (pendingFileOps_ ex); pendingFileOpPreps_ := pendingFileOpPreps_ ex;
    pendingSpliceOps_ := pendingSpliceOps_ ex; pendingSpliceOpPreps_ := pendingSpliceOpPreps_ ex;
    eventFd_ := eventFd_ ex; poolResumeQueue_ := poolResumeQueue_ ex;
    syntheticEventKey_ := syntheticEventKey_ ex; wakeTime_ := wakeTime_ ex; wakeUpQueue_ := wakeUpQueue_ ex |}.
Definition on_filePreps (f : list PendingFileOpPrep -> list PendingFileOpPrep) (ex : Executor) : Executor := {|
    epoll_ := epoll_ ex; ownedTasks_ := ownedTasks_ ex; ownedTaskMap_ := ownedTaskMap_ ex;
    readyQueue_ := readyQueue_ ex; finishedRoots_ := finishedRoots_ ex; nextSeq_ := nextSeq_ ex;
    suspendedTasks_ := suspendedTasks_ ex; taskDeadlines_ := taskDeadlines_ ex;
    writeInterested_ := writeInterested_ ex; nextUserData_ := nextUserData_ ex;
    pendingFileOps_ := pendingFileOps_ ex; pendingFileOpPreps_ := f (pendingFileOpPreps_ ex);
    pendingSpliceOps_ := pendingSpliceOps_ ex; pendingSpliceOpPreps_ := pendingSpliceOpPreps_ ex;
    eventFd_ := eventFd_ ex; poolResumeQueue_ := poolResumeQueue_ ex;
    syntheticEventKey_ := syntheticEventKey_ ex; wakeTime_ := wakeTime_ ex; wakeUpQueue_ := wakeUpQueue_ ex |}.
Definition on_spliceOps (f : gmap Z PendingOp -> gmap Z PendingOp) (ex : Executor) : Executor := {|
    epoll_ := epoll_ ex; ownedTasks_ := ownedTasks_ ex; ownedTaskMap_ := ownedTaskMap_ ex;
    readyQueue_ := readyQueue_ ex; finishedRoots_ := finishedRoots_ ex; nextSeq_ := nextSeq_ ex;
    suspendedTasks_ := suspendedTasks_ ex; taskDeadlines_ := taskDeadlines_ ex;
    writeInterested_ := writeInterested_ ex; nextUserData_ := nextUserData_ ex;
    pendingFileOps_ := pendingFileOps_ ex; pendingFileOpPreps_ := pendingFileOpPreps_ ex;
    pendingSpliceOps_ := f (pendingSpliceOps_ ex); pendingSpliceOpPreps_ := pendingSpliceOpPreps_ ex;
    eventFd_ := eventFd_ ex; poolResumeQueue_ := poolResumeQueue_ ex;
    syntheticEventKey_ := syntheticEventKey_ ex; wakeTime_ := wakeTime_ ex; wakeUpQueue_ := wakeUpQueue_ ex |}.
Definition on_splicePreps (f : list PendingSpliceOpPrep -> list PendingSpliceOpPrep) (ex : Executor) : Executor := {|
    epoll_ := epoll_ ex; ownedTasks_ := ownedTasks_ ex; ownedTaskMap_ := ownedTaskMap_ ex;
    readyQueue_ := readyQueue_ ex; finishedRoots_ := finishedRoots_ ex; nextSeq_ := nextSeq_ ex;
    suspendedTasks_ := suspendedTasks_ ex; taskDeadlines_ := taskDeadlines_ ex;
    writeInterested_ := writeInterested_ ex; nextUserData_ := nextUserData_ ex;
    pendingFileOps_ := pendingFileOps_ ex; pendingFileOpPreps_ := pendingFileOpPreps_ ex;
    pendingSpliceOps_ := pendingSpliceOps_ ex; pendingSpliceOpPreps_ := f (pendingSpliceOpPreps_ ex);
    eventFd_ := eventFd_ ex; poolResumeQueue_ := poolResumeQueue_ ex;
    syntheticEventKey_ := syntheticEventKey_ ex; wakeTime_ := wakeTime_ ex; wakeUpQueue_ := wakeUpQueue_ ex |}.
Definition on_poolQ (f : list handle -> list handle) (ex : Executor) : Executor := {|
    epoll_ := epoll_ ex; ownedTasks_ := ownedTasks_ ex; ownedTaskMap_ := ownedTaskMap_ ex;
    readyQueue_ := readyQueue_ ex; finishedRoots_ := finishedRoots_ ex; nextSeq_ := nextSeq_ ex;
    suspendedTasks_ := suspendedTasks_ ex; taskDeadlines_ := taskDeadlines_ ex;
    writeInterested_ := writeInterested_ ex; nextUserData_ := nextUserData_ ex;
    pendingFileOps_ := pendingFileOps_ ex; pendingFileOpPreps_ := pendingFileOpPreps_ ex;
    pendingSpliceOps_ := pendingSpliceOps_ ex; pendingSpliceOpPreps_ := pendingSpliceOpPreps_ ex;
    eventFd_ := eventFd_ ex; poolResumeQueue_ := f (poolResumeQueue_ ex);
    syntheticEventKey_ := syntheticEventKey_ ex; wakeTime_ := wakeTime_ ex; wakeUpQueue_ := wakeUpQueue_ ex |}.
Definition on_eventKey (f : Z -> Z) (ex : Executor) : Executor := {|
    epoll_ := epoll_ ex; ownedTasks_ := ownedTasks_ ex; ownedTaskMap_ := ownedTaskMap_ ex;
    readyQueue_ := readyQueue_ ex; finishedRoots_ := finishedRoots_ ex; nextSeq_ := nextSeq_ ex;
    suspendedTasks_ := suspendedTasks_ ex; taskDeadlines_ := taskDeadlines_ ex;
    writeInterested_ := writeInterested_ ex; nextUserData_ := nextUserData_ ex;
    pendingFileOps_ := pendingFileOps_ ex; pendingFileOpPreps_ := pendingFileOpPreps_ ex;
    pendingSpliceOps_ := pendingSpliceOps_ ex; pendingSpliceOpPreps_ := pendingSpliceOpPreps_ ex;
    eventFd_ := eventFd_ ex; poolResumeQueue_ := poolResumeQueue_ ex;
    syntheticEventKey_ := f (syntheticEventKey_ ex); wakeTime_ := wakeTime_ ex;
    wakeUpQueue_ := wakeUpQueue_ ex |}.
Definition on_wakeTime (f : Z -> Z) (ex : Executor) : Executor := {|
    epoll_ := epoll_ ex; ownedTasks_ := ownedTasks_ ex; ownedTaskMap_ := ownedTaskMap_ ex;
    readyQueue_ := readyQueue_ ex; finishedRoots_ := finishedRoots_ ex; nextSeq_ := nextSeq_ ex;
    suspendedTasks_ := suspendedTasks_ ex; taskDeadlines_ := taskDeadlines_ ex;
    writeInterested_ := writeInterested_ ex; nextUserData_ := nextUserData_ ex;
    pendingFileOps_ := pendingFileOps_ ex; pendingFileOpPreps_ := pendingFileOpPreps_ ex;
    pendingSpliceOps_ := pendingSpliceOps_ ex; pendingSpliceOpPreps_ := pendingSpliceOpPreps_ ex;
    eventFd_ := eventFd_ ex; poolResumeQueue_ := poolResumeQueue_ ex;
    syntheticEventKey_ := syntheticEventKey_ ex; wakeTime_ := f (wakeTime_ ex);
    wakeUpQueue_ := wakeUpQueue_ ex |}.
Definition on_wakeQ (f : list (list Z) -> list (list Z)) (ex : Executor) : Executor := {|
    epoll_ := epoll_ ex; ownedTasks_ := ownedTasks_ ex; ownedTaskMap_ := ownedTaskMap_ ex;
    readyQueue_ := readyQueue_ ex; finishedRoots_ := finishedRoots_ ex; nextSeq_ := nextSeq_ ex;
    suspendedTasks_ := suspendedTasks_ ex; taskDeadlines_ := taskDeadlines_ ex;
    writeInterested_ := writeInterested_ ex; nextUserData_ := nextUserData_ ex;
    pendingFileOps_ := pendingFileOps_ ex; pendingFileOpPreps_ := pendingFileOpPreps_ ex;
    pendingSpliceOps_ := pendingSpliceOps_ ex; pendingSpliceOpPreps_ := pendingSpliceOpPreps_ ex;
    eventFd_ := eventFd_ ex; poolResumeQueue_ := poolResumeQueue_ ex;
    syntheticEventKey_ := syntheticEventKey_ ex; wakeTime_ := wakeTime_ ex;
    wakeUpQueue_ := f (wakeUpQueue_ ex) |}.

Definition push_ready (h : handle) (timed_out : bool) (ex : Executor) : Executor :=
  on_readyQ (fun q => q ++ [{| ready := h; timedOut := timed_out |}]) ex.

(** ** The operations coroutines call *)

Definition Executor_new (eventFd : Z) : Executor := {|
  epoll_ := [CTL_ADD eventFd]; ownedTasks_ := []; ownedTaskMap_ := ∅; readyQueue_ := []; finishedRoots_ := [];
  nextSeq_ := 0; suspendedTasks_ := ∅; taskDeadlines_ := []; writeInterested_ := ∅; nextUserData_ := 0;
  pendingFileOps_ := ∅; pendingFileOpPreps_ := []; pendingSpliceOps_ := ∅; pendingSpliceOpPreps_ := [];
  eventFd_ := eventFd; poolResumeQueue_ := []; syntheticEventKey_ := -1; wakeTime_ := 0;
  wakeUpQueue_ := replicate 10 [] |}.

(** A task is identified with the address of its coroutine. *)
Definition spawn (h : handle) (ex : Executor) : Executor :=
  if h =? null_handle then ex
  else
    let ex := on_ownedMap <[h := length (ownedTasks_ ex)]> ex in
    let ex := on_owned (fun l => l ++ [h]) ex in
    push_ready h false ex.

Definition unregister (fd : Z) (ex : Executor) : Executor :=
  let ex := on_writeInt (fun s => s ∖ {[fd]}) ex in
  let ex := on_epoll (fun l => l ++ [CTL_DEL fd]) ex in
  on_suspended (delete fd) ex.

Definition post (h : handle) (ex : Executor) : Executor := on_poolQ (fun q => q ++ [h]) ex.

Definition registerReadFd (fd : Z) (ex : Executor) : Executor := on_epoll (fun l => l ++ [CTL_ADD fd]) ex.

Definition enableWriteEvents (fd : Z) (ex : Executor) : Executor :=
  if decide (fd ∈ writeInterested_ ex) then ex
  else on_epoll (fun l => l ++ [CTL_MOD fd true]) (on_writeInt (fun s => {[fd]} ∪ s) ex).

Definition disableWriteEvents (fd : Z) (ex : Executor) : Executor :=
  if decide (fd ∈ writeInterested_ ex)
  then on_epoll (fun l => l ++ [CTL_MOD fd false]) (on_writeInt (fun s => s ∖ {[fd]}) ex)
  else ex.

(** The common part of [waitForRead], [waitForWrite] and [waitForEvent]. *)
Definition suspend_until (k : Z) (caller : handle) (forWrite : bool) (dl : Z) (ex : Executor) : Executor :=
  let seq := to_int (nextSeq_ ex) in
  let ex := on_seq (fun n => n + 1) ex in
  let ex := on_suspended <[to_int k := {| task := caller; waitingForWrite := forWrite; suspensionSeq := seq |}]> ex in
  on_deadlines (fun l => l ++ [{| deadline := dl; key := k; deadlineSeq := seq |}]) ex.

Definition waitForRead (fd : Z) (caller : handle) (dl : Z) (ex : Executor) : Executor :=
  suspend_until fd caller false dl ex.
Definition waitForWrite (fd : Z) (caller : handle) (dl : Z) (ex : Executor) : Executor :=
  suspend_until fd caller true dl ex.
Definition waitForEvent (caller : handle) (dl : Z) (ex : Executor) : Z * Executor :=
  let k := syntheticEventKey_ ex in
  (k, suspend_until k caller false dl (on_eventKey (fun k => k - 1) ex)).

Definition fireEvent (k : Z) (ex : Executor) : Executor :=
  match suspendedTasks_ ex !! to_int k with
  | None => ex
  | Some it => on_suspended (delete (to_int k)) (push_ready (task it) false ex)
  end.

Definition MAX_WAKEUP_TURN : Z := 10.

(** [v[i].push_back(x)] *)
Definition push_slot (i : Z) (x : Z) (v : list (list Z)) : list (list Z) := alter (fun l => l ++ [x]) (Z.to_nat i) v.

Definition wakeMeIn (cycles : Z) (caller : handle) (ex : Executor) : Executor :=
  let seq := to_int (nextSeq_ ex) in
  let ex := on_seq (fun n => n + 1) ex in
  let k := syntheticEventKey_ ex in
  let ex := on_eventKey (fun k => k - 1) ex in
  let ex := on_suspended <[to_int k := {| task := caller; waitingForWrite := false; suspensionSeq := seq |}]> ex in
  on_wakeQ (push_slot ((wakeTime_ ex + cycles) `mod` MAX_WAKEUP_TURN) k) ex.

Definition submitFile (t : PrepType) (fd buf len : Z) (h : handle) (resultPtr offset : Z) (ex : Executor) : Executor :=
  let ex := on_filePreps (fun l => l ++
    [{| type := t; prepFd := fd; buf := buf; prepLen := len; offset := offset;
        userData := nextUserData_ ex; prepHandle := h; prepResult := resultPtr |}]) ex in
  on_userDataNo (fun n => n + 1) ex.
Definition submitFileRead := submitFile READ.
Definition submitFileWrite := submitFile WRITE.

Definition submitSplice (srcFd srcOffset dstFd dstOffset len : Z) (h : handle) (resultPtr : Z) (ex : Executor) : Executor :=
  let ex := on_splicePreps (fun l => l ++
    [{| srcFd := srcFd; srcOffset := srcOffset; dstFd := dstFd; dstOffset := dstOffset; spliceLen := len;
        spliceData := nextUserData_ ex; spliceHandle := h; spliceResult := resultPtr |}]) ex in
  on_userDataNo (fun n => n + 1) ex.

Definition markRootFinished (addr : handle) (ex : Executor) : Executor := on_finished (fun l => l ++ [addr]) ex.

(** What a coroutine may call while it runs. *)
Inductive call :=
| Spawn (h : handle) | Unregister (fd : Z) | RegisterReadFd (fd : Z)
| EnableWriteEvents (fd : Z) | DisableWriteEvents (fd : Z)
| WaitForRead (fd : Z) (h : handle) (dl : Z) | WaitForWrite (fd : Z) (h : handle) (dl : Z)
| WaitForEvent (h : handle) (dl : Z) | FireEvent (k : Z) | WakeMeIn (cycles : Z) (h : handle)
| SubmitFile (t : PrepType) (fd buf len : Z) (h : handle) (resultPtr offset : Z)
| SubmitSplice (srcFd srcOffset dstFd dstOffset len : Z) (h : handle) (resultPtr : Z)
| MarkRootFinished (addr : handle).

Definition do_call (c : call) (ex : Executor) : Executor :=
  match c with
  | Spawn h => spawn h ex
  | Unregister fd => unregister fd ex
  | RegisterReadFd fd => registerReadFd fd ex
  | EnableWriteEvents fd => enableWriteEvents fd ex
  | DisableWriteEvents fd => disableWriteEvents fd ex
  | WaitForRead fd h dl => waitForRead fd h dl ex
  | WaitForWrite fd h dl => waitForWrite fd h dl ex
  | WaitForEvent h dl => (waitForEvent h dl ex).2
  | FireEvent k => fireEvent k ex
  | WakeMeIn n h => wakeMeIn n h ex
  | SubmitFile t fd buf len h r off => submitFile t fd buf len h r off ex
  | SubmitSplice sf so df d_o len h r => submitSplice sf so df d_o len h r ex
  | MarkRootFinished a => markRootFinished a ex
  end.

Definition do_calls (cs : list call) (ex : Executor) : Executor := foldl (fun ex c => do_call c ex) ex cs.

(** ** The loop *)

(** The rest of the process: the coroutines ([resume] gives the calls a coroutine
    makes until it suspends), their memory, and the kernel. *)
Class World (W : Type) := {
  resume : handle -> bool -> Executor -> W -> list call * W;
  store_result : Z -> Z -> W -> W;
  completions : W -> list (Z * Z) * W;
  posted : W -> list handle * W;
  epoll_wait : Z -> W -> list epoll_event * W;
  now : W -> Z * W;
  prepFile : PendingFileOpPrep -> W -> bool * W;
  prepSplice : PendingSpliceOpPrep -> W -> bool * W;
  ioSubmit : W -> W;
  shutdown : W -> bool;
}.

(** The callback of [drainCompletions]. *)
Definition complete {W} `{World W} (c : Z * Z) (s : Executor * W) : Executor * W :=
  let '(userData, result) := c in
  let '(ex, w) := s in
  match pendingFileOps_ ex !! userData with
  | Some it =>
      (on_fileOps (delete userData) (push_ready (opHandle it) false ex), store_result (resultPtr it) result w)
  | None =>
      match pendingSpliceOps_ ex !! userData with
      | Some it =>
          (on_spliceOps (delete userData) (push_ready (opHandle it) false ex), store_result (resultPtr it) result w)
      | None => (ex, w)
      end
  end.

Definition drainCompletions {W} `{World W} (s : Executor * W) : Executor * W :=
  let '(cs, w) := completions s.2 in
  foldl (fun s c => complete c s) (s.1, w) cs.

(** A finished task is overwritten with the last one and the vector shortened. *)
Definition reap_one (addr : handle) (ex : Executor) : Executor :=
  match ownedTaskMap_ ex !! addr with
  | None => ex
  | Some index =>
      let last := (length (ownedTasks_ ex) - 1)%nat in
      let back := nth last (ownedTasks_ ex) null_handle in
      let ex := if decide (index = last) then ex
                else on_ownedMap <[back := index]> (on_owned <[index := back]> ex) in
      on_ownedMap (delete addr) (on_owned (take last) ex)
  end.

(** [while (not finishedRoots_.empty())]: the last one is taken first. *)
Definition reap (ex : Executor) : Executor :=
  foldl (fun ex a => reap_one a ex) (on_finished (fun _ => []) ex) (rev (finishedRoots_ ex)).

(** [while (not readyQueue_.empty())]; [None]: more than [fuel] coroutines were
    resumed.  Resuming the null handle is undefined. *)
Fixpoint run_ready {W} `{World W} (fuel : nat) (s : Executor * W) : option (outcome (Executor * W)) :=
  let '(ex, w) := s in
  match readyQueue_ ex with
  | [] => Some (Ret s)
  | r :: q =>
      match fuel with
      | O => None
      | S fuel' =>
          if ready r =? null_handle then Some Undef
          else
            let ex := on_readyQ (fun _ => q) ex in
            let '(cs, w) := resume (ready r) (timedOut r) ex w in
            run_ready fuel' (reap (do_calls cs ex), w)
      end
  end.

Definition noPendingOps (ex : Executor) : bool :=
  bool_decide (pendingFileOpPreps_ ex = []) && bool_decide (pendingFileOps_ ex = ∅) &&
  bool_decide (pendingSpliceOpPreps_ ex = []) && bool_decide (pendingSpliceOps_ ex = ∅).

Definition should_wake (it : SuspendedTask) (e : epoll_event) : bool :=
  isError e || (waitingForWrite it && writeReady e) || (negb (waitingForWrite it) && readReady e).

Definition dispatch_event (e : epoll_event) (ex : Executor) : Executor :=
  if evFd e =? eventFd_ ex then
    on_poolQ (fun _ => []) (foldl (fun ex h => push_ready h false ex) ex (poolResumeQueue_ ex))
  else
    match suspendedTasks_ ex !! evFd e with
    | None => ex
    | Some it =>
        if should_wake it e then on_suspended (delete (evFd e)) (push_ready (task it) false ex) else ex
    end.

(** [std::priority_queue] with [std::greater]: [top] is an entry with the least
    deadline; which one, if there are several, is not specified. *)
Class DeadlineHeap := {
  top_pop : list TaskDeadline -> option (TaskDeadline * list TaskDeadline);
  top_pop_nil : top_pop [] = None;
  top_pop_cons d l : exists t r, top_pop (d :: l) = Some (t, r);
  top_pop_spec l t r : top_pop l = Some (t, r) -> l ≡ₚ t :: r /\ Forall (fun d => deadline t <= deadline d) r;
}.

Definition expire_one (d : TaskDeadline) (ex : Executor) : Executor :=
  match suspendedTasks_ ex !! to_int (key d) with
  | None => ex
  | Some it =>
      if suspensionSeq it =? deadlineSeq d
      then on_suspended (delete (to_int (key d))) (push_ready (task it) true ex)
      else ex
  end.

(** The sweep of the deadlines; there are at most as many rounds as entries. *)
Fixpoint expire_loop `{DeadlineHeap} (fuel : nat) (timeNow : Z) (ex : Executor) : Executor :=
  match fuel, top_pop (taskDeadlines_ ex) with
  | S fuel', Some (d, rest) =>
      if deadline d <=? timeNow
      then expire_loop fuel' timeNow (expire_one d (on_deadlines (fun _ => rest) ex))
      else ex
  | _, _ => ex
  end.
Definition expire `{DeadlineHeap} (timeNow : Z) (ex : Executor) : Executor :=
  expire_loop (length (taskDeadlines_ ex)) timeNow ex.

(** Operations are handed to io_uring while it has room. *)
Fixpoint prep_files {W} `{World W} (l : list PendingFileOpPrep) (s : Executor * W) : Executor * W :=
  match l with
  | [] => s
  | p :: l' =>
      let '(prepSuccess, w) := prepFile p s.2 in
      if (prepSuccess : bool)
      then prep_files l' (on_filePreps (fun _ => l')
             (on_fileOps <[userData p := {| opHandle := prepHandle p; resultPtr := prepResult p |}]> s.1), w)
      else (s.1, w)
  end.

Fixpoint prep_splices {W} `{World W} (l : list PendingSpliceOpPrep) (s : Executor * W) : Executor * W :=
  match l with
  | [] => s
  | p :: l' =>
      let '(prepSuccess, w) := prepSplice p s.2 in
      if (prepSuccess : bool)
      then prep_splices l' (on_splicePreps (fun _ => l')
             (on_spliceOps <[spliceData p := {| opHandle := spliceHandle p; resultPtr := spliceResult p |}]> s.1), w)
      else (s.1, w)
  end.

Definition submit_ops {W} `{World W} (s : Executor * W) : Executor * W :=
  let s := prep_files (pendingFileOpPreps_ s.1) s in
  let s := prep_splices (pendingSpliceOpPreps_ s.1) s in
  (s.1, ioSubmit s.2).

(** [suspendedTasks_[wakeKey]] inserts an entry with a null handle when there is
    none. *)
Definition wake_one (wakeKey : Z) (ex : Executor) : Executor :=
  let h := from_option task null_handle (suspendedTasks_ ex !! to_int wakeKey) in
  on_suspended (delete (to_int wakeKey)) (push_ready h false ex).

Definition wake_turn (ex : Executor) : Executor :=
  let slot := nth (Z.to_nat (wakeTime_ ex `mod` MAX_WAKEUP_TURN)) (wakeUpQueue_ ex) [] in
  on_wakeTime (fun t => t + 1) (foldl (fun ex k => wake_one k ex) ex slot).

(** Everything after the ready queue is empty: one wait for the kernel. *)
Definition poll {W} `{World W} `{DeadlineHeap} (EPOLL_WAIT_TIMEOUT : Z) (s : Executor * W) : Executor * W :=
  let '(ex, w) := s in
  let timeout := if noPendingOps ex then EPOLL_WAIT_TIMEOUT else 0 in
  let '(events, w) := epoll_wait timeout w in
  let '(ps, w) := posted w in
  let ex := foldl (fun ex h => post h ex) ex ps in
  let ex := foldl (fun ex e => dispatch_event e ex) ex events in
  let '(timeNow, w) := now w in
  let ex := expire timeNow ex in
  let '(ex, w) := submit_ops (ex, w) in
  (wake_turn ex, w).

(** The test of the shutdown flag: whether [run] returns, and [shutdownDeadline]. *)
Definition check_shutdown {W} `{World W} (GRACEFUL_SHUTDOWN_TIMEOUT : Z) (shutdownDeadline : option Z)
  (s : Executor * W) : bool * option Z * W :=
  if shutdown s.2 then
    let '(timeNow, w) := now s.2 in
    let dl := default (timeNow + GRACEFUL_SHUTDOWN_TIMEOUT) shutdownDeadline in
    if bool_decide (ownedTasks_ s.1 = []) then (true, Some dl, w)
    else (dl <? timeNow, Some dl, w)
  else (false, shutdownDeadline, s.2).

(** [Executor::run], for at most [turns] turns of the loop, [fuel] coroutines being
    resumed in each; [None] when it is still running. *)
Fixpoint run {W} `{World W} `{DeadlineHeap} (grace ewt : Z) (turns fuel : nat) (shutdownDeadline : option Z)
  (s : Executor * W) : option (outcome (Executor * W)) :=
  match turns with
  | O => None
  | S turns' =>
      let '(stop, shutdownDeadline, w) := check_shutdown grace shutdownDeadline s in
      if (stop : bool) then Some (Ret (s.1, w))
      else
        match run_ready fuel (drainCompletions (s.1, w)) with
        | Some (Ret s) => run grace ewt turns' fuel shutdownDeadline (poll ewt s)
        | r => r
        end
  end.

(** ** Ownership of the spawned tasks *)

(** [ownedTaskMap_] is the inverse of the vector. *)
Record inverse_of (m : gmap Z nat) (l : list handle) : Prop := {
  owned_nodup : NoDup l;
  owned_map a i : m !! a = Some i <-> l !! i = Some a;
}.
Definition owned_ok (ex : Executor) : Prop := inverse_of (ownedTaskMap_ ex) (ownedTasks_ ex).

Lemma inverse_elem m l a : inverse_of m l -> is_Some (m !! a) <-> a ∈ l.
Proof.
  intros O. rewrite list_elem_of_lookup. split; intros [i Hi]; exists i; by apply (owned_map m l O).
Qed.

Lemma inverse_push m l a : inverse_of m l -> a ∉ l -> inverse_of (<[a := length l]> m) (l ++ [a]).
Proof.
  intros O Na. split.
  - apply NoDup_app. split; [apply O|]. split; [set_solver|apply NoDup_singleton].
  - intros x i. rewrite lookup_insert_Some, (owned_map m l O), lookup_app_Some, list_lookup_singleton_Some.
    split.
    + intros [[<- <-]|[N Hi]]; [right; split; [done|]; split; [lia|done]|by left].
    + intros [Hi|(L & Li & <-)]; [|left; split; [done|lia]].
      right. split; [|done]. intros ->. apply Na. by eapply list_elem_of_lookup_2.
Qed.

Lemma inverse_pop m l a : inverse_of m (l ++ [a]) -> inverse_of (delete a m) l.
Proof.
  intros O. pose proof (owned_nodup _ _ O) as (NDl & NDa & _)%NoDup_app.
  assert (Na : a ∉ l) by (intros ?; apply (NDa a); [done|set_solver]).
  split; [done|]. intros x i. rewrite lookup_delete_Some, (owned_map _ _ O). split.
  - intros [N Hi]. apply lookup_app_Some in Hi as [Hi|[_ Hi]]; [done|].
    apply list_lookup_singleton_Some in Hi as []. congruence.
  - intros Hi. split; [|by apply lookup_app_l_Some]. intros ->. apply Na. by eapply list_elem_of_lookup_2.
Qed.

Lemma swap_remove (l : list handle) (i : nat) (a b : handle) :
  l !! i = Some a -> l ++ [b] ≡ₚ a :: <[i := b]> l.
Proof.
  intros H. rewrite <- (take_drop_middle l i a H) at 1.
  rewrite insert_take_drop by (by eapply lookup_lt_Some). solve_Permutation.
Qed.

Lemma inverse_swap m l i a b :
  inverse_of m (l ++ [b]) -> l !! i = Some a -> inverse_of (delete a (<[b := i]> m)) (<[i := b]> l).
Proof.
  intros O Hi. pose proof (lookup_lt_Some _ _ _ Hi) as Lt.
  pose proof (owned_nodup _ _ O) as (NDl & NDb & _)%NoDup_app.
  assert (Hbl : b ∉ l) by (intros ?; apply (NDb b); [done|set_solver]).
  assert (Nab : a <> b) by (intros ->; apply Hbl; by eapply list_elem_of_lookup_2).
  split.
  - assert (N : NoDup (a :: <[i := b]> l)) by (rewrite <- (swap_remove _ _ _ _ Hi); apply O).
    by apply NoDup_cons in N as [].
  - intros x j. rewrite lookup_delete_Some, lookup_insert_Some, list_lookup_insert_Some, (owned_map _ _ O).
    split.
    + intros (Na & [[<- <-]|[Nb Hj]]); [by left|]. right.
      apply lookup_app_Some in Hj as [Hj|[_ Hj]].
      * split; [|done]. intros ->. congruence.
      * apply list_lookup_singleton_Some in Hj as []. congruence.
    + intros [(<- & <- & _)|[Nj Hj]]; [split; [done|by left]|].
      assert (x <> b) by (intros ->; apply Hbl; by eapply list_elem_of_lookup_2).
      split; [|right; split; [done|by apply lookup_app_l_Some]].
      intros ->. apply Nj. eapply (NoDup_lookup l); eauto.
Qed.

Lemma spawn_owned h ex : owned_ok ex -> h ∉ ownedTasks_ ex -> owned_ok (spawn h ex).
Proof.
  intros O N. unfold spawn. destruct (h =? null_handle); [done|]. by apply inverse_push.
Qed.

Lemma reap_one_spec addr ex :
  owned_ok ex ->
  owned_ok (reap_one addr ex) /\
  (addr ∈ ownedTasks_ ex -> ownedTasks_ ex ≡ₚ addr :: ownedTasks_ (reap_one addr ex)) /\
  (addr ∉ ownedTasks_ ex -> reap_one addr ex = ex).
Proof.
  intros O. unfold reap_one. pose proof (inverse_elem _ _ addr O) as E.
  destruct (ownedTaskMap_ ex !! addr) as [i|] eqn:Hi.
  2: { split; [done|]. split; [|done]. intros D. by apply E in D as [? [=]]. }
  assert (D : addr ∈ ownedTasks_ ex) by (apply E; eauto).
  enough (owned_ok (reap_one addr ex) /\ ownedTasks_ ex ≡ₚ addr :: ownedTasks_ (reap_one addr ex)) as R.
  { unfold reap_one in R. rewrite Hi in R. tauto. }
  unfold reap_one. rewrite Hi. clear D E. unfold owned_ok in *.
  pose proof (proj1 (owned_map _ _ O _ _) Hi) as Li.
  destruct (ownedTasks_ ex) as [|b l _] eqn:Eo using rev_ind; [done|].
  assert (Len : (length (l ++ [b]) - 1)%nat = length l) by (rewrite length_app; cbn [length]; lia).
  rewrite Len, app_nth2, Nat.sub_diag by lia. cbn [nth]. case_decide as Di.
  - subst i. rewrite lookup_app_r, Nat.sub_diag in Li by lia. injection Li as [= ->].
    cbn -[take]. rewrite Eo, take_app_length. split; [by apply inverse_pop|solve_Permutation].
  - assert (Hi' : l !! i = Some addr).
    { apply lookup_app_Some in Li as [Hl|[Hl1 Hl2]]; [done|].
      apply list_lookup_singleton_Some in Hl2 as [H1 H2]. lia. }
    pose proof (lookup_lt_Some _ _ _ Hi') as Lt.
    cbn -[take]. rewrite Eo, insert_app_l, take_app_length' by (try rewrite length_insert; done).
    split; [by apply inverse_swap|by apply swap_remove].
Qed.

(** Only the three members of the bookkeeping change. *)
Definition with_owned (m : gmap Z nat) (l : list handle) (ex : Executor) : Executor :=
  on_ownedMap (fun _ => m) (on_owned (fun _ => l) ex).

Lemma reap_one_frame addr ex : exists m l, reap_one addr ex = with_owned m l ex.
Proof.
  unfold reap_one. destruct (ownedTaskMap_ ex !! addr) as [i|].
  - case_decide; eexists _, _; reflexivity.
  - exists (ownedTaskMap_ ex), (ownedTasks_ ex). by destruct ex.
Qed.

Lemma filter_ext_in {A} (P Q : A -> Prop) `{!forall x, Decision (P x), !forall x, Decision (Q x)} (l : list A) :
  (forall x, x ∈ l -> P x <-> Q x) -> filter P l = filter Q l.
Proof.
  induction l as [|a l IH]; intros E; [done|]. pose proof (E a (list_elem_of_here _ _)) as Ha.
  specialize (IH (fun x Hx => E x (list_elem_of_further _ _ _ Hx))). destruct (decide (P a)).
  - rewrite !filter_cons_True by tauto. by f_equal.
  - by rewrite !filter_cons_False by tauto.
Qed.

Lemma filter_keeps_all {A} (P : A -> Prop) `{!forall x, Decision (P x)} (l : list A) : (forall x, x ∈ l -> P x) -> filter P l = l.
Proof.
  induction l as [|a l IH]; intros E; [done|]. rewrite filter_cons_True by (apply E; left).
  f_equal. apply IH. intros x Hx. apply E. by right.
Qed.

Lemma foldl_reap_one l ex :
  owned_ok ex ->
  let ex' := foldl (fun ex a => reap_one a ex) ex l in
  owned_ok ex' /\ ownedTasks_ ex' ≡ₚ filter (fun a => a ∉ l) (ownedTasks_ ex) /\
  exists m o, ex' = with_owned m o ex.
Proof.
  revert ex. induction l as [|a l IH]; intros ex O; cbn [foldl].
  - split; [done|]. split.
    + by rewrite filter_keeps_all by set_solver.
    + exists (ownedTaskMap_ ex), (ownedTasks_ ex). by destruct ex.
  - destruct (reap_one_spec a ex O) as (O1 & In & Out). destruct (IH _ O1) as (O2 & P & m2 & o2 & F2).
    destruct (reap_one_frame a ex) as (m1 & o1 & F1). split; [done|]. split.
    + rewrite P. destruct (decide (a ∈ ownedTasks_ ex)) as [D|D].
      * pose proof (owned_nodup _ _ O) as ND. rewrite (In D) in ND |- *. apply NoDup_cons in ND as [Na _].
        rewrite filter_cons_False by set_solver. rewrite (filter_ext_in _ (fun x => x ∉ a :: l)); [done|].
        intros x Hx. assert (x <> a) by (by intros ->). set_solver.
      * rewrite (Out D). rewrite (filter_ext_in _ (fun x => x ∉ a :: l)); [done|].
        intros x Hx. assert (x <> a) by (by intros ->). set_solver.
    + exists m2, o2. rewrite F2, F1. reflexivity.
Qed.

Lemma reap_spec ex :
  owned_ok ex ->
  owned_ok (reap ex) /\
  ownedTasks_ (reap ex) ≡ₚ filter (fun a => a ∉ finishedRoots_ ex) (ownedTasks_ ex) /\
  exists m l, reap ex = with_owned m l (on_finished (fun _ => []) ex).
Proof.
  intros O. destruct (foldl_reap_one (rev (finishedRoots_ ex)) (on_finished (fun _ => []) ex) O) as (O1 & P & F).
  split; [exact O1|]. split; [|exact F]. unfold reap. rewrite P. cbn [ownedTasks_ on_finished].
  rewrite (filter_ext_in _ (fun a => a ∉ finishedRoots_ ex)); [done|].
  intros x _. rewrite !list_elem_of_In. by rewrite <- in_rev.
Qed.

(** ** The coroutines the executor will resume *)

Definition vals {A} (m : gmap Z A) : list A := (map_to_list m).*2.

Lemma vals_delete {A} (m : gmap Z A) i x : m !! i = Some x -> vals m ≡ₚ x :: vals (delete i m).
Proof. intros H. unfold vals. by rewrite <- (map_to_list_delete m i x H). Qed.

Lemma vals_insert {A} (m : gmap Z A) i x : m !! i = None -> vals (<[i := x]> m) ≡ₚ x :: vals m.
Proof. intros H. unfold vals. by rewrite map_to_list_insert. Qed.

Lemma vals_elem {A} (m : gmap Z A) x : x ∈ vals m <-> exists i, m !! i = Some x.
Proof.
  unfold vals. rewrite list_elem_of_fmap. setoid_rewrite elem_of_map_to_list'. split.
  - intros [[i y] [-> H]]. eauto.
  - intros [i H]. exists (i, x). eauto.
Qed.

(** Every coroutine handle the executor holds, wherever it waits. *)
Definition waiting (ex : Executor) : list handle :=
  map ready (readyQueue_ ex) ++ map task (vals (suspendedTasks_ ex)) ++
  map prepHandle (pendingFileOpPreps_ ex) ++ map opHandle (vals (pendingFileOps_ ex)) ++
  map spliceHandle (pendingSpliceOpPreps_ ex) ++ map opHandle (vals (pendingSpliceOps_ ex)) ++
  poolResumeQueue_ ex.

Lemma waiting_push_ready h t ex : waiting (push_ready h t ex) ≡ₚ h :: waiting ex.
Proof. unfold waiting, push_ready. cbn. rewrite map_app. cbn. solve_Permutation. Qed.

Lemma waiting_wake k it t ex :
  suspendedTasks_ ex !! k = Some it ->
  waiting (on_suspended (delete k) (push_ready (task it) t ex)) ≡ₚ waiting ex.
Proof.
  intros H. unfold waiting, push_ready. cbn. rewrite (vals_delete _ _ _ H), map_app. cbn. solve_Permutation.
Qed.

(** ** The invariant *)

(** The identifiers given to the kernel. *)
Definition keys {A} (m : gmap Z A) : list Z := (map_to_list m).*1.
Definition ids (ex : Executor) : list Z :=
  map userData (pendingFileOpPreps_ ex) ++ map spliceData (pendingSpliceOpPreps_ ex) ++
  keys (pendingFileOps_ ex) ++ keys (pendingSpliceOps_ ex).

Lemma keys_elem {A} (m : gmap Z A) i : i ∈ keys m <-> is_Some (m !! i).
Proof.
  unfold keys. rewrite list_elem_of_fmap. setoid_rewrite elem_of_map_to_list'. split.
  - intros [[j y] [-> H]]. eauto.
  - intros [x H]. exists (i, x). eauto.
Qed.

Lemma keys_delete {A} (m : gmap Z A) i x : m !! i = Some x -> keys m ≡ₚ i :: keys (delete i m).
Proof. intros H. unfold keys. by rewrite <- (map_to_list_delete m i x H). Qed.

Lemma keys_insert {A} (m : gmap Z A) i x : m !! i = None -> keys (<[i := x]> m) ≡ₚ i :: keys m.
Proof. intros H. unfold keys. by rewrite map_to_list_insert. Qed.

(** [S] holds the suspended tasks, [D] the deadlines and [n] the next number: every
    suspension has its deadline, and numbers are given once. *)
Record timed (S : gmap Z SuspendedTask) (D : list TaskDeadline) (n : Z) : Prop := {
  timed_has k s : S !! k = Some s -> exists d, d ∈ D /\ to_int (key d) = k /\ deadlineSeq d = suspensionSeq s;
  timed_range d : d ∈ D -> 0 <= deadlineSeq d < n;
  timed_nodup : NoDup (map deadlineSeq D);
}.

Record executor_inv (ex : Executor) : Prop := {
  inv_owned : owned_ok ex;
  inv_handles : null_handle ∉ waiting ex;
  inv_ids : NoDup (ids ex);
  inv_ids_range : Forall (fun i => i < nextUserData_ ex) (ids ex);
  inv_timed : timed (suspendedTasks_ ex) (taskDeadlines_ ex) (nextSeq_ ex);
  inv_seq : 0 <= nextSeq_ ex;
  inv_eventKey : syntheticEventKey_ ex < 0;
  inv_keys k : is_Some (suspendedTasks_ ex !! k) -> syntheticEventKey_ ex < k;
  inv_wakeQ : Forall (fun slot => slot = []) (wakeUpQueue_ ex);
}.

Lemma to_int_id z : -2147483648 <= z < 2147483648 -> to_int z = z.
Proof. intros H. unfold to_int. rewrite Z.mod_small; lia. Qed.

Lemma timed_sub S S' D n : S' ⊆ S -> timed S D n -> timed S' D n.
Proof. intros Sub T. split; [|apply T|apply T]. intros k s H. apply T. by eapply lookup_weaken. Qed.

Lemma timed_suspend S D n k s d :
  timed S D n -> 0 <= n -> to_int (key d) = k -> deadlineSeq d = n -> suspensionSeq s = n ->
  timed (<[k := s]> S) (D ++ [d]) (n + 1).
Proof.
  intros T Hn Hk Hd Hs. split.
  - intros k' s' [[<- <-]|[_ H]]%lookup_insert_Some.
    + exists d. split; [set_solver|]. split; congruence.
    + destruct (timed_has _ _ _ T _ _ H) as (d' & Hd' & ?). exists d'. split; [set_solver|done].
  - intros d' [H| ->%list_elem_of_singleton]%elem_of_app; [|lia]. pose proof (timed_range _ _ _ T _ H). lia.
  - rewrite map_app. apply NoDup_app. split; [apply T|]. split; [|apply NoDup_singleton].
    intros x (d' & -> & H)%list_elem_of_fmap Hx. cbn in Hx. apply list_elem_of_singleton in Hx.
    pose proof (timed_range _ _ _ T _ H). lia.
Qed.

(** The deadline that matches a suspension is the one registered with it. *)
Lemma timed_own S D n k s d :
  timed S D n -> S !! k = Some s -> d ∈ D -> deadlineSeq d = suspensionSeq s -> to_int (key d) = k.
Proof.
  intros T H Hd E. destruct (timed_has _ _ _ T _ _ H) as (d' & Hd' & K & Q).
  apply list_elem_of_lookup in Hd as [i Hi]. apply list_elem_of_lookup in Hd' as [j Hj].
  assert (i = j) as ->.
  { eapply (NoDup_lookup (map deadlineSeq D)); [apply T|..]; rewrite list_lookup_fmap.
    - rewrite Hi. done.
    - rewrite Hj. cbn. congruence. }
  congruence.
Qed.

Lemma timed_pop S D n d rest :
  timed S D n -> D ≡ₚ d :: rest ->
  timed (match S !! to_int (key d) with
         | Some it => if suspensionSeq it =? deadlineSeq d then delete (to_int (key d)) S else S
         | None => S end) rest n.
Proof.
  intros T P.
  set (S' := match S !! to_int (key d) with Some _ => _ | None => _ end).
  assert (Sub : S' ⊆ S).
  { unfold S'. destruct (S !! _) as [it|]; [|done]. destruct (_ =? _); [apply delete_subseteq|done]. }
  assert (In : forall x, x ∈ rest -> x ∈ D) by (intros x Hx; rewrite P; by right).
  split; [|intros x Hx; by apply T, In|].
  - intros k s H. destruct (timed_has _ _ _ T k s (lookup_weaken _ _ _ _ H Sub)) as (d' & Hd' & K & Q).
    rewrite P in Hd'. apply elem_of_cons in Hd' as [->|Hd']; [|eauto]. exfalso. subst k.
    unfold S' in H. destruct (S !! to_int (key d)) as [it|] eqn:E; [|congruence].
    destruct (Z.eqb_spec (suspensionSeq it) (deadlineSeq d)); [by rewrite lookup_delete_eq in H|].
    rewrite E in H. congruence.
  - pose proof (timed_nodup _ _ _ T) as N. rewrite P in N. by apply NoDup_cons in N as [].
Qed.

(** A change that leaves the identifiers, the wake-up slots and the counters alone. *)
Lemma inv_step ex ex' :
  executor_inv ex ->
  owned_ok ex' -> (forall h, h ∈ waiting ex' -> h ∈ waiting ex \/ h <> null_handle) ->
  pendingFileOps_ ex' = pendingFileOps_ ex -> pendingFileOpPreps_ ex' = pendingFileOpPreps_ ex ->
  pendingSpliceOps_ ex' = pendingSpliceOps_ ex -> pendingSpliceOpPreps_ ex' = pendingSpliceOpPreps_ ex ->
  nextUserData_ ex' = nextUserData_ ex -> wakeUpQueue_ ex' = wakeUpQueue_ ex ->
  timed (suspendedTasks_ ex') (taskDeadlines_ ex') (nextSeq_ ex') -> 0 <= nextSeq_ ex' ->
  syntheticEventKey_ ex' < 0 -> (forall k, is_Some (suspendedTasks_ ex' !! k) -> syntheticEventKey_ ex' < k) ->
  executor_inv ex'.
Proof.
  intros I O H E1 E2 E3 E4 E5 E6 T Hs He Hk.
  assert (Ei : ids ex' = ids ex) by (unfold ids; congruence).
  split; try done.
  - intros N. destruct (H _ N) as [N'|N']; [|done]. by apply (inv_handles _ I).
  - rewrite Ei. apply I.
  - rewrite Ei, E5. apply I.
  - rewrite E6. apply I.
Qed.

Lemma inv_wake k it b ex :
  executor_inv ex -> suspendedTasks_ ex !! k = Some it ->
  executor_inv (on_suspended (delete k) (push_ready (task it) b ex)).
Proof.
  intros I H. apply (inv_step ex); try done; try apply I.
  - intros h. rewrite (waiting_wake k it b ex H). by left.
  - apply (timed_sub (suspendedTasks_ ex)); [apply delete_subseteq|apply I].
  - intros k' [x Hx]. cbn in Hx. apply lookup_delete_Some in Hx as [_ Hx]. apply (inv_keys _ I); eauto.
Qed.

Lemma dispatch_event_inv e ex :
  executor_inv ex -> executor_inv (dispatch_event e ex) /\ waiting (dispatch_event e ex) ≡ₚ waiting ex.
Proof.
  intros I. unfold dispatch_event. destruct (evFd e =? eventFd_ ex).
  - assert (F : forall l x, let x' := foldl (fun ex h => push_ready h false ex) x l in
      x' = on_readyQ (fun q => q ++ map (fun h => {| ready := h; timedOut := false |}) l) x).
    { induction l as [|h l IH]; intros x; cbn zeta; cbn [foldl].
      - destruct x; cbn. unfold on_readyQ. cbn. by rewrite app_nil_r.
      - rewrite IH. unfold push_ready, on_readyQ. cbn. by rewrite <- app_assoc. }
    rewrite F. clear F.
    assert (P : waiting (on_poolQ (fun _ => []) (on_readyQ
      (fun q => q ++ map (fun h => {| ready := h; timedOut := false |}) (poolResumeQueue_ ex)) ex)) ≡ₚ waiting ex).
    { unfold waiting. cbn. rewrite map_app, map_map. cbn. rewrite map_id. solve_Permutation. }
    split; [|exact P]. apply (inv_step ex); try done; try apply I. intros h. rewrite P. by left.
  - destruct (suspendedTasks_ ex !! evFd e) as [it|] eqn:H; [|done]. destruct (should_wake it e); [|done].
    split; [by apply inv_wake|by apply waiting_wake].
Qed.

Lemma on_deadlines_inv rest d ex :
  executor_inv ex -> taskDeadlines_ ex ≡ₚ d :: rest ->
  executor_inv (expire_one d (on_deadlines (fun _ => rest) ex)) /\
  waiting (expire_one d (on_deadlines (fun _ => rest) ex)) ≡ₚ waiting ex.
Proof.
  intros I P. pose proof (timed_pop _ _ _ _ _ (inv_timed _ I) P) as T.
  unfold expire_one. cbn [suspendedTasks_ on_deadlines].
  destruct (suspendedTasks_ ex !! to_int (key d)) as [it|] eqn:H.
  2: { split; [|done]. apply (inv_step ex); try done; try apply I. by left. }
  destruct (suspensionSeq it =? deadlineSeq d).
  2: { split; [|done]. apply (inv_step ex); try done; try apply I. by left. }
  assert (W : waiting (on_suspended (delete (to_int (key d)))
            (push_ready (task it) true (on_deadlines (fun _ => rest) ex))) ≡ₚ waiting ex).
  { by rewrite (waiting_wake _ it). }
  split; [|exact W]. apply (inv_step ex); try done; try apply I.
  - intros h. rewrite W. by left.
  - intros k [x Hx]. cbn in Hx. apply lookup_delete_Some in Hx as [_ Hx]. apply (inv_keys _ I); eauto.
Qed.

Lemma expire_inv `{DeadlineHeap} t ex :
  executor_inv ex -> executor_inv (expire t ex) /\ waiting (expire t ex) ≡ₚ waiting ex.
Proof.
  unfold expire. generalize (length (taskDeadlines_ ex)). intros n. revert ex.
  induction n as [|n IH]; intros ex I; [done|]. cbn [expire_loop].
  destruct (top_pop (taskDeadlines_ ex)) as [[d rest]|] eqn:E; [|done].
  destruct (deadline d <=? t); [|done]. apply top_pop_spec in E as [P _].
  destruct (on_deadlines_inv rest d ex I P) as [I' W]. destruct (IH _ I') as [I'' W'].
  split; [done|]. by rewrite W'.
Qed.

(** The kernel's operations: [ex'] has the identifiers [l] of [ex], up to their order. *)
Lemma inv_ops ex ex' l :
  executor_inv ex -> waiting ex' ≡ₚ waiting ex -> ids ex ≡ₚ l ++ ids ex' ->
  ownedTasks_ ex' = ownedTasks_ ex -> ownedTaskMap_ ex' = ownedTaskMap_ ex ->
  nextUserData_ ex' = nextUserData_ ex -> wakeUpQueue_ ex' = wakeUpQueue_ ex ->
  suspendedTasks_ ex' = suspendedTasks_ ex -> taskDeadlines_ ex' = taskDeadlines_ ex ->
  nextSeq_ ex' = nextSeq_ ex -> syntheticEventKey_ ex' = syntheticEventKey_ ex ->
  executor_inv ex'.
Proof.
  intros I W P E1 E2 E3 E4 E5 E6 E7 E8. pose proof (inv_ids _ I) as N. rewrite P in N.
  apply NoDup_app in N as (_ & _ & N). pose proof (inv_ids_range _ I) as R. rewrite P in R.
  apply Forall_app in R as [_ R]. split; try done.
  - unfold owned_ok. rewrite E1, E2. apply I.
  - rewrite W. apply I.
  - by rewrite E3.
  - rewrite E5, E6, E7. apply I.
  - rewrite E7. apply I.
  - rewrite E8. apply I.
  - rewrite E5, E8. apply I.
  - rewrite E4. apply I.
Qed.

Lemma complete_inv {W} `{World W} c ex w :
  executor_inv ex ->
  executor_inv (complete c (ex, w)).1 /\ waiting (complete c (ex, w)).1 ≡ₚ waiting ex.
Proof.
  intros I. destruct c as [u r]. unfold complete.
  destruct (pendingFileOps_ ex !! u) as [it|] eqn:E; [|destruct (pendingSpliceOps_ ex !! u) as [it|] eqn:E2; [|done]].
  - assert (P : waiting (on_fileOps (delete u) (push_ready (opHandle it) false ex)) ≡ₚ waiting ex).
    { unfold waiting, push_ready. cbn. rewrite (vals_delete _ _ _ E), map_app. cbn. solve_Permutation. }
    split; [|exact P]. apply (inv_ops ex _ [u]); try done.
    unfold ids. cbn. rewrite (keys_delete _ _ _ E). solve_Permutation.
  - assert (P : waiting (on_spliceOps (delete u) (push_ready (opHandle it) false ex)) ≡ₚ waiting ex).
    { unfold waiting, push_ready. cbn. rewrite (vals_delete _ _ _ E2), map_app. cbn. solve_Permutation. }
    split; [|exact P]. apply (inv_ops ex _ [u]); try done.
    unfold ids. cbn. rewrite (keys_delete _ _ _ E2). solve_Permutation.
Qed.

Lemma drainCompletions_inv {W} `{World W} s :
  executor_inv s.1 ->
  executor_inv (drainCompletions s).1 /\ waiting (drainCompletions s).1 ≡ₚ waiting s.1.
Proof.
  destruct s as [ex w]. unfold drainCompletions. cbn [fst snd]. destruct (completions w) as [cs w']. clear w.
  revert ex w'. induction cs as [|c cs IH]; intros ex w I; [done|]. cbn [foldl].
  destruct (complete_inv c ex w I) as [I' P]. destruct (complete c (ex, w)) as [ex1 w1]. cbn [fst] in *.
  destruct (IH ex1 w1 I') as [I'' P']. split; [done|]. by rewrite P'.
Qed.

Lemma prep_files_inv {W} `{World W} l ex w :
  executor_inv ex -> pendingFileOpPreps_ ex = l ->
  executor_inv (prep_files l (ex, w)).1 /\ waiting (prep_files l (ex, w)).1 ≡ₚ waiting ex.
Proof.
  revert ex w. induction l as [|p l IH]; intros ex w I E; [done|]. cbn [prep_files snd fst].
  destruct (prepFile p w) as [[] w']; [|done].
  set (ex1 := on_filePreps _ _).
  assert (F : pendingFileOps_ ex !! userData p = None).
  { apply eq_None_not_Some. intros [x Hx]. pose proof (inv_ids _ I) as N. unfold ids in N. rewrite E in N.
    cbn [map] in N. apply NoDup_cons in N as [N _]. apply N. apply elem_of_app; right. apply elem_of_app; right.
    apply elem_of_app; left. apply keys_elem; eauto. }
  assert (P : waiting ex1 ≡ₚ waiting ex).
  { unfold waiting, ex1. cbn. rewrite (vals_insert _ _ _ F), E. cbn. solve_Permutation. }
  assert (I1 : executor_inv ex1).
  { apply (inv_ops ex _ []); try done. unfold ids, ex1. cbn. rewrite (keys_insert _ _ _ F), E. cbn. solve_Permutation. }
  destruct (IH ex1 w' I1 eq_refl) as [I2 P2]. split; [done|]. by rewrite P2.
Qed.

Lemma prep_splices_inv {W} `{World W} l ex w :
  executor_inv ex -> pendingSpliceOpPreps_ ex = l ->
  executor_inv (prep_splices l (ex, w)).1 /\ waiting (prep_splices l (ex, w)).1 ≡ₚ waiting ex.
Proof.
  revert ex w. induction l as [|p l IH]; intros ex w I E; [done|]. cbn [prep_splices snd fst].
  destruct (prepSplice p w) as [[] w']; [|done].
  set (ex1 := on_splicePreps _ _).
  assert (F : pendingSpliceOps_ ex !! spliceData p = None).
  { apply eq_None_not_Some. intros [x Hx]. pose proof (inv_ids _ I) as N. unfold ids in N. rewrite E in N.
    cbn [map] in N. apply NoDup_app in N as (_ & _ & N). apply NoDup_cons in N as [N _]. apply N.
    apply elem_of_app; right. apply elem_of_app; right. apply keys_elem; eauto. }
  assert (P : waiting ex1 ≡ₚ waiting ex).
  { unfold waiting, ex1. cbn. rewrite (vals_insert _ _ _ F), E. cbn. solve_Permutation. }
  assert (I1 : executor_inv ex1).
  { apply (inv_ops ex _ []); try done. unfold ids, ex1. cbn. rewrite (keys_insert _ _ _ F), E. cbn. solve_Permutation. }
  destruct (IH ex1 w' I1 eq_refl) as [I2 P2]. split; [done|]. by rewrite P2.
Qed.

Lemma submit_ops_inv {W} `{World W} s :
  executor_inv s.1 -> executor_inv (submit_ops s).1 /\ waiting (submit_ops s).1 ≡ₚ waiting s.1.
Proof.
  destruct s as [ex w]. intros I. unfold submit_ops. cbn [fst snd] in *.
  destruct (prep_files_inv (pendingFileOpPreps_ ex) ex w I eq_refl) as [I1 P1].
  destruct (prep_files _ _) as [ex1 w1]. cbn [fst snd] in *.
  destruct (prep_splices_inv (pendingSpliceOpPreps_ ex1) ex1 w1 I1 eq_refl) as [I2 P2].
  split; [done|]. by rewrite P2.
Qed.

Lemma posts_inv l ex :
  executor_inv ex -> null_handle ∉ l ->
  executor_inv (foldl (fun ex h => post h ex) ex l) /\
  waiting (foldl (fun ex h => post h ex) ex l) ≡ₚ l ++ waiting ex.
Proof.
  revert ex. induction l as [|h l IH]; intros ex I N; [done|]. cbn [foldl].
  assert (P : waiting (post h ex) ≡ₚ h :: waiting ex) by (unfold waiting; cbn; solve_Permutation).
  assert (I1 : executor_inv (post h ex)).
  { apply (inv_step ex); try done; try apply I. intros x. rewrite P. intros [->|?]%elem_of_cons; [|by left].
    right. set_solver. }
  destruct (IH _ I1) as [I2 P2]; [set_solver|]. split; [done|]. rewrite P2, P. solve_Permutation.
Qed.

Lemma events_inv es ex :
  executor_inv ex ->
  executor_inv (foldl (fun ex e => dispatch_event e ex) ex es) /\
  waiting (foldl (fun ex e => dispatch_event e ex) ex es) ≡ₚ waiting ex.
Proof.
  revert ex. induction es as [|e es IH]; intros ex I; [done|]. cbn [foldl].
  destruct (dispatch_event_inv e ex I) as [I1 P1]. destruct (IH _ I1) as [I2 P2]. split; [done|]. by rewrite P2.
Qed.

Lemma wake_turn_inv ex :
  executor_inv ex -> executor_inv (wake_turn ex) /\ waiting (wake_turn ex) ≡ₚ waiting ex.
Proof.
  intros I. unfold wake_turn.
  assert (E : nth (Z.to_nat (wakeTime_ ex `mod` MAX_WAKEUP_TURN)) (wakeUpQueue_ ex) [] = []).
  { destruct (nth_in_or_default (Z.to_nat (wakeTime_ ex `mod` MAX_WAKEUP_TURN)) (wakeUpQueue_ ex) [])
      as [Hin|Hd]; [|done]. apply list_elem_of_In in Hin.
    exact (proj1 (Forall_forall _ _) (inv_wakeQ _ I) _ Hin). }
  rewrite E. cbn [foldl]. split; [|done]. apply (inv_step ex); try done; try apply I. by left.
Qed.

Lemma poll_inv {W} `{World W} `{DeadlineHeap} ewt ex w :
  executor_inv ex -> (forall w, null_handle ∉ (posted w).1) ->
  executor_inv (poll ewt (ex, w)).1 /\
  waiting (poll ewt (ex, w)).1 ≡ₚ
    (posted (epoll_wait (if noPendingOps ex then ewt else 0) w).2).1 ++ waiting ex.
Proof.
  intros I Hp. unfold poll. destruct (epoll_wait _ w) as [es w1]. cbn [snd].
  specialize (Hp w1). destruct (posted w1) as [ps w2]. cbn [fst] in *.
  destruct (posts_inv ps ex I Hp) as [I1 P1]. destruct (events_inv es _ I1) as [I2 P2].
  destruct (now w2) as [t w3]. destruct (expire_inv t _ I2) as [I3 P3].
  pose proof (submit_ops_inv (expire t (foldl (fun ex e => dispatch_event e ex)
    (foldl (fun ex h => post h ex) ex ps) es), w3) I3) as [I4 P4].
  destruct (submit_ops _) as [ex4 w4]. cbn [fst] in *. destruct (wake_turn_inv _ I4) as [I5 P5].
  split; [done|]. by rewrite P5, P4, P3, P2, P1.
Qed.

(** ** What coroutines keep to *)

(** A spawned coroutine is a new one; a descriptor has one waiter at a time; the
    [int] counters have not run out; [wakeMeIn] is not used (see [wake_again]). *)
Definition call_ok (c : call) (ex : Executor) : Prop :=
  match c with
  | Spawn h => h ∉ ownedTasks_ ex
  | WaitForRead fd h _ | WaitForWrite fd h _ =>
      h <> null_handle /\ 0 <= fd < 2147483648 /\ suspendedTasks_ ex !! fd = None /\ nextSeq_ ex < 2147483648
  | WaitForEvent h _ =>
      h <> null_handle /\ -2147483648 <= syntheticEventKey_ ex /\ nextSeq_ ex < 2147483648
  | WakeMeIn _ _ => False
  | SubmitFile _ _ _ _ h _ _ | SubmitSplice _ _ _ _ _ h _ => h <> null_handle
  | Unregister _ | RegisterReadFd _ | EnableWriteEvents _ | DisableWriteEvents _ | FireEvent _
  | MarkRootFinished _ => True
  end.

Fixpoint calls_ok (cs : list call) (ex : Executor) : Prop :=
  match cs with
  | [] => True
  | c :: cs => call_ok c ex /\ calls_ok cs (do_call c ex)
  end.

Class Disciplined (W : Type) `{World W} := {
  resume_ok h t ex w : h <> null_handle -> executor_inv ex -> calls_ok (resume h t ex w).1 ex;
  posted_ok w : null_handle ∉ (posted w).1;
}.

Lemma suspend_inv k h wr dl ex ex0 :
  executor_inv ex0 -> h <> null_handle -> -2147483648 <= k < 2147483648 -> suspendedTasks_ ex0 !! k = None ->
  nextSeq_ ex0 < 2147483648 ->
  (ex = ex0 /\ syntheticEventKey_ ex0 < k \/ ex = on_eventKey (fun k => k - 1) ex0 /\ k = syntheticEventKey_ ex0) ->
  executor_inv (suspend_until k h wr dl ex).
Proof.
  intros I Hh Hk E Hn C. pose proof (inv_seq _ I) as S0. pose proof (inv_eventKey _ I) as K0.
  assert (Ex : owned_ok ex /\ waiting ex = waiting ex0 /\ suspendedTasks_ ex = suspendedTasks_ ex0 /\
    taskDeadlines_ ex = taskDeadlines_ ex0 /\ nextSeq_ ex = nextSeq_ ex0 /\ syntheticEventKey_ ex <= syntheticEventKey_ ex0
    /\ syntheticEventKey_ ex < k).
  { destruct C as [[-> ?]|[-> ->]]; cbn; split_and!; try apply (inv_owned _ I); try done; lia. }
  destruct Ex as (O & W & E1 & E2 & E3 & E4 & E5).
  assert (P : waiting (suspend_until k h wr dl ex) ≡ₚ h :: waiting ex0).
  { rewrite <- W. unfold waiting, suspend_until. cbn. rewrite to_int_id, vals_insert by (try rewrite E1; done).
    cbn. solve_Permutation. }
  assert (F : pendingFileOps_ ex = pendingFileOps_ ex0 /\ pendingFileOpPreps_ ex = pendingFileOpPreps_ ex0 /\
    pendingSpliceOps_ ex = pendingSpliceOps_ ex0 /\ pendingSpliceOpPreps_ ex = pendingSpliceOpPreps_ ex0 /\
    nextUserData_ ex = nextUserData_ ex0 /\ wakeUpQueue_ ex = wakeUpQueue_ ex0) by (destruct C as [[-> _]|[-> _]]; done).
  destruct F as (F1 & F2 & F3 & F4 & F5 & F6).
  apply (inv_step ex0); try done.
  - intros x. rewrite P. intros [->|?]%elem_of_cons; [by right|by left].
  - cbn. rewrite E1, E2, E3. rewrite (to_int_id k) by lia.
    apply timed_suspend; try done; cbn; rewrite ?to_int_id by lia; try done. apply I.
  - cbn. lia.
  - cbn. lia.
  - intros k'. cbn. rewrite E1. rewrite to_int_id by lia. intros [x [[<- _]|[_ Hx]]%lookup_insert_Some]; [done|].
    pose proof (inv_keys _ I k' ltac:(eauto)). lia.
Qed.

Lemma submitFile_inv t fd buf len h r off ex :
  executor_inv ex -> h <> null_handle -> executor_inv (submitFile t fd buf len h r off ex).
Proof.
  intros I Hh. set (ex' := submitFile _ _ _ _ _ _ _ _).
  assert (P : waiting ex' ≡ₚ h :: waiting ex) by (unfold waiting; cbn; rewrite map_app; cbn; solve_Permutation).
  assert (Q : ids ex' ≡ₚ nextUserData_ ex :: ids ex) by (unfold ids; cbn; rewrite map_app; cbn; solve_Permutation).
  pose proof (inv_ids_range _ I) as R.
  split; try apply I.
  - rewrite P. intros [?|?]%elem_of_cons; [congruence|by apply (inv_handles _ I)].
  - rewrite Q. apply NoDup_cons. split; [|apply I]. intros N. rewrite Forall_forall in R.
    specialize (R _ N). cbn in R. lia.
  - rewrite Q. apply Forall_cons. cbn. split; [lia|]. eapply Forall_impl; [exact R|]. cbn. lia.
Qed.

Lemma submitSplice_inv sf so df d_o len h r ex :
  executor_inv ex -> h <> null_handle -> executor_inv (submitSplice sf so df d_o len h r ex).
Proof.
  intros I Hh. set (ex' := submitSplice _ _ _ _ _ _ _ _).
  assert (P : waiting ex' ≡ₚ h :: waiting ex) by (unfold waiting; cbn; rewrite map_app; cbn; solve_Permutation).
  assert (Q : ids ex' ≡ₚ nextUserData_ ex :: ids ex) by (unfold ids; cbn; rewrite map_app; cbn; solve_Permutation).
  pose proof (inv_ids_range _ I) as R.
  split; try apply I.
  - rewrite P. intros [?|?]%elem_of_cons; [congruence|by apply (inv_handles _ I)].
  - rewrite Q. apply NoDup_cons. split; [|apply I]. intros N. rewrite Forall_forall in R.
    specialize (R _ N). cbn in R. lia.
  - rewrite Q. apply Forall_cons. cbn. split; [lia|]. eapply Forall_impl; [exact R|]. cbn. lia.
Qed.

Lemma spawn_inv h ex : executor_inv ex -> h ∉ ownedTasks_ ex -> executor_inv (spawn h ex).
Proof.
  intros I N. pose proof (spawn_owned h ex (inv_owned _ I) N) as O. unfold spawn in *.
  destruct (Z.eqb_spec h null_handle) as [->|Hh]; [done|].
  apply (inv_step ex); try exact O; try done; try apply I.
  intros x. rewrite waiting_push_ready. intros [->|?]%elem_of_cons; [by right|by left].
Qed.

Lemma unregister_inv fd ex : executor_inv ex -> executor_inv (unregister fd ex).
Proof.
  intros I. apply (inv_step ex); try done; try apply I.
  - intros x. unfold waiting. cbn. destruct (suspendedTasks_ ex !! fd) as [it|] eqn:E.
    + rewrite (vals_delete _ _ _ E). cbn. set_solver.
    + rewrite delete_id by done. by left.
  - apply (timed_sub (suspendedTasks_ ex)); [apply delete_subseteq|apply I].
  - intros k [x Hx]. cbn in Hx. apply lookup_delete_Some in Hx as [_ Hx]. apply (inv_keys _ I); eauto.
Qed.

Lemma epoll_inv f ex : executor_inv ex -> executor_inv (on_epoll f ex).
Proof. intros I. apply (inv_step ex); try done; try apply I. by left. Qed.
Lemma writeInt_inv f ex : executor_inv ex -> executor_inv (on_writeInt f ex).
Proof. intros I. apply (inv_step ex); try done; try apply I. by left. Qed.
Lemma finished_inv f ex : executor_inv ex -> executor_inv (on_finished f ex).
Proof. intros I. apply (inv_step ex); try done; try apply I. by left. Qed.
#[local] Hint Resolve epoll_inv writeInt_inv finished_inv spawn_inv unregister_inv submitFile_inv submitSplice_inv : core.

Lemma do_call_inv c ex : executor_inv ex -> call_ok c ex -> executor_inv (do_call c ex).
Proof.
  intros I. destruct c; cbn [call_ok do_call]; intros K; auto.
  - apply epoll_inv; auto.
  - unfold enableWriteEvents. case_decide; auto.
  - unfold disableWriteEvents. case_decide; auto.
  - destruct K as (? & ? & ? & ?). pose proof (inv_eventKey _ I). eapply suspend_inv; eauto; try lia.
    left. split; [done|lia].
  - destruct K as (? & ? & ? & ?). pose proof (inv_eventKey _ I). eapply suspend_inv; eauto; try lia.
    left. split; [done|lia].
  - destruct K as (? & ? & ?). pose proof (inv_eventKey _ I). cbn. eapply suspend_inv; eauto; try lia.
    destruct (suspendedTasks_ ex !! _) eqn:E; [|done]. pose proof (inv_keys _ I _ ltac:(eauto)). lia.
  - unfold fireEvent. destruct (suspendedTasks_ ex !! to_int k) eqn:E; [|done]. by apply inv_wake.
  - done.
  - apply finished_inv; auto.
Qed.

Lemma do_calls_inv cs ex : executor_inv ex -> calls_ok cs ex -> executor_inv (do_calls cs ex).
Proof.
  revert ex. induction cs as [|c cs IH]; intros ex I K; [done|]. destruct K as [K1 K2].
  apply IH; [|done]. by apply do_call_inv.
Qed.

Lemma reap_inv ex : executor_inv ex -> executor_inv (reap ex).
Proof.
  intros I. destruct (reap_spec ex (inv_owned _ I)) as (O & _ & m & l & E).
  apply (inv_step ex); try rewrite E; try done; try apply I; [|by left]. by rewrite <- E.
Qed.

(** Taking the first ready coroutine out of the queue. *)
Lemma take_ready_inv r q ex :
  executor_inv ex -> readyQueue_ ex = r :: q -> executor_inv (on_readyQ (fun _ => q) ex) /\ ready r <> null_handle.
Proof.
  intros I E. split.
  - apply (inv_step ex); try done; try apply I. intros h Hh. left. unfold waiting in *. rewrite E. cbn in *. set_solver.
  - intros N. apply (inv_handles _ I). unfold waiting. rewrite E, <- N. cbn. set_solver.
Qed.

Lemma run_ready_safe {W} `{Disciplined W} fuel ex w :
  executor_inv ex ->
  match run_ready fuel (ex, w) with
  | Some (Ret (ex', _)) => executor_inv ex' /\ readyQueue_ ex' = []
  | Some _ => False
  | None => True
  end.
Proof.
  revert ex w. induction fuel as [|fuel IH]; intros ex w I; cbn [run_ready];
    destruct (readyQueue_ ex) as [|r q] eqn:E; try done.
  destruct (take_ready_inv r q ex I E) as [I1 N]. rewrite (proj2 (Z.eqb_neq _ _) N).
  pose proof (resume_ok (ready r) (timedOut r) (on_readyQ (fun _ => q) ex) w N I1) as K.
  destruct (resume _ _ _ w) as [cs w']. apply IH, reap_inv, do_calls_inv; done.
Qed.

(** What a resumption may add to the ready queue. *)
Definition is_push (c : call) : bool := match c with Spawn _ | FireEvent _ => true | _ => false end.
Definition pushes (cs : list call) : nat := length (filter is_push cs).

Lemma do_call_ready c ex :
  (length (readyQueue_ (do_call c ex)) <= length (readyQueue_ ex) + if is_push c then 1 else 0)%nat.
Proof.
  destruct c; cbn; try lia.
  - unfold spawn. destruct (_ =? _); [lia|]. cbn. rewrite length_app. cbn. lia.
  - unfold enableWriteEvents. case_decide; cbn; lia.
  - unfold disableWriteEvents. case_decide; cbn; lia.
  - unfold fireEvent. destruct (_ !! _); [|lia]. cbn. rewrite length_app. cbn. lia.
Qed.

Lemma do_calls_ready cs ex : (length (readyQueue_ (do_calls cs ex)) <= length (readyQueue_ ex) + pushes cs)%nat.
Proof.
  revert ex. unfold pushes. induction cs as [|c cs IH]; intros ex; [cbn; lia|].
  specialize (IH (do_call c ex)). pose proof (do_call_ready c ex). cbn [do_calls foldl].
  change (foldl _ (do_call c ex) cs) with (do_calls cs (do_call c ex)).
  destruct (is_push c) eqn:E.
  - rewrite filter_cons_True by (rewrite E; done). cbn [length]. lia.
  - rewrite filter_cons_False by (rewrite E; auto). lia.
Qed.

Lemma reap_ready ex : readyQueue_ (reap ex) = readyQueue_ ex.
Proof.
  unfold reap. change (readyQueue_ ex) with (readyQueue_ (on_finished (fun _ => []) ex)).
  generalize (on_finished (fun _ => []) ex). induction (rev (finishedRoots_ ex)) as [|a l IH]; intros e; [done|].
  cbn [foldl]. rewrite IH. destruct (reap_one_frame a e) as (m & o & ->). reflexivity.
Qed.

Lemma run_ready_ends {W} `{World W} (spawns : W -> nat) fuel ex w :
  (forall h t ex w, (pushes (resume h t ex w).1 + spawns (resume h t ex w).2 <= spawns w)%nat) ->
  (length (readyQueue_ ex) + spawns w <= fuel)%nat ->
  is_Some (run_ready fuel (ex, w)).
Proof.
  intros B. revert ex w. induction fuel as [|fuel IH]; intros ex w L; cbn [run_ready];
    destruct (readyQueue_ ex) as [|r q] eqn:E; try done; [cbn in L; lia|].
  destruct (_ =? _); [done|]. specialize (B (ready r) (timedOut r) (on_readyQ (fun _ => q) ex) w).
  destruct (resume _ _ _ w) as [cs w']. cbn [fst snd] in B. apply IH. rewrite reap_ready.
  pose proof (do_calls_ready cs (on_readyQ (fun _ => q) ex)) as R. cbn in R. cbn in L. lia.
Qed.

(** ** Deadlines *)

Definition timed_out (s : SuspendedTask) : ReadyTask := {| ready := task s; timedOut := true |}.

Lemma expire_loop_spec `{DeadlineHeap} n t ex :
  executor_inv ex -> n = length (taskDeadlines_ ex) ->
  let ex' := expire_loop n t ex in
  (forall k s d, suspendedTasks_ ex !! k = Some s -> d ∈ taskDeadlines_ ex -> deadlineSeq d = suspensionSeq s ->
    suspendedTasks_ ex' !! k = if deadline d <=? t then None else Some s) /\
  (forall k, suspendedTasks_ ex !! k = None -> suspendedTasks_ ex' !! k = None) /\
  (exists l, readyQueue_ ex' = readyQueue_ ex ++ map timed_out l /\
    l ++ vals (suspendedTasks_ ex') ≡ₚ vals (suspendedTasks_ ex)) /\
  Forall (fun d => t < deadline d) (taskDeadlines_ ex').
Proof.
  revert ex. induction n as [|n IH]; intros ex I L; cbn zeta; cbn [expire_loop].
  - symmetry in L. apply nil_length_inv in L. rewrite L. split_and!; [|done| |done].
    + intros k s d _ D. set_solver.
    + exists []. by rewrite app_nil_r.
  - destruct (taskDeadlines_ ex) as [|d0 D0] eqn:ED; [done|].
    destruct (top_pop_cons d0 D0) as (d & rest & E). rewrite E, <- ED in *. clear d0 D0 ED.
    apply top_pop_spec in E as [P Le]. destruct (Z.leb_spec (deadline d) t) as [Ld|Ld].
    2: { split_and!; [|done| |].
      - intros k s d' Hk D' _. rewrite P in D'. rewrite Forall_forall in Le.
        apply elem_of_cons in D' as [->|D']; [by rewrite (proj2 (Z.leb_gt _ _) Ld)|].
        specialize (Le _ D'). cbn in Le. by rewrite (proj2 (Z.leb_gt _ _)) by lia.
      - exists []. by rewrite app_nil_r.
      - rewrite P. apply Forall_cons. split; [done|]. eapply Forall_impl; [exact Le|]. cbn. lia. }
    destruct (on_deadlines_inv rest d ex I P) as [I1 _].
    assert (Ln : n = length (taskDeadlines_ (expire_one d (on_deadlines (fun _ => rest) ex)))).
    { assert (taskDeadlines_ (expire_one d (on_deadlines (fun _ => rest) ex)) = rest) as ->.
      { unfold expire_one. cbn. destruct (_ !! _); [|done]. by destruct (_ =? _). }
      rewrite P in L. cbn in L. lia. }
    destruct (IH _ I1 Ln) as (A & B & (l & R & C) & F). clear IH Ln.
    set (ex' := expire_loop n t _) in *. clearbody ex'.
    pose proof (timed_nodup _ _ _ (inv_timed _ I)) as N. rewrite P in N. cbn [map] in N.
    apply NoDup_cons in N as [Nd _].
    unfold expire_one in A, B, R, C. cbn [suspendedTasks_ on_deadlines] in A, B, R, C.
    destruct (suspendedTasks_ ex !! to_int (key d)) as [it|] eqn:E0;
      [destruct (Z.eqb_spec (suspensionSeq it) (deadlineSeq d)) as [Q|Q]|].
    + cbn in A, B, R, C. split_and!; try done.
      * intros k s d' Hk D' Q'. pose proof (timed_own _ _ _ _ _ _ (inv_timed _ I) Hk D' Q') as K'.
        rewrite P in D'. apply elem_of_cons in D' as [->|D'].
        -- rewrite K' in *. rewrite (proj2 (Z.leb_le _ _) Ld). apply B, lookup_delete_eq.
        -- apply A; try done. rewrite lookup_delete_ne; [done|]. intros <-. apply Nd.
           apply list_elem_of_fmap. exists d'. split; [congruence|done].
      * intros k Hk. apply B. by apply lookup_delete_None; right.
      * exists (it :: l). split; [by rewrite R, <- app_assoc|].
        rewrite (vals_delete _ _ _ E0). cbn. by rewrite C.
    + split_and!; try done; [|exists l; done].
      intros k s d' Hk D' Q'. pose proof (timed_own _ _ _ _ _ _ (inv_timed _ I) Hk D' Q') as K'.
      rewrite P in D'. apply elem_of_cons in D' as [->|D']; [congruence|by apply A].
    + split_and!; try done; [|exists l; done].
      intros k s d' Hk D' Q'. pose proof (timed_own _ _ _ _ _ _ (inv_timed _ I) Hk D' Q') as K'.
      rewrite P in D'. apply elem_of_cons in D' as [->|D']; [congruence|by apply A].
Qed.

(** ** Wake-ups after a number of turns *)

Fixpoint wake_turns (n : nat) (ex : Executor) : Executor :=
  match n with O => ex | S n => wake_turns n (wake_turn ex) end.

Lemma wake_turns_idle n ex :
  0 <= wakeTime_ ex ->
  (forall i, 0 <= i < Z.of_nat n ->
     nth (Z.to_nat ((wakeTime_ ex + i) `mod` MAX_WAKEUP_TURN)) (wakeUpQueue_ ex) [] = []) ->
  wake_turns n ex = on_wakeTime (fun t => t + Z.of_nat n) ex.
Proof.
  revert ex. induction n as [|n IH]; intros ex T E.
  - destruct ex; cbn. unfold on_wakeTime. cbn. by rewrite Z.add_0_r.
  - cbn [wake_turns].
    assert (W : wake_turn ex = on_wakeTime (fun t => t + 1) ex).
    { unfold wake_turn. specialize (E 0 ltac:(lia)). rewrite Z.add_0_r in E. by rewrite E. }
    rewrite W, IH; [| |].
    + unfold on_wakeTime. cbn. f_equal. lia.
    + cbn. lia.
    + intros i Hi. cbn. replace (wakeTime_ ex + 1 + i) with (wakeTime_ ex + (i + 1)) by lia.
      apply E. lia.
Qed.

Lemma wake_turns_add m n ex : wake_turns (m + n) ex = wake_turns n (wake_turns m ex).
Proof. revert ex. induction m as [|m IH]; intros ex; [done|]. cbn. apply IH. Qed.

(** The turn whose slot holds the one key [k]. *)
Lemma wake_turn_fire k ex :
  nth (Z.to_nat (wakeTime_ ex `mod` MAX_WAKEUP_TURN)) (wakeUpQueue_ ex) [] = [k] ->
  wake_turn ex = on_wakeTime (fun t => t + 1) (wake_one k ex).
Proof. intros E. unfold wake_turn. by rewrite E. Qed.

Lemma nth_push_slot i k v j :
  Forall (fun slot => slot = []) v -> 0 <= i < Z.of_nat (length v) -> 0 <= j ->
  nth (Z.to_nat j) (push_slot i k v) [] = if j =? i then [k] else [].
Proof.
  intros F L J. unfold push_slot. rewrite nth_lookup, list_lookup_alter.
  assert (Z : forall x, v !! x = None \/ v !! x = Some []).
  { intros x. destruct (v !! x) as [slot|] eqn:E; [right|by left].
    f_equal. exact (proj1 (Forall_lookup _ _) F _ _ E). }
  destruct (Z.eqb_spec j i) as [->|N].
  - rewrite decide_True by done. destruct (Z (Z.to_nat i)) as [E|E]; rewrite E; [|done].
    apply lookup_ge_None in E. lia.
  - rewrite decide_False by lia. by destruct (Z (Z.to_nat j)) as [->| ->].
Qed.

Lemma wake_slot c h ex i :
  Forall (fun slot => slot = []) (wakeUpQueue_ ex) -> length (wakeUpQueue_ ex) = 10%nat ->
  0 <= wakeTime_ ex -> 0 <= c < 10 -> 0 <= i ->
  nth (Z.to_nat ((wakeTime_ ex + i) `mod` MAX_WAKEUP_TURN)) (wakeUpQueue_ (wakeMeIn c h ex)) [] =
  if i `mod` 10 =? c then [syntheticEventKey_ ex] else [].
Proof.
  intros F L T Hc Hi. unfold MAX_WAKEUP_TURN. cbn [wakeUpQueue_ wakeMeIn on_wakeQ on_suspended on_eventKey on_seq wakeTime_].
  unfold MAX_WAKEUP_TURN. pose proof (Z.mod_pos_bound (wakeTime_ ex + c) 10 ltac:(lia)).
  pose proof (Z.mod_pos_bound (wakeTime_ ex + i) 10 ltac:(lia)).
  rewrite nth_push_slot by (try done; try rewrite L; lia).
  assert (E : ((wakeTime_ ex + i) `mod` 10 =? (wakeTime_ ex + c) `mod` 10) = (i `mod` 10 =? c)).
  { apply eq_true_iff_eq. rewrite !Z.eqb_eq. Z.div_mod_to_equations. lia. }
  by rewrite E.
Qed.

(** ** Properties *)

(** C7: Whatever the kernel reports, one pass over the completions, events, deadlines
    and submissions of a turn keeps every coroutine handle that the executor holds
    exactly as often as before, in one of its queues and maps, and adds only those
    that the worker threads posted: no coroutine is lost or resumed twice. *)
Theorem poll_conserves {W} `{Disciplined W} `{DeadlineHeap} ewt ex w :
  executor_inv ex ->
  let s := drainCompletions (ex, w) in
  let posts := (posted (epoll_wait (if noPendingOps s.1 then ewt else 0) s.2).2).1 in
  executor_inv (poll ewt s).1 /\ waiting (poll ewt s).1 ≡ₚ posts ++ waiting ex.
Proof.
  intros I. destruct (drainCompletions_inv (ex, w) I) as [I1 P1].
  destruct (drainCompletions (ex, w)) as [ex1 w1]. destruct (poll_inv ewt ex1 w1 I1 posted_ok) as [I2 P2].
  split; [done|]. by rewrite P2, P1.
Qed.

(** In a process whose coroutines spawn only new coroutines and await one thing at
    a time, the event loop never resumes a null handle, and whenever it returns its
    bookkeeping is consistent: the task map is the inverse of the task vector, every
    suspension has its deadline, and identifiers are unique. *)
Theorem run_safe {W} `{Disciplined W} `{DeadlineHeap} grace ewt turns fuel sd ex w :
  executor_inv ex ->
  match run grace ewt turns fuel sd (ex, w) with
  | Some (Ret (ex', _)) => executor_inv ex'
  | Some _ => False
  | None => True
  end.
Proof.
  revert sd ex w. induction turns as [|turns IH]; intros sd ex w I; [done|]. cbn [run].
  destruct (check_shutdown grace sd (ex, w)) as [[stop sd'] w']. destruct stop; [done|]. cbn [fst].
  destruct (drainCompletions_inv (ex, w') I) as [I1 _]. destruct (drainCompletions (ex, w')) as [ex1 w1].
  pose proof (run_ready_safe fuel ex1 w1 I1) as R.
  destruct (run_ready fuel (ex1, w1)) as [[[ex2 w2]| |]|]; try done. destruct R as [I2 _].
  destruct (poll_inv ewt ex2 w2 I2 posted_ok) as [I3 _]. destruct (poll ewt (ex2, w2)) as [ex3 w3].
  by apply IH.
Qed.

(** A turn of the loop ends: when the coroutines can wake or spawn only finitely
    many others (bounded by [spawns]), the ready queue runs empty, after at most as
    many resumptions as it has entries plus that bound. *)
Theorem turn_ends {W} `{Disciplined W} (spawns : W -> nat) ex w :
  (forall h t ex w, (pushes (resume h t ex w).1 + spawns (resume h t ex w).2 <= spawns w)%nat) ->
  executor_inv ex ->
  exists ex' w', run_ready (length (readyQueue_ ex) + spawns w) (ex, w) = Some (Ret (ex', w')) /\
    readyQueue_ ex' = [] /\ executor_inv ex'.
Proof.
  intros B I. destruct (run_ready_ends spawns _ ex w B (Nat.le_refl _)) as [r Hr].
  pose proof (run_ready_safe (length (readyQueue_ ex) + spawns w) ex w I) as R. rewrite Hr in R |- *.
  destruct r as [[ex' w']| |]; [|done|done]. destruct R. eauto.
Qed.

(** The sweep of the deadlines resumes every suspended coroutine whose own
    deadline has passed, once, flagged as timed out, and leaves every other one
    suspended; the deadline of an earlier suspension on the same descriptor, which
    was ended by an event, wakes nobody. *)
Theorem timeouts `{DeadlineHeap} timeNow ex :
  executor_inv ex ->
  (forall k s, suspendedTasks_ ex !! k = Some s ->
     exists d, d ∈ taskDeadlines_ ex /\ to_int (key d) = k /\ deadlineSeq d = suspensionSeq s /\
       if deadline d <=? timeNow
       then suspendedTasks_ (expire timeNow ex) !! k = None /\ timed_out s ∈ readyQueue_ (expire timeNow ex)
       else suspendedTasks_ (expire timeNow ex) !! k = Some s) /\
  (exists l, readyQueue_ (expire timeNow ex) = readyQueue_ ex ++ map timed_out l /\
     l ++ vals (suspendedTasks_ (expire timeNow ex)) ≡ₚ vals (suspendedTasks_ ex)) /\
  Forall (fun d => timeNow < deadline d) (taskDeadlines_ (expire timeNow ex)).
Proof.
  intros I. destruct (expire_loop_spec _ timeNow ex I eq_refl) as (A & B & (l & R & C) & F).
  split; [|eauto]. intros k s Hk. destruct (timed_has _ _ _ (inv_timed _ I) k s Hk) as (d & Hd & K & Q).
  exists d. do 3 (split; [done|]). pose proof (A k s d Hk Hd Q) as E. unfold expire.
  destruct (deadline d <=? timeNow); [|done]. split; [done|]. rewrite R. apply elem_of_app; right.
  apply list_elem_of_fmap. exists s. split; [done|].
  assert (Hs : s ∈ l ++ vals (suspendedTasks_ (expire timeNow ex))) by (rewrite C; apply vals_elem; eauto).
  apply elem_of_app in Hs as [?|(k' & Hk')%vals_elem]; [done|]. exfalso.
  destruct (suspendedTasks_ ex !! k') as [s'|] eqn:E'; [|unfold expire in Hk'; rewrite B in Hk'; done].
  destruct (timed_has _ _ _ (inv_timed _ I) k' s' E') as (d' & Hd' & K' & Q').
  pose proof (A k' s' d' E' Hd' Q') as E2. unfold expire in Hk'. rewrite Hk' in E2.
  destruct (deadline d' <=? timeNow); [done|]. injection E2 as <-.
  pose proof (timed_own _ _ _ _ _ _ (inv_timed _ I) E' Hd Q). subst. congruence.
Qed.

(** A root task whose coroutine has finished is destroyed, and only such a task:
    after the sweep that follows every resumption the executor owns exactly the
    unfinished ones, its map again being the inverse of its vector, although the
    removal swaps elements; nothing else of the executor changes. *)
Theorem reap_finished ex :
  owned_ok ex ->
  owned_ok (reap ex) /\
  (forall a, a ∈ ownedTasks_ (reap ex) <-> a ∈ ownedTasks_ ex /\ a ∉ finishedRoots_ ex) /\
  exists m l, reap ex = with_owned m l (on_finished (fun _ => []) ex).
Proof.
  intros O. destruct (reap_spec ex O) as (O1 & P & F). split; [done|]. split; [|done].
  intros a. rewrite P, list_elem_of_filter. tauto.
Qed.

(** A coroutine that asks to be resumed [c] turns later is resumed by the turn
    [c], not earlier; but its entry in the slot is never removed, so ten turns later
    the null handle is put into the ready queue, whose resumption is undefined. *)
Theorem wake_again (c : nat) h ex :
  executor_inv ex -> length (wakeUpQueue_ ex) = 10%nat -> 0 <= wakeTime_ ex -> (c < 10)%nat ->
  -2147483648 <= syntheticEventKey_ ex ->
  let ex1 := wakeMeIn (Z.of_nat c) h ex in
  (forall n, (n <= c)%nat -> readyQueue_ (wake_turns n ex1) = readyQueue_ ex /\
     task <$> (suspendedTasks_ (wake_turns n ex1) !! syntheticEventKey_ ex) = Some h) /\
  readyQueue_ (wake_turns (c + 1) ex1) = readyQueue_ ex ++ [{| ready := h; timedOut := false |}] /\
  readyQueue_ (wake_turns (c + 11) ex1) =
    readyQueue_ ex ++ [{| ready := h; timedOut := false |}; {| ready := null_handle; timedOut := false |}].
Proof.
  intros I L T Hc Hk. pose proof (inv_eventKey _ I) as Ke.
  set (ex1 := wakeMeIn (Z.of_nat c) h ex).
  pose proof (fun i => wake_slot (Z.of_nat c) h ex i (inv_wakeQ _ I) L T ltac:(lia)) as Slot. fold ex1 in Slot.
  assert (Idle : forall n, (n <= c)%nat -> wake_turns n ex1 = on_wakeTime (fun t => t + Z.of_nat n) ex1).
  { intros n Hn. apply wake_turns_idle; [done|]. intros i Hi. change (wakeTime_ ex1) with (wakeTime_ ex).
    rewrite Slot by lia. rewrite Z.mod_small by lia. by rewrite (proj2 (Z.eqb_neq _ _)) by lia. }
  assert (Fire : wake_turns (c + 1) ex1 =
    on_wakeTime (fun t => t + 1) (wake_one (syntheticEventKey_ ex) (on_wakeTime (fun t => t + Z.of_nat c) ex1))).
  { rewrite wake_turns_add, (Idle c) by lia. cbn [wake_turns]. apply wake_turn_fire.
    cbn [wakeTime_ wakeUpQueue_ on_wakeTime]. change (wakeTime_ ex1) with (wakeTime_ ex).
    rewrite Slot by lia. rewrite Z.mod_small by lia. by rewrite Z.eqb_refl. }
  assert (S1 : suspendedTasks_ ex1 !! syntheticEventKey_ ex =
    Some {| task := h; waitingForWrite := false; suspensionSeq := to_int (nextSeq_ ex) |}).
  { cbn. rewrite to_int_id by lia. apply lookup_insert_eq. }
  split; [|split].
  - intros n Hn. rewrite (Idle n Hn). split; [done|].
    cbn [suspendedTasks_ on_wakeTime]. by rewrite S1.
  - rewrite Fire. unfold wake_one. cbn [suspendedTasks_ on_wakeTime]. rewrite to_int_id, S1 by lia. done.
  - replace (c + 11)%nat with ((c + 1) + (9 + 1))%nat by lia. rewrite wake_turns_add, Fire.
    set (ex2 := on_wakeTime (fun t => t + 1) (wake_one _ _)).
    assert (T2 : wakeTime_ ex2 = wakeTime_ ex + (Z.of_nat c + 1)) by (cbn; lia).
    assert (Q2 : wakeUpQueue_ ex2 = wakeUpQueue_ ex1) by done.
    rewrite wake_turns_add, (wake_turns_idle 9).
    + cbn [wake_turns]. rewrite (wake_turn_fire (syntheticEventKey_ ex)).
      * unfold wake_one. cbn [suspendedTasks_ on_wakeTime]. rewrite (to_int_id (syntheticEventKey_ ex)) by lia.
        assert (suspendedTasks_ ex2 !! syntheticEventKey_ ex = None) as ->.
        { unfold ex2, wake_one. cbn [suspendedTasks_ on_wakeTime on_suspended]. rewrite to_int_id by lia.
          apply lookup_delete_eq. }
        cbn [from_option readyQueue_ on_wakeTime on_suspended push_ready on_readyQ].
        unfold ex2, wake_one. cbn [suspendedTasks_ on_wakeTime]. rewrite to_int_id, S1 by lia.
        cbn. by rewrite <- app_assoc.
      * cbn [wakeTime_ wakeUpQueue_ on_wakeTime]. rewrite T2, Q2, <- Z.add_assoc, Slot by lia.
        replace (Z.of_nat c + 1 + Z.of_nat 9) with (Z.of_nat c + 1 * 10) by lia.
        rewrite Z.mod_add, Z.mod_small, Z.eqb_refl by lia. done.
    + lia.
    + intros i Hi. rewrite T2, Q2, <- Z.add_assoc, Slot by lia.
      rewrite (proj2 (Z.eqb_neq _ _)); [done|]. Z.div_mod_to_equations. lia.
Qed.

Lemma Executor_new_inv fd : executor_inv (Executor_new fd).
Proof.
  split; cbn; try done.
  - split; [constructor|]. intros a i. cbn. by rewrite lookup_empty, lookup_nil.
  - set_solver.
  - constructor.
  - split; cbn; [|set_solver|constructor]. intros k s. by rewrite lookup_empty.
  - intros k [x Hx]. by rewrite lookup_empty in Hx.
  - repeat constructor.
Qed.

(** ** Witnesses *)

Module ExecutorWitnesses.

(** The entry with the least deadline, the first of several. *)
Fixpoint first_least (l : list TaskDeadline) : option (TaskDeadline * list TaskDeadline) :=
  match l with
  | [] => None
  | d :: l =>
      match first_least l with
      | Some (t, r) => if deadline d <=? deadline t then Some (d, t :: r) else Some (t, d :: r)
      | None => Some (d, [])
      end
  end.

Lemma first_least_spec l t r :
  first_least l = Some (t, r) -> l ≡ₚ t :: r /\ Forall (fun d => deadline t <= deadline d) r.
Proof.
  revert t r. induction l as [|d l IH]; intros t r; cbn [first_least]; [done|].
  destruct (first_least l) as [[t0 r0]|] eqn:E.
  - destruct (IH _ _ eq_refl) as [P F]. destruct (Z.leb_spec (deadline d) (deadline t0)); intros [= <- <-].
    + split; [by rewrite P|]. constructor; [done|]. eapply Forall_impl; [exact F|]. cbn. lia.
    + split; [rewrite P; solve_Permutation|]. constructor; [lia|done].
  - intros [= <- <-]. destruct l as [|d' l]; [done|]. cbn in E. destruct (first_least l) as [[]|]; [|done].
    by destruct (_ <=? _).
Qed.

#[local] Instance first_least_heap : DeadlineHeap.
Proof.
  refine {| top_pop := first_least; top_pop_nil := eq_refl; top_pop_spec := first_least_spec |}.
  intros d l. cbn. destruct (first_least l) as [[t r]|]; [destruct (_ <=? _)|]; eauto.
Defined.

(** One coroutine that waits for descriptor 7 until time 100, then reads a file,
    then finishes; the state counts its resumptions and the turns. *)
#[local] Instance demo : World (nat * nat) := {|
  resume h t ex w :=
    (match w.1 with
     | O => if decide (suspendedTasks_ ex !! 7 = None /\ nextSeq_ ex < 2147483648)
            then [RegisterReadFd 7; WaitForRead 7 h 100] else []
     | 1%nat => [SubmitFile READ 9 1000 64 h 2000 0]
     | _ => [MarkRootFinished h]
     end, (S w.1, w.2));
  store_result p r w := w;
  completions w := (if decide (w.2 = 3)%nat then [(0, 64)] else [], w);
  posted w := ([], w);
  epoll_wait t w := (if decide (w.2 = 1)%nat
    then [{| evFd := 7; isError := false; readReady := true; writeReady := false |}] else [], (w.1, S w.2));
  now w := (10 * Z.of_nat w.2, w);
  prepFile p w := (true, w);
  prepSplice p w := (true, w);
  ioSubmit w := w;
  shutdown w := bool_decide (5 <= w.2)%nat;
|}.

#[local] Instance demo_disciplined : Disciplined (nat * nat).
Proof.
  split; [|intros w; apply not_elem_of_nil]. intros h t ex [[|[|n]] w] Hh I; cbn; [|done|done].
  case_decide as D; [|done]. cbn. split; [done|]. split; [|done]. destruct D. split_and!; try done; lia.
Defined.

Definition e0 : Executor := spawn 1 (Executor_new 3).
Lemma e0_inv : executor_inv e0.
Proof. apply spawn_inv; [apply Executor_new_inv|]. cbn. set_solver. Qed.

(** Two suspended coroutines, one of them overdue at time 60. *)
Definition e1 : Executor := waitForRead 8 2 90 (waitForRead 7 1 50 (Executor_new 3)).
Lemma e1_inv : executor_inv e1.
Proof.
  apply (do_call_inv (WaitForRead 8 2 90)); [apply (do_call_inv (WaitForRead 7 1 50)); [apply Executor_new_inv|]|];
    cbn; split_and!; try done; lia.
Qed.

Lemma run_safe_witness :
  executor_inv e0 /\
  match run 5 1 20 10 None (e0, (0, 0)%nat) with
  | Some (Ret (ex, w)) => executor_inv ex /\ ownedTasks_ ex = [] /\ w = (3, 5)%nat
  | _ => False
  end.
Proof.
  split; [exact e0_inv|]. pose proof (run_safe 5 1 20 10 None e0 (0, 0)%nat e0_inv) as R.
  assert (E : match run 5 1 20 10 None (e0, (0, 0)%nat) with
    | Some (Ret (ex, w)) => ownedTasks_ ex = [] /\ w = (3, 5)%nat | _ => False end)
    by (vm_compute; split; reflexivity).
  destruct (run 5 1 20 10 None (e0, (0, 0)%nat)) as [[[ex w]| |]|]; [|destruct E ..].
  destruct E. split_and!; assumption.
Defined.

Lemma poll_conserves_witness :
  executor_inv e1 /\ waiting e1 = [1; 2] /\
  executor_inv (poll 1 (drainCompletions (e1, (0, 1)%nat))).1 /\
  waiting (poll 1 (drainCompletions (e1, (0, 1)%nat))).1 ≡ₚ [] ++ [1; 2].
Proof.
  split; [exact e1_inv|]. split; [vm_compute; reflexivity|].
  exact (poll_conserves 1 e1 (0, 1)%nat e1_inv).
Defined.

Lemma turn_ends_witness :
  (forall h t ex w, (pushes (resume h t ex w).1 + 0 <= 0)%nat) /\ executor_inv e0 /\
  exists ex w, run_ready 1 (e0, (0, 0)%nat) = Some (Ret (ex, w)) /\ readyQueue_ ex = [] /\ executor_inv ex.
Proof.
  assert (B : forall h t ex (w : nat * nat), (pushes (resume h t ex w).1 + 0 <= 0)%nat).
  { intros h t ex [[|[|n]] w]; cbn [resume demo fst]; [case_decide| |]; apply Nat.le_refl. }
  split; [exact B|]. split; [exact e0_inv|]. exact (turn_ends (fun _ => O) e0 (0, 0)%nat B e0_inv).
Defined.

Lemma timeouts_witness :
  executor_inv e1 /\ readyQueue_ (expire 60 e1) = [{| ready := 1; timedOut := true |}] /\
  Forall (fun d => 60 < deadline d) (taskDeadlines_ (expire 60 e1)).
Proof.
  split; [exact e1_inv|]. split; [vm_compute; reflexivity|].
  exact (proj2 (proj2 (timeouts 60 e1 e1_inv))).
Defined.

Definition e2 : Executor := markRootFinished 5 (spawn 6 (spawn 5 (spawn 4 (Executor_new 3)))).
Lemma e2_owned : owned_ok e2.
Proof. apply finished_inv; repeat (apply spawn_inv; [|cbn; set_solver]); apply Executor_new_inv. Qed.

Lemma reap_finished_witness :
  owned_ok e2 /\ ownedTasks_ (reap e2) = [4; 6] /\ owned_ok (reap e2).
Proof.
  split; [exact e2_owned|]. split; [vm_compute; reflexivity|]. exact (proj1 (reap_finished e2 e2_owned)).
Defined.

Lemma wake_again_witness :
  executor_inv (Executor_new 3) /\
  readyQueue_ (wake_turns 13 (wakeMeIn 2 5 (Executor_new 3))) =
    [{| ready := 5; timedOut := false |}; {| ready := null_handle; timedOut := false |}].
Proof.
  split; [apply Executor_new_inv|].
  exact (proj2 (proj2 (wake_again 2 5 (Executor_new 3) (Executor_new_inv 3) eq_refl
    ltac:(vm_compute; discriminate) ltac:(lia) ltac:(vm_compute; discriminate)))).
Defined.

End ExecutorWitnesses.
