(* ===== verification/PipePool.v ===== *)
(** The pipes through which files are spliced to sockets ([core/PipePool.hpp],
    [core/PipePool.cpp]): a bounded pool per thread whose waiters are suspended in the
    executor, and [TcpStream::sendFileSplice] ([net/TcpStream.cpp]), its client. *)
From S2P Require Import Prelude Executor.

#[local] Open Scope Z_scope.

Record Pipe := { pin : Z; pout : Z }.
#[export] Instance Pipe_eq_dec : EqDecision Pipe.
Proof. solve_decision. Defined.

(** [waiters_] holds keys of the executor's synthetic events. *)
Record PipePool := {
  freePipes_ : list Pipe;
  waiters_ : list Z;
  created_ : Z;
  maxPipes_ : Z;
}.

Definition PipePool_new : PipePool := {| freePipes_ := []; waiters_ := []; created_ := 0; maxPipes_ := 48 |}.

Definition with_free (f : list Pipe -> list Pipe) (p : PipePool) : PipePool :=
  {| freePipes_ := f (freePipes_ p); waiters_ := waiters_ p; created_ := created_ p; maxPipes_ := maxPipes_ p |}.
Definition with_waiters (f : list Z -> list Z) (p : PipePool) : PipePool :=
  {| freePipes_ := freePipes_ p; waiters_ := f (waiters_ p); created_ := created_ p; maxPipes_ := maxPipes_ p |}.
Definition with_created (f : Z -> Z) (p : PipePool) : PipePool :=
  {| freePipes_ := freePipes_ p; waiters_ := waiters_ p; created_ := f (created_ p); maxPipes_ := maxPipes_ p |}.

(** [pipe2] is what the system call yields: the two descriptors, or [None]; the size
    of the pipe is only set, and a failure to do so only logged. *)
Definition tryAcquire (pipe2 : option (Z * Z)) (pool : PipePool) : option Pipe * PipePool :=
  match last (freePipes_ pool) with
  | Some p => (Some p, with_free (fun l => take (length l - 1) l) pool)
  | None =>
      if maxPipes_ pool <=? created_ pool then (None, pool)
      else
        match pipe2 with
        | None => (None, pool)
        | Some (fd0, fd1) => (Some {| pin := fd1; pout := fd0 |}, with_created (fun n => n + 1) pool)
        end
  end.

Definition wakeOneWaiter (pool : PipePool) (ex : Executor) : PipePool * Executor :=
  match waiters_ pool with
  | [] => (pool, ex)
  | k :: rest => (with_waiters (fun _ => rest) pool, fireEvent k ex)
  end.

Definition release (p : Pipe) (pool : PipePool) (ex : Executor) : PipePool * Executor :=
  wakeOneWaiter (with_free (fun l => l ++ [p]) pool) ex.

(** The descriptors are closed. *)
Definition discard (p : Pipe) (pool : PipePool) (ex : Executor) : PipePool * Executor :=
  wakeOneWaiter (with_created (fun n => n - 1) pool) ex.

(** [PipeWaitAwaitable::await_suspend] *)
Definition PipeWait_suspend (h : handle) (dl : Z) (pool : PipePool) (ex : Executor) : PipePool * Executor :=
  let '(eventKey, ex) := waitForEvent h dl ex in
  (with_waiters (fun l => l ++ [eventKey]) pool, ex).

(** [PipePool::acquire] up to where it returns ([Some]) or is suspended ([None]), and
    from where it was resumed. *)
Definition acquire (pipe2 : option (Z * Z)) (h : handle) (dl : Z) (pool : PipePool) (ex : Executor) :
  option (option Pipe) * PipePool * Executor :=
  match tryAcquire pipe2 pool with
  | (Some p, pool) => (Some (Some p), pool, ex)
  | (None, pool) => let '(pool, ex) := PipeWait_suspend h dl pool ex in (None, pool, ex)
  end.
Definition acquire_resumed (tl_timed_out : bool) (pipe2 : option (Z * Z)) (h : handle) (dl : Z) (pool : PipePool)
  (ex : Executor) : option (option Pipe) * PipePool * Executor :=
  if tl_timed_out then (Some None, pool, ex) else acquire pipe2 h dl pool ex.

(** ** The accounts of the pool *)

(** What happens to a pool: acquisitions (the first part or a continuation), and
    returns of pipes by their holders. *)
Inductive pool_op :=
| Acquire (pipe2 : option (Z * Z)) (h : handle) (dl : Z)
| Resumed (tl_timed_out : bool) (pipe2 : option (Z * Z)) (h : handle) (dl : Z)
| Release (p : Pipe)
| Discard (p : Pipe).

(** The pool, the executor, and the pipes handed out. *)
Record system := { pool : PipePool; exec : Executor; held : list Pipe }.

Definition hand_out (r : option (option Pipe) * PipePool * Executor) (s : system) : system :=
  {| pool := r.1.2; exec := r.2;
     held := match r.1.1 with Some (Some p) => p :: held s | _ => held s end |}.

Definition remove_one (p : Pipe) (l : list Pipe) : list Pipe :=
  match list_find (fun q => q = p) l with Some (i, _) => delete i l | None => l end.

Definition pool_step (o : pool_op) (s : system) : system :=
  match o with
  | Acquire r h dl => hand_out (acquire r h dl (pool s) (exec s)) s
  | Resumed t r h dl => hand_out (acquire_resumed t r h dl (pool s) (exec s)) s
  | Release p => let '(pl, ex) := release p (pool s) (exec s) in {| pool := pl; exec := ex; held := remove_one p (held s) |}
  | Discard p => let '(pl, ex) := discard p (pool s) (exec s) in {| pool := pl; exec := ex; held := remove_one p (held s) |}
  end.

(** Only holders return a pipe, and [pipe2] yields descriptors of no other pipe. *)
Definition op_ok (o : pool_op) (s : system) : Prop :=
  match o with
  | Acquire r _ _ | Resumed _ r _ _ =>
      match r with
      | Some (a, b) => {| pin := b; pout := a |} ∉ freePipes_ (pool s) ++ held s
      | None => True
      end
  | Release p | Discard p => p ∈ held s
  end.

Fixpoint ops_ok (l : list pool_op) (s : system) : Prop :=
  match l with [] => True | o :: l => op_ok o s /\ ops_ok l (pool_step o s) end.
Definition pool_steps (l : list pool_op) (s : system) : system := foldl (fun s o => pool_step o s) s l.

Record pool_inv (s : system) : Prop := {
  pool_created : created_ (pool s) = Z.of_nat (length (freePipes_ (pool s)) + length (held s));
  pool_bound : created_ (pool s) <= maxPipes_ (pool s);
  pool_nodup : NoDup (freePipes_ (pool s) ++ held s);
}.

Lemma remove_one_spec p l : p ∈ l -> l ≡ₚ p :: remove_one p l.
Proof.
  intros H. unfold remove_one. destruct (list_find _ l) as [[i q]|] eqn:E.
  - apply list_find_Some in E as (Hi & -> & _). by apply delete_Permutation.
  - apply list_find_None in E. rewrite Forall_forall in E. by destruct (E p H).
Qed.

Lemma wakeOneWaiter_pool pl ex :
  freePipes_ (wakeOneWaiter pl ex).1 = freePipes_ pl /\ created_ (wakeOneWaiter pl ex).1 = created_ pl /\
  maxPipes_ (wakeOneWaiter pl ex).1 = maxPipes_ pl.
Proof. unfold wakeOneWaiter. by destruct (waiters_ pl). Qed.

Lemma snoc_last {A} (l : list A) x : last l = Some x -> l = take (length l - 1) l ++ [x].
Proof.
  intros H. apply last_Some in H as [l' ->]. rewrite length_app. cbn [length].
  replace (length l' + 1 - 1)%nat with (length l') by lia. by rewrite take_app_length.
Qed.

(** What [tryAcquire] hands out was free or is new; it fails only when nothing is free. *)
Lemma tryAcquire_inv r s :
  pool_inv s -> op_ok (Acquire r 0 0) s ->
  match tryAcquire r (pool s) with
  | (Some p, pl) => pool_inv {| pool := pl; exec := exec s; held := p :: held s |}
  | (None, pl) => pl = pool s /\ freePipes_ (pool s) = []
  end.
Proof.
  intros [C B N] K. unfold tryAcquire. destruct (last (freePipes_ (pool s))) as [p|] eqn:L.
  - apply snoc_last in L. unfold with_free. cbn beta. set (f := take _ _) in *. clearbody f.
    assert (P : freePipes_ (pool s) ++ held s = f ++ p :: held s) by (by rewrite L, <- app_assoc).
    split; cbn; [|done|by rewrite <- P]. rewrite C, <- length_app, P, length_app. cbn. lia.
  - apply last_None in L. destruct (Z.leb_spec (maxPipes_ (pool s)) (created_ (pool s))); [done|].
    destruct r as [[a b]|]; [|done]. split; cbn.
    + rewrite C. lia.
    + lia.
    + rewrite L in N |- *. cbn [op_ok] in K. rewrite L in K. cbn [app] in *. by apply NoDup_cons_2.
Qed.

Lemma acquire_inv r h dl s :
  pool_inv s -> op_ok (Acquire r 0 0) s -> pool_inv (hand_out (acquire r h dl (pool s) (exec s)) s).
Proof.
  intros I K. pose proof (tryAcquire_inv r s I K) as T. unfold acquire.
  destruct (tryAcquire r (pool s)) as [[p|] pl]; cbn.
  - split; apply T.
  - destruct T as [-> _]. split; apply I.
Qed.

Lemma pool_step_inv o s : pool_inv s -> op_ok o s -> pool_inv (pool_step o s).
Proof.
  intros I K. destruct o as [r h dl|[] r h dl|p|p]; cbn [pool_step].
  - by apply acquire_inv.
  - split; apply I.
  - by apply acquire_inv.
  - cbn in K. pose proof (remove_one_spec _ _ K) as P. unfold release.
    destruct (wakeOneWaiter_pool (with_free (fun l => l ++ [p]) (pool s)) (exec s)) as (E1 & E2 & E3).
    destruct (wakeOneWaiter _ _) as [pl ex]. cbn in *. destruct I as [C B N]. rewrite P in C, N.
    split; cbn; rewrite ?E1, ?E2, ?E3; [|done|].
    + rewrite C, length_app. cbn. lia.
    + by rewrite <- app_assoc.
  - cbn in K. pose proof (remove_one_spec _ _ K) as P. unfold discard.
    destruct (wakeOneWaiter_pool (with_created (fun n => n - 1) (pool s)) (exec s)) as (E1 & E2 & E3).
    destruct (wakeOneWaiter _ _) as [pl ex]. cbn in *. destruct I as [C B N]. rewrite P in C, N.
    split; cbn; rewrite ?E1, ?E2, ?E3.
    + rewrite C. cbn. lia.
    + lia.
    + rewrite <- Permutation_middle in N. by apply NoDup_cons in N as [].
Qed.

(** ** Sending a file through a pipe *)

(** A file, the contents of the pipe, and what the socket was given; the kernel decides
    with [decisions] how much each call moves, or with which error it fails.  When
    they are used up, the call has not returned. *)
Record SpliceWorld := { file : bytes; piped : bytes; sent : bytes; decisions : list Z }.

Definition EAGAIN : Z := 11.

Definition splice_in (offset len : nat) (w : SpliceWorld) : option (Z * SpliceWorld) :=
  match decisions w with
  | [] => None
  | d :: ds =>
      if d <? 0 then Some (d, {| file := file w; piped := piped w; sent := sent w; decisions := ds |})
      else
        let data := take (Nat.min (Z.to_nat d) len) (drop offset (file w)) in
        Some (Z.of_nat (length data), {| file := file w; piped := piped w ++ data; sent := sent w; decisions := ds |})
  end.

Definition splice_out (len : nat) (w : SpliceWorld) : option (Z * SpliceWorld) :=
  match decisions w with
  | [] => None
  | d :: ds =>
      if d <? 0 then Some (d, {| file := file w; piped := piped w; sent := sent w; decisions := ds |})
      else
        let n := Nat.min (Nat.min (Z.to_nat d) len) (length (piped w)) in
        Some (Z.of_nat n, {| file := file w; piped := drop n (piped w); sent := sent w ++ take n (piped w); decisions := ds |})
  end.

(** The loops around a splice that would block; the awaits between two attempts are
    [WakeInAwaitable] and [WriteAwaitable], whose time-out is not looked at. *)
Fixpoint retry (fuel : nat) (call : SpliceWorld -> option (Z * SpliceWorld)) (w : SpliceWorld) :
  option (Z * SpliceWorld) :=
  match fuel with
  | O => None
  | S fuel =>
      match call w with
      | Some (n, w) => if n =? - EAGAIN then retry fuel call w else Some (n, w)
      | None => None
      end
  end.

(** [while (inPipe > 0)]; [Some n2] is the result that ended it early. *)
Fixpoint empty_pipe (fuel : nat) (inPipe : nat) (w : SpliceWorld) : option (option Z * SpliceWorld) :=
  match inPipe with
  | O => Some (None, w)
  | _ =>
      match fuel with
      | O => None
      | S fuel' =>
          match retry fuel (splice_out inPipe) w with
          | None => None
          | Some (n2, w) =>
              if n2 <=? 0 then Some (Some n2, w) else empty_pipe fuel' (inPipe - Z.to_nat n2) w
          end
      end
  end.

(** [while (remaining > 0)]; the result is that of the [co_return] that ended it early. *)
Fixpoint splice_loop (PIPE_BUFFER_SIZE fuel offset remaining : nat) (w : SpliceWorld) : option (option Z * SpliceWorld) :=
  match remaining with
  | O => Some (None, w)
  | _ =>
      match fuel with
      | O => None
      | S fuel' =>
          let chunkSize := Nat.min remaining PIPE_BUFFER_SIZE in
          match retry fuel (splice_in offset chunkSize) w with
          | None => None
          | Some (n1, w) =>
              if n1 <=? 0 then Some (Some n1, w)
              else
                match empty_pipe fuel (Z.to_nat n1) w with
                | Some (None, w) =>
                    splice_loop PIPE_BUFFER_SIZE fuel' (offset + Z.to_nat n1) (remaining - Z.to_nat n1) w
                | r => r
                end
          end
      end
  end.

(** [TcpStream::sendFileSplice] from where the pipe was acquired. *)
Definition sendFileSplice (PIPE_BUFFER_SIZE fuel : nat) (offset count : nat) (pipe : Pipe)
  (pl : PipePool) (ex : Executor) (w : SpliceWorld) : option (Z * PipePool * Executor * SpliceWorld) :=
  match splice_loop PIPE_BUFFER_SIZE fuel offset count w with
  | None => None
  | Some (Some n, w) => let '(pl, ex) := discard pipe pl ex in Some (n, pl, ex, w)
  | Some (None, w) => let '(pl, ex) := release pipe pl ex in Some (Z.of_nat count, pl, ex, w)
  end.

Lemma take_length_take {A} n (l : list A) : take (length (take n l)) l = take n l.
Proof. rewrite length_take, <- take_take. by rewrite firstn_all. Qed.

(** The decisions left are among those that were there. *)
Definition eager (w : SpliceWorld) : Prop := Forall (fun d => 0 < d) (decisions w).

Lemma retry_in fuel offset len w n w' :
  retry fuel (splice_in offset len) w = Some (n, w') -> piped w = [] ->
  file w' = file w /\ sent w' = sent w /\ piped w' = take (Z.to_nat n) (drop offset (file w)) /\
  length (piped w') = Z.to_nat n /\ (Z.to_nat n <= len)%nat.
Proof.
  revert w. induction fuel as [|fuel IH]; intros w; [done|]. cbn [retry]. unfold splice_in at 1.
  destruct (decisions w) as [|d ds]; [done|]. intros E Ep.
  destruct (Z.ltb_spec d 0) as [Ld|Ld].
  - destruct (d =? - EAGAIN); [by apply IH in E|]. injection E as <- <-. cbn.
    replace (Z.to_nat d) with O by lia. rewrite Ep. split_and!; try done. lia.
  - set (m := Nat.min _ _) in *. rewrite (proj2 (Z.eqb_neq _ _)) in E by (unfold EAGAIN; lia).
    injection E as <- <-. cbn. rewrite Ep, Nat2Z.id, take_length_take. split_and!; try done.
    rewrite length_take. lia.
Qed.

Lemma retry_out fuel len w n w' :
  retry fuel (splice_out len) w = Some (n, w') ->
  file w' = file w /\ sent w' = sent w ++ take (Z.to_nat n) (piped w) /\ piped w' = drop (Z.to_nat n) (piped w) /\
  (Z.to_nat n <= len)%nat /\ (Z.to_nat n <= length (piped w))%nat.
Proof.
  revert w. induction fuel as [|fuel IH]; intros w; [done|]. cbn [retry]. unfold splice_out at 1.
  destruct (decisions w) as [|d ds]; [done|]. intros E.
  destruct (Z.ltb_spec d 0) as [Ld|Ld].
  - destruct (d =? - EAGAIN); [by apply IH in E|]. injection E as <- <-. cbn.
    replace (Z.to_nat d) with O by lia. rewrite take_0, app_nil_r. split_and!; try done; lia.
  - set (m := Nat.min _ _) in *. rewrite (proj2 (Z.eqb_neq _ _)) in E by (unfold EAGAIN; lia).
    injection E as <- <-. cbn. rewrite Nat2Z.id. split_and!; try done; lia.
Qed.

Lemma empty_pipe_spec fuel inPipe w r w' :
  empty_pipe fuel inPipe w = Some (r, w') -> length (piped w) = inPipe ->
  file w' = file w /\
  match r with
  | None => piped w' = [] /\ sent w' = sent w ++ piped w
  | Some n => n <= 0 /\ exists k, sent w' = sent w ++ take k (piped w)
  end.
Proof.
  revert inPipe w. induction fuel as [|fuel IH]; intros inPipe w E L.
  - destruct inPipe; [|done]. apply nil_length_inv in L. injection E as <- <-. rewrite L, app_nil_r. done.
  - cbn [empty_pipe] in E. destruct inPipe as [|p].
    { apply nil_length_inv in L. injection E as <- <-. rewrite L, app_nil_r. done. }
    destruct (retry (S fuel) _ w) as [[n w1]|] eqn:R; [|done].
    apply retry_out in R as (F & Es & Ep & B1 & B2).
    destruct (Z.leb_spec n 0) as [Ln|Ln].
    + injection E as <- <-. split; [done|]. split; [done|eauto].
    + apply IH in E as [F' H]; [|rewrite Ep, length_drop; lia]. split; [congruence|]. destruct r as [n'|].
      * destruct H as [? [k Hk]]. split; [done|]. exists (Z.to_nat n + k)%nat.
        rewrite Hk, Es, Ep, <- app_assoc. by rewrite <- take_take_drop.
      * destruct H as [-> Hs]. split; [done|]. by rewrite Hs, Es, Ep, <- app_assoc, take_drop.
Qed.

Lemma splice_loop_spec PBS fuel offset remaining w r w' :
  splice_loop PBS fuel offset remaining w = Some (r, w') -> piped w = [] ->
  file w' = file w /\
  match r with
  | None => piped w' = [] /\ sent w' = sent w ++ take remaining (drop offset (file w)) /\
            (offset + remaining <= length (file w) \/ remaining = 0)%nat
  | Some n => n <= 0 /\ exists k, (k <= remaining)%nat /\ sent w' = sent w ++ take k (drop offset (file w))
  end.
Proof.
  revert offset remaining w. induction fuel as [|fuel IH]; intros offset remaining w E Ep.
  - destruct remaining; [|done]. injection E as <- <-. rewrite take_0, app_nil_r. split_and!; auto.
  - cbn [splice_loop] in E. destruct remaining as [|p].
    { injection E as <- <-. rewrite take_0, app_nil_r. split_and!; auto. }
    set (m := S p) in *. destruct (retry (S fuel) _ w) as [[n w1]|] eqn:R; [|done].
    apply retry_in in R as (F & Es & P1 & L1 & B1); [|done].
    destruct (Z.leb_spec n 0) as [Ln|Ln].
    + injection E as <- <-. split; [done|]. split; [done|]. exists O. rewrite take_0, app_nil_r. split; [lia|done].
    + destruct (empty_pipe (S fuel) (Z.to_nat n) w1) as [[[n2|] w2]|] eqn:X; [| |done];
        apply empty_pipe_spec in X as [F2 X]; try done.
      * injection E as <- <-. destruct X as [? [k Hk]]. split; [congruence|]. split; [done|].
        exists (Nat.min k (Z.to_nat n)). split; [lia|]. by rewrite Hk, Es, P1, take_take.
      * destruct X as [X1 X2]. apply IH in E as [F3 E]; [|done]. rewrite F2, F in *.
        split; [done|]. rewrite P1, Es in X2.
        assert (LD : (Z.to_nat n <= length (drop offset (file w)))%nat).
        { rewrite P1 in L1. rewrite length_take in L1. lia. }
        rewrite length_drop in LD. destruct r as [n'|].
        -- destruct E as (? & k & Hk & Hs). split; [done|]. exists (Z.to_nat n + k)%nat. split; [lia|].
           by rewrite Hs, X2, <- app_assoc, <- drop_drop, take_take_drop.
        -- destruct E as (E1 & E2 & E3). split; [done|]. split; [|lia].
           rewrite E2, X2, <- app_assoc, <- drop_drop, take_take_drop. do 2 f_equal. lia.
Qed.

(** A kernel that always moves something lets every call return at once. *)
Lemma retry_in_eager fuel offset len w :
  eager w -> decisions w <> [] -> (0 < len)%nat -> (offset < length (file w))%nat ->
  exists n w', retry (S fuel) (splice_in offset len) w = Some (n, w') /\ 0 < n /\ eager w' /\
    (length (decisions w) = 1 + length (decisions w'))%nat.
Proof.
  intros Eg N Hl Ho. cbn [retry]. unfold splice_in. unfold eager in Eg.
  destruct (decisions w) as [|d ds]; [done|]. apply Forall_cons in Eg as [Hd Eg].
  rewrite (proj2 (Z.ltb_ge _ _)) by lia. rewrite (proj2 (Z.eqb_neq _ _)) by (unfold EAGAIN; lia).
  eexists _, _. split; [done|]. split; [|done]. rewrite length_take, length_drop. lia.
Qed.

Lemma retry_out_eager fuel len w :
  eager w -> decisions w <> [] -> (0 < len)%nat -> (0 < length (piped w))%nat ->
  exists n w', retry (S fuel) (splice_out len) w = Some (n, w') /\ 0 < n /\ eager w' /\
    (length (decisions w) = 1 + length (decisions w'))%nat.
Proof.
  intros Eg N Hl Ho. cbn [retry]. unfold splice_out. unfold eager in Eg.
  destruct (decisions w) as [|d ds]; [done|]. apply Forall_cons in Eg as [Hd Eg].
  rewrite (proj2 (Z.ltb_ge _ _)) by lia. rewrite (proj2 (Z.eqb_neq _ _)) by (unfold EAGAIN; lia).
  eexists _, _. split; [done|]. split; [lia|done].
Qed.

Lemma empty_pipe_eager fuel inPipe w :
  eager w -> length (piped w) = inPipe -> (inPipe <= length (decisions w))%nat -> (inPipe <= fuel)%nat ->
  exists w', empty_pipe fuel inPipe w = Some (None, w') /\ eager w' /\
    (length (decisions w) <= length (decisions w') + inPipe)%nat.
Proof.
  revert inPipe w. induction fuel as [|fuel IH]; intros inPipe w Eg L D F.
  - destruct inPipe; [|lia]. exists w. split; [done|]. split; [done|lia].
  - cbn [empty_pipe]. destruct inPipe as [|p]; [exists w; split; [done|]; split; [done|lia]|].
    destruct (retry_out_eager fuel (S p) w Eg) as (n & w1 & E & Hn & Eg1 & D1);
      [by intros H; rewrite H in D; cbn in D; lia|lia|lia|].
    rewrite E. rewrite (proj2 (Z.leb_gt _ _)) by lia.
    apply retry_out in E as (_ & _ & Ep & B1 & B2).
    destruct (IH (S p - Z.to_nat n)%nat w1 Eg1) as (w2 & E2 & Eg2 & D2); [rewrite Ep, length_drop; lia|lia|lia|].
    exists w2. split; [done|]. split; [done|lia].
Qed.

Lemma splice_loop_eager PBS fuel offset remaining w :
  eager w -> piped w = [] -> (0 < PBS)%nat -> (offset + remaining <= length (file w))%nat ->
  (2 * remaining <= length (decisions w))%nat -> (remaining <= fuel)%nat ->
  exists w', splice_loop PBS fuel offset remaining w = Some (None, w').
Proof.
  revert offset remaining w. induction fuel as [|fuel IH]; intros offset remaining w Eg Ep Hb Ho D F.
  - destruct remaining; [|lia]. by exists w.
  - cbn [splice_loop]. destruct remaining as [|p]; [by exists w|].
    destruct (retry_in_eager fuel offset (Nat.min (S p) PBS) w Eg) as (n & w1 & E & Hn & Eg1 & D1);
      [by intros H; rewrite H in D; cbn in D; lia|lia|lia|].
    rewrite E. rewrite (proj2 (Z.leb_gt _ _)) by lia.
    apply retry_in in E as (F1 & _ & P1 & L1 & B1); [|done].
    destruct (empty_pipe_eager (S fuel) (Z.to_nat n) w1 Eg1 L1) as (w2 & E2 & Eg2 & D2); [lia|lia|].
    rewrite E2. apply empty_pipe_spec in E2 as [F2 [Ep2 _]]; [|done].
    apply IH; try done; [rewrite F2, F1; lia|lia|lia].
Qed.

(** ** Properties *)

(** The pool never has more than [maxPipes_] (48) pipes in existence, counts them
    exactly, and never hands one pipe to two holders, whatever sequence of
    acquisitions, time-outs, releases and discards the connections make. *)
Theorem pipe_accounting (ops : list pool_op) (ex : Executor) :
  let s0 := {| pool := PipePool_new; exec := ex; held := [] |} in
  ops_ok ops s0 ->
  let s := pool_steps ops s0 in
  created_ (pool s) = Z.of_nat (length (freePipes_ (pool s)) + length (held s)) /\
  created_ (pool s) <= 48 /\ NoDup (freePipes_ (pool s) ++ held s).
Proof.
  intros s0 K s.
  assert (M : maxPipes_ (pool s) = 48 /\ pool_inv s); [|destruct M as [<- []]; done].
  assert (I0 : maxPipes_ (pool s0) = 48 /\ pool_inv s0) by (repeat split; cbn; try lia; constructor).
  unfold s. clearbody s0. clear s. revert s0 K I0. induction ops as [|o ops IH]; intros s K [M I]; [done|].
  destruct K as [K1 K2]. apply IH; [done|]. split; [|by apply pool_step_inv].
  rewrite <- M. destruct o as [r h dl|[] r h dl|p|p]; cbn [pool_step]; try done.
  1, 2: unfold acquire_resumed, acquire, tryAcquire; destruct (last _); [done|]; destruct (_ <=? _); [done|];
    by destruct r as [[]|].
  - unfold release. pose proof (wakeOneWaiter_pool (with_free (fun l => l ++ [p]) (pool s)) (exec s)) as (_ & _ & E).
    by destruct (wakeOneWaiter _ _).
  - unfold discard. pose proof (wakeOneWaiter_pool (with_created (fun n => n - 1) (pool s)) (exec s)) as (_ & _ & E).
    by destruct (wakeOneWaiter _ _).
Qed.

(** Releasing a pipe wakes the coroutine that has waited longest, if that one is
    still suspended.  If its deadline has passed, its key is still the first in the
    queue and nobody is woken: the executor is unchanged, while the pipe is free and
    the coroutines behind it stay suspended until their own deadlines. *)
Theorem release_wakes (p : Pipe) (pl : PipePool) (ex : Executor) k rest :
  waiters_ pl = k :: rest ->
  freePipes_ (release p pl ex).1 = freePipes_ pl ++ [p] /\ waiters_ (release p pl ex).1 = rest /\
  match suspendedTasks_ ex !! to_int k with
  | Some s =>
      readyQueue_ (release p pl ex).2 = readyQueue_ ex ++ [{| ready := task s; timedOut := false |}] /\
      suspendedTasks_ (release p pl ex).2 = delete (to_int k) (suspendedTasks_ ex)
  | None => (release p pl ex).2 = ex
  end.
Proof.
  intros E. unfold release, wakeOneWaiter. cbn [waiters_ with_free]. rewrite E. cbn.
  split; [done|]. split; [done|]. unfold fireEvent. by destruct (suspendedTasks_ ex !! to_int k).
Qed.

(** Splicing [count] bytes of a file to a socket, however the kernel splits the
    moves and in whatever order it reports that a call would block: what reaches the
    socket is always an initial part of the requested bytes, in order; success means
    all of them, and then the pipe that goes back to the pool is empty; after an error
    or the end of the file the pipe, which may hold bytes, is closed instead. *)
Theorem splice_file PBS fuel offset count pipe pl ex w n pl' ex' w' :
  piped w = [] ->
  sendFileSplice PBS fuel offset count pipe pl ex w = Some (n, pl', ex', w') ->
  exists k, (k <= count)%nat /\ sent w' = sent w ++ take k (drop offset (file w)) /\
    (n = Z.of_nat count /\ k = count /\ (offset + count <= length (file w) \/ count = 0)%nat /\
       piped w' = [] /\ (pl', ex') = release pipe pl ex
     \/ n <= 0 /\ (pl', ex') = discard pipe pl ex).
Proof.
  intros Ep. unfold sendFileSplice.
  destruct (splice_loop PBS fuel offset count w) as [[[m|] w1]|] eqn:E; [| |done];
    apply splice_loop_spec in E as [F E]; try done.
  - destruct E as (Hm & k & Hk & Hs). destruct (discard pipe pl ex) as [pl1 ex1]. intros [= <- <- <- <-].
    exists k. auto.
  - destruct E as (E1 & E2 & E3). destruct (release pipe pl ex) as [pl1 ex1]. intros [= <- <- <- <-].
    exists count. split; [lia|]. split; [done|]. left. auto.
Qed.

(** When the kernel moves at least one byte with every call, a file of sufficient
    length is sent completely: the loops end, after at most two calls per byte. *)
Theorem splice_completes PBS offset count pipe pl ex w :
  eager w -> piped w = [] -> (0 < PBS)%nat -> (offset + count <= length (file w))%nat ->
  (2 * count <= length (decisions w))%nat ->
  exists w', sendFileSplice PBS count offset count pipe pl ex w =
      Some (Z.of_nat count, (release pipe pl ex).1, (release pipe pl ex).2, w') /\
    sent w' = sent w ++ take count (drop offset (file w)).
Proof.
  intros Eg Ep Hb Ho Hd. destruct (splice_loop_eager PBS count offset count w Eg Ep Hb Ho Hd (Nat.le_refl _)) as [w' E].
  exists w'. unfold sendFileSplice. rewrite E. apply splice_loop_spec in E as [_ (_ & E & _)]; [|done].
  by destruct (release pipe pl ex).
Qed.

(** ** Witnesses *)

Module PipePoolWitnesses.

(** Two coroutines use the pool; the first pipe comes back and is handed out again. *)
Definition ops : list pool_op :=
  [Acquire (Some (10, 11)) 1 50; Acquire (Some (12, 13)) 2 50; Release {| pin := 11; pout := 10 |};
   Acquire None 3 50; Discard {| pin := 13; pout := 12 |}].

Lemma pipe_accounting_witness :
  let s0 := {| pool := PipePool_new; exec := Executor_new 3; held := [] |} in
  ops_ok ops s0 /\ held (pool_steps ops s0) = [{| pin := 11; pout := 10 |}] /\
  NoDup (freePipes_ (pool (pool_steps ops s0)) ++ held (pool_steps ops s0)).
Proof.
  assert (K : ops_ok ops {| pool := PipePool_new; exec := Executor_new 3; held := [] |}).
  { cbn. split_and!; try done; set_solver. }
  split; [exact K|]. split; [vm_compute; reflexivity|].
  exact (proj2 (proj2 (pipe_accounting ops (Executor_new 3) K))).
Defined.

(** One pipe, held by somebody; coroutine 1 waits until 50, coroutine 2 until 500. *)
Definition pl0 : PipePool := {| freePipes_ := []; waiters_ := []; created_ := 1; maxPipes_ := 1 |}.
Definition waiting_pair : PipePool * Executor :=
  let '(pl, ex) := PipeWait_suspend 1 50 pl0 (Executor_new 3) in PipeWait_suspend 2 500 pl ex.
Import ExecutorWitnesses.
#[local] Existing Instance first_least_heap.

(** At time 60 the first has timed out; the release then wakes nobody. *)
Lemma release_wakes_witness :
  let pl := waiting_pair.1 in let ex := expire 60 waiting_pair.2 in
  waiters_ pl = [-1; -2] /\ is_Some (suspendedTasks_ ex !! (-2)) /\
  freePipes_ (release {| pin := 11; pout := 10 |} pl ex).1 = [{| pin := 11; pout := 10 |}] /\
  (release {| pin := 11; pout := 10 |} pl ex).2 = ex.
Proof.
  pose proof (release_wakes {| pin := 11; pout := 10 |} waiting_pair.1 (expire 60 waiting_pair.2) (-1) [-2]
    ltac:(vm_compute; reflexivity)) as (F & _ & E).
  split; [vm_compute; reflexivity|]. split; [vm_compute; eauto|]. split; [exact F|exact E].
Defined.

Definition w0 : SpliceWorld :=
  {| file := "0123456789" : bytes; piped := []; sent := []; decisions := [3; -11; 2; 1; 9; 4; -11; 1; 1; 1] |}.

Lemma splice_file_witness :
  piped w0 = [] /\
  match sendFileSplice 64 20 2 6 {| pin := 11; pout := 10 |} pl0 (Executor_new 3) w0 with
  | Some (n, _, _, w) => n = 6 /\ sent w = ("234567" : bytes) /\ exists k, (k <= 6)%nat /\ sent w = take k (drop 2 (file w0))
  | None => False
  end.
Proof.
  split; [reflexivity|].
  destruct (sendFileSplice 64 20 2 6 {| pin := 11; pout := 10 |} pl0 (Executor_new 3) w0) as [[[[n pl'] ex'] w']|] eqn:E.
  - destruct (splice_file 64 20 2 6 {| pin := 11; pout := 10 |} pl0 (Executor_new 3) w0 n pl' ex' w' eq_refl E)
      as (k & Hk & Hs & _).
    vm_compute in E. injection E as <- _ _ <-. split; [reflexivity|]. split; [reflexivity|]. exists k. split; [exact Hk|exact Hs].
  - vm_compute in E. discriminate E.
Defined.

Definition w1 : SpliceWorld :=
  {| file := "0123456789" : bytes; piped := []; sent := []; decisions := [3; 2; 1; 9; 4; 1; 1; 1] |}.

Lemma splice_completes_witness :
  eager w1 /\ exists w', sent w' = ("2345" : bytes).
Proof.
  assert (Eg : eager w1) by (unfold eager, w1; cbn; repeat (constructor; [lia|]); constructor).
  split; [exact Eg|].
  destruct (splice_completes 64 2 4 {| pin := 11; pout := 10 |} pl0 (Executor_new 3) w1 Eg eq_refl
    ltac:(lia) ltac:(vm_compute; lia) ltac:(vm_compute; lia)) as (w' & _ & Hs).
  exists w'. exact Hs.
Defined.

End PipePoolWitnesses.
