(* ===== verification/ThreadPool.v ===== *)
(** The thread pool ([pool/ThreadPool.hpp]) and the hand-over of a job's result to the
    coroutine that awaits it ([pool/PoolJob.hpp], [pool/PoolJobAwaitable.hpp],
    [pool/PoolJobState.hpp]).  Threads interleave: every access to shared state is one
    step (a critical section of the mutex is one step), and an execution is any
    sequence of steps. *)
From S2P Require Import Prelude Executor.

(** ** A job and its awaiter *)

(** The worker in [runJob]. *)
Inductive worker_pc := W_call | W_done | W_exchange | W_post | W_end.
#[export] Instance worker_pc_eq_dec : EqDecision worker_pc.
Proof. solve_decision. Defined.

Section Job.
Context {R E : Type}.

(** What the callable does: a value or an exception. *)
Inductive callable := Returns (r : R) | Throws (e : E).

(** [PoolJobState]; [executor] says whether the pointer is set, and [posted] is what
    was posted to it and not yet resumed. *)
Record PoolJobState := {
  result : option R;
  exception : option E;
  caller : option handle;
  executor : bool;
  done : bool;
  callerSetOrJobComplete : bool;
  posted_to : list handle;
}.

Definition PoolJobState_new (executor : bool) : PoolJobState :=
  {| result := None; exception := None; caller := None; executor := executor; done := false;
     callerSetOrJobComplete := false; posted_to := [] |}.

(** The coroutine in its [co_await]; [A_value] and [A_throw] are the outcomes of
    [await_resume], [A_bad] the access to a result that is not there. *)
Inductive awaiter_pc :=
| A_ready | A_set_caller | A_exchange | A_post | A_suspended | A_resume
| A_value (r : R) | A_throw (e : E) | A_bad.

Record job_config := { state : PoolJobState; worker : worker_pc; awaiter : awaiter_pc; resumptions : nat }.

Definition store_outcome (f : callable) (s : PoolJobState) : PoolJobState :=
  match f with
  | Returns r => {| result := Some r; exception := exception s; caller := caller s; executor := executor s;
      done := done s; callerSetOrJobComplete := callerSetOrJobComplete s; posted_to := posted_to s |}
  | Throws e => {| result := result s; exception := Some e; caller := caller s; executor := executor s;
      done := done s; callerSetOrJobComplete := callerSetOrJobComplete s; posted_to := posted_to s |}
  end.
Definition set_done (s : PoolJobState) : PoolJobState :=
  {| result := result s; exception := exception s; caller := caller s; executor := executor s;
     done := true; callerSetOrJobComplete := callerSetOrJobComplete s; posted_to := posted_to s |}.
Definition exchange_true (s : PoolJobState) : PoolJobState :=
  {| result := result s; exception := exception s; caller := caller s; executor := executor s;
     done := done s; callerSetOrJobComplete := true; posted_to := posted_to s |}.
Definition set_caller (h : handle) (s : PoolJobState) : PoolJobState :=
  {| result := result s; exception := exception s; caller := Some h; executor := executor s;
     done := done s; callerSetOrJobComplete := callerSetOrJobComplete s; posted_to := posted_to s |}.
Definition set_posted (l : list handle) (s : PoolJobState) : PoolJobState :=
  {| result := result s; exception := exception s; caller := caller s; executor := executor s;
     done := done s; callerSetOrJobComplete := callerSetOrJobComplete s; posted_to := l |}.

(** One step of [PoolJob::runJob].  Posting the caller that was never set would post
    the null handle. *)
Definition runJob_step (f : callable) (pc : worker_pc) (s : PoolJobState) : option (worker_pc * PoolJobState) :=
  match pc with
  | W_call => Some (W_done, store_outcome f s)
  | W_done => Some (W_exchange, set_done s)
  | W_exchange =>
      if executor s
      then Some (if callerSetOrJobComplete s then W_post else W_end, exchange_true s)
      else Some (W_end, s)
  | W_post => Some (W_end, set_posted (posted_to s ++ [default null_handle (caller s)]) s)
  | W_end => None
  end.

Definition await_resume (s : PoolJobState) : awaiter_pc :=
  match exception s with
  | Some e => A_throw e
  | None => match result s with Some r => A_value r | None => A_bad end
  end.

(** One step of the coroutine [h] in [co_await]: [await_ready], [await_suspend] and
    [await_resume]. *)
Definition co_await_step (h : handle) (pc : awaiter_pc) (s : PoolJobState) : option (awaiter_pc * PoolJobState) :=
  match pc with
  | A_ready => Some (if done s then A_resume else A_set_caller, s)
  | A_set_caller => Some (A_exchange, set_caller h s)
  | A_exchange => Some (if callerSetOrJobComplete s then A_post else A_suspended, exchange_true s)
  | A_post => Some (A_suspended, set_posted (posted_to s ++ [h]) s)
  | A_resume => Some (await_resume s, s)
  | A_suspended | A_value _ | A_throw _ | A_bad => None
  end.

(** The steps of the worker, of the coroutine, and of the executor's loop, which takes
    a posted handle and resumes it (the coroutine runs on the thread of its executor,
    so only when it is suspended). *)
Inductive job_step (f : callable) (h : handle) : job_config -> job_config -> Prop :=
| step_worker s w a n w' s' :
    runJob_step f w s = Some (w', s') ->
    job_step f h {| state := s; worker := w; awaiter := a; resumptions := n |}
                 {| state := s'; worker := w'; awaiter := a; resumptions := n |}
| step_awaiter s w a n a' s' :
    co_await_step h a s = Some (a', s') ->
    job_step f h {| state := s; worker := w; awaiter := a; resumptions := n |}
                 {| state := s'; worker := w; awaiter := a'; resumptions := n |}
| step_resume s w n x l :
    posted_to s = x :: l ->
    job_step f h {| state := s; worker := w; awaiter := A_suspended; resumptions := n |}
                 {| state := set_posted l s; worker := w; awaiter := if decide (x = h) then A_resume else A_bad;
                    resumptions := S n |}.

Definition job_start : job_config :=
  {| state := PoolJobState_new true; worker := W_call; awaiter := A_ready; resumptions := 0 |}.

Definition job_reachable (f : callable) (h : handle) : job_config -> Prop := rtc (job_step f h) job_start.

(** What the awaiter must end with. *)
Definition outcome_of (f : callable) : awaiter_pc :=
  match f with Returns r => A_value r | Throws e => A_throw e end.

Definition stored (f : callable) (s : PoolJobState) : Prop :=
  match f with
  | Returns r => result s = Some r /\ exception s = None
  | Throws e => result s = None /\ exception s = Some e
  end.

Definition job_done (w : worker_pc) : bool := match w with W_call | W_done => false | _ => true end.
Definition ended (w : worker_pc) : bool := match w with W_end => true | _ => false end.
Definition posting (w : worker_pc) : bool := match w with W_post => true | _ => false end.

(** Which thread posts is decided by the exchange that came second. *)
Record job_inv (f : callable) (h : handle) (c : job_config) : Prop := {
  ji_executor : executor (state c) = true;
  ji_stored : match worker c with
              | W_call => result (state c) = None /\ exception (state c) = None
              | _ => stored f (state c) end;
  ji_done : done (state c) = job_done (worker c);
  ji_caller : match awaiter c with
              | A_exchange | A_post | A_suspended => caller (state c) = Some h | _ => True end;
  ji_steps :
    match awaiter c with
    | A_ready | A_set_caller | A_exchange =>
        resumptions c = O /\ posted_to (state c) = [] /\ posting (worker c) = false /\
        callerSetOrJobComplete (state c) = ended (worker c)
    | A_post => resumptions c = O /\ posted_to (state c) = [] /\ worker c = W_end /\
        callerSetOrJobComplete (state c) = true
    | A_suspended =>
        resumptions c = O /\ callerSetOrJobComplete (state c) = true /\
        match worker c with W_end => posted_to (state c) = [h] | _ => posted_to (state c) = [] end
    | A_resume | A_value _ | A_throw _ =>
        posted_to (state c) = [] /\ done (state c) = true /\
        (resumptions c = O /\ posting (worker c) = false /\ callerSetOrJobComplete (state c) = ended (worker c)
         \/ resumptions c = 1%nat /\ worker c = W_end)
    | A_bad => False
    end;
  ji_outcome : match awaiter c with A_value _ | A_throw _ => awaiter c = outcome_of f | _ => True end;
}.
End Job.
Arguments callable : clear implicits.
Arguments PoolJobState : clear implicits.
Arguments awaiter_pc : clear implicits.
Arguments job_config : clear implicits.

Lemma job_start_inv {R E} (f : callable R E) h : job_inv f h job_start.
Proof. split; cbn; auto. Qed.

(** The invariant is a record of equations between tags: case analysis decides it. *)
Ltac job_solve := split; cbn in *; try done; try (intuition congruence).

Lemma job_step_inv {R E} (f : callable R E) h c c' : job_inv f h c -> job_step f h c c' -> job_inv f h c'.
Proof.
  intros I Hs. destruct Hs as [s w a n w' s' H|s w a n a' s' H|s w n x l H]; destruct I as [Ie Is Id Ic Ip Io];
    cbn [state worker awaiter resumptions] in *.
  - destruct w; cbn in H; [destruct f| |rewrite Ie in H; destruct (callerSetOrJobComplete s) eqn:F| |done];
      injection H as <- <-.
    1-5: destruct a; job_solve.
    destruct a; cbn in *; try (exfalso; intuition congruence). destruct Ip as (-> & ? & ->). rewrite Ic. job_solve.
  - destruct a; cbn in H; try done; injection H as <- <-.
    + destruct (done s) eqn:D; job_solve.
    + job_solve.
    + destruct (callerSetOrJobComplete s) eqn:F, w; job_solve.
    + destruct Ip as (-> & -> & -> & ?). job_solve.
    + unfold await_resume. destruct Ip as (P & D & Q). rewrite D in Id.
      assert (St : stored f s) by (destruct w; done).
      destruct f as [r|e]; destruct St as [E1 E2]; rewrite E2, ?E1; job_solve.
  - destruct Ip as (-> & F & Ip). destruct w; rewrite Ip in H; try discriminate. injection H as <- <-.
    rewrite decide_True by done. job_solve.
Qed.

Lemma job_reachable_inv {R E} (f : callable R E) h c : job_reachable f h c -> job_inv f h c.
Proof.
  intros Rc. assert (G : forall a b, rtc (job_step f h) a b -> job_inv f h a -> job_inv f h b).
  { induction 1 as [|a b d S _ IH]; [done|]. intros I. apply IH. by apply (job_step_inv f h a). }
  apply (G job_start c Rc), job_start_inv.
Qed.

(** The steps that are left. *)
Definition worker_left (w : worker_pc) : nat :=
  match w with W_call => 4 | W_done => 3 | W_exchange => 2 | W_post => 1 | W_end => 0 end.
Definition awaiter_left {R E} (a : awaiter_pc R E) : nat :=
  match a with
  | A_ready => 6 | A_set_caller => 5 | A_exchange => 4 | A_post => 3 | A_suspended => 2 | A_resume => 1
  | A_value _ | A_throw _ | A_bad => 0
  end.
Definition steps_left {R E} (c : job_config R E) : nat := worker_left (worker c) + awaiter_left (awaiter c).

Lemma job_step_decreases {R E} (f : callable R E) h c c' : job_step f h c c' -> steps_left c' < steps_left c.
Proof.
  intros [s w a n w' s' H|s w a n a' s' H|s w n x l H]; unfold steps_left; cbn [worker awaiter].
  - destruct w; cbn in H; [destruct f| |destruct (executor s), (callerSetOrJobComplete s)| |done];
      injection H as <- <-; cbn; lia.
  - destruct a; cbn in H; try done; injection H as <- <-; [destruct (done s)| |destruct (callerSetOrJobComplete s)| |];
      cbn; try lia. unfold await_resume. destruct (exception s); [cbn; lia|]. destruct (result s); cbn; lia.
  - case_decide; cbn; lia.
Qed.

(** Every schedule, run until no thread can take a step. *)
Definition job_stuck {R E} (f : callable R E) (h : handle) (c : job_config R E) : Prop := forall c', ~ job_step f h c c'.

(** C5: However the worker thread and the awaiting coroutine interleave: the
    coroutine is resumed at most once, [await_resume] never finds the result missing,
    every schedule ends after at most ten steps, and when nothing can move any more
    the coroutine has continued with exactly the value or the exception of the
    callable, with no handle left in the executor's queue. *)
Theorem awaited_once {R E} (f : callable R E) (h : handle) (c : job_config R E) :
  job_reachable f h c ->
  resumptions c <= 1 /\ awaiter c <> A_bad /\
  (forall c', job_step f h c c' -> steps_left c' < steps_left c) /\ steps_left c <= 10 /\
  (job_stuck f h c -> awaiter c = outcome_of f /\ worker c = W_end /\ posted_to (state c) = []).
Proof.
  intros Rc. pose proof (job_reachable_inv f h c Rc) as I. split; [|split; [|split; [|split]]].
  - pose proof (ji_steps _ _ _ I). destruct (awaiter c); intuition lia.
  - intros Hb. pose proof (ji_steps _ _ _ I) as H. by rewrite Hb in H.
  - intros c' S. by apply (job_step_decreases f h).
  - unfold steps_left. destruct (worker c), (awaiter c); cbn; lia.
  - intros St. destruct c as [s w a n]. cbn [awaiter worker state] in *.
    assert (W : w = W_end).
    { destruct w; try done; exfalso.
      - eapply St, (step_worker f h s W_call a n W_done). reflexivity.
      - eapply St, (step_worker f h s W_done a n W_exchange). reflexivity.
      - eapply St, (step_worker f h s W_exchange a n). pose proof (ji_executor _ _ _ I) as Ie.
        cbn in *. by rewrite Ie.
      - eapply St, (step_worker f h s W_post a n W_end). reflexivity. }
    subst w. pose proof (ji_steps _ _ _ I) as Ip. pose proof (ji_outcome _ _ _ I) as Io. cbn in Ip, Io.
    destruct a; try (exfalso; eapply St, step_awaiter; reflexivity); [| | |done].
    + exfalso. eapply St, step_resume. apply Ip.
    + tauto.
    + tauto.
Qed.

(** A job that throws, and the schedule in which the coroutine suspends first. *)
Lemma awaited_once_witness :
  exists c, job_reachable (Throws 7 : callable nat nat) 5%Z c /\ awaiter c = A_suspended /\ resumptions c <= 1.
Proof.
  assert (Rc : job_reachable (Throws 7 : callable nat nat) 5%Z
    {| state := exchange_true (set_caller 5%Z (PoolJobState_new true)); worker := W_call; awaiter := A_suspended; resumptions := 0 |}).
  { eapply rtc_l; [apply step_awaiter; reflexivity|]. eapply rtc_l; [apply step_awaiter; reflexivity|].
    eapply rtc_l; [apply step_awaiter; reflexivity|]. apply rtc_refl. }
  eexists. split; [exact Rc|]. split; [reflexivity|]. exact (proj1 (awaited_once _ _ _ Rc)).
Defined.

(** ** The queue and the workers *)

Section Pool.
Context {J : Type}.

(** A worker evaluates the predicate of [cv_.wait] (under the mutex), is asleep in it,
    runs a job, or has returned from [workerLoop]. *)
Inductive worker_state := Checking | Asleep | Running (j : J) | Exited.

(** [notifies] counts the calls of [notify_one] that are due, [notify_all_due] that of
    the destructor.  [accepted], [started] and [completed] record the history. *)
Record ThreadPool := {
  jobQueue_ : list J;
  maxQueueSize_ : nat;
  shutdown_ : bool;
  workers : list worker_state;
  notifies : nat;
  notify_all_due : bool;
  accepted : list J;
  started : list J;
  completed : list J;
}.

Definition ThreadPool_new (poolSize : nat) : ThreadPool := {|
  jobQueue_ := []; maxQueueSize_ := 1024 (* the default *); shutdown_ := false; workers := replicate poolSize Checking;
  notifies := 0; notify_all_due := false; accepted := []; started := []; completed := [] |}.

(** Set before the pool is used. *)
Definition setMaxQueueSize (maxQueueSize : nat) (p : ThreadPool) : ThreadPool :=
  {| jobQueue_ := jobQueue_ p; maxQueueSize_ := maxQueueSize; shutdown_ := shutdown_ p;
     workers := workers p; notifies := notifies p; notify_all_due := notify_all_due p;
     accepted := accepted p; started := started p; completed := completed p |}.

(** The critical section of [enqueue]; [None]: the queue is full and it throws. *)
Definition enqueue (job : J) (p : ThreadPool) : option ThreadPool :=
  if decide (maxQueueSize_ p <= length (jobQueue_ p)) then None
  else Some {| jobQueue_ := jobQueue_ p ++ [job]; maxQueueSize_ := maxQueueSize_ p; shutdown_ := shutdown_ p;
    workers := workers p; notifies := S (notifies p); notify_all_due := notify_all_due p;
    accepted := accepted p ++ [job]; started := started p; completed := completed p |}.

(** [submit] and [fireAndForget]; what they share with the job is [PoolJobState_new]. *)
Definition submit (job : J) (p : ThreadPool) : outcome ThreadPool :=
  match enqueue job p with
  | None => Throw (ServerException "Thread pool queue is full" 500 true)
  | Some p => Ret p
  end.
Definition fireAndForget (job : J) (p : ThreadPool) : ThreadPool := default p (enqueue job p).

Definition getThreadCount (p : ThreadPool) : nat := length (workers p).

(** The critical section of [workerLoop] for worker [i]: the predicate of the wait,
    the test for the end, and the removal of a job. *)
Definition worker_check (i : nat) (p : ThreadPool) : ThreadPool :=
  match jobQueue_ p with
  | [] => {| jobQueue_ := []; maxQueueSize_ := maxQueueSize_ p; shutdown_ := shutdown_ p;
      workers := <[i := if shutdown_ p then Exited else Asleep]> (workers p);
      notifies := notifies p; notify_all_due := notify_all_due p;
      accepted := accepted p; started := started p; completed := completed p |}
  | j :: q => {| jobQueue_ := q; maxQueueSize_ := maxQueueSize_ p; shutdown_ := shutdown_ p;
      workers := <[i := Running j]> (workers p);
      notifies := notifies p; notify_all_due := notify_all_due p;
      accepted := accepted p; started := started p ++ [j]; completed := completed p |}
  end.

Definition set_worker (i : nat) (s : worker_state) (p : ThreadPool) : ThreadPool :=
  {| jobQueue_ := jobQueue_ p; maxQueueSize_ := maxQueueSize_ p; shutdown_ := shutdown_ p;
     workers := <[i := s]> (workers p); notifies := notifies p; notify_all_due := notify_all_due p;
     accepted := accepted p; started := started p; completed := completed p |}.

Definition job_completed (j : J) (p : ThreadPool) : ThreadPool :=
  {| jobQueue_ := jobQueue_ p; maxQueueSize_ := maxQueueSize_ p; shutdown_ := shutdown_ p;
     workers := workers p; notifies := notifies p; notify_all_due := notify_all_due p;
     accepted := accepted p; started := started p; completed := completed p ++ [j] |}.

Definition notified (p : ThreadPool) : ThreadPool :=
  {| jobQueue_ := jobQueue_ p; maxQueueSize_ := maxQueueSize_ p; shutdown_ := shutdown_ p;
     workers := workers p; notifies := notifies p - 1; notify_all_due := notify_all_due p;
     accepted := accepted p; started := started p; completed := completed p |}.

Definition wake (s : worker_state) : worker_state := match s with Asleep => Checking | s => s end.

(** [notify_all] of the destructor. *)
Definition notified_all (p : ThreadPool) : ThreadPool :=
  {| jobQueue_ := jobQueue_ p; maxQueueSize_ := maxQueueSize_ p; shutdown_ := shutdown_ p;
     workers := map wake (workers p); notifies := notifies p; notify_all_due := false;
     accepted := accepted p; started := started p; completed := completed p |}.

(** The critical section of the destructor. *)
Definition shut_down (p : ThreadPool) : ThreadPool :=
  {| jobQueue_ := jobQueue_ p; maxQueueSize_ := maxQueueSize_ p; shutdown_ := true;
     workers := workers p; notifies := notifies p; notify_all_due := true;
     accepted := accepted p; started := started p; completed := completed p |}.

(** Steps the pool takes by itself. *)
Inductive pool_progress : ThreadPool -> ThreadPool -> Prop :=
| progress_check i p : workers p !! i = Some Checking -> pool_progress p (worker_check i p)
| progress_run i j p : workers p !! i = Some (Running j) -> pool_progress p (job_completed j (set_worker i Checking p))
| progress_notify i p : 0 < notifies p -> workers p !! i = Some Asleep ->
    pool_progress p (notified (set_worker i Checking p))
| progress_notify_none p : 0 < notifies p -> Forall (fun s => s <> Asleep) (workers p) -> pool_progress p (notified p)
| progress_notify_all p : notify_all_due p = true -> pool_progress p (notified_all p).

(** Steps caused from outside: [submit] and [fireAndForget] (nobody calls them any
    more once the destructor runs), a spurious wake-up, and the destructor. *)
Inductive pool_event : ThreadPool -> ThreadPool -> Prop :=
| event_enqueue j p p' : shutdown_ p = false -> enqueue j p = Some p' -> pool_event p p'
| event_spurious i p : workers p !! i = Some Asleep -> pool_event p (set_worker i Checking p)
| event_shutdown p : shutdown_ p = false -> pool_event p (shut_down p).

Definition tp_step p p' := pool_progress p p' \/ pool_event p p'.
Definition tp_reachable (n maxQueueSize : nat) : ThreadPool -> Prop :=
  rtc tp_step (setMaxQueueSize maxQueueSize (ThreadPool_new n)).
End Pool.
Arguments worker_state : clear implicits.
Arguments ThreadPool : clear implicits.

(** ** The invariant of the pool *)

Definition job_of {J} (s : worker_state J) : list J := match s with Running j => [j] | _ => [] end.
Definition running {J} (ws : list (worker_state J)) : list J := flat_map job_of ws.
Definition awake {J} (s : worker_state J) : Prop := match s with Checking | Running _ => True | _ => False end.

Lemma running_insert {J} (ws : list (worker_state J)) i s s' :
  ws !! i = Some s -> running (<[i := s']> ws) ++ job_of s ≡ₚ running ws ++ job_of s'.
Proof.
  intros H. pose proof (lookup_lt_Some _ _ _ H). rewrite <- (take_drop_middle ws i s H) at 2.
  rewrite insert_take_drop by done. unfold running. rewrite !flat_map_app. cbn [flat_map]. solve_Permutation.
Qed.

Record tp_inv {J} (n m : nat) (p : ThreadPool J) : Prop := {
  tp_accepted : accepted p = started p ++ jobQueue_ p;
  tp_bound : length (jobQueue_ p) <= maxQueueSize_ p;
  tp_max : maxQueueSize_ p = m;
  tp_started : started p ≡ₚ completed p ++ running (workers p);
  tp_workers : length (workers p) = n;
  tp_wakes : jobQueue_ p <> [] -> Exists awake (workers p) \/ 0 < notifies p \/ notify_all_due p = true;
  tp_asleep : shutdown_ p = true -> notify_all_due p = true \/ Forall (fun s => s <> Asleep) (workers p);
  tp_exited i : workers p !! i = Some Exited -> shutdown_ p = true /\ jobQueue_ p = [];
}.

Lemma ThreadPool_new_inv {J} n m : tp_inv n m (setMaxQueueSize m (@ThreadPool_new J n)).
Proof.
  split; cbn; try done; try lia.
  - unfold running. induction n; [done|]. done.
  - apply length_replicate.
  - intros i H. apply lookup_replicate in H as [[=] _].
Qed.

Lemma Forall_insert' {A} (P : A -> Prop) l i x : Forall P l -> P x -> Forall P (<[i := x]> l).
Proof. intros. by apply Forall_insert. Qed.

(** A worker of the list is replaced by [s]. *)
Lemma exists_awake {J} (ws : list (worker_state J)) i s x :
  ws !! i = Some x -> awake s -> Exists awake (<[i := s]> ws).
Proof.
  intros H A. apply Exists_exists. exists s. split; [|done].
  eapply list_elem_of_lookup_2. apply list_lookup_insert_eq. by eapply lookup_lt_Some.
Qed.

Lemma not_exited {J} (ws : list (worker_state J)) i s k (P : Prop) :
  s <> Exited -> (ws !! k = Some Exited -> P) -> <[i := s]> ws !! k = Some Exited -> P.
Proof. intros N H [(_ & -> & _)|[_ H']]%list_lookup_insert_Some; [done|auto]. Qed.

Lemma progress_inv {J} n m (p p' : ThreadPool J) : 0 < n -> tp_inv n m p -> pool_progress p p' -> tp_inv n m p'.
Proof.
  intros Hn0 [Ac Bd Mx St Wk Wa As Ex] S. destruct S as [i p H|i j p H|i p Hn H|p Hn H|p H].
  - unfold worker_check. pose proof (running_insert (workers p) i Checking) as R.
    destruct (jobQueue_ p) as [|j q] eqn:Eq.
    + specialize (R (if shutdown_ p then Exited else Asleep) H).
      split; cbn; try done; rewrite ?length_insert; try done.
      * rewrite St. apply Permutation_app_head. by destruct (shutdown_ p); cbn in R; rewrite !app_nil_r in R.
      * intros Hs. destruct (As Hs) as [?|?]; [by left|right]. apply Forall_insert'; [done|]. by rewrite Hs.
      * intros k [(_ & E & _)|[_ E]]%list_lookup_insert_Some; [|by apply (Ex k)]. by destruct (shutdown_ p).
    + specialize (R (Running j) H). cbn in R. rewrite app_nil_r in R.
      split; cbn; try done; rewrite ?length_insert; try done.
      * by rewrite Ac, <- app_assoc.
      * cbn in Bd. lia.
      * rewrite St, <- app_assoc. by rewrite R.
      * intros _. left. by eapply exists_awake.
      * intros Hs. destruct (As Hs) as [?|?]; [by left|right]. by apply Forall_insert'.
      * intros k. apply not_exited; [done|]. intros E. by destruct (Ex _ E).
  - pose proof (running_insert (workers p) i _ Checking H) as R. cbn in R.
    split; cbn; try done; rewrite ?length_insert; try done.
    + rewrite app_nil_r in R. rewrite St, <- R. solve_Permutation.
    + intros _. left. by eapply exists_awake.
    + intros Hs. destruct (As Hs) as [?|?]; [by left|right]. by apply Forall_insert'.
    + intros k. apply not_exited; [done|]. apply Ex.
  - pose proof (running_insert (workers p) i _ Checking H) as R. cbn in R.
    split; cbn; try done; rewrite ?length_insert; try done.
    + rewrite St. apply Permutation_app_head. rewrite !app_nil_r in R. by rewrite R.
    + intros _. left. by eapply exists_awake.
    + intros Hs. destruct (As Hs) as [?|?]; [by left|right]. by apply Forall_insert'.
    + intros k. apply not_exited; [done|]. apply Ex.
  - split; cbn; try done. intros Hq. destruct (Wa Hq) as [?|[?|?]]; [by left| |by auto].
    left. destruct (workers p) as [|s ws] eqn:Ew; [cbn in Wk; lia|]. apply Forall_cons in H as [H _].
    apply Exists_cons_hd. destruct s; try done. by destruct (Ex O eq_refl).
  - assert (E : forall ws : list (worker_state J), running (map wake ws) = running ws).
    { unfold running. induction ws as [|[] ws IH]; cbn; congruence. }
    split; cbn -[running]; try done; rewrite ?length_map; try done.
    + by rewrite E.
    + intros Hq. left. destruct (workers p) as [|s ws] eqn:Ew; [cbn in Wk; lia|].
      apply Exists_cons_hd. destruct s; try done. by destruct (Ex O eq_refl).
    + intros _. right. apply Forall_map, Forall_forall. intros [] _; done.
    + intros i Hi. apply list_lookup_fmap_Some in Hi as (s & Hs & E'). apply (Ex i). by destruct s.
Qed.

Lemma event_inv {J} n m (p p' : ThreadPool J) : tp_inv n m p -> pool_event p p' -> tp_inv n m p'.
Proof.
  intros [Ac Bd Mx St Wk Wa As Ex] S. destruct S as [j p p' H E|i p H|p H].
  - unfold enqueue in E. case_decide; [done|]. injection E as <-. split; cbn; try done.
    + by rewrite Ac, app_assoc.
    + rewrite length_app. cbn. lia.
    + intros _. right. left. lia.
    + intros i Hi. destruct (Ex i Hi). congruence.
  - pose proof (running_insert (workers p) i _ Checking H) as R. cbn in R. rewrite !app_nil_r in R.
    split; cbn; try done; rewrite ?length_insert; try done.
    + by rewrite R.
    + intros _. left. by eapply exists_awake.
    + intros Hs. destruct (As Hs) as [?|?]; [by left|right]. by apply Forall_insert'.
    + intros k. apply not_exited; [done|]. apply Ex.
  - split; cbn; try done; try (by auto). intros i Hi. destruct (Ex i Hi). congruence.
Qed.

Lemma tp_reachable_inv {J} n m (p : ThreadPool J) : 0 < n -> tp_reachable n m p -> tp_inv n m p.
Proof.
  intros Hn R. assert (G : forall a b : ThreadPool J, rtc tp_step a b -> tp_inv n m a -> tp_inv n m b).
  { induction 1 as [|a b d S _ IH]; [done|]. intros I. apply IH.
    destruct S; [by eapply progress_inv|by eapply event_inv]. }
  apply (G _ _ R), ThreadPool_new_inv.
Qed.

(** What the pool still has to do once it is shut down. *)
Definition weight {J} (s : worker_state J) : nat := match s with Checking => 1 | Running _ | Asleep => 2 | Exited => 0 end.
Definition work_left {J} (p : ThreadPool J) : nat :=
  2 * length (jobQueue_ p) + sum_list (map weight (workers p)) + notifies p + (if notify_all_due p then 1 else 0).

Lemma weight_insert {J} (ws : list (worker_state J)) i s s' :
  ws !! i = Some s -> sum_list (map weight (<[i := s']> ws)) + weight s = sum_list (map weight ws) + weight s'.
Proof.
  revert i. induction ws as [|x ws IH]; intros [|i] H; cbn in *; try done.
  - injection H as ->. lia.
  - rewrite <- !Nat.add_assoc. f_equal. exact (IH i H).
Qed.

Lemma shutdown_decreases {J} (p p' : ThreadPool J) :
  shutdown_ p = true -> tp_step p p' -> shutdown_ p' = true /\ work_left p' < work_left p.
Proof.
  intros Hs [S|S].
  - destruct S as [i p H|i j p H|i p Hn H|p Hn H|p H]; (split; [try done|]); unfold work_left; cbn.
    + unfold worker_check. by destruct (jobQueue_ p).
    + unfold worker_check. pose proof (fun s => weight_insert _ _ _ s H) as W.
      destruct (jobQueue_ p) as [|j q]; cbn.
      * rewrite Hs. specialize (W Exited). cbn in W. lia.
      * specialize (W (Running j)). cbn in W. lia.
    + pose proof (weight_insert _ _ _ Checking H) as W. cbn in W. lia.
    + pose proof (weight_insert _ _ _ Checking H) as W. cbn in W. lia.
    + lia.
    + rewrite H. assert (sum_list (map weight (map wake (workers p))) <= sum_list (map weight (workers p))); [|lia].
      clear. induction (workers p) as [|[] l IH]; cbn in *; lia.
  - destruct S as [j p p' H E|i p H|p H]; try congruence. split; [done|].
    pose proof (weight_insert _ _ _ Checking H) as W. unfold work_left. cbn in *. lia.
Qed.

(** Every job that [enqueue] accepted is started exactly once, in the order of
    submission, whatever the workers do; the queue never exceeds its bound, so a job
    beyond it is refused with an exception and not dropped; the jobs started are those
    completed and those running. *)
Theorem jobs_in_order {J} n m (p : ThreadPool J) :
  0 < n -> tp_reachable n m p ->
  accepted p = started p ++ jobQueue_ p /\ length (jobQueue_ p) <= m /\
  started p ≡ₚ completed p ++ running (workers p) /\ length (running (workers p)) <= n /\
  forall j, enqueue j p = None <-> length (jobQueue_ p) = m.
Proof.
  intros Hn R. pose proof (tp_reachable_inv n m p Hn R) as I. pose proof (tp_max _ _ _ I) as Mx.
  pose proof (tp_bound _ _ _ I) as B. rewrite Mx in B. split_and!; [apply I|done|apply I| |].
  - rewrite <- (tp_workers _ _ _ I). clear. unfold running. induction (workers p) as [|[] l IH]; cbn [flat_map job_of app length]; lia.
  - intros j. unfold enqueue. rewrite Mx. case_decide; split; try done; lia.
Qed.

(** C14: No wake-up is lost: when the pool comes to rest, no accepted job is left in the
    queue or half done; and once the destructor has set the flag, the pool does come to
    rest, each step decreasing [work_left], with every worker returned, so that the
    joins of the destructor end after every accepted job was run. *)
Theorem pool_drains {J} n m (p : ThreadPool J) :
  0 < n -> tp_reachable n m p ->
  ((forall p', ~ pool_progress p p') ->
     jobQueue_ p = [] /\ completed p ≡ₚ accepted p /\
     Forall (fun s => s = if shutdown_ p then Exited else Asleep) (workers p)) /\
  (shutdown_ p = true -> forall p', tp_step p p' -> shutdown_ p' = true /\ work_left p' < work_left p).
Proof.
  intros Hn R. pose proof (tp_reachable_inv n m p Hn R) as I.
  split; [|intros Hs p' S; by apply shutdown_decreases].
  intros St. destruct I as [Ac Bd Mx Sr Wk Wa As Ex].
  assert (NA : ~ Exists awake (workers p)).
  { intros (s & Hs & Aw)%Exists_exists. apply list_elem_of_lookup in Hs as [i Hi].
    destruct s; try done; eapply St; [by apply (progress_check i)|by eapply (progress_run i)]. }
  assert (NAll : notify_all_due p = false).
  { destruct (notify_all_due p) eqn:E; [|done]. destruct (St _ (progress_notify_all p E)). }
  assert (NN : notifies p = 0).
  { destruct (notifies p) as [|k] eqn:E; [done|]. exfalso.
    destruct (decide (Exists (fun s => weight s = 2) (workers p))) as [D|D].
    - apply Exists_exists in D as (s & Hs & Hw). apply list_elem_of_lookup in Hs as [i Hi].
      destruct s; try done; [|by eapply St, (progress_run i)]. eapply St, (progress_notify i); [lia|done].
    - eapply St, progress_notify_none; [lia|]. apply Forall_forall. intros s Hs ->. apply D.
      apply Exists_exists. by exists Asleep. }
  assert (Q : jobQueue_ p = []).
  { destruct (jobQueue_ p) as [|j q] eqn:E; [done|]. destruct Wa as [?|[?|?]]; [done|done|lia|congruence]. }
  assert (Rn : running (workers p) = []).
  { clear -NA. unfold running. induction (workers p) as [|s l IH]; [done|]. cbn [flat_map].
    rewrite IH by (intros ?; apply NA; by apply Exists_cons_tl). destruct s; try done.
    destruct NA. by apply Exists_cons_hd. }
  split; [done|]. split; [by rewrite Ac, Q, Sr, Rn, !app_nil_r|].
  apply Forall_forall. intros s Hs. destruct s; try (exfalso; apply NA, Exists_exists; eexists; split; [exact Hs|done]).
  - destruct (shutdown_ p) eqn:E; [|done]. destruct (As eq_refl) as [?|F]; [congruence|].
    rewrite Forall_forall in F. by destruct (F _ Hs).
  - apply list_elem_of_lookup in Hs as [i Hi]. destruct (Ex i Hi) as [-> _]. done.
Qed.

Module ThreadPoolWitnesses.

(** Two workers; job 5 is submitted, one worker takes it, and the destructor begins. *)
Definition one_job : ThreadPool nat := shut_down (worker_check 0 (default (ThreadPool_new 2) (enqueue 5 (ThreadPool_new 2)))).
Lemma one_job_reachable : tp_reachable 2 1024 one_job.
Proof.
  eapply rtc_l; [right; by apply (event_enqueue 5)|]. eapply rtc_l; [left; by apply (progress_check 0)|].
  eapply rtc_l; [right; by apply event_shutdown|]. apply rtc_refl.
Qed.

Lemma jobs_in_order_witness :
  tp_reachable 2 1024 one_job /\ accepted one_job = [5] /\ running (workers one_job) = [5] /\
  accepted one_job = started one_job ++ jobQueue_ one_job.
Proof.
  split; [exact one_job_reachable|]. split; [reflexivity|]. split; [reflexivity|].
  exact (proj1 (jobs_in_order 2 1024 one_job ltac:(lia) one_job_reachable)).
Defined.

Lemma pool_drains_witness :
  tp_reachable 2 1024 one_job /\ work_left one_job = 5 /\
  (forall p', tp_step one_job p' -> shutdown_ p' = true /\ work_left p' < 5).
Proof.
  split; [exact one_job_reachable|]. split; [reflexivity|].
  exact (proj2 (pool_drains 2 1024 one_job ltac:(lia) one_job_reachable) eq_refl).
Defined.

End ThreadPoolWitnesses.
