(* ===== verification/AsyncPool.v ===== *)
(** [core/AsyncPool.hpp]: a bounded pool of items handed to coroutines, which wait in
    line when none is free (used for the connections of a database).  Coroutines of
    several threads use it; each critical section of its mutex is one step. *)
From S2P Require Import Prelude Executor.

Section AsyncPool.
Context {T : Type}.

(** A waiter is identified by its handle; its [executor] is the one of its thread. *)
Record Waiter := { whandle : handle; wexecutor : Z }.

(** [available_] and [waiters_] are the members.  The rest is what [release] and the
    waiters have in their hands: items taken for a waiter but not yet written to its
    slot, the slots written together with the post, and the items in use. *)
Record AsyncPool := {
  available_ : list T;
  waiters_ : list Waiter;
  handing : list (Waiter * T);
  slots : list (Waiter * T);
  in_use : list T;
  arrivals : list handle;
  served : list handle;
}.

Definition AsyncPool_new (items : list T) : AsyncPool :=
  {| available_ := items; waiters_ := []; handing := []; slots := []; in_use := []; arrivals := []; served := [] |}.

Definition take_back (p : AsyncPool) : option (T * list T) :=
  match last (available_ p) with
  | Some item => Some (item, take (length (available_ p) - 1) (available_ p))
  | None => None
  end.

(** [AcquireAwaitable::await_suspend], still under the lock [acquire] took; [true]:
    it found an item and resumes the coroutine itself. *)
Definition await_suspend (w : Waiter) (p : AsyncPool) : bool * AsyncPool :=
  match take_back p with
  | Some (item, rest) =>
      (true, {| available_ := rest; waiters_ := waiters_ p; handing := handing p; slots := slots p;
         in_use := item :: in_use p; arrivals := arrivals p; served := served p |})
  | None =>
      (false, {| available_ := available_ p; waiters_ := waiters_ p ++ [w]; handing := handing p; slots := slots p;
         in_use := in_use p; arrivals := arrivals p ++ [whandle w]; served := served p |})
  end.

(** [acquire]: an item, or the awaitable. *)
Definition acquire (w : Waiter) (p : AsyncPool) : option bool * AsyncPool :=
  match take_back p with
  | Some (item, rest) =>
      (None, {| available_ := rest; waiters_ := waiters_ p; handing := handing p; slots := slots p;
         in_use := item :: in_use p; arrivals := arrivals p; served := served p |})
  | None => let '(b, p) := await_suspend w p in (Some b, p)
  end.

(** The critical section of [release]; the item was [in_use]. *)
Definition release (item : T) (rest_in_use : list T) (p : AsyncPool) : AsyncPool :=
  match waiters_ p with
  | w :: ws => {| available_ := available_ p; waiters_ := ws; handing := handing p ++ [(w, item)]; slots := slots p;
      in_use := rest_in_use; arrivals := arrivals p; served := served p ++ [whandle w] |}
  | [] => {| available_ := available_ p ++ [item]; waiters_ := []; handing := handing p; slots := slots p;
      in_use := rest_in_use; arrivals := arrivals p; served := served p |}
  end.

(** The rest of [release] when there was a waiter: the slot is written and the handle
    posted to the waiter's executor. *)
Definition deliver (w : Waiter) (item : T) (rest : list (Waiter * T)) (p : AsyncPool) : AsyncPool :=
  {| available_ := available_ p; waiters_ := waiters_ p; handing := rest; slots := slots p ++ [(w, item)];
     in_use := in_use p; arrivals := arrivals p; served := served p |}.

(** The waiter is resumed and returns what its slot holds. *)
Definition resumed (w : Waiter) (item : T) (rest : list (Waiter * T)) (p : AsyncPool) : AsyncPool :=
  {| available_ := available_ p; waiters_ := waiters_ p; handing := handing p; slots := rest;
     in_use := item :: in_use p; arrivals := arrivals p; served := served p |}.

Inductive pool_step : AsyncPool -> AsyncPool -> Prop :=
| step_acquire w p : pool_step p (acquire w p).2
| step_release item rest p : in_use p ≡ₚ item :: rest -> pool_step p (release item rest p)
| step_deliver w item rest p : handing p ≡ₚ (w, item) :: rest -> pool_step p (deliver w item rest p)
| step_resumed w item rest p : slots p ≡ₚ (w, item) :: rest -> pool_step p (resumed w item rest p).

Definition pool_reachable (items : list T) : AsyncPool -> Prop := rtc pool_step (AsyncPool_new items).

Definition all_items (p : AsyncPool) : list T :=
  available_ p ++ map snd (handing p) ++ map snd (slots p) ++ in_use p.

Record pool_inv (items : list T) (p : AsyncPool) : Prop := {
  pool_items : all_items p ≡ₚ items;
  pool_line : waiters_ p <> [] -> available_ p = [];
  pool_fifo : arrivals p = served p ++ map whandle (waiters_ p);
}.

Lemma take_back_Some p item rest : take_back p = Some (item, rest) -> available_ p = rest ++ [item].
Proof.
  unfold take_back. destruct (last (available_ p)) as [x|] eqn:L; [|done]. intros [= <- <-].
  apply last_Some in L as [l ->]. rewrite length_app. cbn [length].
  replace (length l + 1 - 1) with (length l) by lia. by rewrite take_app_length.
Qed.

Lemma take_back_None p : take_back p = None -> available_ p = [].
Proof. unfold take_back. destruct (last (available_ p)) eqn:L; [done|]. intros _. by apply last_None. Qed.

Lemma async_step_inv items p p' : pool_inv items p -> pool_step p p' -> pool_inv items p'.
Proof.
  intros [P L F] S. destruct S as [w p|item rest p H|w item rest p H|w item rest p H].
  - unfold acquire, await_suspend. destruct (take_back p) as [[item rest]|] eqn:E; cbn.
    + apply take_back_Some in E. split; cbn; [|intros N; specialize (L N)|done].
      * rewrite <- P. unfold all_items. rewrite E. cbn. solve_Permutation.
      * rewrite E in L. by destruct rest.
    + apply take_back_None in E. split; cbn; [done|done|]. by rewrite F, map_app, app_assoc.
  - unfold release. destruct (waiters_ p) as [|w ws] eqn:E; split; cbn; try done.
    + rewrite <- P. unfold all_items. cbn. rewrite H. solve_Permutation.
    + rewrite <- P. unfold all_items. cbn. rewrite H, map_app. cbn. solve_Permutation.
    + intros _. by apply L.
    + rewrite F. cbn. by rewrite <- app_assoc.
  - split; cbn; try done. rewrite <- P. unfold all_items. cbn. rewrite H, map_app. cbn. solve_Permutation.
  - split; cbn; try done. rewrite <- P. unfold all_items. cbn. rewrite H. cbn. solve_Permutation.
Qed.

Lemma async_reachable_inv items p : pool_reachable items p -> pool_inv items p.
Proof.
  intros R. assert (G : forall a b, rtc pool_step a b -> pool_inv items a -> pool_inv items b).
  { induction 1 as [|a b d S _ IH]; [done|]. intros I. apply IH. by eapply async_step_inv. }
  apply (G _ _ R). split; cbn; [|done|done]. unfold all_items. cbn. by rewrite !app_nil_r.
Qed.
End AsyncPool.
Arguments AsyncPool : clear implicits.

(** Across all interleavings the items are conserved, so that no item is ever
    held by two coroutines; a coroutine waits only while no item is free; the
    waiters are served in the order of their arrival; the item goes to the first
    waiter as soon as one is released; and the branch of [await_suspend] that resumes
    the coroutine on the spot is never taken. *)
Theorem pool_fair {T} (items : list T) (p : AsyncPool T) :
  pool_reachable items p ->
  all_items p ≡ₚ items /\ (NoDup items -> NoDup (in_use p)) /\
  (waiters_ p <> [] -> available_ p = []) /\
  arrivals p = served p ++ map whandle (waiters_ p) /\
  (forall item rest w ws, waiters_ p = w :: ws ->
     handing (release item rest p) = handing p ++ [(w, item)] /\ available_ (release item rest p) = []) /\
  (forall w, fst (acquire w p) <> Some true).
Proof.
  intros R. pose proof (async_reachable_inv items p R) as [P L F]. split_and!; try done.
  - intros N. rewrite <- P in N. unfold all_items in N. by apply NoDup_app in N as (_ & _ & (_ & _ & (_ & _ & N)%NoDup_app)%NoDup_app).
  - intros item rest w ws E. unfold release. rewrite E. cbn. split; [done|]. apply L. by rewrite E.
  - intros w. unfold acquire, await_suspend. by destruct (take_back p) as [[]|].
Qed.

Module AsyncPoolWitnesses.

Definition w1 : Waiter := {| whandle := 1; wexecutor := 0 |}.
Definition w2 : Waiter := {| whandle := 2; wexecutor := 0 |}.

(** One item: the second coroutine waits for it. *)
Definition line : AsyncPool nat := (acquire w2 (acquire w1 (AsyncPool_new [7])).2).2.

Lemma pool_fair_witness :
  pool_reachable [7] line /\ in_use line = [7] /\ waiters_ line = [w2] /\ all_items line ≡ₚ [7].
Proof.
  assert (R : pool_reachable [7] line).
  { eapply rtc_l; [apply (step_acquire w1)|]. eapply rtc_l; [apply (step_acquire w2)|]. apply rtc_refl. }
  split; [exact R|]. split; [reflexivity|]. split; [reflexivity|]. exact (proj1 (pool_fair [7] line R)).
Defined.

End AsyncPoolWitnesses.
