(* ===== verification/Session.v ===== *)
(** Sessions: [http/session] ([Session], [SessionHandle], [ISessionStore],
    [InMemorySessionStore]) and the middleware that loads and saves them
    ([SessionMiddleware.hpp], [SessionMiddleware.cpp]).  The store is an interface;
    the middleware is proved against it. *)
From S2P Require Import Prelude Bytes Effects HttpTypes CookieStore.
From S2P Require HttpRequest HttpResponse HttpStreamResponse HttpFileResponse HttpUtils.

#[local] Arguments list_ascii_of_string : simpl never.

(** ** A session *)
Record Session := {
  data_ : gmap bytes bytes;
  isNew_ : bool;
  isDirty_ : bool;
  isInvalidated_ : bool;
}.

Definition Session_new : Session := {| data_ := ∅; isNew_ := true; isDirty_ := false; isInvalidated_ := false |}.

Definition session_get (key : bytes) (s : Session) : option bytes := data_ s !! key.
Definition session_has (key : bytes) (s : Session) : bool := bool_decide (is_Some (data_ s !! key)).
Definition session_set (key value : bytes) (s : Session) : Session :=
  {| data_ := <[key := value]> (data_ s); isNew_ := isNew_ s; isDirty_ := true; isInvalidated_ := isInvalidated_ s |}.
Definition session_remove (key : bytes) (s : Session) : Session :=
  {| data_ := delete key (data_ s); isNew_ := isNew_ s; isDirty_ := true; isInvalidated_ := isInvalidated_ s |}.
Definition invalidate (s : Session) : Session :=
  {| data_ := data_ s; isNew_ := isNew_ s; isDirty_ := isDirty_ s; isInvalidated_ := true |}.
Definition markLoaded (s : Session) : Session :=
  {| data_ := data_ s; isNew_ := false; isDirty_ := isDirty_ s; isInvalidated_ := isInvalidated_ s |}.

(** ** The store *)

(** [ISessionStore], over the state [St] of the process. *)
Class ISessionStore (St : Type) := {
  load : bytes -> M St (option Session);
  save : bytes -> Session -> M St unit;
  destroy : bytes -> M St unit;
  generateId : M St bytes;
}.

(** What the middleware relies on: a session that was saved is loaded again until
    [lifetime] has passed ([elapse] is the passing of time), unless it is destroyed;
    and identifiers have the form that [sanitize] accepts. *)
Class SessionStoreLaws (St : Type) `{ISessionStore St} := {
  elapse : Z -> St -> St;
  lifetime : St -> Z;
  save_ok id s st : exists st', save id s st = (Ret tt, st') /\ lifetime st' = lifetime st;
  load_saved id s st st' d :
    save id s st = (Ret tt, st') -> isInvalidated_ s = false -> (0 <= d <= lifetime st)%Z ->
    exists st'', load id (elapse d st') = (Ret (Some s), st'');
  load_destroyed id st st' d :
    destroy id st = (Ret tt, st') -> exists st'', load id (elapse d st') = (Ret None, st'');
  generateId_form st id st' :
    generateId st = (Ret id, st') ->
    length id = 64 /\ forallb (fun c => isalnum c) id = true /\ lifetime st' = lifetime st;
  load_lifetime id st : lifetime (load id st).2 = lifetime st;
  elapse_lifetime d st : lifetime (elapse d st) = lifetime st;
}.

(** [SessionHandle] *)
Record SessionHandle := { id : bytes; session : option Session }.

Definition SessionHandle_new (i : bytes) : SessionHandle := {| id := i; session := None |}.
Definition with_session (s : Session) (h : SessionHandle) : SessionHandle := {| id := id h; session := Some s |}.
Definition with_id (i : bytes) (h : SessionHandle) : SessionHandle := {| id := i; session := session h |}.
Definition wasLoaded (h : SessionHandle) : bool := engaged (session h).

(** Where the process state holds the store and the handle of the request at work. *)
Class HasSession (S St : Type) `{HasRequest S} := {
  get_store : S -> St;
  put_store : St -> S -> S;
  get_handle : S -> SessionHandle;
  put_handle : SessionHandle -> S -> S;
  store_get_put st s : get_store (put_store st s) = st;
  handle_get_put h s : get_handle (put_handle h s) = h;
  handle_put_store st s : get_handle (put_store st s) = get_handle s;
  store_put_handle h s : get_store (put_handle h s) = get_store s;
  handle_put_request r s : get_handle (put_request r s) = get_handle s;
  store_put_request r s : get_store (put_request r s) = get_store s;
  request_put_handle h s : get_request (put_handle h s) = get_request s;
  request_put_store st s : get_request (put_store st s) = get_request s;
}.

Section Middleware.
Context {S St F : Type} {HR : HasRequest S} {IS : ISessionStore St} {HS : HasSession S St}.

Definition on_store {A} (m : M St A) : M S A := fun s =>
  let '(r, st) := m (get_store s) in (r, put_store st s).

(** [SessionHandle::get]; the pointer it returns is to the handle's session. *)
Definition handle_get : M S Session :=
  h ← gets get_handle;
  match session h with
  | Some s => mret s
  | None =>
      o ← (if id h =?b [] then mret None else on_store (load (id h)));
      let s := match o with Some s => markLoaded s | None => Session_new end in
      modify (fun st => put_handle (with_session s (get_handle st)) st) ;;
      mret s
  end.

(** [HttpRequest::getSession]: [None] is the null pointer. *)
Definition getSession : M S (option Session) :=
  r ← gets get_request;
  match HttpRequest.sessionHandle_ r with
  | None => mret None
  | Some _ => s ← handle_get; mret (Some s)
  end.

(** What a handler does through that pointer. *)
Definition update_session (f : Session -> Session) : M S unit :=
  modify (fun st => put_handle {| id := id (get_handle st); session := f <$> session (get_handle st) |} st).

Record SessionConfig := { minIdSize : nat; maxIdSize : nat; cookieHttpOnly : bool; cookieSecure : bool }.
Definition SessionConfig_default : SessionConfig :=
  {| minIdSize := 8; maxIdSize := 64; cookieHttpOnly := false; cookieSecure := false |}.

Definition sanitize (cfg : SessionConfig) (i : bytes) : bytes :=
  if (length i <? minIdSize cfg) || (maxIdSize cfg <? length i) then []
  else if forallb (fun c => isalnum c || Ascii.eqb c "-" || Ascii.eqb c "_") i then i else [].

(** [res.cookies], for any alternative. *)
Definition map_cookies (f : list Cookie -> list Cookie) (r : Response F) : Response F :=
  match r with
  | Plain r => Plain (HttpResponse.with_cookies f r)
  | Stream r => Stream (HttpStreamResponse.Build_HttpStreamResponse F (HttpStreamResponse.headers r)
      (f (HttpStreamResponse.cookies r)) (HttpStreamResponse.statusCode_ r) (HttpStreamResponse.version_ r)
      (HttpStreamResponse.isChunked_ r) (HttpStreamResponse.nextChunkFn_ r))
  | File r => File (HttpFileResponse.with_cookies f r)
  end.

Definition session_cookie (cfg : SessionConfig) (i : bytes) : Cookie :=
  let c := Cookie_name_value "session_id" i in
  {| name := name c; value := value c; path := path c; httpOnly := cookieHttpOnly cfg; secure := cookieSecure cfg;
     sameSite := sameSite c; maxAge := maxAge c; expires := expires c; domain := domain c |}.

(** After the handler: the session is destroyed, saved, or left alone. *)
Definition finish_session (cfg : SessionConfig) (response : Response F) : M S (Response F) :=
  h ← gets get_handle;
  match session h with
  | None => mret response
  | Some s =>
      if isInvalidated_ s then
        mwhen (negb (id h =?b [])) (on_store (destroy (id h))) ;;
        mret (map_cookies (deleteCookie "session_id" "/") response)
      else if negb (isDirty_ s) then mret response
      else
        i ← (if id h =?b [] then on_store generateId else mret (id h));
        modify (fun st => put_handle (with_id i (get_handle st)) st) ;;
        on_store (save i s) ;;
        mret (map_cookies (setCookie (session_cookie cfg i)) response)
  end.

(** [SessionMiddleware::operator()] *)
Definition SessionMiddleware (cfg : SessionConfig) (next : Next S F) : M S (Response F) :=
  r ← gets get_request;
  let sessionCookie := default [] (HttpRequest.getCookie "session_id" r) in
  modify (put_handle (SessionHandle_new (sanitize cfg sessionCookie))) ;;
  modify_request (HttpRequest.setSessionHandle (Some 0)) ;;
  response ← next;
  finish_session cfg response.
End Middleware.

(** ** The store in memory *)

Record SessionEntry := { entry_session : Session; lastAccessed : Z }.

(** The store, with the clock (in seconds) and the random bytes of OpenSSL. *)
Record InMemorySessionStore := {
  sessions_ : gmap bytes SessionEntry;
  ttl_ : Z;
  clock : Z;
  entropy : nat -> ascii;
  drawn : nat;
  rand_works : bool;
}.

Definition on_sessions (f : gmap bytes SessionEntry -> gmap bytes SessionEntry) (m : InMemorySessionStore) :
  InMemorySessionStore :=
  {| sessions_ := f (sessions_ m); ttl_ := ttl_ m; clock := clock m; entropy := entropy m; drawn := drawn m;
     rand_works := rand_works m |}.

Definition expired (e : SessionEntry) (m : InMemorySessionStore) : bool :=
  (ttl_ m <? clock m - lastAccessed e)%Z || isInvalidated_ (entry_session e).

(** [load]: under the shared lock, and then, for an expired entry, under the
    exclusive one. *)
Definition mem_load (i : bytes) : M InMemorySessionStore (option Session) :=
  m ← gets (fun m => m);
  match sessions_ m !! i with
  | None => mret None
  | Some e =>
      if negb (expired e m) then mret (Some (entry_session e))
      else modify (on_sessions (delete i)) ;; mret None
  end.

Definition mem_save (i : bytes) (s : Session) : M InMemorySessionStore unit :=
  modify (fun m => on_sessions <[i := {| entry_session := s; lastAccessed := clock m |}]> m).

Definition mem_destroy (i : bytes) : M InMemorySessionStore unit := modify (on_sessions (delete i)).

Definition hex : bytes := "0123456789abcdef".
Definition hex_pair (c : ascii) : bytes :=
  [nth (Z.to_nat (Z.shiftr (code c) 4)) hex NUL; nth (Z.to_nat (Z.land (code c) 15)) hex NUL].

Definition mem_generateId : M InMemorySessionStore bytes :=
  m ← gets (fun m => m);
  if rand_works m then
    modify (fun m => {| sessions_ := sessions_ m; ttl_ := ttl_ m; clock := clock m; entropy := entropy m;
                        drawn := drawn m + 32; rand_works := rand_works m |}) ;;
    mret (concat (map hex_pair (map (entropy m) (seq (drawn m) 32))))
  else throw (RuntimeError "RAND_bytes failed").

#[export] Instance in_memory : ISessionStore InMemorySessionStore :=
  {| load := mem_load; save := mem_save; destroy := mem_destroy; generateId := mem_generateId |}.

Definition tick (d : Z) (m : InMemorySessionStore) : InMemorySessionStore :=
  {| sessions_ := sessions_ m; ttl_ := ttl_ m; clock := clock m + d; entropy := entropy m; drawn := drawn m;
     rand_works := rand_works m |}.

Lemma hex_alnum n : n < 16 -> isalnum (nth n hex NUL) = true.
Proof. intros H. do 16 (destruct n; [reflexivity|]). lia. Qed.

Lemma hex_pair_alnum c : forallb (fun c => isalnum c) (hex_pair c) = true.
Proof.
  pose proof (HttpUtils.code_range c) as H. unfold hex_pair. cbn [forallb].
  rewrite Z.shiftr_div_pow2 by lia. change 15%Z with (Z.ones 4). rewrite Z.land_ones by lia.
  change (2 ^ 4)%Z with 16%Z. rewrite !hex_alnum; [done| |].
  - pose proof (Z.mod_pos_bound (code c) 16 ltac:(lia)). lia.
  - pose proof (Z.div_lt_upper_bound (code c) 16 16 ltac:(lia) ltac:(lia)). lia.
Qed.

Lemma hex_pairs_form l :
  length (concat (map hex_pair l)) = 2 * length l /\ forallb (fun c => isalnum c) (concat (map hex_pair l)) = true.
Proof.
  induction l as [|c l [IH1 IH2]]; [done|]. cbn [map concat]. rewrite length_app, forallb_app, hex_pair_alnum, IH1, IH2.
  split; [|done]. cbn. lia.
Qed.

#[export] Instance in_memory_laws : SessionStoreLaws InMemorySessionStore.
Proof.
  refine {| elapse := tick; lifetime := ttl_ |}.
  - intros i s st. eexists. done.
  - intros i s st st' d [= <-] Hi Hd. eexists. unfold load, in_memory, mem_load, gets, mbind, M_bind. cbn.
    rewrite lookup_insert_eq. unfold expired. cbn. rewrite Hi, orb_false_r.
    rewrite (proj2 (Z.ltb_ge _ _)) by lia. done.
  - intros i st st' d [= <-]. eexists. unfold load, in_memory, mem_load, gets, mbind, M_bind. cbn.
    rewrite lookup_delete_eq. done.
  - intros st i st'. unfold generateId, in_memory, mem_generateId, gets, mbind, M_bind. cbn beta iota.
    destruct (rand_works st); [|done]. unfold modify. cbn beta iota zeta. intros [= <- <-].
    destruct (hex_pairs_form (map (entropy st) (seq (drawn st) 32))) as [L A].
    rewrite length_map, length_seq in L. split; [done|]. split; [done|done].
  - intros i st. unfold load, in_memory, mem_load, gets, mbind, M_bind. cbn. destruct (sessions_ st !! i) as [e|]; [|done].
    by destruct (negb (expired e st)).
  - done.
Defined.

(** ** Properties *)

Section Properties.
Context {S St F : Type} {HR : HasRequest S} {IS : ISessionStore St} {SL : SessionStoreLaws St} {HS : HasSession S St}.

(** The state in which the handler of a request runs. *)
Definition begin_session (cfg : SessionConfig) (s : S) : S :=
  let s' := put_handle (SessionHandle_new (sanitize cfg (default [] (HttpRequest.getCookie "session_id" (get_request s))))) s in
  put_request (HttpRequest.setSessionHandle (Some 0) (get_request s')) s'.

Lemma SessionMiddleware_eq cfg (next : Next S F) s :
  SessionMiddleware cfg next s = (next ≫= finish_session cfg) (begin_session cfg s).
Proof. reflexivity. Qed.

Lemma begin_handle cfg s :
  get_handle (begin_session cfg s) =
  SessionHandle_new (sanitize cfg (default [] (HttpRequest.getCookie "session_id" (get_request s)))).
Proof. unfold begin_session. by rewrite handle_put_request, handle_get_put. Qed.

Lemma begin_store cfg s : get_store (begin_session cfg s) = get_store s.
Proof. unfold begin_session. by rewrite store_put_request, store_put_handle. Qed.

Lemma sanitize_idem cfg i : sanitize cfg (sanitize cfg i) = sanitize cfg i.
Proof.
  assert (C : sanitize cfg i = [] \/ sanitize cfg i = i).
  { unfold sanitize. destruct (_ || _); [by left|]. destruct (forallb _ i); auto. }
  destruct C as [E|E]; rewrite !E; [|done]. unfold sanitize. by destruct (_ || _).
Qed.

Lemma sanitize_generated cfg i :
  length i = 64 -> forallb (fun c => isalnum c) i = true -> minIdSize cfg <= 64 <= maxIdSize cfg -> sanitize cfg i = i.
Proof.
  intros L A B. unfold sanitize. rewrite L.
  assert (E : (64 <? minIdSize cfg) || (maxIdSize cfg <? 64) = false) by (rewrite orb_false_iff, !Nat.ltb_ge; lia).
  rewrite E. assert (E2 : forallb (fun c => isalnum c || Ascii.eqb c "-" || Ascii.eqb c "_") i = true); [|by rewrite E2].
  apply forallb_forall. intros c Hc. rewrite (proj1 (forallb_forall _ _) A c Hc). done.
Qed.

(** What the first [getSession] of a handler returns, by what the store holds. *)
Lemma getSession_first cfg s o st :
  let i := sanitize cfg (default [] (HttpRequest.getCookie "session_id" (get_request s))) in
  i <> [] -> load i (get_store s) = (Ret o, st) ->
  exists s', getSession (begin_session cfg s) = (Ret (Some (match o with Some x => markLoaded x | None => Session_new end)), s').
Proof.
  intros i Hi L. unfold getSession. rewrite (mbind_Ret _ _ _ (get_request (begin_session cfg s)) (begin_session cfg s)) by done.
  unfold begin_session at 1. rewrite get_put. cbn [HttpRequest.sessionHandle_ HttpRequest.setSessionHandle].
  unfold handle_get.
  unfold mbind, M_bind, gets. rewrite begin_handle. cbn [session SessionHandle_new id]. fold i.
  rewrite (proj2 (beqb_neq _ _) Hi). unfold on_store. rewrite begin_store, L. cbn. eauto.
Qed.

(** Saving a changed session: under an identifier the middleware accepts, and found
    in the store for as long as it keeps sessions. *)
Lemma finish_saves (cfg : SessionConfig) (resp : Response F) s1 ss :
  minIdSize cfg <= 64 <= maxIdSize cfg -> sanitize cfg (id (get_handle s1)) = id (get_handle s1) ->
  session (get_handle s1) = Some ss -> isDirty_ ss = true -> isInvalidated_ ss = false ->
  (id (get_handle s1) = [] ->
    (forall e st, generateId (get_store s1) <> (Throw e, st)) /\ (forall st, generateId (get_store s1) <> (Undef, st))) ->
  exists i s2,
    finish_session cfg resp s1 = (Ret (map_cookies (setCookie (session_cookie cfg i)) resp), s2) /\
    sanitize cfg i = i /\ i <> [] /\ (id (get_handle s1) <> [] -> i = id (get_handle s1)) /\
    lifetime (get_store s2) = lifetime (get_store s1) /\
    forall d, (0 <= d <= lifetime (get_store s1))%Z -> exists st, load i (elapse d (get_store s2)) = (Ret (Some ss), st).
Proof.
  intros B Hid Hs Hd Hinv N.
  assert (G : exists i st, (if id (get_handle s1) =?b [] then on_store generateId else mret (id (get_handle s1))) s1
      = (Ret i, st) /\ sanitize cfg i = i /\ i <> [] /\ (id (get_handle s1) <> [] -> i = id (get_handle s1)) /\ lifetime (get_store st) = lifetime (get_store s1)).
  { destruct (beqb_spec (id (get_handle s1)) []) as [E|E].
    - destruct (N E) as [NT NU]. unfold on_store. destruct (generateId (get_store s1)) as [[i|e|] st] eqn:Eg; [|by destruct (NT e st)|by destruct (NU st)].
      destruct (generateId_form _ _ _ Eg) as (L & A & Lt). exists i, (put_store st s1). split; [done|].
      split; [by apply sanitize_generated|]. split; [by intros ->|]. split; [done|]. by rewrite store_get_put.
    - by exists (id (get_handle s1)), s1. }
  destruct G as (i & sg & Eg & Si & Ni & Hi & Lg).
  set (sh := put_handle (with_id i (get_handle sg)) sg).
  destruct (save_ok i ss (get_store sh)) as (st' & Es & Ls).
  exists i, (put_store st' sh). split; [|split; [done|split; [done|split; [done|split]]]].
  - unfold finish_session. rewrite (mbind_Ret _ _ _ (get_handle s1) s1) by done. rewrite Hs, Hinv, Hd. cbn [negb].
    rewrite (mbind_Ret _ _ _ _ _ Eg). rewrite (mbind_Ret _ _ _ tt sh) by done.
    assert (Eo : on_store (save i ss) sh = (Ret tt, put_store st' sh)) by (unfold on_store; by rewrite Es).
    by rewrite (mbind_Ret _ _ _ _ _ Eo).
  - rewrite store_get_put, Ls. unfold sh. by rewrite store_put_handle, Lg.
  - intros d Hd'. rewrite store_get_put. apply (load_saved i ss (get_store sh) st' d Es Hinv).
    unfold sh. by rewrite store_put_handle, Lg.
Qed.

(** C16: A session that a handler has changed is found again by the next request that
    sends back the cookie of the response: its data are those the handler left, at
    any time within the lifetime of the store, whichever store is used; a client
    without a valid cookie is given a fresh identifier, one that the middleware will
    accept. *)
Theorem session_persists (cfg : SessionConfig) (next : Next S F) s resp s1 ss d :
  minIdSize cfg <= 64 <= maxIdSize cfg ->
  next (begin_session cfg s) = (Ret resp, s1) ->
  id (get_handle s1) = id (get_handle (begin_session cfg s)) ->
  session (get_handle s1) = Some ss -> isDirty_ ss = true -> isInvalidated_ ss = false ->
  (0 <= d <= lifetime (get_store s1))%Z ->
  (forall e st, generateId (get_store s1) <> (Throw e, st)) -> (forall st, generateId (get_store s1) <> (Undef, st)) ->
  exists i s2,
    SessionMiddleware cfg next s = (Ret (map_cookies (setCookie (session_cookie cfg i)) resp), s2) /\
    value (session_cookie cfg i) = i /\ i <> [] /\
    forall s3, get_store s3 = elapse d (get_store s2) -> HttpRequest.getCookie "session_id" (get_request s3) = Some i ->
      exists s4, getSession (begin_session cfg s3) = (Ret (Some (markLoaded ss)), s4).
Proof.
  intros B N Hid Hs Hd Hinv Ht NT NU. rewrite SessionMiddleware_eq, (mbind_Ret _ _ _ _ _ N).
  rewrite begin_handle in Hid. cbn in Hid.
  destruct (finish_saves cfg resp s1 ss) as (i & s2 & E & Si & Ni & _ & _ & L); try done; [rewrite Hid; apply sanitize_idem|].
  exists i, s2. split; [exact E|]. split; [done|]. split; [done|]. intros s3 E3 C3.
  destruct (L d Ht) as [st El]. apply (getSession_first cfg s3 (Some ss) st); rewrite C3; cbn [default from_option];
    change (Datatypes.id i) with i; rewrite Si; [done|]. by rewrite E3.
Qed.

(** After a handler that never asked for the session, or that leaves it clean, the
    middleware changes neither the store nor the response.  A handler that invalidates
    the session ends it: the store forgets the identifier, the client is told to drop
    its cookie, and a later request with that cookie gets a new, empty session. *)
Theorem session_ends (cfg : SessionConfig) (next : Next S F) s resp s1 :
  next (begin_session cfg s) = (Ret resp, s1) ->
  match session (get_handle s1) with
  | None => SessionMiddleware cfg next s = (Ret resp, s1)
  | Some ss =>
      if isInvalidated_ ss then
        forall i st, id (get_handle s1) = i -> i <> [] -> sanitize cfg i = i -> destroy i (get_store s1) = (Ret tt, st) ->
          SessionMiddleware cfg next s = (Ret (map_cookies (deleteCookie "session_id" "/") resp), put_store st s1) /\
          forall d s3, get_store s3 = elapse d st -> HttpRequest.getCookie "session_id" (get_request s3) = Some i ->
            exists s4, getSession (begin_session cfg s3) = (Ret (Some Session_new), s4)
      else isDirty_ ss = false -> SessionMiddleware cfg next s = (Ret resp, s1)
  end.
Proof.
  intros N. rewrite SessionMiddleware_eq, (mbind_Ret _ _ _ _ _ N). unfold finish_session.
  rewrite (mbind_Ret _ _ _ (get_handle s1) s1) by done.
  destruct (session (get_handle s1)) as [ss|]; [|done]. destruct (isInvalidated_ ss); [|by intros ->].
  intros i st Ei Ni Si Ed. rewrite Ei, (proj2 (beqb_neq _ _) Ni). cbn [negb mwhen].
  assert (Eo : on_store (destroy i) s1 = (Ret tt, put_store st s1)) by (unfold on_store; by rewrite Ed).
  rewrite (mbind_Ret _ _ _ _ _ Eo). split; [done|]. intros d s3 E3 C3.
  destruct (load_destroyed i (get_store s1) st d Ed) as [st'' El].
  apply (getSession_first cfg s3 None st''); rewrite C3; cbn [default from_option]; change (Datatypes.id i) with i;
    rewrite Si; [done|]. by rewrite E3.
Qed.
End Properties.

Module SessionWitnesses.

(** A process: the request at work, the store in memory and the handle. *)
Record world := { req : HttpRequest.HttpRequest; store : InMemorySessionStore; hdl : SessionHandle }.

#[local] Instance world_request : HasRequest world.
Proof.
  refine {| get_request := req; put_request r w := {| req := r; store := store w; hdl := hdl w |} |}; try done.
  by intros [].
Defined.

#[local] Instance world_session : HasSession world InMemorySessionStore.
Proof.
  by refine {| get_store := store; put_store s w := {| req := req w; store := s; hdl := hdl w |};
    get_handle := hdl; put_handle h w := {| req := req w; store := store w; hdl := h |} |}.
Defined.

(** The first request of a client, at time 1000, with sessions that last a minute. *)
Definition w0 : world :=
  {| req := HttpRequest.fresh "127.0.0.1" 80;
     store := {| sessions_ := ∅; ttl_ := 60; clock := 1000; entropy := fun n => chr (Z.of_nat n); drawn := 0; rand_works := true |};
     hdl := SessionHandle_new [] |}.

Definition login : Next world unit :=
  _ ← getSession; update_session (session_set "user" "ada") ;; mret (Plain (HttpResponse.HttpResponse_code 200)).
Definition logout : Next world unit :=
  _ ← getSession; update_session invalidate ;; mret (Plain (HttpResponse.HttpResponse_code 200)).

Definition cfg0 : SessionConfig := SessionConfig_default.
Definition w1 : world := (login (begin_session cfg0 w0)).2.
Definition ada : Session := session_set "user" "ada" Session_new.

Lemma session_persists_witness :
  exists i s2, SessionMiddleware cfg0 login w0 =
      (Ret (map_cookies (setCookie (session_cookie cfg0 i)) (Plain (HttpResponse.HttpResponse_code 200))), s2) /\
    length i = 64 /\ session_get "user" (markLoaded ada) = Some ("ada" : bytes) /\
    forall s3, get_store s3 = elapse 45 (get_store s2) -> HttpRequest.getCookie "session_id" (get_request s3) = Some i ->
      exists s4, getSession (begin_session cfg0 s3) = (Ret (Some (markLoaded ada)), s4).
Proof.
  destruct (session_persists cfg0 login w0 (Plain (HttpResponse.HttpResponse_code 200)) w1 ada 45
    ltac:(cbn; lia) ltac:(vm_compute; reflexivity) ltac:(vm_compute; reflexivity) ltac:(vm_compute; reflexivity)
    eq_refl eq_refl ltac:(vm_compute; split; discriminate) ltac:(intros e st; vm_compute; discriminate)
    ltac:(intros st; vm_compute; discriminate)) as (i & s2 & E & _ & _ & H).
  exists i, s2. split; [exact E|]. split; [|split; [vm_compute; reflexivity|exact H]].
  assert (E' := f_equal (fun r => match r.1 with
    | Ret (Plain p) => match HttpResponse.cookies p with [c] => length (value c) | _ => 0 end | _ => 0 end) E).
  cbn in E'. rewrite <- E'. vm_compute. reflexivity.
Defined.

(** The same client, with the cookie of a session in the store. *)
Definition cookie_id : bytes := "0123456789abcdef".
Definition w2 : world :=
  {| req := HttpRequest.addHeader "Cookie" ("session_id=" ++ cookie_id) (HttpRequest.fresh "127.0.0.1" 80);
     store := on_sessions <[cookie_id := {| entry_session := ada; lastAccessed := 990 |}]> (store w0);
     hdl := SessionHandle_new [] |}.
Definition w3 : world := (logout (begin_session cfg0 w2)).2.
Definition ended : InMemorySessionStore := (destroy cookie_id (get_store w3)).2.

Lemma session_ends_witness :
  isInvalidated_ <$> session (get_handle w3) = Some true /\
  SessionMiddleware cfg0 logout w2 =
    (Ret (map_cookies (deleteCookie "session_id" "/") (Plain (HttpResponse.HttpResponse_code 200))), put_store ended w3).
Proof.
  split; [vm_compute; reflexivity|].
  assert (N : logout (begin_session cfg0 w2) = (Ret (Plain (HttpResponse.HttpResponse_code 200)), w3)) by (vm_compute; reflexivity).
  assert (E : session (get_handle w3) = Some (invalidate (markLoaded ada))) by (vm_compute; reflexivity).
  assert (Ed : destroy cookie_id (get_store w3) = (Ret tt, ended)) by (vm_compute; reflexivity).
  assert (Ei : id (get_handle w3) = cookie_id) by (vm_compute; reflexivity).
  assert (Si : sanitize cfg0 cookie_id = cookie_id) by (vm_compute; reflexivity).
  assert (H := session_ends cfg0 logout w2 (Plain (HttpResponse.HttpResponse_code 200)) w3 N).
  rewrite E in H.
  assert (D : isInvalidated_ (invalidate (markLoaded ada)) = true) by reflexivity.
  rewrite D in H.
  exact (proj1 (H cookie_id ended Ei ltac:(discriminate) Si Ed)).
Defined.

End SessionWitnesses.
