(* ===== verification/CorsMiddleware.v ===== *)
(** Cross-origin requests ([http/middleware/CorsMiddleware.hpp],
    [CorsMiddleware.cpp]): the configuration and its setters, the answer to a
    preflight, and the fields added to any other response. *)
From S2P Require Import Prelude Bytes Effects HeaderStore HttpTypes Router.
From S2P Require HttpRequest HttpResponse.

#[local] Arguments list_ascii_of_string : simpl never.

Record CorsConfig := {
  allowedOrigins : list bytes;
  allowedHeaders : list bytes;
  allowCredentials : bool;
  maxAge : bytes;
}.

Definition CorsConfig_default : CorsConfig :=
  {| allowedOrigins := []; allowedHeaders := literals ["Authorization"; "Content-Type"];
     allowCredentials := true; maxAge := "86400" |}.

(** The members of the class: the configuration, and the header value computed from it. *)
Record CorsState := { corsConfig_ : CorsConfig; allowedHeaders_ : bytes }.

Definition CorsMiddleware_default : CorsState := {| corsConfig_ := CorsConfig_default; allowedHeaders_ := [] |}.

Definition CorsMiddleware_config (corsConfig : CorsConfig) : CorsState :=
  {| corsConfig_ := corsConfig; allowedHeaders_ := getCommaSeparatedString (allowedHeaders corsConfig) |}.

Definition setCorsOrigins (origins : list bytes) (c : CorsState) : CorsState :=
  {| corsConfig_ := {| allowedOrigins := origins; allowedHeaders := allowedHeaders (corsConfig_ c);
                       allowCredentials := allowCredentials (corsConfig_ c); maxAge := maxAge (corsConfig_ c) |};
     allowedHeaders_ := allowedHeaders_ c |}.

Definition setCorsHeaders (headers : list bytes) (c : CorsState) : CorsState :=
  {| corsConfig_ := {| allowedOrigins := allowedOrigins (corsConfig_ c); allowedHeaders := headers;
                       allowCredentials := allowCredentials (corsConfig_ c); maxAge := maxAge (corsConfig_ c) |};
     allowedHeaders_ := getCommaSeparatedString headers |}.

Definition setCorsMaxAge (age : Z) (c : CorsState) : CorsState :=
  {| corsConfig_ := {| allowedOrigins := allowedOrigins (corsConfig_ c); allowedHeaders := allowedHeaders (corsConfig_ c);
                       allowCredentials := allowCredentials (corsConfig_ c); maxAge := to_string age |};
     allowedHeaders_ := allowedHeaders_ c |}.

Definition setAccessControlAllowCredentials (allow : bool) (c : CorsState) : CorsState :=
  {| corsConfig_ := {| allowedOrigins := allowedOrigins (corsConfig_ c); allowedHeaders := allowedHeaders (corsConfig_ c);
                       allowCredentials := allow; maxAge := maxAge (corsConfig_ c) |};
     allowedHeaders_ := allowedHeaders_ c |}.

Fixpoint isOriginAllowed (origins : list bytes) (origin : bytes) : bool :=
  match origins with
  | [] => false
  | allowedOrigin :: rest =>
      if (allowedOrigin =?b origin) || (allowedOrigin =?b "*") then true else isOriginAllowed rest origin
  end.

(** The answer to an OPTIONS request. *)
Definition preflight (c : CorsState) (request : HttpRequest.HttpRequest) (origin : bytes) : HttpResponse.HttpResponse :=
  let response := HttpResponse.HttpResponse_code 204 in
  let allowedMethods := HttpRequest.getAttribute "allowedMethods" "" request in
  if negb (isOriginAllowed (allowedOrigins (corsConfig_ c)) origin) then response
  else
    let add k v := HttpResponse.with_headers (addHeaderLower k v) in
    let set k v := HttpResponse.with_headers (setHeaderLower k v) in
    let response := add "vary" "origin" response in
    let response := set "access-control-allow-origin" origin response in
    let response := set "access-control-allow-methods" allowedMethods response in
    let response := set "access-control-allow-headers" (allowedHeaders_ c) response in
    let response := set "access-control-max-age" (maxAge (corsConfig_ c)) response in
    if allowCredentials (corsConfig_ c) then set "access-control-allow-credentials" "true" response else response.

Definition cors_headers (c : CorsState) (origin : bytes) (hs : fields) : fields :=
  if negb (origin =?b "") then
    let hs := if isOriginAllowed (allowedOrigins (corsConfig_ c)) origin
              then setHeaderLower "access-control-allow-origin" origin hs else hs in
    addHeaderLower "vary" "origin" hs
  else hs.

Section Middleware.
Context {S F : Type} {HR : HasRequest S}.

(** [origin] is a view of the request's field that is read again after [next]. *)
Definition CorsMiddleware (c : CorsState) (next : Next S F) : M S (Response F) :=
  request ← gets get_request;
  let origin := HttpRequest.getHeaderLower "origin" request in
  if origin =?b "" then next
  else if HttpRequest.method_ request =?b "OPTIONS" then mret (Plain (preflight c request origin))
  else
    response ← next;
    origin ← read_view "origin" request;
    mret (map_headers (cors_headers c origin) response).
End Middleware.

(** ** Lemmas *)
Lemma isOriginAllowed_spec origins origin :
  isOriginAllowed origins origin = true <-> origin ∈ origins \/ ("*" : bytes) ∈ origins.
Proof.
  induction origins as [|o l IH]; cbn [isOriginAllowed]; [split; [done|intros [H|H]; inversion H]|].
  rewrite !elem_of_cons. destruct (beqb_spec o origin), (beqb_spec o "*"); cbn [orb];
    rewrite ?IH; naive_solver.
Qed.

(** The values of a field after [setHeaderLower] and [addHeaderLower], whatever was there. *)
Lemma values_set k key v (hs : fields) :
  getAllValues (setHeaderLower key v hs) k = if key =?b k then [v] else getAllValues hs k.
Proof.
  unfold setHeaderLower, set_field. rewrite getAllValues_app, getAllValues_single.
  destruct (beqb_spec key k) as [->|]; [by rewrite getAllValues_erase|].
  by rewrite getAllValues_erase_ne, app_nil_r by done.
Qed.

Lemma values_add k key v (hs : fields) :
  existsb (beqb key) singletonHeaders_ = false ->
  getAllValues (addHeaderLower key v hs) k = getAllValues hs k ++ (if key =?b k then [v] else []).
Proof. intros H. unfold addHeaderLower, add_field. by rewrite H, getAllValues_app, getAllValues_single. Qed.

(** What a client reads in a header list: the values of a field by its name. *)
Definition grants (c : CorsState) (origin methods : bytes) (r : HttpResponse.HttpResponse) : Prop :=
  let h n := getHeaders n (HttpResponse.headers r) in
  h "Access-Control-Allow-Origin" = [origin] /\ h "Access-Control-Allow-Methods" = [methods] /\
  h "Access-Control-Allow-Headers" = [allowedHeaders_ c] /\ h "Access-Control-Max-Age" = [maxAge (corsConfig_ c)] /\
  h "Access-Control-Allow-Credentials" = (if allowCredentials (corsConfig_ c) then [list_ascii_of_string "true"] else []) /\
  h "Vary" = [list_ascii_of_string "origin"].

Lemma preflight_grants c request origin :
  isOriginAllowed (allowedOrigins (corsConfig_ c)) origin = true ->
  grants c origin (HttpRequest.getAttribute "allowedMethods" "" request) (preflight c request origin) /\
  HttpResponse.statusCode_ (preflight c request origin) = 204%Z.
Proof.
  intros A. unfold preflight, grants. rewrite A. cbn [negb].
  destruct (allowCredentials (corsConfig_ c)); cbn [HttpResponse.headers HttpResponse.with_headers HttpResponse.statusCode_];
    (split; [|done]); unfold getHeaders; rewrite !values_set, !values_add by reflexivity; done.
Qed.

(** ** Properties *)
Section Properties.
Context {S F : Type} {HR : HasRequest S}.
Context (build : HttpRequest.HttpRequest -> Z -> bytes -> outcome HttpResponse.HttpResponse)
        (iterate : gset bytes -> list bytes).


(** Any other request is handled as without the middleware: same state, same
    response but for two fields.  With an Origin that is allowed, exactly that origin
    is granted; with any Origin the response is marked as varying by it; without one
    nothing is added.  (The handler must leave the request's fields alone: the origin
    is a view of them.) *)
Theorem cors_response (c : CorsState) (next : Next S F) s resp s1 :
  HttpRequest.method_ (get_request s) <> "OPTIONS" -> next s = (Ret resp, s1) ->
  HttpRequest.headers_ (get_request s1) = HttpRequest.headers_ (get_request s) ->
  let origin := HttpRequest.getHeader "Origin" (get_request s) in
  exists resp', CorsMiddleware c next s = (Ret resp', s1) /\ response_status resp' = response_status resp /\
    (origin = [] -> resp' = resp) /\
    forall k, let values r := getHeaders k (response_headers r) in
      values resp' =
        if bool_decide (origin = []) then values resp
        else if toLowerCase k =?b "vary" then values resp ++ [list_ascii_of_string "origin"]
        else if (toLowerCase k =?b "access-control-allow-origin") && isOriginAllowed (allowedOrigins (corsConfig_ c)) origin
        then [origin] else values resp.
Proof.
  intros Ho N Hh origin. unfold CorsMiddleware, gets, mbind, M_bind. cbv beta iota.
  change (HttpRequest.getHeaderLower "origin" (get_request s)) with origin.
  destruct (beqb_spec origin "") as [E|E].
  { exists resp. split_and!; [done|done|done|]. intros k. by rewrite bool_decide_eq_true_2. }
  rewrite (proj2 (beqb_neq _ _) Ho), N, read_view_ok by done. change (HttpRequest.getHeaderLower "origin" (get_request s)) with origin.
  exists (map_headers (cors_headers c origin) resp). split_and!; [done|by destruct resp|done|].
  intros k. rewrite bool_decide_eq_false_2 by done. unfold getHeaders.
  assert (H : response_headers (map_headers (cors_headers c origin) resp) = cors_headers c origin (response_headers resp))
    by (by destruct resp). rewrite H.
  unfold cors_headers. rewrite (proj2 (beqb_neq _ _) E). cbn [negb]. rewrite values_add by reflexivity.
  generalize (toLowerCase k) as key. intros key. rewrite (beqb_sym key "vary"), (beqb_sym key "access-control-allow-origin").
  destruct (isOriginAllowed _ origin); rewrite ?andb_false_r, ?andb_true_r, ?values_set;
    destruct (beqb_spec "vary" key) as [<-|]; rewrite ?app_nil_r; done.
Qed.
End Properties.

Module CorsWitnesses.
Definition conf : CorsConfig :=
  {| allowedOrigins := literals ["https://a.example"; "https://b.example"]; allowedHeaders := literals ["X-Token"];
     allowCredentials := false; maxAge := "600" |}.

Definition guarded : Router (Handler HttpRequest.HttpRequest unit) (Middleware HttpRequest.HttpRequest unit) :=
  use (CorsMiddleware (CorsMiddleware_config conf)) RouterWitnesses.site.

Definition asking (m : bytes) : HttpRequest.HttpRequest :=
  HttpRequest.addHeader "Origin" "https://b.example" (RouterWitnesses.request m "/hello").


Lemma cors_response_witness :
  exists resp', CorsMiddleware (CorsMiddleware_config conf) RouterWitnesses.hello (asking "GET") = (Ret resp', asking "GET") /\
    getHeaders "Vary" (response_headers resp') = [list_ascii_of_string "origin"].
Proof.
  assert (NO : HttpRequest.method_ (get_request (asking "GET")) <> "OPTIONS") by (vm_compute; discriminate).
  destruct (cors_response (CorsMiddleware_config conf) RouterWitnesses.hello (asking "GET")
    (Plain (HttpResponse.HttpResponse_body 200 "hello")) (asking "GET") NO eq_refl eq_refl)
    as (resp' & D & _ & _ & V).
  exists resp'. split; [exact D|]. rewrite (V "Vary"). vm_compute. reflexivity.
Defined.
End CorsWitnesses.
