(* ===== verification/CacheControlMiddleware.v ===== *)
(** Cache control ([http/middleware/CacheControlMiddleware.hpp],
    [CacheControlMiddleware.cpp]): which Cache-Control field a response gets, by
    its status, the path of the request and its media type. *)
From S2P Require Import Prelude Bytes Effects HttpUtils HeaderStore HttpTypes.
From S2P Require HttpRequest HttpResponse.

#[local] Arguments list_ascii_of_string : simpl never.

Record CacheControlConfig := {
  routeCacheControl : fields;
  mimeCacheControl : gmap bytes bytes;
  defaultCacheControl : bytes;
}.

Definition CacheControlConfig_default : CacheControlConfig :=
  {| routeCacheControl := []; mimeCacheControl := ∅; defaultCacheControl := "no-store" |}.

Definition setRouteCacheControl (routePattern cacheControlHeader : bytes) (c : CacheControlConfig) :
    outcome unit * CacheControlConfig :=
  match find_if (has_key routePattern) (routeCacheControl c) with
  | Some _ => (Throw (RuntimeError "Pattern already exists in route cache control"), c)
  | None =>
      (Ret tt, {| routeCacheControl := routeCacheControl c ++ [(routePattern, cacheControlHeader)];
                  mimeCacheControl := mimeCacheControl c; defaultCacheControl := defaultCacheControl c |})
  end.

Definition setMimeCacheControl (mimeType cacheControlHeader : bytes) (c : CacheControlConfig) : CacheControlConfig :=
  {| routeCacheControl := routeCacheControl c;
     mimeCacheControl := <[mimeType := cacheControlHeader]> (mimeCacheControl c);
     defaultCacheControl := defaultCacheControl c |}.

Definition setDefaultCacheControl (cacheControlHeader : bytes) (c : CacheControlConfig) : CacheControlConfig :=
  {| routeCacheControl := routeCacheControl c; mimeCacheControl := mimeCacheControl c;
     defaultCacheControl := cacheControlHeader |}.

(** ** The route patterns *)

(** The loop over the parts of the path; each round goes to the next part. *)
Fixpoint pattern_loop (reqPathParts : list bytes) (pattern : bytes) : bool :=
  match reqPathParts with
  | [] => (pattern =?b "/") || (pattern =?b "")
  | currReqPart :: rest =>
      if pattern =?b "" then false
      else
        let end_ := find_char SLASH pattern in
        let routePart := match end_ with Some i => take i pattern | None => pattern end in
        if routePart =?b "*" then bool_decide (rest = [])
        else if routePart =?b "**" then true
        else if negb (currReqPart =?b routePart) then false
        else
          match end_ with
          | None => match rest with [] => (pattern =?b "/") || (pattern =?b "") | _ => false end
          | Some i => pattern_loop rest (drop (i + 1) pattern)
          end
  end.

(** [pattern\[0\]] of an empty view is undefined. *)
Definition routeMatches (reqPathParts : list bytes) (pattern : bytes) : outcome bool :=
  match pattern with
  | [] => Undef
  | c :: pattern' => Ret (pattern_loop reqPathParts (if Ascii.eqb c SLASH then pattern' else pattern))
  end.

(** [std::find_if] over the vector of patterns. *)
Fixpoint find_route (reqPathParts : list bytes) (routes : fields) : outcome (option bytes) :=
  match routes with
  | [] => Ret None
  | p :: rest =>
      b ← routeMatches reqPathParts p.1;
      if (b : bool) then Ret (Some p.2) else find_route reqPathParts rest
  end.

(** The visitor: the fields of the response, given its status. *)
Definition cache_control (c : CacheControlConfig) (reqPathParts : list bytes) (status : Z) (hs : fields) : outcome fields :=
  if negb (getHeaderLower "cache-control" hs =?b "") then Ret hs
  else if (400 <=? status)%Z then Ret (setCacheControl "no-store" hs)
  else
    routeCache ← find_route reqPathParts (routeCacheControl c);
    match routeCache with
    | Some v => Ret (setCacheControl v hs)
    | None =>
        let mimeType := getHeaderLower "content-type" hs in
        match (if negb (mimeType =?b "") then mimeCacheControl c !! mimeType else None) with
        | Some v => Ret (setCacheControl v hs)
        | None => Ret (setCacheControl (defaultCacheControl c) hs)
        end
    end.

Section Middleware.
Context {S F : Type} {HR : HasRequest S}.

Definition CacheControlMiddleware (c : CacheControlConfig) (next : Next S F) : M S (Response F) :=
  response ← next;
  parts ← gets (fun s => HttpRequest.pathParts_ (get_request s));
  hs ← lift (cache_control c parts (response_status response) (response_headers response));
  mret (map_headers (fun _ => hs) response).
End Middleware.

(** ** Which paths a pattern selects *)
(** A part of a pattern that stands for itself. *)
Definition literal (l : bytes) : Prop := l <> [] /\ (SLASH ∉ l) /\ l <> "*" /\ l <> "**".

(** The pattern of the literal parts [ls], each followed by a slash, then [tail]. *)
Definition pattern_text (ls : list bytes) (tail : bytes) : bytes := concat (map (fun l => l ++ [SLASH]) ls) ++ tail.

Lemma pattern_loop_literal l tail q qs :
  literal l -> pattern_loop (q :: qs) (l ++ SLASH :: tail) = (q =?b l) && pattern_loop qs tail.
Proof.
  intros (Nl & Sl & N1 & N2). cbn [pattern_loop].
  rewrite (proj2 (beqb_neq (l ++ SLASH :: tail) "")) by (by destruct l).
  rewrite find_char_app, take_app_length, drop_app_cons by done.
  rewrite (proj2 (beqb_neq _ _) N1), (proj2 (beqb_neq _ _) N2). by destruct (q =?b l).
Qed.

Lemma pattern_loop_lits ls tail qs :
  Forall literal ls ->
  pattern_loop qs (pattern_text ls tail) = true <-> exists rest, qs = ls ++ rest /\ pattern_loop rest tail = true.
Proof.
  unfold pattern_text. intros H. revert qs. induction H as [|l ls Hl Hls IH]; intros qs; cbn [map concat app].
  - split; [eauto|intros (? & -> & ?); done].
  - rewrite <- !app_assoc. cbn [app]. destruct qs as [|q qs].
    + split; [|by intros (? & ? & ?)]. cbn [pattern_loop]. destruct Hl as (Nl & Sl & _).
      destruct l as [|c l]; [done|]. apply not_elem_of_cons in Sl as [Sc _].
      rewrite orb_true_iff, !beqb_eq. intros [E|E]; [|done]. cbn in E. injection E as E _. by destruct Sc.
    + rewrite (pattern_loop_literal l _ q qs Hl), andb_true_iff, beqb_eq, IH. split.
      * intros (-> & rest & -> & R). by exists rest.
      * intros (rest & [= -> ->] & R). eauto.
Qed.

Lemma pattern_loop_end qs : pattern_loop qs "" = true <-> qs = [].
Proof. by destruct qs. Qed.

Lemma pattern_loop_star qs : pattern_loop qs "*" = true <-> exists q, qs = [q].
Proof.
  destruct qs as [|q qs]; [by split; [|intros [? ?]]|].
  change (pattern_loop (q :: qs) "*") with (bool_decide (qs = [])). rewrite bool_decide_eq_true. naive_solver.
Qed.

Lemma pattern_loop_deep qs : pattern_loop qs "**" = true <-> qs <> [].
Proof. by destruct qs. Qed.

Lemma pattern_loop_last qs l : literal l -> pattern_loop qs l = false.
Proof.
  intros (Nl & Sl & N1 & N2). destruct qs as [|q qs]; cbn [pattern_loop].
  - rewrite (proj2 (beqb_neq l "/")), (proj2 (beqb_neq l "")); [done|done|]. intros ->. apply Sl. by left.
  - rewrite (proj2 (beqb_neq l "") Nl), (proj2 (find_char_None SLASH l) Sl).
    rewrite (proj2 (beqb_neq _ _) N1), (proj2 (beqb_neq _ _) N2). destruct (negb _); [done|]. destruct qs; [|done].
    rewrite orb_false_r. apply beqb_neq. intros ->. apply Sl. by left.
Qed.

Lemma routeMatches_slash qs p : routeMatches qs (SLASH :: p) = Ret (pattern_loop qs p).
Proof. reflexivity. Qed.

(** Which paths a route pattern selects, for any literal parts: with a trailing
    slash exactly the path written; with a final "*" the paths with one more part; with
    a final "**" those with at least one more; and without any of these no path at
    all, not even the one written. *)
Theorem cache_patterns (ls : list bytes) (l : bytes) (qs : list bytes) :
  Forall literal ls -> literal l ->
  (routeMatches qs (SLASH :: pattern_text ls []) = Ret true <-> qs = ls) /\
  (routeMatches qs (SLASH :: pattern_text ls "*") = Ret true <-> exists q, qs = ls ++ [q]) /\
  (routeMatches qs (SLASH :: pattern_text ls "**") = Ret true <-> exists q rest, qs = ls ++ q :: rest) /\
  routeMatches qs (SLASH :: pattern_text ls l) = Ret false.
Proof.
  intros Hls Hl. rewrite !routeMatches_slash.
  assert (R : forall b : bool, Ret b = Ret true <-> b = true) by (intros b; split; congruence).
  rewrite !R, !pattern_loop_lits by done. split_and!.
  - split; [intros (rest & -> & ->%pattern_loop_end); by rewrite app_nil_r|intros ->; exists []; by rewrite app_nil_r].
  - split; [intros (rest & -> & [q ->]%pattern_loop_star); eauto|intros [q ->]; exists [q]; split; [done|by apply pattern_loop_star; exists q]].
  - split; [|intros (q & rest & ->); by exists (q :: rest)].
    intros (rest & -> & D%pattern_loop_deep). destruct rest as [|q rest]; [done|]. eauto.
  - f_equal. destruct (pattern_loop qs (pattern_text ls l)) eqn:E; [|done].
    apply pattern_loop_lits in E as (rest & _ & E); [|done]. by rewrite pattern_loop_last in E.
Qed.

(** ** The decision *)

(** The rules, in the order in which they apply. *)
Inductive governs (c : CacheControlConfig) (parts : list bytes) (status : Z) (hs : fields) : bytes -> Prop :=
| by_handler : getHeaderLower "cache-control" hs <> [] ->
    governs c parts status hs (getHeaderLower "cache-control" hs)
| by_error : getHeaderLower "cache-control" hs = [] -> (400 <= status)%Z -> governs c parts status hs "no-store"
| by_route before p v after : getHeaderLower "cache-control" hs = [] -> (status < 400)%Z ->
    routeCacheControl c = before ++ (p, v) :: after -> routeMatches parts p = Ret true ->
    Forall (fun b => routeMatches parts b.1 = Ret false) before ->
    governs c parts status hs v
| by_type v : getHeaderLower "cache-control" hs = [] -> (status < 400)%Z ->
    Forall (fun b => routeMatches parts b.1 = Ret false) (routeCacheControl c) ->
    getHeaderLower "content-type" hs <> [] -> mimeCacheControl c !! getHeaderLower "content-type" hs = Some v ->
    governs c parts status hs v
| by_default : getHeaderLower "cache-control" hs = [] -> (status < 400)%Z ->
    Forall (fun b => routeMatches parts b.1 = Ret false) (routeCacheControl c) ->
    getHeaderLower "content-type" hs = [] \/ mimeCacheControl c !! getHeaderLower "content-type" hs = None ->
    governs c parts status hs (defaultCacheControl c).

Lemma find_route_spec parts routes :
  Forall (fun p => p.1 <> []) routes ->
  (exists before p v after, routes = before ++ (p, v) :: after /\ routeMatches parts p = Ret true /\
     Forall (fun b => routeMatches parts b.1 = Ret false) before /\ find_route parts routes = Ret (Some v)) \/
  (Forall (fun b => routeMatches parts b.1 = Ret false) routes /\ find_route parts routes = Ret None).
Proof.
  induction 1 as [|[p v] routes Hp Hr IH]; [by right|]. cbn [find_route fst snd] in *.
  destruct (routeMatches parts p) as [b| |] eqn:E; [|by destruct p|by destruct p].
  cbn [mbind outcome_bind]. destruct b; [left; by exists [], p, v, routes|].
  destruct IH as [(bf & p' & v' & af & -> & ? & ? & ->)|[? ->]].
  - left. exists ((p, v) :: bf), p', v', af. split_and!; [done|done|by constructor|done].
  - right. split; [by constructor|done].
Qed.

Lemma value_setCacheControl v hs : getHeaderLower "cache-control" (setCacheControl v hs) = v.
Proof.
  unfold getHeaderLower, getLastOrDefault, setCacheControl, setHeaderLower. by rewrite assoc_last_set, beqb_refl.
Qed.

Lemma cache_control_governs c parts status hs :
  Forall (fun p => p.1 <> []) (routeCacheControl c) ->
  exists hs', cache_control c parts status hs = Ret hs' /\
    governs c parts status hs (getHeaderLower "cache-control" hs') /\
    (hs' = hs \/ exists v, hs' = setCacheControl v hs).
Proof.
  intros Hr. unfold cache_control. destruct (beqb_spec (getHeaderLower "cache-control" hs) "") as [E|E]; cbn [negb].
  2: { exists hs. split; [done|]. split; [by constructor|by left]. }
  assert (K : forall v, governs c parts status hs v -> exists hs', Ret (setCacheControl v hs) = Ret hs' /\
    governs c parts status hs (getHeaderLower "cache-control" hs') /\ (hs' = hs \/ exists v, hs' = setCacheControl v hs)).
  { intros v G. eexists. split; [done|]. rewrite value_setCacheControl. eauto. }
  destruct (Z.leb_spec 400 status) as [L|L]; [apply K; by constructor|].
  destruct (find_route_spec parts (routeCacheControl c) Hr) as [(bf & p & v & af & Er & Hm & Hb & ->)|[Hn ->]]; cbn [mbind outcome_bind].
  { apply K. by eapply by_route. }
  destruct (beqb_spec (getHeaderLower "content-type" hs) "") as [T|T]; cbn [negb].
  { apply K. apply by_default; auto. }
  destruct (mimeCacheControl c !! getHeaderLower "content-type" hs) as [v|] eqn:V; apply K; [by apply by_type|].
  apply by_default; auto.
Qed.

(** ** Properties *)
Section Properties.
Context {S F : Type} {HR : HasRequest S}.

(** The middleware implements its rules: whatever the handler returned, the
    response leaves with the Cache-Control value the rules assign to it (the handler's
    own, "no-store" for errors, the first matching pattern, the media type, the
    default), its status and every other field as the handler left them, and no
    exception is added. *)
Theorem cache_control_refines (c : CacheControlConfig) (next : Next S F) s resp s1 :
  Forall (fun p => p.1 <> []) (routeCacheControl c) -> next s = (Ret resp, s1) ->
  exists resp', CacheControlMiddleware c next s = (Ret resp', s1) /\
    response_status resp' = response_status resp /\
    governs c (HttpRequest.pathParts_ (get_request s1)) (response_status resp) (response_headers resp)
      (getHeader "Cache-Control" (response_headers resp')) /\
    forall k, toLowerCase k <> "cache-control" ->
      getHeaders k (response_headers resp') = getHeaders k (response_headers resp).
Proof.
  intros Hr N. unfold CacheControlMiddleware, gets, lift, mbind, M_bind. rewrite N. cbv beta iota.
  destruct (cache_control_governs c (HttpRequest.pathParts_ (get_request s1)) (response_status resp) (response_headers resp) Hr)
    as (hs' & -> & G & U).
  exists (map_headers (fun _ => hs') resp). split; [done|].
  assert (E : response_headers (map_headers (fun _ => hs') resp) = hs') by (by destruct resp). rewrite E.
  split; [by destruct resp|]. split; [exact G|]. intros k Hk.
  destruct U as [->|[v ->]]; [done|]. unfold getHeaders, setCacheControl, setHeaderLower, set_field.
  rewrite getAllValues_app, getAllValues_single, (proj2 (beqb_neq _ _)) by congruence.
  by rewrite getAllValues_erase_ne, app_nil_r by done.
Qed.
End Properties.

(** The setters keep what the middleware needs: no pattern twice. *)
Lemma setRouteCacheControl_nodup p v c :
  NoDup (routeCacheControl c).*1 -> NoDup (routeCacheControl (setRouteCacheControl p v c).2).*1.
Proof.
  intros H. unfold setRouteCacheControl. destruct (find_if _ _) as [i|] eqn:E; [done|]. cbn [snd routeCacheControl].
  rewrite fmap_app. apply NoDup_app. split_and!; [done| |by apply NoDup_singleton].
  intros x Hx [->|Hn]%elem_of_cons; [|by inversion Hn]. by apply find_key_None in E.
Qed.

Module CacheControlWitnesses.
Definition conf : CacheControlConfig :=
  setMimeCacheControl "text/css" "max-age=60"
    (setRouteCacheControl "/assets/**" "max-age=3600"
      (setRouteCacheControl "/assets/logo/" "immutable" CacheControlConfig_default).2).2.

Definition page : Next HttpRequest.HttpRequest unit := mret (Plain (HttpResponse.HttpResponse_typed 200 "text/css" "x")).

Definition asking (p : bytes) : HttpRequest.HttpRequest :=
  HttpRequest.parsePathAndQueryParams p (HttpRequest.fresh [] 0).

Lemma cache_patterns_witness :
  routeMatches (literals ["assets"; "img"; "a.png"]) "/assets/**" = Ret true /\
  routeMatches (literals ["assets"; "logo"]) "/assets/logo" = Ret false.
Proof.
  assert (L : forall s : string, bool_decide (list_ascii_of_string s <> []) && bool_decide (SLASH ∉ list_ascii_of_string s) &&
    bool_decide (list_ascii_of_string s <> "*") && bool_decide (list_ascii_of_string s <> "**") = true -> literal s).
  { intros s [[[A B]%andb_true_iff C]%andb_true_iff D]%andb_true_iff. by split_and!; eapply bool_decide_eq_true_1. }
  assert (H : Forall literal (literals ["assets"])) by (repeat constructor; apply L; reflexivity).
  destruct (cache_patterns _ "logo" (literals ["assets"; "img"; "a.png"]) H ltac:(apply L; reflexivity)) as (_ & _ & D & _).
  destruct (cache_patterns _ "logo" (literals ["assets"; "logo"]) H ltac:(apply L; reflexivity)) as (_ & _ & _ & E).
  split; [exact (proj2 D (ex_intro _ _ (ex_intro _ _ eq_refl)))|exact E].
Defined.

Lemma cache_control_refines_witness :
  exists resp', CacheControlMiddleware conf page (asking "/assets/logo") = (Ret resp', asking "/assets/logo") /\
    governs conf (literals ["assets"; "logo"]) 200 (HttpResponse.headers (HttpResponse.HttpResponse_typed 200 "text/css" "x"))
      (getHeader "Cache-Control" (response_headers resp')).
Proof.
  destruct (cache_control_refines conf page (asking "/assets/logo") _ _
    ltac:(vm_compute; repeat constructor; discriminate) eq_refl) as (resp' & D & _ & G & _).
  exists resp'. split; [exact D|exact G].
Defined.
End CacheControlWitnesses.
