(* ===== verification/HttpDate.v ===== *)
(** Dates of HTTP ([http/httpUtils.hpp]: [toHttpDate], [parseHttpDate], [getCurrentHttpDate]).  The calendar
    ([gmtime_r], [timegm]) and the directives of [strftime] and [std::get_time] that
    the format uses are those of the C locale. *)
From S2P Require Import Prelude Bytes HttpUtils.

#[local] Arguments list_ascii_of_string : simpl never.
#[local] Open Scope Z_scope.

(** ** The calendar: seconds since 1970 and civil dates *)
Record tm := { tm_year : Z; tm_mon : Z; tm_mday : Z; tm_hour : Z; tm_min : Z; tm_sec : Z; tm_wday : Z }.

(** Days since 1970-01-01 of a date; [tm_mon] counts from 0.  The year is taken to
    begin in March, so that leap days come last. *)
Definition days_from_civil (y mon d : Z) : Z :=
  let y := if mon <? 2 then y - 1 else y in
  let era := y / 400 in
  let yoe := y mod 400 in
  let doy := (153 * ((mon + 10) mod 12) + 2) / 5 + d - 1 in
  era * 146097 + (yoe * 365 + yoe / 4 - yoe / 100 + doy) - 719468.

Definition civil_from_days (z : Z) : Z * Z * Z :=
  let z := z + 719468 in
  let era := z / 146097 in
  let doe := z mod 146097 in
  let yoe := (doe - doe / 1460 + doe / 36524 - doe / 146096) / 365 in
  let doy := doe - (365 * yoe + yoe / 4 - yoe / 100) in
  let mp := (5 * doy + 2) / 153 in
  let d := doy - (153 * mp + 2) / 5 + 1 in
  let mon := (mp + 2) mod 12 in
  (yoe + era * 400 + (if mon <? 2 then 1 else 0), mon, d).

Definition gmtime (t : Z) : tm :=
  let days := t / 86400 in
  let s := t mod 86400 in
  let '(y, mon, d) := civil_from_days days in
  {| tm_year := y; tm_mon := mon; tm_mday := d; tm_hour := s / 3600; tm_min := s / 60 mod 60; tm_sec := s mod 60;
     tm_wday := (days + 4) mod 7 |}.

Definition timegm (t : tm) : Z :=
  days_from_civil (tm_year t) (tm_mon t) (tm_mday t) * 86400 + tm_hour t * 3600 + tm_min t * 60 + tm_sec t.

(** ** "%a, %d %b %Y %H:%M:%S GMT" *)
Definition day_names : list bytes :=
  literals ["Sunday"; "Monday"; "Tuesday"; "Wednesday"; "Thursday"; "Friday"; "Saturday"].
Definition month_names : list bytes :=
  literals ["January"; "February"; "March"; "April"; "May"; "June"; "July"; "August"; "September"; "October";
            "November"; "December"].

Definition abbreviated (names : list bytes) (i : Z) : bytes := take 3 (nth (Z.to_nat i) names []).
Definition two_digits (n : Z) : bytes := [digit_char (n / 10); digit_char (n mod 10)].

Definition toHttpDate (t : Z) : bytes :=
  let tm := gmtime t in
  abbreviated day_names (tm_wday tm) ++ ", " ++ two_digits (tm_mday tm) ++ " " ++ abbreviated month_names (tm_mon tm) ++ " " ++
  to_string (tm_year tm) ++ " " ++ two_digits (tm_hour tm) ++ ":" ++ two_digits (tm_min tm) ++ ":" ++
  two_digits (tm_sec tm) ++ " GMT".

(** ** [std::get_time]: a scanner is a function on the input that is left *)
Abbreviation scan A := (bytes -> option (A * bytes)).

Definition same_letter (a b : ascii) : bool := Ascii.eqb (tolower a) (tolower b).

(** White space in the format stands for any amount of white space. *)
Definition scan_space : scan unit := fun s => Some (tt, drop_while isspace s).

Definition scan_text (p : bytes) : scan unit := fun s =>
  if prefixb_by same_letter p s then Some (tt, drop (length p) s) else None.

(** Up to [len] digits, at least one, within the bounds of the field. *)
Fixpoint digits_upto (len : nat) (s : bytes) : bytes :=
  match len, s with
  | S len, c :: s => if isdigit c then c :: digits_upto len s else []
  | _, _ => []
  end.

Definition scan_num (len : nat) (lo hi : Z) : scan Z := fun s =>
  let ds := digits_upto len s in
  match from_chars 10 ds with
  | Some v => if (lo <=? v) && (v <=? hi) then Some (v, drop (length ds) s) else None
  | None => None
  end.

(** A name, in full or abbreviated, in any case. *)
Fixpoint scan_name (names : list bytes) (i : Z) : scan Z := fun s =>
  match names with
  | [] => None
  | n :: rest =>
      if prefixb_by same_letter n s then Some (i, drop (length n) s)
      else if prefixb_by same_letter (take 3 n) s then Some (i, drop 3 s)
      else scan_name rest (i + 1) s
  end.

Definition get_time : scan tm := fun s =>
  '(wday, s) ← scan_name day_names 0 s; '(_, s) ← scan_text "," s; '(_, s) ← scan_space s;
  '(mday, s) ← scan_num 2 1 31 s; '(_, s) ← scan_space s;
  '(mon, s) ← scan_name month_names 0 s; '(_, s) ← scan_space s;
  '(year, s) ← scan_num 4 0 9999 s; '(_, s) ← scan_space s;
  '(hour, s) ← scan_num 2 0 23 s; '(_, s) ← scan_text ":" s;
  '(minute, s) ← scan_num 2 0 59 s; '(_, s) ← scan_text ":" s;
  '(sec, s) ← scan_num 2 0 60 s; '(_, s) ← scan_space s; '(_, s) ← scan_text "GMT" s;
  Some ({| tm_year := year; tm_mon := mon; tm_mday := mday; tm_hour := hour; tm_min := minute; tm_sec := sec;
           tm_wday := wday |}, s).

(** [operator>>] skips leading white space; what follows the date is not read. *)
Definition parseHttpDate (date : bytes) : option Z :=
  match get_time (drop_while isspace date) with
  | Some (tm, _) => Some (timegm tm)
  | None => None
  end.

Example date_example : toHttpDate 1735732800 = "Wed, 01 Jan 2025 12:00:00 GMT" /\
  parseHttpDate "Wed, 01 Jan 2025 12:00:00 GMT" = Some 1735732800.
Proof. split; vm_compute; reflexivity. Qed.

(** ** The calendar is inverted *)

Lemma year_of_era doe :
  0 <= doe < 146097 ->
  let yoe := (doe - doe / 1460 + doe / 36524 - doe / 146096) / 365 in
  0 <= yoe < 400 /\ 0 <= doe - (365 * yoe + yoe / 4 - yoe / 100) <= 365.
Proof. intros H yoe. subst yoe. Z.to_euclidean_division_equations. lia. Qed.

Lemma month_of_year doy :
  0 <= doy <= 365 ->
  let mp := (5 * doy + 2) / 153 in
  let mon := (mp + 2) mod 12 in
  (mon + 10) mod 12 = mp /\ 1 <= doy - (153 * mp + 2) / 5 + 1 <= 31 /\ (mon < 2 -> 306 <= doy).
Proof. intros H mp mon. subst mon mp. Z.to_euclidean_division_equations. lia. Qed.

Definition upto (n : nat) : list Z := map Z.of_nat (seq 0 n).

Lemma forallb_upto (p : Z -> bool) n z : forallb p (upto n) = true -> 0 <= z < Z.of_nat n -> p z = true.
Proof.
  intros H Hz. apply (proj1 (forallb_forall _ _) H). apply in_map_iff. exists (Z.to_nat z).
  split; [lia|]. apply in_seq. lia.
Qed.

Lemma civil_inverse z :
  let '(y, mon, d) := civil_from_days z in
  days_from_civil y mon d = z /\ 0 <= mon < 12 /\ 1 <= d <= 31 /\ (0 <= z < 2932897 -> 0 <= y <= 9999).
Proof.
  unfold civil_from_days. set (era := (z + 719468) / 146097). set (doe := (z + 719468) mod 146097).
  assert (B : 0 <= doe < 146097) by (apply Z.mod_pos_bound; lia).
  assert (D : z + 719468 = 146097 * era + doe) by (apply Z.div_mod; lia).
  destruct (year_of_era doe B) as [Y D2]. cbv zeta.
  set (yoe := (doe - doe / 1460 + doe / 36524 - doe / 146096) / 365) in *. clearbody yoe.
  set (doy := doe - (365 * yoe + yoe / 4 - yoe / 100)) in *.
  destruct (month_of_year doy D2) as (M & D3 & J).
  set (mp := (5 * doy + 2) / 153) in *. set (d := doy - (153 * mp + 2) / 5 + 1) in *.
  pose proof (Z.mod_pos_bound (mp + 2) 12 ltac:(lia)) as Mb. set (mon := (mp + 2) mod 12) in *. clearbody mon.
  unfold days_from_civil. assert (E : (if mon <? 2 then yoe + era * 400 + (if mon <? 2 then 1 else 0) - 1
    else yoe + era * 400 + (if mon <? 2 then 1 else 0)) = yoe + era * 400) by (destruct (mon <? 2); lia).
  cbv zeta. rewrite E, M, Z.div_add, Z.mod_add, (Z.div_small yoe), (Z.mod_small yoe) by lia.
  assert (doy = doe - (365 * yoe + yoe / 4 - yoe / 100)) by done.
  assert (d = doy - (153 * mp + 2) / 5 + 1) by done. clearbody doy d mp.
  split_and!; [lia..|]. intros Hz. destruct (Z.ltb_spec mon 2); Z.to_euclidean_division_equations; lia.
Qed.

Lemma timegm_gmtime t : timegm (gmtime t) = t.
Proof.
  unfold gmtime. pose proof (civil_inverse (t / 86400)) as C. destruct (civil_from_days (t / 86400)) as [[y mon] d].
  destruct C as [C _]. unfold timegm. cbn [tm_year tm_mon tm_mday tm_hour tm_min tm_sec]. rewrite C.
  pose proof (Z.div_mod t 86400 ltac:(lia)). pose proof (Z.div_mod (t mod 86400) 60 ltac:(lia)).
  pose proof (Z.div_mod (t mod 86400 / 60) 60 ltac:(lia)) as H1. rewrite Z.div_div in H1 by lia.
  change (60 * 60) with 3600 in H1. lia.
Qed.

Record in_range (tm : tm) : Prop := {
  mon_range : 0 <= tm_mon tm < 12;
  mday_range : 1 <= tm_mday tm <= 31;
  hour_range : 0 <= tm_hour tm <= 23;
  min_range : 0 <= tm_min tm <= 59;
  sec_range : 0 <= tm_sec tm <= 60;
  wday_range : 0 <= tm_wday tm < 7;
}.

Lemma gmtime_range t : in_range (gmtime t).
Proof.
  unfold gmtime. pose proof (civil_inverse (t / 86400)) as C. destruct (civil_from_days (t / 86400)) as [[y mon] d].
  pose proof (Z.mod_pos_bound t 86400 ltac:(lia)) as S.
  split; cbn [tm_mon tm_mday tm_hour tm_min tm_sec tm_wday].
  - lia.
  - lia.
  - pose proof (Z.div_lt_upper_bound (t mod 86400) 3600 24). pose proof (Z.div_pos (t mod 86400) 3600). lia.
  - pose proof (Z.mod_pos_bound (t mod 86400 / 60) 60). lia.
  - pose proof (Z.mod_pos_bound (t mod 86400) 60). lia.
  - apply Z.mod_pos_bound. lia.
Qed.

(** ** Scanning what was printed *)
Lemma two_digits_scan n : 0 <= n < 100 ->
  from_chars 10 (two_digits n) = Some n /\ forallb isdigit (two_digits n) = true.
Proof.
  intros H. assert (C : forallb (fun n => bool_decide (from_chars 10 (two_digits n) = Some n) && forallb isdigit (two_digits n))
    (upto 100) = true) by (vm_compute; reflexivity).
  pose proof (forallb_upto _ 100 n C H) as K. cbv beta in K.
  apply andb_true_iff in K as [K1 K2]. split; [by apply bool_decide_eq_true_1 in K1|done].
Qed.

Lemma scan_two n lo hi rest :
  0 <= n < 100 -> lo <= n <= hi -> scan_num 2 lo hi (two_digits n ++ rest) = Some (n, rest).
Proof.
  intros H L. destruct (two_digits_scan n H) as [F D]. unfold scan_num.
  assert (E : digits_upto 2 (two_digits n ++ rest) = two_digits n).
  { cbn [forallb two_digits] in D. apply andb_true_iff in D as [D1 D2]. rewrite andb_true_r in D2.
    unfold two_digits. cbn [app digits_upto]. by rewrite D1, D2. }
  rewrite E, F, (proj2 (Z.leb_le lo n)), (proj2 (Z.leb_le n hi)) by lia. done.
Qed.

Lemma digits_upto_all len ds c rest :
  forallb isdigit ds = true -> (length ds <= len)%nat -> isdigit c = false -> digits_upto len (ds ++ c :: rest) = ds.
Proof.
  intros D. revert len. induction ds as [|d ds IH]; intros len L C; cbn [app].
  - destruct len; cbn; [done|by rewrite C].
  - cbn [forallb] in D. apply andb_true_iff in D as [Dd D]. cbn [length] in L. destruct len as [|len]; [lia|].
    cbn [digits_upto]. rewrite Dd, IH by (done || lia). done.
Qed.

Lemma year_length y : 0 <= y <= 9999 -> (length (to_chars 10 y) <= 4)%nat.
Proof.
  intros H. assert (C : forallb (fun a => forallb (fun b => length (to_chars 10 (a * 100 + b)) <=? 4)%nat (upto 100)) (upto 100) = true)
    by (vm_compute; reflexivity).
  pose proof (forallb_upto _ 100 (y / 100) C ltac:(split; [apply Z.div_pos; lia|apply Z.div_lt_upper_bound; lia])) as C1.
  cbv beta in C1. pose proof (forallb_upto _ 100 (y mod 100) C1 (Z.mod_pos_bound y 100 ltac:(lia))) as C2. cbv beta in C2.
  replace (y / 100 * 100 + y mod 100) with y in C2 by (pose proof (Z.div_mod y 100); lia). by apply Nat.leb_le.
Qed.

Lemma scan_year y rest :
  0 <= y <= 9999 -> scan_num 4 0 9999 (to_string y ++ (" " ++ rest)%list) = Some (y, (" " ++ rest)%list).
Proof.
  intros H. change (" " ++ rest)%list with (SP :: rest). unfold to_string. rewrite (proj2 (Z.ltb_ge y 0)) by lia. unfold scan_num.
  rewrite digits_upto_all by (auto using year_length, to_chars_decimal with lia; by apply to_chars_decimal; lia).
  rewrite from_chars_to_chars by (unfold is_u64, two64; lia).
  rewrite (proj2 (Z.leb_le 0 y)), (proj2 (Z.leb_le y 9999)), drop_app_length by lia. done.
Qed.

Lemma scan_day d rest : 0 <= d < 7 ->
  scan_name day_names 0 (abbreviated day_names d ++ ("," ++ rest)%list) = Some (d, ("," ++ rest)%list).
Proof.
  intros H. assert (E : d = 0 \/ d = 1 \/ d = 2 \/ d = 3 \/ d = 4 \/ d = 5 \/ d = 6) by lia.
  by repeat destruct E as [->|E]; [reflexivity..|subst].
Qed.

Lemma scan_month m rest : 0 <= m < 12 ->
  scan_name month_names 0 (abbreviated month_names m ++ (" " ++ rest)%list) = Some (m, (" " ++ rest)%list).
Proof.
  intros H.
  assert (E : m = 0 \/ m = 1 \/ m = 2 \/ m = 3 \/ m = 4 \/ m = 5 \/ m = 6 \/ m = 7 \/ m = 8 \/ m = 9 \/ m = 10 \/ m = 11) by lia.
  by repeat destruct E as [->|E]; [reflexivity..|subst].
Qed.

Lemma scan_blank s : (forall c r, s = c :: r -> isspace c = false) -> scan_space (" " ++ s)%list = Some (tt, s).
Proof. intros H. change (" " ++ s)%list with (SP :: s). unfold scan_space. destruct s as [|c r]; [done|]. cbn. by rewrite (H c r). Qed.

Lemma digit_not_space c : isdigit c = true -> isspace c = false.
Proof. unfold isdigit, isspace. lia. Qed.

Lemma digits_not_space ds x :
  forallb isdigit ds = true -> ds <> [] -> forall c r, ds ++ x = c :: r -> isspace c = false.
Proof. intros D N c r E. destruct ds as [|d ds]; [done|]. injection E as <- _. apply digit_not_space. by apply andb_true_iff in D as [? _]. Qed.

Lemma blank_two n x : 0 <= n < 100 -> scan_space (" " ++ two_digits n ++ x)%list = Some (tt, two_digits n ++ x).
Proof. intros H. apply scan_blank, digits_not_space; [by apply two_digits_scan|done]. Qed.

Lemma blank_year y x : 0 <= y <= 9999 -> scan_space (" " ++ to_string y ++ x)%list = Some (tt, to_string y ++ x).
Proof.
  intros H. unfold to_string. rewrite (proj2 (Z.ltb_ge y 0)) by lia. apply scan_blank, digits_not_space; [apply to_chars_decimal; lia|].
  intros E. assert (R := from_chars_to_chars 10 y ltac:(lia) ltac:(unfold is_u64, two64; lia)). by rewrite E in R.
Qed.

Lemma blank_month m x : 0 <= m < 12 ->
  scan_space (" " ++ abbreviated month_names m ++ x)%list = Some (tt, abbreviated month_names m ++ x).
Proof.
  intros H. apply scan_blank. intros c r.
  assert (E : m = 0 \/ m = 1 \/ m = 2 \/ m = 3 \/ m = 4 \/ m = 5 \/ m = 6 \/ m = 7 \/ m = 8 \/ m = 9 \/ m = 10 \/ m = 11) by lia.
  repeat destruct E as [->|E]; try subst m; intros [= <- _]; reflexivity.
Qed.

Lemma scan_literal p rest : scan_text p (p ++ rest) = Some (tt, rest).
Proof.
  unfold scan_text. assert (E : prefixb_by same_letter p (p ++ rest) = true).
  { induction p as [|c p IH]; [done|]. cbn [app prefixb_by]. rewrite IH, andb_true_r. unfold same_letter. apply Ascii.eqb_refl. }
  by rewrite E, drop_app_length.
Qed.

Lemma get_time_print t : 0 <= tm_year (gmtime t) <= 9999 -> get_time (toHttpDate t) = Some (gmtime t, []).
Proof.
  intros Y. pose proof (gmtime_range t) as [M D H Mi S W]. unfold toHttpDate, get_time.
  set (tm := gmtime t) in *. clearbody tm.
  change (list_ascii_of_string ", ") with (("," : bytes) ++ (" " : bytes)).
  change (list_ascii_of_string " GMT") with ((" " : bytes) ++ ("GMT" : bytes)).
  rewrite <- !app_assoc, scan_day by lia. cbn [mbind option_bind].
  rewrite scan_literal. cbn [mbind option_bind]. rewrite blank_two by lia. cbn [mbind option_bind].
  rewrite scan_two by lia. cbn [mbind option_bind]. rewrite blank_month by lia. cbn [mbind option_bind].
  rewrite scan_month by lia. cbn [mbind option_bind]. rewrite blank_year by lia. cbn [mbind option_bind].
  rewrite scan_year by lia. cbn [mbind option_bind].
  rewrite blank_two by lia. cbn [mbind option_bind]. rewrite scan_two by lia. cbn [mbind option_bind].
  rewrite scan_literal. cbn [mbind option_bind]. rewrite scan_two by lia. cbn [mbind option_bind].
  rewrite scan_literal. cbn [mbind option_bind]. rewrite scan_two by lia. cbn [mbind option_bind].
  by destruct tm.
Qed.

Lemma parse_printed t : 0 <= t < 253402300800 -> parseHttpDate (toHttpDate t) = Some t.
Proof.
  intros H. assert (Y : 0 <= tm_year (gmtime t) <= 9999).
  { unfold gmtime. pose proof (civil_inverse (t / 86400)) as C. destruct (civil_from_days (t / 86400)) as [[y mon] d].
    cbn [tm_year]. apply C. split; [apply Z.div_pos; lia|apply Z.div_lt_upper_bound; lia]. }
  unfold parseHttpDate. rewrite drop_while_id; [by rewrite get_time_print, timegm_gmtime|].
  pose proof (wday_range _ (gmtime_range t)) as W. unfold toHttpDate. set (tm_wday (gmtime t)) as w in *. clearbody w.
  assert (E : w = 0 \/ w = 1 \/ w = 2 \/ w = 3 \/ w = 4 \/ w = 5 \/ w = 6) by lia.
  repeat destruct E as [->|E]; try subst w; reflexivity.
Qed.

(** Every date from 1970 to 9999 that the server prints (Date, Last-Modified,
    Expires) is read back to the same second, also behind white space, so that a client
    that repeats a date it was given is understood: the calendar and the text are
    inverted. *)
Theorem date_roundtrip t blanks :
  0 <= t < 253402300800 -> forallb isspace blanks = true -> parseHttpDate (blanks ++ toHttpDate t) = Some t.
Proof.
  intros H B. rewrite <- (parse_printed t H). unfold parseHttpDate.
  assert (E : drop_while isspace (blanks ++ toHttpDate t) = drop_while isspace (toHttpDate t)); [|by rewrite E].
  induction blanks as [|c l IH]; [done|]. apply andb_true_iff in B as [Bc B]. cbn [app drop_while]. rewrite Bc. by apply IH.
Qed.

Lemma date_roundtrip_witness : parseHttpDate (" " ++ toHttpDate 951782400)%list = Some 951782400 /\ tm_mday (gmtime 951782400) = 29.
Proof. split; [apply (date_roundtrip 951782400 " "); [lia|reflexivity]|vm_compute; reflexivity]. Defined.

(** ** The date of now, printed once a second ([getCurrentHttpDate]) *)

(** The thread's [cached] and [lastTime]. *)
Record CurrentDate := { cached : bytes; lastTime : Z }.
Definition CurrentDate_new : CurrentDate := {| cached := []; lastTime := 0 |}.

(** [sec] is what the clock says. *)
Definition getCurrentHttpDate (sec : Z) (c : CurrentDate) : bytes * CurrentDate :=
  let c := if negb (sec =? lastTime c) then {| cached := toHttpDate sec; lastTime := sec |} else c in (cached c, c).

(** The answers for a sequence of readings of the clock. *)
Fixpoint current_dates (secs : list Z) (c : CurrentDate) : list bytes :=
  match secs with
  | [] => []
  | sec :: secs => let '(d, c) := getCurrentHttpDate sec c in d :: current_dates secs c
  end.

(** Keeping the text makes no difference, however the clock is set, forward or back:
    each answer is the date of its reading; but in the first second of 1970 a thread
    that has printed none yet answers nothing. *)
Theorem current_dates_exact secs : Forall (fun sec => sec <> 0) secs -> current_dates secs CurrentDate_new = map toHttpDate secs.
Proof.
  assert (forall c, lastTime c = 0 \/ cached c = toHttpDate (lastTime c) -> Forall (fun sec => sec <> 0) secs -> current_dates secs c = map toHttpDate secs) as H;
    [|intros Hs; apply H; [by left|done]].
  induction secs as [|sec secs IH]; intros c Hc Hs; [done|]. apply Forall_cons in Hs as [Hn Hs]. cbn [current_dates getCurrentHttpDate map].
  destruct (Z.eqb_spec sec (lastTime c)) as [->|]; cbn [negb cached]; (rewrite IH; [|by right|done]) || (rewrite IH; [|done|done]).
  - destruct Hc as [Hc|Hc]; [done|]. by rewrite Hc.
  - done.
Qed.

Example no_date : (getCurrentHttpDate 0 CurrentDate_new).1 = [].
Proof. done. Qed.
