(* ===== verification/Compression.v ===== *)
(** Content codings ([http/compression]): the interface of a compressor
    ([ICompressor.hpp]), the factory ([CompressorFactory.hpp]) and the list of
    compressible media types ([CompressibleMimeTypes.hpp]); and the streams of
    response blocks, some of which are compressed on the way. *)
From S2P Require Import Prelude Bytes Effects.

#[local] Arguments list_ascii_of_string : simpl never.

Definition compressibleMimeTypes : list bytes := literals [
    "text/html"; "text/css"; "text/plain"; "text/csv"; "text/xml"; "text/yaml"; "text/markdown";
    "application/javascript"; "application/x-javascript";
    "application/json"; "application/ld+json"; "application/manifest+json";
    "application/xml"; "application/xhtml+xml"; "application/rss+xml"; "application/atom+xml";
    "image/svg+xml"; "application/wasm"; "font/ttf"; "font/otf"; "application/vnd.ms-fontobject"].

(** [std::find(begin, end, mime) != end] *)
Definition compressible (mime : bytes) : bool := existsb (beqb mime) compressibleMimeTypes.

(** [ICompressor], over the state [C] of a compressor. *)
Class ICompressor (C : Type) := {
  compress : bytes -> M C bytes;
  feedChunk : bytes -> M C bytes;
  finish : M C bytes;
  getEncoding : C -> bytes;
}.

(** Its implementations: the constructors of [BrotliCompressor] and [GzipCompressor]. *)
Class Compressors (C : Type) := {
  new_brotli : outcome C;
  new_gzip : Z -> outcome C;
}.

(** What users rely on: [fed c i o] says that [c] was new, was fed [i] and has given
    [o]; the output is complete when it is finished, and decodes to the input. *)
Class CompressorLaws (C : Type) `{ICompressor C, !Compressors C} := {
  decode : bytes -> bytes -> option bytes;
  fed : C -> bytes -> bytes -> Prop;
  new_brotli_ok : exists c, new_brotli = Ret c /\ fed c [] [] /\ getEncoding c = "br";
  new_gzip_ok level : exists c, new_gzip level = Ret c /\ fed c [] [] /\ getEncoding c = "gzip";
  compress_ok c b : fed c [] [] ->
    exists o c', compress b c = (Ret o, c') /\ getEncoding c' = getEncoding c /\ decode (getEncoding c) o = Some b;
  feed_ok c i o b : fed c i o ->
    exists x c', feedChunk b c = (Ret x, c') /\ getEncoding c' = getEncoding c /\ fed c' (i ++ b) (o ++ x);
  finish_ok c i o : fed c i o ->
    exists x c', finish c = (Ret x, c') /\ getEncoding c' = getEncoding c /\ decode (getEncoding c) (o ++ x) = Some i;
}.

Section Factory.
Context {C : Type} {CF : Compressors C} (level : Z).

(** [getCompressor]; [level] is [ServerConfig::STATIC_GZIP_COMPRESS_LEVEL]. *)
Definition getCompressor (encoding : bytes) : outcome (option C) :=
  if encoding =?b "identity" then Ret None
  else if encoding =?b "br" then Some <$> new_brotli
  else if encoding =?b "gzip" then Some <$> new_gzip level
  else if encoding =?b "*" then Some <$> new_brotli
  else Ret None.
End Factory.

(** The encodings for which there is a compressor. *)
Definition supported (encoding : bytes) : bool := existsb (beqb encoding) (literals ["br"; "gzip"; "*"]).

Lemma getCompressor_spec {C} {IC : ICompressor C} {CF : Compressors C} {CL : CompressorLaws C} level encoding :
  if supported encoding
  then exists c, getCompressor level encoding = Ret (Some c) /\ fed c [] [] /\
         getEncoding c = (if encoding =?b "gzip" then "gzip" else "br" : bytes)
  else getCompressor level encoding = Ret None.
Proof.
  unfold supported, getCompressor. cbn [literals map existsb].
  destruct new_brotli_ok as (b & Eb & Fb & Nb), (new_gzip_ok level) as (g & Eg & Fg & Ng). rewrite Eb, Eg.
  destruct (beqb_spec encoding "identity") as [->|]; [done|].
  destruct (beqb_spec encoding "br") as [->|]; [by exists b|]. cbn [orb].
  destruct (beqb_spec encoding "gzip") as [->|]; [by exists g|]. cbn [orb].
  destruct (beqb_spec encoding "*") as [->|]; [by exists b|]. done.
Qed.

(** ** Chunk functions

    What a streamed response calls for its next block: a handler's closure [G], the
    closure of the compression middleware around another one, or nothing (a closure
    that was moved from). *)
Inductive ChunkFn (C G : Type) :=
| Moved
| Source (g : G)
| Compressed (comp : C) (originalFn : ChunkFn C G) (finished : bool).
Arguments Moved {C G}.
Arguments Source {C G} g.
Arguments Compressed {C G} comp originalFn finished.

Section Next.
Context {S C G : Type} {IC : ICompressor C} (source : G -> M S (option bytes * G)).

(** A compressor's operation, its state held by the closure. *)
Definition on_comp {A} (m : M C A) (comp : C) : M S (A * C) := fun s =>
  match m comp with
  | (Ret a, comp) => (Ret (a, comp), s)
  | (Throw e, _) => (Throw e, s)
  | (Undef, _) => (Undef, s)
  end.

(** One call.  The fuel counts the rounds of the loop and the closures within. *)
Fixpoint nextChunk (fuel : nat) (fn : ChunkFn C G) : M S (option bytes * ChunkFn C G) :=
  match fuel with
  | O => undefined
  | Datatypes.S fuel =>
      match fn with
      | Moved => undefined
      | Source g => '(chunk, g) ← source g; mret (chunk, Source g)
      | Compressed comp originalFn true => mret (None, Compressed comp originalFn true)
      | Compressed comp originalFn false =>
          '(chunk, originalFn) ← nextChunk fuel originalFn;
          match chunk with
          | None =>
              '(tail, comp) ← on_comp finish comp;
              mret (match tail with [] => None | _ => Some tail end, Compressed comp originalFn true)
          | Some chunk =>
              '(compressed, comp) ← on_comp (feedChunk chunk) comp;
              match compressed with
              | [] => nextChunk fuel (Compressed comp originalFn false)
              | _ => mret (Some compressed, Compressed comp originalFn false)
              end
          end
      end
  end.
End Next.

(** [yields next f s l f' s']: called until it returns nothing, [f] gives the blocks [l]. *)
Inductive yields {S F : Type} (next : F -> M S (option bytes * F)) : F -> S -> list bytes -> F -> S -> Prop :=
| y_end f s f' s' : next f s = (Ret (None, f'), s') -> yields next f s [] f' s'
| y_chunk f s c f1 s1 l f' s' : next f s = (Ret (Some c, f1), s1) -> yields next f1 s1 l f' s' -> yields next f s (c :: l) f' s'.

Lemma yields_mono {S F : Type} (next next' : F -> M S (option bytes * F)) f s l f' s' :
  (forall f s r s', next f s = (Ret r, s') -> next' f s = (Ret r, s')) -> yields next f s l f' s' -> yields next' f s l f' s'.
Proof. intros H. induction 1; [apply y_end|eapply y_chunk]; eauto. Qed.

Section Stream.
Context {S C G : Type} {IC : ICompressor C} {CF : Compressors C} {CL : CompressorLaws C}
  (source : G -> M S (option bytes * G)).
#[local] Abbreviation next := (nextChunk source).

(** More fuel changes no result. *)
Lemma next_more n m fn s r s' : n <= m -> next n fn s = (Ret r, s') -> next m fn s = (Ret r, s').
Proof.
  revert m fn s r s'. induction n as [|n IH]; intros m fn s r s' L; [done|]. destruct m as [|m]; [lia|].
  destruct fn as [|g|comp fn [|]]; cbn [nextChunk]; [done|done|done|]. unfold mbind, M_bind.
  destruct (next n fn s) as [[[o f1]|e|] s1] eqn:E; [|done|done].
  rewrite (IH m fn s _ s1 ltac:(lia) E). destruct o as [chunk|]; [|done].
  destruct (on_comp (feedChunk chunk) comp s1) as [[[[|c x] comp1]|e|] s2]; [|done..]. apply IH. lia.
Qed.

(** A finished stream stays finished. *)
Lemma next_finished n comp fn s : 0 < n -> next n (Compressed comp fn true) s = (Ret (None, Compressed comp fn true), s).
Proof. by destruct n; [lia|]. Qed.

Lemma compressed_yields m N (fn : ChunkFn C G) s chunks fn' s' :
  yields (next m) fn s chunks fn' s' -> forall comp i o, fed comp i o -> m + length chunks < N ->
  exists outs comp', yields (next N) (Compressed comp fn false) s outs (Compressed comp' fn' true) s' /\
    decode (getEncoding comp) (o ++ concat outs) = Some (i ++ concat chunks) /\ Forall (fun b => b <> []) outs.
Proof.
  intros Y. revert N. induction Y as [fn s fn' s' E|fn s c fn1 s1 l fn' s' E Y IH]; intros N comp i o Hf L.
  all: destruct N as [|N]; [lia|]; cbn [length] in L.
  - destruct (finish_ok comp i o Hf) as (x & comp' & Ex & En & D). rewrite app_nil_r.
    assert (K : next (Datatypes.S N) (Compressed comp fn false) s =
      (Ret (match x with [] => None | _ => Some x end, Compressed comp' fn' true), s')).
    { cbn [nextChunk]. rewrite (mbind_Ret _ _ _ _ _ (next_more m N _ _ _ _ ltac:(lia) E)).
      assert (O : on_comp finish comp s' = (Ret (x, comp'), s')) by (unfold on_comp; by rewrite Ex).
      by rewrite (mbind_Ret _ _ _ _ _ O). }
    destruct x as [|a x].
    + exists [], comp'. split; [by apply y_end|]. cbn. by split.
    + exists [a :: x], comp'. cbn [concat]. rewrite app_nil_r. split; [|by repeat constructor].
      eapply y_chunk; [exact K|]. apply y_end, next_finished. lia.
  - destruct (feed_ok comp i o c Hf) as (x & comp1 & Ex & En & Hf1).
    destruct (IH N comp1 (i ++ c) (o ++ x) Hf1 ltac:(lia)) as (outs & comp' & Yo & D & Ne).
    rewrite En, <- !app_assoc in D.
    assert (O : on_comp (feedChunk c) comp s1 = (Ret (x, comp1), s1)) by (unfold on_comp; by rewrite Ex).
    assert (K : next (Datatypes.S N) (Compressed comp fn false) s =
      match x with [] => next N (Compressed comp1 fn1 false) s1
                 | _ => (Ret (Some x, Compressed comp1 fn1 false), s1) end).
    { cbn [nextChunk]. rewrite (mbind_Ret _ _ _ _ _ (next_more m N _ _ _ _ ltac:(lia) E)), (mbind_Ret _ _ _ _ _ O). by destruct x. }
    assert (Up : forall f s r s', next N f s = (Ret r, s') -> next (Datatypes.S N) f s = (Ret r, s')) by (intros; eapply next_more; [|done]; lia).
    destruct x as [|a x].
    + exists outs, comp'. split; [|by split]. inversion Yo as [? ? ? ? E1|? ? ? ? ? ? ? ? E1 Y1]; subst.
      * apply y_end. by rewrite K.
      * eapply y_chunk; [by rewrite K|]. by eapply yields_mono.
    + exists ((a :: x) :: outs), comp'. split; [|split; [exact D|by constructor]].
      eapply y_chunk; [exact K|]. by eapply yields_mono.
Qed.
End Stream.
