(* ===== verification/Codecs.v ===== *)
(** The two compressors ([http/compression/GzipCompressor.hpp], [BrotliCompressor.hpp]):
    their loops over the streaming interfaces of zlib and brotli, which are parameters
    with the behaviour their manuals state; and that they implement [Compression.v]. *)
From S2P Require Import Prelude Bytes Effects Compression.

#[local] Arguments list_ascii_of_string : simpl never.

(** ** zlib *)
Inductive zflush := Z_SYNC_FLUSH | Z_FINISH.
Inductive zret := Z_OK | Z_STREAM_END | Z_BUF_ERROR | Z_STREAM_ERROR.

Definition zcode (ret : zret) : Z :=
  match ret with Z_OK => 0 | Z_STREAM_END => 1 | Z_BUF_ERROR => -5 | Z_STREAM_ERROR => -2 end.

(** [deflate flush input avail_out stream] gives the code, how much of the input it took
    and what it wrote; [zwork] bounds how often a call can fill the whole buffer. *)
Class Zlib (Zs : Type) := {
  deflateInit2 : Z -> option Zs;
  deflate : zflush -> bytes -> nat -> Zs -> (zret * nat * bytes) * Zs;
  zwork : zflush -> bytes -> Zs -> nat;
}.

(** The manual: a call takes input and gives output; when it leaves room in the buffer
    it has taken all the input, and with [Z_FINISH] it has ended the stream, which then
    decodes to everything that was taken. *)
Class ZlibLaws (Zs : Type) `{Zlib Zs} := {
  inflate : bytes -> option bytes;
  zlive : Zs -> Prop;
  zin : Zs -> bytes;
  zout : Zs -> bytes;
  deflateInit2_ok level : exists z, deflateInit2 level = Some z /\ zlive z /\ zin z = [] /\ zout z = [];
  deflate_ok flush input room z : zlive z -> 0 < room ->
    let '(ret, k, out, z') := deflate flush input room z in
    zin z' = zin z ++ take k input /\ zout z' = zout z ++ out /\ length out <= room /\
    match ret with
    | Z_STREAM_END => flush = Z_FINISH /\ length input <= k /\ inflate (zout z') = Some (zin z')
    | Z_OK => zlive z' /\
        if length out <? room then flush = Z_SYNC_FLUSH /\ length input <= k
        else zwork flush (drop k input) z' < zwork flush input z
    | Z_BUF_ERROR => zlive z' /\ flush = Z_SYNC_FLUSH /\ length out < room /\ length input <= k
    | Z_STREAM_ERROR => False
    end;
}.

(** ** brotli *)
Inductive brotli_op := BROTLI_OPERATION_FLUSH | BROTLI_OPERATION_FINISH.

Class BrotliLib (Bs : Type) := {
  BrotliEncoderCreateInstance : option Bs;
  BrotliEncoderSetQuality : Z -> Bs -> Bs;
  BROTLI_DEFAULT_QUALITY : Z;
  BrotliEncoderMaxCompressedSize : nat -> nat;
  BrotliEncoderCompress : bytes -> nat -> option bytes;
  BrotliEncoderCompressStream : brotli_op -> bytes -> nat -> Bs -> option (nat * bytes * Bs);
  BrotliEncoderHasMoreOutput : Bs -> bool;
  bwork : brotli_op -> bytes -> Bs -> nat;
}.

Class BrotliLaws (Bs : Type) `{BrotliLib Bs} := {
  unbrotli : bytes -> option bytes;
  blive : Bs -> Prop;
  bin : Bs -> bytes;
  bout : Bs -> bytes;
  create_ok q : exists b, BrotliEncoderCreateInstance = Some b /\
    let b := BrotliEncoderSetQuality q b in blive b /\ bin b = [] /\ bout b = [];
  oneshot_ok input : exists out, BrotliEncoderCompress input (BrotliEncoderMaxCompressedSize (length input)) = Some out /\
    unbrotli out = Some input;
  compressStream_ok op input room b : blive b -> 0 < room ->
    exists k out b', BrotliEncoderCompressStream op input room b = Some (k, out, b') /\
      bin b' = bin b ++ take k input /\ bout b' = bout b ++ out /\
      if (0 <? length (drop k input)) || BrotliEncoderHasMoreOutput b'
      then blive b' /\ bwork op (drop k input) b' < bwork op input b
      else match op with
           | BROTLI_OPERATION_FLUSH => blive b'
           | BROTLI_OPERATION_FINISH => unbrotli (bout b') = Some (bin b')
           end;
}.

(** [ServerConfig::COMPRESSION_BUFFER_SIZE] *)
Class BufferSize := { COMPRESSION_BUFFER_SIZE : nat; room_positive : 0 < COMPRESSION_BUFFER_SIZE }.

Section Codecs.
Context {Zs Bs : Type} {ZL : Zlib Zs} {BL : BrotliLib Bs} {BS : BufferSize}.

(** ** GzipCompressor *)
Record GzipCompressor := { stream_ : Zs; level_ : Z; initialized_ : bool }.

Definition GzipCompressor_new (level : Z) : outcome GzipCompressor :=
  match deflateInit2 level with
  | Some z => Ret {| stream_ := z; level_ := level; initialized_ := true |}
  | None => Throw (CompressorException "deflateInit2 failed")
  end.

Definition with_stream (z : Zs) (g : GzipCompressor) : GzipCompressor :=
  {| stream_ := z; level_ := level_ g; initialized_ := initialized_ g |}.

(** The three loops: one call of [deflate] with an empty buffer, its error, what it
    wrote appended, and again while [again] says so. *)
Fixpoint deflate_loop (fuel : nat) (flush : zflush) (bad : zret -> bool) (error : zret -> bytes) (again : zret -> bool -> bool)
    (input output : bytes) (z : Zs) : outcome bytes * Zs :=
  match fuel with
  | O => (Undef, z)
  | S fuel =>
      let '(ret, k, out, z) := deflate flush input COMPRESSION_BUFFER_SIZE z in
      if bad ret then (Throw (CompressorException (error ret)), z)
      else
        let output := output ++ out in
        let full := length out =? COMPRESSION_BUFFER_SIZE in
        if again ret full then deflate_loop fuel flush bad error again (drop k input) output z
        else (Ret output, z)
  end.

Definition run_deflate (flush : zflush) (bad : zret -> bool) (error : zret -> bytes) (again : zret -> bool -> bool) (input : bytes) :
    M GzipCompressor bytes := fun g =>
  let '(r, z) := deflate_loop (S (zwork flush input (stream_ g))) flush bad error again input [] (stream_ g) in
  (r, with_stream z g).

(** [do ... while (ret != Z_STREAM_END)] *)
Definition gzip_compress : bytes -> M GzipCompressor bytes :=
  run_deflate Z_FINISH (fun ret => match ret with Z_STREAM_ERROR => true | _ => false end)
    (fun _ => "gzip compress failed: stream error") (fun ret _ => match ret with Z_STREAM_END => false | _ => true end).

(** [do ... while (stream_.avail_out == 0)] *)
Definition gzip_feedChunk : bytes -> M GzipCompressor bytes :=
  run_deflate Z_SYNC_FLUSH (fun ret => match ret with Z_OK | Z_BUF_ERROR => false | _ => true end)
    (fun ret => "gzip feedChunk failed: deflate returned " ++ to_string (zcode ret)) (fun _ full => full).

(** [do ... while (ret == Z_OK)] *)
Definition gzip_finish : M GzipCompressor bytes :=
  run_deflate Z_FINISH (fun ret => match ret with Z_STREAM_ERROR => true | _ => false end)
    (fun ret => "gzip finish failed: deflate returned " ++ to_string (zcode ret)) (fun ret _ => match ret with Z_OK => true | _ => false end) [].

(** ** BrotliCompressor *)
Record BrotliCompressor := { state_ : Bs }.

Definition BrotliCompressor_new (quality : Z) : outcome BrotliCompressor :=
  match BrotliEncoderCreateInstance with
  | Some b => Ret {| state_ := BrotliEncoderSetQuality quality b |}
  | None => Throw (CompressorException "BrotliEncoderCreateInstance failed")
  end.

Definition brotli_compress (input : bytes) : M BrotliCompressor bytes :=
  match BrotliEncoderCompress input (BrotliEncoderMaxCompressedSize (length input)) with
  | Some output => mret output
  | None => throw (CompressorException "BrotliEncoderCompress failed")
  end.

(** [do ... while (availIn > 0 || BrotliEncoderHasMoreOutput(state_))] *)
Fixpoint processStream_loop (fuel : nat) (op : brotli_op) (input output : bytes) (b : Bs) : outcome bytes * Bs :=
  match fuel with
  | O => (Undef, b)
  | S fuel =>
      match BrotliEncoderCompressStream op input COMPRESSION_BUFFER_SIZE b with
      | None => (Throw (CompressorException "BrotliEncoderCompressStream failed"), b)
      | Some (k, out, b) =>
          let output := output ++ out in
          if (0 <? length (drop k input)) || BrotliEncoderHasMoreOutput b
          then processStream_loop fuel op (drop k input) output b
          else (Ret output, b)
      end
  end.

Definition processStream (op : brotli_op) (input : bytes) : M BrotliCompressor bytes := fun c =>
  let '(r, b) := processStream_loop (S (bwork op input (state_ c))) op input [] (state_ c) in (r, {| state_ := b |}).

Definition brotli_feedChunk (input : bytes) : M BrotliCompressor bytes := processStream BROTLI_OPERATION_FLUSH input.
Definition brotli_finish : M BrotliCompressor bytes := processStream BROTLI_OPERATION_FINISH [].

(** ** One type for both: [std::unique_ptr<ICompressor>] *)
Inductive Codec := Brotli (b : BrotliCompressor) | Gzip (g : GzipCompressor).

Definition on_codec {A} (mb : M BrotliCompressor A) (mg : M GzipCompressor A) : M Codec A := fun c =>
  match c with
  | Brotli b => let '(r, b) := mb b in (r, Brotli b)
  | Gzip g => let '(r, g) := mg g in (r, Gzip g)
  end.

#[export] Instance codec : ICompressor Codec := {
  compress input := on_codec (brotli_compress input) (gzip_compress input);
  feedChunk input := on_codec (brotli_feedChunk input) (gzip_feedChunk input);
  finish := on_codec brotli_finish gzip_finish;
  getEncoding c := match c with Brotli _ => "br" | Gzip _ => "gzip" end;
}.

#[export] Instance codecs : Compressors Codec := {
  new_brotli := Brotli <$> BrotliCompressor_new BROTLI_DEFAULT_QUALITY;
  new_gzip level := Gzip <$> GzipCompressor_new level;
}.
End Codecs.

(** ** The loops end with the whole output *)
Section Correct.
Context {Zs Bs : Type} {ZL : Zlib Zs} {BL : BrotliLib Bs} {ZLL : ZlibLaws Zs} {BLL : BrotliLaws Bs}
  {BS : BufferSize}.

Lemma deflate_loop_ok flush bad error again fuel input output z :
  match flush with
  | Z_FINISH => bad Z_OK = false /\ bad Z_STREAM_END = false /\ again Z_OK true = true /\ forall full, again Z_STREAM_END full = false
  | Z_SYNC_FLUSH => bad Z_OK = false /\ bad Z_BUF_ERROR = false /\ forall ret full, again ret full = full
  end ->
  zlive z -> zwork flush input z < fuel ->
  exists x z', deflate_loop fuel flush bad error again input output z = (Ret (output ++ x), z') /\
    zin z' = zin z ++ input /\ zout z' = zout z ++ x /\
    match flush with Z_FINISH => inflate (zout z') = Some (zin z') | Z_SYNC_FLUSH => zlive z' end.
Proof.
  intros Hc. revert input output z. induction fuel as [|fuel IH]; intros input output z Hl Hw; [lia|].
  cbn [deflate_loop]. pose proof (deflate_ok flush input COMPRESSION_BUFFER_SIZE z Hl room_positive) as H.
  destruct (deflate flush input COMPRESSION_BUFFER_SIZE z) as [[[ret k] out] z1]. destruct H as (Hi & Ho & Hlen & H).
  assert (Stop : length input <= k -> zin z1 = zin z ++ input) by (intros K; by rewrite take_ge in Hi).
  assert (Full : forall b : bool, (length out <? COMPRESSION_BUFFER_SIZE) = b -> (length out =? COMPRESSION_BUFFER_SIZE) = negb b).
  { intros [] E; [apply Nat.ltb_lt in E; apply Nat.eqb_neq; lia|apply Nat.ltb_ge in E; apply Nat.eqb_eq; lia]. }
  destruct ret.
  - destruct H as [L1 H]. destruct (length out <? COMPRESSION_BUFFER_SIZE) eqn:E; rewrite (Full _ eq_refl); cbn [negb].
    + destruct H as [-> K]. destruct Hc as (-> & _ & A). rewrite A. exists out, z1. by split_and!; auto.
    + assert (again Z_OK true = true /\ bad Z_OK = false) as [-> ->] by (destruct flush; destruct Hc as (? & ? & Hc); naive_solver).
      destruct (IH (drop k input) (output ++ out) z1 L1 ltac:(lia)) as (x & z' & E' & I & O & R).
      exists (out ++ x), z'. rewrite app_assoc. split; [exact E'|].
      split_and!; [by rewrite I, Hi, <- app_assoc, take_drop|by rewrite O, Ho, <- app_assoc|exact R].
  - destruct H as (-> & K & D). destruct Hc as (_ & -> & _ & A). rewrite A. exists out, z1. by split_and!; auto.
  - destruct H as (L1 & -> & E & K). destruct Hc as (_ & -> & A). apply Nat.ltb_lt in E. rewrite A, (Full _ E). cbn [negb].
    exists out, z1. by split_and!; auto.
  - done.
Qed.

Lemma processStream_loop_ok op fuel input output b :
  blive b -> bwork op input b < fuel ->
  exists x b', processStream_loop fuel op input output b = (Ret (output ++ x), b') /\
    bin b' = bin b ++ input /\ bout b' = bout b ++ x /\
    match op with
    | BROTLI_OPERATION_FINISH => unbrotli (bout b') = Some (bin b')
    | BROTLI_OPERATION_FLUSH => blive b'
    end.
Proof.
  revert input output b. induction fuel as [|fuel IH]; intros input output b Hl Hw; [lia|]. cbn [processStream_loop].
  destruct (compressStream_ok op input COMPRESSION_BUFFER_SIZE b Hl room_positive) as (k & out & b1 & -> & Hi & Ho & H).
  destruct ((0 <? length (drop k input)) || BrotliEncoderHasMoreOutput b1) eqn:E.
  - destruct H as [L1 W]. destruct (IH (drop k input) (output ++ out) b1 L1 ltac:(lia)) as (x & b' & E' & I & O & R).
    exists (out ++ x), b'. rewrite app_assoc. split; [exact E'|].
    split_and!; [by rewrite I, Hi, <- app_assoc, take_drop|by rewrite O, Ho, <- app_assoc|exact R].
  - apply orb_false_iff in E as [E _]. apply Nat.ltb_ge in E. rewrite length_drop in E.
    exists out, b1. rewrite take_ge in Hi by lia. by split_and!.
Qed.

(** A compressor in use: its library's stream has taken [i] and given [o]. *)
Definition in_use (c : Codec (Zs := Zs) (Bs := Bs)) (i o : bytes) : Prop :=
  match c with
  | Brotli b => blive (state_ b) /\ bin (state_ b) = i /\ bout (state_ b) = o
  | Gzip g => zlive (stream_ g) /\ zin (stream_ g) = i /\ zout (stream_ g) = o
  end.

Definition decoder (encoding : bytes) : bytes -> option bytes := if encoding =?b "gzip" then inflate else unbrotli.

#[local] Existing Instance codec.
#[local] Existing Instance codecs.

(** One call of a loop, as its compressor sees it. *)
Lemma run_deflate_ok flush bad error again input g :
  match flush with
  | Z_FINISH => bad Z_OK = false /\ bad Z_STREAM_END = false /\ again Z_OK true = true /\ forall full, again Z_STREAM_END full = false
  | Z_SYNC_FLUSH => bad Z_OK = false /\ bad Z_BUF_ERROR = false /\ forall ret full, again ret full = full
  end -> zlive (stream_ g) ->
  exists x g', run_deflate flush bad error again input g = (Ret x, g') /\
    zin (stream_ g') = zin (stream_ g) ++ input /\ zout (stream_ g') = zout (stream_ g) ++ x /\
    match flush with Z_FINISH => inflate (zout (stream_ g')) = Some (zin (stream_ g')) | Z_SYNC_FLUSH => zlive (stream_ g') end.
Proof.
  intros Hc Hl. destruct (deflate_loop_ok flush bad error again _ input [] (stream_ g) Hc Hl (Nat.lt_succ_diag_r _)) as (x & z' & E & H).
  exists x, (with_stream z' g). split; [|exact H]. unfold run_deflate. by rewrite E.
Qed.

Lemma processStream_ok op input c :
  blive (state_ c) ->
  exists x c', processStream op input c = (Ret x, c') /\
    bin (state_ c') = bin (state_ c) ++ input /\ bout (state_ c') = bout (state_ c) ++ x /\
    match op with
    | BROTLI_OPERATION_FINISH => unbrotli (bout (state_ c')) = Some (bin (state_ c'))
    | BROTLI_OPERATION_FLUSH => blive (state_ c')
    end.
Proof.
  intros Hl. destruct (processStream_loop_ok op _ input [] (state_ c) Hl (Nat.lt_succ_diag_r _)) as (x & b' & E & H).
  exists x, {| state_ := b' |}. split; [|exact H]. unfold processStream. by rewrite E.
Qed.

Lemma codec_compress_ok c b : in_use c [] [] ->
  exists o c', compress b c = (Ret o, c') /\ getEncoding c' = getEncoding c /\ decoder (getEncoding c) o = Some b.
Proof.
  destruct c as [c|g]; intros (L & I & O); cbn [compress codec on_codec].
  - destruct (oneshot_ok b) as (out & E & D). exists out, (Brotli c). unfold brotli_compress. by rewrite E.
  - edestruct (run_deflate_ok Z_FINISH) as (x & g' & E & I' & O' & D); [|exact L|].
    2: { exists x, (Gzip g'). unfold gzip_compress. rewrite E. rewrite I', O', I, O in D. by split_and!. }
    by split_and!.
Qed.

Lemma codec_feed_ok c i o b : in_use c i o ->
  exists x c', feedChunk b c = (Ret x, c') /\ getEncoding c' = getEncoding c /\ in_use c' (i ++ b) (o ++ x).
Proof.
  destruct c as [c|g]; intros (L & <- & <-); cbn [feedChunk codec on_codec].
  - destruct (processStream_ok BROTLI_OPERATION_FLUSH b c L) as (x & c' & E & I & O & D).
    exists x, (Brotli c'). unfold brotli_feedChunk. rewrite E. by split_and!.
  - edestruct (run_deflate_ok Z_SYNC_FLUSH) as (x & g' & E & I & O & D); [|exact L|].
    2: { exists x, (Gzip g'). unfold gzip_feedChunk. rewrite E. by split_and!. }
    by split_and!.
Qed.

Lemma codec_finish_ok c i o : in_use c i o ->
  exists x c', finish c = (Ret x, c') /\ getEncoding c' = getEncoding c /\ decoder (getEncoding c) (o ++ x) = Some i.
Proof.
  destruct c as [c|g]; intros (L & <- & <-); cbn [finish codec on_codec].
  - destruct (processStream_ok BROTLI_OPERATION_FINISH [] c L) as (x & c' & E & I & O & D).
    exists x, (Brotli c'). unfold brotli_finish. rewrite E. rewrite I, O, app_nil_r in D. by split_and!.
  - edestruct (run_deflate_ok Z_FINISH) as (x & g' & E & I & O & D); [|exact L|].
    2: { exists x, (Gzip g'). unfold gzip_finish. rewrite E. rewrite I, O, app_nil_r in D. by split_and!. }
    by split_and!.
Qed.

Lemma codec_new_ok level :
  (exists c, new_brotli = Ret c /\ in_use c [] [] /\ getEncoding c = "br") /\
  (exists c, new_gzip level = Ret c /\ in_use c [] [] /\ getEncoding c = "gzip").
Proof.
  split.
  - destruct (create_ok BROTLI_DEFAULT_QUALITY) as (b & E & L & I & O).
    exists (Brotli {| state_ := BrotliEncoderSetQuality BROTLI_DEFAULT_QUALITY b |}).
    cbn [new_brotli codecs]. unfold BrotliCompressor_new. rewrite E. by split_and!.
  - destruct (deflateInit2_ok level) as (z & E & L & I & O).
    exists (Gzip {| stream_ := z; level_ := level; initialized_ := true |}).
    cbn [new_gzip codecs]. unfold GzipCompressor_new. rewrite E. by split_and!.
Qed.

#[export] Instance codec_laws : CompressorLaws (Codec (Zs := Zs) (Bs := Bs)).
Proof.
  refine {| decode := decoder; fed := in_use; compress_ok := codec_compress_ok; feed_ok := codec_feed_ok;
            finish_ok := codec_finish_ok |}.
  - apply (codec_new_ok 0).
  - intros level. apply (codec_new_ok level).
Defined.

(** Blocks fed in one after the other, and the end. *)
Fixpoint feed_all (blocks : list bytes) : M (Codec (Zs := Zs) (Bs := Bs)) bytes :=
  match blocks with
  | [] => finish
  | b :: rest => x ← feedChunk b; y ← feed_all rest; mret (x ++ y)
  end.

End Correct.

(** ** Libraries that do nothing but delay

    The bytes that were put in, behind a queue, and an end mark. *)
Module Delay.
Record delay := { taken : bytes; given : bytes; queue : bytes; more : bool }.
Definition empty : delay := {| taken := []; given := []; queue := []; more := false |}.

(** [ending]: the end mark is due once the queue is empty. *)
Definition step (ending : bool) (input : bytes) (room : nat) (d : delay) : bool * bytes * delay :=
  let q := queue d ++ input in
  if ending && (length q <? room)
  then (true, q ++ ["$"%char], {| taken := taken d ++ input; given := given d ++ q ++ ["$"%char]; queue := []; more := false |})
  else (false, take room q,
        {| taken := taken d ++ input; given := given d ++ take room q; queue := drop room q;
           more := ending || (0 <? length (drop room q)) |}).

Definition live (d : delay) : Prop := given d ++ queue d = taken d.
Definition undelay (o : bytes) : option bytes :=
  match rev o with c :: r => if Ascii.eqb c "$" then Some (rev r) else None | [] => None end.

Lemma undelay_mark s : undelay (s ++ ["$"%char]) = Some s.
Proof. unfold undelay. rewrite rev_app_distr. cbn. by rewrite rev_involutive. Qed.

Lemma step_ok ending input room d :
  live d -> 0 < room ->
  let '(ended, out, d') := step ending input room d in
  taken d' = taken d ++ input /\ given d' = given d ++ out /\ length out <= room /\
  if ended then ending = true /\ undelay (given d') = Some (taken d')
  else live d' /\ (length out < room -> ending = false) /\
       (length out = room -> length (queue d') < length (queue d ++ input)) /\
       (more d' = true -> length (queue d') < length (queue d ++ input)).
Proof.
  intros L R. unfold step. destruct (ending && (length (queue d ++ input) <? room)) eqn:E.
  - apply andb_true_iff in E as [-> E]. apply Nat.ltb_lt in E. cbn [taken given queue more].
    split_and!; [done|done|rewrite length_app; cbn; lia|done|]. by rewrite app_assoc, undelay_mark, app_assoc, L.
  - cbn [taken given queue more]. rewrite length_take, length_drop. split_and!; [done|done|lia|..].
    + unfold live. cbn. by rewrite <- app_assoc, take_drop, app_assoc, L.
    + intros H. destruct ending; [|done]. apply Nat.ltb_ge in E. lia.
    + lia.
    + rewrite orb_true_iff, Nat.ltb_lt. apply andb_false_iff in E as [->|E%Nat.ltb_ge]; [|lia]. intros [|]; [done|lia].
Qed.

#[export] Instance zlib : Zlib delay := {
  deflateInit2 _ := Some empty;
  deflate flush input room d :=
    let '(ended, out, d) := step (match flush with Z_FINISH => true | _ => false end) input room d in
    ((if ended : bool then Z_STREAM_END else Z_OK, length input, out), d);
  zwork _ input d := length (queue d ++ input);
}.

#[export] Instance zlib_laws : ZlibLaws delay.
Proof.
  refine {| inflate := undelay; zlive := live; zin := taken; zout := given |}.
  - intros level. by exists empty.
  - intros flush input room d L R. cbn [deflate zlib].
    pose proof (step_ok (match flush with Z_FINISH => true | _ => false end) input room d L R) as H.
    destruct (step _ input room d) as [[ended out] d']. rewrite take_ge by done.
    destruct H as (T & Gv & Ln & H). destruct ended.
    + destruct H as [E U]. destruct flush; [done|]. by split_and!.
    + destruct H as (Lv & Sh & Fu & _). split_and!; [done..|].
      destruct (length out <? room) eqn:E; [apply Nat.ltb_lt in E; specialize (Sh E); destruct flush; [by split|done]|].
      apply Nat.ltb_ge in E. cbn [zwork zlib]. rewrite drop_ge, app_nil_r by done. apply Fu. lia.
Defined.

#[export] Instance brotli : BrotliLib delay := {
  BrotliEncoderCreateInstance := Some empty;
  BrotliEncoderSetQuality _ d := d;
  BROTLI_DEFAULT_QUALITY := 11;
  BrotliEncoderMaxCompressedSize n := S n;
  BrotliEncoderCompress input _ := Some (input ++ ["$"%char]);
  BrotliEncoderCompressStream op input room d :=
    let '(_, out, d) := step (match op with BROTLI_OPERATION_FINISH => true | _ => false end) input room d in
    Some (length input, out, d);
  BrotliEncoderHasMoreOutput := more;
  bwork _ input d := length (queue d ++ input);
}.

#[export] Instance brotli_laws : BrotliLaws delay.
Proof.
  refine {| unbrotli := undelay; blive := live; bin := taken; bout := given |}.
  - intros q. by exists empty.
  - intros input. exists (input ++ ["$"%char]). split; [done|apply undelay_mark].
  - intros op input room d L R. cbn [BrotliEncoderCompressStream brotli].
    pose proof (step_ok (match op with BROTLI_OPERATION_FINISH => true | _ => false end) input room d L R) as H.
    destruct (step _ input room d) as [[ended out] d'] eqn:Es. destruct H as (T & Gv & Ln & H).
    exists (length input), out, d'. split; [done|]. rewrite take_ge, drop_all by done. split_and!; [done..|].
    cbn [length Nat.ltb Nat.leb orb BrotliEncoderHasMoreOutput brotli]. destruct ended.
    + unfold step in Es. destruct (_ && _); [|done]. injection Es as <- <-. cbn [more].
      destruct H as [E U]. by destruct op.
    + destruct H as (Lv & Sh & Fu & Mo). destruct (more d') eqn:M.
      * split; [done|]. cbn [bwork brotli]. rewrite app_nil_r. by apply Mo.
      * destruct op; [done|]. unfold step in Es. destruct (_ && _); [done|]. by injection Es as _ <-.
Defined.

#[export] Instance buffer : BufferSize := { COMPRESSION_BUFFER_SIZE := 4; room_positive := Nat.lt_0_succ 3 }.
End Delay.

Module CodecWitnesses.
Import Delay.

End CodecWitnesses.
