(* ===== verification/CompressionMiddleware.v ===== *)
(** Response compression ([http/middleware/CompressionMiddleware.hpp],
    [CompressionMiddleware.cpp]): the negotiation of the encoding, and the compression
    of plain and of streamed bodies.  The compressors are the interface of
    [Compression.v]. *)
From Stdlib Require Import Floats.SpecFloat.
From S2P Require Import Prelude Bytes Effects HeaderStore ServerConfig HttpTypes ErrorFactory Compression Codecs.
From S2P Require HttpRequest HttpResponse HttpStreamResponse HttpFileResponse.

#[local] Arguments list_ascii_of_string : simpl never.

(** [res.getContentType()], for any alternative. *)
Definition response_type {F} (r : Response F) : bytes :=
  match r with
  | Plain r => HttpResponse.getContentType r
  | Stream r => HttpStreamResponse.getContentType r
  | File r => HttpFileResponse.getContentType r
  end.

Section Middleware.
Context {S C G : Type} {HR : HasRequest S} {IC : ICompressor C} {CF : Compressors C} {SS : StdSort}.
Context (cfg : ServerConfig) (strtof : bytes -> float)
        (build : HttpRequest.HttpRequest -> Z -> bytes -> outcome HttpResponse.HttpResponse).
#[local] Abbreviation Response := (Response (ChunkFn C G)).
#[local] Abbreviation Next := (Next S (ChunkFn C G)).

Fixpoint pick (encodingPrefs : list (bytes * float)) : outcome (option C) :=
  match encodingPrefs with
  | [] => Ret None
  | encoding :: rest =>
      compressor ← getCompressor (STATIC_GZIP_COMPRESS_LEVEL cfg) encoding.1;
      match compressor with Some c => Ret (Some c) | None => pick rest end
  end.

Definition buildErrorResponse (request : HttpRequest.HttpRequest) (statusCode : Z) : outcome HttpResponse.HttpResponse :=
  response ← build request statusCode [];
  Ret (if HttpRequest.method_ request =?b "HEAD" then HttpResponse.stripBody response else response).

Definition mustSkip (response : Response) : bool :=
  negb (getHeaderLower "content-encoding" (response_headers response) =?b "") ||
  negb (compressible (response_type response)).

Definition vary (response : Response) : Response := map_headers (addHeaderLower "vary" "accept-encoding") response.

(** The response in the chosen encoding. *)
Definition encode (compressor : C) (response : Response) : outcome Response :=
  let mark := map_headers (setHeaderLower "content-encoding" (getEncoding compressor)) in
  match response with
  | Plain res =>
      body ← (compress (HttpResponse.body_ res) compressor).1;
      Ret (vary (mark (Plain (HttpResponse.setBody body res))))
  | Stream res =>
      match vary (mark (Stream res)) with
      | Stream res =>
          let '(originalFn, res) := HttpStreamResponse.takeNextChunkFn res in
          Ret (Stream (HttpStreamResponse.setNextChunkFn (Compressed compressor (default Moved originalFn) false) res))
      | r => Ret r
      end
  | File res => Ret (File res)
  end.

Definition tooSmall (response : Response) : bool :=
  match response with
  | Plain res => (Z.of_nat (length (HttpResponse.body_ res)) <? u64 (COMPRESS_MIN_BYTES cfg))%Z
  | _ => false
  end.

Definition CompressionMiddleware (next : Next) : M S Response :=
  request ← gets get_request;
  if HttpRequest.getHeaderLower "accept-encoding" request =?b "" then next
  else
    response ← next;
    if mustSkip response then mret response
    else
      acceptEncodingHeaderRaw ← read_view "accept-encoding" request;
      let '(encodingPrefs, excluded) := parseQValues strtof (toLowerCase acceptEncodingHeaderRaw) in
      let identityAllowed := negb (existsb (beqb "identity") excluded) in
      if identityAllowed && tooSmall response then mret (vary response)
      else if sortable encodingPrefs then
        compressor ← lift (pick (std_sort by_quality encodingPrefs));
        match compressor with
        | Some compressor => lift (encode compressor response)
        | None =>
            if identityAllowed then mret response
            else request ← gets get_request; r ← lift (buildErrorResponse request 406); mret (Plain r)
        end
      else undefined.
End Middleware.

(** ** What is promised *)
Section Spec.
Context {S C G : Type} {HR : HasRequest S} {IC : ICompressor C} {CF : Compressors C} {CL : CompressorLaws C} {SS : StdSort}.
Context (cfg : ServerConfig) (strtof : bytes -> float)
        (build : HttpRequest.HttpRequest -> Z -> bytes -> outcome HttpResponse.HttpResponse).
#[local] Abbreviation Response := (Response (ChunkFn C G)).

(** [resp'] is [resp] in the encoding [enc]. *)
Definition encoded (enc : bytes) (resp resp' : Response) : Prop :=
  match resp, resp' with
  | Plain r, Plain r' =>
      decode enc (HttpResponse.body_ r') = Some (HttpResponse.body_ r) /\
      getHeaders "Content-Encoding" (HttpResponse.headers r') = [enc] /\
      getHeaders "Content-Length" (HttpResponse.headers r') = [to_string (Z.of_nat (length (HttpResponse.body_ r')))] /\
      HttpResponse.statusCode_ r' = HttpResponse.statusCode_ r
  | Stream r, Stream r' =>
      getHeaders "Content-Encoding" (HttpStreamResponse.headers r') = [enc] /\
      HttpStreamResponse.statusCode_ r' = HttpStreamResponse.statusCode_ r /\
      exists c, fed c [] [] /\ getEncoding c = enc /\
        HttpStreamResponse.nextChunkFn_ r' = Some (Compressed c (default Moved (HttpStreamResponse.nextChunkFn_ r)) false)
  | File r, File r' => r' = r
  | _, _ => False
  end.

Definition coding (encoding : bytes) : bytes := if encoding =?b "gzip" then "gzip" else "br".

Lemma pick_spec l :
  (exists e before after c, l = before ++ e :: after /\ supported e.1 = true /\
     Forall (fun e => supported e.1 = false) before /\ pick cfg l = Ret (Some c) /\ fed c [] [] /\ getEncoding c = coding e.1) \/
  (Forall (fun e => supported e.1 = false) l /\ pick cfg l = Ret None).
Proof.
  induction l as [|e l IH]; [by right|]. cbn [pick].
  pose proof (getCompressor_spec (STATIC_GZIP_COMPRESS_LEVEL cfg) e.1) as H.
  destruct (supported e.1) eqn:E.
  - destruct H as (c & -> & Hf & Hn). left. exists e, [], l, c. by split_and!.
  - rewrite H. cbn [mbind outcome_bind]. destruct IH as [(e' & bf & af & c & -> & IH)|[IH ->]].
    + left. exists e', (e :: bf), af, c. split; [done|]. destruct IH as (? & ? & ?). split; [done|]. split; [by constructor|done].
    + right. split; [by constructor|done].
Qed.

Lemma sorted_tail {A} (R : A -> A -> Prop) a b : StronglySorted R (a ++ b) -> StronglySorted R b.
Proof. induction a as [|x a IH]; [done|]. intros [H _]%StronglySorted_inv. by apply IH. Qed.

(** After sorting by quality, the first supported encoding is a best one. *)
Lemma pick_best prefs :
  sortable prefs = true ->
  (exists e c, e ∈ prefs /\ supported e.1 = true /\ (forall e', e' ∈ prefs -> supported e'.1 = true -> by_quality e' e = false) /\
     pick cfg (std_sort by_quality prefs) = Ret (Some c) /\ fed c [] [] /\ getEncoding c = coding e.1) \/
  ((forall e, e ∈ prefs -> supported e.1 = false) /\ pick cfg (std_sort by_quality prefs) = Ret None).
Proof.
  intros So. pose proof (std_sort_perm by_quality prefs (sortable_sw _ So)) as P.
  pose proof (std_sort_sorted by_quality prefs (sortable_sw _ So)) as St.
  destruct (pick_spec (std_sort by_quality prefs)) as [(e & bf & af & c & E & Se & Hb & Hp & Hf & Hn)|[Hn Hp]].
  - left. exists e, c. split; [by rewrite <- P, E; set_solver|]. split_and!; [done| |done..].
    intros e' He' Se'. rewrite <- P, E in He'. apply elem_of_app in He' as [He'|[->|He']%elem_of_cons].
    + rewrite Forall_forall in Hb. by rewrite (Hb e' He') in Se'.
    + destruct (sortable_sw [e] eq_refl) as [Hirr _ _]. by apply Hirr, list_elem_of_singleton.
    + rewrite E in St. apply sorted_tail, StronglySorted_inv in St as [_ Ha].
      rewrite Forall_forall in Ha. by apply Ha.
  - right. split; [|done]. intros e He. rewrite Forall_forall in Hn. apply Hn. by rewrite P.
Qed.

Lemma values_vary k hs :
  toLowerCase k <> "vary" -> getHeaders k (addHeaderLower "vary" "accept-encoding" hs) = getHeaders k hs.
Proof. intros H. apply count_add_other. done. Qed.

Lemma encode_encoded c resp :
  fed c [] [] -> exists resp', encode c resp = Ret resp' /\ encoded (getEncoding c) resp resp' /\
    response_status resp' = response_status resp.
Proof.
  intros Hf. destruct resp as [r|r|r]; cbn [encode].
  - destruct (compress_ok c (HttpResponse.body_ r) Hf) as (o & c' & E & En & D). rewrite E. cbn [fst mbind outcome_bind].
    eexists. split; [done|]. split; [|done]. cbn [encoded vary map_headers HttpResponse.with_headers HttpResponse.setBody HttpResponse.headers
      HttpResponse.body_ HttpResponse.statusCode_ HttpResponse.with_body].
    split_and!; [exact D| | |done]; rewrite values_vary by done; unfold getHeaders, setHeaderLower, set_field;
      rewrite getAllValues_app, getAllValues_single.
    + by rewrite getAllValues_erase.
    + rewrite (proj2 (beqb_neq _ _)) by done. rewrite getAllValues_erase_ne by done. rewrite app_nil_r.
      apply HttpResponse.set_same.
  - eexists. split; [done|]. split; [|done]. cbn [encoded HttpStreamResponse.setNextChunkFn HttpStreamResponse.headers
      HttpStreamResponse.statusCode_ HttpStreamResponse.nextChunkFn_]. split_and!; [|done|by exists c].
    rewrite values_vary by done. apply HttpResponse.set_same.
  - by exists (File r).
Qed.

(** What the middleware answers, for any handler.  A request without
    Accept-Encoding, a response that is already encoded or of a type that does not
    compress, and a small plain one are passed on (the last with a Vary field).  Else,
    if the client accepts a supported encoding, the response is sent in one of the
    highest quality among those: its body decodes to the handler's, and
    Content-Encoding and Content-Length say what was sent.  If it accepts none, the
    response goes out as it is, unless identity was refused: then the answer is 406. *)
Theorem compression_spec (next : M S Response) s resp s1 :
  next s = (Ret resp, s1) -> HttpRequest.headers_ (get_request s1) = HttpRequest.headers_ (get_request s) ->
  let accept := HttpRequest.getHeader "Accept-Encoding" (get_request s) in
  let '(prefs, excluded) := parseQValues strtof (toLowerCase accept) in
  let answer := CompressionMiddleware cfg strtof build next s in
  let identity := negb (existsb (beqb "identity") excluded) in
  if (accept =?b "") || mustSkip resp then answer = (Ret resp, s1)
  else if identity && tooSmall cfg resp then answer = (Ret (vary resp), s1)
  else sortable prefs = true ->
    (exists e resp', e ∈ prefs /\ supported e.1 = true /\
       (forall e', e' ∈ prefs -> supported e'.1 = true -> by_quality e' e = false) /\
       answer = (Ret resp', s1) /\ encoded (coding e.1) resp resp' /\ response_status resp' = response_status resp) \/
    ((forall e, e ∈ prefs -> supported e.1 = false) /\
     answer = if identity then (Ret resp, s1) else (Plain <$> buildErrorResponse build (get_request s1) 406, s1)).
Proof.
  intros N Hh accept. destruct (parseQValues strtof (toLowerCase accept)) as [prefs excluded] eqn:Ep. cbv zeta.
  unfold CompressionMiddleware. rewrite (mbind_Ret _ _ _ (get_request s) s) by done.
  change (HttpRequest.getHeaderLower "accept-encoding" (get_request s)) with accept.
  destruct (beqb_spec accept "") as [E|E]; [by rewrite N|]. cbn [orb]. rewrite (mbind_Ret _ _ _ _ _ N).
  destruct (mustSkip resp); [done|]. rewrite (mbind_Ret _ _ _ _ _ (read_view_ok "accept-encoding" (get_request s) s1 Hh)).
  change (HttpRequest.getHeaderLower "accept-encoding" (get_request s)) with accept. rewrite Ep.
  set (identity := negb (existsb (beqb "identity") excluded)). destruct (identity && tooSmall cfg resp); [done|].
  intros So. rewrite So. destruct (pick_best prefs So) as [(e & c & He & Se & Hb & Hp & Hf & Hn)|[Hn Hp]].
  - left. destruct (encode_encoded c resp Hf) as (resp' & Er & En & Es). exists e, resp'. split_and!; [done..| | |done].
    + rewrite (mbind_Ret _ _ _ (Some c) s1) by (unfold lift; by rewrite Hp). unfold lift. by rewrite Er.
    + by rewrite <- Hn.
  - right. split; [done|]. rewrite (mbind_Ret _ _ _ None s1) by (unfold lift; by rewrite Hp).
    destruct identity; [done|]. unfold gets, lift, mbind, M_bind. cbv beta iota. by destruct (buildErrorResponse _ _ _).
Qed.

(** C10: Compressing a stream is transparent: if the handler's chunk function gives
    certain blocks and then ends, the compressing one ends as well, in the same state
    of the connection; what it gives decodes to the concatenation of those blocks; and
    no block it gives is empty, so that none is taken for the end of a chunked body. *)
Theorem compressed_stream (source : G -> M S (option bytes * G)) encoding c fn s chunks fn' s' fuel fuel' :
  getCompressor (STATIC_GZIP_COMPRESS_LEVEL cfg) encoding = Ret (Some c) ->
  yields (nextChunk source fuel) fn s chunks fn' s' -> fuel + length chunks < fuel' ->
  exists outs c', yields (nextChunk source fuel') (Compressed c fn false) s outs (Compressed c' fn' true) s' /\
    decode (getEncoding c) (concat outs) = Some (concat chunks) /\ Forall (fun b => b <> []) outs.
Proof.
  intros Ec Y L. pose proof (getCompressor_spec (STATIC_GZIP_COMPRESS_LEVEL cfg) encoding) as H.
  destruct (supported encoding); [|by rewrite Ec in H].
  destruct H as (c0 & E0 & Hf & _). rewrite Ec in E0. injection E0 as <-.
  by apply (compressed_yields source fuel fuel' fn s chunks fn' s' Y c [] []).
Qed.
End Spec.

Module CompressionWitnesses.
Import Delay.
#[local] Existing Instance InsertionSort.insertion_sort.
Abbreviation codec := (Codec (Zs := delay) (Bs := delay)).

Definition half : float := S754_finite false 8388608 (-24).
Definition sample_strtof (s : bytes) : float := if s =?b "0.5" then half else if s =?b "0" then float0 else float1.

(** Who refuses identity gets small bodies compressed, too. *)
Definition wish : bytes := "br;q=0.5, gzip, identity;q=0".

Definition asking (accept : bytes) : HttpRequest.HttpRequest :=
  HttpRequest.addHeader "Accept-Encoding" accept (HttpRequest.fresh [] 0).

Definition page : Response (ChunkFn codec (list bytes)) := Plain (HttpResponse.HttpResponse_typed 200 "text/html" "<p>hello</p>").

Definition sample_build (_ : HttpRequest.HttpRequest) (code : Z) (_ : bytes) : outcome HttpResponse.HttpResponse :=
  Ret (HttpResponse.HttpResponse_code code).

Lemma compression_spec_witness :
  exists resp', CompressionMiddleware default_config sample_strtof sample_build (mret page) (asking wish) = (Ret resp', asking wish) /\
    encoded "gzip" page resp'.
Proof.
  assert (H := compression_spec default_config sample_strtof sample_build (mret page) (asking wish) page _ eq_refl eq_refl).
  assert (Ep : parseQValues sample_strtof (toLowerCase (HttpRequest.getHeader "Accept-Encoding" (get_request (asking wish))))
    = ([("br" : bytes, half); ("gzip" : bytes, float1)], [("identity" : bytes)])) by (vm_compute; reflexivity).
  cbv zeta in H. rewrite Ep in H.
  assert (E1 : (HttpRequest.getHeader "Accept-Encoding" (get_request (asking wish)) =?b "") || mustSkip page = false)
    by (vm_compute; reflexivity).
  assert (E2 : negb (existsb (beqb "identity") [("identity" : bytes)]) && tooSmall default_config page = false) by (vm_compute; reflexivity).
  rewrite E1, E2 in H. destruct (H ltac:(vm_compute; reflexivity)) as [(e & resp' & He & _ & Hb & Ha & Hn & _)|[Hn _]].
  - exists resp'. split; [exact Ha|]. apply list_elem_of_In in He as [<-|[<-|[]]]; [|exact Hn].
    assert (X : by_quality ("gzip" : bytes, float1) ("br" : bytes, half) = true) by (vm_compute; reflexivity).
    rewrite (Hb ("gzip" : bytes, float1)) in X; [discriminate|right; left|reflexivity].
  - discriminate (Hn ("gzip" : bytes, float1) ltac:(right; left)).
Defined.

(** The chunk function of a handler with a list of blocks. *)
Definition blocks (l : list bytes) : M unit (option bytes * list bytes) :=
  mret (match l with [] => (None, []) | b :: l => (Some b, l) end).

Lemma compressed_stream_witness :
  exists c outs fn', yields (nextChunk blocks 9) (Compressed c (Source (literals ["hello, "; "world"])) false) tt outs fn' tt /\
    undelay (concat outs) = Some (list_ascii_of_string "hello, world").
Proof.
  destruct (codec_new_ok (Zs := delay) (Bs := delay) 1) as [_ (c & Ec & _ & En)].
  destruct (compressed_stream default_config blocks "gzip" c (Source (literals ["hello, "; "world"])) tt (literals ["hello, "; "world"])
    (Source []) tt 1 9) as (outs & c' & Y & D & _).
  - unfold getCompressor. change (STATIC_GZIP_COMPRESS_LEVEL default_config) with 1%Z. by rewrite Ec.
  - eapply y_chunk; [reflexivity|]. eapply y_chunk; [reflexivity|]. by apply y_end.
  - cbn. lia.
  - exists c, outs, (Compressed c' (Source []) true). split; [exact Y|]. rewrite En in D. exact D.
Defined.

(** "*" means the default compressor, also when it was refused by name. *)
Example star_is_br :
  let '(prefs, excluded) := parseQValues (fun _ => float0) "br;q=0, *" in
  map fst prefs = [("*" : bytes)] /\ excluded = [("br" : bytes)] /\
  exists c : codec, pick default_config prefs = Ret (Some c) /\ getEncoding c = "br".
Proof. vm_compute. split; [done|]. split; [done|]. eexists. by split. Qed.
End CompressionWitnesses.
