(* ===== verification/FileIO.v ===== *)
(** Files ([core/AsyncFileReader.hpp], [AsyncFileWriter.hpp], [FileCache.hpp], and the
    part of std::filesystem that the server uses).  The file system and the
    completions of io_uring are an interface. *)
From S2P Require Import Prelude Bytes Effects HttpUtils.
From S2P Require HttpFileResponse.

#[local] Arguments list_ascii_of_string : simpl never.

(** ** Paths: [std::filesystem::path] on POSIX *)
Definition is_absolute (p : bytes) : bool := match p with c :: _ => Ascii.eqb c SLASH | [] => false end.

(** [path / path] *)
Definition path_append (p q : bytes) : bytes :=
  if is_absolute q then q
  else match last p with
       | Some c => if Ascii.eqb c SLASH then p ++ q else p ++ SLASH :: q
       | None => q
       end.

(** What follows the last slash. *)
Definition filename (p : bytes) : bytes := List.last (split_on SLASH p) [].

Definition DOT : ascii := "."%char.

(** [path::extension]: from the last dot on; a leading dot begins no extension. *)
Definition extension (p : bytes) : bytes :=
  let f := filename p in
  if (f =?b ".") || (f =?b "..") then []
  else match find_char DOT (rev f) with
       | Some i => if bool_decide (length f - 1 - i = 0) then [] else drop (length f - 1 - i) f
       | None => []
       end.

(** [path::parent_path] *)
Definition parent_path (p : bytes) : bytes :=
  let q := take (length p - length (filename p)) p in
  match q with
  | [] | [_] => q
  | _ => if bool_decide (last q = Some SLASH) then removelast q else q
  end.

Example extensions : map (fun s => extension (list_ascii_of_string s)) ["/a/b.html"; "/a.b/c"; "/a/.profile"; "x.tar.gz"; "/a/.."]
  = literals [".html"; ""; ""; ".gz"; ""].
Proof. reflexivity. Qed.

(** ** The system *)

(** Calls of the file system; those of std::filesystem may throw. *)
Class FileSystem (W : Type) := {
  weakly_canonical : bytes -> M W bytes;
  entry_exists : bytes -> M W bool;
  entry_is_directory : bytes -> M W bool;
  entry_file_size : bytes -> M W Z;
  entry_last_write_time : bytes -> M W Z;
  (** [O_RDONLY | O_NOFOLLOW | O_CLOEXEC] *)
  sys_open_read : bytes -> W -> (Z + HttpFileResponse.errno) * W;
  (** [O_RDONLY] alone *)
  sys_open : bytes -> W -> (Z + HttpFileResponse.errno) * W;
  (** [O_WRONLY | O_CREAT | O_TRUNC] *)
  sys_open_write : bytes -> W -> (Z + HttpFileResponse.errno) * W;
  sys_close : Z -> W -> W;
  create_directories : bytes -> W -> W;
  fs_rename : bytes -> bytes -> W -> bool * W;
  fs_remove : bytes -> M W unit;
  (** A completed read: the result code, and what the kernel put into the buffer. *)
  uring_read : Z -> Z -> Z -> W -> (Z * bytes) * W;
  uring_write : Z -> bytes -> Z -> W -> Z * W;
}.

(** A call that only returns. *)
Definition sys {W A} (f : W -> A * W) : M W A := fun w => let '(a, w) := f w in (Ret a, w).

(** ** AsyncFileReader *)
Section Files.
Context {W : Type} {FS : FileSystem W}.

Record AsyncFileReader := { fd_ : Z; ownsFd_ : bool; fileSize_ : option Z; offset_ : Z }.

Definition AsyncFileReader_sized (fd fileSize : Z) (owns : bool) : AsyncFileReader :=
  {| fd_ := fd; ownsFd_ := owns; fileSize_ := Some fileSize; offset_ := 0 |}.

Definition seek (offset : Z) (r : AsyncFileReader) : AsyncFileReader :=
  {| fd_ := fd_ r; ownsFd_ := ownsFd_ r; fileSize_ := fileSize_ r; offset_ := offset |}.

Definition setFileSize (size : Z) (r : AsyncFileReader) : AsyncFileReader :=
  {| fd_ := fd_ r; ownsFd_ := ownsFd_ r; fileSize_ := Some size; offset_ := offset_ r |}.

(** [AsyncFileReader::open]; the size is asked for after the file was opened. *)
Definition AsyncFileReader_open (path : bytes) : M W (option AsyncFileReader) :=
  r ← sys (sys_open path);
  match r with
  | inl fd => size ← entry_file_size path; mret (Some (AsyncFileReader_sized fd size true))
  | inr _ => mret None
  end.

(** Moving from a reader: the new object, and what is left.  The assignment does the
    same to its left side, whose descriptor it does not close. *)
Definition reader_move (other : AsyncFileReader) : AsyncFileReader * AsyncFileReader :=
  (other, {| fd_ := -1; ownsFd_ := ownsFd_ other; fileSize_ := fileSize_ other; offset_ := offset_ other |}).

(** [resize(n)] of a string or a vector: elements beyond the size are new zeros,
    also where memory was reserved. *)
Definition resize (n : Z) (buf : bytes) : bytes :=
  take (Z.to_nat n) buf ++ replicate (Z.to_nat n - length buf) NUL.

(** What a buffer of a certain size shows of a write at its beginning. *)
Definition landed (written buf : bytes) : bytes := take (length buf) written ++ drop (length written) buf.

(** [reserve], and a read into [data()]: the size of the buffer stays as it is. *)
Definition read_into (r : AsyncFileReader) (len : Z) (buf : bytes) : M W (Z * bytes) :=
  '(n, written) ← sys (uring_read (fd_ r) len (offset_ r));
  mret (n, landed written buf).

Definition readAllInto (r : AsyncFileReader) (buf : bytes) : M W bytes :=
  match fileSize_ r with
  | None => throw (RuntimeError "readAllInto(): File size not set")
  | Some size =>
      '(n, buf) ← read_into r size buf;
      if (n <? 0)%Z then throw (RuntimeError "readAllInto(): File Read Awaitable failed") else mret (resize n buf)
  end.

Definition readAll (r : AsyncFileReader) : M W bytes :=
  match fileSize_ r with
  | None => throw (RuntimeError "readAll(): File size not set")
  | Some size =>
      '(n, buf) ← read_into r size [];
      if (n <? 0)%Z then throw (RuntimeError "readAll(): File Read Awaitable failed") else mret (resize n buf)
  end.

Definition readChunk (r : AsyncFileReader) (size : Z) : M W (option bytes * AsyncFileReader) :=
  '(n, buf) ← read_into r size [];
  if (n <? 0)%Z then throw (RuntimeError "readChunk(): File Read Awaitable failed")
  else if (n =? 0)%Z then mret (None, r)
  else mret (Some (resize n buf), seek (u64 (offset_ r + n)) r).

(** Into a span, whose size is what it is. *)
Definition readChunkInto (r : AsyncFileReader) (buf : bytes) : M W (bool * bytes * AsyncFileReader) :=
  let size := Z.of_nat (length buf) in
  '(n, buf) ← read_into r size buf;
  if (n <? 0)%Z then throw (RuntimeError "readChunk(): File Read Awaitable failed")
  else if (n <? size)%Z then mret (false, buf, r)
  else mret (true, buf, seek (u64 (offset_ r + n)) r).

(** ** AsyncFileWriter *)
Record AsyncFileWriter := { writer_fd : Z; writer_offset : Z }.

Definition AsyncFileWriter_open (path : bytes) : M W (option AsyncFileWriter) :=
  r ← sys (sys_open_write path);
  mret (match r with inl fd => Some {| writer_fd := fd; writer_offset := 0 |} | inr _ => None end).

(** The default offset, [(uint64_t)-1]: the position of the file. *)
Definition FILE_POSITION : Z := u64 (-1).

Definition writeAll (w : AsyncFileWriter) (data : bytes) : M W bool :=
  n ← sys (uring_write (writer_fd w) data FILE_POSITION);
  mret (n =? Z.of_nat (length data))%Z.

Definition writeChunk (w : AsyncFileWriter) (data : bytes) : M W (bool * AsyncFileWriter) :=
  n ← sys (uring_write (writer_fd w) data (writer_offset w));
  if (n <? 0)%Z then mret (false, w)
  else mret (true, {| writer_fd := writer_fd w; writer_offset := u64 (writer_offset w + n) |}).

(** The destructors. *)
Definition reader_close (r : AsyncFileReader) : M W unit :=
  if ownsFd_ r && negb (fd_ r =? -1)%Z then modify (sys_close (fd_ r)) else mret tt.
Definition writer_close (w : AsyncFileWriter) : M W unit :=
  if negb (writer_fd w =? -1)%Z then modify (sys_close (writer_fd w)) else mret tt.

Definition writer_move (other : AsyncFileWriter) : AsyncFileWriter * AsyncFileWriter :=
  (other, {| writer_fd := -1; writer_offset := writer_offset other |}).

(** The assignment closes the descriptor of the left side. *)
Definition writer_assign (w other : AsyncFileWriter) : M W (AsyncFileWriter * AsyncFileWriter) :=
  writer_close w ;; mret (writer_move other).

(** ** FileCache *)
Record CachedFile := {
  fd : Z;
  size : Z;
  mtime : Z;
  etag : bytes;
  mime : bytes;
  resolvedPath : bytes;
  cachedContent : option bytes;
}.

Definition cache_get (key : bytes) (c : gmap bytes CachedFile) : option CachedFile := c !! key.
Definition cache_insert (key : bytes) (cf : CachedFile) (c : gmap bytes CachedFile) : bool * gmap bytes CachedFile :=
  (bool_decide (c !! key = None), <[key := cf]> c).

Definition evict (key : bytes) (c : gmap bytes CachedFile) : M W (gmap bytes CachedFile) :=
  match c !! key with
  | Some cf => mwhen (negb (fd cf =? -1)%Z) (modify (sys_close (fd cf))) ;; mret (delete key c)
  | None => mret c
  end.

(** The destructor. *)
Definition close_all (c : gmap bytes CachedFile) : M W unit :=
  modify (fun w => foldr (fun entry w => if negb (fd entry.2 =? -1)%Z then sys_close (fd entry.2) w else w) w (map_to_list c)).
End Files.

Abbreviation FileCache := (gmap bytes CachedFile).

(** ** What is read *)

Lemma resize_empty n : resize n [] = replicate (Z.to_nat n) NUL.
Proof. unfold resize. by rewrite take_nil, Nat.sub_0_r. Qed.

Section Reads.
Context {W : Type} {FS : FileSystem W}.

Lemma read_into_empty (r : AsyncFileReader) len w :
  read_into r len [] w = let '((n, _), w') := uring_read (fd_ r) len (offset_ r) w in (Ret (n, []), w').
Proof.
  unfold read_into, sys, mbind, M_bind. destruct (uring_read _ _ _ w) as [[n written] w']. unfold landed.
  by rewrite take_0, drop_nil.
Qed.

Lemma readChunk_zeros (r : AsyncFileReader) len w n written w' :
  uring_read (fd_ r) len (offset_ r) w = ((n, written), w') -> (0 < n)%Z ->
  readChunk r len w = (Ret (Some (replicate (Z.to_nat n) NUL), seek (u64 (offset_ r + n)) r), w').
Proof.
  intros E Hn. pose proof (read_into_empty r len w) as R. rewrite E in R. unfold readChunk.
  rewrite (mbind_Ret _ _ _ _ _ R), (proj2 (Z.ltb_ge n 0)), (proj2 (Z.eqb_neq n 0)), resize_empty by lia. done.
Qed.

(** Reading into memory that was only reserved loses what was read: whatever the
    file holds and whatever the system returns, a successful [readAll], [readChunk], or
    [readAllInto] into an empty buffer gives as many zero bytes as were read. *)
Theorem read_loses_content (r : AsyncFileReader) len w n written w' :
  uring_read (fd_ r) len (offset_ r) w = ((n, written), w') -> (0 < n)%Z ->
  let zeros := replicate (Z.to_nat n) NUL in
  readChunk r len w = (Ret (Some zeros, seek (u64 (offset_ r + n)) r), w') /\
  (fileSize_ r = Some len -> readAll r w = (Ret zeros, w') /\ readAllInto r [] w = (Ret zeros, w')).
Proof.
  intros E Hn zeros. pose proof (read_into_empty r len w) as R. rewrite E in R.
  assert (L : (n <? 0)%Z = false) by lia. split; [by eapply readChunk_zeros|].
  intros S. unfold readAll, readAllInto. rewrite S, !(mbind_Ret _ _ _ _ _ R), L, resize_empty. done.
Qed.

(** A span keeps its size, and the read reaches it. *)
Lemma readChunkInto_reads (r : AsyncFileReader) buf w written w' :
  uring_read (fd_ r) (Z.of_nat (length buf)) (offset_ r) w = ((Z.of_nat (length buf), written), w') ->
  length written = length buf ->
  readChunkInto r buf w = (Ret (true, written, seek (u64 (offset_ r + Z.of_nat (length buf))) r), w').
Proof.
  intros E L. assert (R : read_into r (Z.of_nat (length buf)) buf w = (Ret (Z.of_nat (length buf), landed written buf), w')).
  { unfold read_into, sys, mbind, M_bind. by rewrite E. }
  unfold readChunkInto. rewrite (mbind_Ret _ _ _ _ _ R), (proj2 (Z.ltb_ge (Z.of_nat (length buf)) 0)), Z.ltb_irrefl by lia.
  unfold landed. rewrite <- L, firstn_all, L, drop_all, app_nil_r. done.
Qed.
End Reads.

(** ** Files in memory: an instance for examples

    A file is a path with its content and time; a directory is a path below which
    there is a file.  Paths are resolved by their text: there are no links. *)
Module MemoryFiles.
Record disk := { files : gmap bytes (bytes * Z); opened : gmap Z bytes; next_fd : Z }.

Definition on_files (f : gmap bytes (bytes * Z) -> gmap bytes (bytes * Z)) (d : disk) : disk :=
  {| files := f (files d); opened := opened d; next_fd := next_fd d |}.

Fixpoint resolve (parts acc : list bytes) : list bytes :=
  match parts with
  | [] => rev acc
  | p :: rest =>
      if (p =?b ".") || (p =?b "") then resolve rest acc
      else if p =?b ".." then resolve rest (List.tl acc)
      else resolve rest (p :: acc)
  end.
Definition canonical (p : bytes) : bytes := SLASH :: join_with SLASH (resolve (split_on SLASH p) []).

Definition is_dir (p : bytes) (d : disk) : bool :=
  existsb (fun f => prefixb (p ++ [SLASH]) f.1) (map_to_list (files d)).

Definition open_path (path : bytes) (d : disk) : (Z + HttpFileResponse.errno) * disk :=
  match files d !! path with
  | Some _ => (inl (next_fd d), {| files := files d; opened := <[next_fd d := path]> (opened d); next_fd := next_fd d + 1 |})
  | None => (inr HttpFileResponse.ENOENT, d)
  end.

Definition read_at (fd len off : Z) (d : disk) : Z * bytes :=
  match path ← opened d !! fd; files d !! path with
  | Some (content, _) =>
      let b := take (Z.to_nat len) (drop (Z.to_nat off) content) in (Z.of_nat (length b), b)
  | None => (-9, [])
  end%Z.

(** Writing at the end is all that is needed. *)
Definition append_to (fd : Z) (data : bytes) (d : disk) : Z * disk :=
  match opened d !! fd with
  | Some path => (Z.of_nat (length data), on_files (alter (fun f => (f.1 ++ data, f.2)) path) d)
  | None => (-9, d)
  end%Z.

#[export] Instance memory : FileSystem disk := {
  weakly_canonical p := mret (canonical p);
  entry_exists p := gets (fun d => bool_decide (is_Some (files d !! p)) || is_dir p d);
  entry_is_directory p := gets (is_dir p);
  entry_file_size p := gets (fun d => match files d !! p with Some f => Z.of_nat (length f.1) | None => 0%Z end);
  entry_last_write_time p := gets (fun d => match files d !! p with Some f => f.2 | None => 0%Z end);
  sys_open_read := open_path;
  sys_open := open_path;
  sys_open_write p d := open_path p (on_files <[p := ([], 0%Z)]> d);
  sys_close fd d := {| files := files d; opened := delete fd (opened d); next_fd := next_fd d |};
  create_directories _ d := d;
  fs_rename a b d :=
    match files d !! a with Some f => (false, on_files (fun m => <[b := f]> (delete a m)) d) | None => (true, d) end;
  fs_remove p := modify (on_files (delete p));
  uring_read fd len off d := (read_at fd len off d, d);
  uring_write fd data _ d := append_to fd data d;
}.

Lemma read_loses_content_witness :
  let d := {| files := {[("/a" : bytes) := ("hello" : bytes, 0%Z)]}; opened := {[3%Z := ("/a" : bytes)]}; next_fd := 4 |} in
  exists r, fileSize_ r = Some 5%Z /\ readAll r d = (Ret (replicate 5 NUL), d).
Proof.
  intros d. exists (AsyncFileReader_sized 3 5 false). split; [reflexivity|].
  assert (E : uring_read 3 5 0 d = ((5%Z, list_ascii_of_string "hello"), d)) by (vm_compute; reflexivity).
  exact (proj1 (proj2 (read_loses_content (AsyncFileReader_sized 3 5 false) 5 d 5 _ d E ltac:(lia)) eq_refl)).
Defined.
End MemoryFiles.
