(* ===== verification/ByteRanges.v ===== *)
(** The body of a response with several byte ranges ([StaticMiddleware.cpp]: the
    closure [nextBlock], [constructContentRange], and the computation of the size). *)
From S2P Require Import Prelude Bytes Effects FileIO.

#[local] Arguments list_ascii_of_string : simpl never.

Definition constructContentRange (start end_ fileSize : Z) : bytes :=
  "content-range: bytes " ++ to_string start ++ "-" ++ to_string end_ ++ "/" ++ to_string fileSize.

(** The variables the closure captures. *)
Record ByteRanges := {
  file : AsyncFileReader;
  ranges : list (Z * Z);
  boundaryDelimiter : bytes;
  boundaryCore : bytes;
  fileSize : Z;
  start : Z;
  end_ : Z;
  idx : Z;
  mime : bytes;
  sentClosingBoundary : bool;
}.

(** The initialisers of the capture. *)
Definition ByteRanges_new (file : AsyncFileReader) (ranges : list (Z * Z)) (boundaryCore mime : bytes) (fileSize : Z) :
    ByteRanges :=
  {| file := file; ranges := ranges; boundaryDelimiter := "--" ++ boundaryCore; boundaryCore := boundaryCore;
     fileSize := fileSize; start := 1; end_ := 0; idx := -1; mime := mime; sentClosingBoundary := false |}.

Definition at_range (s e i : Z) (c : ByteRanges) : ByteRanges :=
  {| file := file c; ranges := ranges c; boundaryDelimiter := boundaryDelimiter c; boundaryCore := boundaryCore c;
     fileSize := fileSize c; start := s; end_ := e; idx := i; mime := mime c; sentClosingBoundary := sentClosingBoundary c |}.

Definition with_file (f : AsyncFileReader) (c : ByteRanges) : ByteRanges :=
  {| file := f; ranges := ranges c; boundaryDelimiter := boundaryDelimiter c; boundaryCore := boundaryCore c;
     fileSize := fileSize c; start := start c; end_ := end_ c; idx := idx c; mime := mime c;
     sentClosingBoundary := sentClosingBoundary c |}.

Definition set_closing (c : ByteRanges) : ByteRanges :=
  {| file := file c; ranges := ranges c; boundaryDelimiter := boundaryDelimiter c; boundaryCore := boundaryCore c;
     fileSize := fileSize c; start := start c; end_ := end_ c; idx := idx c; mime := mime c; sentClosingBoundary := true |}.

(** The header of a part. *)
Definition part_header (c : ByteRanges) (s e : Z) : bytes :=
  boundaryDelimiter c ++ CRLF ++ constructContentRange s e (fileSize c) ++ CRLF ++
  ("content-type: " ++ mime c ++ CRLF) ++ CRLF.

Section Stream.
Context {W : Type} {FS : FileSystem W} (STATIC_STREAM_CHUNK_SIZE : Z).

(** After the choice of the range: a piece of it, behind [body]. *)
Definition range_block (c : ByteRanges) (body : bytes) : M W (option bytes * ByteRanges) :=
  let c := with_file (seek (start c) (file c)) c in
  let len := Z.of_nat (length body) in
  let maxPayload := if (len <? STATIC_STREAM_CHUNK_SIZE)%Z then (STATIC_STREAM_CHUNK_SIZE - len)%Z else 0%Z in
  if (maxPayload =? 0)%Z then mret (Some body, c)
  else
    let blockEnd := Z.min (end_ c) (u64 (start c + maxPayload - 1)) in
    let blockSize := u64 (blockEnd - start c + 1) in
    let c := at_range (u64 (blockEnd + 1)) (end_ c) (idx c) c in
    '(chunk, f) ← readChunk (file c) blockSize;
    let c := with_file f c in
    match chunk with
    | None => mret (None, c)
    | Some chunk =>
        let body := body ++ chunk in
        mret (Some (if (blockEnd =? end_ c)%Z then body ++ CRLF else body), c)
    end.

(** One call of the closure. *)
Definition nextBlock (c : ByteRanges) : M W (option bytes * ByteRanges) :=
  if (end_ c <=? start c)%Z then
    let i := (idx c + 1)%Z in
    let c := at_range (start c) (end_ c) i c in
    if (i =? Z.of_nat (length (ranges c)))%Z then
      if sentClosingBoundary c then mret (None, c)
      else mret (Some ("--" ++ boundaryCore c ++ "--" ++ CRLF), set_closing c)
    else
      match ranges c !! Z.to_nat i with
      | None => undefined
      | Some (s, e) => let c := at_range s e i c in range_block c (part_header c s e)
      end
  else range_block c [].
End Stream.

(** A [size_t] passed as an [int]. *)
Definition to_int (x : Z) : Z :=
  let m := (x mod 2 ^ 32)%Z in if (m <? 2 ^ 31)%Z then m else (m - 2 ^ 32)%Z.

(** [totalSize] of a multipart response; digits are counted, not printed. *)
Definition range_size (boundaryDelimiter mime : bytes) (contentSize : Z) (r : Z * Z) : Z :=
  let partContentType := Z.of_nat (length ("content-type: " ++ mime ++ CRLF)) in
  let contentRangeBaseSize :=
    Z.of_nat (length ("content-range: bytes " : bytes) + length ("-" : bytes) + length ("/" : bytes) + length CRLF) in
  let boundary := (Z.of_nat (length boundaryDelimiter) + 2)%Z in
  let contentRangeSize := (contentRangeBaseSize + digit_count (to_int r.1) + digit_count (to_int r.2) +
    digit_count (to_int contentSize))%Z in
  (boundary + contentRangeSize + partContentType + 2 + (r.2 - r.1 + 1 + 2))%Z.

Definition multipart_size (boundaryDelimiter mime : bytes) (contentSize : Z) (l : list (Z * Z)) : Z :=
  u64 (fold_left (fun total r => (total + range_size boundaryDelimiter mime contentSize r)%Z) l 0%Z +
       (Z.of_nat (length boundaryDelimiter) + 4)).

(** ** How much is sent *)

(** [gives next f s l f' s']: the next calls give the blocks [l]. *)
Inductive gives {S F : Type} (next : F -> M S (option bytes * F)) : F -> S -> list bytes -> F -> S -> Prop :=
| g_none f s : gives next f s [] f s
| g_block f s b f1 s1 l f' s' : next f s = (Ret (Some b, f1), s1) -> gives next f1 s1 l f' s' -> gives next f s (b :: l) f' s'.

Lemma gives_app {S F : Type} (next : F -> M S (option bytes * F)) f s l f1 s1 k f2 s2 :
  gives next f s l f1 s1 -> gives next f1 s1 k f2 s2 -> gives next f s (l ++ k) f2 s2.
Proof. induction 1; [done|]. intros H'. econstructor; eauto. Qed.

Definition total (l : list bytes) : Z := Z.of_nat (length (concat l)).

Lemma total_nil : total [] = 0%Z.
Proof. done. Qed.

Lemma total_cons b l : total (b :: l) = (Z.of_nat (length b) + total l)%Z.
Proof. unfold total. cbn [concat]. rewrite length_app. lia. Qed.

Lemma total_app l k : total (l ++ k) = (total l + total k)%Z.
Proof. unfold total. rewrite concat_app, length_app. lia. Qed.

(** What does not change from call to call. *)
Definition capture_of (c : ByteRanges) :=
  (ranges c, boundaryDelimiter c, boundaryCore c, fileSize c, mime c, sentClosingBoundary c, fd_ (file c)).

Section Sent.
Context {W : Type} {FS : FileSystem W} (CHUNK : Z) (fd size : Z).
#[local] Open Scope Z_scope.

(** Every read of the file within its size is complete. *)
Definition complete_reads : Prop :=
  forall off len w, 0 <= off -> 0 < len -> off + len <= size ->
    exists written w', uring_read fd len off w = ((len, written), w').

Context (reads : complete_reads) (chunk_pos : 1 < CHUNK < 2 ^ 62) (size_max : 0 <= size < 2 ^ 62).

Lemma u64_ok z : 0 <= z < 2 ^ 63 -> u64 z = z.
Proof. intros H. apply u64_small. unfold is_u64. rewrite two64_val. lia. Qed.

Lemma range_block_sends c body w :
  fd_ (file c) = fd -> 0 <= start c <= end_ c -> end_ c < size -> Z.of_nat (length body) < CHUNK ->
  let blockEnd := Z.min (end_ c) (start c + (CHUNK - Z.of_nat (length body)) - 1) in
  exists block c' w', range_block CHUNK c body w = (Ret (Some block, c'), w') /\
    capture_of c' = capture_of c /\ idx c' = idx c /\ end_ c' = end_ c /\ start c' = blockEnd + 1 /\
    Z.of_nat (length block) =
      Z.of_nat (length body) + (blockEnd - start c + 1) + (if blockEnd =? end_ c then 2 else 0).
Proof.
  intros Hfd Hs He Hb blockEnd. unfold range_block. rewrite (proj2 (Z.ltb_lt _ _) Hb).
  rewrite (proj2 (Z.eqb_neq (CHUNK - Z.of_nat (length body)) 0)) by lia. cbn [end_ start idx file with_file at_range].
  rewrite (u64_ok (start c + _ - 1)) by lia. fold blockEnd.
  assert (B : start c <= blockEnd <= end_ c) by (unfold blockEnd; lia). rewrite !u64_ok by lia.
  destruct (reads (start c) (blockEnd - start c + 1) w) as (written & w' & E); [lia..|].
  assert (R : readChunk (seek (start c) (file c)) (blockEnd - start c + 1) w =
    (Ret (Some (replicate (Z.to_nat (blockEnd - start c + 1)) NUL),
          seek (u64 (start c + (blockEnd - start c + 1))) (seek (start c) (file c))), w')).
  { apply (readChunk_zeros (seek (start c) (file c)) _ w _ written w'); [|lia]. cbn [seek fd_ offset_]. by rewrite Hfd. }
  rewrite (mbind_Ret _ _ _ _ _ R). eexists _, _, _. split; [reflexivity|].
  split_and!; [unfold capture_of; cbn; by rewrite Hfd|done|done|done|].
  destruct (blockEnd =? end_ c); rewrite ?length_app, length_replicate; cbn [length CRLF]; lia.
Qed.

(** Whether a piece of a range leaves exactly one byte behind: [n] bytes of which the
    first block takes what the header [h] leaves room for. *)
Definition loses (h n : Z) : bool := (CHUNK - h <? n) && ((n - (CHUNK - h)) mod CHUNK =? 1).
Definition lost (h n : Z) : Z := if loses h n then 3 else 0.

Lemma rest_sends r : forall c w, fd_ (file c) = fd -> 0 <= start c -> end_ c < size ->
  end_ c - start c + 1 = Z.of_nat r -> (2 <= r)%nat ->
  exists l c' w', gives (nextBlock CHUNK) c w l c' w' /\
    capture_of c' = capture_of c /\ idx c' = idx c /\ end_ c' <= start c' /\
    total l = Z.of_nat r + 2 - (if Z.of_nat r mod CHUNK =? 1 then 3 else 0).
Proof.
  induction r as [r IH] using lt_wf_ind. intros c w Hfd Hs He Hr R2.
  destruct (range_block_sends c [] w Hfd ltac:(lia) He ltac:(cbn; lia)) as (b & c1 & w1 & E & Cp & Ix & En & St & Ln).
  change (Z.of_nat (length (@nil ascii))) with 0 in St, Ln. set (blockEnd := Z.min (end_ c) (start c + (CHUNK - 0) - 1)) in *.
  assert (N : nextBlock CHUNK c w = (Ret (Some b, c1), w1)).
  { unfold nextBlock. rewrite (proj2 (Z.leb_gt (end_ c) (start c))) by lia. exact E. }
  assert (Fd : fd_ (file c1) = fd) by (unfold capture_of in Cp; congruence).
  revert Ln. destruct (Z.eqb_spec blockEnd (end_ c)) as [D|D]; intros Ln.
  - exists [b], c1, w1. split; [by econstructor; [|constructor]|]. split_and!; [done|done|lia|].
    rewrite total_cons, total_nil. assert (Z.of_nat r mod CHUNK <> 1).
    { destruct (Z.eq_dec (Z.of_nat r) CHUNK) as [->|]; [rewrite Z.mod_same; lia|rewrite Z.mod_small; unfold blockEnd in *; lia]. }
    rewrite (proj2 (Z.eqb_neq _ 1)) by done. lia.
  - assert (B : blockEnd = start c + CHUNK - 1) by (unfold blockEnd in *; lia).
    assert (Q : Z.of_nat r mod CHUNK = (Z.of_nat r - CHUNK) mod CHUNK).
    { replace (Z.of_nat r) with (Z.of_nat r - CHUNK + 1 * CHUNK) at 1 by lia. apply Z.mod_add. lia. }
    destruct (Z.eq_dec (Z.of_nat r - CHUNK) 1) as [O|O].
    + exists [b], c1, w1. split; [by econstructor; [|constructor]|]. split_and!; [done|done|lia|].
      rewrite total_cons, total_nil, Q, O, Z.mod_small by lia. cbn. lia.
    + destruct (IH (r - Z.to_nat CHUNK)%nat ltac:(lia) c1 w1 Fd) as (l & c2 & w2 & G & Cp2 & Ix2 & En2 & T); [lia..|].
      exists (b :: l), c2, w2. split; [by econstructor|]. split_and!; [congruence|congruence|done|].
      rewrite total_cons, T, Q. replace (Z.of_nat (r - Z.to_nat CHUNK)) with (Z.of_nat r - CHUNK) by lia. lia.
Qed.

(** From one range to the end of the next. *)
Lemma range_sends c w s e :
  fd_ (file c) = fd -> end_ c <= start c -> 0 <= idx c + 1 -> ranges c !! Z.to_nat (idx c + 1) = Some (s, e) ->
  0 <= s <= e -> e < size -> Z.of_nat (length (part_header c s e)) < CHUNK ->
  exists l c' w', gives (nextBlock CHUNK) c w l c' w' /\
    capture_of c' = capture_of c /\ idx c' = idx c + 1 /\ end_ c' <= start c' /\
    let h := Z.of_nat (length (part_header c s e)) in
    total l = h + (e - s + 1) + 2 - lost h (e - s + 1).
Proof.
  intros Hfd Hes Hi Hl Hse He Hh. set (i := idx c + 1) in *. set (h := Z.of_nat (length (part_header c s e))) in *.
  set (c0 := at_range s e i c).
  destruct (range_block_sends c0 (part_header c s e) w Hfd ltac:(done) He Hh) as (b & c1 & w1 & E & Cp & Ix & En & St & Ln).
  cbn [start end_ idx at_range c0] in Ix, En, St, Ln. set (blockEnd := Z.min e _) in *.
  assert (N : nextBlock CHUNK c w = (Ret (Some b, c1), w1)).
  { unfold nextBlock. rewrite (proj2 (Z.leb_le _ _) Hes). fold i. cbn [ranges at_range].
    apply lookup_lt_Some in Hl as Hlt. rewrite (proj2 (Z.eqb_neq i _)) by lia. by rewrite Hl. }
  assert (Fd : fd_ (file c1) = fd) by (unfold capture_of in Cp; cbn in Cp; congruence).
  unfold lost, loses. revert Ln. destruct (Z.eqb_spec blockEnd e) as [D|D]; intros Ln.
  - exists [b], c1, w1. split; [by econstructor; [|constructor]|]. split_and!; [exact Cp|exact Ix|lia|].
    cbv zeta. rewrite total_cons, total_nil, (proj2 (Z.ltb_ge (CHUNK - h) _)) by (unfold blockEnd in *; lia). cbn [andb]. lia.
  - assert (B : blockEnd = s + (CHUNK - h) - 1) by (unfold blockEnd in *; lia).
    rewrite (proj2 (Z.ltb_lt (CHUNK - h) _)) by (unfold blockEnd in *; lia). cbn [andb].
    set (r := e - s + 1 - (CHUNK - h)). destruct (Z.eq_dec r 1) as [O|O].
    + exists [b], c1, w1. split; [by econstructor; [|constructor]|]. split_and!; [exact Cp|exact Ix|lia|].
      rewrite total_cons, total_nil, O, Z.mod_small by lia. cbn. lia.
    + destruct (rest_sends (Z.to_nat r) c1 w1 Fd) as (l & c2 & w2 & G & Cp2 & Ix2 & En2 & T); [unfold blockEnd, r in *; lia..|].
      exists (b :: l), c2, w2. split; [by econstructor|]. split_and!; [by rewrite Cp2|congruence|done|].
      rewrite total_cons, T. rewrite Z2Nat.id by (unfold blockEnd, r in *; lia). unfold r. lia.
Qed.

Definition n_of (r : Z * Z) : Z := r.2 - r.1 + 1.
Definition header_length (c : ByteRanges) (r : Z * Z) : Z := Z.of_nat (length (part_header c r.1 r.2)).

Definition fits (c : ByteRanges) (r : Z * Z) : Prop := 0 <= r.1 <= r.2 /\ r.2 < size /\ header_length c r < CHUNK.

Definition sent_of (c : ByteRanges) (l : list (Z * Z)) : Z :=
  fold_right (fun r acc => header_length c r + n_of r + 2 - lost (header_length c r) (n_of r) + acc) 0 l.

Lemma header_captured c c' r : capture_of c' = capture_of c -> header_length c' r = header_length c r.
Proof. unfold capture_of, header_length, part_header. intros H. injection H as _ -> _ -> -> _ _. done. Qed.

Lemma sent_captured c c' l : capture_of c' = capture_of c -> sent_of c' l = sent_of c l.
Proof. intros H. induction l as [|r l IH]; [done|]. cbn [sent_of fold_right]. unfold sent_of in IH. by rewrite IH, !(header_captured _ _ _ H). Qed.

Lemma ranges_send l : forall before c w, ranges c = before ++ l -> fd_ (file c) = fd -> end_ c <= start c ->
  idx c = Z.of_nat (length before) - 1 -> Forall (fits c) l ->
  exists blocks c' w', gives (nextBlock CHUNK) c w blocks c' w' /\ capture_of c' = capture_of c /\
    idx c' = Z.of_nat (length (ranges c)) - 1 /\ end_ c' <= start c' /\ total blocks = sent_of c l.
Proof.
  induction l as [|[s e] l IH]; intros before c w Hr Hfd He Hi Hf.
  - exists [], c, w. split; [constructor|]. split_and!; [done| |done|done]. by rewrite Hr, app_nil_r.
  - apply Forall_cons in Hf as [(F1 & F2 & F3) Hf]. cbn [fst snd] in F1, F2.
    destruct (range_sends c w s e Hfd He) as (b1 & c1 & w1 & G1 & Cp & Ix & En & T1); [lia| |done..|].
    { rewrite Hi, Hr. replace (Z.to_nat (Z.of_nat (length before) - 1 + 1)) with (length before) by lia.
      by rewrite list_lookup_middle. }
    destruct (IH (before ++ [(s, e)]) c1 w1) as (b2 & c2 & w2 & G2 & Cp2 & Ix2 & En2 & T2).
    + unfold capture_of in Cp. assert (ranges c1 = ranges c) as -> by congruence. by rewrite Hr, <- app_assoc.
    + unfold capture_of in Cp. congruence.
    + done.
    + rewrite Ix, Hi, length_app. cbn [length]. lia.
    + eapply Forall_impl; [exact Hf|]. intros r (A & B & D). split; [done|]. split; [done|]. by rewrite (header_captured _ _ _ Cp).
    + exists (b1 ++ b2), c2, w2. split; [by eapply gives_app|]. split_and!; [congruence| |done|].
      * rewrite Ix2. unfold capture_of in Cp. congruence.
      * rewrite total_app, T1, T2, (sent_captured _ _ _ Cp). reflexivity.
Qed.

Lemma to_int_digits x : 0 <= x < 2 ^ 31 -> digit_count (to_int x) = Z.of_nat (length (to_string x)).
Proof.
  intros H. unfold to_int, to_string. rewrite Z.mod_small by lia. rewrite (proj2 (Z.ltb_lt x _)), (proj2 (Z.ltb_ge x 0)) by lia.
  apply digit_count_to_chars. lia.
Qed.

Lemma range_size_header c r : fits c r -> size < 2 ^ 31 -> fileSize c = size ->
  range_size (boundaryDelimiter c) (mime c) size r = header_length c r + n_of r + 2.
Proof.
  intros (A & B & _) Hs Hf. unfold range_size, header_length, n_of, part_header, constructContentRange.
  rewrite Hf, !to_int_digits by lia. rewrite !length_app. cbn [length list_ascii_of_string CRLF]. lia.
Qed.
End Sent.

(** The body of a response with several ranges, if the file can be read: the calls
    of the closure give blocks whose number of bytes is the announced Content-Length
    less three for every range of which a block leaves exactly one byte (that byte and
    the line end are not sent), the last of them the closing delimiter; and the call
    after it, which the connection makes, reads behind the end of the ranges. *)
Theorem multipart_stream {W : Type} {FS : FileSystem W} (CHUNK fd size : Z) (l : list (Z * Z)) (core mime : bytes) (w : W) :
  complete_reads fd size -> (1 < CHUNK < 2 ^ 62)%Z -> (0 <= size < 2 ^ 31)%Z ->
  let c := ByteRanges_new (AsyncFileReader_sized fd size false) l core mime size in
  Forall (fits CHUNK size c) l ->
  let missing := fold_right (fun r acc => lost CHUNK (header_length c r) (n_of r) + acc)%Z 0%Z l in
  exists blocks c' w',
    gives (nextBlock CHUNK) c w (blocks ++ [("--" ++ core ++ "--" ++ CRLF)%list]) c' w' /\
    multipart_size ("--" ++ core) mime size l = u64 (total (blocks ++ [("--" ++ core ++ "--" ++ CRLF)%list]) + missing) /\
    exists w'', nextBlock CHUNK c' w' = (Undef, w'').
Proof.
  intros Hr Hc Hs c Hf missing.
  destruct (ranges_send CHUNK fd size Hr Hc ltac:(lia) l [] c w eq_refl eq_refl ltac:(cbn; lia) eq_refl Hf)
    as (blocks & c1 & w1 & G & Cp & Ix & En & T).
  assert (Rg : ranges c1 = l /\ sentClosingBoundary c1 = false /\ boundaryCore c1 = core) by (unfold capture_of in Cp; cbn in Cp; naive_solver).
  destruct Rg as (Rg & Sc & Co).
  set (c2 := set_closing (at_range (start c1) (end_ c1) (idx c1 + 1) c1)).
  assert (N : nextBlock CHUNK c1 w1 = (Ret (Some ("--" ++ core ++ "--" ++ CRLF)%list, c2), w1)).
  { unfold nextBlock. rewrite (proj2 (Z.leb_le _ _) En). cbn [ranges at_range sentClosingBoundary boundaryCore].
    rewrite Rg, Sc, Co, (proj2 (Z.eqb_eq (idx c1 + 1) _)); [done|]. rewrite Ix. change (ranges c) with l. lia. }
  exists blocks, c2, w1. split; [|split].
  - eapply gives_app; [exact G|]. econstructor; [exact N|constructor].
  - rewrite total_app, total_cons, total_nil, T. unfold multipart_size.
    assert (E : forall k, Forall (fits CHUNK size c) k -> forall acc,
      fold_left (fun total r => (total + range_size ("--" ++ core) mime size r)%Z) k acc =
      (acc + sent_of CHUNK c k + fold_right (fun r acc => lost CHUNK (header_length c r) (n_of r) + acc)%Z 0%Z k)%Z).
    { intros k Hk. induction Hk as [|r k Hr' _ IH]; intros acc; cbn [fold_left fold_right sent_of]; [lia|].
      rewrite IH. unfold sent_of. pose proof (range_size_header CHUNK size ltac:(lia) c r Hr' ltac:(lia) eq_refl) as E.
      change (boundaryDelimiter c) with ("--" ++ core) in E. change (ByteRanges.mime c) with mime in E. rewrite E. lia. }
    rewrite (E l Hf). fold missing. f_equal. rewrite !length_app.
    change (length (list_ascii_of_string "--")) with 2. change (length CRLF) with 2. lia.
  - exists w1. unfold nextBlock. cbn [c2 end_ start idx set_closing at_range ranges sentClosingBoundary].
    rewrite (proj2 (Z.leb_le _ _) En), Ix. change (ranges c) with l. rewrite Rg, (proj2 (Z.eqb_neq _ _)) by lia.
    rewrite lookup_ge_None_2 by lia. done.
Qed.

Module ByteRangesWitnesses.
(** A system of which every read is complete. *)
#[local] Instance zeros : FileSystem unit := {
  weakly_canonical p := mret p; entry_exists _ := mret true; entry_is_directory _ := mret false;
  entry_file_size _ := mret 200%Z; entry_last_write_time _ := mret 0%Z;
  sys_open_read _ w := (inl 3%Z, w); sys_open_write _ w := (inl 4%Z, w); sys_close _ w := w;
  sys_open _ w := (inl 3%Z, w);
  create_directories _ w := w; fs_rename _ _ w := (false, w); fs_remove _ := mret tt;
  uring_read _ len _ w := ((len, replicate (Z.to_nat len) "a"%char), w);
  uring_write _ data _ w := (Z.of_nat (length data), w);
}.

(** The part of the bytes 10 to 17 has a header of 56 bytes: a block of 63 takes seven
    of the eight, and one is left. *)
Definition sample : list (Z * Z) := [(0, 4); (10, 17)]%Z.

Lemma multipart_stream_witness :
  let c := ByteRanges_new (AsyncFileReader_sized 3 200 false) sample "B" "x" 200 in
  exists blocks c' w', gives (nextBlock 63) c tt blocks c' w' /\ u64 (total blocks + 3) = 134%Z /\
    multipart_size "--B" "x" 200 sample = 134%Z /\ exists w'', nextBlock 63 c' w' = (Undef, w'').
Proof.
  intros c.
  assert (F : Forall (fits 63 200 c) sample) by (repeat constructor; vm_compute; (lia || discriminate || reflexivity)).
  destruct (multipart_stream 63 3 200 sample "B" "x" tt) as (blocks & c' & w' & G & M & U).
  - intros off len w _ _ _. by exists (replicate (Z.to_nat len) "a"%char), w.
  - lia.
  - lia.
  - exact F.
  - exists (blocks ++ [list_ascii_of_string "--" ++ list_ascii_of_string "B" ++ list_ascii_of_string "--" ++ CRLF]), c', w'.
    split; [exact G|]. assert (V : multipart_size "--B" "x" 200 sample = 134%Z) by (vm_compute; reflexivity).
    assert (L : fold_right (fun r acc => lost 63 (header_length c r) (n_of r) + acc)%Z 0%Z sample = 3%Z) by (vm_compute; reflexivity).
    fold c in M. rewrite L in M. split; [|split; [exact V|exact U]]. rewrite <- M. exact V.
Defined.
End ByteRangesWitnesses.
