(* ===== verification/StaticFiles.v ===== *)
(** Looking up static files ([StaticMiddleware.cpp]: [lookupOrOpen],
    [lookupOrBuildCompressed], the setters, and the helpers they use): the cache of the
    thread in front of the file system, and that what is served lies under the root. *)
From S2P Require Import Prelude Bytes Effects HttpUtils ServerConfig MimeTypes Compression FileIO.
From S2P Require HttpFileResponse.

#[local] Arguments list_ascii_of_string : simpl never.

(** ** Helpers *)
Fixpoint etag_loop (fuel : nat) (cacheHeader etag : bytes) : bool :=
  match fuel with
  | O => false
  | S fuel =>
      match cacheHeader with
      | [] => false
      | _ =>
          let end_ := find_char "," cacheHeader in
          let token := trim (match end_ with Some i => take i cacheHeader | None => cacheHeader end) in
          if token =?b etag then true
          else match end_ with None => false | Some i => etag_loop fuel (drop (i + 1) cacheHeader) etag end
      end
  end.

Definition etagMatches (cacheHeader etag : bytes) : bool := etag_loop (length cacheHeader) cacheHeader etag.

Definition getNormalizedPath (path : bytes) : bytes :=
  let path := unique both_slash path in
  let path := erase_front path in
  erase_back path.

Definition generateETag (mtime size : Z) (compression : bytes) : bytes :=
  DQUOTE :: (to_string mtime ++ "-" ++ to_string size ++ "-" ++ compression ++ [DQUOTE]).

(** ** The middleware's members *)
Record StaticConfig := {
  root : bytes;
  prefix : bytes;
  mimeCacheControl : gmap bytes bytes;
  defaultCacheControl : bytes;
}.

(** The error factory is a parameter of the handler. *)
Record StaticState := { config_ : StaticConfig; canonicalRoot_ : bytes; compressedRoot_ : bytes }.

(** ** The thread: its cache, its counters, and the system *)
Record Process (W : Type) := { tl_file_cache : FileCache; myThreadId : Z; tmpCounter : Z; world : W }.
Arguments tl_file_cache {W}. Arguments myThreadId {W}. Arguments tmpCounter {W}. Arguments world {W}.
Arguments Build_Process {W}.

Section Lookup.
Context {W : Type} {FS : FileSystem W} (cfg : ServerConfig).
#[local] Abbreviation Process := (Process W).

Definition on_world {A} (m : M W A) : M Process A := fun p =>
  let '(r, w) := m (world p) in (r, Build_Process (tl_file_cache p) (myThreadId p) (tmpCounter p) w).

Definition on_cache (f : FileCache -> FileCache) : M Process unit :=
  modify (fun p => Build_Process (f (tl_file_cache p)) (myThreadId p) (tmpCounter p) (world p)).

Definition StaticMiddleware_new (config : StaticConfig) : M W StaticState :=
  canonicalRoot ← weakly_canonical (root config);
  compressedRoot ← weakly_canonical (STATIC_CACHE_DIR cfg);
  mret {| config_ := config; canonicalRoot_ := canonicalRoot; compressedRoot_ := compressedRoot |}.

Definition with_config (c : StaticConfig) (s : StaticState) : StaticState :=
  {| config_ := c; canonicalRoot_ := canonicalRoot_ s; compressedRoot_ := compressedRoot_ s |}.

Definition setRoot (r : bytes) (s : StaticState) : M W StaticState :=
  let c := config_ s in
  canonicalRoot ← weakly_canonical r;
  mret {| config_ := {| root := r; prefix := prefix c; mimeCacheControl := mimeCacheControl c;
                        defaultCacheControl := defaultCacheControl c |};
          canonicalRoot_ := canonicalRoot; compressedRoot_ := compressedRoot_ s |}.

Definition setPrefix (p : bytes) (s : StaticState) : StaticState :=
  let c := config_ s in
  with_config {| root := root c; prefix := p; mimeCacheControl := mimeCacheControl c;
                 defaultCacheControl := defaultCacheControl c |} s.

Definition setMimeCacheControl (mimeType cacheControlHeader : bytes) (s : StaticState) : StaticState :=
  let c := config_ s in
  with_config {| root := root c; prefix := prefix c; mimeCacheControl := <[mimeType := cacheControlHeader]> (mimeCacheControl c);
                 defaultCacheControl := defaultCacheControl c |} s.

Definition setDefaultCacheControl (cacheControlHeader : bytes) (s : StaticState) : StaticState :=
  let c := config_ s in
  with_config {| root := root c; prefix := prefix c; mimeCacheControl := mimeCacheControl c;
                 defaultCacheControl := cacheControlHeader |} s.

(** An assignment through the reference: the object it refers to is replaced. *)
Definition setErrorFactory {E : Type} (errorFactory : E) : M E unit := modify (fun _ => errorFactory).

(** ** lookupOrOpen: a file, or the status of an error *)

(** A directory stands for its index. *)
Definition index_of (resolved : bytes) : M W (option bytes) :=
  exists_ ← entry_exists resolved;
  if negb (exists_ : bool) then mret None
  else
    dir ← entry_is_directory resolved;
    if (dir : bool) then
      let resolved := path_append resolved "index.html" in
      exists_ ← entry_exists resolved;
      mret (if (exists_ : bool) then Some resolved else None)
    else mret (Some resolved).

Definition open_failure (e : HttpFileResponse.errno) : Z :=
  match e with HttpFileResponse.EACCES | HttpFileResponse.EPERM => 403 | _ => 500 end.

(** The entry for a file that was just opened. *)
Definition describe (resolved : bytes) (descriptor : Z) : M W CachedFile :=
  size ← entry_file_size resolved;
  mtime ← entry_last_write_time resolved;
  content ← (if (size <? FILE_CONTENT_CACHE_THRESHOLD cfg)%Z
             then c ← readAllInto (AsyncFileReader_sized descriptor size false) []; mret (Some c)
             else mret None);
  mret {| fd := descriptor; size := size; mtime := mtime; etag := generateETag mtime size [];
          mime := mime_type (extension resolved); resolvedPath := resolved; cachedContent := content |}.

Definition lookupOrOpen (s : StaticState) (key : bytes) : M Process (CachedFile + Z) :=
  alreadyExistingFile ← gets (fun p => cache_get key (tl_file_cache p));
  match alreadyExistingFile with
  | Some cf => mret (inl cf)
  | None =>
      resolved ← on_world (weakly_canonical (path_append (canonicalRoot_ s) key));
      if negb (starts_with (canonicalRoot_ s) resolved) then mret (inr 403%Z)
      else
        target ← on_world (index_of resolved);
        match target with
        | None => mret (inr 404%Z)
        | Some resolved =>
            opened ← on_world (sys (sys_open_read resolved));
            match opened with
            | inr e => mret (inr (open_failure e))
            | inl descriptor =>
                cf ← on_world (describe resolved descriptor);
                on_cache (fun c => (cache_insert key cf c).2) ;;
                mret (inl cf)
            end
        end
  end.

(** ** lookupOrBuildCompressed *)

(** The destructor of the writer runs however its scope is left. *)
Definition closing {A} (w : AsyncFileWriter) (m : M Process A) : M Process A := fun p =>
  let '(r, p) := m p in (r, (on_world (writer_close w) p).2).

Definition temporary (compressedPath : bytes) : M Process bytes :=
  p ← gets (fun p => p);
  modify (fun p => Build_Process (tl_file_cache p) (myThreadId p) (u64 (tmpCounter p + 1)) (world p)) ;;
  mret (compressedPath ++ ".tmp." ++ to_string (myThreadId p) ++ "." ++ to_string (tmpCounter p)).

Section Compressing.
Context {C : Type} {IC : ICompressor C}.

(** Once the compressed bytes are in the file of the temporary name: it gets its final
    name, and is opened. *)
Definition publish (key tmpPath compressedPath encoding : bytes) (contentSize : Z) (source : CachedFile) :
    M Process (CachedFile + Z) :=
  renameEc ← on_world (sys (fs_rename tmpPath compressedPath));
  if (renameEc : bool) then on_world (fs_remove tmpPath) ;; mret (inr 500%Z)
  else
    opened ← on_world (sys (sys_open_read compressedPath));
    match opened with
    | inr _ => mret (inr 500%Z)
    | inl descriptor =>
        let cf := {| fd := descriptor; size := contentSize; mtime := mtime source;
                     etag := generateETag (mtime source) contentSize encoding; mime := mime source;
                     resolvedPath := compressedPath; cachedContent := None |} in
        on_cache (fun c => (cache_insert key cf c).2) ;;
        mret (inl cf)
    end.

Definition lookupOrBuildCompressed (s : StaticState) (relative encoding : bytes) (source : CachedFile) (compressor : C) :
    M Process (CachedFile + Z) :=
  let key := relative ++ "|" ++ encoding in
  alreadyExistingFile ← gets (fun p => cache_get key (tl_file_cache p));
  match alreadyExistingFile with
  | Some cf => mret (inl cf)
  | None =>
      raw ← on_world (readAll (AsyncFileReader_sized (fd source) (size source) false));
      compressed ← lift (compress raw compressor).1;
      let compressedPath := path_append (compressedRoot_ s) (relative ++ "." ++ encoding) in
      on_world (modify (create_directories (parent_path compressedPath))) ;;
      tmpPath ← temporary compressedPath;
      writerOpt ← on_world (AsyncFileWriter_open tmpPath);
      match writerOpt with
      | None => mret (inr 500%Z)
      | Some writer =>
          closing writer
            (ok ← on_world (writeAll writer compressed);
             if negb (ok : bool) then on_world (fs_remove tmpPath) ;; mret (inr 500%Z)
             else publish key tmpPath compressedPath encoding (Z.of_nat (length compressed)) source)
      end
  end.
End Compressing.
End Lookup.

(** ** What is served *)
Section Confined.
Context {W : Type} {FS : FileSystem W} (cfg : ServerConfig) (canonical : bytes -> Prop).

(** A path that the test of the prefix lets through: a canonical path that begins with
    the text of the root, or the index of such a directory. *)
Definition served (s : StaticState) (p : bytes) : Prop :=
  exists rest, canonical (canonicalRoot_ s ++ rest) /\
    (p = canonicalRoot_ s ++ rest \/ p = path_append (canonicalRoot_ s ++ rest) "index.html").

(** The name of a compressed copy. *)
Definition copy (s : StaticState) (key p : bytes) : Prop :=
  exists relative encoding, key = relative ++ "|" ++ encoding /\
    p = path_append (compressedRoot_ s) (relative ++ "." ++ encoding).

Definition cache_served (s : StaticState) (p : Process W) : Prop :=
  forall key cf, tl_file_cache p !! key = Some cf -> served s (resolvedPath cf) \/ copy s key (resolvedPath cf).

Lemma on_world_inv {A} (m : M W A) p r p' :
  on_world m p = (r, p') -> exists w', m (world p) = (r, w') /\ p' = Build_Process (tl_file_cache p) (myThreadId p) (tmpCounter p) w'.
Proof. unfold on_world. destruct (m (world p)) as [r0 w']. intros [= <- <-]. eauto. Qed.

Lemma index_of_inv resolved w o w' :
  index_of resolved w = (Ret o, w') ->
  match o with Some t => t = resolved \/ t = path_append resolved "index.html" | None => True end.
Proof.
  unfold index_of. intros (e & w1 & _ & H)%mbind_inv. destruct e; cbn [negb] in H; [|by injection H as <- _].
  apply mbind_inv in H as (d & w2 & _ & H). destruct d; [|injection H as <- _; by left].
  apply mbind_inv in H as (e & w3 & _ & H). injection H as <- _. destruct e; [by right|done].
Qed.

Lemma describe_inv resolved descriptor w cf w' :
  describe cfg resolved descriptor w = (Ret cf, w') ->
  resolvedPath cf = resolved /\ fd cf = descriptor /\ etag cf = generateETag (mtime cf) (size cf) [].
Proof.
  unfold describe. intros (sz & w1 & _ & H)%mbind_inv. apply mbind_inv in H as (mt & w2 & _ & H).
  apply mbind_inv in H as (c & w3 & _ & H). by injection H as <- _.
Qed.

Lemma cache_served_insert s p key cf :
  cache_served s p -> served s (resolvedPath cf) \/ copy s key (resolvedPath cf) ->
  cache_served s (on_cache (fun c => (cache_insert key cf c).2) p).2.
Proof.
  intros H Hc k cf'. cbn [snd on_cache modify tl_file_cache cache_insert].
  destruct (decide (k = key)) as [->|N]; [rewrite lookup_insert_eq; by intros [= <-]|].
  rewrite lookup_insert_ne by done. apply H.
Qed.

Lemma cache_served_world s p w : cache_served s p -> cache_served s (Build_Process (tl_file_cache p) (myThreadId p) (tmpCounter p) w).
Proof. done. Qed.

Definition good_result (s : StaticState) (key : bytes) (r : CachedFile + Z) : Prop :=
  match r with
  | inl cf => served s (resolvedPath cf) \/ copy s key (resolvedPath cf)
  | inr status => status = 403%Z \/ status = 404%Z \/ status = 500%Z
  end.

Context (canonical_ok : forall path w q w', weakly_canonical path w = (Ret q, w') -> canonical q).

Lemma lookupOrOpen_good s key p r p' :
  cache_served s p -> lookupOrOpen cfg s key p = (Ret r, p') -> cache_served s p' /\ good_result s key r.
Proof.
  intros Hc. unfold lookupOrOpen. rewrite (mbind_Ret _ _ _ (cache_get key (tl_file_cache p)) p) by done.
  unfold cache_get. destruct (tl_file_cache p !! key) as [cf|] eqn:Ek; [intros [= <- <-]; split; [done|by apply (Hc key)]|].
  intros (resolved & p1 & (w1 & Ew & ->)%on_world_inv & H)%mbind_inv.
  destruct (starts_with (canonicalRoot_ s) resolved) eqn:Es; cbn [negb] in H; [|injection H as <- <-; split; [done|by left]].
  apply prefixb_spec in Es as [rest ->]. apply canonical_ok in Ew.
  apply mbind_inv in H as (target & p2 & (w2 & Et & ->)%on_world_inv & H).
  destruct target as [t|]; [|injection H as <- <-; split; [done|by right; left]]. apply index_of_inv in Et.
  apply mbind_inv in H as (o & p3 & (w3 & _ & ->)%on_world_inv & H).
  destruct o as [d|e]; [|injection H as <- <-; split; [done|destruct e; cbn; auto]].
  apply mbind_inv in H as (cf & p4 & (w4 & Ed & ->)%on_world_inv & H). apply describe_inv in Ed as (Ep & _).
  injection H as <- <-. assert (G : served s (resolvedPath cf)) by (rewrite Ep; by exists rest).
  split; [|by left]. apply (cache_served_insert s (Build_Process (tl_file_cache p) (myThreadId p) (tmpCounter p) w4)); auto.
Qed.

(** A file that was found is in the cache, and a file in the cache is found. *)
Lemma lookup_found s key p cf p' : lookupOrOpen cfg s key p = (Ret (inl cf), p') ->
  tl_file_cache p' = <[key := cf]> (tl_file_cache p) /\
  (tl_file_cache p !! key = Some cf \/ etag cf = generateETag (mtime cf) (size cf) []).
Proof.
  unfold lookupOrOpen. rewrite (mbind_Ret _ _ _ (cache_get key (tl_file_cache p)) p) by done. unfold cache_get.
  destruct (tl_file_cache p !! key) as [cf0|] eqn:Ek.
  { intros [= -> <-]. split; [by rewrite insert_id|by left]. }
  intros (resolved & p1 & (w1 & _ & ->)%on_world_inv & H)%mbind_inv. destruct (negb _); [done|].
  apply mbind_inv in H as (target & p2 & (w2 & _ & ->)%on_world_inv & H). destruct target as [t|]; [|done].
  apply mbind_inv in H as (o & p3 & (w3 & _ & ->)%on_world_inv & H). destruct o as [d|e]; [|done].
  apply mbind_inv in H as (cf0 & p4 & (w4 & Ed & ->)%on_world_inv & H). injection H as -> <-.
  split; [done|]. right. by apply describe_inv in Ed as (_ & _ & ->).
Qed.

Lemma lookup_hit s key p cf : tl_file_cache p !! key = Some cf -> lookupOrOpen cfg s key p = (Ret (inl cf), p).
Proof.
  intros E. unfold lookupOrOpen. rewrite (mbind_Ret _ _ _ (cache_get key (tl_file_cache p)) p) by done.
  unfold cache_get. by rewrite E.
Qed.

Context {C : Type} {IC : ICompressor C}.

Lemma copy_hit s relative encoding source (compressor : C) p cf :
  tl_file_cache p !! (relative ++ "|" ++ encoding) = Some cf ->
  lookupOrBuildCompressed s relative encoding source compressor p = (Ret (inl cf), p).
Proof.
  intros E. unfold lookupOrBuildCompressed.
  rewrite (mbind_Ret _ _ _ (cache_get (relative ++ "|" ++ encoding) (tl_file_cache p)) p) by done.
  unfold cache_get. by rewrite E.
Qed.

Lemma closing_inv {A} w (m : M (Process W) A) p r p' :
  closing w m p = (r, p') -> exists p1, m p = (r, p1) /\ tl_file_cache p' = tl_file_cache p1.
Proof.
  unfold closing. destruct (m p) as [r1 p1]. intros [= <- <-]. exists p1. split; [done|].
  unfold on_world. by destruct (writer_close w (world p1)).
Qed.

Lemma copy_found s relative encoding source compressor p cf p' :
  lookupOrBuildCompressed s relative encoding source compressor p = (Ret (inl cf), p') ->
  tl_file_cache p' = <[relative ++ "|" ++ encoding := cf]> (tl_file_cache p) /\
  (tl_file_cache p !! (relative ++ "|" ++ encoding) = Some cf \/ exists n, etag cf = generateETag (mtime source) n encoding).
Proof.
  unfold lookupOrBuildCompressed.
  rewrite (mbind_Ret _ _ _ (cache_get (relative ++ "|" ++ encoding) (tl_file_cache p)) p) by done. unfold cache_get.
  destruct (tl_file_cache p !! (relative ++ "|" ++ encoding)) as [cf0|] eqn:Ek.
  { intros [= -> <-]. split; [by rewrite insert_id|by left]. }
  intros (raw & p1 & (w1 & _ & ->)%on_world_inv & H)%mbind_inv.
  apply mbind_inv in H as (z & p2 & Hz & H). unfold lift in Hz. injection Hz as _ <-.
  apply mbind_inv in H as ([] & p3 & (w3 & _ & ->)%on_world_inv & H).
  apply mbind_inv in H as (tmp & p4 & Ht & H). injection Ht as _ <-.
  apply mbind_inv in H as (wo & p5 & (w5 & _ & ->)%on_world_inv & H). destruct wo as [writer|]; [|done].
  apply closing_inv in H as (p6 & H & ->).
  apply mbind_inv in H as (ok & p7 & (w7 & _ & ->)%on_world_inv & H). destruct ok; cbn [negb] in H.
  2: { by apply mbind_inv in H as ([] & p8 & (w8 & _ & ->)%on_world_inv & H). }
  unfold publish in H. apply mbind_inv in H as (b & p8 & (w8 & _ & ->)%on_world_inv & H). destruct b.
  { by apply mbind_inv in H as ([] & p9 & (w9 & _ & ->)%on_world_inv & H). }
  apply mbind_inv in H as (o & p9 & (w9 & _ & ->)%on_world_inv & H). destruct o as [d|e]; [|done].
  cbn beta iota zeta in H. injection H as <- <-. split; [done|]. right. by eexists.
Qed.

Lemma publish_good s relative encoding tmpPath n source p r p' :
  cache_served s p ->
  publish (relative ++ "|" ++ encoding) tmpPath (path_append (compressedRoot_ s) (relative ++ "." ++ encoding)) encoding n source p
    = (Ret r, p') -> cache_served s p' /\ good_result s (relative ++ "|" ++ encoding) r.
Proof.
  intros Hc. unfold publish. intros (b & p1 & (w1 & _ & ->)%on_world_inv & H)%mbind_inv. destruct b.
  { apply mbind_inv in H as ([] & p2 & (w2 & _ & ->)%on_world_inv & H). injection H as <- <-. split; [done|by right; right]. }
  apply mbind_inv in H as (o & p2 & (w2 & _ & ->)%on_world_inv & H).
  destruct o as [d|e]; [|injection H as <- <-; split; [done|by right; right]]. cbn beta iota zeta in H.
  injection H as <- <-. assert (G : copy s (relative ++ "|" ++ encoding) (path_append (compressedRoot_ s) (relative ++ "." ++ encoding)))
    by (by exists relative, encoding).
  split; [|by right]. apply (cache_served_insert s (Build_Process (tl_file_cache p) (myThreadId p) (tmpCounter p) w2)); auto.
Qed.

Lemma lookupOrBuildCompressed_good s relative encoding source compressor p r p' :
  cache_served s p -> lookupOrBuildCompressed s relative encoding source compressor p = (Ret r, p') ->
  cache_served s p' /\ good_result s (relative ++ "|" ++ encoding) r.
Proof.
  intros Hc. unfold lookupOrBuildCompressed.
  rewrite (mbind_Ret _ _ _ (cache_get (relative ++ "|" ++ encoding) (tl_file_cache p)) p) by done. unfold cache_get.
  destruct (tl_file_cache p !! (relative ++ "|" ++ encoding)) as [cf|] eqn:Ek; [intros [= <- <-]; split; [done|by apply (Hc _ cf)]|].
  intros (raw & p1 & (w1 & _ & ->)%on_world_inv & H)%mbind_inv.
  apply mbind_inv in H as (z & p2 & Hz & H). unfold lift in Hz. injection Hz as _ <-.
  apply mbind_inv in H as ([] & p3 & (w3 & _ & ->)%on_world_inv & H).
  apply mbind_inv in H as (tmp & p4 & Ht & H). injection Ht as _ <-.
  apply mbind_inv in H as (wo & p5 & (w5 & _ & ->)%on_world_inv & H).
  destruct wo as [writer|]; [|injection H as <- <-; split; [done|by right; right]].
  apply closing_inv in H as (p6 & H & Ec).
  assert (K : cache_served s p6 /\ good_result s (relative ++ "|" ++ encoding) r).
  { apply mbind_inv in H as (ok & p7 & (w7 & _ & ->)%on_world_inv & H). destruct ok; cbn [negb] in H.
    - by apply publish_good in H.
    - apply mbind_inv in H as ([] & p8 & (w8 & _ & ->)%on_world_inv & H). injection H as <- <-. split; [done|by right; right]. }
  destruct K as [K G]. split; [|done]. unfold cache_served. by rewrite Ec.
Qed.


(** The cache decides before the root does: once a lookup has found a file, every
    later lookup of the same key gives the same file without asking the system, also
    when it was changed or removed, and also through a middleware with another root. *)
Theorem lookup_cached s s' key p cf p' p'' :
  lookupOrOpen cfg s key p = (Ret (inl cf), p') -> tl_file_cache p'' = tl_file_cache p' ->
  lookupOrOpen cfg s' key p'' = (Ret (inl cf), p'').
Proof. intros [H _]%lookup_found E. apply lookup_hit. by rewrite E, H, lookup_insert_eq. Qed.
End Confined.

(** ** Entity tags *)
Definition etag_ok (e : bytes) : Prop := e <> [] /\ (","%char ∉ e) /\ no_blank_ends e.

Lemma to_string_chars n c : isdigit c = false -> c <> "-"%char -> c ∉ to_string n.
Proof.
  intros D N. assert (K : forall m, (0 <= m)%Z -> c ∉ to_chars 10 m).
  { intros m Hm Hin. pose proof (to_chars_decimal m Hm) as H. rewrite forallb_forall in H.
    rewrite (H c) in D; [done|]. by apply list_elem_of_In. }
  unfold to_string. destruct (Z.ltb_spec n 0); [|by apply K; lia].
  rewrite not_elem_of_app. split; [|apply K; lia]. intros Hin. by apply list_elem_of_singleton in Hin.
Qed.

Lemma generateETag_ok m n enc : (","%char ∉ enc) -> etag_ok (generateETag m n enc).
Proof.
  intros H. unfold generateETag. set (body := to_string m ++ "-" ++ to_string n ++ "-" ++ enc).
  assert (Hb : ","%char ∉ body).
  { unfold body. rewrite !not_elem_of_app. split_and!; try done; try (by apply to_string_chars);
      intros Hin; apply list_elem_of_In in Hin; vm_compute in Hin; naive_solver. }
  replace (to_string m ++ "-" ++ to_string n ++ "-" ++ enc ++ [DQUOTE]) with (body ++ [DQUOTE]) by (unfold body; by rewrite <- !app_assoc).
  split_and!; [done| |].
  - rewrite not_elem_of_cons, not_elem_of_app. split_and!; [done|done|]. intros Hin. by apply list_elem_of_singleton in Hin.
  - unfold no_blank_ends. split; [done|]. change (DQUOTE :: body ++ [DQUOTE]) with ([DQUOTE] ++ body ++ [DQUOTE]).
    by rewrite !rev_app_distr.
Qed.

Lemma etagMatches_self e : etag_ok e -> etagMatches e e = true.
Proof.
  intros (N & C & B). unfold etagMatches. destruct e as [|c e]; [done|]. cbn [length etag_loop].
  rewrite (proj2 (find_char_None _ _) C), (trim_id _ B). by rewrite beqb_refl.
Qed.

Section Tags.
Context {W : Type} {FS : FileSystem W} (cfg : ServerConfig).

Definition etags_ok (p : Process W) : Prop := forall key cf, tl_file_cache p !! key = Some cf -> etag_ok (etag cf).

Lemma etags_ok_insert p key cf c : etags_ok p -> etag_ok (etag cf) -> tl_file_cache c = <[key := cf]> (tl_file_cache p) -> etags_ok c.
Proof.
  intros H Hc E k cf'. rewrite E. destruct (decide (k = key)) as [->|N]; [rewrite lookup_insert_eq; by intros [= <-]|].
  rewrite lookup_insert_ne by done. apply H.
Qed.

Lemma lookup_etags s key p cf p' : etags_ok p -> lookupOrOpen cfg s key p = (Ret (inl cf), p') -> etags_ok p' /\ etag_ok (etag cf).
Proof.
  intros H [E G]%lookup_found. assert (K : etag_ok (etag cf)).
  { destruct G as [G| ->]; [by eapply H|]. apply generateETag_ok. by apply not_elem_of_nil. }
  split; [|done]. by eapply etags_ok_insert.
Qed.

Lemma copy_etag {C} {IC : ICompressor C} s relative encoding source (compressor : C) p cf p' :
  etags_ok p -> (","%char ∉ encoding) ->
  lookupOrBuildCompressed s relative encoding source compressor p = (Ret (inl cf), p') -> etag_ok (etag cf).
Proof. intros H Hc (_ & [G|(n & ->)])%copy_found; [by eapply H|by apply generateETag_ok]. Qed.
End Tags.

(** ** Examples *)
Module StaticFilesWitnesses.
Import MemoryFiles.

(** Two directories, where the name of one is a prefix of that of the other. *)
Definition sample_disk : disk :=
  {| files := list_to_map [(("/srv/www/index.html" : bytes), (("<p>hello</p>" : bytes), 5000000000%Z));
                           (("/srv/www-private/key.pem" : bytes), (("secret" : bytes), 7000000000%Z))];
     opened := ∅; next_fd := 3 |}.

Definition start : Process disk := Build_Process ∅ 1 0 sample_disk.

Definition www : StaticState :=
  {| config_ := {| root := "/srv/www"; prefix := "static"; mimeCacheControl := ∅; defaultCacheControl := "no-cache" |};
     canonicalRoot_ := "/srv/www"; compressedRoot_ := "/var/cache" |}.

Definition found (path content : string) (mtime : Z) : CachedFile :=
  {| fd := 3; size := Z.of_nat (length (list_ascii_of_string content)); mtime := mtime;
     etag := generateETag mtime (Z.of_nat (length (list_ascii_of_string content))) [];
     mime := mime_type (extension path); resolvedPath := path;
     cachedContent := Some (replicate (length (list_ascii_of_string content)) NUL) |}.

#[local] Instance identity : ICompressor unit := {| compress b := mret b; feedChunk b := mret b; finish := mret []; getEncoding _ := [] |}.


Lemma lookup_cached_witness :
  let cf := found "/srv/www/index.html" "<p>hello</p>" 5000000000 in
  let elsewhere := {| config_ := config_ www; canonicalRoot_ := "/home"; compressedRoot_ := [] |} in
  exists p', lookupOrOpen default_config www [] start = (Ret (inl cf), p') /\
    let gone := Build_Process (tl_file_cache p') 1 0 {| files := ∅; opened := ∅; next_fd := 9 |} in
    lookupOrOpen default_config elsewhere [] gone = (Ret (inl cf), gone).
Proof.
  intros cf elsewhere. set (p' := Build_Process {[([] : bytes) := cf]} 1 0 (open_path "/srv/www/index.html" sample_disk).2).
  assert (E : lookupOrOpen default_config www [] start = (Ret (inl cf), p')) by (vm_compute; reflexivity).
  exists p'. split; [exact E|]. intros gone. exact (lookup_cached default_config www elsewhere [] start cf p' gone E eq_refl).
Defined.
End StaticFilesWitnesses.
