(* ===== verification/StaticMiddleware.v ===== *)
(** Static files ([http/middleware/StaticMiddleware.hpp], [StaticMiddleware.cpp]): the
    request handler, from the method and the prefix through conditional and range
    requests to the response.  The lookup is [StaticFiles.v], the body of several
    ranges [ByteRanges.v]. *)
From Stdlib Require Import Floats.SpecFloat.
From S2P Require Import Prelude Bytes Effects HeaderStore ServerConfig HttpDate HttpTypes ErrorFactory Compression FileIO StaticFiles.
From S2P Require Import Codecs.
From S2P Require ByteRanges Ranges HttpRequest HttpResponse HttpStreamResponse HttpFileResponse.

#[local] Arguments list_ascii_of_string : simpl never.

(** Where the thread of the process is in the state of a connection. *)
Class HasProcess (S W : Type) `{HasRequest S} := {
  get_process : S -> Process W;
  put_process : Process W -> S -> S;
  process_get_put p s : get_process (put_process p s) = p;
  request_put_process p s : get_request (put_process p s) = get_request s;
  process_put_get s : put_process (get_process s) s = s;
}.

(** What is sent: the file or its compressed copy. *)
Record Content := { contentFd : Z; contentSize : Z; eTag : bytes; finalEncoding : option bytes }.

Definition plain_content (f : CachedFile) : Content :=
  {| contentFd := fd f; contentSize := size f; eTag := etag f; finalEncoding := None |}.

Inductive condition := Proceed | NotModified | BadDate.

Section Static.
Context {S W C F : Type} {HR : HasRequest S} {HP : HasProcess S W} {FS : FileSystem W} {IC : ICompressor C} {CF : Compressors C}
  {SS : StdSort}.
Context (cfg : ServerConfig) (strtof : bytes -> float)
        (build : HttpRequest.HttpRequest -> Z -> bytes -> outcome HttpResponse.HttpResponse).

(** [std::hash] of the thread's id, the clock of files (in nanoseconds) as that of the
    system, and the closure of a multipart body as a chunk function. *)
Context (thread_hash : Z) (to_sys : Z -> Z) (multipart : ByteRanges.ByteRanges -> F).
#[local] Abbreviation Response := (Response F).
#[local] Abbreviation Next := (Next S F).

Definition on_process {A} (m : M (Process W) A) : M S A := fun s =>
  let '(r, p) := m (get_process s) in (r, put_process p s).

Definition buildErrorResponse (request : HttpRequest.HttpRequest) (statusCode : Z) : outcome HttpResponse.HttpResponse :=
  response ← build request statusCode [];
  let response := HttpResponse.with_headers (addHeaderLower "accept-ranges" "bytes") response in
  Ret (if HttpRequest.method_ request =?b "HEAD" then HttpResponse.stripBody response else response).

Definition error (request : HttpRequest.HttpRequest) (statusCode : Z) : M S Response :=
  r ← lift (buildErrorResponse request statusCode); mret (Plain r).

(** The path below the prefix. *)
Definition relative_path (pre path : bytes) : option bytes :=
  if negb ((path =?b pre) || starts_with (pre ++ "/") path) then None
  else
    let relative := drop (length pre) path in
    Some (match relative with c :: r => if Ascii.eqb c "/" then r else relative | [] => relative end).

Definition hasRangeHeader (request : HttpRequest.HttpRequest) : bool :=
  negb (HttpRequest.getHeaderLower "range" request =?b "").

Definition isCompressible (request : HttpRequest.HttpRequest) (f : CachedFile) : bool :=
  negb (hasRangeHeader request) && ENABLE_STATIC_COMPRESSION cfg &&
  negb (HttpRequest.getHeaderLower "accept-encoding" request =?b "") &&
  compressible (mime f) && (u64 (COMPRESS_MIN_BYTES cfg) <=? size f)%Z.

(** The loop stops at a compressor, or at "identity". *)
Fixpoint pick (encodingPrefs : list (bytes * float)) : outcome (option C) :=
  match encodingPrefs with
  | [] => Ret None
  | encoding :: rest =>
      compressor ← getCompressor (STATIC_GZIP_COMPRESS_LEVEL cfg) encoding.1;
      match compressor with
      | Some c => Ret (Some c)
      | None => if encoding.1 =?b "identity" then Ret None else pick rest
      end
  end.

(** The content, or an error. *)
Definition select_content (s : StaticState) (request : HttpRequest.HttpRequest) (relative : bytes) (f : CachedFile) :
    M S (Content + Z) :=
  if negb (isCompressible request f) then mret (inl (plain_content f))
  else
    let '(encodingPrefs, excluded) := parseQValues strtof (toLowerCase (HttpRequest.getHeaderLower "accept-encoding" request)) in
    if sortable encodingPrefs then
      let identityAllowed := negb (existsb (beqb "identity") excluded) in
      compressor ← lift (pick (std_sort by_quality encodingPrefs));
      match compressor with
      | None => mret (if identityAllowed then inl (plain_content f) else inr 406%Z)
      | Some compressor =>
          let finalEncoding := getEncoding compressor in
          compressed ← on_process (lookupOrBuildCompressed s relative finalEncoding f compressor);
          mret (match compressed with
                | inl cf => inl {| contentFd := fd cf; contentSize := size cf; eTag := etag cf; finalEncoding := Some finalEncoding |}
                | inr status => inr status
                end)
      end
    else undefined.

Definition lastWriteSeconds (f : CachedFile) : Z := Z.quot (to_sys (mtime f)) 1000000000.

Definition addCacheHeaders (eTag : bytes) (lastWrite : Z) (cacheControl : bytes) (hs : fields) : fields :=
  let hs := setCacheControl cacheControl hs in
  if contains_sub "no-store" cacheControl then hs
  else setHeaderLower "last-modified" (toHttpDate lastWrite) (setHeaderLower "etag" eTag hs).

(** If-None-Match and If-Modified-Since. *)
Definition conditional (request : HttpRequest.HttpRequest) (cacheControl eTag : bytes) (lastWrite : Z) : condition :=
  let ifNoneMatch := HttpRequest.getHeaderLower "if-none-match" request in
  let ifModifiedSince := HttpRequest.getHeaderLower "if-modified-since" request in
  if negb (contains_sub "no-store" cacheControl) && negb (hasRangeHeader request) then
    if negb (ifNoneMatch =?b "") && etagMatches ifNoneMatch eTag then NotModified
    else if negb (ifModifiedSince =?b "") then
      match parseHttpDate ifModifiedSince with
      | None => BadDate
      | Some date => if (lastWrite <=? date)%Z then NotModified else Proceed
      end
    else Proceed
  else Proceed.

Definition not_modified (eTag : bytes) (lastWrite : Z) (cacheControl : bytes) : HttpResponse.HttpResponse :=
  HttpResponse.with_headers (fun hs =>
    addHeaderLower "accept-ranges" "bytes"
      (addHeaderLower "vary" "accept-encoding" (addCacheHeaders eTag lastWrite cacheControl hs)))
    (HttpResponse.HttpResponse_code 304).

(** If-Range. *)
Definition useRange (request : HttpRequest.HttpRequest) (ranges : list (Z * Z)) (eTag : bytes) (lastWrite : Z) : bool :=
  let ifRange := HttpRequest.getHeaderLower "if-range" request in
  match ranges with
  | [] => false
  | _ =>
      match ifRange with
      | [] => true
      | c :: _ =>
          if Ascii.eqb c DQUOTE then etagMatches ifRange eTag
          else match parseHttpDate ifRange with Some date => (lastWrite <=? date)%Z | None => false end
      end
  end.

Definition boundaryCore : bytes := "Boundary" ++ to_string thread_hash.

(** *ranges\[0\].first and .second *)
Definition first_range (ranges : list (Z * Z)) : Z * Z := List.hd (0, 0)%Z ranges.

Definition totalSize (use isMultiPart : bool) (ranges : list (Z * Z)) (mime : bytes) (contentSize : Z) : Z :=
  if use && isMultiPart then ByteRanges.multipart_size ("--" ++ boundaryCore) mime contentSize ranges
  else if use then u64 ((first_range ranges).2 - (first_range ranges).1 + 1)
  else contentSize.

(** ** The response *)
Definition respond_head (use isMultiPart : bool) (ranges : list (Z * Z)) (mime cacheControl : bytes) (lastWrite : Z)
    (c : Content) : HttpResponse.HttpResponse :=
  let set k v := setHeaderLower k v in
  let '(status, hs) :=
    if isMultiPart then (206%Z, set "content-type" ("multipart/byteranges; boundary=" ++ boundaryCore) [])
    else if use then (206%Z, setContentRange (first_range ranges).1 (first_range ranges).2 (contentSize c) (set "content-type" mime []))
    else (200%Z, set "content-type" mime []) in
  let hs := match finalEncoding c with Some e => set "content-encoding" e hs | None => hs end in
  let hs := set "content-length" (to_string (totalSize use isMultiPart ranges mime (contentSize c))) hs in
  let hs := addHeaderLower "vary" "accept-encoding" (addHeaderLower "accept-ranges" "bytes" hs) in
  HttpResponse.with_headers (fun _ => addCacheHeaders (eTag c) lastWrite cacheControl hs)
    (HttpResponse.setStatusCode status HttpResponse.HttpResponse_default).

Definition respond_multipart (use : bool) (ranges : list (Z * Z)) (mime cacheControl : bytes) (lastWrite : Z) (c : Content) :
    HttpStreamResponse.HttpStreamResponse F :=
  let r := HttpStreamResponse.HttpStreamResponse_code 206 in
  let set k v r := HttpStreamResponse.Build_HttpStreamResponse F (setHeaderLower k v (HttpStreamResponse.headers r))
    (HttpStreamResponse.cookies r) (HttpStreamResponse.statusCode_ r) (HttpStreamResponse.version_ r)
    (HttpStreamResponse.isChunked_ r) (HttpStreamResponse.nextChunkFn_ r) in
  let r := set "accept-ranges" "bytes" r in
  let r := set "content-length" (to_string (totalSize use true ranges mime (contentSize c))) r in
  let r := HttpStreamResponse.setChunked false r in
  let r := set "content-type" ("multipart/byteranges; boundary=" ++ boundaryCore) r in
  let nextBlock := ByteRanges.ByteRanges_new (AsyncFileReader_sized (contentFd c) (contentSize c) false) ranges boundaryCore mime
    (contentSize c) in
  let r := HttpStreamResponse.setNextChunkFn (multipart nextBlock) r in
  HttpStreamResponse.Build_HttpStreamResponse F (addCacheHeaders (eTag c) lastWrite cacheControl (HttpStreamResponse.headers r))
    (HttpStreamResponse.cookies r) (HttpStreamResponse.statusCode_ r) (HttpStreamResponse.version_ r)
    (HttpStreamResponse.isChunked_ r) (HttpStreamResponse.nextChunkFn_ r).

Definition respond_file (use : bool) (ranges : list (Z * Z)) (f : CachedFile) (cacheControl : bytes) (lastWrite : Z) (c : Content) :
    HttpFileResponse.HttpFileResponse :=
  let r := HttpFileResponse.HttpFileResponse_typed 200 (mime f) (resolvedPath f) in
  let r := match cachedContent f with Some content => HttpFileResponse.setCachedFileContent (Some content) r | None => r end in
  let r := HttpFileResponse.setFd (contentFd c) false r in
  let r := HttpFileResponse.setContentLength (totalSize use false ranges (mime f) (contentSize c)) r in
  let r := HttpFileResponse.with_headers (addHeaderLower "accept-ranges" "bytes") r in
  let r := HttpFileResponse.with_headers (addHeaderLower "vary" "accept-encoding") r in
  let r := match finalEncoding c with
           | Some e => HttpFileResponse.with_headers (setHeaderLower "content-encoding" e) r | None => r end in
  let r := HttpFileResponse.with_headers (addCacheHeaders (eTag c) lastWrite cacheControl) r in
  if use then
    let r := HttpFileResponse.setStatusCode 206 r in
    let '(start, end_) := first_range ranges in
    let r := HttpFileResponse.setOffset start r in
    HttpFileResponse.with_headers (setContentRange start end_ (contentSize c)) r
  else r.

Definition respond (method : bytes) (use : bool) (ranges : list (Z * Z)) (f : CachedFile) (cacheControl : bytes) (lastWrite : Z)
    (c : Content) : Response :=
  let isMultiPart := 1 <? length ranges in
  if method =?b "HEAD" then Plain (respond_head use isMultiPart ranges (mime f) cacheControl lastWrite c)
  else if isMultiPart then Stream (respond_multipart use ranges (mime f) cacheControl lastWrite c)
  else File (respond_file use ranges f cacheControl lastWrite c).

(** What is done with a file that was found. *)
Definition serve (s : StaticState) (request : HttpRequest.HttpRequest) (relative : bytes) (f : CachedFile) : M S Response :=
  content ← select_content s request relative f;
  match content with
  | inr status => error request status
  | inl c =>
      let cacheControl := default (defaultCacheControl (config_ s)) (mimeCacheControl (config_ s) !! mime f) in
      let lastWrite := lastWriteSeconds f in
      match conditional request cacheControl (eTag c) lastWrite with
      | NotModified => mret (Plain (not_modified (eTag c) lastWrite cacheControl))
      | BadDate => error request 400
      | Proceed =>
          ranges ← lift (Ranges.validateAndCleanRanges (HttpRequest.getRanges request) (contentSize c));
          match ranges with
          | None => error request 416
          | Some ranges =>
              mret (respond (HttpRequest.method_ request) (useRange request ranges (eTag c) lastWrite) ranges f cacheControl
                      lastWrite c)
          end
      end
  end.

Definition StaticMiddleware (s : StaticState) (next : Next) : M S Response :=
  request ← gets get_request;
  let method := HttpRequest.method_ request in
  if negb ((method =?b "GET") || (method =?b "HEAD")) then next
  else
    match relative_path (prefix (config_ s)) (HttpRequest.path_ request) with
    | None => next
    | Some relative =>
        cachedOpt ← on_process (lookupOrOpen cfg s relative);
        match cachedOpt with
        | inr errorStatus => if (errorStatus =? 404)%Z then next else error request errorStatus
        | inl cachedFile => serve s request relative cachedFile
        end
    end.
End Static.

(** ** Revalidation *)
Section Revalidation.
Context {S W C F : Type} {HR : HasRequest S} {HP : HasProcess S W} {FS : FileSystem W} {IC : ICompressor C} {CF : Compressors C}
  {CL : CompressorLaws C} {SS : StdSort}.
Context (cfg : ServerConfig) (strtof : bytes -> float)
        (build : HttpRequest.HttpRequest -> Z -> bytes -> outcome HttpResponse.HttpResponse)
        (thread_hash : Z) (to_sys : Z -> Z) (multipart : ByteRanges.ByteRanges -> F).

(** [q'] is [q] but for the field [key]. *)
Definition same_but (key : bytes) (q q' : HttpRequest.HttpRequest) : Prop :=
  HttpRequest.method_ q' = HttpRequest.method_ q /\ HttpRequest.path_ q' = HttpRequest.path_ q /\
  forall k, k <> key -> HttpRequest.getHeaderLower k q' = HttpRequest.getHeaderLower k q.

Lemma pick_encoding l (c : C) : pick cfg l = Ret (Some c) -> ","%char ∉ getEncoding c.
Proof.
  induction l as [|e l IH]; [done|]. cbn [pick]. pose proof (getCompressor_spec (STATIC_GZIP_COMPRESS_LEVEL cfg) e.1) as H.
  destruct (supported e.1).
  - destruct H as (c0 & -> & _ & E). intros [= <-]. rewrite E. destruct (e.1 =?b "gzip"); intros Hin;
      apply list_elem_of_In in Hin; vm_compute in Hin; naive_solver.
  - rewrite H. cbn [mbind outcome_bind]. destruct (e.1 =?b "identity"); [done|]. exact IH.
Qed.

Lemma on_process_inv {A} (m : M (Process W) A) (s : S) r s' :
  on_process m s = (Ret r, s') -> exists p', m (get_process s) = (Ret r, p') /\ s' = put_process p' s.
Proof. unfold on_process. destruct (m (get_process s)) as [r0 p']. intros [= -> <-]. eauto. Qed.

Lemma on_process_same {A} (m : M (Process W) A) (s : S) r :
  m (get_process s) = (Ret r, get_process s) -> on_process m s = (Ret r, s).
Proof. unfold on_process. intros ->. by rewrite process_put_get. Qed.

(** What was selected is selected again, whatever was added to the request. *)
Lemma select_again sm q rel f (s : S) c s' :
  etags_ok (get_process s) -> etag_ok (etag f) -> tl_file_cache (get_process s) !! rel = Some f ->
  select_content cfg strtof sm q rel f s = (Ret (inl c), s') ->
  etag_ok (eTag c) /\ tl_file_cache (get_process s') !! rel = Some f /\
  forall q' (s2 : S), tl_file_cache (get_process s2) = tl_file_cache (get_process s') ->
    hasRangeHeader q' = hasRangeHeader q ->
    HttpRequest.getHeaderLower "accept-encoding" q' = HttpRequest.getHeaderLower "accept-encoding" q ->
    select_content cfg strtof sm q' rel f s2 = (Ret (inl c), s2).
Proof.
  intros He Hf Hc. unfold select_content, isCompressible.
  destruct (negb (negb (hasRangeHeader q) && _ && _ && _ && _)) eqn:Ec.
  { intros [= <- <-]. split_and!; [exact Hf|done|]. intros q' s2 _ -> ->. by rewrite Ec. }
  destruct (parseQValues strtof _) as [prefs excluded] eqn:Ep. destruct (sortable prefs) eqn:So; [|done].
  assert (Ei : exists ia, negb (existsb (beqb "identity") excluded) = ia) by eauto. destruct Ei as [ia Ei]. rewrite Ei.
  unfold lift at 1, mbind, M_bind at 1. destruct (pick cfg (std_sort by_quality prefs)) as [[comp|]| |] eqn:Epk; [| |done|done].
  - intros (r & s1 & (p' & E & ->)%on_process_inv & H)%mbind_inv. injection H as H <-. destruct r as [cf|st]; [|done].
    injection H as <-. pose proof (copy_etag sm rel (getEncoding comp) f comp _ cf p' He (pick_encoding _ _ Epk) E) as Ge.
    apply copy_found in E as [E _]. rewrite !process_get_put. split_and!; [exact Ge| |].
    + rewrite E, lookup_insert_ne; [done|]. intros X. apply (f_equal length) in X. rewrite !length_app in X.
      change (length (list_ascii_of_string "|")) with 1 in X. lia.
    + intros q' s2 Es -> ->. rewrite Ec, Ep, So. unfold lift, mbind, M_bind. rewrite Epk. cbv beta iota.
      rewrite (on_process_same _ s2 (inl cf)); [done|]. apply copy_hit. by rewrite Es, E, lookup_insert_eq.
  - intros H. destruct ia; [|done]. injection H as <- <-.
    split_and!; [exact Hf|done|]. intros q' s2 _ -> ->. rewrite Ec, Ep, So. unfold lift, mbind, M_bind.
    rewrite Epk. cbv beta iota. by rewrite Ei.
Qed.
Lemma get_set k key v hs : getHeaderLower k (setHeaderLower key v hs) = if key =?b k then v else getHeaderLower k hs.
Proof. unfold getHeaderLower, setHeaderLower, getLastOrDefault. rewrite assoc_last_set. by destruct (key =?b k). Qed.

(** The fields that a cache may keep, as the client reads them. *)
Lemma cache_fields e lw cc hs : contains_sub "no-store" (getHeader "Cache-Control" (addCacheHeaders e lw cc hs)) = false ->
  getHeader "ETag" (addCacheHeaders e lw cc hs) = e /\ getHeader "Last-Modified" (addCacheHeaders e lw cc hs) = toHttpDate lw /\
  contains_sub "no-store" cc = false.
Proof.
  change (getHeader "Cache-Control") with (getHeaderLower "cache-control"). change (getHeader "ETag") with (getHeaderLower "etag").
  change (getHeader "Last-Modified") with (getHeaderLower "last-modified"). unfold addCacheHeaders, setCacheControl.
  destruct (contains_sub "no-store" cc) eqn:E; rewrite !get_set; change ("cache-control" =?b "cache-control") with true; cbv iota;
    [congruence|done].
Qed.

Context (errors : forall q code x, build q code [] = Ret x -> HttpResponse.statusCode_ x <> 200%Z).
#[local] Abbreviation static := (StaticMiddleware cfg strtof build thread_hash to_sys multipart).
#[local] Abbreviation cache_control sm f := (default (defaultCacheControl (config_ sm)) (mimeCacheControl (config_ sm) !! mime f)).

Lemma error_not_200 q code (s : S) r s' : error build q code s = (Ret r, s') -> response_status (F := F) r <> 200%Z.
Proof.
  unfold error, buildErrorResponse. intros (x & s1 & E & H)%mbind_inv. injection H as <- <-. unfold lift in E.
  injection E as E _. apply outcome_bind_ret in E as (y & Ey & E). injection E as <-.
  apply errors in Ey. by destruct (_ =?b "HEAD").
Qed.

(** A complete answer to a request without Range: the file, and the fields of its content. *)
Lemma served_200 sm q rel f (s : S) resp s1 :
  serve cfg strtof build thread_hash to_sys multipart sm q rel f s = (Ret resp, s1) -> hasRangeHeader q = false ->
  response_status resp = 200%Z ->
  exists c, select_content cfg strtof sm q rel f s = (Ret (inl c), s1) /\
    conditional q (cache_control sm f) (eTag c) (lastWriteSeconds to_sys f) = Proceed /\
    exists hs, response_headers resp = addCacheHeaders (eTag c) (lastWriteSeconds to_sys f) (cache_control sm f) hs.
Proof.
  unfold serve. intros (content & s2 & E & H)%mbind_inv Hr H200. destruct content as [c|st]; [|by apply error_not_200 in H].
  cbv zeta in H. destruct (conditional _ _ _ _) eqn:Ec; [|by injection H as <- <-|by apply error_not_200 in H].
  assert (R : HttpRequest.getRanges q = []).
  { unfold HttpRequest.getRanges. unfold hasRangeHeader in Hr. apply negb_false_iff, beqb_eq in Hr. by rewrite Hr. }
  rewrite R in H. change (Ranges.validateAndCleanRanges [] (contentSize c)) with (Ret (Some (@nil (Z * Z)))) in H.
  unfold lift, mbind, M_bind in H. cbv beta iota in H. injection H as <- <-.
  exists c. split; [exact E|]. split; [exact Ec|]. unfold respond. change (useRange q [] _ _) with false.
  destruct (_ =?b "HEAD"); [|eexists; reflexivity]. unfold respond_head. change (1 <? length []) with false. cbv iota.
  eexists. reflexivity.
Qed.

(** C6: A client that revalidates what it was given is answered 304: after a complete
    200 answer for a file (compressed or not) that may be stored, a request that differs
    only by an If-None-Match with the ETag of that answer, or by an If-Modified-Since
    with its Last-Modified, gets "Not Modified" with no body and the same ETag, from the
    cache of the thread alone and whatever the handlers behind. *)
Theorem revalidation sm next next' (s : S) resp s1 rel f p1 (s2 : S) :
  let q := get_request s in let q' := get_request s2 in
  HttpRequest.method_ q = "GET" \/ HttpRequest.method_ q = "HEAD" ->
  relative_path (prefix (config_ sm)) (HttpRequest.path_ q) = Some rel -> hasRangeHeader q = false ->
  lookupOrOpen cfg sm rel (get_process s) = (Ret (inl f), p1) -> etags_ok (get_process s) ->
  (0 <= lastWriteSeconds to_sys f < 253402300800)%Z ->
  static sm next s = (Ret resp, s1) -> response_status resp = 200%Z ->
  contains_sub "no-store" (getHeader "Cache-Control" (response_headers resp)) = false ->
  tl_file_cache (get_process s2) = tl_file_cache (get_process s1) ->
  (same_but "if-none-match" q q' /\ HttpRequest.getHeader "If-None-Match" q' = getHeader "ETag" (response_headers resp)) \/
  (same_but "if-modified-since" q q' /\
   HttpRequest.getHeader "If-Modified-Since" q' = getHeader "Last-Modified" (response_headers resp)) ->
  exists r, static sm next' s2 = (Ret (Plain r), s2) /\ HttpResponse.statusCode_ r = 304%Z /\ HttpResponse.body_ r = [] /\
    getHeader "ETag" (HttpResponse.headers r) = getHeader "ETag" (response_headers resp).
Proof.
  intros q q' Hm Hrel Hr Hl He Ht Hs H200 Hns Hc Hq.
  assert (M : forall m : bytes, m = "GET" \/ m = "HEAD" -> negb ((m =?b "GET") || (m =?b "HEAD")) = false) by (by intros m [->| ->]).
  unfold StaticMiddleware in Hs. rewrite (mbind_Ret _ _ _ q s), (M _ Hm), Hrel in Hs by done.
  assert (Hop : on_process (lookupOrOpen cfg sm rel) s = (Ret (inl f), put_process p1 s)) by (unfold on_process; by rewrite Hl).
  rewrite (mbind_Ret _ _ _ _ _ Hop) in Hs. destruct (lookup_etags cfg sm rel _ f p1 He Hl) as [He1 Hf].
  apply lookup_found in Hl as [Hl _].
  destruct (served_200 _ _ _ _ _ _ _ Hs Hr H200) as (c & Esel & Econd & hs & Eh).
  rewrite Eh in Hns, Hq |- *. destruct (cache_fields _ _ _ _ Hns) as (E1 & E2 & Hcc). rewrite E1, ?E2 in *.
  destruct (select_again sm q rel f (put_process p1 s) c s1) as (Htag & Hc1 & Again); [by rewrite process_get_put|done| |exact Esel|].
  { by rewrite process_get_put, Hl, lookup_insert_eq. }
  assert (Same : HttpRequest.method_ q' = HttpRequest.method_ q /\ HttpRequest.path_ q' = HttpRequest.path_ q /\
    hasRangeHeader q' = hasRangeHeader q /\
    HttpRequest.getHeaderLower "accept-encoding" q' = HttpRequest.getHeaderLower "accept-encoding" q).
  { unfold hasRangeHeader. destruct Hq as [((A & B & D) & _)|((A & B & D) & _)]; split_and!; try done; by rewrite D. }
  destruct Same as (Sm & Sp & Sr & Sa).
  exists (not_modified (eTag c) (lastWriteSeconds to_sys f) (cache_control sm f)). split; [|split; [done|split; [done|]]].
  2: { unfold not_modified. cbn [HttpResponse.headers HttpResponse.with_headers HttpResponse.HttpResponse_code].
       change (getHeader "ETag") with (getHeaderLower "etag"). unfold getHeaderLower, getLastOrDefault, addHeaderLower, add_field.
       change (existsb (beqb "accept-ranges") singletonHeaders_) with false. change (existsb (beqb "vary") singletonHeaders_) with false.
       cbv iota. rewrite !assoc_last_snoc. change ("accept-ranges" =?b "etag") with false. change ("vary" =?b "etag") with false. cbv iota.
       unfold addCacheHeaders. rewrite Hcc. apply (get_set "etag"). }
  assert (Hit : on_process (lookupOrOpen cfg sm rel) s2 = (Ret (inl f), s2)) by (apply on_process_same, lookup_hit; by rewrite Hc).
  unfold StaticMiddleware. rewrite (mbind_Ret _ _ _ q' s2), Sm, (M _ Hm), Sp, Hrel, (mbind_Ret _ _ _ _ _ Hit) by done.
  unfold serve. rewrite (mbind_Ret _ _ _ _ _ (Again q' s2 Hc Sr Sa)). cbv zeta.
  assert (K : conditional q' (cache_control sm f) (eTag c) (lastWriteSeconds to_sys f) = NotModified); [|by rewrite K].
  revert Econd. unfold conditional. rewrite Sr, Hr, Hcc. cbn [negb andb].
  destruct Hq as [[(_ & _ & D) Hv]|[(_ & _ & D) Hv]].
  - change (HttpRequest.getHeader "If-None-Match" q') with (HttpRequest.getHeaderLower "if-none-match" q') in Hv.
    rewrite Hv, (etagMatches_self _ Htag). destruct Htag as (N & _). by rewrite (proj2 (beqb_neq (eTag c) "") N).
  - change (HttpRequest.getHeader "If-Modified-Since" q') with (HttpRequest.getHeaderLower "if-modified-since" q') in Hv.
    rewrite Hv, (D "if-none-match") by done.
    destruct (negb (HttpRequest.getHeaderLower "if-none-match" q =?b "") && _); [done|]. intros _.
    rewrite (parse_printed _ Ht), Z.leb_refl. rewrite (proj2 (beqb_neq _ "")); [done|].
    intros X. pose proof (parse_printed _ Ht) as P. rewrite X in P. discriminate P.
Qed.
End Revalidation.

(** ** Complete and partial answers *)

(** Comparisons of literal field names. *)
Ltac keys := repeat match goal with
  | |- context [beqb (list_ascii_of_string ?a) (list_ascii_of_string ?b)] =>
      let v := eval vm_compute in (beqb (list_ascii_of_string a) (list_ascii_of_string b)) in
      change (beqb (list_ascii_of_string a) (list_ascii_of_string b)) with v
  end; cbv iota.

Lemma get_add k key v hs : existsb (beqb key) singletonHeaders_ = false ->
  getHeaderLower k (addHeaderLower key v hs) = if key =?b k then v else getHeaderLower k hs.
Proof.
  intros H. unfold getHeaderLower, addHeaderLower, add_field, getLastOrDefault. rewrite H, assoc_last_snoc. by destruct (key =?b k).
Qed.

(** Reading a literal field of a built header. *)
Ltac fields := unfold setContentRange; rewrite ?get_set, ?get_add by reflexivity; keys;
  repeat (rewrite ?get_set, ?get_add by reflexivity; keys).

Ltac projections := cbn [HttpResponse.headers HttpResponse.with_headers HttpFileResponse.headers HttpFileResponse.with_headers
  HttpFileResponse.setContentLength HttpFileResponse.setFd HttpFileResponse.setStatusCode HttpFileResponse.setOffset
  HttpFileResponse.setCachedFileContent HttpFileResponse.HttpFileResponse_typed].

Lemma get_cached (k : bytes) e lw cc hs1 hs2 : getHeaderLower k hs1 = getHeaderLower k hs2 ->
  getHeaderLower k (addCacheHeaders e lw cc hs1) = getHeaderLower k (addCacheHeaders e lw cc hs2).
Proof.
  intros H. unfold addCacheHeaders, setCacheControl.
  destruct (contains_sub "no-store" cc); rewrite !get_set, H; done.
Qed.

Section Answers.
Context {F : Type} (thread_hash : Z) (multipart : ByteRanges.ByteRanges -> F).
#[local] Abbreviation respond := (respond thread_hash multipart).

(** A HEAD request is told what the GET would get: for the same file, content and
    ranges, both answers have the same status and the same Content-Length, type, range,
    encoding, ETag, Last-Modified and Cache-Control, and the one to HEAD has no body. *)
Theorem head_matches_get use l f cc lw c :
  (1 < length l -> finalEncoding c = None) ->
  let head := respond "HEAD" use l f cc lw c in
  let get := respond "GET" use l f cc lw c in
  (exists r, head = Plain r /\ HttpResponse.body_ r = []) /\ response_status head = response_status get /\
  Forall (fun k => getHeaderLower k (response_headers head) = getHeaderLower k (response_headers get))
    (literals ["content-length"; "content-type"; "content-range"; "content-encoding"; "etag"; "last-modified"; "cache-control"]).
Proof.
  intros He head get. unfold head, get. clear head get. unfold respond. keys.
  split; [eexists; split; [reflexivity|]; unfold respond_head; by destruct (1 <? length l), use|].
  destruct (1 <? length l) eqn:El.
  - apply Nat.ltb_lt in El. specialize (He El). unfold response_status, response_headers, respond_head, respond_multipart.
    rewrite He. split; [done|]. repeat constructor; apply get_cached; fields; reflexivity.
  - unfold response_status, response_headers, respond_head, respond_file.
    destruct (first_range l) as [from to] eqn:Ef, use, (finalEncoding c), (cachedContent f); (split; [reflexivity|]);
      repeat constructor; projections; unfold addCacheHeaders, setCacheControl; destruct (contains_sub "no-store" cc); fields;
      unfold totalSize; rewrite ?Ef; reflexivity.
Qed.
End Answers.

(** ** Which bytes of the file are sent *)
Section Bounds.
Context {S W C F : Type} {HR : HasRequest S} {HP : HasProcess S W} {FS : FileSystem W} {IC : ICompressor C} {CF : Compressors C}
  {SS : StdSort}.
Context (cfg : ServerConfig) (strtof : bytes -> float)
        (build : HttpRequest.HttpRequest -> Z -> bytes -> outcome HttpResponse.HttpResponse)
        (thread_hash : Z) (to_sys : Z -> Z) (multipart : ByteRanges.ByteRanges -> F).

(** The part of the content that is sent: all of it, or the bytes the header Range asks for. *)
Definition whole (c : Content) (r : HttpFileResponse.HttpFileResponse) : Prop :=
  HttpFileResponse.statusCode_ r = 200%Z /\ HttpFileResponse.offset_ r = 0%Z /\ HttpFileResponse.contentLength_ r = Some (contentSize c).

Definition partial (q : HttpRequest.HttpRequest) (c : Content) (r : HttpFileResponse.HttpFileResponse) : Prop :=
  let from := HttpFileResponse.offset_ r in
  HttpFileResponse.statusCode_ r = 206%Z /\
  exists n, HttpFileResponse.contentLength_ r = Some n /\ (0 <= from /\ 0 < n /\ from + n <= contentSize c)%Z /\
    getHeaderLower "content-range" (HttpFileResponse.headers r) =
      "bytes " ++ to_string from ++ "-" ++ to_string (from + n - 1) ++ "/" ++ to_string (contentSize c) /\
    forall b, (from <= b < from + n)%Z <-> Exists (fun rng => Ranges.selects (contentSize c) rng b) (HttpRequest.getRanges q).

End Bounds.

(** ** Examples *)
Module StaticWitnesses.
Import MemoryFiles StaticFilesWitnesses Delay.
#[local] Existing Instance InsertionSort.insertion_sort.

(** A connection: its request, and the thread it is served by. *)
Record exchange := { request : HttpRequest.HttpRequest; process : Process disk }.

#[local] Instance exchange_request : HasRequest exchange.
Proof. by refine {| get_request := request; put_request r s := {| request := r; process := process s |} |}; intros; try destruct s. Defined.

#[local] Instance exchange_process : HasProcess exchange disk.
Proof. by refine {| get_process := process; put_process p s := {| request := request s; process := p |} |}; intros; try destruct s. Defined.

Definition sample_build (_ : HttpRequest.HttpRequest) (code : Z) (_ : bytes) : outcome HttpResponse.HttpResponse :=
  Ret (HttpResponse.HttpResponse_code (if (code =? 200)%Z then 500 else code)).

Definition asking (fields : list (bytes * bytes)) : HttpRequest.HttpRequest :=
  foldr (fun kv q => HttpRequest.addHeader kv.1 kv.2 q)
    (HttpRequest.parsePathAndQueryParams "/static/index.html" (HttpRequest.setMethod "GET" (HttpRequest.fresh [] 0))) fields.

Abbreviation codec := (Codec (Zs := delay) (Bs := delay)).

Definition asked (fields : list (bytes * bytes)) (p : Process disk) : exchange := {| request := asking fields; process := p |}.

Definition behind : M exchange (Response ByteRanges.ByteRanges) := mret (Plain HttpResponse.HttpResponse_default).

(** "/static/index.html" with the given fields, at the given thread.  The clock of files
    is that of the system; the closure of a multipart body is itself. *)
Abbreviation run fields p :=
  (StaticMiddleware (C := codec) default_config (fun _ => float1) sample_build 0 (fun t => t) (fun b : ByteRanges.ByteRanges => b) www
     behind (asked fields p)).

Definition answer (fields : list (bytes * bytes)) : Response ByteRanges.ByteRanges :=
  match (run fields start).1 with Ret r => r | _ => Plain HttpResponse.HttpResponse_default end.
Definition after (fields : list (bytes * bytes)) : exchange := (run fields start).2.

(** The page as the thread has it, and the thread after it was looked up. *)
Definition page : CachedFile := found "/srv/www/index.html" "<p>hello</p>" 5000000000.
Definition looked_up : Process disk := (lookupOrOpen default_config www "index.html" start).2.

(** The field an answer to the first request gave its client. *)
Definition conditional_field : bytes * bytes := ("If-None-Match" : bytes, getHeader "ETag" (response_headers (answer []))).
Definition again : exchange := asked [conditional_field] (process (after [])).

Lemma again_same : same_but "if-none-match" (get_request (asked [] start)) (get_request again).
Proof.
  split; [vm_compute; reflexivity|]. split; [vm_compute; reflexivity|]. intros k N. unfold HttpRequest.getHeaderLower.
  assert (Eh : HttpRequest.headers_ (get_request again) = [] ++ [("if-none-match" : bytes, etag page)]) by (vm_compute; reflexivity).
  assert (E0 : HttpRequest.headers_ (get_request (asked [] start)) = []) by (vm_compute; reflexivity).
  rewrite Eh, E0. unfold getHeaderLower, getLastOrDefault. rewrite assoc_last_snoc.
  by rewrite (proj2 (beqb_neq _ _)) by (intros X; by apply N).
Qed.

Lemma again_cache : tl_file_cache (get_process again) = tl_file_cache (get_process (after [])).
Proof. unfold again. generalize (after []). by intros []. Qed.

Lemma sample_errors q code x : sample_build q code [] = Ret x -> HttpResponse.statusCode_ x <> 200%Z.
Proof. intros E. injection E as <-. cbn. by destruct (Z.eqb_spec code 200). Qed.

Lemma revalidation_witness :
  run [] start = (Ret (answer []), after []) /\ response_status (answer []) = 200%Z /\
  exists r, run [conditional_field] (process (after [])) = (Ret (Plain r), again) /\
    HttpResponse.statusCode_ r = 304%Z /\ HttpResponse.body_ r = [].
Proof.
  assert (E : run [] start = (Ret (answer []), after [])) by (vm_compute; reflexivity).
  assert (H200 : response_status (answer []) = 200%Z) by (vm_compute; reflexivity). split; [exact E|]. split; [exact H200|].
  assert (Hm : HttpRequest.method_ (get_request (asked [] start)) = "GET") by (vm_compute; reflexivity).
  assert (Hp : relative_path (prefix (config_ www)) (HttpRequest.path_ (get_request (asked [] start))) = Some ("index.html" : bytes))
    by (vm_compute; reflexivity).
  assert (Hr : hasRangeHeader (get_request (asked [] start)) = false) by (vm_compute; reflexivity).
  assert (Hl : lookupOrOpen default_config www "index.html" (get_process (asked [] start)) = (Ret (inl page), looked_up))
    by (vm_compute; reflexivity).
  assert (Ht : lastWriteSeconds (fun t => t) page = 5%Z) by (vm_compute; reflexivity).
  assert (Hs : contains_sub "no-store" (getHeader "Cache-Control" (response_headers (answer []))) = false) by (vm_compute; reflexivity).
  assert (Hv : HttpRequest.getHeader "If-None-Match" (get_request again) = getHeader "ETag" (response_headers (answer [])))
    by (vm_compute; reflexivity).
  assert (Hc : tl_file_cache (get_process again) = tl_file_cache (get_process (after []))) by exact again_cache.
  assert (He : etags_ok (get_process (asked [] start))) by (intros k cf X; discriminate X).
  assert (H := revalidation (C := codec) default_config (fun _ => float1) sample_build 0 (fun t => t) (fun b : ByteRanges.ByteRanges => b)
    sample_errors www behind behind (asked [] start) (answer []) (after []) "index.html" page looked_up again).
  cbv zeta in H. destruct (H (or_introl Hm) Hp Hr Hl He ltac:(rewrite Ht; lia) E H200 Hs Hc (or_introl (conj again_same Hv)))
    as (r & Hr' & Hst & Hb & _).
  exists r. split; [exact Hr'|by split].
Defined.

Lemma head_matches_get_witness :
  let c := plain_content page in
  let head := respond 0 (fun b => b) "HEAD" true [(2, 5)%Z] page "no-cache" 5 c in
  let get := respond 0 (fun b => b) "GET" true [(2, 5)%Z] page "no-cache" 5 c in
  response_status head = 206%Z /\ getHeaderLower "content-length" (response_headers head) = getHeaderLower "content-length" (response_headers get).
Proof.
  intros c head get. destruct (head_matches_get 0 (fun b => b) true [(2, 5)%Z] page "no-cache" 5 c) as (_ & _ & H); [done|].
  split; [vm_compute; reflexivity|]. rewrite Forall_forall in H. apply H. left.
Defined.

End StaticWitnesses.
