(* ===== verification/DbValue.v ===== *)
(** Values of a database ([db/DbValue.hpp]), rows and results of queries
    ([db/DbTypes.hpp]): the conversions between the fields of a model and the variant
    that is bound to a statement. *)
From Stdlib Require Import Floats.SpecFloat.
From S2P Require Import Prelude Bytes.

#[local] Arguments list_ascii_of_string : simpl never.
#[local] Open Scope Z_scope.

(** [std::variant<int64_t, double, std::string, bool, std::vector<unsigned char>, std::nullptr_t>] *)
Inductive DbValue :=
| VInt (n : Z)
| VDouble (d : spec_float)
| VText (s : bytes)
| VBool (b : bool)
| VBlob (b : bytes)
| VNull.

#[export] Instance spec_float_eq_dec : EqDecision spec_float.
Proof. solve_decision. Defined.
#[export] Instance DbValue_eq_dec : EqDecision DbValue.
Proof. solve_decision. Defined.

(** ** The types a field of a model can have

    The overloads of [toDbValueImpl] and [fromDbValueImpl] are one function each, by
    cases on the type. *)
Inductive FieldType := TInt (signed : bool) (bits : Z) | TFloat | TDouble | TText | TBool | TBlob.

(** [T] or [std::optional<T>]. *)
Record CppType := { raw : FieldType; optional : bool }.

Inductive Field :=
| FInt (n : Z)
| FFloat (f : spec_float)
| FDouble (d : spec_float)
| FText (s : bytes)
| FBool (b : bool)
| FBlob (b : bytes)
| FNone.

Definition int_min (signed : bool) (bits : Z) : Z := if signed then - 2 ^ (bits - 1) else 0.
Definition int_max (signed : bool) (bits : Z) : Z := if signed then 2 ^ (bits - 1) - 1 else 2 ^ bits - 1.

(** [std::in_range] *)
Definition in_range (signed : bool) (bits n : Z) : bool := (int_min signed bits <=? n) && (n <=? int_max signed bits).

(** [static_cast<int64_t>] *)
Definition to_int64 (n : Z) : Z := (n + 2 ^ 63) mod 2 ^ 64 - 2 ^ 63.

(** Conversions between the formats of IEEE 754. *)
Definition convert (prec emax : Z) (d : spec_float) : spec_float :=
  match d with
  | S754_finite s m e => binary_normalize prec emax (cond_Zopp s (Zpos m)) e s
  | _ => d
  end.
Definition to_double (f : spec_float) : spec_float := convert 53 1024 f.
Definition to_float (d : spec_float) : spec_float := convert 24 128 d.

(** The largest [float], and the lowest, as a [double]. *)
Definition float_max : spec_float := S754_finite false 9007198717870080 75.
Definition float_lowest : spec_float := S754_finite true 9007198717870080 75.

(** ** [toDbValue] *)
Definition toDbValueImpl (t : FieldType) (v : Field) : DbValue :=
  match t, v with
  | TInt _ _, FInt n => VInt (to_int64 n)
  | TFloat, FFloat f => VDouble (to_double f)
  | TDouble, FDouble d => VDouble d
  | TText, FText s => VText s
  | TBool, FBool b => VBool b
  | TBlob, FBlob b => VBlob b
  | _, _ => VNull
  end.

Definition toDbValue (t : CppType) (v : Field) : DbValue :=
  if optional t then match v with FNone => VNull | v => toDbValueImpl (raw t) v end
  else toDbValueImpl (raw t) v.

(** ** [fromDbValue] *)
Section From.
(** [typeid(T).name()] and [std::to_string(double)]. *)
Context (type_name : FieldType -> bytes) (print_double : spec_float -> bytes).

Definition fromDbValueImpl (t : FieldType) (v : DbValue) : outcome Field :=
  let unexpected := Throw (DatabaseException ("DB value does not hold expected alternative for type " ++ type_name t)) in
  match t with
  | TInt signed bits =>
      match v with
      | VInt n =>
          if in_range signed bits n then Ret (FInt n)
          else Throw (DatabaseException ("DB value " ++ to_string n ++ " out of range for target type " ++ type_name t))
      | _ => Throw (DatabaseException ("DB value does not hold int64_t for type " ++ type_name t))
      end
  | TFloat =>
      let out := Throw (DatabaseException ("DB value out of range for target type " ++ type_name t)) in
      match v with
      | VDouble d =>
          if SFltb (S754_zero false) d && SFltb float_max d then out
          else if SFltb d (S754_zero false) && SFltb d float_lowest then out
          else Ret (FFloat (to_float d))
      | _ => Throw (DatabaseException ("DB value does not hold double for type " ++ type_name t))
      end
  | TDouble => match v with VDouble d => Ret (FDouble d) | _ => unexpected end
  | TText => match v with VText s => Ret (FText s) | _ => unexpected end
  | TBool => match v with VBool b => Ret (FBool b) | _ => unexpected end
  | TBlob => match v with VBlob b => Ret (FBlob b) | _ => unexpected end
  end.

Definition fromDbValue (t : FieldType) (v : DbValue) : outcome Field := fromDbValueImpl t v.

Definition dbValueToString (v : DbValue) : bytes :=
  match v with
  | VText s => s
  | VInt n => to_string n
  | VDouble d => print_double d
  | VBlob b => "BLOB_" ++ to_string (Z.of_nat (length b))
  | VBool b => if b then "TRUE" else "FALSE"
  | VNull => []
  end.

(** ** Rows and results *)
Record Row := { values : list DbValue; columns : gmap bytes nat }.

(** [values\[i\]] *)
Definition value_at (row : Row) (colIndex : nat) : outcome DbValue :=
  match values row !! colIndex with Some v => Ret v | None => Undef end.

Definition find_column (row : Row) (col : bytes) : outcome nat :=
  match columns row !! col with
  | Some i => Ret i
  | None => Throw (DatabaseException ("No such column: " ++ col))
  end.

Definition row_get (row : Row) (col : bytes) : outcome DbValue := i ← find_column row col; value_at row i.
Definition as_column (t : FieldType) (row : Row) (col : bytes) : outcome Field := v ← row_get row col; fromDbValue t v.
Definition as_index (t : FieldType) (row : Row) (colIndex : nat) : outcome Field := v ← value_at row colIndex; fromDbValue t v.
Definition columnExists (row : Row) (col : bytes) : bool := match columns row !! col with Some _ => true | None => false end.
Definition is_null (v : DbValue) : bool := match v with VNull => true | _ => false end.
Definition isNull (row : Row) (col : bytes) : outcome bool := v ← row_get row col; Ret (is_null v).
Definition isNull_index (row : Row) (colIndex : nat) : outcome bool := v ← value_at row colIndex; Ret (is_null v).

(** [std::left << std::setw(colWidth)] *)
Definition setw (colWidth : Z) (s : bytes) : bytes := s ++ replicate (Z.to_nat colWidth - length s) SP.

Definition row_toString (colWidth : Z) (row : Row) : bytes :=
  concat (map (fun v => setw colWidth (dbValueToString v)) (values row)).

Record QueryResult := { affectedRows : Z; rows : list Row; result_columns : gmap bytes nat }.

Definition result_size (r : QueryResult) : nat := length (rows r).
Definition result_at (r : QueryResult) (index : nat) : outcome Row :=
  match rows r !! index with Some row => Ret row | None => Undef end.

(** The rows are printed in the default width. *)
Definition result_toString {SS : StdSort} (colWidth : Z) (r : QueryResult) : bytes :=
  let cols := std_sort (fun a b : bytes * nat => Nat.ltb a.2 b.2) (map_to_list (result_columns r)) in
  [LF] ++ concat (map (fun c => setw colWidth c.1) cols) ++ [LF] ++
  concat (map (fun row => row_toString 16 row ++ [LF]) (rows r)).
End From.

Inductive DbErrorType :=
| CONNECTION_FAILED | CONSTRAINT_VIOLATION | DB_BUSY | DUPLICATE_KEY | FOREIGN_KEY_VIOLATION | INVALID_COLUMN
| NOT_IMPLEMENTED | OTHER | TOO_BIG | TRANSACTION_ENDED | TRANSACTION_ERROR | TRIGGER_ERROR | QUERY_ERROR
| UNIQUE_CONSTRAINT_VIOLATION.

Record DatabaseError := { type : DbErrorType; message : bytes }.

#[export] Instance DbErrorType_eq_dec : EqDecision DbErrorType.
Proof. solve_decision. Defined.

(** [std::expected<A, DatabaseError>] *)
Abbreviation expected A := (A + DatabaseError)%type.

(** ** A field comes back as it was *)

(** The values of a type. *)
Definition has_type (t : CppType) (v : Field) : Prop :=
  match raw t, v with
  | _, FNone => optional t = true
  | TInt signed bits, FInt n => in_range signed bits n = true
  | TFloat, FFloat _ | TDouble, FDouble _ | TText, FText _ | TBool, FBool _ | TBlob, FBlob _ => True
  | _, _ => False
  end.

(** The integer types of the language. *)
Definition width_ok (t : FieldType) : Prop := match t with TInt _ bits => 1 < bits <= 64 | _ => True end.

Lemma to_int64_id n : - 2 ^ 63 <= n < 2 ^ 63 -> to_int64 n = n.
Proof. intros H. unfold to_int64. rewrite Z.mod_small; lia. Qed.

Lemma in_range_spec s b n : in_range s b n = true <-> int_min s b <= n <= int_max s b.
Proof. unfold in_range. rewrite andb_true_iff, !Z.leb_le. done. Qed.

Lemma int_bounds s b : 1 < b <= 64 -> - 2 ^ 63 <= int_min s b /\ int_max s b < 2 ^ 64 /\ (s = true -> int_max s b < 2 ^ 63).
Proof.
  intros H. unfold int_min, int_max. destruct s.
  - assert (2 ^ (b - 1) <= 2 ^ 63) by (apply Z.pow_le_mono_r; lia). lia.
  - assert (2 ^ b <= 2 ^ 64) by (apply Z.pow_le_mono_r; lia). lia.
Qed.

(** What can be written and read again: all but the upper half of the unsigned
    64-bit values, and the conversions of [float]. *)
Definition keeps (t : FieldType) (v : Field) : Prop :=
  match t, v with TInt _ _, FInt n => n < 2 ^ 63 | TFloat, _ => False | _, _ => True end.

Lemma fromDbValue_toDbValue names t v :
  width_ok t -> has_type {| raw := t; optional := false |} v -> keeps t v -> fromDbValue names t (toDbValueImpl t v) = Ret v.
Proof.
  intros W T K. destruct t as [s b| | | | |], v; try done. unfold has_type in T. cbn in T, W, K |- *.
  apply in_range_spec in T as T'. destruct (int_bounds s b W) as (? & ? & ?). rewrite to_int64_id by lia. by rewrite T.
Qed.

Lemma fromDbValue_too_large names b n :
  1 < b <= 64 -> in_range false b n = true -> 2 ^ 63 <= n ->
  exists e, fromDbValue names (TInt false b) (toDbValueImpl (TInt false b) (FInt n)) = Throw e.
Proof.
  intros W T H. apply in_range_spec in T. destruct (int_bounds false b W) as (? & ? & _). cbn -[in_range to_int64].
  assert (E : to_int64 n = n - 2 ^ 64).
  { unfold to_int64. replace (n + 2 ^ 63) with (n - 2 ^ 63 + 1 * 2 ^ 64) by lia. rewrite Z.mod_add, Z.mod_small; lia. }
  unfold fromDbValueImpl. rewrite E. destruct (in_range false b (n - 2 ^ 64)) eqn:R; [|eauto].
  apply in_range_spec in R. unfold int_min in R. lia.
Qed.
