(* ===== verification/Model.v ===== *)
(** Models of the ORM ([orm/Column.hpp], the helpers on columns of
    [orm/ActiveRecord.hpp]) and how rows become objects ([orm/hydrators.hpp]).  A
    pointer to a member is the member's number and its type; an object maps the
    numbers of its members to their values. *)
From S2P Require Import Prelude Bytes DbValue.

#[local] Arguments list_ascii_of_string : simpl never.

Inductive AutoGenerate := GENERATE_OFF | DB_INCREMENT | DEFAULT | GENERATE_DB_NOW | GENERATE_CUSTOM.
Inductive AutoUpdate := UPDATE_OFF | UPDATE_DB_NOW | UPDATE_CUSTOM | LOCKED.

(** [persisted_] is the member of the base class. *)
Record Object := { members : gmap nat Field; persisted_ : bool }.

Record Column := {
  fieldPtr : nat;
  fieldType : CppType;
  dbName : bytes;
  isPrimaryKey : bool;
  isIndexed : bool;
  isUnique : bool;
  autoGenerateMode : AutoGenerate;
  defaultValue : DbValue;
  customGenerator : option (Object -> DbValue);
  autoUpdateMode : AutoUpdate;
  customUpdator : option (Object -> DbValue);
}.

Record Model := { tableName : bytes; model_columns : list Column }.

(** [FieldT Model::*], with the position of its model among those of a query. *)
Record FieldPtr := { ptr_model : nat; ptr_field : nat; ptr_type : CppType }.

(** [obj.*fieldPtr] *)
Definition member (o : Object) (p : nat) : Field := default FNone (members o !! p).
Definition assign (p : nat) (v : Field) (o : Object) : Object :=
  {| members := <[p := v]> (members o); persisted_ := persisted_ o |}.

Definition setPersisted (o : Object) : Object := {| members := members o; persisted_ := true |}.
Definition resetPersisted (o : Object) : Object := {| members := members o; persisted_ := false |}.

(** The loop keeps the last column that was registered for the member. *)
Fixpoint column_of (p : nat) (cols : list Column) (result : option bytes) : option bytes :=
  match cols with
  | [] => result
  | c :: cols => column_of p cols (if bool_decide (fieldPtr c = p) then Some (dbName c) else result)
  end.

Definition columnNameOf (m : Model) (p : nat) : outcome bytes :=
  match column_of p (model_columns m) None with
  | Some name => Ret name
  | None => Throw (OrmException "Invalid field ptr. Model Field does not exist or is not registered.")
  end.

Definition isValidColumnName (m : Model) (name : bytes) : bool := existsb (fun c => dbName c =?b name) (model_columns m).

Definition pkColumns (m : Model) : list Column := List.filter isPrimaryKey (model_columns m).
Definition pkFieldPtrs (m : Model) : list nat := map fieldPtr (pkColumns m).
Definition getPrimaryKeyValues (m : Model) (o : Object) : list Field := map (member o) (pkFieldPtrs m).
Definition getPrimaryKeyValue (m : Model) (o : Object) : outcome Field :=
  match pkFieldPtrs m with p :: _ => Ret (member o p) | [] => Undef end.

(** ** Hydration *)
Section Hydrate.
Context (type_name : FieldType -> bytes).

(** One value, of a type that may be optional. *)
Definition hydrate_value (t : CppType) (row : Row) (lookupName : bytes) : outcome Field :=
  if optional t then
    null ← isNull row lookupName;
    if (null : bool) then Ret FNone else as_column type_name (raw t) row lookupName
  else as_column type_name (raw t) row lookupName.

Definition hydrateModelColumn (row : Row) (pre : bytes) (o : Object) (col : Column) : outcome Object :=
  let lookupName := if pre =?b "" then dbName col else pre ++ "_" ++ dbName col in
  v ← hydrate_value (fieldType col) row lookupName;
  Ret (assign (fieldPtr col) v o).

(** A fold over the tuple of columns. *)
Fixpoint hydrate_columns (row : Row) (pre : bytes) (cols : list Column) (o : Object) : outcome Object :=
  match cols with
  | [] => Ret o
  | col :: cols => o ← hydrateModelColumn row pre o col; hydrate_columns row pre cols o
  end.

(** [Model obj;] *)
Definition default_object : Object := {| members := ∅; persisted_ := false |}.

Definition hydrateModelRow (m : Model) (row : Row) : outcome Object :=
  obj ← hydrate_columns row [] (model_columns m) default_object;
  Ret (setPersisted obj).

Fixpoint hydrate_rows {A} (f : Row -> outcome A) (l : list Row) : outcome (list A) :=
  match l with
  | [] => Ret []
  | row :: l => o ← f row; rest ← hydrate_rows f l; Ret (o :: rest)
  end.

Definition hydrateModel (m : Model) (queryResult : QueryResult) : outcome (list Object) :=
  hydrate_rows (hydrateModelRow m) (rows queryResult).

(** A row of a join: one object for each model, its columns under its alias. *)
Definition hydrateModelAt (row : Row) (m : Model * bytes) : outcome Object :=
  hydrate_columns row m.2 (model_columns m.1) default_object.

Fixpoint hydrate_tuple {A B} (f : A -> outcome B) (l : list A) : outcome (list B) :=
  match l with
  | [] => Ret []
  | a :: l => b ← f a; rest ← hydrate_tuple f l; Ret (b :: rest)
  end.

Definition hydrateJoinedRow (models : list (Model * bytes)) (row : Row) : outcome (list Object) :=
  objTuple ← hydrate_tuple (hydrateModelAt row) models;
  Ret (map setPersisted objTuple).

Definition hydrateJoined (models : list (Model * bytes)) (queryResult : QueryResult) : outcome (list (list Object)) :=
  hydrate_rows (hydrateJoinedRow models) (rows queryResult).

Definition hydrateTupleValueAt (row : Row) (c : CppType * bytes) : outcome Field := hydrate_value c.1 row c.2.
Definition hydrateTupleRow (cols : list (CppType * bytes)) (row : Row) : outcome (list Field) :=
  hydrate_tuple (hydrateTupleValueAt row) cols.
Definition hydrateTuple (cols : list (CppType * bytes)) (queryResult : QueryResult) : outcome (list (list Field)) :=
  hydrate_rows (hydrateTupleRow cols) (rows queryResult).
End Hydrate.

(** ** An object comes back from its row *)

(** The row of an object, as the names and values of its columns. *)
Definition row_of (m : Model) (o : Object) : Row :=
  {| values := map (fun c => toDbValue (fieldType c) (member o (fieldPtr c))) (model_columns m);
     columns := list_to_map (imap (fun i c => (dbName c, i)) (model_columns m)) |}.

(** The members of an object are those of its model, and have their types; every
    member has one column. *)
Record object_of (m : Model) (o : Object) : Prop := {
  oo_members : forall p, is_Some (members o !! p) <-> p ∈ map fieldPtr (model_columns m);
  oo_types : Forall (fun c => width_ok (raw (fieldType c)) /\ has_type (fieldType c) (member o (fieldPtr c)) /\
    keeps (raw (fieldType c)) (member o (fieldPtr c))) (model_columns m);
}.

Definition model_ok (m : Model) : Prop := NoDup (map dbName (model_columns m)) /\ NoDup (map fieldPtr (model_columns m)).

Lemma toDbValue_null t v : has_type t v -> toDbValue t v = VNull -> v = FNone.
Proof. destruct t as [[s b| | | | |] [|]], v; cbn; try done. Qed.

Lemma hydrate_value_ok names t v (row : Row) name :
  width_ok (raw t) -> has_type t v -> keeps (raw t) v -> row_get row name = Ret (toDbValue t v) ->
  hydrate_value names t row name = Ret v.
Proof.
  intros W T K G. unfold hydrate_value, isNull, as_column. rewrite G. cbn [mbind outcome_bind].
  assert (N : v = FNone -> optional t = true) by (intros ->; unfold has_type in T; destruct (raw t); done).
  assert (R : v <> FNone -> toDbValue t v = toDbValueImpl (raw t) v /\ has_type {| raw := raw t; optional := false |} v).
  { intros H. unfold toDbValue, has_type in *. destruct v; try done; (split; [by destruct (optional t)|]);
      cbn; destruct (raw t); done. }
  destruct (optional t) eqn:O.
  - destruct (is_null (toDbValue t v)) eqn:E.
    + destruct (toDbValue t v) eqn:D; try done. by rewrite (toDbValue_null t v T D).
    + assert (v <> FNone) as H. { intros ->. unfold toDbValue in E. by rewrite O in E. }
      destruct (R H) as [-> T']. by apply fromDbValue_toDbValue.
  - assert (v <> FNone) as H by (intros H; by apply N in H). destruct (R H) as [-> T']. by apply fromDbValue_toDbValue.
Qed.

Lemma row_get_of m o i c : model_ok m -> model_columns m !! i = Some c ->
  row_get (row_of m o) (dbName c) = Ret (toDbValue (fieldType c) (member o (fieldPtr c))).
Proof.
  intros [Nd _] Hi. unfold row_get, find_column, row_of. cbn [columns values].
  assert (E : (list_to_map (imap (fun i c => (dbName c, i)) (model_columns m)) : gmap bytes nat) !! dbName c = Some i).
  { apply elem_of_list_to_map.
    - rewrite fmap_imap. erewrite imap_ext; [|done]. replace (imap _ _) with (map dbName (model_columns m)); [done|].
      clear. induction (model_columns m) as [|c l IH]; [done|]. cbn. by rewrite IH at 1.
    - apply elem_of_lookup_imap. eauto. }
  rewrite E. cbn [mbind outcome_bind]. unfold value_at. cbn [values]. by rewrite list_lookup_fmap, Hi.
Qed.

Lemma hydrate_columns_ok names m o (cols : list Column) o0 :
  model_ok m -> object_of m o -> cols ⊆ model_columns m ->
  hydrate_columns names (row_of m o) [] cols o0 =
    Ret {| members := fold_left (fun ms c => <[fieldPtr c := member o (fieldPtr c)]> ms) cols (members o0); persisted_ := persisted_ o0 |}.
Proof.
  intros Hm Ho. revert o0. induction cols as [|c cols IH]; intros o0 Hs; [by destruct o0|].
  assert (Hc : c ∈ model_columns m) by (apply Hs; left). apply list_elem_of_lookup in Hc as [i Hi].
  assert (T := oo_types _ _ Ho). rewrite Forall_lookup in T. destruct (T i c Hi) as (W & T' & K).
  cbn [hydrate_columns]. unfold hydrateModelColumn. change ([] =?b "") with true. cbv iota.
  rewrite (hydrate_value_ok names _ (member o (fieldPtr c))) by (try done; by eapply row_get_of).
  cbn [mbind outcome_bind]. rewrite IH by (intros x Hx; apply Hs; by right). done.
Qed.

Lemma fold_insert_lookup o (cols : list Column) (ms : gmap nat Field) p :
  fold_left (fun ms c => <[fieldPtr c := member o (fieldPtr c)]> ms) cols ms !! p =
    if bool_decide (p ∈ map fieldPtr cols) then Some (member o p) else ms !! p.
Proof.
  revert ms. induction cols as [|c cols IH]; intros ms; [done|]. cbn [fold_left]. rewrite IH.
  case_bool_decide as H1; case_bool_decide as H2; try done.
  - destruct H2. by right.
  - cbn in H2. apply elem_of_cons in H2 as [->|]; [by rewrite lookup_insert_eq|done].
  - rewrite lookup_insert_ne; [done|]. intros <-. destruct H2. left.
Qed.

Lemma hydrateModelRow_row_of names m o :
  model_ok m -> object_of m o -> hydrateModelRow names m (row_of m o) = Ret (setPersisted o).
Proof.
  intros Hm Ho. unfold hydrateModelRow. rewrite (hydrate_columns_ok names m o) by done.
  cbn [mbind outcome_bind]. unfold setPersisted. cbn [members persisted_]. do 2 f_equal. apply map_eq. intros p. rewrite fold_insert_lookup.
  destruct (oo_members _ _ Ho p) as [H1 H2]. unfold member. case_bool_decide as H.
  - destruct (H2 H) as [v ->]. done.
  - cbn. rewrite lookup_empty. destruct (members o !! p) eqn:E; [|done]. destruct H. apply H1. eauto.
Qed.

(** An object is read back as it was written: from the row that holds the values
    its columns were bound to, under their names, hydration gives the same object,
    marked as persisted; for every model with distinct names and members, and for
    optional members, integers of every width, and texts and blobs of any bytes. *)
Theorem hydrate_roundtrip names m o :
  model_ok m -> object_of m o -> hydrateModelRow names m (row_of m o) = Ret (setPersisted o).
Proof. apply hydrateModelRow_row_of. Qed.

(** ** Examples *)
Module ModelWitnesses.
Definition column (p : nat) (t : CppType) (name : string) (pk : bool) (g : AutoGenerate) (u : AutoUpdate) : Column :=
  {| fieldPtr := p; fieldType := t; dbName := name; isPrimaryKey := pk; isIndexed := false; isUnique := false;
     autoGenerateMode := g; defaultValue := VNull; customGenerator := None; autoUpdateMode := u; customUpdator := None |}.

Definition int64 : CppType := {| raw := TInt true 64; optional := false |}.
Definition uint8 : CppType := {| raw := TInt false 8; optional := false |}.
Definition text : CppType := {| raw := TText; optional := false |}.
Definition opt_text : CppType := {| raw := TText; optional := true |}.

Definition users : Model := {| tableName := "users"; model_columns :=
  [column 0 int64 "id" true DB_INCREMENT UPDATE_OFF; column 1 text "name" false GENERATE_OFF UPDATE_OFF;
   column 2 opt_text "nick" false GENERATE_OFF UPDATE_OFF; column 3 uint8 "age" false GENERATE_OFF LOCKED] |}.

Definition ann : Object :=
  {| members := list_to_map [(0, FInt 7); (1, FText "Ann"); (2, FNone); (3, FInt 41)]; persisted_ := false |}.

Lemma users_ok : model_ok users.
Proof. split; cbn; repeat constructor; set_solver. Qed.

Lemma ann_ok : object_of users ann.
Proof.
  split.
  - intros p. transitivity (p ∈ [0; 1; 2; 3]); [|done]. split.
    + intros [v H]. apply elem_of_list_to_map_2 in H. clear -H. set_solver.
    + rewrite !elem_of_cons, elem_of_nil. intros [->|[->|[->|[->|[]]]]]; eexists; reflexivity.
  - repeat constructor; done.
Qed.

Lemma hydrate_roundtrip_witness :
  hydrateModelRow (fun _ => []) users (row_of users ann) = Ret (setPersisted ann).
Proof. exact (hydrate_roundtrip (fun _ => []) users ann users_ok ann_ok). Defined.
End ModelWitnesses.
