(* ===== verification/Predicate.v ===== *)
(** Conditions of SQL ([orm/Predicate.hpp], [orm/Constraints.hpp], [orm/WhereClause.hpp]):
    the tree of conditions, its builders, and its text with a list of parameters. *)
From S2P Require Import Prelude Bytes DbValue Model.

#[local] Arguments list_ascii_of_string : simpl never.

Definition aliasList : list bytes := literals ["a"; "b"; "c"; "d"; "e"; "f"; "g"; "h"; "i"; "j"; "k"; "l"; "m";
  "n"; "o"; "p"; "q"; "r"; "s"; "t"; "u"; "v"; "w"; "x"; "y"; "z"].

(** Reading behind the end of the array is undefined. *)
Definition getAlias (index : nat) : outcome bytes :=
  match aliasList !! index with Some a => Ret a | None => Undef end.

Inductive Operator :=
| EQUALS | NOT_EQUALS | GREATER | LESSER | GREATER_OR_EQUAL | LESSER_OR_EQUAL | LIKE | IN | NOT_IN | IS_NULL | IS_NOT_NULL | BETWEEN.

Definition opString (op : Operator) : bytes :=
  match op with
  | EQUALS => "=" | NOT_EQUALS => "!=" | GREATER => ">" | LESSER => "<" | GREATER_OR_EQUAL => ">=" | LESSER_OR_EQUAL => "<="
  | LIKE => "LIKE" | IN => "IN" | NOT_IN => "NOT IN" | IS_NULL => "IS NULL" | IS_NOT_NULL => "IS NOT NULL" | BETWEEN => "BETWEEN"
  end.

Definition isGroupOperator (op : Operator) : bool := match op with IN | NOT_IN | BETWEEN => true | _ => false end.

Inductive PredicateType := LEAF | AND | OR | TRUE | FALSE | STRING | FIELD_COMPARISON | SUBQUERY | EXISTS | NOT_EXISTS | RAW.

(** [op] is indeterminate ([None]) where no constructor sets it. *)
Inductive BasePredicate := Pred {
  predicateType : PredicateType;
  columnA : bytes;
  columnB : bytes;
  op : option Operator;
  values : list DbValue;
  children : list BasePredicate;
  lhsFunction : bytes;
  rhsFunction : bytes;
}.

(** What a predicate asks of a query within it. *)
Class SubQuery (Q : Type) := {
  getSqlAndParams : Q -> outcome (bytes * list DbValue);
  getLimit : Q -> option Z;
  getColumnCount : Q -> nat;
}.

(** ** Constructors *)
Definition pred_type (t : PredicateType) : BasePredicate := Pred t [] [] None [] [] [] [].
Definition pred_string (str : bytes) (vals : list DbValue) : BasePredicate := Pred STRING str [] None vals [] [] [].
Definition pred_column (col : bytes) (opr : Operator) (vals : list DbValue) : BasePredicate := Pred LEAF col [] (Some opr) vals [] [] [].
Definition pred_raw (lhs : bytes) (opr : Operator) (rhs : bytes) (vals : list DbValue) : BasePredicate :=
  Pred RAW lhs rhs (Some opr) vals [] [] [].
Definition pred_bool (val : bool) : BasePredicate := pred_type (if val then TRUE else FALSE).

Section Predicates.
(** [ColumnResolver::resolve<Models...>] *)
Context (resolve : FieldPtr -> bytes -> outcome bytes).

Definition pred_field (p : FieldPtr) (opr : Operator) (vals : list Field) (tableAlias : bytes) : outcome BasePredicate :=
  col ← resolve p tableAlias;
  Ret (Pred LEAF col [] (Some opr) (map (toDbValueImpl (raw (ptr_type p))) vals) [] [] []).

Definition with_functions (lhsFunc rhsFunc : bytes) (p : BasePredicate) : BasePredicate :=
  Pred (predicateType p) (columnA p) (columnB p) (op p) (values p) (children p) lhsFunc rhsFunc.

Definition pred_field_functions (p : FieldPtr) (opr : Operator) (vals : list Field) (lhsFunc rhsFunc tableAlias : bytes) :
    outcome BasePredicate :=
  with_functions lhsFunc rhsFunc <$> pred_field p opr vals tableAlias.

Definition pred_fields (pa : FieldPtr) (opr : Operator) (pb : FieldPtr) (tableAliases : bytes * bytes) : outcome BasePredicate :=
  a ← resolve pa tableAliases.1;
  b ← resolve pb tableAliases.2;
  Ret (Pred FIELD_COMPARISON a b (Some opr) [] [] [] []).

Definition pred_fields_functions (pa : FieldPtr) (opr : Operator) (pb : FieldPtr) (lhsFunc rhsFunc : bytes)
    (tableAliases : bytes * bytes) : outcome BasePredicate :=
  with_functions lhsFunc rhsFunc <$> pred_fields pa opr pb tableAliases.

(** A leaf without values. *)
Definition pred_between_functions (pa : FieldPtr) (opr : Operator) (pb pc : FieldPtr) (lhsFunc rhsFunc : bytes)
    (tableAliases : bytes * bytes * bytes) : outcome BasePredicate :=
  let '(ta, tb, tc) := tableAliases in
  a ← resolve pa ta;
  b ← resolve pb tb;
  c ← resolve pc tc;
  Ret (Pred LEAF (lhsFunc ++ "(" ++ a ++ ")") (rhsFunc ++ "(" ++ b ++ ") AND " ++ rhsFunc ++ "(" ++ c ++ ")") (Some opr) [] [] [] []).

Section Sub.
Context {Q : Type} {SQ : SubQuery Q}.

Definition pred_subquery (p : FieldPtr) (opr : Operator) (subQuery : Q) (tableAlias : bytes) : outcome BasePredicate :=
  col ← resolve p tableAlias;
  '(sql, params) ← getSqlAndParams subQuery;
  Ret (Pred SUBQUERY col sql (Some opr) params [] [] []).

Definition pred_subquery_function (p : FieldPtr) (opr : Operator) (subQuery : Q) (lhsFunc tableAlias : bytes) :
    outcome BasePredicate :=
  with_functions lhsFunc [] <$> pred_subquery p opr subQuery tableAlias.

Definition pred_exists (subQuery : Q) (exists_ : bool) : outcome BasePredicate :=
  '(sql, params) ← getSqlAndParams subQuery;
  Ret (Pred (if exists_ then EXISTS else NOT_EXISTS) sql [] None params [] [] []).

Definition validateScalarSubQuery (subQuery : Q) (operatorName : bytes) : outcome unit :=
  if negb (default 0 (getLimit subQuery) =? 1)%Z then Throw (OrmException (operatorName ++ " subquery must have a limit of 1"))
  else if negb (getColumnCount subQuery =? 1)
  then Throw (OrmException (operatorName ++ " subquery must have one specified field (use yourQuery.field())"))
  else Ret tt.

Definition validateColumn (subQuery : Q) (msg : bytes) : outcome unit :=
  if negb (getColumnCount subQuery =? 1) then Throw (OrmException msg) else Ret tt.

(** ** The static helpers, with a query *)
Definition exists_ (subQuery : Q) : outcome BasePredicate := pred_exists subQuery true.
Definition notExists (subQuery : Q) : outcome BasePredicate := pred_exists subQuery false.
Definition equals_query (p : FieldPtr) (q : Q) (tableAlias : bytes) : outcome BasePredicate :=
  _ ← validateScalarSubQuery q "EQUALS"; pred_subquery p EQUALS q tableAlias.
Definition in_query (p : FieldPtr) (q : Q) (tableAlias : bytes) : outcome BasePredicate :=
  _ ← validateColumn q "IN subquery must have one specified field (use yourQuery.field())"; pred_subquery p IN q tableAlias.
Definition notIn_query (p : FieldPtr) (q : Q) (tableAlias : bytes) : outcome BasePredicate :=
  _ ← validateColumn q "NOT IN subquery must have one specified field (use yourQuery.field())"; pred_subquery p NOT_IN q tableAlias.
Definition notEquals_query (p : FieldPtr) (q : Q) (tableAlias : bytes) : outcome BasePredicate :=
  _ ← validateScalarSubQuery q "NOT EQUALS"; pred_subquery p NOT_EQUALS q tableAlias.
Definition greater_query (p : FieldPtr) (q : Q) (tableAlias : bytes) : outcome BasePredicate :=
  _ ← validateScalarSubQuery q "GREATER"; pred_subquery p GREATER q tableAlias.
Definition lesser_query (p : FieldPtr) (q : Q) (tableAlias : bytes) : outcome BasePredicate :=
  _ ← validateScalarSubQuery q "LESSER"; pred_subquery p LESSER q tableAlias.
Definition greaterOrEqual_query (p : FieldPtr) (q : Q) (tableAlias : bytes) : outcome BasePredicate :=
  _ ← validateScalarSubQuery q "GREATER OR EQUAL"; pred_subquery p GREATER_OR_EQUAL q tableAlias.
Definition lesserOrEqual_query (p : FieldPtr) (q : Q) (tableAlias : bytes) : outcome BasePredicate :=
  _ ← validateScalarSubQuery q "LESSER OR EQUAL"; pred_subquery p LESSER_OR_EQUAL q tableAlias.
End Sub.

(** ** The static helpers, with values and with other fields *)
Definition isNull (p : FieldPtr) (tableAlias : bytes) : outcome BasePredicate := pred_field p IS_NULL [] tableAlias.
Definition isNotNull (p : FieldPtr) (tableAlias : bytes) : outcome BasePredicate := pred_field p IS_NOT_NULL [] tableAlias.
Definition equals (p : FieldPtr) (val : Field) (tableAlias : bytes) : outcome BasePredicate := pred_field p EQUALS [val] tableAlias.
Definition equals_fields (pa pb : FieldPtr) (tableAliases : bytes * bytes) : outcome BasePredicate :=
  pred_fields pa EQUALS pb tableAliases.
Definition in_values (p : FieldPtr) (vals : list Field) (tableAlias : bytes) : outcome BasePredicate := pred_field p IN vals tableAlias.
Definition notIn_values (p : FieldPtr) (vals : list Field) (tableAlias : bytes) : outcome BasePredicate :=
  pred_field p NOT_IN vals tableAlias.
Definition notEquals (p : FieldPtr) (val : Field) (tableAlias : bytes) : outcome BasePredicate := pred_field p NOT_EQUALS [val] tableAlias.
Definition notEquals_fields (pa pb : FieldPtr) (tableAliases : bytes * bytes) : outcome BasePredicate :=
  pred_fields pa NOT_EQUALS pb tableAliases.
Definition greater (p : FieldPtr) (val : Field) (tableAlias : bytes) : outcome BasePredicate := pred_field p GREATER [val] tableAlias.
Definition greater_fields (pa pb : FieldPtr) (tableAliases : bytes * bytes) : outcome BasePredicate :=
  pred_fields pa GREATER pb tableAliases.
Definition lesser (p : FieldPtr) (val : Field) (tableAlias : bytes) : outcome BasePredicate := pred_field p LESSER [val] tableAlias.
Definition lesser_fields (pa pb : FieldPtr) (tableAliases : bytes * bytes) : outcome BasePredicate :=
  pred_fields pa LESSER pb tableAliases.
Definition greaterOrEqual (p : FieldPtr) (val : Field) (tableAlias : bytes) : outcome BasePredicate :=
  pred_field p GREATER_OR_EQUAL [val] tableAlias.
Definition greaterOrEqual_fields (pa pb : FieldPtr) (tableAliases : bytes * bytes) : outcome BasePredicate :=
  pred_fields pa GREATER_OR_EQUAL pb tableAliases.
Definition lesserOrEqual (p : FieldPtr) (val : Field) (tableAlias : bytes) : outcome BasePredicate :=
  pred_field p LESSER_OR_EQUAL [val] tableAlias.
Definition lesserOrEqual_fields (pa pb : FieldPtr) (tableAliases : bytes * bytes) : outcome BasePredicate :=
  pred_fields pa LESSER_OR_EQUAL pb tableAliases.

(** Of members of type string. *)
Definition like (p : FieldPtr) (val tableAlias : bytes) : outcome BasePredicate := pred_field p LIKE [FText val] tableAlias.
Definition ilike (p : FieldPtr) (val tableAlias : bytes) : outcome BasePredicate :=
  pred_field_functions p LIKE [FText val] "LOWER" "LOWER" tableAlias.
Definition contains (p : FieldPtr) (val tableAlias : bytes) : outcome BasePredicate :=
  pred_field p LIKE [FText ("%" ++ val ++ "%")] tableAlias.
Definition iContains (p : FieldPtr) (val tableAlias : bytes) : outcome BasePredicate :=
  pred_field_functions p LIKE [FText ("%" ++ val ++ "%")] "LOWER" "LOWER" tableAlias.
Definition startsWith (p : FieldPtr) (val tableAlias : bytes) : outcome BasePredicate :=
  pred_field p LIKE [FText (val ++ "%")] tableAlias.
Definition endsWith (p : FieldPtr) (val tableAlias : bytes) : outcome BasePredicate :=
  pred_field p LIKE [FText ("%" ++ val)] tableAlias.
Definition between (p : FieldPtr) (val1 val2 : Field) (tableAlias : bytes) : outcome BasePredicate :=
  pred_field p BETWEEN [val1; val2] tableAlias.
End Predicates.

(** ** Operators *)
Definition is_true (p : BasePredicate) : bool := match predicateType p with TRUE => true | _ => false end.
Definition is_false (p : BasePredicate) : bool := match predicateType p with FALSE => true | _ => false end.

Definition pred_or (p q : BasePredicate) : BasePredicate :=
  if is_true p || is_true q then pred_bool true
  else if is_false p then q
  else if is_false q then p
  else Pred OR [] [] None [] [p; q] [] [].

Definition pred_and (p q : BasePredicate) : BasePredicate :=
  if is_false p || is_false q then pred_bool false
  else if is_true p then q
  else if is_true q then p
  else Pred AND [] [] None [] [p; q] [] [].

(** ** The text, and its parameters behind [out_params] *)
Definition call (f arg : bytes) : bytes := match f with [] => arg | _ => f ++ "(" ++ arg ++ ")" end.

(** A leaf: IS NULL, one value, BETWEEN, IN. *)
Definition resolve_leaf (p : BasePredicate) (out_params : list DbValue) : outcome (bytes * list DbValue) :=
  match op p with
  | None => Undef
  | Some opr =>
      let lhs := call (lhsFunction p) (columnA p) in
      match opr with
      | IS_NULL | IS_NOT_NULL => Ret (" " ++ lhs ++ " " ++ opString opr, out_params)
      | BETWEEN =>
          match values p with
          | [v1; v2] =>
              let rhs := call (rhsFunction p) "?" in
              Ret (lhs ++ " BETWEEN " ++ rhs ++ " AND " ++ rhs, out_params ++ [v1; v2])
          | _ => Throw (OrmException "BETWEEN predicate should have 2 values")
          end
      | IN | NOT_IN =>
          let marks := match values p with [] => [] | _ :: rest => " ? " ++ concat (map (fun _ => ", ? " : bytes) rest) end in
          Ret (" " ++ lhs ++ " " ++ opString opr ++ " ( " ++ marks ++ " ) ", out_params ++ values p)
      | _ =>
          match values p with
          | [] => Undef
          | v :: _ =>
              let rhs := call (rhsFunction p) "?" in
              let escape : bytes := match opr with LIKE => " ESCAPE '\' " | _ => [] end in
              Ret (" " ++ lhs ++ " " ++ opString opr ++ " " ++ rhs ++ " " ++ escape, out_params ++ [v])
          end
      end
  end.

Definition op_text (p : BasePredicate) : outcome bytes := match op p with Some o => Ret (opString o) | None => Undef end.

Fixpoint resolvePredicates (p : BasePredicate) (out_params : list DbValue) : outcome (bytes * list DbValue) :=
  match predicateType p with
  | LEAF => resolve_leaf p out_params
  | STRING => Ret (" " ++ columnA p ++ " ", out_params ++ values p)
  | TRUE => Ret (" TRUE " : bytes, out_params)
  | FALSE => Ret (" FALSE " : bytes, out_params)
  | FIELD_COMPARISON => o ← op_text p; Ret (" " ++ columnA p ++ " " ++ o ++ " " ++ columnB p ++ " ", out_params)
  | SUBQUERY =>
      o ← op_text p;
      Ret (lhsFunction p ++ "(" ++ columnA p ++ ") " ++ o ++ " ( " ++ columnB p ++ " ) ", out_params ++ values p)
  | EXISTS => Ret (" EXISTS (" ++ columnA p ++ ") ", out_params ++ values p)
  | NOT_EXISTS => Ret (" NOT EXISTS (" ++ columnA p ++ ") ", out_params ++ values p)
  | RAW => o ← op_text p; Ret (" " ++ columnA p ++ " " ++ o ++ " " ++ columnB p ++ " ", out_params ++ values p)
  | AND | OR =>
      match children p with
      | [] => Undef
      | l :: rest =>
          '(s1, out_params) ← resolvePredicates l out_params;
          match rest with
          | [] => Undef
          | r :: _ =>
              '(s2, out_params) ← resolvePredicates r out_params;
              Ret ("(" ++ s1 ++ (match predicateType p with AND => " AND " | _ => " OR " end : bytes) ++ s2 ++ ")", out_params)
          end
      end
  end.

(** ** toString: the same without parameters; conditions with a query within, and raw
    ones, fall through to the children they do not have *)
Definition leaf_toString (p : BasePredicate) : outcome bytes :=
  match op p with
  | None => Undef
  | Some opr =>
      let lhs := call (lhsFunction p) (columnA p) in
      let rhs := call (rhsFunction p) "?" in
      match opr with
      | IS_NULL | IS_NOT_NULL => Ret ("( " ++ lhs ++ " " ++ opString opr ++ " )")
      | BETWEEN =>
          match values p with
          | [_; _] => Ret ("( " ++ lhs ++ " BETWEEN " ++ rhs ++ " AND " ++ rhs ++ " )")
          | _ => Throw (OrmException "BETWEEN predicate should have 2 values")
          end
      | IN | NOT_IN =>
          let marks := match values p with [] => [] | _ :: rest => " ? " ++ concat (map (fun _ => ", ? " : bytes) rest) end in
          Ret ("( " ++ lhs ++ " " ++ opString opr ++ " ( " ++ marks ++ " )" ++ " )")
      | _ =>
          let escape : bytes := match opr with LIKE => " ESCAPE '\' " | _ => [] end in
          Ret ("( " ++ lhs ++ " " ++ opString opr ++ " " ++ rhs ++ " " ++ escape ++ ")")
      end
  end.

Fixpoint pred_toString (p : BasePredicate) : outcome bytes :=
  match predicateType p with
  | LEAF => leaf_toString p
  | STRING => Ret ("( " ++ columnA p ++ " )")
  | TRUE => Ret (" TRUE " : bytes)
  | FALSE => Ret (" FALSE " : bytes)
  | FIELD_COMPARISON => o ← op_text p; Ret (" " ++ columnA p ++ " " ++ o ++ " " ++ columnB p ++ " ")
  | SUBQUERY => o ← op_text p; Ret (" " ++ columnA p ++ " " ++ o ++ " ( " ++ columnB p ++ " ) ")
  | _ =>
      match children p with
      | [] => Undef
      | l :: rest =>
          s1 ← pred_toString l;
          match rest with
          | [] => Undef
          | r :: _ =>
              s2 ← pred_toString r;
              Ret ("(" ++ s1 ++ (match predicateType p with AND => " AND " | OR => " OR " | _ => [] end : bytes) ++ s2 ++ ")")
          end
      end
  end.

(** ** Column names *)

(** The models of the query. *)
Definition default_resolve (models : list Model) (p : FieldPtr) (tableAlias : bytes) : outcome bytes :=
  match models !! ptr_model p with
  | None => Undef
  | Some m =>
      match tableAlias with
      | [] => a ← getAlias (ptr_model p); name ← columnNameOf m (ptr_field p); Ret (a ++ "." ++ name)
      | _ => name ← columnNameOf m (ptr_field p); Ret (tableAlias ++ "." ++ name)
      end
  end.

(** In a CHECK constraint columns have no table. *)
Definition check_resolve (m : Model) (p : FieldPtr) (_ : bytes) : outcome bytes := columnNameOf m (ptr_field p).

(** ** WhereClause *)
Definition where_ (p : BasePredicate) (wherePredicate : option BasePredicate) : option BasePredicate :=
  match wherePredicate with None => Some p | Some w => Some (pred_and w p) end.
Definition andWhere := where_.
Definition orWhere (p : BasePredicate) (wherePredicate : option BasePredicate) : option BasePredicate :=
  match wherePredicate with None => Some p | Some w => Some (pred_or w p) end.

(** ** The connectives mean what they say

    SQL's logic has three values; what the other conditions mean is left open. *)
Inductive tri := Yes | No | Unknown.

Definition tri_and (a b : tri) : tri := match a, b with No, _ | _, No => No | Yes, Yes => Yes | _, _ => Unknown end.
Definition tri_or (a b : tri) : tri := match a, b with Yes, _ | _, Yes => Yes | No, No => No | _, _ => Unknown end.

Fixpoint denote (atom : BasePredicate -> tri) (p : BasePredicate) : tri :=
  match predicateType p, children p with
  | TRUE, _ => Yes
  | FALSE, _ => No
  | AND, [l; r] => tri_and (denote atom l) (denote atom r)
  | OR, [l; r] => tri_or (denote atom l) (denote atom r)
  | _, _ => atom p
  end.

Lemma denote_true atom p : is_true p = true -> denote atom p = Yes.
Proof. destruct p as [[] ? ? ? ? ? ? ?]; done. Qed.

Lemma denote_false atom p : is_false p = true -> denote atom p = No.
Proof. destruct p as [[] ? ? ? ? ? ? ?]; done. Qed.

Lemma tri_laws a : tri_and No a = No /\ tri_and a No = No /\ tri_and Yes a = a /\ tri_and a Yes = a /\
  tri_or Yes a = Yes /\ tri_or a Yes = Yes /\ tri_or No a = a /\ tri_or a No = a.
Proof. by destruct a. Qed.

Lemma denote_and atom p q : denote atom (pred_and p q) = tri_and (denote atom p) (denote atom q).
Proof.
  unfold pred_and. destruct (tri_laws (denote atom p)) as (? & ? & ? & ? & _), (tri_laws (denote atom q)) as (? & ? & ? & ? & _).
  destruct (is_false p) eqn:Fp; [by rewrite (denote_false _ p)|]. destruct (is_false q) eqn:Fq; [by rewrite (denote_false _ q)|].
  destruct (is_true p) eqn:Tp; [by rewrite (denote_true _ p)|]. destruct (is_true q) eqn:Tq; [by rewrite (denote_true _ q)|]. done.
Qed.

Lemma denote_or atom p q : denote atom (pred_or p q) = tri_or (denote atom p) (denote atom q).
Proof.
  unfold pred_or. destruct (tri_laws (denote atom p)) as (_ & _ & _ & _ & ? & ? & ? & ?), (tri_laws (denote atom q)) as (_ & _ & _ & _ & ? & ? & ? & ?).
  destruct (is_true p) eqn:Tp; [by rewrite (denote_true _ p)|]. destruct (is_true q) eqn:Tq; [by rewrite (denote_true _ q)|].
  destruct (is_false p) eqn:Fp; [by rewrite (denote_false _ p)|]. destruct (is_false q) eqn:Fq; [by rewrite (denote_false _ q)|]. done.
Qed.

(** The simplifications of && and || are valid in SQL's three-valued logic: for any
    meaning of the conditions below, a conjunction is true, false or unknown exactly
    as its parts say, and so is a disjunction; adding a condition to a WHERE clause is
    the conjunction with what was there. *)
Theorem connectives atom p q w :
  denote atom (pred_and p q) = tri_and (denote atom p) (denote atom q) /\
  denote atom (pred_or p q) = tri_or (denote atom p) (denote atom q) /\
  option_map (denote atom) (where_ p w) = Some (match w with Some w => tri_and (denote atom w) (denote atom p) | None => denote atom p end) /\
  option_map (denote atom) (orWhere p w) = Some (match w with Some w => tri_or (denote atom w) (denote atom p) | None => denote atom p end).
Proof.
  split; [apply denote_and|]. split; [apply denote_or|].
  split; destruct w; cbn; rewrite ?denote_and, ?denote_or; done.
Qed.

(** ** The text with its parameters is the text with the values in their places *)

(** Each mark is replaced by the next of the parameters, all of which are used. *)
Fixpoint fill (lit : DbValue -> bytes) (sql : bytes) (params : list DbValue) : option bytes :=
  match sql with
  | [] => match params with [] => Some [] | _ => None end
  | c :: sql =>
      if Ascii.eqb c "?" then
        match params with v :: params => app (lit v) <$> fill lit sql params | [] => None end
      else cons c <$> fill lit sql params
  end.

Definition no_mark (s : bytes) : Prop := "?"%char ∉ s.

Lemma fill_app lit a b ps qs x y : fill lit a ps = Some x -> fill lit b qs = Some y -> fill lit (a ++ b) (ps ++ qs) = Some (x ++ y).
Proof.
  revert ps x. induction a as [|c a IH]; intros ps x Ha Hb; cbn [fill app] in *.
  - destruct ps; [|done]. injection Ha as <-. done.
  - destruct (Ascii.eqb c "?").
    + destruct ps as [|v ps]; [done|]. apply fmap_Some in Ha as (x' & Ha & ->). cbn [app].
      rewrite (IH _ _ Ha Hb). cbn. by rewrite app_assoc.
    + apply fmap_Some in Ha as (x' & Ha & ->). by rewrite (IH _ _ Ha Hb).
Qed.

Lemma fill_plain lit s : no_mark s -> fill lit s [] = Some s.
Proof.
  intros H. induction s as [|c s IH]; [done|]. apply not_elem_of_cons in H as [Hc H]. cbn [fill].
  destruct (Ascii.eqb_spec c "?"); [by subst|]. by rewrite IH.
Qed.

Lemma fill_plain_app lit s b qs y : no_mark s -> fill lit b qs = Some y -> fill lit (s ++ b) qs = Some (s ++ y).
Proof. intros H Hb. change qs with ([] ++ qs). apply fill_app; [by apply fill_plain|done]. Qed.

Lemma fill_mark lit v b qs y : fill lit b qs = Some y -> fill lit ("?" ++ b) (v :: qs) = Some (lit v ++ y).
Proof. intros H. change ("?" ++ b) with ("?"%char :: b). cbn [fill]. change (Ascii.eqb "?" "?") with true. cbv iota. by rewrite H. Qed.

Lemma fill_count lit sql ps x : fill lit sql ps = Some x -> length (filter (fun c => c = "?"%char) sql) = length ps.
Proof.
  revert ps x. induction sql as [|c sql IH]; intros ps x; cbn [fill].
  - by destruct ps.
  - destruct (Ascii.eqb_spec c "?") as [->|N].
    + destruct ps as [|v ps]; [done|]. intros (x' & H & _)%fmap_Some. rewrite filter_cons_True by done. cbn. by rewrite (IH _ _ H).
    + intros (x' & H & _)%fmap_Some. rewrite filter_cons_False by done. eauto.
Qed.

Section Inlined.
Context (lit : DbValue -> bytes).

(** The text with every value written where its mark stands. *)
Definition inline_leaf (p : BasePredicate) (opr : Operator) : bytes :=
  let lhs := call (lhsFunction p) (columnA p) in
  match opr, values p with
  | (IS_NULL | IS_NOT_NULL), _ => " " ++ lhs ++ " " ++ opString opr
  | BETWEEN, [v1; v2] => lhs ++ " BETWEEN " ++ call (rhsFunction p) (lit v1) ++ " AND " ++ call (rhsFunction p) (lit v2)
  | (IN | NOT_IN), vs =>
      " " ++ lhs ++ " " ++ opString opr ++ " ( " ++
      (match vs with [] => [] | v :: rest => " " ++ lit v ++ " " ++ concat (map (fun v => ", " ++ lit v ++ " ") rest) end) ++ " ) "
  | LIKE, v :: _ => " " ++ lhs ++ " " ++ opString opr ++ " " ++ call (rhsFunction p) (lit v) ++ " " ++ " ESCAPE '\' "
  | _, v :: _ => " " ++ lhs ++ " " ++ opString opr ++ " " ++ call (rhsFunction p) (lit v) ++ " "
  | _, [] => []
  end.

Definition filled (sql : bytes) (ps : list DbValue) : bytes := default [] (fill lit sql ps).

Fixpoint inline (p : BasePredicate) : bytes :=
  let opr := match op p with Some o => o | None => EQUALS end in
  match predicateType p, children p with
  | LEAF, _ => inline_leaf p opr
  | STRING, _ => " " ++ filled (columnA p) (values p) ++ " "
  | TRUE, _ => " TRUE "
  | FALSE, _ => " FALSE "
  | FIELD_COMPARISON, _ => " " ++ columnA p ++ " " ++ opString opr ++ " " ++ columnB p ++ " "
  | SUBQUERY, _ => lhsFunction p ++ "(" ++ columnA p ++ ") " ++ opString opr ++ " ( " ++ filled (columnB p) (values p) ++ " ) "
  | EXISTS, _ => " EXISTS (" ++ filled (columnA p) (values p) ++ ") "
  | NOT_EXISTS, _ => " NOT EXISTS (" ++ filled (columnA p) (values p) ++ ") "
  | RAW, _ => " " ++ filled (columnA p ++ " " ++ opString opr ++ " " ++ columnB p) (values p) ++ " "
  | AND, [l; r] => "(" ++ inline l ++ " AND " ++ inline r ++ ")"
  | OR, [l; r] => "(" ++ inline l ++ " OR " ++ inline r ++ ")"
  | _, _ => []
  end.

(** What the builders make: names have no marks, and the texts taken as they are have
    as many as they have values. *)
Definition leaf_ok (opr : Operator) (vs : list DbValue) : Prop :=
  match opr with
  | IS_NULL | IS_NOT_NULL | IN | NOT_IN => True
  | BETWEEN => length vs = 2
  | _ => vs <> []
  end.

Definition has_fill (sql : bytes) (ps : list DbValue) : Prop := is_Some (fill lit sql ps).

Inductive pred_ok : BasePredicate -> Prop :=
| ok_leaf col opr vs f g : no_mark col -> no_mark f -> no_mark g -> leaf_ok opr vs -> pred_ok (Pred LEAF col [] (Some opr) vs [] f g)
| ok_string s vs : has_fill s vs -> pred_ok (Pred STRING s [] None vs [] [] [])
| ok_bool b : pred_ok (pred_bool b)
| ok_fields a b o f g : no_mark a -> no_mark b -> pred_ok (Pred FIELD_COMPARISON a b (Some o) [] [] f g)
| ok_subquery col sql o vs f : no_mark col -> no_mark f -> has_fill sql vs -> pred_ok (Pred SUBQUERY col sql (Some o) vs [] f [])
| ok_exists sql vs t : (t = EXISTS \/ t = NOT_EXISTS) -> has_fill sql vs -> pred_ok (Pred t sql [] None vs [] [] [])
| ok_raw a b o vs : has_fill (a ++ " " ++ opString o ++ " " ++ b) vs -> pred_ok (Pred RAW a b (Some o) vs [] [] [])
| ok_and p q : pred_ok p -> pred_ok q -> pred_ok (Pred AND [] [] None [] [p; q] [] [])
| ok_or p q : pred_ok p -> pred_ok q -> pred_ok (Pred OR [] [] None [] [p; q] [] []).

Lemma no_mark_app a b : no_mark (a ++ b) <-> no_mark a /\ no_mark b.
Proof. unfold no_mark. by rewrite not_elem_of_app. Qed.

Lemma bytes_no_mark (s : bytes) : forallb (fun c => negb (Ascii.eqb c "?")) s = true -> no_mark s.
Proof. intros H. unfold no_mark. intros Hin. rewrite forallb_forall in H. apply list_elem_of_In in Hin. by apply H in Hin. Qed.

Lemma literal_no_mark (s : string) :
  forallb (fun c => negb (Ascii.eqb c "?")) (list_ascii_of_string s) = true -> no_mark (list_ascii_of_string s).
Proof. apply bytes_no_mark. Qed.

Lemma opString_no_mark o : no_mark (opString o).
Proof. destruct o; by apply literal_no_mark. Qed.

Lemma call_no_mark f a : no_mark f -> no_mark a -> no_mark (call f a).
Proof.
  intros Hf Ha. unfold call. destruct f as [|c f]; [done|]. rewrite !no_mark_app. split_and!; try done; by apply literal_no_mark.
Qed.

Lemma fill_call f v b qs y : no_mark f -> fill lit b qs = Some y -> fill lit (call f "?" ++ b) (v :: qs) = Some (call f (lit v) ++ y).
Proof.
  intros Hf H. unfold call. destruct f as [|c f]; [by apply fill_mark|]. rewrite <- !app_assoc. apply fill_plain_app; [done|].
  apply fill_plain_app; [by apply literal_no_mark|]. apply fill_mark. apply fill_plain_app; [by apply literal_no_mark|done].
Qed.

Lemma fill_filled sql ps b qs y : has_fill sql ps -> fill lit b qs = Some y -> fill lit (sql ++ b) (ps ++ qs) = Some (filled sql ps ++ y).
Proof. intros [x Hx] H. unfold filled. rewrite Hx. by apply fill_app. Qed.

(** The marks of an IN list. *)
Lemma fill_list vs b qs y : fill lit b qs = Some y ->
  fill lit (concat (map (fun _ => ", ? " : bytes) vs) ++ b) (vs ++ qs) = Some (concat (map (fun v => ", " ++ lit v ++ " ") vs) ++ y).
Proof.
  intros H. induction vs as [|v vs IH]; [done|]. cbn [map concat]. rewrite <- !app_assoc.
  change (", ? " ++ concat (map (fun _ => ", ? " : bytes) vs) ++ b) with (", " ++ "?" ++ " " ++ concat (map (fun _ => ", ? " : bytes) vs) ++ b).
  apply fill_plain_app; [by apply literal_no_mark|]. cbn [app]. apply fill_mark. apply fill_plain_app; [by apply literal_no_mark|done].
Qed.

Lemma fill_marks vs b qs y : fill lit b qs = Some y ->
  fill lit ((match vs with [] => [] | _ :: rest => " ? " ++ concat (map (fun _ => ", ? " : bytes) rest) end) ++ b) (vs ++ qs) =
  Some ((match vs with [] => [] | v :: rest => " " ++ lit v ++ " " ++ concat (map (fun v => ", " ++ lit v ++ " ") rest) end) ++ y).
Proof.
  intros H. destruct vs as [|v vs]; [done|]. rewrite <- !app_assoc.
  change (" ? " ++ concat (map (fun _ => ", ? " : bytes) vs) ++ b) with (" " ++ "?" ++ " " ++ concat (map (fun _ => ", ? " : bytes) vs) ++ b).
  apply fill_plain_app; [by apply literal_no_mark|]. cbn [app]. apply fill_mark. apply fill_plain_app; [by apply literal_no_mark|].
  by apply fill_list.
Qed.
End Inlined.

Ltac no_marks := repeat first
  [ assumption | apply opString_no_mark | apply call_no_mark | apply literal_no_mark; reflexivity | apply no_mark_app; split ].
Ltac fills := repeat first
  [ apply fill_call; [assumption|] | apply fill_marks | apply fill_filled; [assumption|]
  | apply fill_plain; solve [no_marks] | apply fill_plain_app; [solve [no_marks]|] | reflexivity ].

Lemma fill_end lit sql ps x : fill lit (sql ++ []) (ps ++ []) = Some (x ++ []) -> fill lit sql ps = Some x.
Proof. by rewrite !app_nil_r. Qed.

Ltac placed := apply fill_end; cbn [inline predicateType children op columnA columnB values lhsFunction pred_bool pred_type];
  rewrite <- ?app_assoc; fills.

Section Placed.
Context (lit : DbValue -> bytes).
#[local] Abbreviation inline := (inline lit).

Lemma leaf_placed col opr vs f g out : no_mark col -> no_mark f -> no_mark g -> leaf_ok opr vs ->
  let p := Pred LEAF col [] (Some opr) vs [] f g in
  exists sql ps, resolve_leaf p out = Ret (sql, out ++ ps) /\ fill lit sql ps = Some (inline_leaf lit p opr).
Proof.
  intros Hc Hf Hg Hl p. unfold resolve_leaf, inline_leaf, p. cbn [op lhsFunction rhsFunction columnA values].
  pose proof (opString_no_mark opr) as Ho.
  destruct opr; cbn [leaf_ok] in Hl; try (destruct vs as [|v vs]; [done|]; eexists _, [v]; split; [reflexivity|]; change [v] with ([v] ++ []); apply fill_end; rewrite <- ?app_assoc; cbn [app]; fills).
  - eexists _, vs. split; [reflexivity|]. apply fill_end. rewrite <- ?app_assoc. fills.
  - eexists _, vs. split; [reflexivity|]. apply fill_end. rewrite <- ?app_assoc. fills.
  - exists (" " ++ call f col ++ " " ++ opString IS_NULL), []. rewrite app_nil_r. split; [reflexivity|]. apply fill_end. rewrite <- ?app_assoc. fills.
  - exists (" " ++ call f col ++ " " ++ opString IS_NOT_NULL), []. rewrite app_nil_r. split; [reflexivity|]. apply fill_end.
    rewrite <- ?app_assoc. fills.
  - destruct vs as [|v1 [|v2 [|]]]; try done. eexists _, [v1; v2]. split; [reflexivity|]. apply fill_end. rewrite <- ?app_assoc.
    cbn [app]. fills.
Qed.

Lemma connective_placed w s1 ps1 s2 ps2 x y : no_mark w -> fill lit s1 ps1 = Some x -> fill lit s2 ps2 = Some y ->
  fill lit ("(" ++ s1 ++ w ++ s2 ++ ")") (ps1 ++ ps2) = Some ("(" ++ x ++ w ++ y ++ ")").
Proof.
  intros Hw F1 F2. apply fill_plain_app; [no_marks|]. apply fill_app; [done|]. apply fill_plain_app; [done|].
  apply fill_end. rewrite <- !app_assoc. apply fill_app; [done|]. fills.
Qed.

Lemma resolve_placed p out : pred_ok lit p ->
  exists sql ps, resolvePredicates p out = Ret (sql, out ++ ps) /\ fill lit sql ps = Some (inline p).
Proof.
  intros Hp.
  revert out. induction Hp; intros out.
  - by apply leaf_placed.
  - eexists _, vs. split; [reflexivity|]. placed.
  - exists (inline (pred_bool b)), []. rewrite app_nil_r. destruct b; (split; [reflexivity|]; placed).
  - exists (" " ++ a ++ " " ++ opString o ++ " " ++ b ++ " "), []. rewrite app_nil_r. split; [reflexivity|]. placed.
  - eexists _, vs. split; [reflexivity|]. placed.
  - destruct H as [->| ->]; (eexists _, vs; split; [reflexivity|]; placed).
  - exists (" " ++ (a ++ " " ++ opString o ++ " " ++ b) ++ " "), vs. split; [cbn; by rewrite <- !app_assoc|].
    apply fill_end. cbn [Predicate.inline predicateType op columnA columnB values]. remember (a ++ " " ++ opString o ++ " " ++ b) as t.
    rewrite <- ?app_assoc. fills.
  - destruct (IHHp1 out) as (s1 & ps1 & E1 & F1), (IHHp2 (out ++ ps1)) as (s2 & ps2 & E2 & F2).
    exists ("(" ++ s1 ++ " AND " ++ s2 ++ ")"), (ps1 ++ ps2). cbn [resolvePredicates predicateType children]. rewrite E1. cbn [mbind outcome_bind].
    rewrite E2, (app_assoc out ps1). split; [reflexivity|]. by apply connective_placed; [by apply literal_no_mark|..].
  - destruct (IHHp1 out) as (s1 & ps1 & E1 & F1), (IHHp2 (out ++ ps1)) as (s2 & ps2 & E2 & F2).
    exists ("(" ++ s1 ++ " OR " ++ s2 ++ ")"), (ps1 ++ ps2). cbn [resolvePredicates predicateType children]. rewrite E1. cbn [mbind outcome_bind].
    rewrite E2, (app_assoc out ps1). split; [reflexivity|]. by apply connective_placed; [by apply literal_no_mark|..].
Qed.

(** A value can never become part of the query's text: every condition that the
    builders make is turned into a text and a list of parameters such that the text
    with each mark replaced by the parameter that is bound to it is the condition with
    its values written in their places; there are as many parameters as marks, and
    nested conditions are parenthesised. *)
Theorem predicate_inlined p out : pred_ok lit p ->
  exists sql ps, resolvePredicates p out = Ret (sql, out ++ ps) /\ fill lit sql ps = Some (inline p) /\
    length (filter (fun c => c = "?"%char) sql) = length ps.
Proof.
  intros (sql & ps & H1 & H2)%(resolve_placed p out). exists sql, ps. split_and!; [done|done|by eapply fill_count].
Qed.
End Placed.

(** ** What the builders make *)
Section Built.
Context (lit : DbValue -> bytes) (resolve : FieldPtr -> bytes -> outcome bytes).
Context (resolve_plain : forall p a name, resolve p a = Ret name -> no_mark name).

Lemma empty_no_mark : no_mark [].
Proof. apply not_elem_of_nil. Qed.

Lemma field_ok p opr vals a x : leaf_ok opr (map (toDbValueImpl (raw (ptr_type p))) vals) ->
  pred_field resolve p opr vals a = Ret x -> pred_ok lit x.
Proof.
  intros H (col & E & [= <-])%outcome_bind_ret. constructor; [by eapply resolve_plain|apply empty_no_mark..|done].
Qed.

Lemma field_functions_ok p opr vals f g a x : no_mark f -> no_mark g -> leaf_ok opr (map (toDbValueImpl (raw (ptr_type p))) vals) ->
  pred_field_functions resolve p opr vals f g a = Ret x -> pred_ok lit x.
Proof.
  intros Hf Hg H. unfold pred_field_functions, pred_field. destruct (resolve p a) as [col| |] eqn:E; [|done|done].
  cbn. intros [= <-]. constructor; [by eapply resolve_plain|done..].
Qed.

Lemma fields_ok pa opr pb ts x : pred_fields resolve pa opr pb ts = Ret x -> pred_ok lit x.
Proof.
  intros (a & Ea & H)%outcome_bind_ret. apply outcome_bind_ret in H as (b & Eb & [= <-]). constructor; by eapply resolve_plain.
Qed.

(** A query within a condition is one whose own text has a mark for each parameter. *)
Lemma subquery_ok {Q} {SQ : SubQuery Q} p opr (q : Q) a x sql ps :
  getSqlAndParams q = Ret (sql, ps) -> has_fill lit sql ps -> pred_subquery resolve p opr q a = Ret x -> pred_ok lit x.
Proof.
  intros Eq Hf (col & E & H)%outcome_bind_ret. rewrite Eq in H. cbn in H. injection H as <-.
  constructor; [by eapply resolve_plain|apply empty_no_mark|done].
Qed.

Lemma exists_ok {Q} {SQ : SubQuery Q} (q : Q) b x sql ps :
  getSqlAndParams q = Ret (sql, ps) -> has_fill lit sql ps -> pred_exists q b = Ret x -> pred_ok lit x.
Proof.
  intros Eq Hf H. unfold pred_exists in H. rewrite Eq in H. cbn in H. injection H as <-. constructor; [|done]. destruct b; auto.
Qed.

Lemma and_ok p q : pred_ok lit p -> pred_ok lit q -> pred_ok lit (pred_and p q).
Proof. intros Hp Hq. unfold pred_and. repeat (match goal with |- context [if ?b then _ else _] => destruct b end; try done); by constructor. Qed.

Lemma or_ok p q : pred_ok lit p -> pred_ok lit q -> pred_ok lit (pred_or p q).
Proof. intros Hp Hq. unfold pred_or. repeat (match goal with |- context [if ?b then _ else _] => destruct b end; try done); by constructor. Qed.

Lemma where_ok p w : pred_ok lit p -> from_option (pred_ok lit) True w -> from_option (pred_ok lit) True (where_ p w).
Proof. destruct w; cbn; [|done]. intros. by apply and_ok. Qed.
End Built.

(** A BETWEEN of three members has no values: its text cannot be made. *)
Lemma between_functions_throws resolve pa pb pc f g ts p out :
  pred_between_functions resolve pa BETWEEN pb pc f g ts = Ret p ->
  resolvePredicates p out = Throw (OrmException "BETWEEN predicate should have 2 values").
Proof.
  unfold pred_between_functions. destruct ts as [[ta tb] tc]. intros (a & _ & H)%outcome_bind_ret.
  apply outcome_bind_ret in H as (b & _ & H). apply outcome_bind_ret in H as (c & _ & [= <-]). done.
Qed.

(** The text for people of a condition with EXISTS reads children that are not there. *)
Lemma exists_toString {Q} {SQ : SubQuery Q} (q : Q) b p : pred_exists q b = Ret p -> pred_toString p = Undef.
Proof. intros ([sql ps] & _ & [= <-])%outcome_bind_ret. by destruct b. Qed.

(** ** Examples *)
Module PredicateWitnesses.
Import ModelWitnesses.
Definition ptr (p : nat) (t : CppType) : FieldPtr := {| ptr_model := 0; ptr_field := p; ptr_type := t |}.
Definition name := ptr 1 text.
Definition nick := ptr 2 opt_text.
Definition age := ptr 3 uint8.
Definition col : FieldPtr -> bytes -> outcome bytes := default_resolve [users].

Definition quoted (v : DbValue) : bytes := match v with VText s => "'" ++ s ++ "'" | v => dbValueToString (fun _ => []) v end.

(** [equals(&User::name, "O?Hara") && (in(&User::age, {1, 2}) || isNull(&User::nick))] *)
Definition sample : outcome BasePredicate :=
  p ← equals col name (FText "O?Hara") [];
  q ← in_values col age [FInt 1; FInt 2] [];
  r ← isNull col nick [];
  Ret (pred_and p (pred_or q r)).

Example sample_text : (p ← sample; resolvePredicates p []) =
  Ret ("( a.name = ?  AND ( a.age IN (  ? , ?  )  OR  a.nick IS NULL))" : bytes, [VText "O?Hara"; VInt 1; VInt 2]).
Proof. vm_compute. reflexivity. Qed.

Lemma predicate_inlined_witness :
  exists p sql ps, sample = Ret p /\ resolvePredicates p [] = Ret (sql, ps) /\ fill quoted sql ps = Some (inline quoted p).
Proof.
  assert (E : exists p, sample = Ret p) by (eexists; vm_compute; reflexivity). destruct E as [p E].
  assert (Ok : pred_ok quoted p).
  { unfold sample in E. apply outcome_bind_ret in E as (p1 & E1 & E). apply outcome_bind_ret in E as (p2 & E2 & E).
    apply outcome_bind_ret in E as (p3 & E3 & [= <-]).
    vm_compute in E1, E2, E3. injection E1 as <-. injection E2 as <-. injection E3 as <-.
    apply and_ok; [|apply or_ok]; constructor; try (intros H; vm_compute in H; clear -H; set_solver); done. }
  destruct (predicate_inlined quoted p [] Ok) as (sql & ps & H1 & H2 & _). exists p, sql, ps. by split_and!.
Defined.
End PredicateWitnesses.
