(* ===== verification/Conditions.v ===== *)
(** What conditions select ([orm/Predicate.hpp]): the meaning, on a row, of the SQL that
    the builders' conditions become, over the comparisons, LIKE and LOWER of the
    database. *)
From Stdlib Require Import Floats.SpecFloat.
From S2P Require Import Prelude Bytes DbValue Model Predicate.

#[local] Arguments list_ascii_of_string : simpl never.

(** ** LIKE with ESCAPE '\', on texts of one-byte characters *)

Definition wildcard (c : ascii) : bool := Ascii.eqb c "%" || Ascii.eqb c "_" || Ascii.eqb c "\".

Section Like.
(** Two characters are the same if [letter] maps them to the same. *)
Context (letter : ascii -> ascii).

(** What the documentation says of patterns; one that ends behind an escape matches nothing. *)
Inductive like_spec : bytes -> bytes -> Prop :=
| like_end : like_spec [] []
| like_escape c p d t : letter c = letter d -> like_spec p t -> like_spec ("\"%char :: c :: p) (d :: t)
| like_one p d t : like_spec p t -> like_spec ("_"%char :: p) (d :: t)
| like_any p s t : like_spec p t -> like_spec ("%"%char :: p) (s ++ t)
| like_char c p d t : wildcard c = false -> letter c = letter d -> like_spec p t -> like_spec (c :: p) (d :: t).

Fixpoint suffixes (t : bytes) : list bytes := t :: match t with [] => [] | _ :: t => suffixes t end.

Fixpoint like_match (p t : bytes) {struct p} : bool :=
  match p with
  | [] => match t with [] => true | _ => false end
  | c :: p =>
      if Ascii.eqb c "%" then existsb (like_match p) (suffixes t)
      else if Ascii.eqb c "_" then match t with [] => false | _ :: t => like_match p t end
      else if Ascii.eqb c "\" then
        match p, t with
        | c :: p, d :: t => Ascii.eqb (letter c) (letter d) && like_match p t
        | _, _ => false
        end
      else match t with [] => false | d :: t => Ascii.eqb (letter c) (letter d) && like_match p t end
  end.

Lemma suffixes_elem t u : In u (suffixes t) <-> exists s, t = s ++ u.
Proof.
  induction t as [|d t IH]; cbn [suffixes In].
  - split; [intros [<-|[]]; by exists []|]. intros [s H]. left. symmetry in H. by apply app_eq_nil in H as [_ ->].
  - rewrite IH. split.
    + intros [<-|[s ->]]; [by exists []|by exists (d :: s)].
    + intros [[|x s] H]; [by left|]. injection H as _ ->. right. by exists s.
Qed.

Lemma like_percent p t : like_spec ("%"%char :: p) t <-> exists s u, t = s ++ u /\ like_spec p u.
Proof.
  split; [|intros (s & u & -> & H); by constructor].
  intros H. inversion H; subst; [by eauto|done].
Qed.


Lemma eqb_letter c d : Ascii.eqb (letter c) (letter d) = true <-> letter c = letter d.
Proof. apply Ascii.eqb_eq. Qed.

Lemma like_escaped_cons c p t :
  like_spec ("\"%char :: c :: p) t <-> exists d u, t = d :: u /\ letter c = letter d /\ like_spec p u.
Proof.
  split; [|intros (d & u & -> & E & H); by constructor].
  intros H. inversion H; subst; [by eauto|done].
Qed.

Lemma like_plain_cons c p t : wildcard c = false ->
  like_spec (c :: p) t <-> exists d u, t = d :: u /\ letter c = letter d /\ like_spec p u.
Proof.
  intros W. split; [|intros (d & u & -> & E & H); by constructor].
  intros H. inversion H; subst; try done. by eauto.
Qed.

Lemma like_one_cons p t : like_spec ("_"%char :: p) t <-> exists d u, t = d :: u /\ like_spec p u.
Proof.
  split; [|intros (d & u & -> & H); by constructor].
  intros H. inversion H; subst; try done. by eauto.
Qed.

Lemma like_nil t : like_spec [] t <-> t = [].
Proof. split; [intros H; by inversion H|intros ->; constructor]. Qed.

(** The function decides the relation. *)
Theorem like_match_spec p t : like_match p t = true <-> like_spec p t.
Proof.
  remember (length p) as n eqn:Hn. assert (length p <= n) as Hp by lia. clear Hn.
  revert p t Hp. induction n as [|n IH]; intros p t Hp.
  all: destruct p as [|c p]; [rewrite like_nil; by destruct t|cbn [length] in Hp; try lia].
  cbn [like_match]. destruct (Ascii.eqb_spec c "%") as [->|N1]; [|destruct (Ascii.eqb_spec c "_") as [->|N2]; [|destruct (Ascii.eqb_spec c "\") as [->|N3]]].
  - rewrite existsb_exists, like_percent. split.
    + intros (u & (s & ->)%suffixes_elem & H). exists s, u. split; [done|]. apply IH; [lia|done].
    + intros (s & u & -> & H). exists u. split; [by apply suffixes_elem; eauto|]. apply IH; [lia|done].
  - rewrite like_one_cons. destruct t as [|d t]; [split; [done|by intros (? & ? & ? & ?)]|].
    rewrite IH by lia. split; [by eauto|]. by intros (? & ? & [= <- <-] & ?).
  - destruct p as [|c p]; [split; [done|intros H; inversion H; subst; done]|].
    rewrite like_escaped_cons. destruct t as [|d t]; [split; [done|by intros (? & ? & ? & ?)]|].
    cbn [length] in Hp. rewrite andb_true_iff, eqb_letter, IH by lia. split; [by intros []; eauto|]. by intros (? & ? & [= <- <-] & ?).
  - rewrite like_plain_cons.
    2:{ unfold wildcard. by rewrite (proj2 (Ascii.eqb_neq _ _) N1), (proj2 (Ascii.eqb_neq _ _) N2), (proj2 (Ascii.eqb_neq _ _) N3). }
    destruct t as [|d t]; [split; [done|by intros (? & ? & ? & ?)]|].
    rewrite andb_true_iff, eqb_letter, IH by lia. split; [by intros []; eauto|]. by intros (? & ? & [= <- <-] & ?).
Qed.

(** ** Texts without wildcards, and texts whose wildcards are escaped *)
Definition same_text (v w : bytes) : Prop := map letter v = map letter w.

(** What a caller has to do to a text that is meant as such; no code of the ORM does. *)
Definition escape_like (v : bytes) : bytes := concat (map (fun c => if wildcard c then ["\"%char; c] else [c]) v).

Lemma escape_plain v : forallb (fun c => negb (wildcard c)) v = true -> escape_like v = v.
Proof.
  induction v as [|c v IH]; [done|]. cbn [forallb]. intros [Hc Hv]%andb_true_iff. unfold escape_like. cbn [map concat].
  rewrite (proj1 (negb_true_iff _) Hc). cbn [app]. f_equal. by apply IH.
Qed.

Lemma like_letter c p t :
  like_spec ((if wildcard c then ["\"%char; c] else [c]) ++ p) t <-> exists d u, t = d :: u /\ letter c = letter d /\ like_spec p u.
Proof. destruct (wildcard c) eqn:W; [apply like_escaped_cons|by apply like_plain_cons]. Qed.

Lemma like_escaped v p t : like_spec (escape_like v ++ p) t <-> exists w u, t = w ++ u /\ same_text w v /\ like_spec p u.
Proof.
  revert t. induction v as [|c v IH]; intros t.
  - cbn. split; [intros H; by exists [], t|]. intros (w & u & -> & H%map_eq_nil & Hp). by subst.
  - unfold escape_like. cbn [map concat]. rewrite <- app_assoc, like_letter. fold (escape_like v). split.
    + intros (d & u & -> & E & (w & u' & -> & Sm & H)%IH). exists (d :: w), u'. split_and!; [done| |done]. unfold same_text in *. cbn. by rewrite Sm, E.
    + intros (w & u & -> & Sm & H). destruct w as [|d w]; [done|]. injection Sm as E Sm.
      exists d, (w ++ u). split_and!; [done..|]. apply IH. by exists w, u.
Qed.

Lemma like_percent_end t : like_spec ["%"%char] t.
Proof. apply like_percent. exists t, []. rewrite app_nil_r. split; [done|constructor]. Qed.

Definition has_text (v t : bytes) : Prop := exists a w b, t = a ++ w ++ b /\ same_text w v.
Definition has_prefix (v t : bytes) : Prop := exists w b, t = w ++ b /\ same_text w v.
Definition has_suffix (v t : bytes) : Prop := exists a w, t = a ++ w /\ same_text w v.

Lemma like_has_text v t : like_spec ("%"%char :: escape_like v ++ ["%"%char]) t <-> has_text v t.
Proof.
  rewrite like_percent. split.
  - intros (a & u & -> & (w & b & -> & Sm & _)%like_escaped). by exists a, w, b.
  - intros (a & w & b & -> & Sm). exists a, (w ++ b). split; [done|]. apply like_escaped. exists w, b. split_and!; [done..|]. apply like_percent_end.
Qed.

Lemma like_has_prefix v t : like_spec (escape_like v ++ ["%"%char]) t <-> has_prefix v t.
Proof.
  rewrite like_escaped. split; [intros (w & u & -> & Sm & _); by exists w, u|].
  intros (w & u & -> & Sm). exists w, u. split_and!; [done..|]. apply like_percent_end.
Qed.

Lemma like_is_text v t : like_spec (escape_like v) t <-> same_text t v.
Proof.
  rewrite <- (app_nil_r (escape_like v)), like_escaped. split.
  - intros (w & u & -> & Sm & ->%like_nil). by rewrite app_nil_r.
  - intros Sm. exists t, []. rewrite app_nil_r. split_and!; [done..|constructor].
Qed.

Lemma like_has_suffix v t : like_spec ("%"%char :: escape_like v) t <-> has_suffix v t.
Proof.
  rewrite like_percent. split.
  - intros (a & u & -> & Sm%like_is_text). by exists a, u.
  - intros (a & w & -> & Sm). exists a, w. split; [done|]. by apply like_is_text.
Qed.
End Like.

(** ** What a database answers

    A comparison of two values, LIKE, and the functions of a query.  The laws are the
    documented behaviour that the program relies on: NULL is unknown to everything, whole
    numbers compare as such and texts byte by byte, and LIKE follows [like_spec] on
    ASCII, up to the length of patterns, with or without regard to case. *)
Class Conditions := {
  compare_values : DbValue -> DbValue -> option comparison;
  like_values : DbValue -> DbValue -> tri;
  apply_function : bytes -> DbValue -> DbValue;
  letter : ascii -> ascii;
  like_limit : nat;
  (** Texts taken as they are, and queries within. *)
  other_condition : (bytes -> DbValue) -> BasePredicate -> tri;
}.

Definition ascii_text (s : bytes) : bool := forallb (fun c => code c <? 128)%Z s.

Fixpoint text_compare (s t : bytes) : comparison :=
  match s, t with
  | [], [] => Eq
  | [], _ => Lt
  | _, [] => Gt
  | c :: s, d :: t => match (code c ?= code d)%Z with Eq => text_compare s t | r => r end
  end.

Class ConditionLaws {CD : Conditions} := {
  compare_int m n : compare_values (VInt m) (VInt n) = Some (m ?= n)%Z;
  compare_text s t : compare_values (VText s) (VText t) = Some (text_compare s t);
  compare_null v : compare_values VNull v = None /\ compare_values v VNull = None;
  like_text s p : ascii_text s = true -> ascii_text p = true -> length p <= like_limit ->
    like_values (VText s) (VText p) <> Unknown /\ (like_values (VText s) (VText p) = Yes <-> like_spec letter p s);
  like_null v : like_values VNull v = Unknown /\ like_values v VNull = Unknown;
  lower_text s : ascii_text s = true -> apply_function "LOWER" (VText s) = VText (toLowerCase s);
  lower_null : apply_function "LOWER" VNull = VNull;
  letter_case : letter = id \/ letter = tolower;
}.

Definition tri_of (b : bool) : tri := if b then Yes else No.
Definition tri_not (a : tri) : tri := match a with Yes => No | No => Yes | Unknown => Unknown end.

Section Meaning.
Context {CD : Conditions}.

Definition call_value (f : bytes) (v : DbValue) : DbValue := match f with [] => v | _ => apply_function f v end.

(** Whether the outcome of a comparison is what the operator asks. *)
Definition accepts (o : Operator) (c : comparison) : bool :=
  match o, c with
  | EQUALS, Eq | NOT_EQUALS, (Lt | Gt) | GREATER, Gt | LESSER, Lt | GREATER_OR_EQUAL, (Gt | Eq) | LESSER_OR_EQUAL, (Lt | Eq) => true
  | _, _ => false
  end.
Definition compared (o : Operator) (v w : DbValue) : tri :=
  match compare_values v w with Some c => tri_of (accepts o c) | None => Unknown end.

Definition any_equal (v : DbValue) (vs : list DbValue) : tri := fold_right (fun w r => tri_or (compared EQUALS v w) r) No vs.

(** A leaf, as the database evaluates the text that [resolvePredicates] gives it. *)
Definition leaf_meaning (row : bytes -> DbValue) (p : BasePredicate) : tri :=
  let l := call_value (lhsFunction p) (row (columnA p)) in
  let r := call_value (rhsFunction p) in
  match op p, values p with
  | Some IS_NULL, _ => tri_of (is_null l)
  | Some IS_NOT_NULL, _ => tri_of (negb (is_null l))
  | Some BETWEEN, vs =>
      match vs with
      | [v1; v2] => tri_and (compared GREATER_OR_EQUAL l (r v1)) (compared LESSER_OR_EQUAL l (r v2))
      | _ => Unknown
      end
  | Some IN, vs => any_equal l vs
  | Some NOT_IN, vs => tri_not (any_equal l vs)
  | Some LIKE, v :: _ => like_values l (r v)
  | Some o, v :: _ => compared o l (r v)
  | _, _ => Unknown
  end.

Definition condition_meaning (row : bytes -> DbValue) (p : BasePredicate) : tri :=
  match predicateType p, op p with
  | LEAF, _ => leaf_meaning row p
  | FIELD_COMPARISON, Some o => compared o (row (columnA p)) (row (columnB p))
  | _, _ => other_condition row p
  end.

(** The row is selected. *)
Definition meets (row : bytes -> DbValue) (p : BasePredicate) : bool :=
  match denote (condition_meaning row) p with Yes => true | _ => false end.

Lemma meets_and row p q : meets row (pred_and p q) = meets row p && meets row q.
Proof. unfold meets. rewrite denote_and. by destruct (denote _ p), (denote _ q). Qed.

Lemma meets_or row p q : meets row (pred_or p q) = meets row p || meets row q.
Proof. unfold meets. rewrite denote_or. by destruct (denote _ p), (denote _ q). Qed.

Lemma meets_leaf row p : predicateType p = LEAF -> meets row p = match leaf_meaning row p with Yes => true | _ => false end.
Proof. destruct p as [t ? ? ? ? ? ? ?]. cbn [predicateType]. intros ->. done. Qed.

Lemma any_equal_yes v vs : any_equal v vs = Yes <-> exists w, w ∈ vs /\ compared EQUALS v w = Yes.
Proof.
  induction vs as [|w vs IH]; cbn [any_equal fold_right].
  - split; [done|]. by intros (w & H%elem_of_nil & _).
  - fold (any_equal v vs). transitivity (compared EQUALS v w = Yes \/ any_equal v vs = Yes).
    { destruct (compared _ v w), (any_equal v vs); cbn; intuition congruence. }
    rewrite IH. setoid_rewrite elem_of_cons. split.
    + intros [H|(u & Hu & H)]; eauto.
    + intros (u & [->|Hu] & H); eauto.
Qed.

Lemma any_equal_no v vs : any_equal v vs = No <-> forall w, w ∈ vs -> compared EQUALS v w = No.
Proof.
  induction vs as [|w vs IH]; cbn [any_equal fold_right].
  - split; [|done]. by intros _ w H%elem_of_nil.
  - fold (any_equal v vs). transitivity (compared EQUALS v w = No /\ any_equal v vs = No).
    { destruct (compared _ v w), (any_equal v vs); cbn; intuition congruence. }
    rewrite IH. setoid_rewrite elem_of_cons. split.
    + intros [H1 H2] u [->|Hu]; eauto.
    + intros H. split; eauto.
Qed.
End Meaning.

(** ** What the builders' conditions select *)
Section Builders.
Context {CD : Conditions} {CL : ConditionLaws}.
Context (resolve : FieldPtr -> bytes -> outcome bytes).

Lemma ascii_app a b : ascii_text (a ++ b) = ascii_text a && ascii_text b.
Proof. apply forallb_app. Qed.

Lemma ascii_escape v : ascii_text (escape_like v) = ascii_text v.
Proof.
  induction v as [|c v IH]; [done|]. unfold escape_like. cbn [map concat]. fold (escape_like v). rewrite ascii_app, IH.
  change (ascii_text (c :: v)) with ((code c <? 128)%Z && ascii_text v). f_equal. destruct (wildcard c); cbn; by rewrite andb_true_r.
Qed.

Lemma ascii_lower v : ascii_text v = true -> ascii_text (toLowerCase v) = true.
Proof.
  unfold ascii_text, toLowerCase. rewrite !forallb_forall. intros H c (d & <- & Hd%H)%in_map_iff. revert Hd. clear.
  destruct d as [[] [] [] [] [] [] [] []]; vm_compute; congruence.
Qed.

Lemma wildcard_lower c : wildcard (tolower c) = wildcard c.
Proof. destruct c as [[] [] [] [] [] [] [] []]; reflexivity. Qed.

Lemma lower_wildcard c : wildcard c = true -> tolower c = c.
Proof. destruct c as [[] [] [] [] [] [] [] []]; try done; reflexivity. Qed.

Lemma lower_escape v : toLowerCase (escape_like v) = escape_like (toLowerCase v).
Proof.
  induction v as [|c v IH]; [done|]. unfold escape_like, toLowerCase in *. cbn [map concat]. rewrite map_app, IH, wildcard_lower.
  destruct (wildcard c) eqn:W; [|done]. cbn. by rewrite (lower_wildcard c).
Qed.

(** Lengths of patterns. *)
Ltac pattern_length := rewrite ?length_app; change (length (list_ascii_of_string "%")) with 1;
  change (length (list_ascii_of_string "_")) with 1; change (length (list_ascii_of_string "\")) with 1; lia.

Definition like_leaf (col pat f : bytes) : BasePredicate := Pred LEAF col [] (Some LIKE) [VText pat] [] f f.

Lemma like_meets row col t pat : row col = VText t -> ascii_text t = true -> ascii_text pat = true -> length pat <= like_limit ->
  meets row (like_leaf col pat []) = true <-> like_spec letter pat t.
Proof.
  intros Hr Ht Hp Len. rewrite meets_leaf by done. unfold leaf_meaning. cbn [lhsFunction rhsFunction columnA op values like_leaf call_value].
  rewrite Hr. destruct (like_text t pat Ht Hp Len) as [_ <-]. by destruct (like_values _ _).
Qed.

Lemma length_lower v : length (toLowerCase v) = length v.
Proof. apply length_map. Qed.

Lemma ilike_meets row col t pat : row col = VText t -> ascii_text t = true -> ascii_text pat = true -> length pat <= like_limit ->
  meets row (like_leaf col pat "LOWER") = true <-> like_spec letter (toLowerCase pat) (toLowerCase t).
Proof.
  intros Hr Ht Hp Len. rewrite meets_leaf by done. unfold leaf_meaning. cbn [lhsFunction rhsFunction columnA op values like_leaf].
  rewrite Hr. change (call_value "LOWER" ?v) with (apply_function "LOWER" v). rewrite !lower_text by done.
  destruct (like_text (toLowerCase t) (toLowerCase pat)) as [_ <-]; [by apply ascii_lower..|by rewrite length_lower|].
  by destruct (like_values _ _).
Qed.

Lemma null_meets row col pat f : (f = [] \/ f = "LOWER") -> row col = VNull -> meets row (like_leaf col pat f) = false.
Proof.
  intros Hf Hr. rewrite meets_leaf by done. unfold leaf_meaning. cbn [lhsFunction rhsFunction columnA op values like_leaf]. rewrite Hr.
  assert (call_value f VNull = VNull) as -> by (destruct Hf as [->| ->]; [done|apply lower_null]).
  by rewrite (proj1 (like_null _)).
Qed.

(** Letters that LOWER has made small are compared as they are, in both cases. *)
Lemma lower_letters v w : same_text letter (toLowerCase v) (toLowerCase w) <-> same_text tolower v w.
Proof.
  unfold same_text, toLowerCase. destruct letter_case as [->| ->].
  - by rewrite !map_id.
  - rewrite !map_map. assert (forall c, tolower (tolower c) = tolower c) as E by (intros c; destruct c as [[] [] [] [] [] [] [] []]; reflexivity).
    rewrite !(map_ext _ _ E). done.
Qed.

Lemma lower_has_text v t : has_text letter (toLowerCase v) (toLowerCase t) <-> has_text tolower v t.
Proof.
  split.
  - intros (a & w & b & E & Sm). unfold toLowerCase in E. apply map_eq_app in E as (a' & u & -> & <- & E).
    apply map_eq_app in E as (w' & b' & -> & <- & <-). exists a', w', b'. split; [done|]. by apply lower_letters.
  - intros (a & w & b & -> & Sm). exists (toLowerCase a), (toLowerCase w), (toLowerCase b). split; [by unfold toLowerCase; rewrite !map_app|].
    by apply lower_letters.
Qed.

Context (p : FieldPtr) (alias col : bytes) (is_text : raw (ptr_type p) = TText) (resolved : resolve p alias = Ret col).

Lemma text_field vals f : pred_field_functions resolve p LIKE [FText vals] f f alias = Ret (like_leaf col vals f).
Proof. unfold pred_field_functions, pred_field. rewrite resolved. cbn. by rewrite is_text. Qed.

Lemma text_field_plain vals : pred_field resolve p LIKE [FText vals] alias = Ret (like_leaf col vals []).
Proof. unfold pred_field. rewrite resolved. cbn. by rewrite is_text. Qed.

(** C35: Searching for a text whose wildcards are escaped (for one without any, the text as it
    is): contains, startsWith and endsWith select exactly the rows whose text has it
    within, at its begin or at its end, as far as LIKE tells letters apart; iContains
    and ilike compare without regard to case on every database; NULL is never
    selected. *)
Theorem text_search v row t : row col = VText t -> ascii_text t = true -> ascii_text v = true ->
  length (escape_like v) + 2 <= like_limit ->
  exists c i s e l,
    contains resolve p (escape_like v) alias = Ret c /\ iContains resolve p (escape_like v) alias = Ret i /\
    startsWith resolve p (escape_like v) alias = Ret s /\ endsWith resolve p (escape_like v) alias = Ret e /\
    ilike resolve p (escape_like v) alias = Ret l /\
    (meets row c = true <-> has_text letter v t) /\ (meets row i = true <-> has_text tolower v t) /\
    (meets row s = true <-> has_prefix letter v t) /\ (meets row e = true <-> has_suffix letter v t) /\
    (meets row l = true <-> toLowerCase t = toLowerCase v) /\
    (forall row', row' col = VNull -> forall x, x ∈ [c; i; s; e; l] -> meets row' x = false) /\
    (forallb (fun c => negb (wildcard c)) v = true -> escape_like v = v).
Proof.
  intros Hr Ht Hv Len. do 5 eexists.
  split; [apply text_field_plain|]. split; [apply text_field|]. split; [apply text_field_plain|]. split; [apply text_field_plain|].
  split; [apply text_field|].
  assert (forall a b, ascii_text a = true -> ascii_text b = true -> ascii_text (a ++ escape_like v ++ b) = true) as Asc.
  { intros a b Ha Hb. by rewrite !ascii_app, ascii_escape, Ha, Hb, Hv. }
  split_and!.
  - rewrite like_meets; [apply like_has_text|done..| |pattern_length]. by apply (Asc "%" "%").
  - rewrite ilike_meets; [|done..| |pattern_length]; [|by apply (Asc "%" "%")].
    unfold toLowerCase at 1. rewrite !map_app. fold (toLowerCase (escape_like v)). rewrite lower_escape. etransitivity; [apply like_has_text|].
    apply lower_has_text.
  - rewrite like_meets; [apply like_has_prefix|done..| |pattern_length]. by apply (Asc [] "%").
  - rewrite like_meets; [apply like_has_suffix|done..| |pattern_length]. rewrite <- (app_nil_r (escape_like v)). by apply (Asc "%" []).
  - rewrite ilike_meets; [|done..|by rewrite ascii_escape|lia]. rewrite lower_escape, like_is_text. unfold same_text.
    change (same_text letter (toLowerCase t) (toLowerCase v) <-> same_text tolower t v). apply lower_letters.
  - intros row' Hn x Hx. apply list_elem_of_In in Hx. repeat destruct Hx as [<-|Hx]; [apply null_meets; auto..|done].
  - apply escape_plain.
Qed.

(** What is searched for is a pattern, although every such query says ESCAPE '\': a
    search for [v\] finds the texts that end in [v%], and not those with [v\] within;
    a search for % finds every text, one for _ every text that is not empty. *)
Theorem search_is_pattern v row t : row col = VText t -> ascii_text t = true -> ascii_text v = true ->
  forallb (fun c => negb (wildcard c)) v = true -> length v + 3 <= like_limit ->
  exists c percent one,
    contains resolve p (v ++ "\") alias = Ret c /\ contains resolve p "%" alias = Ret percent /\ contains resolve p "_" alias = Ret one /\
    (meets row c = true <-> has_suffix letter (v ++ "%") t) /\ meets row percent = true /\ (meets row one = true <-> t <> []).
Proof.
  intros Hr Ht Hv Hw Len. do 3 eexists.
  split; [apply text_field_plain|]. split; [apply text_field_plain|]. split; [apply text_field_plain|].
  split_and!.
  - rewrite like_meets; [|done..|rewrite !ascii_app, Hv; done|pattern_length]. rewrite <- like_has_suffix. cbn [app].
    assert (escape_like (v ++ "%") = (v ++ "\") ++ "%") as ->; [|done].
    unfold escape_like. rewrite map_app, concat_app. fold (escape_like v). rewrite escape_plain by done. by rewrite <- app_assoc.
  - apply (like_meets row col t); [done..|pattern_length|]. apply like_percent. exists [], t. split; [done|]. apply like_percent. exists [], t.
    split; [done|]. apply like_percent_end.
  - rewrite like_meets; [|done..|pattern_length].
    change (like_spec letter ("%"%char :: "_"%char :: ["%"%char]) t <-> t <> []). rewrite like_percent. split.
    + intros (s & u & -> & (d & u' & -> & _)%like_one_cons). by destruct s.
    + intros N. exists [], t. split; [done|]. destruct t as [|d t]; [done|]. apply like_one_cons. exists d, t. split; [done|]. apply like_percent_end.
Qed.
End Builders.

(** ** Comparisons *)
Section Comparisons.
Context {CD : Conditions} {CL : ConditionLaws}.
Context (resolve : FieldPtr -> bytes -> outcome bytes).

Definition leaf (col : bytes) (o : Operator) (vs : list DbValue) : BasePredicate := Pred LEAF col [] (Some o) vs [] [] [].

Lemma compared_null o v : compared o VNull v = Unknown /\ compared o v VNull = Unknown.
Proof. unfold compared. destruct (compare_null v) as [H1 H2]. by rewrite H1, H2. Qed.

Lemma any_equal_null vs : vs <> [] -> any_equal VNull vs = Unknown.
Proof.
  destruct vs as [|v vs]; [done|]. intros _. unfold any_equal. cbn [fold_right]. rewrite (proj1 (compared_null _ _)). fold (any_equal VNull vs).
  destruct (any_equal VNull vs) eqn:E; try done. exfalso. apply any_equal_yes in E as (w & _ & E).
  by rewrite (proj1 (compared_null _ _)) in E.
Qed.

(** NULL is selected by no comparison, not even by !=. *)
Lemma null_compared row col o v vs : row col = VNull ->
  (o <> IS_NULL /\ o <> IS_NOT_NULL /\ o <> LIKE) -> meets row (leaf col o (v :: vs)) = false.
Proof.
  intros Hr Ho. rewrite meets_leaf by done. unfold leaf_meaning. cbn [leaf lhsFunction columnA op values call_value]. rewrite Hr.
  destruct o; try tauto; cbn [call_value rhsFunction]; rewrite ?(proj1 (compared_null _ _)), ?any_equal_null by done; try done.
  destruct vs as [|w [|]]; try done. by rewrite !(proj1 (compared_null _ _)).
Qed.

Lemma compared_int o m n : compared o (VInt m) (VInt n) = tri_of (accepts o (m ?= n)%Z).
Proof. unfold compared. by rewrite compare_int. Qed.

Lemma text_compare_eq s t : text_compare s t = Eq <-> s = t.
Proof.
  revert t. induction s as [|c s IH]; intros [|d t]; cbn; try done.
  destruct (Z.compare_spec (code c) (code d)) as [E|L|L].
  - rewrite IH. unfold code in E. apply N2Z.inj in E. assert (c = d) as -> by (by rewrite <- (ascii_N_embedding c), E, ascii_N_embedding).
    split; [by intros ->|by intros [= ->]].
  - split; [done|]. intros [= -> ->]. lia.
  - split; [done|]. intros [= -> ->]. lia.
Qed.

Context (p : FieldPtr) (alias col : bytes) (resolved : resolve p alias = Ret col).

Lemma field_leaf o vs : pred_field resolve p o vs alias = Ret (leaf col o (map (toDbValueImpl (raw (ptr_type p))) vs)).
Proof. unfold pred_field. by rewrite resolved. Qed.

Lemma int_equal n ks : any_equal (VInt n) (map VInt ks) = tri_of (bool_decide (n ∈ ks)).
Proof.
  assert (forall k, compared EQUALS (VInt n) (VInt k) = tri_of (bool_decide (n = k))) as One.
  { intros k. rewrite compared_int. cbn. destruct (Z.compare_spec n k); case_bool_decide; try done; lia. }
  case_bool_decide as D.
  - apply any_equal_yes. exists (VInt n). split; [by apply (list_elem_of_fmap_2 VInt)|]. rewrite One. by rewrite bool_decide_true.
  - apply any_equal_no. intros w (k & -> & Hk)%(list_elem_of_fmap_1 VInt). rewrite One. rewrite bool_decide_false; [done|]. by intros ->.
Qed.

Context (signed : bool) (bits : Z) (is_int : raw (ptr_type p) = TInt signed bits).

Lemma int_values ks : map (toDbValueImpl (raw (ptr_type p))) (map FInt ks) = map VInt (map to_int64 ks).
Proof. rewrite is_int, !map_map. by apply map_ext. Qed.

Lemma int_leaf row n o k : row col = VInt n ->
  o ∈ [EQUALS; NOT_EQUALS; GREATER; LESSER; GREATER_OR_EQUAL; LESSER_OR_EQUAL] ->
  meets row (leaf col o [VInt k]) = accepts o (n ?= k)%Z.
Proof.
  intros Hr Ho. rewrite meets_leaf by done. unfold leaf_meaning. cbn [leaf lhsFunction columnA op values call_value rhsFunction]. rewrite Hr.
  assert (match compared o (VInt n) (VInt k) with Yes => true | _ => false end = accepts o (n ?= k)%Z) as E
    by (rewrite compared_int; by destruct (accepts o _)).
  apply list_elem_of_In in Ho. repeat destruct Ho as [<-|Ho]; done.
Qed.

(** C36: Comparisons of a column of whole numbers with values select what they say: the six
    orders, a closed interval, membership in a list, also an empty one; NULL is
    selected by isNull and by no comparison, not even by notEquals or notIn, but by
    notIn of nothing. *)
Theorem comparison_search k k2 ks row : (exists n, row col = VInt n) \/ row col = VNull ->
  exists eq ne gt lt ge le btw inl_ notin null notnull,
    equals resolve p (FInt k) alias = Ret eq /\ notEquals resolve p (FInt k) alias = Ret ne /\
    greater resolve p (FInt k) alias = Ret gt /\ lesser resolve p (FInt k) alias = Ret lt /\
    greaterOrEqual resolve p (FInt k) alias = Ret ge /\ lesserOrEqual resolve p (FInt k) alias = Ret le /\
    between resolve p (FInt k) (FInt k2) alias = Ret btw /\ in_values resolve p (map FInt ks) alias = Ret inl_ /\
    notIn_values resolve p (map FInt ks) alias = Ret notin /\ Predicate.isNull resolve p alias = Ret null /\
    isNotNull resolve p alias = Ret notnull /\
    match row col with
    | VInt n =>
        let v := to_int64 k in
        (meets row eq = true <-> n = v) /\ (meets row ne = true <-> n <> v) /\ (meets row gt = true <-> (n > v)%Z) /\
        (meets row lt = true <-> (n < v)%Z) /\ (meets row ge = true <-> (n >= v)%Z) /\ (meets row le = true <-> (n <= v)%Z) /\
        (meets row btw = true <-> (v <= n <= to_int64 k2)%Z) /\ (meets row inl_ = true <-> n ∈ map to_int64 ks) /\
        (meets row notin = true <-> n ∉ map to_int64 ks) /\ meets row null = false /\ meets row notnull = true
    | _ =>
        Forall (fun q => meets row q = false) [eq; ne; gt; lt; ge; le; btw; inl_] /\ (meets row notin = true <-> ks = []) /\
        meets row null = true /\ meets row notnull = false
    end.
Proof.
  intros Hrow. do 11 eexists. do 11 (split; [apply field_leaf|]). rewrite int_values. cbn [map]. rewrite is_int. cbn [toDbValueImpl].
  destruct Hrow as [[n Hr]|Hr]; rewrite Hr.
  - cbv zeta. rewrite !(int_leaf row n) by (done || set_solver). rewrite !meets_leaf by done.
    unfold leaf_meaning. cbn [leaf lhsFunction columnA op values call_value rhsFunction]. rewrite Hr, int_equal, !compared_int.
    set (v := to_int64 k). set (v2 := to_int64 k2).
    split_and!; try done; try (cbn [accepts]; destruct (Z.compare_spec n v); intuition (lia || done)).
    + cbn [accepts]. destruct (Z.compare_spec n v), (Z.compare_spec n v2); cbn; intuition (lia || done).
    + by destruct (bool_decide_reflect (n ∈ map to_int64 ks)).
    + by destruct (bool_decide_reflect (n ∈ map to_int64 ks)).
  - split; [|split; [|by rewrite !meets_leaf by done; unfold leaf_meaning; cbn; rewrite Hr]].
    + repeat constructor; try (by apply null_compared).
      destruct ks as [|k' ks]; [|by apply null_compared]. by rewrite meets_leaf by done.
    + destruct ks as [|k' ks]; [by rewrite meets_leaf by done|]. split; [|done]. cbn [map]. by rewrite null_compared.
Qed.
End Comparisons.

(** ** Examples

    A database of the laws: numbers, then texts, then byte strings, and LIKE without
    regard to the case of ASCII letters, as in SQLite. *)
Definition number_of (v : DbValue) : option spec_float :=
  match v with
  | VInt n => Some (binary_normalize 53 1024 n 0 false)
  | VBool b => Some (binary_normalize 53 1024 (if b then 1 else 0) 0 false)
  | VDouble d => Some d
  | _ => None
  end.

Definition rank (v : DbValue) : nat := match v with VText _ => 1 | VBlob _ => 2 | _ => 0 end.

Definition plain_compare (v w : DbValue) : option comparison :=
  match v, w with
  | VNull, _ | _, VNull => None
  | VInt m, VInt n => Some (m ?= n)%Z
  | VText s, VText t | VBlob s, VBlob t => Some (text_compare s t)
  | _, _ =>
      match number_of v, number_of w with
      | Some x, Some y => SFcompare x y
      | _, _ => Some (rank v ?= rank w)
      end
  end.

Definition plain_like (lt : ascii -> ascii) (v w : DbValue) : tri :=
  match v, w with VText s, VText p => tri_of (like_match lt p s) | _, _ => Unknown end.

Definition plain_function (f : bytes) (v : DbValue) : DbValue := match v with VText s => VText (toLowerCase s) | v => v end.

Definition plain_with (lt : ascii -> ascii) : Conditions :=
  {| compare_values := plain_compare; like_values := plain_like lt; apply_function := plain_function; letter := lt;
     like_limit := 1000; other_condition := fun _ _ => Unknown |}.

#[export] Instance plain_conditions : Conditions := plain_with tolower.

#[export] Instance plain_laws : ConditionLaws.
Proof.
  constructor; try done.
  - by intros [].
  - intros s p _ _ _. cbn. rewrite <- like_match_spec. by destruct (like_match _ p s).
  - by intros [].
  - by right.
Qed.

(** ** Conditions that every database of the laws decides alike

    Comparisons within whole numbers or within texts, LIKE on short texts of ASCII. *)
Definition same_kind (v w : DbValue) : bool :=
  match v, w with VNull, _ | _, VNull | VInt _, VInt _ | VText _, VText _ => true | _, _ => false end.
Definition short_text (v : DbValue) : bool :=
  match v with VNull => true | VText s => ascii_text s && (length s <=? 64) | _ => false end.
Definition no_function (p : BasePredicate) : bool := match lhsFunction p, rhsFunction p with [], [] => true | _, _ => false end.
Definition lower_function (p : BasePredicate) : bool := (lhsFunction p =?b "LOWER") && (rhsFunction p =?b "LOWER").

Definition settled_leaf (row : bytes -> DbValue) (p : BasePredicate) : bool :=
  let l := row (columnA p) in
  match op p with
  | Some (IS_NULL | IS_NOT_NULL) => no_function p
  | Some LIKE => (no_function p || lower_function p) && short_text l && forallb short_text (values p)
  | Some _ => no_function p && forallb (same_kind l) (values p)
  | None => true
  end.

Fixpoint settled (row : bytes -> DbValue) (p : BasePredicate) : bool :=
  match predicateType p, children p with
  | TRUE, _ | FALSE, _ => true
  | AND, [l; r] | OR, [l; r] => settled row l && settled row r
  | LEAF, _ => settled_leaf row p
  | _, _ => false
  end.

Section Settled.
Context {CD : Conditions} {CL : ConditionLaws} (long : 64 <= like_limit).
#[local] Abbreviation plain := (plain_with letter).

Lemma same_kind_compare v w : same_kind v w = true -> compare_values v w = plain_compare v w.
Proof.
  destruct v, w; try done; intros _.
  all: rewrite ?compare_int, ?compare_text, ?(proj1 (compare_null _)), ?(proj2 (compare_null _)); done.
Qed.

Lemma settled_compared o v w : same_kind v w = true -> compared o v w = compared (CD := plain) o v w.
Proof. intros H. unfold compared. by rewrite same_kind_compare. Qed.

Lemma settled_any v vs : forallb (same_kind v) vs = true -> any_equal v vs = any_equal (CD := plain) v vs.
Proof.
  induction vs as [|w vs IH]; [done|]. cbn [forallb]. intros [Hw Hv]%andb_true_iff. cbn. rewrite settled_compared by done. f_equal. by apply IH.
Qed.

Lemma settled_like v w : short_text v = true -> short_text w = true ->
  like_values v w = Yes <-> plain_like letter v w = Yes.
Proof.
  destruct v as [| |s| | |], w as [| |p| | |]; try done; cbn [short_text].
  - intros [Hs _]%andb_true_iff [Hp Len]%andb_true_iff. apply Nat.leb_le in Len.
    destruct (like_text s p Hs Hp ltac:(lia)) as [_ ->]. cbn. rewrite <- like_match_spec. by destruct (like_match _ _ _).
  - by rewrite (proj2 (like_null _)).
  - by rewrite (proj1 (like_null _)).
  - by rewrite (proj1 (like_null _)).
Qed.

Lemma settled_lower v : short_text v = true -> apply_function "LOWER" v = plain_function "LOWER" v /\ short_text (plain_function "LOWER" v) = true.
Proof.
  destruct v; try done; cbn [short_text]; [|by rewrite lower_null]. intros [H L]%andb_true_iff. rewrite lower_text by done.
  split; [done|]. cbn. rewrite length_lower. by rewrite ascii_lower, L.
Qed.

Lemma settled_leaf_meets row p : predicateType p = LEAF -> settled_leaf row p = true -> meets row p = meets (CD := plain) row p.
Proof.
  intros Ht H. rewrite !meets_leaf by done. unfold settled_leaf in H. unfold leaf_meaning.
  assert (forall q : BasePredicate, no_function q = true -> lhsFunction q = [] /\ rhsFunction q = []) as NF.
  { intros [? ? ? ? ? ? [] []]; done. }
  destruct (op p) as [[]|]; try done.
  all: try (apply NF in H as [-> _]; done).
  all: try (apply andb_true_iff in H as [[-> ->]%NF K]; cbn [call_value]; destruct (values p) as [|v vs]; try done;
    cbn [forallb] in K; apply andb_true_iff in K as [K1 K2]; try (by rewrite settled_compared by done)).
  - apply andb_true_iff in H as [[F L]%andb_true_iff K]. destruct (values p) as [|v vs]; [done|].
    cbn [forallb] in K. apply andb_true_iff in K as [K1 _].
    assert (forall x y, (x = Yes <-> y = Yes) -> match x with Yes => true | _ => false end = match y with Yes => true | _ => false end) as Yes_iff.
    { intros [] []; intuition congruence. }
    apply Yes_iff. apply orb_true_iff in F as [[-> ->]%NF|F]; [by apply settled_like|].
    apply andb_true_iff in F as [->%beqb_eq ->%beqb_eq]. destruct (settled_lower _ L) as [E1 S1], (settled_lower _ K1) as [E2 S2].
    change (like_values (apply_function "LOWER" (row (columnA p))) (apply_function "LOWER" v) = Yes <->
      plain_like letter (plain_function "LOWER" (row (columnA p))) (plain_function "LOWER" v) = Yes).
    rewrite E1, E2. by apply settled_like.
  - apply andb_true_iff in H as [[-> _]%NF K]. cbn [call_value]. by rewrite settled_any.
  - apply andb_true_iff in H as [[-> _]%NF K]. cbn [call_value]. by rewrite settled_any.
  - destruct vs as [|w [|]]; try done. cbn [forallb] in K2. apply andb_true_iff in K2 as [K2 _].
    by rewrite (settled_compared _ _ _ K1), (settled_compared _ _ _ K2).
Qed.

(** Such a condition selects the same rows in every database, but for the case of letters. *)
Lemma settled_meets row p : settled row p = true -> meets row p = meets (CD := plain) row p.
Proof.
  revert p. fix IH 1. intros [t ca cb o vs ch f g]. destruct t; try done; cbn [settled predicateType children].
  - by apply settled_leaf_meets.
  - destruct ch as [|l [|r [|]]]; try done. intros [Hl%IH Hr%IH]%andb_true_iff.
    unfold meets in *. cbn [denote predicateType children]. revert Hl Hr.
    destruct (denote _ l), (denote _ r), (denote (condition_meaning (CD := plain) row) l), (denote (condition_meaning (CD := plain) row) r); done.
  - destruct ch as [|l [|r [|]]]; try done. intros [Hl%IH Hr%IH]%andb_true_iff.
    unfold meets in *. cbn [denote predicateType children]. revert Hl Hr.
    destruct (denote _ l), (denote _ r), (denote (condition_meaning (CD := plain) row) l), (denote (condition_meaning (CD := plain) row) r); done.
Qed.
End Settled.

Module ConditionWitnesses.
Import ModelWitnesses PredicateWitnesses.

Definition a_row (n a : DbValue) (c : bytes) : DbValue := if c =?b "a.name" then n else if c =?b "a.age" then a else VNull.

Lemma text_search_witness :
  exists c, contains col name "li" [] = Ret c /\ meets (a_row (VText "Alice") VNull) c = true /\ meets (a_row (VText "Diana") VNull) c = false.
Proof.
  destruct (text_search col name [] "a.name" eq_refl eq_refl "li" (a_row (VText "Alice") VNull) "Alice" eq_refl eq_refl eq_refl ltac:(by apply Nat.leb_le))
    as (c & i & s & e & l & C & _ & _ & _ & _ & H & _).
  destruct (text_search col name [] "a.name" eq_refl eq_refl "li" (a_row (VText "Diana") VNull) "Diana" eq_refl eq_refl eq_refl ltac:(by apply Nat.leb_le))
    as (c' & i' & s' & e' & l' & C' & _ & _ & _ & _ & H' & _).
  exists c. split; [exact C|]. split.
  - apply H. exists (list_ascii_of_string "A"), (list_ascii_of_string "li"), (list_ascii_of_string "ce"). split; reflexivity.
  - vm_compute in C. injection C as <-. reflexivity.
Defined.

Lemma search_is_pattern_witness :
  exists c, contains col name "50\" [] = Ret c /\ meets (a_row (VText "a 50\ b") VNull) c = false /\ meets (a_row (VText "by 50%") VNull) c = true.
Proof.
  destruct (search_is_pattern col name [] "a.name" eq_refl eq_refl "50" (a_row (VText "by 50%") VNull) "by 50%" eq_refl eq_refl eq_refl eq_refl
    ltac:(by apply Nat.leb_le)) as (c & pc & one & C & _ & _ & H & _).
  exists c. split; [exact C|]. split.
  - vm_compute in C. injection C as <-. reflexivity.
  - apply H. exists (list_ascii_of_string "by "), (list_ascii_of_string "50%"). split; reflexivity.
Defined.

Lemma comparison_search_witness :
  exists ne inl_, notEquals col age (FInt 5) [] = Ret ne /\ in_values col age (map FInt [5; 7]%Z) [] = Ret inl_ /\
    meets (a_row VNull (VInt 7)) ne = true /\ meets (a_row VNull (VInt 7)) inl_ = true /\ meets (a_row VNull VNull) ne = false.
Proof.
  destruct (comparison_search col age [] "a.age" eq_refl false 8 eq_refl 5 7 [5; 7]%Z (a_row VNull (VInt 7)) ltac:(left; by exists 7%Z))
    as (eq & ne & gt & lt & ge & le & btw & inl_ & notin & null & notnull & _ & Ne & _ & _ & _ & _ & _ & In_ & _ & _ & _ & H).
  exists ne, inl_. split; [exact Ne|]. split; [exact In_|]. vm_compute in Ne, In_. injection Ne as <-. injection In_ as <-.
  split; [apply (proj2 (proj1 (proj2 H))); intros E; vm_compute in E; discriminate E|split; reflexivity].
Defined.
End ConditionWitnesses.
