(* ===== verification/SelectQuery.v ===== *)
(** SELECT statements ([orm/SelectQuery.hpp]): the builder, and the text with its
    parameters.  The models of the query ([Models...]) are a list; the first is the
    main one. *)
From S2P Require Import Prelude Bytes DbValue Model Predicate.

#[local] Arguments list_ascii_of_string : simpl never.

Inductive CteType := RECURSIVE | NONRECURSIVE.
Record Cte := { cte_name : bytes; cte_sql : bytes; cte_params : list DbValue; cte_type : CteType }.

Inductive Sorting := DESC | ASC.
Inductive JoinType := INNER | LEFT | RIGHT | FULL | CROSS.
Inductive SetQueryType := UNION | UNION_ALL | INTERSECT | INTERSECT_ALL | EXCEPT | EXCEPT_ALL.

Record Join := { join_table : bytes; join_alias : bytes; join_type : bytes; join_condition : BasePredicate }.

Definition joinTypeString (t : JoinType) : bytes :=
  match t with INNER => " JOIN " | LEFT => " LEFT JOIN " | RIGHT => " RIGHT JOIN " | FULL => " FULL JOIN " | CROSS => " CROSS JOIN " end.

Definition setQueryTypeString (t : SetQueryType) : bytes :=
  match t with
  | UNION => " UNION " | UNION_ALL => " UNION ALL " | INTERSECT => " INTERSECT " | INTERSECT_ALL => " INTERSECT ALL "
  | EXCEPT => " EXCEPT " | EXCEPT_ALL => " EXCEPT ALL "
  end.

(** The members that are not queries themselves. *)
Record Settings := {
  tableName_ : bytes;
  tableAlias_ : option bytes;
  joins_ : list Join;
  columns_ : list bytes;
  orderBy_ : list (bytes * Sorting);
  groupBy_ : list bytes;
  limit_ : option Z;
  offset_ : option Z;
  havingPredicate_ : option BasePredicate;
  distinct_ : bool;
  ctes_ : list Cte;
  hasRecursive_ : bool;
  wherePredicate : option BasePredicate;
}.

Inductive SelectQuery := Select { settings : Settings; setQueryType : option SetQueryType; children : list SelectQuery }.

Section Queries.
Context (models : list Model).

(** [Model], the first of the models. *)
Definition main_model : Model := List.hd {| tableName := []; model_columns := [] |} models.

Definition Settings_new (tableAlias : option bytes) : Settings :=
  {| tableName_ := tableName main_model; tableAlias_ := tableAlias; joins_ := []; columns_ := []; orderBy_ := []; groupBy_ := [];
     limit_ := None; offset_ := None; havingPredicate_ := None; distinct_ := false; ctes_ := []; hasRecursive_ := false;
     wherePredicate := None |}.

Definition SelectQuery_default : SelectQuery := Select (Settings_new None) None [].
Definition SelectQuery_alias (tableAlias : bytes) : SelectQuery := Select (Settings_new (Some tableAlias)) None [].
Definition SelectQuery_set (setType : SetQueryType) : SelectQuery := Select (Settings_new None) (Some setType) [].

(** ** Updates of one member *)
Definition on_settings (f : Settings -> Settings) (q : SelectQuery) : SelectQuery :=
  Select (f (settings q)) (setQueryType q) (children q).

Definition add_join (j : Join) (s : Settings) : Settings :=
  let '(Build_Settings t a js c o g l f h d ct r w) := s in Build_Settings t a (js ++ [j]) c o g l f h d ct r w.
Definition set_from (tableName : bytes) (tableAlias : option bytes) (s : Settings) : Settings :=
  let '(Build_Settings t a js c o g l f h d ct r w) := s in Build_Settings tableName tableAlias js c o g l f h d ct r w.
Definition add_columns (cols : list bytes) (s : Settings) : Settings :=
  let '(Build_Settings t a js c o g l f h d ct r w) := s in Build_Settings t a js (c ++ cols) o g l f h d ct r w.
Definition add_order (x : bytes * Sorting) (s : Settings) : Settings :=
  let '(Build_Settings t a js c o g l f h d ct r w) := s in Build_Settings t a js c (o ++ [x]) g l f h d ct r w.
Definition add_group (x : bytes) (s : Settings) : Settings :=
  let '(Build_Settings t a js c o g l f h d ct r w) := s in Build_Settings t a js c o (g ++ [x]) l f h d ct r w.
Definition set_limit (x : option Z) (s : Settings) : Settings :=
  let '(Build_Settings t a js c o g l f h d ct r w) := s in Build_Settings t a js c o g x f h d ct r w.
Definition set_offset (x : option Z) (s : Settings) : Settings :=
  let '(Build_Settings t a js c o g l f h d ct r w) := s in Build_Settings t a js c o g l x h d ct r w.
Definition set_having (x : BasePredicate) (s : Settings) : Settings :=
  let '(Build_Settings t a js c o g l f h d ct r w) := s in Build_Settings t a js c o g l f (Some x) d ct r w.
Definition set_distinct (s : Settings) : Settings :=
  let '(Build_Settings t a js c o g l f h d ct r w) := s in Build_Settings t a js c o g l f h true ct r w.
Definition add_cte (x : Cte) (recursive : bool) (s : Settings) : Settings :=
  let '(Build_Settings t a js c o g l f h d ct r w) := s in Build_Settings t a js c o g l f h d (ct ++ [x]) (r || recursive) w.
Definition set_where (x : option BasePredicate) (s : Settings) : Settings :=
  let '(Build_Settings t a js c o g l f h d ct r w) := s in Build_Settings t a js c o g l f h d ct r x.

(** ** The text *)
Definition asColumnAlias (columnAlias : bytes) : bytes := match columnAlias with [] => [] | _ => " AS " ++ columnAlias end.

Definition getFullColumnString (p : FieldPtr) (func tableAlias columnAlias : bytes) : outcome bytes :=
  col ← default_resolve models p tableAlias;
  Ret (call func col ++ asColumnAlias columnAlias).

Definition getFullColumnText (column func tableAlias columnAlias : bytes) : bytes :=
  let col := match tableAlias with [] => column | _ => tableAlias ++ "." ++ column end in
  call func col ++ asColumnAlias columnAlias.

Fixpoint ctes_text (first recursive : bool) (l : list Cte) : bytes * list DbValue :=
  match l with
  | [] => ([], [])
  | cte :: l =>
      let '(text, params) := ctes_text false recursive l in
      ((if first then "WITH " else " , ") ++ (if first && recursive then " RECURSIVE " else []) ++ cte_name cte ++ " AS ( " ++
         cte_sql cte ++ " ) " ++ text, cte_params cte ++ params)
  end.

Definition comma_list (l : list bytes) : bytes :=
  match l with [] => [] | x :: l => x ++ concat (map (fun y => ", " ++ y) l) end.

(** [tableAlias_.value_or(getAlias(0))] *)
Definition main_alias (s : Settings) : outcome bytes := a ← getAlias 0; Ret (default a (tableAlias_ s)).

Definition select_list (s : Settings) : outcome bytes :=
  match columns_ s with
  | [] =>
      if negb (tableName_ s =?b tableName main_model)
      then Throw (OrmException "Must provide SELECT column list when overriding tableName")
      else alias ← main_alias s; Ret (comma_list (map (fun c => alias ++ "." ++ dbName c) (model_columns main_model)))
  | cols => Ret (comma_list cols)
  end.

Fixpoint joins_text (l : list Join) (params : list DbValue) : outcome (bytes * list DbValue) :=
  match l with
  | [] => Ret ([], params)
  | j :: l =>
      '(cond, params) ← resolvePredicates (join_condition j) params;
      '(text, params) ← joins_text l params;
      Ret (join_type j ++ join_table j ++ " AS " ++ join_alias j ++ " ON " ++ cond ++ text, params)
  end.

(** A clause with a condition, if there is one. *)
Definition clause (keyword : bytes) (p : option BasePredicate) (params : list DbValue) : outcome (bytes * list DbValue) :=
  match p with
  | None => Ret ([], params)
  | Some p => '(text, params) ← resolvePredicates p params; Ret (keyword ++ text, params)
  end.

Definition group_text (s : Settings) (params : list DbValue) : outcome (bytes * list DbValue) :=
  match groupBy_ s with
  | [] => Ret ([], params)
  | cols => '(text, params) ← clause " HAVING " (havingPredicate_ s) params; Ret (" GROUP BY " ++ comma_list cols ++ text, params)
  end.

Definition plain_select (s : Settings) (params : list DbValue) : outcome (bytes * list DbValue) :=
  cols ← select_list s;
  alias ← main_alias s;
  '(joins, params) ← joins_text (joins_ s) params;
  '(where_text, params) ← clause " WHERE " (wherePredicate s) params;
  '(groups, params) ← group_text s params;
  Ret (" SELECT " ++ (if distinct_ s then " DISTINCT " else []) ++ cols ++ " FROM " ++ tableName_ s ++ " AS " ++ alias ++
       joins ++ where_text ++ groups, params).

Definition order_item (x : bytes * Sorting) : bytes := x.1 ++ match x.2 with DESC => " DESC" | ASC => [] end.
Definition order_text (s : Settings) : bytes :=
  match orderBy_ s with [] => [] | l => " ORDER BY " ++ comma_list (map order_item l) end.
Definition number_text (keyword : bytes) (n : option Z) : bytes := match n with Some n => keyword ++ to_string n | None => [] end.
Definition limit_text (limit : option Z) (s : Settings) : bytes :=
  number_text " LIMIT " (match limit with Some n => Some n | None => limit_ s end).
Definition tail_text (limit : option Z) (s : Settings) : bytes :=
  order_text s ++ limit_text limit s ++ number_text " OFFSET " (offset_ s) ++ " ".

(** A set query within a set query. *)
Definition sub_select (depth i : nat) (q : SelectQuery) (sql : bytes) : bytes :=
  match setQueryType q with
  | Some _ => " SELECT * FROM ( " ++ sql ++ ") AS sub_" ++ to_string (Z.of_nat depth) ++ "_" ++ to_string (Z.of_nat i)
  | None => sql
  end.

Definition is_grouped (s : Settings) : bool :=
  match groupBy_ s, havingPredicate_ s with [], None => false | _, _ => true end.

(** The parameters of a set query are those of its children: what its CTEs brought is
    overwritten. *)
Fixpoint buildSelectSqlAndSetParams (depth : nat) (limit : option Z) (q : SelectQuery) : outcome (bytes * list DbValue) :=
  match q with
  | Select s setType ch =>
      let '(ctes, params) := ctes_text true (hasRecursive_ s) (ctes_ s) in
      '(body, params) ←
        match setType with
        | Some t =>
            if is_grouped s
            then Throw (OrmException "groupBy()/having() cannot be combined with union/intersect/except queries")
            else match ch with
            | q0 :: q1 :: _ =>
                result1 ← buildSelectSqlAndSetParams (S depth) None q0;
                result2 ← buildSelectSqlAndSetParams (S depth) None q1;
                Ret (sub_select depth 0 q0 result1.1 ++ setQueryTypeString t ++ sub_select depth 1 q1 result2.1, result1.2 ++ result2.2)
            | _ => Undef
            end
        | None => plain_select s params
        end;
      Ret (ctes ++ body ++ tail_text limit s, params)
  end.

Definition getSql (q : SelectQuery) : outcome bytes := fst <$> buildSelectSqlAndSetParams 0 None q.

(** A query as the condition of another. *)
#[export] Instance SelectQuery_SubQuery : SubQuery SelectQuery := {
  getSqlAndParams q := buildSelectSqlAndSetParams 0 None q;
  getLimit q := limit_ (settings q);
  getColumnCount q := length (columns_ (settings q));
}.

(** ** The builder *)
Definition set_query (t : SetQueryType) (q other : SelectQuery) : SelectQuery :=
  let query := SelectQuery_set t in Select (settings query) (setQueryType query) [q; other].
Definition unionQuery := set_query UNION.
Definition intersectQuery := set_query INTERSECT.
Definition exceptQuery := set_query EXCEPT.
Definition unionAllQuery := set_query UNION_ALL.
Definition intersectAllQuery := set_query INTERSECT_ALL.
Definition exceptAllQuery := set_query EXCEPT_ALL.

(** [join<JoinModel>], the model at the given position. *)
Definition join_model (model : nat) (predicate : BasePredicate) (tableAlias : option bytes) (joinType : JoinType) (q : SelectQuery) :
    outcome SelectQuery :=
  match models !! model with
  | None => Undef
  | Some m =>
      a ← getAlias model;
      Ret (on_settings (add_join {| join_table := tableName m; join_alias := default a tableAlias;
        join_type := joinTypeString joinType; join_condition := predicate |}) q)
  end.

Definition join_table_name (tableName : bytes) (predicate : BasePredicate) (tableAlias : bytes) (joinType : JoinType) (q : SelectQuery) :
    outcome SelectQuery :=
  match tableAlias with
  | [] => Throw (OrmException "Must provide table alias for string based tableName")
  | _ => Ret (on_settings (add_join {| join_table := tableName; join_alias := tableAlias;
           join_type := joinTypeString joinType; join_condition := predicate |}) q)
  end.

Definition is_recursive (t : CteType) : bool := match t with RECURSIVE => true | NONRECURSIVE => false end.

Definition withCte (name : bytes) (query : SelectQuery) (t : CteType) (q : SelectQuery) : outcome SelectQuery :=
  if is_recursive t && negb (match setQueryType query with Some (UNION | UNION_ALL) => true | _ => false end)
  then Throw (OrmException "Recursive CTE must have UNION or UNION ALL query")
  else if is_recursive t && hasRecursive_ (settings query) then Throw (OrmException "Can only have 1 recursive CTE")
  else if hasRecursive_ (settings q) && is_recursive t then Throw (OrmException "Can only have 1 recursive CTE")
  else
    '(sql, params) ← getSqlAndParams query;
    Ret (on_settings (add_cte {| cte_name := name; cte_sql := sql; cte_params := params; cte_type := t |} (is_recursive t)) q).

Definition withCte_text (cte : Cte) (q : SelectQuery) : outcome SelectQuery :=
  if hasRecursive_ (settings q) && is_recursive (cte_type cte) then Throw (OrmException "Can only have 1 recursive CTE")
  else Ret (on_settings (add_cte cte (is_recursive (cte_type cte))) q).

Definition from (tableName tableAlias : bytes) (q : SelectQuery) : SelectQuery :=
  on_settings (set_from tableName (match tableAlias with [] => None | _ => Some tableAlias end)) q.

Definition functionField (func : bytes) (p : FieldPtr) (tableAlias columnAlias : bytes) (q : SelectQuery) : outcome SelectQuery :=
  col ← getFullColumnString p func tableAlias columnAlias; Ret (on_settings (add_columns [col]) q).
Definition field (p : FieldPtr) (tableAlias columnAlias : bytes) (q : SelectQuery) : outcome SelectQuery :=
  functionField [] p tableAlias columnAlias q.
Definition functionColumn (func column tableAlias columnAlias : bytes) (q : SelectQuery) : SelectQuery :=
  on_settings (add_columns [getFullColumnText column func tableAlias columnAlias]) q.
Definition column (column tableAlias columnAlias : bytes) (q : SelectQuery) : SelectQuery :=
  functionColumn [] column tableAlias columnAlias q.

(** [allColumns<M>], the model at the given position. *)
Fixpoint push_columns (model : nat) (cols : list Column) (tableAlias aliasPrefix : bytes) (q : SelectQuery) : outcome SelectQuery :=
  match cols with
  | [] => Ret q
  | c :: cols =>
      let alias := match aliasPrefix with [] => [] | _ => aliasPrefix ++ "_" ++ dbName c end in
      q ← field {| ptr_model := model; ptr_field := fieldPtr c; ptr_type := fieldType c |} tableAlias alias q;
      push_columns model cols tableAlias aliasPrefix q
  end.
Definition allColumns (model : nat) (tableAlias aliasPrefix : bytes) (q : SelectQuery) : outcome SelectQuery :=
  match models !! model with None => Undef | Some m => push_columns model (model_columns m) tableAlias aliasPrefix q end.

Definition orderBy_column (column : bytes) (sorting : Sorting) (tableAlias : bytes) (q : SelectQuery) : SelectQuery :=
  on_settings (add_order (getFullColumnText column [] tableAlias [], sorting)) q.
Definition orderBy (p : FieldPtr) (sorting : Sorting) (tableAlias : bytes) (q : SelectQuery) : outcome SelectQuery :=
  col ← getFullColumnString p [] tableAlias []; Ret (on_settings (add_order (col, sorting)) q).
Definition distinct (q : SelectQuery) : SelectQuery := on_settings set_distinct q.
Definition clearLimit (q : SelectQuery) : SelectQuery := on_settings (set_limit None) q.
Definition limit (n : Z) (q : SelectQuery) : SelectQuery := on_settings (set_limit (Some n)) q.
Definition clearOffset (q : SelectQuery) : SelectQuery := on_settings (set_offset None) q.
Definition getOffset (q : SelectQuery) : option Z := offset_ (settings q).

(** Offsets add up, as 64-bit numbers. *)
Definition offset (n : Z) (q : SelectQuery) : SelectQuery :=
  on_settings (set_offset (Some ((default 0 (offset_ (settings q)) + n) mod 2 ^ 64)%Z)) q.
Definition groupBy (p : FieldPtr) (tableAlias : bytes) (q : SelectQuery) : outcome SelectQuery :=
  col ← getFullColumnString p [] tableAlias []; Ret (on_settings (add_group col) q).
Definition having (p : BasePredicate) (q : SelectQuery) : SelectQuery := on_settings (set_having p) q.
Definition select_where (p : BasePredicate) (q : SelectQuery) : SelectQuery :=
  on_settings (set_where (where_ p (wherePredicate (settings q)))) q.
Definition select_orWhere (p : BasePredicate) (q : SelectQuery) : SelectQuery :=
  on_settings (set_where (orWhere p (wherePredicate (settings q)))) q.
End Queries.

(** ** The text with its parameters is the text with the values in their places *)
Section Inlined.
Context (models : list Model) (lit : DbValue -> bytes).
#[local] Abbreviation inline := (inline lit).

Fixpoint inline_ctes (first recursive : bool) (l : list Cte) : bytes :=
  match l with
  | [] => []
  | cte :: l =>
      (if first then "WITH " else " , ") ++ (if first && recursive then " RECURSIVE " else []) ++ cte_name cte ++ " AS ( " ++
      filled lit (cte_sql cte) (cte_params cte) ++ " ) " ++ inline_ctes false recursive l
  end.

Definition inline_join (j : Join) : bytes :=
  join_type j ++ join_table j ++ " AS " ++ join_alias j ++ " ON " ++ inline (join_condition j).
Definition inline_clause (keyword : bytes) (p : option BasePredicate) : bytes :=
  match p with None => [] | Some p => keyword ++ inline p end.
Definition inline_group (s : Settings) : bytes :=
  match groupBy_ s with [] => [] | cols => " GROUP BY " ++ comma_list cols ++ inline_clause " HAVING " (havingPredicate_ s) end.

Definition columns_of (s : Settings) (alias : bytes) : list bytes :=
  match columns_ s with [] => map (fun c => alias ++ "." ++ dbName c) (model_columns (main_model models)) | cols => cols end.

Definition inline_plain (s : Settings) : bytes :=
  let alias := default (list_ascii_of_string "a") (tableAlias_ s) in
  " SELECT " ++ (if distinct_ s then " DISTINCT " else []) ++ comma_list (columns_of s alias) ++ " FROM " ++ tableName_ s ++ " AS " ++ alias ++
  concat (map inline_join (joins_ s)) ++ inline_clause " WHERE " (wherePredicate s) ++ inline_group s.

Fixpoint inline_select (depth : nat) (limit : option Z) (q : SelectQuery) : bytes :=
  match q with
  | Select s setType ch =>
      inline_ctes true (hasRecursive_ s) (ctes_ s) ++
      match setType, ch with
      | Some t, q0 :: q1 :: _ =>
          sub_select depth 0 q0 (inline_select (S depth) None q0) ++ setQueryTypeString t ++
          sub_select depth 1 q1 (inline_select (S depth) None q1)
      | Some _, _ => []
      | None, _ => inline_plain s
      end ++ tail_text limit s
  end.

(** What the builder makes: names have no marks, conditions are built ones. *)
Record settings_ok (s : Settings) : Prop := {
  so_table : no_mark (tableName_ s);
  so_alias : from_option no_mark True (tableAlias_ s);
  so_joins : Forall (fun j => no_mark (join_type j) /\ no_mark (join_table j) /\ no_mark (join_alias j) /\ pred_ok lit (join_condition j)) (joins_ s);
  so_columns : Forall no_mark (columns_ s);
  so_order : Forall (fun x => no_mark x.1) (orderBy_ s);
  so_group : Forall no_mark (groupBy_ s);
  so_having : from_option (pred_ok lit) True (havingPredicate_ s);
  so_where : from_option (pred_ok lit) True (wherePredicate s);
  so_ctes : Forall (fun c => no_mark (cte_name c) /\ has_fill lit (cte_sql c) (cte_params c)) (ctes_ s);
}.

(** All columns can be asked for only of the main model's own table. *)
Definition selectable (s : Settings) : Prop :=
  columns_ s = [] -> tableName_ s = tableName (main_model models) /\ Forall (fun c => no_mark (dbName c)) (model_columns (main_model models)).

Inductive select_ok : SelectQuery -> Prop :=
| ok_plain s ch : settings_ok s -> selectable s -> select_ok (Select s None ch)
| ok_set s t q0 q1 : settings_ok s -> Forall (fun c => cte_params c = []) (ctes_ s) -> is_grouped s = false ->
    select_ok q0 -> select_ok q1 -> select_ok (Select s (Some t) [q0; q1]).

Lemma empty_no_mark_if (b : bool) (s : bytes) : no_mark s -> no_mark (if b then s else []).
Proof. destruct b; [done|]. intros _. apply not_elem_of_nil. Qed.

(** [text] and its parameters stand for [x]. *)
Definition stands_for (text : bytes) (ps : list DbValue) (x : bytes) : Prop := fill lit text ps = Some x.

Lemma stands_app a b ps qs x y : stands_for a ps x -> stands_for b qs y -> stands_for (a ++ b) (ps ++ qs) (x ++ y).
Proof. apply fill_app. Qed.

Lemma stands_plain s : no_mark s -> stands_for s [] s.
Proof. apply fill_plain. Qed.

Lemma stands_plain_app s b qs y : no_mark s -> stands_for b qs y -> stands_for (s ++ b) qs (s ++ y).
Proof. apply fill_plain_app. Qed.

Lemma stands_app_plain s b qs y : no_mark s -> stands_for b qs y -> stands_for (b ++ s) qs (y ++ s).
Proof. intros H Hb. rewrite <- (app_nil_r qs). apply stands_app; [done|by apply stands_plain]. Qed.

Lemma stands_filled sql ps : has_fill lit sql ps -> stands_for sql ps (filled lit sql ps).
Proof. intros [x Hx]. unfold stands_for, filled. by rewrite Hx. Qed.

Lemma comma_no_mark l : Forall no_mark l -> no_mark (comma_list l).
Proof.
  intros H. destruct H as [|x l Hx H]; [apply not_elem_of_nil|]. cbn [comma_list]. apply no_mark_app. split; [done|].
  induction H as [|y l Hy H IH]; [apply not_elem_of_nil|]. cbn [map concat]. rewrite !no_mark_app.
  split_and!; [by apply literal_no_mark|done..].
Qed.

Lemma to_string_no_mark n : no_mark (to_string n).
Proof.
  assert (H : forall m, (0 <= m)%Z -> no_mark (to_chars 10 m)).
  { intros m Hm Hin. pose proof (to_chars_decimal m Hm) as D. rewrite forallb_forall in D. apply list_elem_of_In in Hin.
    by apply D in Hin. }
  unfold to_string. destruct (n <? 0)%Z eqn:E; [|apply H; lia]. cbn. intros Hin.
  apply elem_of_cons in Hin as [Hin|Hin]; [done|]. revert Hin. apply H. lia.
Qed.

Lemma ctes_placed b r l : Forall (fun c => no_mark (cte_name c) /\ has_fill lit (cte_sql c) (cte_params c)) l ->
  stands_for (ctes_text b r l).1 (ctes_text b r l).2 (inline_ctes b r l).
Proof.
  intros H. revert b. induction H as [|c l [Hn Hf] H IH]; intros b; [done|]. cbn [ctes_text inline_ctes]. specialize (IH false).
  destruct (ctes_text false r l) as [text ps]. cbn [fst snd] in *. apply stands_plain_app; [destruct b; by apply literal_no_mark|].
  apply stands_plain_app; [by apply empty_no_mark_if, literal_no_mark|]. apply stands_plain_app; [done|].
  apply stands_plain_app; [by apply literal_no_mark|]. apply stands_app; [by apply stands_filled|].
  apply stands_plain_app; [by apply literal_no_mark|done].
Qed.

Lemma joins_placed l params :
  Forall (fun j => no_mark (join_type j) /\ no_mark (join_table j) /\ no_mark (join_alias j) /\ pred_ok lit (join_condition j)) l ->
  exists text ps, joins_text l params = Ret (text, params ++ ps) /\ stands_for text ps (concat (map inline_join l)).
Proof.
  intros H. revert params. induction H as [|j l (H1 & H2 & H3 & H4) H IH]; intros params.
  { exists [], []. by rewrite app_nil_r. }
  destruct (resolve_placed lit _ params H4) as (s1 & ps1 & E1 & F1), (IH (params ++ ps1)) as (s2 & ps2 & E2 & F2).
  eexists _, (ps1 ++ ps2). cbn [joins_text]. rewrite E1. cbn [mbind outcome_bind]. rewrite E2, <- app_assoc. split; [reflexivity|].
  cbn [map concat]. unfold inline_join at 1. rewrite <- !app_assoc.
  do 5 (apply stands_plain_app; [done || by apply literal_no_mark|]). by apply stands_app.
Qed.

Lemma clause_placed keyword p params : no_mark keyword -> from_option (pred_ok lit) True p ->
  exists text ps, clause keyword p params = Ret (text, params ++ ps) /\ stands_for text ps (inline_clause keyword p).
Proof.
  intros Hk Hp. destruct p as [p|]; [|exists [], []; by rewrite app_nil_r].
  destruct (resolve_placed lit p params Hp) as (s & ps & E & F). exists (keyword ++ s), ps. cbn. rewrite E. split; [done|].
  by apply stands_plain_app.
Qed.

Lemma group_placed s params : settings_ok s ->
  exists text ps, group_text s params = Ret (text, params ++ ps) /\ stands_for text ps (inline_group s).
Proof.
  intros Hs. unfold group_text, inline_group. pose proof (so_group s Hs) as Hg. destruct (groupBy_ s) as [|g gs]; [exists [], []; by rewrite app_nil_r|].
  destruct (clause_placed " HAVING " (havingPredicate_ s) params) as (t & ps & -> & F); [by apply literal_no_mark|apply so_having, Hs|].
  eexists _, ps. split; [reflexivity|]. apply stands_plain_app; [by apply literal_no_mark|].
  apply stands_plain_app; [by apply comma_no_mark|done].
Qed.

Lemma alias_ok s : settings_ok s -> no_mark (default (list_ascii_of_string "a") (tableAlias_ s)).
Proof. intros Hs. pose proof (so_alias s Hs). destruct (tableAlias_ s); [done|]. by apply literal_no_mark. Qed.

Lemma select_list_ok s : settings_ok s -> selectable s ->
  let cols := comma_list (columns_of s (default (list_ascii_of_string "a") (tableAlias_ s))) in
  select_list models s = Ret cols /\ no_mark cols.
Proof.
  intros Hs Hsel cols. unfold cols, columns_of, select_list. pose proof (so_columns s Hs) as Hc.
  destruct (columns_ s) as [|c cs] eqn:E; [|split; [done|by apply comma_no_mark]].
  destruct (Hsel E) as [-> Hm]. rewrite beqb_refl. split; [done|]. apply comma_no_mark.
  apply Forall_map. eapply Forall_impl; [exact Hm|]. intros x Hx. cbn. rewrite !no_mark_app.
  split_and!; [by apply alias_ok|by apply literal_no_mark|done].
Qed.

Lemma plain_placed s params : settings_ok s -> selectable s ->
  exists text ps, plain_select models s params = Ret (text, params ++ ps) /\ stands_for text ps (inline_plain s).
Proof.
  intros Hs Hsel. unfold plain_select, inline_plain. destruct (select_list_ok s Hs Hsel) as [-> Hcols]. cbn [mbind outcome_bind].
  unfold main_alias. cbn [getAlias mbind outcome_bind]. pose proof (alias_ok s Hs) as Ha.
  destruct (joins_placed (joins_ s) params (so_joins s Hs)) as (t1 & ps1 & E1 & F1).
  destruct (clause_placed " WHERE " (wherePredicate s) (params ++ ps1)) as (t2 & ps2 & E2 & F2); [by apply literal_no_mark|apply so_where, Hs|].
  destruct (group_placed s ((params ++ ps1) ++ ps2) Hs) as (t3 & ps3 & E3 & F3).
  change (getAlias 0) with (Ret (list_ascii_of_string "a")). cbn [mbind outcome_bind]. rewrite E1. cbn [mbind outcome_bind].
  rewrite E2. cbn [mbind outcome_bind]. rewrite E3. cbn [mbind outcome_bind]. eexists _, (ps1 ++ ps2 ++ ps3). rewrite !app_assoc.
  split; [reflexivity|]. rewrite <- !app_assoc. apply stands_plain_app; [by apply literal_no_mark|].
  apply stands_plain_app; [by apply empty_no_mark_if, literal_no_mark|]. do 5 (apply stands_plain_app; [apply Hs || done || by apply literal_no_mark|]).
  do 2 (apply stands_app; [done|]). done.
Qed.

Lemma number_no_mark keyword n : no_mark keyword -> no_mark (number_text keyword n).
Proof. intros H. destruct n; [|apply not_elem_of_nil]. apply no_mark_app. split; [done|apply to_string_no_mark]. Qed.

Lemma tail_no_mark l s : settings_ok s -> no_mark (tail_text l s).
Proof.
  intros Hs. unfold tail_text, limit_text. rewrite !no_mark_app. split_and!; try by (apply number_no_mark, literal_no_mark).
  - unfold order_text. pose proof (so_order s Hs) as Ho. destruct (orderBy_ s) as [|x xs]; [apply not_elem_of_nil|].
    apply no_mark_app. split; [by apply literal_no_mark|]. apply comma_no_mark. apply Forall_map. eapply Forall_impl; [exact Ho|].
    intros [c []] Hc; cbn in *; apply no_mark_app; (split; [done|]); [by apply literal_no_mark|apply not_elem_of_nil].
  - by apply literal_no_mark.
Qed.

Lemma sub_select_stands depth i q sql ps x : stands_for sql ps x -> stands_for (sub_select depth i q sql) ps (sub_select depth i q x).
Proof.
  intros H. unfold sub_select. destruct (setQueryType q); [|done]. apply stands_plain_app; [by apply literal_no_mark|].
  apply stands_app_plain; [|done]. rewrite !no_mark_app. split_and!; try apply to_string_no_mark; by apply literal_no_mark.
Qed.

Lemma setQuery_no_mark t : no_mark (setQueryTypeString t).
Proof. destruct t; by apply literal_no_mark. Qed.

Lemma ctes_no_params b r l : Forall (fun c => cte_params c = []) l -> (ctes_text b r l).2 = [].
Proof.
  intros H. revert b. induction H as [|c l Hc H IH]; intros b; [done|]. cbn. specialize (IH false).
  destruct (ctes_text false r l) as [t ps]. cbn in *. by rewrite Hc, IH.
Qed.

Lemma select_placed q : select_ok q -> forall depth l,
  exists sql ps, buildSelectSqlAndSetParams models depth l q = Ret (sql, ps) /\ stands_for sql ps (inline_select depth l q).
Proof.
  intros H. induction H as [s ch Hs Hsel|s t q0 q1 Hs Hc Hg H0 IH0 H1 IH1]; intros depth l; cbn [buildSelectSqlAndSetParams inline_select];
    pose proof (ctes_placed true (hasRecursive_ s) _ (so_ctes s Hs)) as F; pose proof (tail_no_mark l s Hs) as Ht.
  - destruct (ctes_text true _ (ctes_ s)) as [ctes params]. cbn [fst snd] in F.
    destruct (plain_placed s params Hs Hsel) as (text & ps & -> & Fp). cbn [mbind outcome_bind].
    eexists _, _. split; [reflexivity|]. apply stands_app; [done|]. by apply stands_app_plain.
  - pose proof (ctes_no_params true (hasRecursive_ s) _ Hc) as E. destruct (ctes_text true _ (ctes_ s)) as [ctes params]. cbn [fst snd] in F, E. subst params.
    rewrite Hg. destruct (IH0 (S depth) None) as (sql0 & ps0 & -> & F0), (IH1 (S depth) None) as (sql1 & ps1 & -> & F1). cbn [mbind outcome_bind fst snd].
    eexists _, _. split; [reflexivity|]. change (ps0 ++ ps1) with ([] ++ (ps0 ++ ps1)). apply stands_app; [done|].
    apply stands_app_plain; [done|]. apply stands_app; [by apply sub_select_stands|]. apply stands_plain_app; [apply setQuery_no_mark|].
    by apply sub_select_stands.
Qed.

(** What the builder does to its settings, with names and conditions as they are made. *)
Inductive setting_step (s : Settings) : Settings -> Prop :=
| step_join j : no_mark (join_type j) -> no_mark (join_table j) -> no_mark (join_alias j) -> pred_ok lit (join_condition j) ->
    setting_step s (add_join j s)
| step_from t a : no_mark t -> from_option no_mark True a -> setting_step s (set_from t a s)
| step_columns cols : Forall no_mark cols -> setting_step s (add_columns cols s)
| step_order x : no_mark x.1 -> setting_step s (add_order x s)
| step_group x : no_mark x -> setting_step s (add_group x s)
| step_limit n : setting_step s (set_limit n s)
| step_offset n : setting_step s (set_offset n s)
| step_having p : pred_ok lit p -> setting_step s (set_having p s)
| step_distinct : setting_step s (set_distinct s)
| step_cte c r : no_mark (cte_name c) -> has_fill lit (cte_sql c) (cte_params c) -> setting_step s (add_cte c r s)
| step_where p : pred_ok lit p -> setting_step s (set_where (where_ p (wherePredicate s)) s)
| step_orWhere p : pred_ok lit p -> setting_step s (set_where (orWhere p (wherePredicate s)) s).

Lemma new_ok a : no_mark (tableName (main_model models)) -> from_option no_mark True a -> settings_ok (Settings_new models a).
Proof. split; cbn; auto. Qed.

Lemma setting_step_ok s s' : settings_ok s -> setting_step s s' -> settings_ok s'.
Proof.
  intros [H1 H2 H3 H4 H5 H6 H7 H8 H9] St.
  destruct St; destruct s; split; cbn in *; rewrite ?Forall_app, ?Forall_singleton; auto.
  - by apply where_ok.
  - destruct wherePredicate0; cbn in *; [|done]. by apply or_ok.
Qed.

Lemma setting_steps_ok s s' : settings_ok s -> rtc setting_step s s' -> settings_ok s'.
Proof. intros H St. induction St; [done|]. eauto using setting_step_ok. Qed.


Lemma count_app (a b : bytes) : length (filter (fun c => c = "?"%char) (a ++ b)) =
  length (filter (fun c => c = "?"%char) a) + length (filter (fun c => c = "?"%char) b).
Proof. by rewrite filter_app, length_app. Qed.

(** A set query whose CTEs have parameters has more marks than parameters. *)
Lemma cte_params_lost s t q0 q1 depth l : settings_ok s -> is_grouped s = false -> select_ok q0 -> select_ok q1 ->
  exists sql ps, buildSelectSqlAndSetParams models depth l (Select s (Some t) [q0; q1]) = Ret (sql, ps) /\
    length (filter (fun c => c = "?"%char) sql) = length (concat (map cte_params (ctes_ s))) + length ps.
Proof.
  intros Hs Hg H0 H1. cbn [buildSelectSqlAndSetParams]. pose proof (ctes_placed true (hasRecursive_ s) _ (so_ctes s Hs)) as F.
  assert (P : forall b l, (ctes_text b (hasRecursive_ s) l).2 = concat (map cte_params l)).
  { intros b cs. revert b. induction cs as [|c cs IH]; intros b; [done|]. cbn. specialize (IH false).
    destruct (ctes_text false _ cs). cbn in *. by rewrite IH. }
  specialize (P true (ctes_ s)). destruct (ctes_text true _ (ctes_ s)) as [ctes params]. cbn [fst snd] in F, P. subst params.
  rewrite Hg. destruct (select_placed q0 H0 (S depth) None) as (sql0 & ps0 & -> & F0), (select_placed q1 H1 (S depth) None) as (sql1 & ps1 & -> & F1).
  cbn [mbind outcome_bind fst snd]. eexists _, _. split; [reflexivity|]. rewrite count_app. erewrite fill_count by exact F. f_equal.
  eapply fill_count, stands_app_plain; [by apply tail_no_mark|]. apply stands_app; [by apply sub_select_stands|].
  apply stands_plain_app; [apply setQuery_no_mark|]. by apply sub_select_stands.
Qed.

(** A query within a condition or a CTE has a mark for each of its parameters. *)
Lemma getSqlAndParams_fill q sql ps : select_ok q -> getSqlAndParams (SubQuery := SelectQuery_SubQuery models) q = Ret (sql, ps) -> has_fill lit sql ps.
Proof.
  intros H E. destruct (select_placed q H 0 None) as (sql' & ps' & E' & F). cbn in E. rewrite E in E'. injection E' as <- <-. by exists (inline_select 0 None q).
Qed.

Lemma withCte_ok name query t s s' : no_mark name -> select_ok query -> settings_ok s ->
  withCte models name query t (Select s None []) = Ret s' -> settings_ok (settings s').
Proof.
  intros Hn Hq Hs. unfold withCte. do 3 (match goal with |- (if ?b then _ else _) = _ -> _ => destruct b; [done|] end). intros ([sql ps] & E & [= <-])%outcome_bind_ret.
  cbn. eapply setting_step_ok; [done|]. apply step_cte; [done|]. by eapply getSqlAndParams_fill.
Qed.
End Inlined.

(** ** Examples *)
Module SelectWitnesses.
Import ModelWitnesses PredicateWitnesses.

Definition posts : Model := {| tableName := "posts"; model_columns :=
  [ModelWitnesses.column 0 int64 "id" true DB_INCREMENT UPDATE_OFF; ModelWitnesses.column 1 int64 "author" false GENERATE_OFF UPDATE_OFF;
   ModelWitnesses.column 2 text "title" false GENERATE_OFF UPDATE_OFF] |}.
Definition post (p : nat) (t : CppType) : FieldPtr := {| ptr_model := 1; ptr_field := p; ptr_type := t |}.
Definition both : list Model := [users; posts].

(** [SelectQuery<User, Post>().join<Post>(equals(&Post::author, &User::id)).where(like(&Post::title, "?%"))
    .where(...).groupBy(&User::id).having(...).orderBy(&User::name, DESC).limit(10).offset(5)] *)
Definition grouped : outcome SelectQuery :=
  on ← equals_fields (default_resolve both) (post 1 int64) (ptr 0 int64) ([], []);
  q ← join_model both 1 on None INNER (SelectQuery_default both);
  p ← like (default_resolve both) (post 2 text) "?%" [];
  p' ← in_values (default_resolve both) age [FInt 30; FInt 40] [];
  q ← groupBy both (ptr 0 int64) [] (select_where p' (select_where p q));
  q ← orderBy both name DESC [] (having (pred_raw "COUNT(*)" GREATER "?" [VInt 3]) q);
  Ret (offset 5 (limit 10 q)).

Example grouped_text : (q ← grouped; buildSelectSqlAndSetParams both 0 None q) =
  Ret (" SELECT a.id, a.name, a.nick, a.age FROM users AS a JOIN posts AS b ON  b.author = a.id  WHERE ( b.title LIKE ?  ESCAPE '\'  AND  a.age IN (  ? , ?  ) ) GROUP BY a.id HAVING  COUNT(*) > ?  ORDER BY a.name DESC LIMIT 10 OFFSET 5 " : bytes,
    [VText "?%"; VInt 30; VInt 40; VInt 3]).
Proof. vm_compute. reflexivity. Qed.

(** A union whose second part has a CTE. *)
Definition named : outcome SelectQuery :=
  p ← equals (default_resolve both) name (FText "Ann") []; Ret (select_where p (SelectQuery_default both)).
Definition united : outcome SelectQuery :=
  q ← named;
  adults ← (p ← greater (default_resolve both) age (FInt 17) []; Ret (select_where p (SelectQuery_default both)));
  c ← withCte both "adults" adults NONRECURSIVE (SelectQuery_default both);
  Ret (limit 3 (unionQuery both q (from "adults" "a" (SelectQuery.column "*" [] [] c)))).

Example united_text : (q ← united; buildSelectSqlAndSetParams both 0 None q) =
  Ret (" SELECT a.id, a.name, a.nick, a.age FROM users AS a WHERE  a.name = ?   UNION WITH adults AS (  SELECT a.id, a.name, a.nick, a.age FROM users AS a WHERE  a.age > ?   )  SELECT * FROM adults AS a  LIMIT 3 " : bytes,
    [VText "Ann"; VInt 17]).
Proof. vm_compute. reflexivity. Qed.

(** A concrete query is one the builder makes. *)
Ltac concrete := repeat first
  [ apply bytes_no_mark; reflexivity | done | split | apply ok_plain | apply ok_set | apply ok_and | apply ok_or | apply ok_leaf
  | apply ok_raw | apply ok_fields | constructor | eexists; vm_compute; reflexivity ].

End SelectWitnesses.
