(* ===== verification/WriteQueries.v ===== *)
(** Statements that write ([orm/InsertQuery.hpp], [orm/UpdateQuery.hpp],
    [orm/DeleteQuery.hpp], [orm/UpsertQuery.hpp]), and the dispatch of a statement to a
    transaction or to the database ([orm/QueryDispatcher.hpp], [orm/OrmConfig.hpp],
    and the methods of [orm/SelectQuery.hpp] that run their query). *)
From S2P Require Import Prelude Bytes Effects DbValue Model Predicate SelectQuery.

#[local] Arguments list_ascii_of_string : simpl never.

(** [executeQuery] of a database or of a transaction; the state is whatever it works on. *)
Definition Database (S : Type) : Type := bytes -> list DbValue -> M S (expected QueryResult).

(** ** Texts *)

(** [INSERT] leaves these columns to the database. *)
Definition insert_skipped (policy : AutoGenerate) : bool :=
  match policy with DB_INCREMENT | DEFAULT | GENERATE_DB_NOW => true | _ => false end.
Definition update_skipped (policy : AutoUpdate) : bool := match policy with UPDATE_DB_NOW | LOCKED => true | _ => false end.

Definition insert_value (c : Column) (obj : Object) : outcome DbValue :=
  match autoGenerateMode c with
  | GENERATE_OFF => Ret (toDbValue (fieldType c) (member obj (fieldPtr c)))
  | GENERATE_CUSTOM => match customGenerator c with Some g => Ret (g obj) | None => Undef end
  | _ => Throw (OrmException "Unknown AutoGeneration type")
  end.

Definition update_value (c : Column) (obj : Object) : outcome DbValue :=
  match autoUpdateMode c with
  | UPDATE_OFF => Ret (toDbValue (fieldType c) (member obj (fieldPtr c)))
  | UPDATE_CUSTOM => match customUpdator c with Some g => Ret (g obj) | None => Undef end
  | _ => Throw (OrmException "Unknown Auto Update type")
  end.

(** The marks and values of an object. *)
Fixpoint row_text (first : bool) (cols : list Column) (obj : Object) (params : list DbValue) : outcome (bytes * list DbValue) :=
  match cols with
  | [] => Ret ([], params)
  | c :: cols =>
      if insert_skipped (autoGenerateMode c) then row_text first cols obj params
      else
        columnValue ← insert_value c obj;
        '(text, params) ← row_text false cols obj (params ++ [columnValue]);
        Ret ((if first then [] else ", ") ++ "?" ++ text, params)
  end.

Section Statements.
Context (m : Model).

Fixpoint rows_text (firstRow : bool) (objs : list Object) (params : list DbValue) : outcome (bytes * list DbValue) :=
  match objs with
  | [] => Ret ([], params)
  | obj :: objs =>
      '(row, params) ← row_text true (model_columns m) obj params;
      '(text, params) ← rows_text false objs params;
      Ret ((if firstRow then [] else ", ") ++ "(" ++ row ++ ")" ++ text, params)
  end.
Definition valuesListStringAndParams (objs : list Object) (params : list DbValue) : outcome (bytes * list DbValue) :=
  rows_text true objs params.

Definition inserted_columns : list Column := List.filter (fun c => negb (insert_skipped (autoGenerateMode c))) (model_columns m).
Definition modelColumnListString : bytes := comma_list (map dbName inserted_columns).
Definition insert_sqlInit : bytes := "INSERT INTO " ++ tableName m ++ " (" ++ modelColumnListString ++ ") ".
Definition returning_text (returning : bool) : bytes := if returning then " RETURNING *" else [].

Definition buildInsertSqlAndSetParams (objs : list Object) (returning : bool) : outcome (bytes * list DbValue) :=
  '(vals, params) ← valuesListStringAndParams objs [];
  Ret (insert_sqlInit ++ " VALUES " ++ vals ++ returning_text returning ++ ";", params).

(** ** UPDATE *)

(** The columns that are chosen ([columns_], all if empty) and the condition. *)
Record UpdateQuery := { update_columns : list bytes; update_where : option BasePredicate }.
Definition UpdateQuery_new : UpdateQuery := {| update_columns := []; update_where := None |}.
Definition update_reset (_ : UpdateQuery) : UpdateQuery := {| update_columns := []; update_where := None |}.
Definition update_field (p : nat) (q : UpdateQuery) : outcome UpdateQuery :=
  name ← columnNameOf m p; Ret {| update_columns := update_columns q ++ [name]; update_where := update_where q |}.
Definition update_set_where (p : BasePredicate) (q : UpdateQuery) : UpdateQuery :=
  {| update_columns := update_columns q; update_where := where_ p (update_where q) |}.

(** An empty choice is all columns. *)
Definition selected (chosen : list bytes) (c : Column) : bool :=
  match chosen with [] => true | _ => existsb (fun name => name =?b dbName c) chosen end.
Definition is_updated (chosen : list bytes) (c : Column) : bool :=
  negb (isPrimaryKey c || negb (selected chosen c) || update_skipped (autoUpdateMode c)).

Fixpoint update_list (first : bool) (chosen : list bytes) (cols : list Column) (obj : Object) (params : list DbValue) :
    outcome (bytes * list DbValue) :=
  match cols with
  | [] => Ret (" " : bytes, params)
  | c :: cols =>
      if is_updated chosen c then
        columnValue ← update_value c obj;
        '(text, params) ← update_list false chosen cols obj (params ++ [columnValue]);
        Ret ((if first then [] else ", ") ++ dbName c ++ " = ?" ++ text, params)
      else update_list first chosen cols obj params
  end.

Definition no_where (verb : bytes) (hint : bytes) : exn :=
  OrmException ("No where clause when " ++ verb ++ ": " ++ tableName m ++ ". use where({true}) if you want to " ++ hint ++ " all").

Definition buildUpdateSqlAndSetParams (q : UpdateQuery) (obj : Object) (returning : bool) : outcome (bytes * list DbValue) :=
  '(vals, params) ← update_list true (update_columns q) (model_columns m) obj [];
  match update_where q with
  | None => Throw (no_where "Updating" "update")
  | Some p =>
      a ← getAlias 0;
      '(cond, params) ← resolvePredicates p params;
      Ret ("UPDATE " ++ tableName m ++ " AS " ++ a ++ " SET " ++ vals ++ " WHERE " ++ cond ++ returning_text returning ++ ";", params)
  end.

(** ** DELETE *)
Definition buildDeleteSqlAndSetParams (where_clause : option BasePredicate) (returning : bool) : outcome (bytes * list DbValue) :=
  match where_clause with
  | None => Throw (no_where "deleting" "delete")
  | Some p =>
      a ← getAlias 0;
      '(cond, params) ← resolvePredicates p [];
      Ret ("DELETE FROM " ++ tableName m ++ " AS " ++ a ++ " WHERE " ++ cond ++ returning_text returning ++ ";", params)
  end.

(** ** UPSERT *)
Record UpsertQuery := { doNothing_ : bool; columnsToUpdate_ : list bytes; conflictColumns_ : list bytes }.
Definition UpsertQuery_new : UpsertQuery := {| doNothing_ := false; columnsToUpdate_ := []; conflictColumns_ := [] |}.
Definition conflictFields (p : nat) (q : UpsertQuery) : outcome UpsertQuery :=
  name ← columnNameOf m p;
  Ret {| doNothing_ := doNothing_ q; columnsToUpdate_ := columnsToUpdate_ q; conflictColumns_ := conflictColumns_ q ++ [name] |}.
Definition onConflictDoNothing (q : UpsertQuery) : UpsertQuery :=
  {| doNothing_ := true; columnsToUpdate_ := columnsToUpdate_ q; conflictColumns_ := conflictColumns_ q |}.
Definition updateFields (p : nat) (q : UpsertQuery) : outcome UpsertQuery :=
  name ← columnNameOf m p;
  Ret {| doNothing_ := false; columnsToUpdate_ := columnsToUpdate_ q ++ [name]; conflictColumns_ := conflictColumns_ q |}.

Definition conflictColumnList (q : UpsertQuery) : bytes :=
  " ( " ++ comma_list (map (fun c => dbName c ++ " ") (List.filter (selected (conflictColumns_ q)) (model_columns m))) ++ " ) ".
Definition upsert_list (q : UpsertQuery) : bytes :=
  comma_list (map (fun c => dbName c ++ " = excluded." ++ dbName c) (List.filter (is_updated (columnsToUpdate_ q)) (model_columns m))) ++ " ".

Definition buildUpsertSqlAndSetParams (q : UpsertQuery) (objs : list Object) (returning : bool) : outcome (bytes * list DbValue) :=
  '(vals, params) ← valuesListStringAndParams objs [];
  Ret (insert_sqlInit ++ " VALUES " ++ vals ++ " ON CONFLICT " ++ conflictColumnList q ++
       (if doNothing_ q then " DO NOTHING" else " DO UPDATE SET " ++ upsert_list q) ++ returning_text returning ++ ";", params).
End Statements.

(** ** Running a statement *)
Section Dispatch.
Context {S : Type} (db : option (Database S)) (type_name : FieldType -> bytes).

(** [OrmConfig::db] may be null. *)
Definition dispatch (transaction : option (Database S)) (sql : bytes) (params : list DbValue) : M S (expected QueryResult) :=
  match transaction, db with
  | Some t, _ => t sql params
  | None, Some db => db sql params
  | None, None => undefined
  end.

(** A statement, and what is made of its result; a database error is passed on. *)
Definition run {A} (transaction : option (Database S)) (statement : outcome (bytes * list DbValue)) (use : QueryResult -> outcome A) :
    M S (expected A) :=
  '(sql, params) ← lift statement;
  queryResult ← dispatch transaction sql params;
  match queryResult with
  | inr e => mret (inr e)
  | inl r => a ← lift (use r); mret (inl a)
  end.

Definition written (m : Model) (r : QueryResult) : outcome (Z * list Object) :=
  objs ← hydrateModel type_name m r; Ret (affectedRows r, objs).

Definition insert_execute (m : Model) (objs : list Object) (transaction : option (Database S)) (returning : bool) :
    M S (expected (Z * list Object)) :=
  match objs with
  | [] => mret (inl (0%Z, []))
  | _ => run transaction (buildInsertSqlAndSetParams m objs returning) (written m)
  end.

Definition update_execute (m : Model) (q : UpdateQuery) (obj : Object) (transaction : option (Database S)) (returning : bool) :
    M S (expected (Z * list Object)) :=
  run transaction (buildUpdateSqlAndSetParams m q obj returning) (written m).

Definition delete_execute (m : Model) (where_clause : option BasePredicate) (transaction : option (Database S)) (returning : bool) :
    M S (expected (Z * list Object)) :=
  run transaction (buildDeleteSqlAndSetParams m where_clause returning) (written m).

Definition upsert_execute (m : Model) (q : UpsertQuery) (objs : list Object) (transaction : option (Database S)) (returning : bool) :
    M S (expected (Z * list Object)) :=
  match objs with
  | [] => mret (inl (0%Z, []))
  | _ => run transaction (buildUpsertSqlAndSetParams m q objs returning) (written m)
  end.

(** ** Running a SELECT *)
Section Select.
Context (models : list Model).

Definition count (q : SelectQuery) (transaction : option (Database S)) : M S (expected Field) :=
  run transaction ('(sql, params) ← buildSelectSqlAndSetParams models 0 None q; Ret ("SELECT COUNT(*) FROM (" ++ sql ++ ")", params))
    (fun r => row ← result_at r 0; as_index type_name (TInt true 64) row 0).

Definition select (q : SelectQuery) (transaction : option (Database S)) : M S (expected (list Object)) :=
  run transaction (buildSelectSqlAndSetParams models 0 None q) (hydrateModel type_name (main_model models)).

Definition first (q : SelectQuery) (transaction : option (Database S)) : M S (expected (option Object)) :=
  run transaction (buildSelectSqlAndSetParams models 0 (Some 1%Z) q)
    (fun r => match rows r with [] => Ret None | row :: _ => o ← hydrateModelRow type_name (main_model models) row; Ret (Some o) end).

Definition exists_any (q : SelectQuery) (transaction : option (Database S)) : M S (expected bool) :=
  run transaction (buildSelectSqlAndSetParams models 0 (Some 1%Z) q) (fun r => Ret (negb (result_size r =? 0))).

Definition execute (q : SelectQuery) (transaction : option (Database S)) : M S (expected QueryResult) :=
  run transaction (buildSelectSqlAndSetParams models 0 None q) Ret.
End Select.
End Dispatch.

(** ** The texts with their parameters are the texts with the values in their places *)
Section Inlined.
Context (lit : DbValue -> bytes) (m : Model).
#[local] Abbreviation stands_for := (stands_for lit).

Definition written_value (obj : Object) (c : Column) : DbValue :=
  match autoGenerateMode c, customGenerator c with
  | GENERATE_CUSTOM, Some g => g obj
  | _, _ => toDbValue (fieldType c) (member obj (fieldPtr c))
  end.
Definition updated_value (obj : Object) (c : Column) : DbValue :=
  match autoUpdateMode c, customUpdator c with
  | UPDATE_CUSTOM, Some g => g obj
  | _, _ => toDbValue (fieldType c) (member obj (fieldPtr c))
  end.

(** Columns that are computed have a function for it; names have no marks. *)
Record columns_ok : Prop := {
  co_table : no_mark (tableName m);
  co_names : Forall (fun c => no_mark (dbName c)) (model_columns m);
  co_generators : Forall (fun c => autoGenerateMode c = GENERATE_CUSTOM -> is_Some (customGenerator c)) (model_columns m);
  co_updators : Forall (fun c => autoUpdateMode c = UPDATE_CUSTOM -> is_Some (customUpdator c)) (model_columns m);
}.

Definition row_values (obj : Object) : list DbValue := map (written_value obj) (inserted_columns m).
Definition updated_columns (chosen : list bytes) : list Column := List.filter (is_updated chosen) (model_columns m).

Definition inline_rows (objs : list Object) : bytes :=
  comma_list (map (fun o => "(" ++ comma_list (map lit (row_values o)) ++ ")") objs).
Definition inline_insert (objs : list Object) (returning : bool) : bytes :=
  "INSERT INTO " ++ tableName m ++ " (" ++ comma_list (map dbName (inserted_columns m)) ++ ")  VALUES " ++ inline_rows objs ++
  returning_text returning ++ ";".
Definition inline_upsert (q : UpsertQuery) (objs : list Object) (returning : bool) : bytes :=
  "INSERT INTO " ++ tableName m ++ " (" ++ comma_list (map dbName (inserted_columns m)) ++ ")  VALUES " ++ inline_rows objs ++
  " ON CONFLICT " ++ conflictColumnList m q ++ (if doNothing_ q then " DO NOTHING" else " DO UPDATE SET " ++ upsert_list m q) ++
  returning_text returning ++ ";".
Definition inline_set (chosen : list bytes) (obj : Object) : bytes :=
  comma_list (map (fun c => dbName c ++ " = " ++ lit (updated_value obj c)) (updated_columns chosen)).
Definition inline_update (q : UpdateQuery) (p : BasePredicate) (obj : Object) (returning : bool) : bytes :=
  "UPDATE " ++ tableName m ++ " AS a SET " ++ inline_set (update_columns q) obj ++ "  WHERE " ++ inline lit p ++ returning_text returning ++ ";".
Definition inline_delete (p : BasePredicate) (returning : bool) : bytes :=
  "DELETE FROM " ++ tableName m ++ " AS a WHERE " ++ inline lit p ++ returning_text returning ++ ";".

(** A list written one by one with its separators. *)
Definition separated (first : bool) (l : list bytes) : bytes :=
  if first then comma_list l else concat (map (fun x => ", " ++ x) l).

Lemma separated_cons first x l : separated first (x :: l) = (if first then [] else ", ") ++ x ++ separated false l.
Proof. destruct first; cbn; by rewrite <- ?app_assoc. Qed.

Lemma separated_nil first : separated first [] = [].
Proof. by destruct first. Qed.

Lemma comma_if_no_mark (b : bool) : no_mark (if b then [] else ", ").
Proof. destruct b; [apply not_elem_of_nil|by apply literal_no_mark]. Qed.

Lemma row_placed first cols obj params :
  Forall (fun c => autoGenerateMode c = GENERATE_CUSTOM -> is_Some (customGenerator c)) cols ->
  let vs := map (written_value obj) (List.filter (fun c => negb (insert_skipped (autoGenerateMode c))) cols) in
  exists text, row_text first cols obj params = Ret (text, params ++ vs) /\ stands_for text vs (separated first (map lit vs)).
Proof.
  intros H. revert first params. induction H as [|c cols Hc H IH]; intros first params; cbn zeta in *.
  { exists []. cbn. by rewrite app_nil_r, separated_nil. }
  cbn [row_text List.filter]. destruct (insert_skipped (autoGenerateMode c)) eqn:Sk; cbn [negb]; [apply IH|].
  assert (V : insert_value c obj = Ret (written_value obj c)).
  { unfold insert_value, written_value. destruct (autoGenerateMode c) eqn:G; try done. by destruct (Hc eq_refl) as [g ->]. }
  rewrite V. cbn [mbind outcome_bind]. destruct (IH false (params ++ [written_value obj c])) as (text & -> & F). eexists.
  cbn [mbind outcome_bind map]. rewrite <- app_assoc. split; [reflexivity|]. cbn [map]. rewrite separated_cons.
  apply stands_plain_app; [apply comma_if_no_mark|]. by apply fill_mark.
Qed.

Lemma object_placed obj params : columns_ok ->
  exists text, row_text true (model_columns m) obj params = Ret (text, params ++ row_values obj) /\
    stands_for text (row_values obj) (comma_list (map lit (row_values obj))).
Proof. intros Hm. exact (row_placed true (model_columns m) obj params (co_generators Hm)). Qed.

Lemma rows_placed first objs params : columns_ok ->
  exists text, rows_text m first objs params = Ret (text, params ++ concat (map row_values objs)) /\
    stands_for text (concat (map row_values objs)) (separated first (map (fun o => "(" ++ comma_list (map lit (row_values o)) ++ ")") objs)).
Proof.
  intros Hm. revert first params. induction objs as [|o objs IH]; intros first params.
  { exists []. cbn. by rewrite app_nil_r, separated_nil. }
  cbn [rows_text]. destruct (object_placed o params Hm) as (t1 & -> & F1).
  cbn [mbind outcome_bind]. destruct (IH false (params ++ row_values o)) as (t2 & -> & F2). cbn [mbind outcome_bind].
  eexists. cbn [map concat]. rewrite <- (app_assoc params). split; [reflexivity|].
  rewrite separated_cons. rewrite <- !app_assoc. apply stands_plain_app; [apply comma_if_no_mark|].
  apply stands_plain_app; [by apply literal_no_mark|]. apply stands_app; [done|].
  apply stands_plain_app; [by apply literal_no_mark|done].
Qed.

Lemma update_placed first chosen cols obj params :
  Forall (fun c => no_mark (dbName c)) cols -> Forall (fun c => autoUpdateMode c = UPDATE_CUSTOM -> is_Some (customUpdator c)) cols ->
  let sel := List.filter (is_updated chosen) cols in
  exists text, update_list first chosen cols obj params = Ret (text, params ++ map (updated_value obj) sel) /\
    stands_for text (map (updated_value obj) sel) (separated first (map (fun c => dbName c ++ " = " ++ lit (updated_value obj c)) sel) ++ " ").
Proof.
  intros Hn H. revert first params. induction H as [|c cols Hc H IH]; intros first params; cbn zeta in *.
  { exists " ". cbn. rewrite app_nil_r, separated_nil. split; [done|]. by apply stands_plain, literal_no_mark. }
  apply Forall_cons in Hn as [Hc' Hn]. cbn [update_list List.filter]. destruct (is_updated chosen c) eqn:Sk; [|by apply IH].
  assert (V : update_value c obj = Ret (updated_value obj c)).
  { unfold update_value, updated_value. destruct (autoUpdateMode c) eqn:G; try done.
    2: by destruct (Hc eq_refl) as [g ->].
    all: exfalso; unfold is_updated in Sk; rewrite G in Sk; cbn in Sk; by rewrite orb_true_r in Sk. }
  rewrite V. cbn [mbind outcome_bind]. destruct (IH Hn false (params ++ [updated_value obj c])) as (text & -> & F). eexists.
  cbn [mbind outcome_bind map]. rewrite <- app_assoc. split; [reflexivity|]. cbn [map]. rewrite separated_cons, <- !app_assoc.
  apply stands_plain_app; [apply comma_if_no_mark|]. apply stands_plain_app; [done|].
  change (" = ?" ++ text) with (" = " ++ "?" ++ text). apply stands_plain_app; [by apply literal_no_mark|]. by apply fill_mark.
Qed.

Lemma chosen_placed chosen obj : columns_ok ->
  exists text, update_list true chosen (model_columns m) obj [] = Ret (text, map (updated_value obj) (updated_columns chosen)) /\
    stands_for text (map (updated_value obj) (updated_columns chosen)) (inline_set chosen obj ++ " ").
Proof. intros Hm. exact (update_placed true chosen (model_columns m) obj [] (co_names Hm) (co_updators Hm)). Qed.

Lemma returning_no_mark b : no_mark (returning_text b ++ ";").
Proof. destruct b; by apply bytes_no_mark. Qed.

Lemma insert_init_no_mark : columns_ok -> no_mark (insert_sqlInit m).
Proof.
  intros Hm. unfold insert_sqlInit, modelColumnListString. rewrite !no_mark_app. split_and!; try by apply literal_no_mark.
  - apply Hm.
  - apply comma_no_mark, Forall_map. apply Forall_forall. intros c Hc%list_elem_of_In. apply filter_In in Hc as [Hc _].
    pose proof (co_names Hm) as Hn. rewrite Forall_forall in Hn. apply Hn. by apply list_elem_of_In.
Qed.

Lemma filtered_no_mark (f : Column -> bool) (g : Column -> bytes) : columns_ok ->
  (forall c, no_mark (dbName c) -> no_mark (g c)) -> no_mark (comma_list (map g (List.filter f (model_columns m)))).
Proof.
  intros Hm Hg. apply comma_no_mark, Forall_map, Forall_forall. intros c Hc%list_elem_of_In. apply filter_In in Hc as [Hc _].
  pose proof (co_names Hm) as Hn. rewrite Forall_forall in Hn. apply Hg, Hn. by apply list_elem_of_In.
Qed.

Lemma conflict_no_mark q : columns_ok ->
  no_mark (conflictColumnList m q ++ (if doNothing_ q then " DO NOTHING" else " DO UPDATE SET " ++ upsert_list m q)).
Proof.
  intros Hm. unfold conflictColumnList, upsert_list. destruct (doNothing_ q); rewrite !no_mark_app; split_and!; try by apply literal_no_mark.
  all: apply filtered_no_mark; [done|]; intros c Hc; rewrite ?no_mark_app; split_and?; done || by apply literal_no_mark.
Qed.

Lemma insert_placed objs returning : columns_ok ->
  exists sql, buildInsertSqlAndSetParams m objs returning = Ret (sql, concat (map row_values objs)) /\
    stands_for sql (concat (map row_values objs)) (inline_insert objs returning).
Proof.
  intros Hm. destruct (rows_placed true objs [] Hm) as (rows & Er & Fr).
  unfold buildInsertSqlAndSetParams, valuesListStringAndParams. rewrite Er. cbn [mbind outcome_bind app]. eexists. split; [reflexivity|].
  replace (inline_insert objs returning) with (insert_sqlInit m ++ " VALUES " ++ inline_rows objs ++ returning_text returning ++ ";")
    by (unfold inline_insert, insert_sqlInit, modelColumnListString; by rewrite <- !app_assoc).
  apply stands_plain_app; [by apply insert_init_no_mark|]. apply stands_plain_app; [by apply literal_no_mark|].
  apply stands_app_plain; [apply returning_no_mark|exact Fr].
Qed.

Lemma upsert_placed q objs returning : columns_ok ->
  exists sql, buildUpsertSqlAndSetParams m q objs returning = Ret (sql, concat (map row_values objs)) /\
    stands_for sql (concat (map row_values objs)) (inline_upsert q objs returning).
Proof.
  intros Hm. destruct (rows_placed true objs [] Hm) as (rows & Er & Fr).
  unfold buildUpsertSqlAndSetParams, valuesListStringAndParams. rewrite Er. cbn [mbind outcome_bind app]. eexists. split; [reflexivity|].
  replace (inline_upsert q objs returning) with (insert_sqlInit m ++ " VALUES " ++ inline_rows objs ++ " ON CONFLICT " ++
    conflictColumnList m q ++ (if doNothing_ q then " DO NOTHING" else " DO UPDATE SET " ++ upsert_list m q) ++ returning_text returning ++ ";")
    by (unfold inline_upsert, insert_sqlInit, modelColumnListString; by rewrite <- !app_assoc).
  apply stands_plain_app; [by apply insert_init_no_mark|]. apply stands_plain_app; [by apply literal_no_mark|].
  apply stands_app_plain; [|exact Fr]. apply no_mark_app. split; [by apply literal_no_mark|].
  pose proof (conflict_no_mark q Hm) as [H1 H2]%no_mark_app. rewrite 2!no_mark_app. split_and!; [done..|apply returning_no_mark].
Qed.

Lemma delete_placed p returning : columns_ok -> pred_ok lit p ->
  exists sql ps, buildDeleteSqlAndSetParams m (Some p) returning = Ret (sql, ps) /\ stands_for sql ps (inline_delete p returning).
Proof.
  intros Hm Hp. unfold buildDeleteSqlAndSetParams. change (getAlias 0) with (Ret (list_ascii_of_string "a")). cbn [mbind outcome_bind].
  destruct (resolve_placed lit p [] Hp) as (cond & ps & -> & F). cbn [mbind outcome_bind app]. eexists _, _. split; [reflexivity|].
  unfold inline_delete. apply stands_plain_app; [by apply literal_no_mark|]. apply stands_plain_app; [apply Hm|].
  change (list_ascii_of_string " AS a WHERE ") with (" AS " ++ "a" ++ " WHERE "). rewrite <- !app_assoc.
  do 3 (apply stands_plain_app; [by apply literal_no_mark|]). apply stands_app_plain; [apply returning_no_mark|done].
Qed.

Lemma update_statement_placed q p obj returning : columns_ok -> pred_ok lit p -> update_where q = Some p ->
  exists sql ps, buildUpdateSqlAndSetParams m q obj returning = Ret (sql, ps) /\ stands_for sql ps (inline_update q p obj returning).
Proof.
  intros Hm Hp Hw. unfold buildUpdateSqlAndSetParams.
  destruct (chosen_placed (update_columns q) obj Hm) as (vals & -> & Fv). 
  cbn [mbind outcome_bind app]. rewrite Hw. change (getAlias 0) with (Ret (list_ascii_of_string "a")). cbn [mbind outcome_bind].
  destruct (resolve_placed lit p (map (updated_value obj) (updated_columns (update_columns q))) Hp) as (cond & ps & -> & F). cbn [mbind outcome_bind]. eexists _, _. split; [reflexivity|].
  unfold inline_update. apply stands_plain_app; [by apply literal_no_mark|]. apply stands_plain_app; [apply Hm|].
  change (list_ascii_of_string " AS a SET ") with (" AS " ++ "a" ++ " SET "). rewrite <- !app_assoc.
  do 3 (apply stands_plain_app; [by apply literal_no_mark|]).
  change (list_ascii_of_string "  WHERE ") with (" " ++ " WHERE "). rewrite <- !app_assoc, (app_assoc (inline_set _ _)).
  apply stands_app; [exact Fv|]. apply stands_plain_app; [by apply literal_no_mark|].
  apply stands_app_plain; [apply returning_no_mark|done].
Qed.

(** The statements that write are their texts with every value in its place: for an
    INSERT or UPSERT of any number of objects, an UPDATE of the chosen columns and a
    DELETE, the text that is sent, with each mark replaced by the parameter bound to it,
    is the statement with the values written out (for each object its written columns in
    the order of the column list; in an UPDATE no primary key and no locked column),
    and without a condition UPDATE and DELETE are refused. *)
Theorem writes_inlined objs obj upd ups p returning : columns_ok -> pred_ok lit p -> update_where upd = Some p ->
  (exists sql ps, buildInsertSqlAndSetParams m objs returning = Ret (sql, ps) /\ fill lit sql ps = Some (inline_insert objs returning)) /\
  (exists sql ps, buildUpsertSqlAndSetParams m ups objs returning = Ret (sql, ps) /\
     fill lit sql ps = Some (inline_upsert ups objs returning)) /\
  (exists sql ps, buildUpdateSqlAndSetParams m upd obj returning = Ret (sql, ps) /\
     fill lit sql ps = Some (inline_update upd p obj returning)) /\
  (exists sql ps, buildDeleteSqlAndSetParams m (Some p) returning = Ret (sql, ps) /\
     fill lit sql ps = Some (inline_delete p returning)) /\
  (exists e, buildUpdateSqlAndSetParams m (update_reset upd) obj returning = Throw e) /\
  (exists e, buildDeleteSqlAndSetParams m None returning = Throw e).
Proof.
  intros Hm Hp Hw. destruct (insert_placed objs returning Hm) as (s1 & E1 & F1), (upsert_placed ups objs returning Hm) as (s2 & E2 & F2).
  split; [by eexists _, _|]. split; [by eexists _, _|]. split; [by apply update_statement_placed|]. split; [by apply delete_placed|].
  split; [|by eexists]. unfold buildUpdateSqlAndSetParams, update_reset. cbn [update_columns update_where].
  destruct (chosen_placed [] obj Hm) as (vals & -> & _). by eexists.
Qed.
End Inlined.

(** ** Examples *)
Module WriteWitnesses.
Import ModelWitnesses PredicateWitnesses.

Definition bob : Object :=
  {| members := list_to_map [(0, FInt 8); (1, FText "Bob?"); (2, FText "b"); (3, FInt 25)]; persisted_ := false |}.
Definition by_name : BasePredicate := pred_column "name" EQUALS [VText "Ann"].
Definition renamed : UpdateQuery := {| update_columns := ["nick" : bytes]; update_where := Some by_name |}.
Definition by_id : UpsertQuery := {| doNothing_ := false; columnsToUpdate_ := []; conflictColumns_ := ["id" : bytes] |}.

Example insert_text : buildInsertSqlAndSetParams users [ann; bob] true =
  Ret ("INSERT INTO users (name, nick, age)  VALUES (?, ?, ?), (?, ?, ?) RETURNING *;" : bytes,
    [VText "Ann"; VNull; VInt 41; VText "Bob?"; VText "b"; VInt 25]).
Proof. vm_compute. reflexivity. Qed.

Example update_text : buildUpdateSqlAndSetParams users renamed bob false =
  Ret ("UPDATE users AS a SET nick = ?  WHERE  name = ? ;" : bytes, [VText "b"; VText "Ann"]).
Proof. vm_compute. reflexivity. Qed.

(** The age of a user is locked. *)
Example upsert_text : buildUpsertSqlAndSetParams users by_id [bob] false =
  Ret ("INSERT INTO users (name, nick, age)  VALUES (?, ?, ?) ON CONFLICT  ( id  )  DO UPDATE SET name = excluded.name, nick = excluded.nick ;" : bytes,
    [VText "Bob?"; VText "b"; VInt 25]).
Proof. vm_compute. reflexivity. Qed.

(** A column list is empty when the database generates every column: no SQL database
    accepts [INSERT INTO t () VALUES ()]. *)
Definition counter : Model := {| tableName := "counter"; model_columns := [ModelWitnesses.column 0 int64 "id" true DB_INCREMENT UPDATE_OFF] |}.
Example empty_insert o : buildInsertSqlAndSetParams counter [o] false = Ret ("INSERT INTO counter ()  VALUES ();" : bytes, []).
Proof. reflexivity. Qed.
Example empty_update p : buildUpdateSqlAndSetParams counter {| update_columns := []; update_where := Some (pred_bool true) |} p false =
  Ret ("UPDATE counter AS a SET   WHERE  TRUE ;" : bytes, []).
Proof. reflexivity. Qed.

Lemma users_columns_ok : columns_ok users.
Proof. split; [by apply literal_no_mark|..]; repeat constructor; try done; by apply literal_no_mark. Qed.

Lemma by_name_ok : pred_ok quoted by_name.
Proof. constructor; try by apply bytes_no_mark. done. Qed.

Lemma writes_inlined_witness :
  exists sql ps, buildUpdateSqlAndSetParams users renamed bob false = Ret (sql, ps) /\
    fill quoted sql ps = Some (list_ascii_of_string "UPDATE users AS a SET nick = 'b'  WHERE  name = 'Ann' ;").
Proof.
  destruct (writes_inlined quoted users [ann; bob] bob renamed by_id by_name false users_columns_ok by_name_ok eq_refl)
    as (_ & _ & (sql & ps & H1 & H2) & _).
  exists sql, ps. split; [done|]. rewrite H2. vm_compute. reflexivity.
Defined.
End WriteWitnesses.
