(* ===== verification/ActiveRecord.v ===== *)
(** Active records ([orm/ActiveRecord.hpp]: finding, saving and deleting an object, and
    the queries over foreign keys of [orm/Relations.hpp]). *)
From S2P Require Import Prelude Bytes Effects DbValue Model Predicate SelectQuery WriteQueries.

#[local] Arguments list_ascii_of_string : simpl never.

(** A pointer to the member of a column, in the main model of a query. *)
Definition column_ptr (c : Column) : FieldPtr := {| ptr_model := 0; ptr_field := fieldPtr c; ptr_type := fieldType c |}.

(** A conjunction, as a fold over a pack: [(p1 and (p2 and p3))]. *)
Fixpoint and_fold (l : list (outcome BasePredicate)) : outcome BasePredicate :=
  match l with
  | [] => Ret (pred_bool true)
  | [p] => p
  | p :: l => p ← p; q ← and_fold l; Ret (pred_and p q)
  end.

Section Records.
Context (m : Model).
#[local] Abbreviation resolve := (default_resolve [m]).

(** The types of the primary key are those of its columns. *)
Definition buildPkPredicate (pkVal : list Field) : outcome BasePredicate :=
  and_fold (zip_with (fun c v => equals resolve (column_ptr c) v []) (pkColumns m) pkVal).

Definition queryAll (tableAlias : bytes) : SelectQuery :=
  match tableAlias with [] => SelectQuery_default [m] | _ => SelectQuery_alias [m] tableAlias end.
Definition filter_query (p : BasePredicate) (tableAlias : bytes) : SelectQuery := select_where p (queryAll tableAlias).

Section Run.
Context {S : Type} (db : option (Database S)) (type_name : FieldType -> bytes).

Definition find (pkVal : list Field) (transaction : option (Database S)) : M S (expected (option Object)) :=
  p ← lift (buildPkPredicate pkVal);
  first db type_name [m] (select_where p (SelectQuery_default [m])) transaction.

Definition bulkInsert (objs : list Object) (returning : bool) (transaction : option (Database S)) : M S (expected (Z * list Object)) :=
  insert_execute db type_name m objs transaction returning.

Fixpoint add_fields {Q} (add : nat -> Q -> outcome Q) (fields : list nat) (q : Q) : outcome Q :=
  match fields with [] => Ret q | p :: fields => q ← add p q; add_fields add fields q end.

Definition bulkUpsert (objs : list Object) (conflicts : list nat) (doNothingOnConflict : bool) (updates : list nat) (returning : bool)
    (transaction : option (Database S)) : M S (expected (Z * list Object)) :=
  query ← lift (add_fields (conflictFields m) conflicts UpsertQuery_new);
  query ← lift (if doNothingOnConflict then Ret (onConflictDoNothing query) else add_fields (updateFields m) updates query);
  upsert_execute db type_name m query objs transaction returning.

Definition bulkUpdate (newObj : Object) (fields : list nat) (p : BasePredicate) (returning : bool) (transaction : option (Database S)) :
    M S (expected (Z * list Object)) :=
  query ← lift (add_fields (update_field m) fields UpdateQuery_new);
  update_execute db type_name m (update_set_where p query) newObj transaction returning.

Definition bulkDestroy (p : BasePredicate) (returning : bool) (transaction : option (Database S)) : M S (expected (Z * list Object)) :=
  delete_execute db type_name m (where_ p None) transaction returning.

(** ** Methods of an object: the state is the database's, with the object *)
Definition on_db {A} (f : M S A) : M (S * Object) A := fun '(s, self) => let '(r, s) := f s in (r, (s, self)).
Definition self : M (S * Object) Object := gets snd.
Definition set_self (f : Object -> Object) : M (S * Object) unit := modify (fun '(s, self) => (s, f self)).

(** What comes back from the database takes the place of the object. *)
Definition take_result (before : Object -> Object) (result : expected (Z * list Object)) : M (S * Object) (expected Z) :=
  match result with
  | inr e => mret (inr e)
  | inl (affectedRowCount, objs) =>
      _ ← match objs with [] => mret tt | obj :: _ => _ ← set_self before; set_self (fun _ => obj) end;
      mret (inl affectedRowCount)
  end.

Definition insert (transaction : option (Database S)) : M (S * Object) (expected Z) :=
  obj ← self;
  result ← on_db (insert_execute db type_name m [obj] transaction true);
  take_result setPersisted result.

Definition upsert (conflicts : list nat) (doNothingOnConflict : bool) (transaction : option (Database S)) : M (S * Object) (expected Z) :=
  query ← lift (add_fields (conflictFields m) conflicts UpsertQuery_new);
  obj ← self;
  result ← on_db (upsert_execute db type_name m (if doNothingOnConflict then onConflictDoNothing query else query) [obj] transaction true);
  take_result setPersisted result.

Definition update (transaction : option (Database S)) : M (S * Object) (expected Z) :=
  obj ← self;
  p ← lift (buildPkPredicate (getPrimaryKeyValues m obj));
  result ← on_db (update_execute db type_name m (update_set_where p UpdateQuery_new) obj transaction true);
  take_result id result.

Definition save (transaction : option (Database S)) : M (S * Object) (expected Z) :=
  obj ← self; if persisted_ obj then update transaction else insert transaction.

Definition destroy (transaction : option (Database S)) : M (S * Object) (expected Z) :=
  obj ← self;
  p ← lift (buildPkPredicate (getPrimaryKeyValues m obj));
  result ← on_db (delete_execute db type_name m (where_ p None) transaction true);
  match result with
  | inr e => mret (inr e)
  | inl _ => r ← take_result id result; _ ← set_self resetPersisted; mret r
  end.

Definition reload (transaction : option (Database S)) : M (S * Object) (expected bool) :=
  obj ← self;
  result ← on_db (find (getPrimaryKeyValues m obj) transaction);
  match result with
  | inr e => mret (inr e)
  | inl None => mret (inl false)
  | inl (Some obj) => _ ← set_self (fun _ => obj); mret (inl true)
  end.
End Run.
End Records.

(** ** Foreign keys *)

(** [FkRelation]: pairs of a foreign-key member of the definer, with its type, and the
    primary-key column of the target it refers to. *)
Record FkRelation := { fkFieldPtrs : list (nat * CppType); relatedName : bytes; fk_target : nat }.

Section ForeignKeys.
Context (definer target : Model).

Definition getFieldPtrPairs (r : FkRelation) : list ((nat * CppType) * Column) := zip (fkFieldPtrs r) (pkColumns target).

Fixpoint andWhere_all (l : list (outcome BasePredicate)) (q : SelectQuery) : outcome SelectQuery :=
  match l with [] => Ret q | p :: l => p ← p; andWhere_all l (select_where p q) end.

(** The objects of the definer that refer to [self], an object of the target. *)
Definition related (r : FkRelation) (self : Object) : outcome SelectQuery :=
  andWhere_all
    (map (fun '(fk, pk) => equals (default_resolve [definer]) {| ptr_model := 0; ptr_field := fk.1; ptr_type := fk.2 |}
       (member self (fieldPtr pk)) []) (getFieldPtrPairs r)) (SelectQuery_default [definer]).

(** The objects of the target to which [self], an object of the definer, refers. *)
Definition ref (r : FkRelation) (self : Object) : outcome SelectQuery :=
  andWhere_all
    (map (fun '(fk, pk) =>
       match optional fk.2, member self fk.1 with
       | true, FNone => Ret (pred_bool false)
       | _, fkField => equals (default_resolve [target]) (column_ptr pk) fkField []
       end) (getFieldPtrPairs r)) (SelectQuery_default [target]).
End ForeignKeys.

(** Which relation: all foreign keys of a model are filtered at compile time. *)
Definition getFkRelationByTargetModel (target : nat) (rels : list FkRelation) : list FkRelation :=
  List.filter (fun r => fk_target r =? target) rels.
Definition getFkRelationByName (name : bytes) (rels : list FkRelation) : list FkRelation :=
  List.filter (fun r => relatedName r =?b name) rels.

(** ** Which rows a condition selects *)
Section Meaning.
(** Equality of SQL: unknown with NULL. *)
Context (sql_eq : DbValue -> DbValue -> tri).

(** The meaning of a comparison on a row, a function of the names of columns. *)
Definition row_atom (row : bytes -> DbValue) (p : BasePredicate) : tri :=
  match predicateType p, op p, values p with
  | LEAF, Some EQUALS, v :: _ => sql_eq (row (columnA p)) v
  | FIELD_COMPARISON, Some EQUALS, _ => sql_eq (row (columnA p)) (row (columnB p))
  | _, _, _ => Unknown
  end.
Definition holds (row : bytes -> DbValue) (p : BasePredicate) : Prop := denote (row_atom row) p = Yes.
Definition selects (q : SelectQuery) (row : bytes -> DbValue) : Prop := from_option (holds row) True (wherePredicate (settings q)).

(** The row of an object in a table with the given alias. *)
Definition row_env (alias : bytes) (m : Model) (o : Object) (name : bytes) : DbValue :=
  match List.find (fun c => alias ++ "." ++ dbName c =?b name) (model_columns m) with
  | Some c => toDbValue (fieldType c) (member o (fieldPtr c))
  | None => VNull
  end.

Lemma tri_and_yes a b : tri_and a b = Yes <-> a = Yes /\ b = Yes.
Proof. destruct a, b; cbn; intuition congruence. Qed.

Lemma holds_and row p q : holds row (pred_and p q) <-> holds row p /\ holds row q.
Proof. unfold holds. by rewrite denote_and, tri_and_yes. Qed.

Lemma holds_true row : holds row (pred_bool true).
Proof. done. Qed.

Lemma holds_false row : ~ holds row (pred_bool false).
Proof. done. Qed.

Lemma holds_column row name v : holds row (pred_column name EQUALS [v]) <-> sql_eq (row name) v = Yes.
Proof. done. Qed.

Lemma selects_where row p q : selects (select_where p q) row <-> selects q row /\ holds row p.
Proof.
  unfold selects, select_where, on_settings. destruct q as [s t ch]. destruct s. cbn. destruct wherePredicate; cbn; [apply holds_and|tauto].
Qed.

Lemma columnNameOf_ok m c : model_ok m -> c ∈ model_columns m -> columnNameOf m (fieldPtr c) = Ret (dbName c).
Proof.
  intros [_ Nd] Hc. unfold columnNameOf.
  assert (K : forall cols r, NoDup (map fieldPtr cols) -> column_of (fieldPtr c) cols r =
    if decide (fieldPtr c ∈ map fieldPtr cols) then column_of (fieldPtr c) cols None else r).
  { induction cols as [|d cols IH]; intros r Hn; [done|]. cbn [map column_of] in *. apply NoDup_cons in Hn as [Hd Hn].
    rewrite (IH _ Hn), (IH (if bool_decide (fieldPtr d = fieldPtr c) then Some _ else None) Hn).
    case_decide as D; case_decide as E; rewrite elem_of_cons in E; try case_bool_decide; naive_solver. }
  revert Nd Hc. induction (model_columns m) as [|d cols IH]; intros Nd Hc; [by apply elem_of_nil in Hc|].
  cbn [map column_of] in *. apply NoDup_cons in Nd as [Hd Nd]. apply elem_of_cons in Hc as [<-|Hc].
  - rewrite bool_decide_true, K by done. by rewrite decide_False.
  - rewrite bool_decide_false; [by apply IH|]. intros E. apply Hd. rewrite E. by apply list_elem_of_fmap_2.
Qed.

Lemma row_env_at alias m o c : model_ok m -> c ∈ model_columns m ->
  row_env alias m o (alias ++ "." ++ dbName c) = toDbValue (fieldType c) (member o (fieldPtr c)).
Proof.
  intros [Nd _] Hc. unfold row_env. destruct (List.find _ _) as [d|] eqn:F.
  - apply find_some in F as [Hd E]. apply beqb_eq in E. apply app_inv_head, app_inv_head in E.
    replace d with c; [done|]. symmetry. apply list_elem_of_In in Hd.
    apply list_elem_of_lookup in Hc as [i Hi], Hd as [j Hj]. assert (i = j) as ->; [|congruence].
    eapply (NoDup_lookup (map dbName (model_columns m))); [done|rewrite list_lookup_fmap, Hi; reflexivity|].
    rewrite list_lookup_fmap, Hj. cbn. by rewrite E.
  - apply list_elem_of_In in Hc. pose proof (find_none _ _ F c Hc) as H. cbn beta in H. by rewrite beqb_refl in H.
Qed.

Lemma equals_main m c v : model_ok m -> c ∈ model_columns m ->
  equals (default_resolve [m]) (column_ptr c) v [] = Ret (pred_column ("a." ++ dbName c) EQUALS [toDbValueImpl (raw (fieldType c)) v]).
Proof. intros Hm Hc. unfold equals, pred_field, default_resolve. cbn. by rewrite columnNameOf_ok. Qed.

Lemma and_fold_holds ps : exists p, and_fold (map Ret ps) = Ret p /\ forall row, holds row p <-> Forall (holds row) ps.
Proof.
  induction ps as [|p ps (q & E & H)]; [by exists (pred_bool true)|]. destruct ps as [|p' ps].
  - exists p. split; [done|]. intros row. by rewrite Forall_singleton.
  - exists (pred_and p q). change (map Ret (p :: p' :: ps)) with (Ret p :: map Ret (p' :: ps)).
    change (and_fold (Ret p :: map Ret (p' :: ps))) with (q ← and_fold (map Ret (p' :: ps)); Ret (pred_and p q)).
    rewrite E. split; [done|]. intros row. by rewrite holds_and, H, (Forall_cons _ p).
Qed.

Lemma andWhere_all_selects ps q : exists q', andWhere_all (map Ret ps) q = Ret q' /\
  forall row, selects q' row <-> selects q row /\ Forall (holds row) ps.
Proof.
  revert q. induction ps as [|p ps IH]; intros q; [exists q; split; [done|]; intros row; rewrite Forall_nil; tauto|].
  destruct (IH (select_where p q)) as (q' & E & H). exists q'. split; [exact E|]. intros row. rewrite H, selects_where, Forall_cons. tauto.
Qed.

(** *** The primary key *)
Lemma pk_in m c : c ∈ pkColumns m -> c ∈ model_columns m.
Proof. unfold pkColumns. intros H%list_elem_of_In. apply filter_In in H as [H _]. by apply list_elem_of_In. Qed.

Lemma zip_with_map {A B C} (f : A -> B -> C) (g : A -> B) (l : list A) : zip_with f l (map g l) = map (fun a => f a (g a)) l.
Proof. induction l as [|a l IH]; [done|]. cbn. by rewrite IH. Qed.

(** The key of the object is that of the row. *)
Definition same_key (m : Model) (o : Object) (row : bytes -> DbValue) : Prop :=
  Forall (fun c => sql_eq (row ("a." ++ dbName c)) (toDbValueImpl (raw (fieldType c)) (member o (fieldPtr c))) = Yes) (pkColumns m).

Lemma pk_predicate m o : model_ok m ->
  exists p, buildPkPredicate m (getPrimaryKeyValues m o) = Ret p /\ forall row, holds row p <-> same_key m o row.
Proof.
  intros Hm. unfold buildPkPredicate, getPrimaryKeyValues, pkFieldPtrs. rewrite map_map, zip_with_map.
  set (leaf c := pred_column ("a." ++ dbName c) EQUALS [toDbValueImpl (raw (fieldType c)) (member o (fieldPtr c))]).
  rewrite (map_ext_in _ (fun c => Ret (leaf c))).
  - rewrite <- (map_map leaf Ret). destruct (and_fold_holds (map leaf (pkColumns m))) as (p & E & H).
    exists p. split; [done|]. intros row. by rewrite H, Forall_map.
  - intros c Hc%list_elem_of_In%pk_in. by apply equals_main.
Qed.

(** C22: Updating, deleting or reloading an object concerns its own row: the statement
    is an UPDATE of the object, a DELETE or a SELECT with a condition that holds of a
    row exactly when the row's primary key, in all of its columns, equals the object's;
    the object then takes the values that came back. *)
Theorem own_row {S} (db : option (Database S)) names m o t s : model_ok m ->
  exists p, (forall row, holds row p <-> same_key m o row) /\
    update m db names t (s, o) =
      (on_db (update_execute db names m {| update_columns := []; update_where := Some p |} o t true) ≫= take_result id) (s, o) /\
    destroy m db names t (s, o) =
      (result ← on_db (delete_execute db names m (Some p) t true);
       match result with inr e => mret (inr e) | inl _ => r ← take_result id result; _ ← set_self resetPersisted; mret r end) (s, o) /\
    find m db names (getPrimaryKeyValues m o) t s = first db names [m] (select_where p (SelectQuery_default [m])) t s.
Proof.
  intros Hm. destruct (pk_predicate m o Hm) as (p & E & H). exists p. split; [done|].
  unfold update, destroy, find, self, gets, lift. split_and!; cbv [mbind M_bind mret M_ret snd]; by rewrite E.
Qed.

(** *** Foreign keys *)

(** Each foreign key is a column of the definer, of the type of the key it refers to. *)
Definition fk_ok (definer target : Model) (r : FkRelation) : Prop :=
  length (fkFieldPtrs r) = length (pkColumns target) /\
  Forall (fun '(fk, pk) => (exists c, c ∈ model_columns definer /\ fieldPtr c = fk.1 /\ fieldType c = fk.2) /\
    fieldType pk = {| raw := raw fk.2; optional := false |}) (getFieldPtrPairs target r).

Context (sql_eq_comm : forall v w, sql_eq v w = sql_eq w v) (sql_eq_null : forall v, sql_eq VNull v <> Yes).

Lemma outcome_map_ret {A B} (f : A -> outcome B) (l : list A) : Forall (fun a => exists b, f a = Ret b) l ->
  exists bs, map f l = map Ret bs.
Proof.
  intros H. induction H as [|a l [b Hb] H [bs IH]]; [by exists []|]. exists (b :: bs). cbn. by rewrite Hb, IH.
Qed.

Lemma Forall_pointwise {A} (f g : A -> outcome BasePredicate) (l : list A) ps qs (P Q : BasePredicate -> Prop) :
  map f l = map Ret ps -> map g l = map Ret qs ->
  Forall (fun a => forall p q, f a = Ret p -> g a = Ret q -> P p <-> Q q) l -> Forall P ps <-> Forall Q qs.
Proof.
  intros Hf Hg H. revert ps qs Hf Hg. induction H as [|a l Ha H IH]; intros [|p ps] [|q qs] Hf Hg; try done.
  cbn in Hf, Hg. injection Hf as Hp Hf. injection Hg as Hq Hg. rewrite !Forall_cons, (IH ps qs Hf Hg), (Ha p q Hp Hq). done.
Qed.

(** The two conditions of a pair of members. *)
Definition ref_leaf (d : Object) (x : (nat * CppType) * Column) : BasePredicate :=
  match optional x.1.2, member d x.1.1 with
  | true, FNone => pred_bool false
  | _, v => pred_column ("a." ++ dbName x.2) EQUALS [toDbValueImpl (raw (fieldType x.2)) v]
  end.

Definition related_leaf (definer : Model) (t : Object) (x : (nat * CppType) * Column) : outcome BasePredicate :=
  equals (default_resolve [definer]) {| ptr_model := 0; ptr_field := x.1.1; ptr_type := x.1.2 |} (member t (fieldPtr x.2)) [].

Lemma related_leaf_ok definer t x c : model_ok definer -> c ∈ model_columns definer -> fieldPtr c = x.1.1 -> fieldType c = x.1.2 ->
  related_leaf definer t x = Ret (pred_column ("a." ++ dbName c) EQUALS [toDbValueImpl (raw x.1.2) (member t (fieldPtr x.2))]).
Proof. unfold related_leaf. intros Hm Hc <- <-. by apply equals_main. Qed.

Lemma Ret_inj {A} (a b : A) : Ret a = Ret b -> a = b.
Proof. congruence. Qed.

Lemma a_dot (name : bytes) : "a." ++ name = "a" ++ "." ++ name.
Proof. reflexivity. Qed.

(** A pair agrees seen from either side. *)
Lemma pair_converse definer target d t x p : model_ok definer -> model_ok target ->
  x.2 ∈ model_columns target -> (exists c, c ∈ model_columns definer /\ fieldPtr c = x.1.1 /\ fieldType c = x.1.2) ->
  fieldType x.2 = {| raw := raw x.1.2; optional := false |} -> related_leaf definer t x = Ret p ->
  (holds (row_env "a" target t) (ref_leaf d x) <-> holds (row_env "a" definer d) p) /\
  (optional x.1.2 = true -> member d x.1.1 = FNone -> ~ holds (row_env "a" definer d) p).
Proof.
  intros Hd Ht Hx (c & Hc & P & T) Ty. rewrite (related_leaf_ok definer t x c) by done. intros <-%Ret_inj.
  rewrite holds_column. rewrite a_dot, (row_env_at _ definer d c), P, T by done.
  unfold ref_leaf, toDbValue. split.
  - destruct (optional x.1.2); [destruct (member d x.1.1) eqn:M|]; rewrite ?holds_column.
    7: split; [intros H; by apply holds_false in H|intros H; by apply sql_eq_null in H].
    all: rewrite a_dot, (row_env_at _ target t x.2) by done.
    all: rewrite Ty; unfold toDbValue; cbn [raw optional]; by rewrite sql_eq_comm.
  - intros -> ->. apply sql_eq_null.
Qed.

(** C23: [ref] and [related] are converse: an object of the target is among those that
    an object of the definer refers to exactly when the latter is among those related
    to the former, for keys of any number of columns; an object whose (optional)
    foreign key is null refers to nothing and is related to nothing. *)
Theorem ref_related definer target r d t : model_ok definer -> model_ok target -> fk_ok definer target r ->
  exists q q', ref target r d = Ret q /\ related definer target r t = Ret q' /\
    (selects q (row_env "a" target t) <-> selects q' (row_env "a" definer d)) /\
    (Exists (fun fk => optional fk.2 = true /\ member d fk.1 = FNone) (fkFieldPtrs r) ->
       forall row, ~ selects q row /\ ~ selects q' (row_env "a" definer d)).
Proof.
  intros Hd Ht [Hl Hf]. set (pairs := getFieldPtrPairs target r) in *.
  assert (In2 : forall x, x ∈ pairs -> x.2 ∈ model_columns target).
  { intros x Hx. apply pk_in. unfold pairs, getFieldPtrPairs in Hx. destruct x. by apply elem_of_zip_r in Hx. }
  assert (Ok : forall x, x ∈ pairs -> exists p, related_leaf definer t x = Ret p /\
    (holds (row_env "a" target t) (ref_leaf d x) <-> holds (row_env "a" definer d) p) /\
    (optional x.1.2 = true -> member d x.1.1 = FNone -> ~ holds (row_env "a" definer d) p)).
  { intros [fk pk] Hx. rewrite Forall_forall in Hf. destruct (Hf _ Hx) as [Hc Ty]. destruct Hc as (c & Hc & P & T).
    pose proof (related_leaf_ok definer t (fk, pk) c Hd Hc P T) as E. eexists. split; [exact E|].
    eapply (pair_converse _ target _ _ (fk, pk)); eauto. }
  assert (Er : map (fun '(fk, pk) => match optional fk.2, member d fk.1 with
       | true, FNone => Ret (pred_bool false)
       | _, fkField => equals (default_resolve [target]) (column_ptr pk) fkField [] end) pairs = map Ret (map (ref_leaf d) pairs)).
  { rewrite map_map. apply map_ext_in. intros [fk pk] Hx%list_elem_of_In. unfold ref_leaf. cbn [fst snd]. pose proof (In2 _ Hx) as Hp.
    destruct (optional fk.2); [destruct (member d fk.1)|]; by first [apply equals_main|reflexivity]. }
  destruct (outcome_map_ret (related_leaf definer t) pairs) as [qs Eq].
  { apply Forall_forall. intros x Hx. destruct (Ok x Hx) as (p & Hp & _). eauto. }
  destruct (andWhere_all_selects (map (ref_leaf d) pairs) (SelectQuery_default [target])) as (q & Q & Sq).
  destruct (andWhere_all_selects qs (SelectQuery_default [definer])) as (q' & Q' & Sq').
  exists q, q'. split; [unfold ref; fold pairs; by rewrite Er|].
  assert (Er' : map (fun '(fk, pk) => equals (default_resolve [definer]) {| ptr_model := 0; ptr_field := fk.1; ptr_type := fk.2 |}
       (member t (fieldPtr pk)) []) pairs = map Ret qs) by (rewrite <- Eq; apply map_ext; by intros [fk pk]).
  split; [unfold related; fold pairs; by rewrite Er'|].
  assert (Iff : Forall (holds (row_env "a" target t)) (map (ref_leaf d) pairs) <-> Forall (holds (row_env "a" definer d)) qs).
  { eapply (Forall_pointwise (fun x => Ret (ref_leaf d x)) (related_leaf definer t) pairs); [by rewrite map_map|done|].
    apply Forall_forall. intros x Hx p p' <-%Ret_inj Hp'. destruct (Ok x Hx) as (p'' & Hp & H & _). by replace p' with p'' by congruence. }
  split; [rewrite Sq, Sq', Iff; done|].
  intros Null row. apply Exists_exists in Null as ([k ty] & Hk & O & M). cbn in O, M. apply list_elem_of_lookup in Hk as [i Hi].
  destruct (lookup_lt_is_Some_2 (pkColumns target) i) as [pk Hpk]; [rewrite <- Hl; by eapply lookup_lt_Some|].
  assert (Hx : ((k, ty), pk) ∈ pairs). { apply list_elem_of_lookup. exists i. unfold pairs, getFieldPtrPairs. by rewrite lookup_zip_with, Hi, Hpk. }
  rewrite Sq, Sq'. split; intros [_ F]; rewrite Forall_forall in F.
  - apply (holds_false row). replace (pred_bool false) with (ref_leaf d ((k, ty), pk)) by (unfold ref_leaf; cbn; by rewrite O, M).
    apply F. by apply list_elem_of_fmap_2.
  - destruct (Ok _ Hx) as (p & Hp & _ & N). apply (N O M). apply F.
    assert (Hin : Ret p ∈ map Ret qs) by (rewrite <- Eq, <- Hp; by apply list_elem_of_fmap_2).
    apply list_elem_of_fmap in Hin as (p' & E & ?). apply Ret_inj in E as ->. done.
Qed.
End Meaning.

(** ** Saving *)
Section Saving.
Context {S : Type} (db : option (Database S)) (names : FieldType -> bytes) (m : Model) (t : option (Database S)).

Lemma destroy_resets s o n s' o' : destroy m db names t (s, o) = (Ret (inl n), (s', o')) -> persisted_ o' = false.
Proof.
  unfold destroy. intros (a & s1 & _ & H)%mbind_inv. apply mbind_inv in H as (p & s2 & _ & H).
  apply mbind_inv in H as ([w|e] & s3 & _ & H); [|done]. apply mbind_inv in H as (r & s4 & _ & H).
  destruct s4 as [s4 o4]. cbv in H. injection H as _ _ <-. done.
Qed.

(** Saving is insert the first time and update from then on: the INSERT of a new
    object asks for the stored row, and when the database returns it the object becomes
    what was stored, generated columns included, and counts as persisted, so that the
    next save is an UPDATE; a database error or an exception leaves the object as it
    was and still new; destroying an object makes it new again. *)
Theorem save_protocol s o sql ps : model_ok m -> persisted_ o = false -> buildInsertSqlAndSetParams m [o] true = Ret (sql, ps) ->
  (forall r s1 stored, object_of m stored -> rows r = [row_of m stored] -> dispatch db t sql ps s = (Ret (inl r), s1) ->
     save m db names t (s, o) = (Ret (inl (affectedRows r)), (s1, setPersisted stored)) /\
     forall s2, save m db names t (s2, setPersisted stored) = update m db names t (s2, setPersisted stored)) /\
  (forall e s1, dispatch db t sql ps s = (Ret (inr e), s1) -> save m db names t (s, o) = (Ret (inr e), (s1, o))) /\
  (forall e s1, dispatch db t sql ps s = (Throw e, s1) -> save m db names t (s, o) = (Throw e, (s1, o))) /\
  (forall s0 o0 n s1 o1, destroy m db names t (s0, o0) = (Ret (inl n), (s1, o1)) ->
     save m db names t (s1, o1) = insert m db names t (s1, o1)).
Proof.
  intros Hm Hp Hb.
  assert (Sv : save m db names t (s, o) = (result ← on_db (run db t (Ret (sql, ps)) (written names m)); take_result setPersisted result) (s, o)).
  { unfold save, insert, self, gets. cbv [mbind M_bind snd]. rewrite Hp. unfold insert_execute. by rewrite Hb. }
  split_and!.
  - intros r s1 stored Ho Hr Hd. split.
    + rewrite Sv. unfold on_db, run, lift. cbv [mbind M_bind]. rewrite Hd. unfold written, hydrateModel. rewrite Hr.
      cbn [hydrate_rows]. rewrite hydrateModelRow_row_of by done. done.
    + intros s2. done.
  - intros e s1 Hd. rewrite Sv. unfold on_db, run, lift. cbv [mbind M_bind]. by rewrite Hd.
  - intros e s1 Hd. rewrite Sv. unfold on_db, run, lift. cbv [mbind M_bind]. by rewrite Hd.
  - intros s0 o0 n s1 o1 H%destroy_resets. unfold save, self, gets. cbv [mbind M_bind snd]. by rewrite H.
Qed.
End Saving.

(** ** Examples *)
Module RecordWitnesses.
Import ModelWitnesses PredicateWitnesses SelectWitnesses.

Definition value_eq (v w : DbValue) : tri :=
  match v, w with VNull, _ | _, VNull => Unknown | _, _ => if decide (v = w) then Yes else No end.

Lemma value_eq_comm v w : value_eq v w = value_eq w v.
Proof. unfold value_eq. destruct (decide (v = w)) as [->|N]; [by rewrite decide_True|]. rewrite (decide_False (P := w = v)) by done. by destruct v, w. Qed.

Lemma value_eq_refl v : v <> VNull -> value_eq v v = Yes.
Proof. intros H. unfold value_eq. rewrite decide_True by done. by destruct v. Qed.

Lemma value_eq_null v : value_eq VNull v <> Yes.
Proof. by destruct v. Qed.

Definition author : FkRelation := {| fkFieldPtrs := [(1, int64)]; relatedName := []; fk_target := 0 |}.
Definition first_post : Object := {| members := list_to_map [(0, FInt 1); (1, FInt 7); (2, FText "Hello")]; persisted_ := true |}.

Lemma posts_ok : model_ok posts.
Proof. split; cbn; repeat constructor; set_solver. Qed.

Lemma author_ok : fk_ok posts users author.
Proof.
  split; [done|]. constructor; [|constructor]. split; [|done].
  exists (ModelWitnesses.column 1 int64 "author" false GENERATE_OFF UPDATE_OFF). split; [|done]. right. left.
Qed.

(** Ann is the author of the post. *)
Lemma ref_related_witness :
  exists q q', ref users author first_post = Ret q /\ related posts users author ann = Ret q' /\
    selects value_eq q (row_env "a" users ann) /\ selects value_eq q' (row_env "a" posts first_post).
Proof.
  destruct (ref_related value_eq value_eq_comm value_eq_null posts users author first_post ann posts_ok users_ok author_ok)
    as (q & q' & H1 & H2 & H3 & _).
  exists q, q'. assert (Sel : selects value_eq q (row_env "a" users ann)).
  { vm_compute in H1. injection H1 as <-. vm_compute. reflexivity. }
  split_and!; [done..|]. by apply H3.
Defined.

Definition silent : Database unit := fun _ _ s => (Throw (OrmException []), s).

(** The condition selects the row of Ann, and not another one. *)
Lemma own_row_witness :
  exists p, holds value_eq (row_env "a" users ann) p /\ ~ holds value_eq (row_env "a" users WriteWitnesses.bob) p /\
    destroy users (Some silent) (fun _ => []) None (tt, ann) =
      (result ← on_db (delete_execute (Some silent) (fun _ => []) users (Some p) None true);
       match result with inr e => mret (inr e) | inl _ => r ← take_result id result; _ ← set_self resetPersisted; mret r end) (tt, ann).
Proof.
  destruct (own_row value_eq (Some silent) (fun _ => []) users ann None tt users_ok) as (p & H1 & _ & H2 & _).
  exists p. split_and!; [apply H1; repeat constructor| |exact H2]. intros H. apply H1 in H.
  assert (Hc : ModelWitnesses.column 0 int64 "id" true DB_INCREMENT UPDATE_OFF ∈ pkColumns users) by left.
  unfold same_key in H. rewrite Forall_forall in H. specialize (H _ Hc). vm_compute in H. done.
Defined.

(** A database that stores what is inserted. *)
Definition store : Database (list DbValue) := fun sql params s =>
  (Ret (inl {| affectedRows := 1; rows := [row_of users ann]; result_columns := ∅ |}), s ++ params).
Definition new_ann : Object := {| members := <[0 := FInt 0]> (members ann); persisted_ := false |}.

Lemma save_protocol_witness :
  exists sql ps, buildInsertSqlAndSetParams users [new_ann] true = Ret (sql, ps) /\
    save users (Some store) (fun _ => []) None ([], new_ann) = (Ret (inl 1%Z), (ps, setPersisted ann)).
Proof.
  assert (E : exists sql ps, buildInsertSqlAndSetParams users [new_ann] true = Ret (sql, ps)) by (eexists _, _; vm_compute; reflexivity).
  destruct E as (sql & ps & E). exists sql, ps. split; [done|].
  destruct (save_protocol (Some store) (fun _ => []) users None [] new_ann sql ps users_ok eq_refl E) as (H & _).
  exact (proj1 (H {| affectedRows := 1; rows := [row_of users ann]; result_columns := ∅ |} ps ann ann_ok eq_refl eq_refl)).
Defined.
End RecordWitnesses.
