(* ===== verification/Repository.v ===== *)
(** Records of one table ([orm/ActiveRecord.hpp] over a database): find, save, destroy
    and reload as operations on a map from primary keys to records, for every database
    that runs the statements on the rows that meet their conditions. *)
From S2P Require Import Prelude Bytes Effects DbValue Model Predicate Conditions SelectQuery WriteQueries ActiveRecord.

#[local] Arguments list_ascii_of_string : simpl never.

(** ** Primary keys *)

(** A key is bound as these values. *)
Definition key_values (m : Model) (vals : list Field) : list DbValue :=
  zip_with (fun c v => toDbValueImpl (raw (fieldType c)) v) (pkColumns m) vals.
Definition key_of (m : Model) (o : Object) : list DbValue := key_values m (getPrimaryKeyValues m o).

(** Keys are whole numbers or texts, and not null. *)
Definition key_type (t : CppType) : bool := negb (optional t) && match raw t with TInt _ _ | TText => true | _ => false end.
Definition keys_plain (m : Model) : Prop := Forall (fun c => key_type (fieldType c) = true) (pkColumns m) /\ pkColumns m <> [].

Definition key_typed (m : Model) (vals : list Field) : Prop := Forall2 (fun c v => has_type (fieldType c) v) (pkColumns m) vals.

Section Keys.
Context {CD : Conditions} {CL : ConditionLaws} (m : Model) (Hm : model_ok m) (Hk : keys_plain m).

Lemma key_value t v : key_type t = true -> has_type t v ->
  (exists n, toDbValueImpl (raw t) v = VInt n) \/ (exists s, toDbValueImpl (raw t) v = VText s).
Proof. destruct t as [[s b| | | | |] []], v; try done; cbn; eauto. Qed.

Lemma equal_keys t v w : key_type t = true -> has_type t v -> has_type t w ->
  compared EQUALS (toDbValueImpl (raw t) v) (toDbValueImpl (raw t) w) = tri_of (bool_decide (toDbValueImpl (raw t) v = toDbValueImpl (raw t) w)).
Proof.
  destruct t as [[s b| | | | |] []], v as [n| | |x| | |], w as [n'| | |y| | |]; try done; intros _ _ _; unfold compared; cbn [raw toDbValueImpl].
  - rewrite compare_int. f_equal. cbn [accepts]. destruct (Z.compare_spec (to_int64 n) (to_int64 n')) as [->|L|L].
    + by rewrite bool_decide_true.
    + rewrite bool_decide_false; [done|]. intros [= E]. lia.
    + rewrite bool_decide_false; [done|]. intros [= E]. lia.
  - rewrite compare_text. f_equal. destruct (text_compare x y) eqn:E; cbn [accepts].
    + apply text_compare_eq in E as ->. by rewrite bool_decide_true.
    + rewrite bool_decide_false; [done|]. intros [= ->]. by rewrite (proj2 (text_compare_eq y y) eq_refl) in E.
    + rewrite bool_decide_false; [done|]. intros [= ->]. by rewrite (proj2 (text_compare_eq y y) eq_refl) in E.
Qed.

Lemma and_fold_meets ps : exists p, and_fold (map Ret ps) = Ret p /\ forall row, meets row p = forallb (meets row) ps.
Proof.
  induction ps as [|p ps (q & E & H)]; [by exists (pred_bool true)|]. destruct ps as [|p' ps].
  - exists p. split; [done|]. intros row. cbn. by rewrite andb_true_r.
  - exists (pred_and p q). change (map Ret (p :: p' :: ps)) with (Ret p :: map Ret (p' :: ps)).
    change (and_fold (Ret p :: map Ret (p' :: ps))) with (q ← and_fold (map Ret (p' :: ps)); Ret (pred_and p q)).
    rewrite E. split; [done|]. intros row. by rewrite meets_and, H.
Qed.

Definition key_leaf (c : Column) (v : Field) : BasePredicate := pred_column ("a." ++ dbName c) EQUALS [toDbValueImpl (raw (fieldType c)) v].

Lemma pk_leaves cols vals : cols ⊆ model_columns m ->
  zip_with (fun c v => equals (default_resolve [m]) (column_ptr c) v []) cols vals = map Ret (zip_with key_leaf cols vals).
Proof.
  revert vals. induction cols as [|c cols IH]; intros [|v vals] Hs; try done. cbn [zip_with map]. rewrite equals_main; [|done|apply Hs; left].
  f_equal. apply IH. intros x Hx. apply Hs. by right.
Qed.

Lemma leaves_meet o cols vals : cols ⊆ model_columns m -> Forall (fun c => key_type (fieldType c) = true) cols ->
  Forall (fun c => has_type (fieldType c) (member o (fieldPtr c))) cols -> Forall2 (fun c v => has_type (fieldType c) v) cols vals ->
  forallb (meets (row_env "a" m o)) (zip_with key_leaf cols vals) =
  bool_decide (zip_with (fun c v => toDbValueImpl (raw (fieldType c)) v) cols (map (fun c => member o (fieldPtr c)) cols) =
    zip_with (fun c v => toDbValueImpl (raw (fieldType c)) v) cols vals).
Proof.
  intros Hs Ht Ho Hv. induction Hv as [|c v cols vals Hcv Hv IH]; [done|].
  apply Forall_cons in Ht as [Htc Ht]. apply Forall_cons in Ho as [Hoc Ho]. cbn [zip_with map forallb].
  rewrite IH by (try done; intros x Hx; apply Hs; by right).
  rewrite meets_leaf by done. unfold leaf_meaning, key_leaf. cbn [lhsFunction rhsFunction columnA op Predicate.values pred_column call_value].
  change ("a." ++ dbName c) with ("a" ++ "." ++ dbName c). rewrite (row_env_at "a" m o c Hm) by (apply Hs; left).
  replace (toDbValue (fieldType c) (member o (fieldPtr c))) with (toDbValueImpl (raw (fieldType c)) (member o (fieldPtr c))).
  2:{ unfold toDbValue. unfold key_type in Htc. destruct (optional (fieldType c)); done. }
  rewrite equal_keys by done.
  set (x := toDbValueImpl (raw (fieldType c)) (member o (fieldPtr c))). set (y := toDbValueImpl (raw (fieldType c)) v).
  destruct (decide (x = y)) as [E|N].
  - rewrite (bool_decide_true (x = y)) by done. cbn [tri_of]. rewrite E. cbn [andb]. apply bool_decide_ext. split; [by intros ->|by intros [= ->]].
  - rewrite (bool_decide_false (x = y)) by done. cbn [tri_of andb]. symmetry. apply bool_decide_false. by intros [= ? ?].
Qed.

Lemma pk_subset : pkColumns m ⊆ model_columns m.
Proof. intros c. apply pk_in. Qed.

Lemma pk_has_types o : object_of m o -> Forall (fun c => has_type (fieldType c) (member o (fieldPtr c))) (pkColumns m).
Proof.
  intros Ho. apply Forall_forall. intros c Hc%pk_in. pose proof (oo_types m o Ho) as T. rewrite Forall_forall in T. by apply (T c Hc).
Qed.

(** The condition on a key is met by the row with that key. *)
Lemma pk_meets vals : key_typed m vals -> exists p, buildPkPredicate m vals = Ret p /\
  forall o, object_of m o -> meets (row_env "a" m o) p = bool_decide (key_of m o = key_values m vals).
Proof.
  intros Hv. unfold buildPkPredicate. rewrite pk_leaves by apply pk_subset. destruct (and_fold_meets (zip_with key_leaf (pkColumns m) vals)) as (p & E & H).
  exists p. split; [done|]. intros o Ho. rewrite H, leaves_meet; [|apply pk_subset|apply Hk|by apply pk_has_types|done].
  unfold key_of, getPrimaryKeyValues, pkFieldPtrs, key_values. by rewrite map_map.
Qed.

Lemma own_key_typed o : object_of m o -> key_typed m (getPrimaryKeyValues m o).
Proof.
  intros Ho%pk_has_types. unfold key_typed, getPrimaryKeyValues, pkFieldPtrs. rewrite map_map.
  induction Ho; constructor; done.
Qed.
End Keys.

(** ** The statements about a key exist *)
Section KeyStatements.
Context (m : Model) (Hm : model_ok m) (Hc : columns_ok m).
#[local] Abbreviation lit := (fun _ : DbValue => [] : bytes).

Lemma key_leaf_ok c v : c ∈ model_columns m -> pred_ok lit (key_leaf c v).
Proof.
  intros H. pose proof (co_names m Hc) as N. rewrite Forall_forall in N. constructor; [|apply empty_no_mark..|done].
  apply no_mark_app. split; [by apply literal_no_mark|by apply N].
Qed.

Lemma and_fold_ok ps p : Forall (pred_ok lit) ps -> and_fold (map Ret ps) = Ret p -> pred_ok lit p.
Proof.
  revert p. induction ps as [|q ps IH]; intros p Hp; [intros [= <-]; constructor|].
  apply Forall_cons in Hp as [Hq Hp]. destruct ps as [|q' ps]; [by intros [= <-]|].
  change (and_fold (map Ret (q :: q' :: ps))) with (r ← and_fold (map Ret (q' :: ps)); Ret (pred_and q r)).
  intros (r & Er & [= <-])%outcome_bind_ret. apply and_ok; [done|]. by apply IH.
Qed.

Lemma pk_ok vals p : buildPkPredicate m vals = Ret p -> pred_ok lit p.
Proof.
  unfold buildPkPredicate. rewrite (pk_leaves m Hm) by apply pk_subset. apply and_fold_ok.
  pose proof (pk_subset m) as Hs. revert vals Hs. induction (pkColumns m) as [|c cols IH]; intros [|v vals] Hs; try constructor.
  - apply key_leaf_ok, Hs. left.
  - apply IH. intros x Hx. apply Hs. by right.
Qed.

Lemma select_exists p : pred_ok lit p -> exists sql ps,
  buildSelectSqlAndSetParams [m] 0 (Some 1%Z) (select_where p (SelectQuery_default [m])) = Ret (sql, ps).
Proof.
  intros Hp. edestruct (select_placed [m] lit (select_where p (SelectQuery_default [m]))) as (sql & ps & E & _); [|by exists sql, ps].
  constructor.
  - apply (setting_step_ok lit (Settings_new [m] None)); [apply new_ok; [apply Hc|done]|by constructor].
  - intros _. split; [done|apply Hc].
Qed.

Lemma insert_exists o : exists sql ps, buildInsertSqlAndSetParams m [o] true = Ret (sql, ps).
Proof. destruct (insert_placed lit m [o] true Hc) as (sql & E & _). by exists sql, (concat (map (row_values m) [o])). Qed.

Lemma update_exists o p : pred_ok lit p -> exists sql ps, buildUpdateSqlAndSetParams m (update_set_where p UpdateQuery_new) o true = Ret (sql, ps).
Proof.
  intros Hp. destruct (update_statement_placed lit m (update_set_where p UpdateQuery_new) p o true Hc Hp eq_refl) as (sql & ps & E & _). by exists sql, ps.
Qed.

Lemma delete_exists p : pred_ok lit p -> exists sql ps, buildDeleteSqlAndSetParams m (Some p) true = Ret (sql, ps).
Proof. intros Hp. destruct (delete_placed lit m p true Hc Hp) as (sql & ps & E & _). by exists sql, ps. Qed.
End KeyStatements.

(** ** A database with the table of a model

    Statements run on the rows that meet their condition, or fail and change nothing;
    primary keys stay unique.  Only conditions on a whole key are asked. *)
Section Tables.
Context (m : Model).

(** The condition on a key. *)
Definition key_condition (p : BasePredicate) (k : list DbValue) : Prop :=
  exists vals, key_typed m vals /\ key_values m vals = k /\ buildPkPredicate m vals = Ret p.

(** A row that an INSERT of [o] may leave: what the statement does not give is the database's. *)
Definition inserted (o stored : Object) : Prop :=
  object_of m stored /\
  Forall (fun c => insert_skipped (autoGenerateMode c) = false ->
    toDbValue (fieldType c) (member stored (fieldPtr c)) = written_value o c) (model_columns m).

(** A row that an UPDATE with the members of [o] may make of [old]. *)
Definition updated (o old new : Object) : Prop :=
  object_of m new /\ key_of m new = key_of m old /\
  Forall (fun c =>
    if is_updated [] c then toDbValue (fieldType c) (member new (fieldPtr c)) = updated_value o c
    else autoUpdateMode c <> UPDATE_DB_NOW -> member new (fieldPtr c) = member old (fieldPtr c)) (model_columns m).

Class Table {CD : Conditions} {S : Type} (db : Database S) := {
  contents : S -> list Object;
  contents_ok s : Forall (object_of m) (contents s) /\ NoDup (map (key_of m) (contents s));
  run_select s p k sql ps : key_condition p k ->
    buildSelectSqlAndSetParams [m] 0 (Some 1%Z) (select_where p (SelectQuery_default [m])) = Ret (sql, ps) ->
    exists r s', db sql ps s = (Ret (inl r), s') /\ contents s' = contents s /\
      rows r = map (row_of m) (List.filter (fun x => meets (row_env "a" m x) p) (contents s));
  run_insert s o sql ps : buildInsertSqlAndSetParams m [o] true = Ret (sql, ps) ->
    (exists r s' stored, db sql ps s = (Ret (inl r), s') /\ inserted o stored /\ contents s' ≡ₚ stored :: contents s /\
       rows r = [row_of m stored] /\ affectedRows r = 1%Z) \/
    (exists e s', db sql ps s = (Ret (inr e), s') /\ contents s' = contents s);
  run_update s o p k sql ps : key_condition p k ->
    buildUpdateSqlAndSetParams m (update_set_where p UpdateQuery_new) o true = Ret (sql, ps) ->
    (exists r s', db sql ps s = (Ret (inl r), s') /\
       Forall2 (fun x y => if meets (row_env "a" m x) p then updated o x y else y = x) (contents s) (contents s') /\
       rows r = map (row_of m) (List.filter (fun x => meets (row_env "a" m x) p) (contents s')) /\
       affectedRows r = Z.of_nat (length (rows r))) \/
    (exists e s', db sql ps s = (Ret (inr e), s') /\ contents s' = contents s);
  run_delete s p k sql ps : key_condition p k ->
    buildDeleteSqlAndSetParams m (Some p) true = Ret (sql, ps) ->
    (exists r s', db sql ps s = (Ret (inl r), s') /\
       contents s' = List.filter (fun x => negb (meets (row_env "a" m x) p)) (contents s) /\
       rows r = map (row_of m) (List.filter (fun x => meets (row_env "a" m x) p) (contents s)) /\
       affectedRows r = Z.of_nat (length (rows r))) \/
    (exists e s', db sql ps s = (Ret (inr e), s') /\ contents s' = contents s);
}.
End Tables.

(** ** The map from keys to records *)
Section Repository.
Context {CD : Conditions} {CL : ConditionLaws} (m : Model) (Hm : model_ok m) (Hk : keys_plain m).
Context {S : Type} (db : Database S) {T : Table m db} (names : FieldType -> bytes).
#[local] Abbreviation Db := (Some db).

Definition has_key (k : list DbValue) (x : Object) : bool := bool_decide (key_of m x = k).
Definition lookup_key (k : list DbValue) (l : list Object) : option Object := List.find (has_key k) l.
Definition record (s : S) (k : list DbValue) : option Object := lookup_key k (contents m s).

(** With unique keys, the rows with a key are the record. *)
Lemma filter_key k l : NoDup (map (key_of m) l) ->
  List.filter (has_key k) l = match lookup_key k l with Some o => [o] | None => [] end.
Proof.
  induction l as [|x l IH]; [done|]. cbn [map]. intros [Hx Nd]%NoDup_cons. unfold lookup_key in *. cbn [List.filter List.find].
  destruct (has_key k x) eqn:E; [|by apply IH]. apply bool_decide_eq_true in E. f_equal. rewrite IH by done.
  destruct (List.find (has_key k) l) as [o|] eqn:F; [|done]. exfalso. apply find_some in F as [Ho F].
  apply bool_decide_eq_true in F. apply Hx. rewrite E, <- F. apply list_elem_of_fmap_2. by apply list_elem_of_In.
Qed.

Lemma lookup_key_spec k l o : NoDup (map (key_of m) l) -> lookup_key k l = Some o <-> o ∈ l /\ key_of m o = k.
Proof.
  intros Nd. split.
  - intros [H E]%find_some. split; [by apply list_elem_of_In|by apply bool_decide_eq_true in E].
  - intros [H E]. unfold lookup_key. pose proof (filter_key k l Nd) as F. unfold lookup_key in F.
    assert (o ∈ List.filter (has_key k) l) as Ho.
    { apply list_elem_of_In, filter_In. split; [by apply list_elem_of_In|by apply bool_decide_eq_true]. }
    rewrite F in Ho. destruct (List.find _ _) as [x|]; [by apply list_elem_of_singleton in Ho as ->|by apply elem_of_nil in Ho].
Qed.

Lemma record_object s k o : record s k = Some o -> object_of m o /\ key_of m o = k.
Proof.
  destruct (contents_ok m s) as [Ho Nd]. intros [H E]%lookup_key_spec; [|done]. rewrite Forall_forall in Ho. auto.
Qed.

(** The rows that meet the condition on a key are the record. *)
Lemma condition_rows s p k : key_condition m p k ->
  List.filter (fun x => meets (row_env "a" m x) p) (contents m s) = match record s k with Some o => [o] | None => [] end.
Proof.
  intros (vals & Hv & <- & E). destruct (pk_meets m Hm Hk vals Hv) as (p' & E' & H). rewrite E' in E. injection E as ->.
  destruct (contents_ok m s) as [Ho Nd]. unfold record. rewrite <- filter_key by done.
  rewrite Forall_forall in Ho. clear Nd. revert Ho. generalize (contents m s) as l. induction l as [|x l IH]; intros Ho; [done|].
  cbn [List.filter]. rewrite H by (apply Ho; left). unfold has_key at 1. rewrite IH by (intros y Hy; apply Ho; by right). done.
Qed.

Context (Hc : columns_ok m).

Lemma key_condition_of vals : key_typed m vals ->
  exists p, buildPkPredicate m vals = Ret p /\ key_condition m p (key_values m vals) /\ pred_ok (fun _ => []) p.
Proof.
  intros Hv. destruct (pk_meets m Hm Hk vals Hv) as (p & E & _). exists p. split; [done|]. split; [by exists vals|].
  by eapply pk_ok.
Qed.

(** A statement that is run, with what is made of its result. *)
Lemma run_some {A} statement sql ps (use : QueryResult -> outcome A) r a s s' :
  statement = Ret (sql, ps) -> db sql ps s = (Ret (inl r), s') -> use r = Ret a -> run Db None statement use s = (Ret (inl a), s').
Proof. intros -> D U. unfold run, lift. cbv [mbind M_bind]. cbn [dispatch]. by rewrite D, U. Qed.

Lemma run_error {A} statement sql ps (use : QueryResult -> outcome A) e s s' :
  statement = Ret (sql, ps) -> db sql ps s = (Ret (inr e), s') -> run Db None statement use s = (Ret (inr e), s').
Proof. intros -> D. unfold run, lift. cbv [mbind M_bind]. cbn [dispatch]. by rewrite D. Qed.

Lemma hydrated l : Forall (object_of m) l -> hydrate_rows (hydrateModelRow names m) (map (row_of m) l) = Ret (map setPersisted l).
Proof. induction 1 as [|o l Ho _ IH]; [done|]. cbn [map hydrate_rows]. rewrite hydrateModelRow_row_of by done. cbn [mbind outcome_bind]. by rewrite IH. Qed.

Lemma written_rows r l : Forall (object_of m) l -> rows r = map (row_of m) l -> written names m r = Ret (affectedRows r, map setPersisted l).
Proof. intros Hl E. unfold written, hydrateModel. by rewrite E, hydrated. Qed.

Lemma find_record s vals : key_typed m vals ->
  exists s', find m Db names vals None s = (Ret (inl (setPersisted <$> record s (key_values m vals))), s') /\ contents m s' = contents m s.
Proof.
  intros Hv. destruct (key_condition_of vals Hv) as (p & E & C & Ok). destruct (select_exists m Hc p Ok) as (sql & ps & B).
  destruct (run_select m s p _ sql ps C B) as (r & s' & D & K & R). exists s'. split; [|done].
  assert (find m Db names vals None s = first Db names [m] (select_where p (SelectQuery_default [m])) None s) as ->.
  { unfold find, lift. cbv [mbind M_bind]. by rewrite E. }
  unfold first. eapply run_some; [exact B|exact D|]. rewrite R, (condition_rows s p _ C).
  destruct (record s (key_values m vals)) as [o|] eqn:Ro; [|done]. apply record_object in Ro as [Ho _]. cbn [map].
  change (main_model [m]) with m. by rewrite hydrateModelRow_row_of.
Qed.

(** Other records than [k]'s stay. *)
Definition others_stay (k : list DbValue) (s s' : S) : Prop := forall k', k' <> k -> record s' k' = record s k'.

Lemma lookup_perm k l l' : NoDup (map (key_of m) l) -> l ≡ₚ l' -> lookup_key k l = lookup_key k l'.
Proof.
  intros Nd P. assert (NoDup (map (key_of m) l')) as Nd' by (by rewrite <- P).
  destruct (lookup_key k l) as [o|] eqn:E.
  - apply lookup_key_spec in E as [H E]; [|done]. symmetry. apply lookup_key_spec; [done|]. by rewrite <- P.
  - destruct (lookup_key k l') as [o|] eqn:E'; [|done]. apply lookup_key_spec in E' as [H' E']; [|done]. rewrite <- P in H'.
    rewrite (proj2 (lookup_key_spec k l o Nd)) in E by done. done.
Qed.

Lemma save_new s o : persisted_ o = false ->
  (exists s' stored, save m Db names None (s, o) = (Ret (inl 1%Z), (s', setPersisted stored)) /\ inserted m o stored /\
     record s (key_of m stored) = None /\ record s' (key_of m stored) = Some stored /\ others_stay (key_of m stored) s s') \/
  (exists e s', save m Db names None (s, o) = (Ret (inr e), (s', o)) /\ contents m s' = contents m s).
Proof.
  intros Hp. destruct (insert_exists m Hc o) as (sql & ps & B).
  assert (save m Db names None (s, o) =
    (result ← on_db (run Db None (buildInsertSqlAndSetParams m [o] true) (written names m)); take_result setPersisted result) (s, o)) as ->.
  { unfold save, insert, self, gets. cbv [mbind M_bind snd]. by rewrite Hp. }
  destruct (run_insert m s o sql ps B) as [(r & s' & stored & D & I & P & R & A)|(e & s' & D & K)].
  - left. exists s', stored. split.
    + unfold on_db. cbv [mbind M_bind]. rewrite (run_some _ sql ps (written names m) r _ s s' B D (written_rows r [stored] ltac:(constructor; [apply I|done]) R)).
      by rewrite A.
    + split; [done|]. destruct (contents_ok m s') as [_ Nd']. assert (Nd := Nd'). rewrite P in Nd. cbn [map] in Nd. apply NoDup_cons in Nd as [Hx Nd].
      unfold others_stay, record.
      assert (forall k, lookup_key k (contents m s') = lookup_key k (stored :: contents m s)) as L by (intros k; by apply lookup_perm).
      split; [|split].
      * destruct (lookup_key _ (contents m s)) as [x|] eqn:F; [|done]. exfalso. apply lookup_key_spec in F as [F E]; [|done]. apply Hx.
        rewrite <- E. by apply list_elem_of_fmap_2.
      * rewrite L. unfold lookup_key. cbn [List.find]. unfold has_key. by rewrite bool_decide_true.
      * intros k Nk. rewrite L. unfold lookup_key. cbn [List.find]. unfold has_key at 1. by rewrite bool_decide_false.
  - right. exists e, s'. split; [|done]. unfold on_db. cbv [mbind M_bind]. by rewrite (run_error _ sql ps (written names m) e s s' B D).
Qed.

(** An object's key is its own. *)
Lemma own_condition o : object_of m o -> exists p,
  buildPkPredicate m (getPrimaryKeyValues m o) = Ret p /\ key_condition m p (key_of m o) /\ pred_ok (fun _ => []) p.
Proof. intros Ho. apply key_condition_of. by apply own_key_typed. Qed.

(** Rows of which one is replaced. *)
Lemma updated_rows (f : Object -> bool) (R : Object -> Object -> Prop) k l l' :
  (forall x y, R x y -> key_of m y = key_of m x) -> (forall x, x ∈ l -> f x = has_key k x) -> NoDup (map (key_of m) l) ->
  Forall2 (fun x y => if f x then R x y else y = x) l l' ->
  map (key_of m) l' = map (key_of m) l /\ (forall k', k' <> k -> lookup_key k' l' = lookup_key k' l) /\
  match lookup_key k l with
  | Some old => exists new, R old new /\ lookup_key k l' = Some new
  | None => lookup_key k l' = None
  end.
Proof.
  intros HR Hf Nd F. induction F as [|x y l l' Hxy F IH]; [done|]. cbn [map] in Nd. apply NoDup_cons in Nd as [Hx Nd].
  destruct IH as (E & O & K); [intros z Hz; apply Hf; by right|done|]. rewrite (Hf x) in Hxy by left.
  unfold lookup_key in *. cbn [map List.find]. destruct (has_key k x) eqn:Hkx.
  - pose proof (HR _ _ Hxy) as Exy. rewrite E, Exy. split; [done|]. apply bool_decide_eq_true in Hkx. split.
    + intros k' N. unfold has_key at 1 3. rewrite Exy, Hkx, !bool_decide_false by done. by apply O.
    + exists y. split; [done|]. unfold has_key at 1. by rewrite Exy, Hkx, bool_decide_true.
  - subst y. rewrite E, Hkx. split; [done|]. split; [|done]. intros k' N. destruct (has_key k' x); [done|by apply O].
Qed.

Lemma condition_is_key s p k x : key_condition m p k -> x ∈ contents m s -> meets (row_env "a" m x) p = has_key k x.
Proof.
  intros (vals & Hv & <- & E) Hx. destruct (pk_meets m Hm Hk vals Hv) as (p' & E' & H). rewrite E' in E. injection E as ->.
  destruct (contents_ok m s) as [Ho _]. rewrite Forall_forall in Ho. apply H. by apply Ho.
Qed.

Lemma save_again s o : persisted_ o = true -> object_of m o ->
  (exists s', contents m s' = contents m s /\ exists e, save m Db names None (s, o) = (Ret (inr e), (s', o))) \/
  (exists s', others_stay (key_of m o) s s' /\
     match record s (key_of m o) with
     | Some old => exists new, updated m o old new /\ record s' (key_of m o) = Some new /\
         save m Db names None (s, o) = (Ret (inl 1%Z), (s', setPersisted new))
     | None => record s' (key_of m o) = None /\ save m Db names None (s, o) = (Ret (inl 0%Z), (s', o))
     end).
Proof.
  intros Hp Ho. destruct (own_condition o Ho) as (p & E & C & Ok). destruct (update_exists m Hc o p Ok) as (sql & ps & B).
  assert (save m Db names None (s, o) =
    (result ← on_db (run Db None (buildUpdateSqlAndSetParams m (update_set_where p UpdateQuery_new) o true) (written names m)); take_result id result) (s, o)) as ->.
  { unfold save, update, self, gets, lift. cbv [mbind M_bind snd]. rewrite Hp. by rewrite E. }
  destruct (run_update m s o p _ sql ps C B) as [(r & s' & D & F & R & A)|(e & s' & D & K)].
  2:{ left. exists s'. split; [done|]. exists e. unfold on_db. cbv [mbind M_bind]. by rewrite (run_error _ sql ps (written names m) e s s' B D). }
  right. exists s'. destruct (contents_ok m s) as [_ Nd].
  destruct (updated_rows _ _ (key_of m o) _ _ (fun x y H => proj1 (proj2 H)) (fun x Hx => condition_is_key s p _ x C Hx) Nd F) as (_ & O & K).
  split; [exact O|]. rewrite (condition_rows s' p _ C) in R. change (lookup_key (key_of m o) (contents m s)) with (record s (key_of m o)) in K.
  destruct (record s (key_of m o)) as [old|].
  - destruct K as (new & U & K). change (record s' (key_of m o) = Some new) in K. exists new. split; [done|]. split; [done|]. rewrite K in R.
    assert (object_of m new) as Hn by apply U. unfold on_db. cbv [mbind M_bind].
    rewrite (run_some _ sql ps (written names m) r _ s s' B D (written_rows r [new] ltac:(by constructor) R)). by rewrite A, R.
  - change (record s' (key_of m o) = None) in K. split; [done|]. rewrite K in R. unfold on_db. cbv [mbind M_bind].
    rewrite (run_some _ sql ps (written names m) r _ s s' B D (written_rows r [] ltac:(constructor) R)). by rewrite A, R.
Qed.

Lemma destroy_record s o : object_of m o ->
  (exists s' e, destroy m Db names None (s, o) = (Ret (inr e), (s', o)) /\ contents m s' = contents m s) \/
  (exists s', others_stay (key_of m o) s s' /\ record s' (key_of m o) = None /\
     match record s (key_of m o) with
     | Some old => destroy m Db names None (s, o) = (Ret (inl 1%Z), (s', resetPersisted old))
     | None => destroy m Db names None (s, o) = (Ret (inl 0%Z), (s', resetPersisted o))
     end).
Proof.
  intros Ho. destruct (own_condition o Ho) as (p & E & C & Ok). destruct (delete_exists m Hc p Ok) as (sql & ps & B).
  assert (destroy m Db names None (s, o) =
    (result ← on_db (run Db None (buildDeleteSqlAndSetParams m (Some p) true) (written names m));
     match result with inr e => mret (inr e) | inl _ => r ← take_result id result; _ ← set_self resetPersisted; mret r end) (s, o)) as ->.
  { unfold destroy, self, gets, lift. cbv [mbind M_bind snd]. by rewrite E. }
  destruct (run_delete m s p _ sql ps C B) as [(r & s' & D & F & R & A)|(e & s' & D & K)].
  2:{ left. exists s', e. split; [|done]. unfold on_db. cbv [mbind M_bind]. by rewrite (run_error _ sql ps (written names m) e s s' B D). }
  right. exists s'. rewrite (condition_rows s p _ C) in R.
  assert (contents m s' = List.filter (fun x => negb (has_key (key_of m o) x)) (contents m s)) as F'.
  { rewrite F. apply List.filter_ext_in. intros x Hx. f_equal. apply (condition_is_key s p _ x C). by apply list_elem_of_In. }
  assert (forall k, record s' k = if bool_decide (k = key_of m o) then None else record s k) as L.
  { intros k. unfold record. rewrite F'. generalize (contents m s) as l. unfold lookup_key.
    induction l as [|x l IH]; [by case_bool_decide|]. cbn [List.filter]. destruct (has_key (key_of m o) x) eqn:Hx; cbn [negb List.find].
    - rewrite IH. case_bool_decide as Hkk; [done|]. unfold has_key at 2. apply bool_decide_eq_true in Hx. by rewrite bool_decide_false by congruence.
    - rewrite IH. apply bool_decide_eq_false in Hx. case_bool_decide as Hkk; [|done]. subst k. unfold has_key at 1. by rewrite bool_decide_false. }
  split; [intros k N; rewrite L; by rewrite bool_decide_false|]. split; [by rewrite L, bool_decide_true|].
  destruct (record s (key_of m o)) as [old|] eqn:Ro.
  - apply record_object in Ro as [Hold _]. unfold on_db. cbv [mbind M_bind].
    rewrite (run_some _ sql ps (written names m) r _ s s' B D (written_rows r [old] ltac:(by constructor) R)). by rewrite A, R.
  - unfold on_db. cbv [mbind M_bind].
    rewrite (run_some _ sql ps (written names m) r _ s s' B D (written_rows r [] ltac:(constructor) R)). by rewrite A, R.
Qed.

(** ** The operations as a map would do them *)

(** What a caller does with one object, and what it is told. *)
Inductive record_op := Find (vals : list Field) | Save | Destroy | Reload | Modify (f : Object -> Object).
Inductive answer := Found (o : option Object) | Affected (n : Z) | Reloaded (b : bool) | Failed (e : DatabaseError) | Done.

Definition to_answer {A} (f : A -> answer) (r : expected A) : answer := match r with inl a => f a | inr e => Failed e end.

Definition perform (op : record_op) : M (S * Object) answer :=
  match op with
  | Find vals => r ← on_db (find m Db names vals None); mret (to_answer Found r)
  | Save => r ← save m Db names None; mret (to_answer Affected r)
  | Destroy => r ← destroy m Db names None; mret (to_answer Affected r)
  | Reload => r ← reload m Db names None; mret (to_answer Reloaded r)
  | Modify f => _ ← set_self f; mret Done
  end.

Fixpoint perform_all (ops : list record_op) : M (S * Object) (list answer) :=
  match ops with [] => mret [] | op :: ops => a ← perform op; rest ← perform_all ops; mret (a :: rest) end.

(** A store is a map from keys to records. *)
#[local] Abbreviation store := (list DbValue -> option Object).
Definition same_store (r r' : store) : Prop := forall k, r' k = r k.
Definition put (k : list DbValue) (x : option Object) (r r' : store) : Prop := forall k', r' k' = if bool_decide (k' = k) then x else r k'.

Inductive spec_step : record_op -> store -> Object -> answer -> store -> Object -> Prop :=
| spec_find vals r r' o : same_store r r' -> spec_step (Find vals) r o (Found (setPersisted <$> r (key_values m vals))) r' o
| spec_fails op e r r' o : op = Save \/ op = Destroy -> same_store r r' -> spec_step op r o (Failed e) r' o
| spec_create r r' o stored : persisted_ o = false -> inserted m o stored -> r (key_of m stored) = None -> put (key_of m stored) (Some stored) r r' ->
    spec_step Save r o (Affected 1) r' (setPersisted stored)
| spec_update r r' o old new : persisted_ o = true -> r (key_of m o) = Some old -> updated m o old new -> put (key_of m o) (Some new) r r' ->
    spec_step Save r o (Affected 1) r' (setPersisted new)
| spec_update_gone r r' o : persisted_ o = true -> r (key_of m o) = None -> same_store r r' -> spec_step Save r o (Affected 0) r' o
| spec_destroy r r' o old : r (key_of m o) = Some old -> put (key_of m o) None r r' -> spec_step Destroy r o (Affected 1) r' (resetPersisted old)
| spec_destroy_gone r r' o : r (key_of m o) = None -> same_store r r' -> spec_step Destroy r o (Affected 0) r' (resetPersisted o)
| spec_reload r r' o old : r (key_of m o) = Some old -> same_store r r' -> spec_step Reload r o (Reloaded true) r' (setPersisted old)
| spec_reload_gone r r' o : r (key_of m o) = None -> same_store r r' -> spec_step Reload r o (Reloaded false) r' o
| spec_modify f r r' o : same_store r r' -> spec_step (Modify f) r o Done r' (f o).

Inductive spec_steps : list record_op -> store -> Object -> list answer -> store -> Object -> Prop :=
| spec_nil r o : spec_steps [] r o [] r o
| spec_cons op ops r o a r1 o1 answers r2 o2 :
    spec_step op r o a r1 o1 -> spec_steps ops r1 o1 answers r2 o2 -> spec_steps (op :: ops) r o (a :: answers) r2 o2.

(** What a caller may ask: keys of the right types, and changes that keep the types of the members. *)
Definition op_ok (op : record_op) : Prop :=
  match op with Find vals => key_typed m vals | Modify f => forall o, object_of m o -> object_of m (f o) | _ => True end.

Lemma same_contents s s' : contents m s' = contents m s -> same_store (record s) (record s').
Proof. intros E k. unfold record. by rewrite E. Qed.

Lemma others_put k x s s' : others_stay k s s' -> record s' k = x -> put k x (record s) (record s').
Proof. intros O E k'. case_bool_decide as D; [by subst|by apply O]. Qed.

Lemma object_persisted (f : Object -> Object) o : (forall x, members (f x) = members x) -> object_of m o -> object_of m (f o).
Proof. intros E [H1 H2]. split; unfold member in *; by rewrite E. Qed.

Lemma perform_spec op s o : op_ok op -> object_of m o ->
  exists a s' o', perform op (s, o) = (Ret a, (s', o')) /\ spec_step op (record s) o a (record s') o' /\ object_of m o'.
Proof.
  intros Hop Ho. destruct op as [vals| | | |f]; cbn [perform op_ok] in *.
  - destruct (find_record s vals Hop) as (s' & E & K). eexists _, s', o. split; [unfold on_db; cbv [mbind M_bind]; by rewrite E|].
    split; [|done]. constructor. by apply same_contents.
  - destruct (persisted_ o) eqn:Hp.
    + destruct (save_again s o Hp Ho) as [(s' & K & e & E)|(s' & O & K)].
      * eexists _, s', o. rewrite (mbind_Ret _ _ _ _ _ E). split; [reflexivity|]. split; [|done]. constructor; [by left|by apply same_contents].
      * destruct (record s (key_of m o)) as [old|] eqn:Ro.
        -- destruct K as (new & U & N & E). eexists _, s', _. rewrite (mbind_Ret _ _ _ _ _ E). split; [reflexivity|].
           split; [|apply (object_persisted setPersisted); [done|apply U]]. eapply spec_update; [done|done|done|by apply others_put].
        -- destruct K as (N & E). eexists _, s', _. rewrite (mbind_Ret _ _ _ _ _ E). split; [reflexivity|]. split; [|done].
           apply spec_update_gone; [done|done|]. intros k. destruct (decide (k = key_of m o)) as [->|D]; [congruence|by apply O].
    + destruct (save_new s o Hp) as [(s' & x & E & I & F & R & O)|(e & s' & E & K)].
      * eexists _, s', _. rewrite (mbind_Ret _ _ _ _ _ E). split; [reflexivity|].
        split; [|apply (object_persisted setPersisted); [done|apply I]]. apply spec_create; [done..|by apply others_put].
      * eexists _, s', o. rewrite (mbind_Ret _ _ _ _ _ E). split; [reflexivity|]. split; [|done]. constructor; [by left|by apply same_contents].
  - destruct (destroy_record s o Ho) as [(s' & e & E & K)|(s' & O & R & K)].
    + eexists _, s', o. rewrite (mbind_Ret _ _ _ _ _ E). split; [reflexivity|]. split; [|done]. constructor; [by right|by apply same_contents].
    + destruct (record s (key_of m o)) as [old|] eqn:Ro.
      * eexists _, s', _. rewrite (mbind_Ret _ _ _ _ _ K). split; [reflexivity|].
        split; [|apply (object_persisted resetPersisted); [done|by eapply record_object]]. eapply spec_destroy; [done|by apply others_put].
      * eexists _, s', _. rewrite (mbind_Ret _ _ _ _ _ K). split; [reflexivity|].
        split; [|by apply (object_persisted resetPersisted)]. apply spec_destroy_gone; [done|].
        intros k. destruct (decide (k = key_of m o)) as [->|D]; [congruence|by apply O].
  - destruct (find_record s (getPrimaryKeyValues m o) (own_key_typed m o Ho)) as (s' & E & K). fold (key_of m o) in E.
    assert (reload m Db names None (s, o) = match record s (key_of m o) with
      | Some x => (Ret (inl true), (s', setPersisted x)) | None => (Ret (inl false), (s', o)) end) as Er.
    { unfold reload, self, gets, on_db. cbv [mbind M_bind snd]. rewrite E. by destruct (record s (key_of m o)). }
    destruct (record s (key_of m o)) as [old|] eqn:Ro.
    + eexists _, s', _. rewrite (mbind_Ret _ _ _ _ _ Er). split; [reflexivity|].
      split; [|apply (object_persisted setPersisted); [done|by eapply record_object]]. eapply spec_reload; [done|by apply same_contents].
    + eexists _, s', _. rewrite (mbind_Ret _ _ _ _ _ Er). split; [reflexivity|]. split; [|done]. apply spec_reload_gone; [done|by apply same_contents].
  - eexists _, s, _. split; [reflexivity|]. split; [by constructor|by apply Hop].
Qed.

End Repository.

(** ** Examples

    A table of notes that is kept as a list. *)
Module RepositoryWitnesses.
Import ModelWitnesses.

Definition notes : Model := {| tableName := "notes"; model_columns :=
  [column 0 int64 "id" true DB_INCREMENT UPDATE_OFF; column 1 opt_text "text" false GENERATE_OFF UPDATE_OFF] |}.

Lemma notes_ok : model_ok notes.
Proof. split; cbn; repeat constructor; set_solver. Qed.

Lemma notes_keys : keys_plain notes.
Proof. by split; [repeat constructor|]. Qed.

Lemma notes_columns : columns_ok notes.
Proof. split; [by apply literal_no_mark|repeat constructor; by apply literal_no_mark|by repeat constructor..]. Qed.

Definition note (r : Z * option bytes) : Object :=
  {| members := list_to_map [(0, FInt r.1); (1, match r.2 with Some t => FText t | None => FNone end)]; persisted_ := false |}.

Definition valid (l : list (Z * option bytes)) : Prop := Forall (fun r => in_range true 64 r.1 = true) l /\ NoDup (map fst l).
Definition notes_state : Type := { l : list (Z * option bytes) | bool_decide (valid l) }.

Definition answered (n : nat) (l : list (Z * option bytes)) : QueryResult :=
  {| affectedRows := Z.of_nat n; rows := map (fun r => row_of notes (note r)) l; result_columns := ∅ |}.
Definition refused : DatabaseError := {| type := CONSTRAINT_VIOLATION; message := [] |}.

(** A change is made if it keeps the table valid. *)
Definition change (l : list (Z * option bytes)) (r : QueryResult) : M notes_state (expected QueryResult) := fun s =>
  match decide (bool_decide (valid l)) with left H => (Ret (inl r), exist _ l H) | right _ => (Ret (inr refused), s) end.

Definition id_is (i : Z) (r : Z * option bytes) : bool := (r.1 =? i)%Z.
Definition text_of (v : DbValue) : option (option bytes) := match v with VText t => Some (Some t) | VNull => Some None | _ => None end.

Definition sql_of (o : outcome (bytes * list DbValue)) : bytes := match o with Ret (sql, _) => sql | _ => [] end.
Definition id_condition (i : Z) : BasePredicate := pred_column "a.id" EQUALS [VInt i].
Definition select_sql : bytes := sql_of (buildSelectSqlAndSetParams [notes] 0 (Some 1%Z) (select_where (id_condition 0) (SelectQuery_default [notes]))).
Definition insert_sql : bytes := sql_of (buildInsertSqlAndSetParams notes [note (0%Z, None)] true).
Definition update_sql : bytes := sql_of (buildUpdateSqlAndSetParams notes (update_set_where (id_condition 0) UpdateQuery_new) (note (0%Z, None)) true).
Definition delete_sql : bytes := sql_of (buildDeleteSqlAndSetParams notes (Some (id_condition 0)) true).

Definition notes_db : Database notes_state := fun sql ps s =>
  let l := proj1_sig s in
  match ps with
  | [VInt i] =>
      let found := List.filter (id_is i) l in
      if sql =?b select_sql then (Ret (inl (answered 0 found)), s)
      else if sql =?b delete_sql then change (List.filter (fun r => negb (id_is i r)) l) (answered (length found) found) s
      else (Ret (inr refused), s)
  | [v] =>
      match text_of v with
      | Some t => let r := (fresh (map fst l), t) in change (r :: l) (answered 1 [r]) s
      | None => (Ret (inr refused), s)
      end
  | [v; VInt i] =>
      match text_of v with
      | Some t =>
          let l' := map (fun r => if id_is i r then (r.1, t) else r) l in
          change l' (answered (length (List.filter (id_is i) l')) (List.filter (id_is i) l')) s
      | None => (Ret (inr refused), s)
      end
  | _ => (Ret (inr refused), s)
  end.

Definition notes_contents (s : notes_state) : list Object := map note (proj1_sig s).

Lemma note_object r : in_range true 64 r.1 = true -> object_of notes (note r).
Proof.
  destruct r as [i t]. cbn [fst]. intros Hi. split.
  - intros p. transitivity (p ∈ [0; 1]); [|done]. split.
    + intros [v Hv]. apply elem_of_list_to_map_2 in Hv. clear -Hv. set_solver.
    + rewrite !elem_of_cons, elem_of_nil. intros [->|[->|[]]]; eexists; reflexivity.
  - apply Forall_cons_2; [|apply Forall_cons_2; [|by apply Forall_nil_2]].
    + split; [done|]. split; [exact Hi|]. apply in_range_spec in Hi. cbn in Hi. change (i < 2 ^ 63)%Z. lia.
    + split; [done|]. by destruct t.
Qed.

Lemma note_key r : in_range true 64 r.1 = true -> key_of notes (note r) = [VInt r.1].
Proof. destruct r as [i t]. intros Hi%in_range_spec. cbn in Hi. change ([VInt (to_int64 i)] = [VInt i]). by rewrite to_int64_id by lia. Qed.

Lemma notes_valid (s : notes_state) : valid (proj1_sig s).
Proof. destruct s as [l H]. exact (bool_decide_unpack _ H). Qed.

Lemma valid_objects l : valid l -> Forall (object_of notes) (map note l) /\ map (key_of notes) (map note l) = map (fun i => [VInt i]) (map fst l).
Proof.
  intros [H _]. induction H as [|r l Hr H [IH1 IH2]]; [by split|]. cbn. split; [constructor; [by apply note_object|done]|].
  f_equal; [by apply note_key|done].
Qed.

Lemma notes_contents_ok s : Forall (object_of notes) (notes_contents s) /\ NoDup (map (key_of notes) (notes_contents s)).
Proof.
  pose proof (notes_valid s) as V. destruct (valid_objects _ V) as [H E]. split; [done|]. unfold notes_contents. rewrite E.
  assert (Inj eq eq (fun i => [VInt i])) as I by (by intros ? ? [= ->]). apply (NoDup_fmap_2 (fun i => [VInt i])), V.
Qed.

(** The condition on an identifier. *)
Lemma notes_condition {CD : Conditions} {CL : ConditionLaws} p k : key_condition notes p k ->
  exists i, p = id_condition i /\ k = [VInt i] /\ forall r, in_range true 64 r.1 = true -> meets (row_env "a" notes (note r)) p = id_is i r.
Proof.
  intros (vals & Hv & <- & E). destruct (pk_meets notes notes_ok notes_keys vals Hv) as (p' & E' & H). rewrite E' in E. injection E as ->.
  inversion Hv as [|c v cs vs Hcv Hvs]; subst. inversion Hvs; subst. destruct v as [n| | | | | |]; try done.
  exists (to_int64 n). split; [|split; [done|]].
  - change (buildPkPredicate notes [FInt n]) with (Ret (id_condition (to_int64 n))) in E'. by injection E' as <-.
  - intros r Hr. rewrite H by by apply note_object. rewrite note_key by done. change (key_values notes [FInt n]) with [VInt (to_int64 n)]. unfold id_is.
    destruct (Z.eqb_spec r.1 (to_int64 n)) as [->|N]; [by rewrite bool_decide_true|by rewrite bool_decide_false by congruence].
Qed.

Lemma notes_filter {CD : Conditions} {CL : ConditionLaws} p i l : valid l ->
  (forall r, in_range true 64 r.1 = true -> meets (row_env "a" notes (note r)) p = id_is i r) ->
  List.filter (fun x => meets (row_env "a" notes x) p) (map note l) = map note (List.filter (id_is i) l) /\
  List.filter (fun x => negb (meets (row_env "a" notes x) p)) (map note l) = map note (List.filter (fun r => negb (id_is i r)) l).
Proof.
  intros [V _] H. induction V as [|r l Hr V [IH1 IH2]]; [done|]. cbn [map List.filter]. rewrite H by done.
  destruct (id_is i r); cbn [negb map]; by rewrite IH1, IH2.
Qed.

(** What a change leaves, if it is made. *)
Lemma change_contents l r s : let res := change l r s in
  (valid l /\ res.1 = Ret (inl r) /\ notes_contents res.2 = map note l) \/ (res = (Ret (inr refused), s)).
Proof.
  cbv zeta. unfold change. destruct (decide _) as [H|H]; [|by right]. left. split; [exact (bool_decide_unpack _ H)|done].
Qed.

Lemma fresh_valid l t : valid ((fresh (map fst l), t) :: l) -> fresh (map fst l) ∉ map fst l.
Proof. intros [_ [H _]%NoDup_cons]. exact H. Qed.

(** The statements, and what the database does with them. *)
Lemma select_runs i s : buildSelectSqlAndSetParams [notes] 0 (Some 1%Z) (select_where (id_condition i) (SelectQuery_default [notes])) = Ret (select_sql, [VInt i]) /\
  notes_db select_sql [VInt i] s = (Ret (inl (answered 0 (List.filter (id_is i) (proj1_sig s)))), s).
Proof. split; [reflexivity|]. unfold notes_db. by rewrite beqb_refl. Qed.

Lemma insert_runs o t s : text_of (toDbValue opt_text (member o 1)) = Some t ->
  notes_db insert_sql [toDbValue opt_text (member o 1)] s =
  change ((fresh (map fst (proj1_sig s)), t) :: proj1_sig s) (answered 1 [(fresh (map fst (proj1_sig s)), t)]) s.
Proof. intros E. unfold notes_db. rewrite E. by destruct (toDbValue opt_text (member o 1)). Qed.

Lemma delete_runs i s : buildDeleteSqlAndSetParams notes (Some (id_condition i)) true = Ret (delete_sql, [VInt i]) /\
  notes_db delete_sql [VInt i] s = change (List.filter (fun r => negb (id_is i r)) (proj1_sig s))
    (answered (length (List.filter (id_is i) (proj1_sig s))) (List.filter (id_is i) (proj1_sig s))) s.
Proof. split; [reflexivity|]. unfold notes_db. rewrite beqb_refl. by change (delete_sql =?b select_sql) with false. Qed.

Lemma inserted_note o id t : in_range true 64 id = true -> text_of (toDbValue opt_text (member o 1)) = Some t -> inserted notes o (note (id, t)).
Proof.
  intros Hid E. split; [by apply note_object|]. apply Forall_cons_2; [done|]. apply Forall_cons_2; [|by apply Forall_nil_2]. intros _.
  unfold written_value. cbn [autoGenerateMode column fieldType fieldPtr]. destruct (toDbValue opt_text (member o 1)) eqn:V; try done; injection E as <-; done.
Qed.

Lemma updated_note o id t t' : in_range true 64 id = true -> text_of (toDbValue opt_text (member o 1)) = Some t ->
  updated notes o (note (id, t')) (note (id, t)).
Proof.
  intros Hid E. split; [by apply note_object|]. split; [by rewrite !note_key|]. apply Forall_cons_2; [done|]. apply Forall_cons_2; [|by apply Forall_nil_2].
  change (is_updated [] (column 1 opt_text "text" false GENERATE_OFF UPDATE_OFF)) with true. cbv iota.
  change (toDbValue opt_text (member (note (id, t)) 1) = toDbValue opt_text (member o 1)).
  destruct (toDbValue opt_text (member o 1)) eqn:V; try done; injection E as <-; done.
Qed.

#[export] Instance notes_table : Table (CD := plain_conditions) notes notes_db.
Proof.
  refine {| contents := notes_contents; contents_ok := notes_contents_ok |}.
  - intros s p k sql ps C E. destruct (notes_condition p k C) as (i & -> & -> & H). destruct (select_runs i s) as [B D].
    rewrite B in E. injection E as <- <-. eexists _, s. split; [exact D|]. split; [done|]. cbn [rows answered]. unfold notes_contents.
    rewrite (proj1 (notes_filter _ i _ (notes_valid s) H)). by rewrite map_map.
  - intros s o sql ps E. change (buildInsertSqlAndSetParams notes [o] true) with (Ret (insert_sql, [toDbValue opt_text (member o 1)])) in E.
    injection E as <- <-. destruct (text_of (toDbValue opt_text (member o 1))) as [t|] eqn:Et.
    + rewrite (insert_runs o t s Et). set (id := fresh (map fst (proj1_sig s))).
      destruct (change_contents ((id, t) :: proj1_sig s) (answered 1 [(id, t)]) s) as [(V & R & C)|R]; [left|right].
      * assert (in_range true 64 id = true) as Hid by (destruct V as [V _]; by apply Forall_cons in V as [V _]).
        destruct (change _ _ s) as [res s']. cbn [fst snd] in R, C. subst res. exists (answered 1 [(id, t)]), s', (note (id, t)).
        split; [done|]. split; [by apply inserted_note|]. split; [by rewrite C|]. done.
      * rewrite R. by exists refused, s.
    + right. exists refused, s. split; [|done]. unfold notes_db. rewrite Et. destruct (toDbValue opt_text (member o 1)); done.
  - intros s o p k sql ps C E. destruct (notes_condition p k C) as (i & -> & -> & H).
    change (buildUpdateSqlAndSetParams notes (update_set_where (id_condition i) UpdateQuery_new) o true) with
      (Ret (update_sql, [toDbValue opt_text (member o 1); VInt i])) in E. injection E as <- <-.
    destruct (text_of (toDbValue opt_text (member o 1))) as [t|] eqn:Et.
    2:{ right. exists refused, s. split; [|done]. unfold notes_db. rewrite Et. by destruct (toDbValue opt_text (member o 1)). }
    set (l' := map (fun r => if id_is i r then (r.1, t) else r) (proj1_sig s)).
    assert (notes_db update_sql [toDbValue opt_text (member o 1); VInt i] s =
      change l' (answered (length (List.filter (id_is i) l')) (List.filter (id_is i) l')) s) as ->.
    { unfold notes_db. rewrite Et. by destruct (toDbValue opt_text (member o 1)). }
    destruct (change_contents l' (answered (length (List.filter (id_is i) l')) (List.filter (id_is i) l')) s) as [(V & R & D)|R]; [left|right].
    2:{ rewrite R. by exists refused, s. }
    destruct (change _ _ s) as [res s']. cbn [fst snd] in R, D. subst res. eexists _, s'. split; [done|]. split; [|split].
    + rewrite D. unfold notes_contents, l'. destruct (notes_valid s) as [Vs _]. rewrite map_map. clear -Vs H Et.
      induction Vs as [|r l Hr _ IH]; [by constructor|]. cbn [map]. constructor; [|done]. rewrite H by done.
      destruct r as [id t']. by destruct (id_is i (id, t')); [apply updated_note|].
    + rewrite D. rewrite (proj1 (notes_filter _ i _ V H)). cbn [rows answered]. by rewrite map_map.
    + cbn [rows answered affectedRows]. by rewrite length_map.
  - intros s p k sql ps C E. destruct (notes_condition p k C) as (i & -> & -> & H). destruct (delete_runs i s) as [B D].
    rewrite B in E. injection E as <- <-. rewrite D. set (l' := List.filter _ (proj1_sig s)). set (a := answered _ _).
    destruct (change_contents l' a s) as [(V & R & K)|R]; [left|right].
    2:{ rewrite R. by exists refused, s. }
    destruct (change _ _ s) as [res s']. cbn [fst snd] in R, K. subst res. exists a, s'. split; [done|]. unfold notes_contents at 2 3.
    destruct (notes_filter _ i _ (notes_valid s) H) as [F1 F2]. rewrite F1, F2. split; [exact K|]. unfold a. cbn [rows answered affectedRows].
    rewrite map_map. by rewrite length_map.
Defined.

Lemma empty_valid : bool_decide (valid []).
Proof. apply bool_decide_pack. split; constructor. Qed.

Definition history : list record_op := [Save; Find [FInt 0]; Modify (fun o => note (7%Z, Some ("b" : bytes))); Save; Destroy; Reload].

Lemma history_ok : Forall (op_ok notes) history.
Proof. repeat apply Forall_cons_2; first [apply Forall_nil_2|exact I|by repeat constructor|intros o _; by apply note_object]. Qed.

End RepositoryWitnesses.
