(* ===== verification/ManyToMany.v ===== *)
(** Many-to-many relations ([orm/Relations.hpp], [orm/DefaultThroughModel.hpp], and
    addRelation, removeRelation, upsertRelationThrough and manyRelated of
    [orm/ActiveRecord.hpp]).  A row of the through model stands for one pair. *)
From Stdlib Require Import Floats.SpecFloat.
From S2P Require Import Prelude Bytes Effects DbValue Model Predicate SelectQuery WriteQueries ActiveRecord.

#[local] Arguments list_ascii_of_string : simpl never.

Inductive OnDelete := CASCADE | NO_ACTION | RESTRICT | SET_DEFAULT | SET_NULL.
Inductive ThroughPtrModel := SideA | SideB.
Inductive SymmetryMode := NONE | SINGLE_ROW | DOUBLE_ROW | DB_SINGLE_ROW | DB_DOUBLE_ROW.

#[export] Instance ThroughPtrModel_eq_dec : EqDecision ThroughPtrModel.
Proof. solve_decision. Defined.

(** Members of the through model and of one of the two models, with their types. *)
Record ThroughField := {
  throughPtr : nat;
  throughType : CppType;
  modelPtr : nat;
  modelType : CppType;
  throughPtrModel : ThroughPtrModel;
}.

(** Models are numbered. *)
Record ManyToManyRelation := {
  rel_A : nat;
  rel_B : nat;
  throughFields : list ThroughField;
  relationName : bytes;
  reciprocalName : bytes;
  symmetryMode : SymmetryMode;
}.

Definition isSelfReferential (r : ManyToManyRelation) : bool := rel_A r =? rel_B r.
Definition isSymmetric (r : ManyToManyRelation) : bool := match symmetryMode r with NONE => false | _ => true end.

Definition isValid (r : ManyToManyRelation) : bool :=
  if isSelfReferential r then xorb (isSymmetric r) (reciprocalName r =?b []) else true.

Definition getThroughFieldPtrs (r : ManyToManyRelation) : list nat := map throughPtr (throughFields r).
Definition getThroughFields (side : ThroughPtrModel) (r : ManyToManyRelation) : list ThroughField :=
  List.filter (fun f => bool_decide (throughPtrModel f = side)) (throughFields r).

(** [manyToManyRelation<A, B, Through, fields...>()]: validity is asserted here, before
    names and mode are set. *)
Definition manyToManyRelation (a b : nat) (fields : list ThroughField) : option ManyToManyRelation :=
  let r := {| rel_A := a; rel_B := b; throughFields := fields; relationName := []; reciprocalName := []; symmetryMode := NONE |} in
  if isValid r then Some r else None.

Definition withRelationName (name : bytes) (r : ManyToManyRelation) : ManyToManyRelation :=
  {| rel_A := rel_A r; rel_B := rel_B r; throughFields := throughFields r; relationName := name;
     reciprocalName := reciprocalName r; symmetryMode := symmetryMode r |}.
Definition withReciprocalName (name : bytes) (r : ManyToManyRelation) : ManyToManyRelation :=
  {| rel_A := rel_A r; rel_B := rel_B r; throughFields := throughFields r; relationName := relationName r;
     reciprocalName := name; symmetryMode := symmetryMode r |}.
Definition withSymmetryMode (sm : SymmetryMode) (r : ManyToManyRelation) : ManyToManyRelation :=
  {| rel_A := rel_A r; rel_B := rel_B r; throughFields := throughFields r; relationName := relationName r;
     reciprocalName := reciprocalName r; symmetryMode := sm |}.

Definition mirrorThroughObj (r : ManyToManyRelation) (throughObj : Object) : Object :=
  let pairs := zip (getThroughFields SideA r) (getThroughFields SideB r) in
  let mirror := fold_left (fun o p => assign (throughPtr p.2) (member throughObj (throughPtr p.1)) o) pairs throughObj in
  fold_left (fun o p => assign (throughPtr p.1) (member throughObj (throughPtr p.2)) o) pairs mirror.

(** ** The default through model: an identifier and the two keys *)
Definition default_column (p : nat) (t : CppType) (name : bytes) (pk : bool) (g : AutoGenerate) : Column :=
  {| fieldPtr := p; fieldType := t; dbName := name; isPrimaryKey := pk; isIndexed := false; isUnique := false;
     autoGenerateMode := g; defaultValue := VNull; customGenerator := None; autoUpdateMode := UPDATE_OFF; customUpdator := None |}.

Definition DefaultThroughModel (name : bytes) (pkAType pkBType : CppType) : Model :=
  {| tableName := name; model_columns :=
       [default_column 0 {| raw := TInt true 64; optional := false |} "id" true DB_INCREMENT;
        default_column 1 pkAType "pkA" false GENERATE_OFF; default_column 2 pkBType "pkB" false GENERATE_OFF] |}.

(** [pkFieldPtr]: the first column of each key. *)
Definition default_through_fields (a b : Model) : outcome (list ThroughField) :=
  match pkColumns a, pkColumns b with
  | ca :: _, cb :: _ =>
      Ret [{| throughPtr := 1; throughType := fieldType ca; modelPtr := fieldPtr ca; modelType := fieldType ca; throughPtrModel := SideA |};
           {| throughPtr := 2; throughType := fieldType cb; modelPtr := fieldPtr cb; modelType := fieldType cb; throughPtrModel := SideB |}]
  | _, _ => Undef
  end.

(** ** Looking a relation up: [None] where a static assertion fails *)
Record RelationLookup := { relation : ManyToManyRelation; isReciprocal : bool; isSelfRef : bool; callerIsA : bool; otherIsB : bool }.

(** The name is compared first with the relation's, then with its reciprocal's. *)
Definition getManyToManyRelationIfNamed (name : bytes) (r : ManyToManyRelation) : list (ManyToManyRelation * bool) :=
  if relationName r =?b name then [(r, false)] else if reciprocalName r =?b name then [(r, true)] else [].
Definition getManyToManyRelationByName (name : bytes) (rels : list ManyToManyRelation) : option (list (ManyToManyRelation * bool)) :=
  let result := concat (map (getManyToManyRelationIfNamed name) rels) in
  if length result <=? 1 then Some result else None.

Definition getManyToManyRelation (name : bytes) (model related : nat) (rels : nat -> list ManyToManyRelation) : option RelationLookup :=
  relTupleSelf ← getManyToManyRelationByName name (rels model);
  relTupleOther ← getManyToManyRelationByName name (rels related);
  found ← match relTupleSelf, relTupleOther with
          | [x], [_] => if model =? related then Some x else None
          | [x], _ => Some x
          | _, [y] => Some y
          | _, _ => None
          end;
  let '(r, reciprocal) := (found : ManyToManyRelation * bool) in
  if ((rel_A r =? model) && (rel_B r =? related)) || ((rel_A r =? related) && (rel_B r =? model))
  then Some {| relation := r; isReciprocal := reciprocal; isSelfRef := rel_A r =? rel_B r; callerIsA := rel_A r =? model;
               otherIsB := rel_B r =? related |}
  else None.

(** ** Order of keys: [operator<] of the members' types *)
Fixpoint bytes_lt (x y : bytes) : bool :=
  match x, y with
  | _, [] => false
  | [], _ :: _ => true
  | a :: x, b :: y => (code a <? code b)%Z || ((code a =? code b)%Z && bytes_lt x y)
  end.

(** An empty optional is less than any value. *)
Definition field_lt (v w : Field) : bool :=
  match v, w with
  | FInt a, FInt b => (a <? b)%Z
  | FFloat a, FFloat b | FDouble a, FDouble b => SFltb a b
  | FText a, FText b | FBlob a, FBlob b => bytes_lt a b
  | FBool a, FBool b => negb a && b
  | FNone, FNone => false
  | FNone, _ => true
  | _, _ => false
  end.

(** The first pair that differs decides. *)
Fixpoint first_smaller (default : bool) (l : list (Field * Field)) : bool :=
  match l with
  | [] => default
  | (v, w) :: l => if field_lt v w then true else if field_lt w v then false else first_smaller default l
  end.

Definition isSelfSmallerThan (r : ManyToManyRelation) (self obj : Object) : bool :=
  first_smaller false (map (fun f => (member self (modelPtr f), member obj (modelPtr f))) (throughFields r)).

Definition isCorrectOrder (r : ManyToManyRelation) (throughObj : Object) : bool :=
  first_smaller true (zip_with (fun a b => (member throughObj (throughPtr a), member throughObj (throughPtr b)))
    (getThroughFields SideA r) (getThroughFields SideB r)).

(** ** The operations *)

(** [pred = pred and ...], from the left. *)
Fixpoint and_left (acc : BasePredicate) (l : list (outcome BasePredicate)) : outcome BasePredicate :=
  match l with [] => Ret acc | p :: l => p ← p; and_left (pred_and acc p) l end.

Definition assign_fields (fields : list ThroughField) (src o : Object) : Object :=
  fold_left (fun o f => assign (throughPtr f) (member src (modelPtr f)) o) fields o.

Definition through_ptr (model : nat) (f : ThroughField) : FieldPtr :=
  {| ptr_model := model; ptr_field := throughPtr f; ptr_type := throughType f |}.

Section Relations.
Context {S : Type} (db : option (Database S)) (type_name : FieldType -> bytes).
(** The through model, and the models of the caller and of the others. *)
Context (mt mother : Model) (lookup : RelationLookup).
#[local] Abbreviation r := (relation lookup).

(** The through rows whose members of a side are the key of an object. *)
Definition side_equals (side : ThroughPtrModel) (obj : Object) (acc : BasePredicate) : outcome BasePredicate :=
  and_left acc (map (fun f => equals (default_resolve [mt]) (through_ptr 0 f) (member obj (modelPtr f)) []) (getThroughFields side r)).

Definition pair_predicate (self other : Object) (self_side other_side : ThroughPtrModel) : outcome BasePredicate :=
  p ← side_equals self_side self (pred_bool true);
  side_equals other_side other p.

Definition self_side : ThroughPtrModel := if callerIsA lookup then SideA else SideB.
Definition other_side : ThroughPtrModel := if otherIsB lookup then SideB else SideA.
Definition flip (side : ThroughPtrModel) : ThroughPtrModel := match side with SideA => SideB | SideB => SideA end.

(** The objects that [addRelation] stores. *)
Definition through_of (a b : ThroughPtrModel) (self other : Object) : Object :=
  assign_fields (getThroughFields b r) other (assign_fields (getThroughFields a r) self default_object).

Definition throughObj (self other : Object) : Object :=
  match symmetryMode r with
  | DB_SINGLE_ROW | SINGLE_ROW =>
      if isSelfSmallerThan r self other then through_of SideA SideB self other else through_of SideA SideB other self
  | _ => through_of self_side other_side self other
  end.

(** A method of an object that is not used any more. *)
Definition of_temporary {A} (f : M (S * Object) A) (o : Object) : M S A := fun s => let '(res, (s, _)) := f (s, o) in (res, s).

Definition upsert_through (o : Object) (doNothing : bool) (transaction : option (Database S)) : M S (expected Z) :=
  of_temporary (upsert mt db type_name (getThroughFieldPtrs r) doNothing transaction) o.

Definition upsert_both (objs : list Object) (doNothing : bool) (transaction : option (Database S)) : M S (expected Z) :=
  buResult ← bulkUpsert mt db type_name objs (getThroughFieldPtrs r) doNothing [] false transaction;
  mret (match buResult with inl (n, _) => inl n | inr e => inr e end).

Definition exists_through (p : BasePredicate) (transaction : option (Database S)) : M S (expected bool) :=
  exists_any db [mt] (select_where p (SelectQuery_default [mt])) transaction.

Definition store_relation (self other : Object) (transaction : option (Database S)) : M S (expected Z) :=
  match symmetryMode r with
  | DOUBLE_ROW =>
      upsert_both [throughObj self other; through_of (flip self_side) (flip other_side) self other] true transaction
  | _ => upsert_through (throughObj self other) true transaction
  end.

Definition addRelation (self other : Object) (transaction : option (Database S)) : M S (expected Z) :=
  match symmetryMode r with
  | SINGLE_ROW =>
      wherePred ← lift (pair_predicate self other SideA SideB);
      mirrorPred ← lift (pair_predicate self other SideB SideA);
      result ← exists_through (pred_or wherePred mirrorPred) transaction;
      match result with
      | inr e => mret (inr e)
      | inl true => mret (inl 0%Z)
      | inl false => store_relation self other transaction
      end
  | _ => store_relation self other transaction
  end.

Definition removeRelation (self other : Object) (transaction : option (Database S)) : M S (expected Z) :=
  wherePred ← lift (pair_predicate self other self_side other_side);
  cond ← (match symmetryMode r with
          | NONE | DB_DOUBLE_ROW => mret (where_ wherePred None)
          | _ => mirrorPred ← lift (pair_predicate self other SideB SideA); mret (orWhere mirrorPred (where_ wherePred None))
          end);
  delResult ← delete_execute db type_name mt cond transaction false;
  mret (match delResult with inl (n, _) => inl n | inr e => inr e end).

Definition upsertRelationThrough (obj : Object) (transaction : option (Database S)) : M S (expected Z) :=
  match symmetryMode r with
  | NONE | DB_DOUBLE_ROW => upsert_through obj false transaction
  | DB_SINGLE_ROW => upsert_through (if isCorrectOrder r obj then obj else mirrorThroughObj r obj) false transaction
  | SINGLE_ROW =>
      let mirror := mirrorThroughObj r obj in
      wherePred ← lift (and_left (pred_bool true)
        (map (fun f => equals (default_resolve [mt]) (through_ptr 0 f) (member mirror (throughPtr f)) []) (throughFields r)));
      existResult ← exists_through wherePred transaction;
      match existResult with
      | inr e => mret (inr e)
      | inl true => upsert_through mirror false transaction
      | inl false => upsert_through obj false transaction
      end
  | DOUBLE_ROW => upsert_both [obj; mirrorThroughObj r obj] false transaction
  end.

(** [manyRelated]: the related objects, under the alias R, joined with the through
    rows, under T.  The members of the other side belong to the related model. *)
Definition related_models (mself : Model) : list Model := [mother; mt; mself].

Definition join_predicate (mself : Model) (side : ThroughPtrModel) : outcome BasePredicate :=
  and_left (pred_bool true) (map (fun f => equals_fields (default_resolve (related_models mself))
    {| ptr_model := 0; ptr_field := modelPtr f; ptr_type := modelType f |} (through_ptr 1 f) ("R" : bytes, "T" : bytes)) (getThroughFields side r)).
Definition where_predicate (mself : Model) (side : ThroughPtrModel) (self : Object) : outcome BasePredicate :=
  and_left (pred_bool true) (map (fun f => equals (default_resolve (related_models mself)) (through_ptr 1 f) (member self (modelPtr f)) "T")
    (getThroughFields side r)).

Definition related_condition : bool := if isSelfRef lookup then negb (isReciprocal lookup) else callerIsA lookup.

Definition manyRelated (mself : Model) (self : Object) : outcome SelectQuery :=
  let models := related_models mself in
  let query := SelectQuery_alias models "R" in
  joinPred ← join_predicate mself (if related_condition then SideB else SideA);
  wherePred ← where_predicate mself (if related_condition then SideA else SideB) self;
  match symmetryMode r with
  | SINGLE_ROW | DB_SINGLE_ROW =>
      joinPred2 ← join_predicate mself SideB;
      query ← join_model models 1 (pred_or joinPred joinPred2) (Some ("T" : bytes)) INNER query;
      wherePred2 ← where_predicate mself SideA self;
      Ret (select_where (pred_or wherePred wherePred2) query)
  | _ =>
      query ← join_model models 1 joinPred (Some ("T" : bytes)) INNER query;
      Ret (select_where wherePred query)
  end.
End Relations.

(** ** Which pairs are related *)
Section Meaning.
Context (sql_eq : DbValue -> DbValue -> tri).
Context (sql_eq_comm : forall v w, sql_eq v w = sql_eq w v) (sql_eq_refl : forall v, v <> VNull -> sql_eq v v = Yes).
Context (mt mother mself : Model) (lookup : RelationLookup).
#[local] Abbreviation r := (relation lookup).
#[local] Abbreviation holds := (holds sql_eq).

(** The row of a join of an object R with a through row T. *)
Definition pair_env (R T : Object) (name : bytes) : DbValue :=
  if prefixb "R." name then row_env "R" mother R name else row_env "T" mt T name.

(** A query over a single join selects a pair. *)
Definition selects_pair (q : SelectQuery) (R T : Object) : Prop :=
  Forall (fun j => holds (pair_env R T) (join_condition j)) (joins_ (settings q)) /\ selects sql_eq q (pair_env R T).

(** The members of a side of a through row are the key of an object. *)
Definition key_matches (side : ThroughPtrModel) (T o : Object) : Prop :=
  Forall (fun f => sql_eq (toDbValue (throughType f) (member T (throughPtr f))) (toDbValueImpl (raw (throughType f)) (member o (modelPtr f))) = Yes)
    (getThroughFields side r).

(** The fields of a relation are members of the models; keys are not optional. *)
Record relation_ok : Prop := {
  ro_through : Forall (fun f => exists c, c ∈ model_columns mt /\ fieldPtr c = throughPtr f /\ fieldType c = throughType f) (throughFields r);
  ro_types : Forall (fun f => modelType f = {| raw := raw (throughType f); optional := false |}) (throughFields r);
  ro_distinct : NoDup (map throughPtr (throughFields r));
}.
Definition side_ok (side : ThroughPtrModel) : Prop :=
  Forall (fun f => exists c, c ∈ model_columns mother /\ fieldPtr c = modelPtr f /\ fieldType c = modelType f) (getThroughFields side r).

(** The direction of the query is that of the rows that are added. *)
Definition forward : Prop := callerIsA lookup = otherIsB lookup /\ related_condition lookup = callerIsA lookup.

Lemma lookup_forward name model related rels l : getManyToManyRelation name model related rels = Some l ->
  model <> related \/ isReciprocal l = false -> callerIsA l = otherIsB l /\ related_condition l = callerIsA l.
Proof.
  unfold getManyToManyRelation. intros H Hd. apply bind_Some in H as (x & _ & H). apply bind_Some in H as (y & _ & H).
  apply bind_Some in H as ([rel b] & _ & H). destruct (_ || _) eqn:E; [|done]. injection H as <-. cbn in *. unfold related_condition. cbn.
  apply orb_true_iff in E. rewrite !andb_true_iff, !Nat.eqb_eq in E.
  destruct (Nat.eqb_spec (rel_A rel) model), (Nat.eqb_spec (rel_B rel) related), (Nat.eqb_spec (rel_A rel) (rel_B rel)), b; cbn;
    split; try done; exfalso; destruct Hd; subst; intuition congruence.
Qed.

Lemma in_side side f : f ∈ getThroughFields side r <-> f ∈ throughFields r /\ throughPtrModel f = side.
Proof. unfold getThroughFields. rewrite list_elem_of_In, filter_In, bool_decide_eq_true, <- list_elem_of_In. done. Qed.

Lemma and_left_holds (g : ThroughField -> outcome BasePredicate) (Q : Object -> Object -> ThroughField -> Prop) fs acc :
  Forall (fun f => exists p, g f = Ret p /\ forall R T, holds (pair_env R T) p <-> Q R T f) fs ->
  exists p, and_left acc (map g fs) = Ret p /\ forall R T, holds (pair_env R T) p <-> holds (pair_env R T) acc /\ Forall (Q R T) fs.
Proof.
  intros H. revert acc. induction H as [|f fs (p & E & Hp) H IH]; intros acc.
  - exists acc. split; [done|]. intros R T. rewrite Forall_nil. tauto.
  - destruct (IH (pred_and acc p)) as (q & E' & Hq). exists q. cbn [map and_left]. rewrite E. split; [exact E'|].
    intros R T. rewrite Hq, holds_and, Hp, Forall_cons. tauto.
Qed.

Lemma where_leaf f v : model_ok mt -> relation_ok -> f ∈ throughFields r ->
  exists p, equals (default_resolve (related_models mt mother mself)) (through_ptr 1 f) v "T" = Ret p /\
    forall R T, holds (pair_env R T) p <->
      sql_eq (toDbValue (throughType f) (member T (throughPtr f))) (toDbValueImpl (raw (throughType f)) v) = Yes.
Proof.
  intros Hm Hr Hf. pose proof (ro_through Hr) as H. rewrite Forall_forall in H. destruct (H f Hf) as (c & Hc & P & Ty).
  exists (pred_column ("T" ++ "." ++ dbName c) EQUALS [toDbValueImpl (raw (throughType f)) v]). split.
  - unfold equals, pred_field, default_resolve. cbn. by rewrite <- P, columnNameOf_ok.
  - intros R T. rewrite holds_column. unfold pair_env. change (prefixb "R." _) with false. cbv iota.
    by rewrite row_env_at, P, Ty.
Qed.

Lemma join_leaf side f : model_ok mt -> model_ok mother -> relation_ok -> side_ok side -> f ∈ getThroughFields side r ->
  exists p, equals_fields (default_resolve (related_models mt mother mself))
      {| ptr_model := 0; ptr_field := modelPtr f; ptr_type := modelType f |} (through_ptr 1 f) ("R" : bytes, "T" : bytes) = Ret p /\
    forall R T, holds (pair_env R T) p <->
      sql_eq (toDbValue (throughType f) (member T (throughPtr f))) (toDbValueImpl (raw (throughType f)) (member R (modelPtr f))) = Yes.
Proof.
  intros Hm Ho Hr Hs Hf. pose proof (proj1 (proj1 (in_side side f) Hf)) as Hf'.
  pose proof (ro_through Hr) as H. rewrite Forall_forall in H. destruct (H f Hf') as (c & Hc & P & Ty).
  unfold side_ok in Hs. rewrite Forall_forall in Hs. destruct (Hs f Hf) as (d & Hd & P' & Ty').
  pose proof (ro_types Hr) as Hty. rewrite Forall_forall in Hty. specialize (Hty f Hf').
  exists (Pred FIELD_COMPARISON ("R" ++ "." ++ dbName d) ("T" ++ "." ++ dbName c) (Some EQUALS) [] [] [] []). split.
  - unfold equals_fields, pred_fields, default_resolve. cbn. by rewrite <- P, <- P', !columnNameOf_ok.
  - intros R T. unfold ActiveRecord.holds, denote, row_atom. cbn [predicateType op columnA columnB]. unfold pair_env.
    change (prefixb "R." ("R" ++ "." ++ dbName d)) with true. change (prefixb "R." ("T" ++ "." ++ dbName c)) with false. cbv iota.
    rewrite !row_env_at, P, Ty, P', Ty', Hty, sql_eq_comm by done. done.
Qed.

Lemma where_matches side self : model_ok mt -> relation_ok ->
  exists p, where_predicate mt mother lookup mself side self = Ret p /\ forall R T, holds (pair_env R T) p <-> key_matches side T self.
Proof.
  intros Hm Hr. destruct (and_left_holds (fun f => equals (default_resolve (related_models mt mother mself)) (through_ptr 1 f) (member self (modelPtr f)) "T")
    (fun R T f => sql_eq (toDbValue (throughType f) (member T (throughPtr f))) (toDbValueImpl (raw (throughType f)) (member self (modelPtr f))) = Yes)
    (getThroughFields side r) (pred_bool true)) as (p & E & H).
  - apply Forall_forall. intros f Hf. apply where_leaf; [done..|]. by apply in_side in Hf as [Hf _].
  - exists p. split; [exact E|]. intros R T. rewrite H. unfold key_matches. pose proof (holds_true sql_eq (pair_env R T)). tauto.
Qed.

Lemma join_matches side : model_ok mt -> model_ok mother -> relation_ok -> side_ok side ->
  exists p, join_predicate mt mother lookup mself side = Ret p /\ forall R T, holds (pair_env R T) p <-> key_matches side T R.
Proof.
  intros Hm Ho Hr Hs. destruct (and_left_holds (fun f => equals_fields (default_resolve (related_models mt mother mself))
    {| ptr_model := 0; ptr_field := modelPtr f; ptr_type := modelType f |} (through_ptr 1 f) ("R" : bytes, "T" : bytes))
    (fun R T f => sql_eq (toDbValue (throughType f) (member T (throughPtr f))) (toDbValueImpl (raw (throughType f)) (member R (modelPtr f))) = Yes)
    (getThroughFields side r) (pred_bool true)) as (p & E & H).
  - apply Forall_forall. intros f Hf. by eapply join_leaf.
  - exists p. split; [exact E|]. intros R T. rewrite H. unfold key_matches. pose proof (holds_true sql_eq (pair_env R T)). tauto.
Qed.

Lemma tri_or_yes a b : tri_or a b = Yes <-> a = Yes \/ b = Yes.
Proof. destruct a, b; cbn; intuition congruence. Qed.

Lemma holds_or row p q : holds row (pred_or p q) <-> holds row p \/ holds row q.
Proof. unfold ActiveRecord.holds. by rewrite denote_or, tri_or_yes. Qed.

(** The sides on which the caller and the others stand. *)
Definition near : ThroughPtrModel := if related_condition lookup then SideA else SideB.
Definition far : ThroughPtrModel := if related_condition lookup then SideB else SideA.

(** The query selects the pairs whose through row joins the caller to the other, in
    the stored direction, whatever the mode. *)
Lemma manyRelated_selects self : model_ok mt -> model_ok mother -> relation_ok -> side_ok far ->
  (match symmetryMode r with SINGLE_ROW | DB_SINGLE_ROW => related_condition lookup = true | _ => True end) ->
  exists q, manyRelated mt mother lookup mself self = Ret q /\
    forall R T, selects_pair q R T <-> key_matches far T R /\ key_matches near T self.
Proof.
  intros Hm Ho Hr Hs Hmode. destruct (join_matches far Hm Ho Hr Hs) as (jp & Ej & Hj), (where_matches near self Hm Hr) as (wp & Ew & Hw).
  unfold manyRelated. unfold near, far in Ej, Ew |- *. rewrite Ej, Ew. cbn [mbind outcome_bind].
  destruct (symmetryMode r) eqn:Mode; [..|]; try rewrite Hmode in Ej, Ew; rewrite ?Ej, ?Ew; eexists; (split; [reflexivity|]); intros R T;
    unfold selects_pair; rewrite selects_where; cbn; rewrite Forall_singleton; cbn [join_condition]; rewrite ?holds_or, Hj, Hw; unfold far, near; tauto.
Qed.

(** *** The rows that are added *)
Lemma assign_member p v o p' : member (assign p v o) p' = if decide (p' = p) then v else member o p'.
Proof. unfold member, assign. cbn. destruct (decide (p' = p)) as [->|N]; [by rewrite lookup_insert_eq|by rewrite lookup_insert_ne]. Qed.

Lemma assign_fields_other fs src o p : p ∉ map throughPtr fs -> member (assign_fields fs src o) p = member o p.
Proof.
  revert o. induction fs as [|f fs IH]; intros o Hp; [done|]. cbn in Hp. apply not_elem_of_cons in Hp as [N Hp].
  unfold assign_fields. cbn [fold_left]. change (member (assign_fields fs src (assign (throughPtr f) (member src (modelPtr f)) o)) p = member o p).
  by rewrite IH, assign_member, decide_False.
Qed.

Lemma assign_fields_in fs src o f : NoDup (map throughPtr fs) -> f ∈ fs -> member (assign_fields fs src o) (throughPtr f) = member src (modelPtr f).
Proof.
  revert o. induction fs as [|g fs IH]; intros o Nd Hf; [by apply elem_of_nil in Hf|]. cbn in Nd. apply NoDup_cons in Nd as [Hg Nd].
  unfold assign_fields. cbn [fold_left].
  change (member (assign_fields fs src (assign (throughPtr g) (member src (modelPtr g)) o)) (throughPtr f) = member src (modelPtr f)).
  apply elem_of_cons in Hf as [->|Hf]; [|by apply IH]. by rewrite assign_fields_other, assign_member, decide_True.
Qed.

Lemma side_distinct side : relation_ok -> NoDup (map throughPtr (getThroughFields side r)).
Proof.
  intros Hr. pose proof (ro_distinct Hr) as Nd. unfold getThroughFields. induction (throughFields r) as [|f fs IH]; [done|].
  cbn in Nd |- *. apply NoDup_cons in Nd as [Hf Nd]. destruct (bool_decide _); cbn; [|by apply IH]. apply NoDup_cons. split; [|by apply IH].
  intros Hin. apply Hf. apply list_elem_of_fmap in Hin as (g & E & Hg). apply list_elem_of_In, filter_In in Hg as [Hg _].
  rewrite E. apply list_elem_of_fmap_2. by apply list_elem_of_In.
Qed.

Lemma sides_disjoint a b f : relation_ok -> a <> b -> f ∈ getThroughFields a r -> throughPtr f ∉ map throughPtr (getThroughFields b r).
Proof.
  intros Hr Hab Hf Hin. apply list_elem_of_fmap in Hin as (g & E & Hg). apply in_side in Hf as [Hf Sf], Hg as [Hg Sg].
  assert (f = g) as ->; [|congruence]. apply list_elem_of_lookup in Hf as [i Hi], Hg as [j Hj].
  assert (i = j) as ->; [|congruence].
  eapply (NoDup_lookup (map throughPtr (throughFields r))); [apply Hr|rewrite list_lookup_fmap, Hi; reflexivity|].
  rewrite list_lookup_fmap, Hj. cbn. by rewrite E.
Qed.

Lemma through_of_members a b self other : relation_ok -> a <> b ->
  (forall f, f ∈ getThroughFields a r -> member (through_of lookup a b self other) (throughPtr f) = member self (modelPtr f)) /\
  (forall f, f ∈ getThroughFields b r -> member (through_of lookup a b self other) (throughPtr f) = member other (modelPtr f)).
Proof.
  intros Hr Hab. unfold through_of. split; intros f Hf.
  - rewrite assign_fields_other by (by eapply sides_disjoint). apply assign_fields_in; [by apply side_distinct|done].
  - apply assign_fields_in; [by apply side_distinct|done].
Qed.

(** The object has a key. *)
Definition key_present (o : Object) : Prop := Forall (fun f => toDbValueImpl (raw (throughType f)) (member o (modelPtr f)) <> VNull) (throughFields r).

Lemma copied_matches side T o : key_present o ->
  (forall f, f ∈ getThroughFields side r -> member T (throughPtr f) = member o (modelPtr f)) -> key_matches side T o.
Proof.
  intros Hk H. apply Forall_forall. intros f Hf. rewrite (H f Hf). apply in_side in Hf as [Hf _].
  unfold key_present in Hk. rewrite Forall_forall in Hk. specialize (Hk f Hf).
  replace (toDbValue (throughType f) (member o (modelPtr f))) with (toDbValueImpl (raw (throughType f)) (member o (modelPtr f))); [by apply sql_eq_refl|].
  unfold toDbValue. destruct (member o (modelPtr f)); try by destruct (optional (throughType f)).
  destruct (raw (throughType f)); done.
Qed.

Lemma through_of_matches a b self other : relation_ok -> a <> b -> key_present self -> key_present other ->
  key_matches a (through_of lookup a b self other) self /\ key_matches b (through_of lookup a b self other) other.
Proof.
  intros Hr Hab Hs Ho. destruct (through_of_members a b self other Hr Hab) as [H1 H2]. split; by apply copied_matches.
Qed.

Lemma near_far : near <> far.
Proof. unfold near, far. by destruct (related_condition lookup). Qed.


(** A symmetric relation with a single row is found from one end only: the row that
    addRelation stores for a pair, under the object with the smaller key, is selected
    by the query of that object, but not by the query of the other one: the second half
    of the query's conditions repeats the first instead of reading the mirrored row. *)
Theorem single_row_one_way self other : model_ok mt -> model_ok mother -> relation_ok -> side_ok far -> forward ->
  callerIsA lookup = true -> (symmetryMode r = SINGLE_ROW \/ symmetryMode r = DB_SINGLE_ROW) -> key_present self -> key_present other ->
  isSelfSmallerThan r self other = true -> ~ key_matches SideA (throughObj lookup self other) other ->
  exists q q', manyRelated mt mother lookup mself self = Ret q /\ manyRelated mt mother lookup mself other = Ret q' /\
    selects_pair q other (throughObj lookup self other) /\ ~ selects_pair q' self (throughObj lookup self other).
Proof.
  intros Hm Ho Hr Hs [_ Hf2] HA M K1 K2 Sm Df. rewrite HA in Hf2.
  assert (Hmode : match symmetryMode r with SINGLE_ROW | DB_SINGLE_ROW => related_condition lookup = true | _ => True end) by (by destruct M as [->| ->]).
  destruct (manyRelated_selects self Hm Ho Hr Hs Hmode) as (q & E & H), (manyRelated_selects other Hm Ho Hr Hs Hmode) as (q' & E' & H').
  assert (N : near = SideA /\ far = SideB) by (unfold near, far; by rewrite Hf2). destruct N as [N F].
  exists q, q'. split_and!; [done..| |].
  - rewrite H. unfold throughObj. destruct M as [->| ->]; rewrite Sm, N, F;
      destruct (through_of_matches SideA SideB self other Hr ltac:(done) K1 K2); done.
  - rewrite H', N. intros [_ X]. done.
Qed.
End Meaning.

(** ** Examples *)
Module RelationWitnesses.
Import ModelWitnesses PredicateWitnesses WriteWitnesses RecordWitnesses.

Definition id_type : CppType := int64.
Definition friends_through : Model := DefaultThroughModel "friends" id_type id_type.
Definition friend_fields : list ThroughField :=
  [{| throughPtr := 1; throughType := id_type; modelPtr := 0; modelType := id_type; throughPtrModel := SideA |};
   {| throughPtr := 2; throughType := id_type; modelPtr := 0; modelType := id_type; throughPtrModel := SideB |}].

Example default_fields : default_through_fields users users = Ret friend_fields.
Proof. reflexivity. Qed.

(** The assertion of [manyToManyRelation] passes before the mode is set; the finished
    relation, symmetric and without a reciprocal name, is not valid. *)
Definition friends (mode : SymmetryMode) : option ManyToManyRelation :=
  r ← manyToManyRelation 0 0 friend_fields; Some (withSymmetryMode mode (withRelationName "friends" r)).
Example friends_invalid : option_map isValid (friends SINGLE_ROW) = Some false.
Proof. reflexivity. Qed.

Definition friend_lookup (mode : SymmetryMode) : RelationLookup :=
  {| relation := {| rel_A := 0; rel_B := 0; throughFields := friend_fields; relationName := "friends"; reciprocalName := []; symmetryMode := mode |};
     isReciprocal := false; isSelfRef := true; callerIsA := true; otherIsB := true |}.
Example lookup_friends mode :
  getManyToManyRelation "friends" 0 0 (fun _ => match friends mode with Some r => [r] | None => [] end) = Some (friend_lookup mode).
Proof. reflexivity. Qed.

(** Without a name the relation is found through its empty reciprocal name. *)
Example lookup_unnamed mode :
  option_map isReciprocal (getManyToManyRelation [] 0 0 (fun _ => match friends mode with Some r => [r] | None => [] end)) = Some true.
Proof. reflexivity. Qed.

Lemma friends_ok : model_ok friends_through.
Proof. split; cbn; repeat constructor; set_solver. Qed.

Lemma friend_relation_ok mode : relation_ok friends_through (friend_lookup mode).
Proof.
  split; cbn; [|by repeat constructor|repeat constructor; set_solver].
  repeat constructor; [exists (default_column 1 id_type "pkA" false GENERATE_OFF)|exists (default_column 2 id_type "pkB" false GENERATE_OFF)];
    (split; [|done]); right; [left|right; left].
Qed.

Lemma friend_side_ok mode : side_ok users (friend_lookup mode) (far (friend_lookup mode)).
Proof.
  constructor; [|constructor]. exists (ModelWitnesses.column 0 int64 "id" true DB_INCREMENT UPDATE_OFF). split; [left|done].
Qed.

Lemma friend_keys mode o : (exists n, member o 0 = FInt n) -> key_present (friend_lookup mode) o.
Proof. intros [n E]. repeat constructor; cbn; by rewrite E. Qed.


(** In a single row, Bob does not find Ann. *)
Lemma single_row_one_way_witness :
  exists q q', manyRelated friends_through users (friend_lookup SINGLE_ROW) users ann = Ret q /\
    manyRelated friends_through users (friend_lookup SINGLE_ROW) users bob = Ret q' /\
    selects_pair value_eq friends_through users q bob (throughObj (friend_lookup SINGLE_ROW) ann bob) /\
    ~ selects_pair value_eq friends_through users q' ann (throughObj (friend_lookup SINGLE_ROW) ann bob).
Proof.
  apply (single_row_one_way value_eq value_eq_comm value_eq_refl friends_through users users (friend_lookup SINGLE_ROW) ann bob
    friends_ok users_ok (friend_relation_ok _) (friend_side_ok _) (conj eq_refl eq_refl) eq_refl (or_introl eq_refl)
    (friend_keys _ ann (ex_intro _ 7%Z eq_refl)) (friend_keys _ bob (ex_intro _ 8%Z eq_refl))); [vm_compute; reflexivity|].
  intros H. apply Forall_cons in H as [H _]. vm_compute in H. done.
Defined.
End RelationWitnesses.
