(* ===== verification/Sqlite.v ===== *)
(** Running statements on a connection of SQLite ([db/sqlite3/Sqlite3QueryExecutor.hpp],
    [db/sqlite3/Sqlite3Types.hpp]).  The calls of the library are the class [SQLite], over
    the state of a connection; what its documentation says of them is [SQLiteLaws]. *)
From Stdlib Require Import Floats.SpecFloat.
From S2P Require Import Prelude Bytes Effects DbValue Model.

#[local] Arguments list_ascii_of_string : simpl never.

Inductive SqlValue := SInteger (n : Z) | SFloat (d : spec_float) | SText (s : bytes) | SBlob (b : bytes) | SNull.

Inductive step_result :=
| SQLITE_ROW (vals : list SqlValue) (names : list (option bytes))
| SQLITE_DONE | SQLITE_BUSY | SQLITE_LOCKED | SQLITE_CONSTRAINT | SQLITE_TOOBIG | SQLITE_OTHER.

(** Statements are numbered. *)
Class SQLite (C : Type) := {
  sqlite3_prepare : bytes -> C -> option nat * C;
  sqlite3_stmt_readonly : nat -> C -> bool;
  sqlite3_bind : nat -> nat -> SqlValue -> C -> C;
  sqlite3_step : nat -> C -> step_result * C;
  sqlite3_reset : nat -> C -> C;
  sqlite3_clear_bindings : nat -> C -> C;
  sqlite3_changes : C -> Z;
  sqlite3_errmsg : C -> bytes;
  sqlite3_extended_errcode : C -> Z;
}.

(** The codes of sqlite3.h. *)
Definition SQLITE_CONSTRAINT_PRIMARYKEY : Z := 1555.
Definition SQLITE_CONSTRAINT_FOREIGNKEY : Z := 787.
Definition SQLITE_CONSTRAINT_TRIGGER : Z := 1811.
Definition SQLITE_CONSTRAINT_UNIQUE : Z := 2067.

Record Connection (C : Type) := { dbConnection : C; statements : gmap bytes (nat * bool) }.
Arguments dbConnection {C}.
Arguments statements {C}.

(** A string ends at its first zero byte where it is passed by [c_str()]. *)
Definition c_str (s : bytes) : bytes := match find_char NUL s with Some n => take n s | None => s end.

Section Executor.
Context {C : Type} {SQ : SQLite C}.
(** Whether [data()] of an empty vector is null. *)
Context (empty_data_null : bool).

Definition bind_value (v : DbValue) : SqlValue :=
  match v with
  | VBool b => SInteger (if b then 1 else 0)
  | VInt n => SInteger n
  | VDouble d => SFloat d
  | VText s => SText (c_str s)
  | VBlob [] => if empty_data_null then SNull else SBlob []
  | VBlob b => SBlob b
  | VNull => SNull
  end.

Definition bindQueryParam (stmt index : nat) (v : DbValue) : C -> C := sqlite3_bind stmt (index + 1) (bind_value v).

Definition column_value (v : SqlValue) : DbValue :=
  match v with
  | SInteger n => VInt n
  | SFloat d => VDouble d
  | SText s => VText (c_str s)
  | SBlob b => VBlob b
  | SNull => VNull
  end.

(** The names of the columns, the last of equal ones counting. *)
Definition name_index (names : list (option bytes)) : gmap bytes nat :=
  fold_left (fun m p => <[p.2 := p.1]> m) (imap (fun i name => (i, default [] name)) names) ∅.

Definition db_error (t : DbErrorType) (msg : bytes) : DatabaseError := {| type := t; message := msg |}.

Definition constraint_error (code : Z) (err : bytes) : DatabaseError :=
  if (code =? SQLITE_CONSTRAINT_PRIMARYKEY)%Z then db_error DUPLICATE_KEY err
  else if (code =? SQLITE_CONSTRAINT_FOREIGNKEY)%Z then db_error FOREIGN_KEY_VIOLATION err
  else if (code =? SQLITE_CONSTRAINT_TRIGGER)%Z then db_error TRIGGER_ERROR err
  else if (code =? SQLITE_CONSTRAINT_UNIQUE)%Z then db_error UNIQUE_CONSTRAINT_VIOLATION err
  else db_error CONSTRAINT_VIOLATION err.

(** [None]: the statement still has rows when the fuel is used up. *)
Fixpoint step_loop (fuel : nat) (stmt : nat) (columns : option (gmap bytes nat)) (acc : list Row) : M C (option (expected QueryResult)) :=
  match fuel with
  | 0 => mret None
  | S fuel => fun c =>
      let '(rc, c) := sqlite3_step stmt c in
      match rc with
      | SQLITE_ROW vals names =>
          let columns := match columns with Some m => m | None => name_index names end in
          step_loop fuel stmt (Some columns) (acc ++ [{| values := map column_value vals; columns := columns |}]) c
      | SQLITE_DONE =>
          (Ret (Some (inl {| affectedRows := sqlite3_changes c; rows := acc; result_columns := default ∅ columns |})), c)
      | SQLITE_BUSY | SQLITE_LOCKED => (Ret (Some (inr (db_error DB_BUSY "Database is busy"))), c)
      | SQLITE_CONSTRAINT => (Ret (Some (inr (constraint_error (sqlite3_extended_errcode c) (sqlite3_errmsg c)))), c)
      | SQLITE_TOOBIG => (Ret (Some (inr (db_error OTHER (sqlite3_errmsg c)))), c)
      | SQLITE_OTHER => (Throw (DatabaseException ("SQL error: " ++ sqlite3_errmsg c)), c)
      end
  end.

Fixpoint bind_loop (stmt i : nat) (params : list DbValue) (c : C) : C :=
  match params with [] => c | v :: params => bind_loop stmt (i + 1) params (bindQueryParam stmt i v c) end.

Definition runQuery (fuel stmt : nat) (params : list DbValue) : M C (option (expected QueryResult)) := fun c =>
  step_loop fuel stmt None [] (bind_loop stmt 0 params c).

(** The destructor of [StatementResetGuard]. *)
Definition reset_guard (stmt : nat) (c : C) : C := sqlite3_clear_bindings stmt (sqlite3_reset stmt c).

(** The lock of the mutex, exclusive for writes, is released when the query is done. *)
Definition executeOnConnection (fuel : nat) (sql : bytes) (params : list DbValue) : M (Connection C) (option (expected QueryResult)) := fun conn =>
  let run stmt conn :=
    let '(r, c) := runQuery fuel stmt params (dbConnection conn) in
    (r, {| dbConnection := reset_guard stmt c; statements := statements conn |}) in
  match statements conn !! sql with
  | Some (stmt, isWrite) => run stmt conn
  | None =>
      match sqlite3_prepare (c_str sql) (dbConnection conn) with
      | (None, c) => (Ret (Some (inr (db_error QUERY_ERROR (sqlite3_errmsg c)))), {| dbConnection := c; statements := statements conn |})
      | (Some stmt, c) =>
          let isWrite := negb (sqlite3_stmt_readonly stmt c) in
          run stmt {| dbConnection := c; statements := <[sql := (stmt, isWrite)]> (statements conn) |}
      end
  end.
End Executor.

(** ** What SQLite promises *)

(** The text of a statement ([sqlite3_sql]), its number of parameters, and what is
    bound to it. *)
Class SQLiteView (C : Type) := {
  sqlite3_sql : nat -> C -> option bytes;
  parameter_count : nat -> C -> nat;
  bindings : nat -> C -> gmap nat SqlValue;
}.

Definition same_statements {C} {V : SQLiteView C} (P : nat -> Prop) (c c' : C) : Prop :=
  forall s, (is_Some (sqlite3_sql s c) -> sqlite3_sql s c' = sqlite3_sql s c /\ parameter_count s c' = parameter_count s c) /\
    (is_Some (sqlite3_sql s c) -> P s -> bindings s c' = bindings s c).

Class SQLiteLaws (C : Type) {SQ : SQLite C} {V : SQLiteView C} := {
  prepare_new sql c s c' : sqlite3_prepare sql c = (Some s, c') ->
    sqlite3_sql s c = None /\ sqlite3_sql s c' = Some sql /\ bindings s c' = ∅ /\ same_statements (fun _ => True) c c';
  prepare_error sql c c' : sqlite3_prepare sql c = (None, c') -> same_statements (fun _ => True) c c';
  bind_in s i v c : is_Some (sqlite3_sql s c) -> 1 <= i <= parameter_count s c -> bindings s (sqlite3_bind s i v c) = <[i := v]> (bindings s c);
  bind_others s i v c : same_statements (fun s' => s' <> s) c (sqlite3_bind s i v c);
  step_same s c : same_statements (fun _ => True) c (sqlite3_step s c).2;
  reset_same s c : same_statements (fun _ => True) c (sqlite3_reset s c);
  clear_in s c : is_Some (sqlite3_sql s c) -> bindings s (sqlite3_clear_bindings s c) = ∅;
  clear_others s c : same_statements (fun s' => s' <> s) c (sqlite3_clear_bindings s c);
}.

(** ** A cached statement is as good as a new one *)
Section Cache.
Context {C : Type} `{SL : SQLiteLaws C}.
Context (empty_data_null : bool).
#[local] Abbreviation bind_value := (bind_value empty_data_null).
#[local] Abbreviation known s c := (is_Some (sqlite3_sql s c)).

(** Every cached statement is the one of its text, with nothing bound. *)
Definition cache_ok (conn : Connection C) : Prop := forall sql s w, statements conn !! sql = Some (s, w) ->
  sqlite3_sql s (dbConnection conn) = Some (c_str sql) /\ bindings s (dbConnection conn) = ∅.

Lemma same_trans P Q R c c' c'' : same_statements P c c' -> same_statements Q c' c'' -> (forall s, R s -> P s /\ Q s) -> same_statements R c c''.
Proof.
  intros H1 H2 HR s. destruct (H1 s) as [A1 B1], (H2 s) as [A2 B2]. split.
  - intros K. destruct (A1 K) as [E1 E2]. rewrite <- E1 in K. destruct (A2 K) as [E3 E4]. split; congruence.
  - intros K [p q]%HR. destruct (A1 K) as [E1 _]. rewrite <- (B1 K p). apply B2; [by rewrite E1|done].
Qed.

Lemma same_known P c c' s : same_statements P c c' -> known s c -> known s c'.
Proof. intros H K. destruct (H s) as [A _]. destruct (A K) as [-> _]. done. Qed.

Lemma bind_loop_same s i ps c : same_statements (fun s' => s' <> s) c (bind_loop empty_data_null s i ps c).
Proof.
  revert i c. induction ps as [|v ps IH]; intros i c; cbn [bind_loop]; [by intros s'|].
  eapply same_trans; [apply bind_others|apply IH|]. cbn. tauto.
Qed.

Lemma bind_loop_bound s i ps c : known s c -> i + length ps <= parameter_count s c -> forall k,
  bindings s (bind_loop empty_data_null s i ps c) !! k =
    if decide (i < k <= i + length ps) then bind_value <$> ps !! (k - i - 1) else bindings s c !! k.
Proof.
  revert i c. induction ps as [|v ps IH]; intros i c K Hi k; cbn [bind_loop length] in *.
  { rewrite decide_False by lia. done. }
  pose proof (bind_others s (i + 1) (bind_value v) c) as B. destruct (B s) as [B1 _]. destruct (B1 K) as [Bs Bc].
  unfold bindQueryParam. rewrite IH; [|by eapply same_known|rewrite Bc; lia]. rewrite bind_in by (done || lia).
  destruct (decide (k = i + 1)) as [->|N].
  - rewrite decide_False by lia. rewrite lookup_insert_eq, decide_True by lia. by replace (i + 1 - i - 1) with 0 by lia.
  - rewrite lookup_insert_ne by done. destruct (decide (i + 1 < k <= i + 1 + length ps)).
    + rewrite decide_True by lia. by replace (k - i - 1) with (S (k - (i + 1) - 1)) by lia.
    + rewrite decide_False by lia. done.
Qed.

Lemma step_loop_same fuel s cols acc c : same_statements (fun _ => True) c (step_loop fuel s cols acc c).2.
Proof.
  revert cols acc c. induction fuel as [|fuel IH]; intros cols acc c; cbn [step_loop]; [by intros s'|].
  pose proof (step_same s c) as St. destruct (sqlite3_step s c) as [rc c']. cbn [snd] in St.
  destruct rc; cbn [snd]; try done. eapply same_trans; [exact St|apply IH|done].
Qed.

(** What the statement has bound when it is run: the parameters and nothing else. *)
Definition bound_to (s : nat) (ps : list DbValue) (c : C) : Prop :=
  forall k, bindings s c !! k = match k with 0 => None | S k => bind_value <$> ps !! k end.

(** A run: the statement has the text and the parameters, and is cleared afterwards. *)
Definition ran (fuel : nat) (sql : bytes) (ps : list DbValue) (conn : Connection C)
    (r : outcome (option (expected QueryResult))) (conn' : Connection C) : Prop :=
  exists s c1, sqlite3_sql s c1 = Some (c_str sql) /\ bound_to s ps c1 /\
    r = (step_loop fuel s None [] c1).1 /\ dbConnection conn' = reset_guard s (step_loop fuel s None [] c1).2.

Lemma run_statement fuel sql ps (conn : Connection C) s c :
  cache_ok {| dbConnection := c; statements := statements conn |} ->
  sqlite3_sql s c = Some (c_str sql) -> bindings s c = ∅ -> length ps <= parameter_count s c ->
  let '(r, c') := runQuery empty_data_null fuel s ps c in
  let conn' := {| dbConnection := reset_guard s c'; statements := statements conn |} in
  cache_ok conn' /\ sqlite3_sql s (reset_guard s c') = Some (c_str sql) /\ bindings s (reset_guard s c') = ∅ /\ ran fuel sql ps conn r conn'.
Proof.
  intros Ok Es Eb Hn. unfold runQuery. set (c1 := bind_loop empty_data_null s 0 ps c).
  pose proof (bind_loop_same s 0 ps c) as S1. fold c1 in S1.
  pose proof (step_loop_same fuel s None [] c1) as S2. destruct (step_loop fuel s None [] c1) as [r c'] eqn:E. cbn [snd] in S2.
  assert (S3 : same_statements (fun s' => s' <> s) c (reset_guard s c')).
  { assert (S4 : same_statements (fun s' => s' <> s) c' (reset_guard s c')).
    { eapply (same_trans (fun _ => True) (fun s' => s' <> s)); [apply reset_same|apply clear_others|done]. }
    eapply (same_trans (fun s' => s' <> s) (fun s' => s' <> s)); [|exact S4|done].
    eapply (same_trans (fun s' => s' <> s) (fun _ => True)); [exact S1|exact S2|done]. }
  assert (K : known s c) by (by rewrite Es).
  assert (Hs : sqlite3_sql s (reset_guard s c') = Some (c_str sql)) by (destruct (S3 s) as [A _]; destruct (A K) as [-> _]; done).
  assert (Hb : bindings s (reset_guard s c') = ∅).
  { unfold reset_guard. apply clear_in. eapply same_known; [apply reset_same|]. eapply same_known; [exact S2|]. by eapply same_known. }
  split_and!; [|done|done|].
  - intros sql' s' w Hl. cbn in Hl |- *. destruct (Ok sql' s' w Hl) as [E1 E2]. cbn in E1, E2.
    destruct (decide (s' = s)) as [->|N]; [split; [congruence|done]|].
    destruct (S3 s') as [A B]. assert (K' : known s' c) by (by rewrite E1). destruct (A K') as [-> _]. rewrite (B K' N). done.
  - exists s, c1. destruct (S1 s) as [A _]. destruct (A K) as [A1 _]. split_and!; [congruence| |by rewrite E|by rewrite E].
    intros k. unfold c1. rewrite bind_loop_bound by (done || lia). destruct k as [|k].
    + rewrite decide_False, Eb by lia. apply lookup_empty.
    + destruct (decide (0 < S k <= 0 + length ps)); [by replace (S k - 0 - 1) with k by lia|].
      rewrite Eb, lookup_empty. symmetry. apply fmap_None, lookup_ge_None. lia.
Qed.

End Cache.

(** ** Results *)
Section Results.
Context {C : Type} {SQ : SQLite C}.

(** How a statement goes on: its rows, and how it ends. *)
Inductive ending := Done | Failed (e : DatabaseError) | Broken (e : exn).
Inductive delivers (names : list (option bytes)) (s : nat) : C -> list (list SqlValue) -> ending -> C -> Prop :=
| dl_row c vals c1 rest e c' : sqlite3_step s c = (SQLITE_ROW vals names, c1) -> delivers names s c1 rest e c' ->
    delivers names s c (vals :: rest) e c'
| dl_done c c' : sqlite3_step s c = (SQLITE_DONE, c') -> delivers names s c [] Done c'
| dl_busy c c' rc : sqlite3_step s c = (rc, c') -> rc = SQLITE_BUSY \/ rc = SQLITE_LOCKED ->
    delivers names s c [] (Failed (db_error DB_BUSY "Database is busy")) c'
| dl_constraint c c' : sqlite3_step s c = (SQLITE_CONSTRAINT, c') ->
    delivers names s c [] (Failed (constraint_error (sqlite3_extended_errcode c') (sqlite3_errmsg c'))) c'
| dl_toobig c c' : sqlite3_step s c = (SQLITE_TOOBIG, c') -> delivers names s c [] (Failed (db_error OTHER (sqlite3_errmsg c'))) c'
| dl_other c c' : sqlite3_step s c = (SQLITE_OTHER, c') ->
    delivers names s c [] (Broken (DatabaseException ("SQL error: " ++ sqlite3_errmsg c'))) c'.

Definition make_row (names : list (option bytes)) (vals : list SqlValue) : Row :=
  {| values := map column_value vals; columns := name_index names |}.

Lemma step_loop_delivers names s c rows e c' fuel cols acc :
  delivers names s c rows e c' -> length rows < fuel -> (cols = None \/ cols = Some (name_index names)) ->
  step_loop fuel s cols acc c =
    (match e with
     | Done => Ret (Some (inl {| affectedRows := sqlite3_changes c'; rows := acc ++ map (make_row names) rows;
                 result_columns := match rows, cols with [], None => ∅ | _, _ => name_index names end |}))
     | Failed err => Ret (Some (inr err))
     | Broken x => Throw x
     end, c').
Proof.
  intros D. revert fuel cols acc.
  induction D as [c vals c1 rest e c' St D IH|c c' St|c c' rc St Hrc|c c' St|c c' St|c c' St]; intros fuel cols acc Hf Hc;
    (destruct fuel as [|fuel]; [cbn in Hf; lia|]); cbn [step_loop]; rewrite St; try done.
  - assert (E : match cols with Some m => m | None => name_index names end = name_index names) by (by destruct Hc as [->| ->]).
    rewrite E, IH; [|cbn in Hf; lia|by right]. destruct e; try done. cbn [map]. rewrite <- app_assoc. by destruct rest.
  - destruct Hc as [->| ->]; by rewrite app_nil_r.
  - by destruct Hrc as [->| ->].
Qed.

(** A query that ends is answered completely: when the statement delivers its rows
    and ends, the result holds all rows in order, each value under the name of its
    column, and the number of changes; when it fails midway, nothing of the rows is
    returned but the error that the code of SQLite stands for, or an exception. *)
Theorem query_result names s c rows e c' fuel : delivers names s c rows e c' -> length rows < fuel ->
  step_loop fuel s None [] c =
    (match e with
     | Done => Ret (Some (inl {| affectedRows := sqlite3_changes c'; rows := map (make_row names) rows;
                 result_columns := match rows with [] => ∅ | _ => name_index names end |}))
     | Failed err => Ret (Some (inr err))
     | Broken x => Throw x
     end, c').
Proof.
  intros D Hf. rewrite (step_loop_delivers names s c rows e c' fuel None [] D Hf) by (by left). by destruct e, rows.
Qed.
End Results.

(** ** Values *)
Section Values.
Context (empty_data_null : bool).

(** What SQLite keeps as it is: no NaN (stored as NULL), texts without zero bytes, and
    no empty blob where its data pointer is null. *)
Definition storable (v : DbValue) : Prop :=
  match v with
  | VDouble d => d <> S754_nan
  | VText s => NUL ∉ s
  | VBlob [] => empty_data_null = false
  | VBool _ => False
  | _ => True
  end.

Lemma c_str_id s : NUL ∉ s -> c_str s = s.
Proof.
  intros H. unfold c_str. destruct (find_char NUL s) as [n|] eqn:E; [|done]. exfalso. apply H.
  unfold find_char in E. clear H. revert n E. induction s as [|a s IH]; intros n E; [done|]. cbn [find_if] in E.
  destruct (Ascii.eqb_spec NUL a) as [->|N]; [left|]. destruct (find_if (Ascii.eqb NUL) s) as [k|] eqn:F; [|done].
  right. by apply (IH k).
Qed.

Lemma column_bind v : storable v -> column_value (bind_value empty_data_null v) = v.
Proof.
  destruct v as [n|d|s|b|b|]; cbn; try done.
  - intros H. by rewrite !c_str_id by (rewrite ?c_str_id; done).
  - destruct b as [|x b]; [|done]. by intros ->.
Qed.

Lemma name_index_list (names : list bytes) : NoDup names ->
  name_index (map Some names) = list_to_map (imap (fun i n => (n, i)) names).
Proof.
  intros Nd. unfold name_index.
  assert (E : imap (fun i name => (i, default [] name)) (map Some names) = map (fun p : bytes * nat => (p.2, p.1)) (imap (fun i n => (n, i)) names)).
  { change (@map) with (@fmap list _). rewrite fmap_imap. change (map Some names) with (Some <$> names). rewrite imap_fmap. done. }
  rewrite E. set (l := imap (fun i n => (n, i)) names).
  assert (Hf : NoDup l.*1). { unfold l. rewrite fmap_imap. replace (imap _ _) with names; [done|]. clear. symmetry. apply list_eq. intros i.
    rewrite list_lookup_imap. by destruct (names !! i). }
  clearbody l. clear E Nd names.
  assert (G : forall (m : gmap bytes nat), (forall k, k ∈ l.*1 -> m !! k = None) ->
    fold_left (fun m p => <[p.2 := p.1]> m) (map (fun p : bytes * nat => (p.2, p.1)) l) m = list_to_map l ∪ m).
  { induction l as [|[k i] l IH]; intros m Hm; cbn [map fold_left fst snd]; rewrite ?list_to_map_nil, ?list_to_map_cons; cbn [fst snd].
    - by rewrite (left_id_L ∅ (∪)).
    - apply NoDup_cons in Hf as [Hk Hf]. cbn in Hk, Hf |- *. rewrite IH; [|done|].
      + rewrite <- insert_union_l, <- insert_union_r; [done|]. by apply not_elem_of_list_to_map_1.
      + intros k' H'. rewrite lookup_insert_ne; [apply Hm; by right|]. intros <-. done. }
  rewrite G; [by rewrite (right_id_L ∅ (∪))|]. intros k _. apply lookup_empty.
Qed.

End Values.

(** ** Hydration is well typed *)
Section Typed.
Context (type_name : FieldType -> bytes).

Definition throws_db {A} (r : outcome A) : Prop := exists msg, r = Throw (DatabaseException msg).

(** The index of every column is one of the row. *)
Definition row_ok (row : Row) : Prop := forall name i, columns row !! name = Some i -> i < length (values row).

Lemma fromDbValue_typed t v : (exists f, fromDbValue type_name t v = Ret f /\ f <> FNone /\ has_type {| raw := t; optional := false |} f) \/
  throws_db (fromDbValue type_name t v).
Proof.
  unfold fromDbValue, throws_db. destruct t as [sg bits| | | | |]; cbn [fromDbValueImpl];
    destruct v as [n|d|s|b|b|]; try (right; by eexists); try (left; eexists; split_and!; done).
  - destruct (in_range sg bits n) eqn:R; [left; by eexists|right; by eexists].
  - destruct (_ && _); [right; by eexists|]. destruct (_ && _); [right; by eexists|left; by eexists].
Qed.

Lemma row_get_total (row : Row) name : row_ok row -> (exists v, row_get row name = Ret v) \/ throws_db (row_get row name).
Proof.
  intros Ok. unfold row_get, find_column. destruct (columns row !! name) as [i|] eqn:E; [left|right; by eexists].
  cbn [mbind outcome_bind]. unfold value_at. destruct (lookup_lt_is_Some_2 _ _ (Ok _ _ E)) as [v Hv]. rewrite Hv. eauto.
Qed.

Lemma hydrate_value_typed t (row : Row) name : row_ok row ->
  (exists f, hydrate_value type_name t row name = Ret f /\ has_type t f) \/ throws_db (hydrate_value type_name t row name).
Proof.
  intros Ok. unfold hydrate_value, isNull, as_column.
  destruct (row_get_total row name Ok) as [[v G]|[msg G]]; rewrite G; cbn [mbind outcome_bind].
  - assert (A : (exists f, fromDbValue type_name (raw t) v = Ret f /\ has_type t f) \/ throws_db (fromDbValue type_name (raw t) v)).
    { destruct (fromDbValue_typed (raw t) v) as [(f & E & N & T)|T]; [left|by right]. exists f. split; [done|].
      unfold has_type in *. cbn [raw optional] in T. destruct (raw t), f; done. }
    destruct (optional t) eqn:O; [|exact A]. destruct (is_null v); [|exact A]. left. exists FNone. split; [done|].
    unfold has_type. by destruct (raw t).
  - right. destruct (optional t); by exists msg.
Qed.

Lemma hydrate_columns_typed (row : Row) cols o : row_ok row -> NoDup (map fieldPtr cols) ->
  (exists o', hydrate_columns type_name row [] cols o = Ret o' /\
     (forall p, is_Some (members o' !! p) <-> p ∈ map fieldPtr cols \/ is_Some (members o !! p)) /\
     (forall p, p ∉ map fieldPtr cols -> members o' !! p = members o !! p) /\
     Forall (fun c => has_type (fieldType c) (member o' (fieldPtr c))) cols) \/
  throws_db (hydrate_columns type_name row [] cols o).
Proof.
  intros Ok. revert o. induction cols as [|c cols IH]; intros o Nd.
  { left. exists o. split_and!; try done. intros p. cbn. rewrite elem_of_nil. tauto. }
  cbn [map] in Nd. apply NoDup_cons in Nd as [Nc Nd]. cbn [hydrate_columns]. unfold hydrateModelColumn. change ([] =?b "") with true. cbv iota.
  destruct (hydrate_value_typed (fieldType c) row (dbName c) Ok) as [(f & E & T)|[msg E]]; rewrite E; cbn [mbind outcome_bind]; [|right; by exists msg].
  destruct (IH (assign (fieldPtr c) f o) Nd) as [(o' & E' & H1 & H2 & H3)|H]; [left|by right].
  exists o'. split_and!; [done| | |].
  - intros p. rewrite H1. cbn [map assign members]. rewrite elem_of_cons. destruct (decide (p = fieldPtr c)) as [->|N].
    + rewrite lookup_insert_eq. split; [tauto|]. intros _. right. by eexists.
    + rewrite lookup_insert_ne by done. tauto.
  - intros p Hp. cbn [map] in Hp. apply not_elem_of_cons in Hp as [N Hp]. rewrite H2 by done. cbn. by rewrite lookup_insert_ne.
  - constructor; [|done]. unfold member. rewrite H2 by done. cbn. by rewrite lookup_insert_eq.
Qed.

Lemma make_row_ok names vals : length names <= length vals -> row_ok (make_row names vals).
Proof.
  intros L name i. unfold make_row, name_index. cbn [columns values]. rewrite length_map.
  assert (G : forall l (m : gmap bytes nat), Forall (fun p : nat * bytes => p.1 < length vals) l -> (forall n j, m !! n = Some j -> j < length vals) ->
    forall n j, fold_left (fun m p => <[p.2 := p.1]> m) l m !! n = Some j -> j < length vals).
  { induction l as [|[k x] l IH]; intros m Hl Hm n j; [by apply Hm|]. cbn. apply Forall_cons in Hl as [Hk Hl]. apply (IH _ Hl).
    intros n' j' H. cbn in H. apply lookup_insert_Some in H as [[_ <-]|[_ H]]; [exact Hk|by eapply Hm]. }
  apply G; [|intros n j H; by rewrite lookup_empty in H]. apply Forall_lookup. intros k p H. apply list_lookup_imap_Some in H as (x & Hx & ->).
  cbn. apply lookup_lt_Some in Hx. lia.
Qed.

(** C29: Hydration is type safe: whatever values a statement delivers in a row, the
    object it is read into has exactly the members of its model, each of the type of its
    column, NULL only where the type is optional and integers within their width; a value
    that does not fit is refused with a database exception, and nothing is undefined. *)
Theorem hydration_typed m names vals : NoDup (map fieldPtr (model_columns m)) -> length names <= length vals ->
  (exists o, hydrateModelRow type_name m (make_row names vals) = Ret o /\ persisted_ o = true /\
     (forall p, is_Some (members o !! p) <-> p ∈ map fieldPtr (model_columns m)) /\
     Forall (fun c => has_type (fieldType c) (member o (fieldPtr c))) (model_columns m)) \/
  throws_db (hydrateModelRow type_name m (make_row names vals)).
Proof.
  intros Nd L. unfold hydrateModelRow.
  destruct (hydrate_columns_typed (make_row names vals) (model_columns m) default_object (make_row_ok _ _ L) Nd) as [(o & E & H1 & _ & H3)|[msg E]];
    rewrite E; cbn [mbind outcome_bind]; [left|right; by exists msg].
  exists (setPersisted o). split_and!; [done|done| |exact H3]. intros p. cbn. rewrite H1. cbn. rewrite lookup_empty. split; [|tauto].
  intros [?|[? H]]; [done|discriminate H].
Qed.
End Typed.

(** ** Examples: a connection whose statements answer with what is bound to them *)
Module SqliteWitnesses.
Import ModelWitnesses.

Record echo := { texts : list bytes; bound : gmap nat (gmap nat SqlValue); stepped : gset nat }.

Definition marks (sql : bytes) : nat := length (List.filter (fun c => Ascii.eqb c "?") sql).
Definition count_of (s : nat) (c : echo) : nat := match texts c !! s with Some t => marks t | None => 0 end.
Definition bindings_of (s : nat) (c : echo) : gmap nat SqlValue := default ∅ (bound c !! s).
Definition set_bound (s : nat) (b : gmap nat SqlValue) (c : echo) : echo :=
  {| texts := texts c; bound := <[s := b]> (bound c); stepped := stepped c |}.

#[export] Instance echo_sqlite : SQLite echo := {
  sqlite3_prepare sql c :=
    match sql with
    | [] => (None, c)
    | _ => (Some (length (texts c)), {| texts := texts c ++ [sql]; bound := <[length (texts c) := ∅]> (bound c); stepped := stepped c |})
    end;
  sqlite3_stmt_readonly _ _ := true;
  sqlite3_bind s i v c := if (1 <=? i) && (i <=? count_of s c) then set_bound s (<[i := v]> (bindings_of s c)) c else c;
  sqlite3_step s c :=
    if bool_decide (s ∈ stepped c) then (SQLITE_DONE, c)
    else (SQLITE_ROW (map (fun i => default SNull (bindings_of s c !! i)) (seq 1 (count_of s c))) (replicate (count_of s c) (Some ("v" : bytes))),
          {| texts := texts c; bound := bound c; stepped := {[s]} ∪ stepped c |});
  sqlite3_reset s c := {| texts := texts c; bound := bound c; stepped := stepped c ∖ {[s]} |};
  sqlite3_clear_bindings s c := set_bound s ∅ c;
  sqlite3_changes _ := 0%Z;
  sqlite3_errmsg _ := [];
  sqlite3_extended_errcode _ := 0%Z;
}.

#[export] Instance echo_view : SQLiteView echo := {
  sqlite3_sql s c := texts c !! s;
  parameter_count := count_of;
  bindings := bindings_of;
}.

#[export] Instance echo_laws : SQLiteLaws echo.
Proof.
  split; cbn -[Nat.leb].
  - intros sql c s c'. destruct sql as [|x sql]; [done|]. intros [= <- <-]. cbn. split_and!.
    + apply lookup_ge_None. lia.
    + rewrite lookup_app_r by lia. by rewrite Nat.sub_diag.
    + unfold bindings_of. cbn. by rewrite lookup_insert_eq.
    + intros s. cbn. unfold count_of, bindings_of. cbn. split.
      * intros [t Ht]. by rewrite lookup_app_l by (by eapply lookup_lt_Some).
      * intros [t Ht] _. rewrite lookup_insert_ne; [done|]. apply lookup_lt_Some in Ht. lia.
  - intros sql c c'. destruct sql; [|done]. intros [= <-]. by intros s.
  - intros s i v c _ Hi. rewrite (proj2 (Nat.leb_le 1 i)), (proj2 (Nat.leb_le i _)) by lia. cbn -[Nat.leb]. unfold bindings_of at 1. cbn -[Nat.leb]. by rewrite lookup_insert_eq.
  - intros s i v c s'. destruct (_ && _); [|done]. cbn. split; [done|]. intros _ N. unfold bindings_of at 1. cbn. by rewrite lookup_insert_ne.
  - intros s c s'. by destruct (bool_decide _).
  - intros s c s'. done.
  - intros s c _. unfold bindings_of. cbn. by rewrite lookup_insert_eq.
  - intros s c s'. cbn. split; [done|]. intros _ N. unfold bindings_of. cbn. by rewrite lookup_insert_ne.
Qed.

Definition fresh_conn : Connection echo := {| dbConnection := {| texts := []; bound := ∅; stepped := ∅ |}; statements := ∅ |}.
Definition query : bytes := "SELECT ?, ?".
(** The same statement twice, the second time with one parameter only. *)
Definition after : Connection echo := (executeOnConnection false 3 query [VInt 1; VBool true] fresh_conn).2.

Example first_answer : fst (executeOnConnection false 3 query [VInt 1; VBool true] fresh_conn) =
  Ret (Some (inl {| affectedRows := 0; rows := [{| values := [VInt 1; VInt 1]; columns := {["v" : bytes := 1]} |}]; result_columns := {["v" : bytes := 1]} |})).
Proof. vm_compute. reflexivity. Qed.

(** What is not bound is NULL: the count of the parameters is never checked. *)
Example second_answer : fst (executeOnConnection false 3 query [VText "x"] after) =
  Ret (Some (inl {| affectedRows := 0; rows := [{| values := [VText "x"; VNull]; columns := {["v" : bytes := 1]} |}]; result_columns := {["v" : bytes := 1]} |})).
Proof. vm_compute. reflexivity. Qed.


Definition prepared : echo := {| texts := [query]; bound := {[0 := {[1 := SInteger 5; 2 := SText "y"]}]}; stepped := ∅ |}.
Definition stepped_once : echo := {| texts := [query]; bound := {[0 := {[1 := SInteger 5; 2 := SText "y"]}]}; stepped := {[0]} |}.

Lemma query_result_witness :
  step_loop 3 0 None [] prepared =
    (Ret (Some (inl {| affectedRows := 0; rows := [make_row [Some ("v" : bytes); Some ("v" : bytes)] [SInteger 5; SText "y"]];
       result_columns := name_index [Some ("v" : bytes); Some ("v" : bytes)] |})), stepped_once).
Proof.
  assert (D : delivers [Some ("v" : bytes); Some ("v" : bytes)] 0 prepared [[SInteger 5; SText "y"]] Done stepped_once).
  { eapply dl_row; [vm_compute; reflexivity|]. apply dl_done. vm_compute. reflexivity. }
  assert (L : length [[SInteger 5; SText "y"]] < 3) by (cbn; lia). exact (query_result _ _ _ _ _ _ 3 D L).
Defined.


(** A row whose first value has the wrong type. *)
Lemma hydration_typed_witness : throws_db (hydrateModelRow (fun _ => []) users (make_row (map (fun c => Some (dbName c)) (model_columns users)) [SText "1"; SText "Ann"; SNull; SInteger 7])).
Proof.
  assert (L : length (map (fun c => Some (dbName c)) (model_columns users)) <= length [SText "1"; SText "Ann"; SNull; SInteger 7]) by (vm_compute; lia).
  destruct (hydration_typed (fun _ => []) users _ [SText "1"; SText "Ann"; SNull; SInteger 7] (proj2 users_ok) L) as [(o & E & _)|T]; [|exact T].
  exfalso. revert E. vm_compute. discriminate.
Defined.
End SqliteWitnesses.
