(* ===== verification/Transactions.v ===== *)
(** Transactions and the pool of connections of a database
    ([db/sqlite3/Sqlite3Transaction.hpp], [db/ScopedTransaction.hpp],
    [db/sqlite3/Sqlite3Db.hpp]).  A query runs on a thread of the pool while coroutines go
    on: starting one and its end are separate steps, and an execution is any sequence of
    steps of any number of transactions and queries. *)
From S2P Require Import Prelude Bytes Effects DbValue Sqlite.

#[local] Arguments list_ascii_of_string : simpl never.

Inductive op := Begin (mode : bytes) | Commit | Rollback | Query (sql : bytes) (params : list DbValue).

(** [busy_] is the lock, with the operation that holds it. *)
Record Sqlite3Transaction := { conn_ : nat; ended_ : bool; busy_ : option op }.

Definition Sqlite3Transaction_new (conn : nat) : Sqlite3Transaction := {| conn_ := conn; ended_ := false; busy_ := None |}.
Definition isTransactionEnded (t : Sqlite3Transaction) : bool := ended_ t.
Definition getConnection (t : Sqlite3Transaction) : nat := conn_ t.

Definition op_sql (o : op) : bytes * list DbValue :=
  match o with
  | Begin mode => ("BEGIN TRANSACTION " ++ mode ++ ";", [])
  | Commit => ("COMMIT;" : bytes, [])
  | Rollback => ("ROLLBACK;" : bytes, [])
  | Query sql params => (sql, params)
  end.

Definition acquireTransactionLock (o : op) (t : Sqlite3Transaction) : outcome Sqlite3Transaction :=
  match busy_ t with
  | Some _ => Throw (DatabaseException "Transaction accessed concurrently — a transaction handle must be used sequentially by one caller")
  | None => Ret {| conn_ := conn_ t; ended_ := ended_ t; busy_ := Some o |}
  end.
Definition releaseTransactionLock (t : Sqlite3Transaction) : Sqlite3Transaction :=
  {| conn_ := conn_ t; ended_ := ended_ t; busy_ := None |}.

(** What an operation does before its job: it throws, answers at once, or has its job
    submitted, in which case it keeps the lock. *)
Inductive started := Threw (e : exn) | Answered (e : DatabaseError) | Submitted (t : Sqlite3Transaction).

Definition op_start (o : op) (t : Sqlite3Transaction) : started :=
  match acquireTransactionLock o t with
  | Ret t' =>
      if isTransactionEnded t then
        match o with
        | Commit | Rollback => Answered (db_error TRANSACTION_ENDED [])
        | _ => Threw (DatabaseException "Transaction already ended")
        end
      else Submitted t'
  | Throw e => Threw e
  | Undef => Threw OutOfRange
  end.

(** What it does when its job has come back with a result or an exception. *)
Definition op_finish (o : op) (result : outcome (option (expected QueryResult))) (t : Sqlite3Transaction) : Sqlite3Transaction :=
  let ended := match o, result with (Commit | Rollback), Ret (Some (inl _)) => true | _, _ => ended_ t end in
  releaseTransactionLock {| conn_ := conn_ t; ended_ := ended; busy_ := busy_ t |}.

(** Where the connection of a transaction goes when the transaction is destroyed. *)
Inductive fate := Released | Abandoned | Lost.

(** [fireAndForget] logs that the queue is full and forgets the job ([accepted]); the
    transaction counts as ended all the same. *)
Definition abandon (accepted : bool) (t : Sqlite3Transaction) : outcome (option fate * Sqlite3Transaction) :=
  match busy_ t with
  | Some _ => Throw (DatabaseException "Transaction accessed concurrently — a transaction handle must be used sequentially by one caller")
  | None =>
      if isTransactionEnded t then Ret (None, t)
      else Ret (Some (if accepted then Abandoned else Lost), {| conn_ := conn_ t; ended_ := true; busy_ := None |})
  end.

(** [~Sqlite3Transaction] of a transaction that nobody releases. *)
Definition Sqlite3Transaction_destroy (accepted : bool) (t : Sqlite3Transaction) : outcome fate :=
  '(f, _) ← abandon accepted t; Ret (default Lost f).

(** [ScopedTransaction]: its pointer, null when it was moved from. *)
Definition ScopedTransaction := option Sqlite3Transaction.
Definition ScopedTransaction_move (other : ScopedTransaction) : ScopedTransaction * ScopedTransaction := (other, None).
Definition ScopedTransaction_isTransactionEnded (s : ScopedTransaction) : outcome bool :=
  match s with Some t => Ret (isTransactionEnded t) | None => Undef end.

(** [~ScopedTransaction]; the destructor of the transaction follows. *)
Definition ScopedTransaction_destroy (accepted : bool) (s : ScopedTransaction) : outcome (option fate) :=
  match s with
  | None => Ret None
  | Some t =>
      if isTransactionEnded t then '(_, _) ← abandon accepted t; Ret (Some Released)
      else '(f, t') ← abandon accepted t; _ ← abandon accepted t'; Ret f
  end.

(** The move assignment destroys the transaction that was there, if any. *)
Definition ScopedTransaction_assign (accepted : bool) (this other : ScopedTransaction) :
    outcome (option fate * (ScopedTransaction * ScopedTransaction)) :=
  f ← match this with Some t => Some <$> Sqlite3Transaction_destroy accepted t | None => Ret None end;
  Ret (f, ScopedTransaction_move other).

(** ** The database *)
Section Database.
Context {C : Type} {SQ : SQLite C} (empty_data_null : bool).
(** [sqlite3_exec], as the job of an abandoned transaction uses it. *)
Context (sqlite3_exec : bytes -> C -> C).

(** The connections, where they are, the transactions (in their scopes), and the
    queries that run outside of transactions. *)
Record Sqlite3Db := {
  connections_ : nat -> Connection C;
  available : list nat;
  queries : list (nat * (bytes * list DbValue));
  live : list Sqlite3Transaction;
  abandoned : list nat;
  lost : list nat;
}.

Definition Sqlite3Db_new (opened : nat -> C) (poolSize : nat) : Sqlite3Db :=
  {| connections_ := fun i => {| dbConnection := opened i; statements := ∅ |}; available := seq 0 poolSize; queries := []; live := [];
     abandoned := []; lost := [] |}.

Definition set_conn (i : nat) (conn : Connection C) (d : Sqlite3Db) : Sqlite3Db :=
  {| connections_ := fun j => if decide (j = i) then conn else connections_ d j; available := available d; queries := queries d; live := live d;
     abandoned := abandoned d; lost := lost d |}.
Definition set_available (l : list nat) (d : Sqlite3Db) : Sqlite3Db :=
  {| connections_ := connections_ d; available := l; queries := queries d; live := live d; abandoned := abandoned d; lost := lost d |}.
Definition set_queries (l : list (nat * (bytes * list DbValue))) (d : Sqlite3Db) : Sqlite3Db :=
  {| connections_ := connections_ d; available := available d; queries := l; live := live d; abandoned := abandoned d; lost := lost d |}.
Definition set_live (l : list Sqlite3Transaction) (d : Sqlite3Db) : Sqlite3Db :=
  {| connections_ := connections_ d; available := available d; queries := queries d; live := l; abandoned := abandoned d; lost := lost d |}.
Definition set_abandoned (l : list nat) (d : Sqlite3Db) : Sqlite3Db :=
  {| connections_ := connections_ d; available := available d; queries := queries d; live := live d; abandoned := l; lost := lost d |}.
Definition set_lost (l : list nat) (d : Sqlite3Db) : Sqlite3Db :=
  {| connections_ := connections_ d; available := available d; queries := queries d; live := live d; abandoned := abandoned d; lost := l |}.

(** A job of the pool. *)
Definition run_job (fuel i : nat) (sql : bytes) (params : list DbValue) (d : Sqlite3Db) :
    outcome (option (expected QueryResult)) * Sqlite3Db :=
  let '(r, conn) := executeOnConnection empty_data_null fuel sql params (connections_ d i) in (r, set_conn i conn d).

Definition release_connection (i : nat) (d : Sqlite3Db) : Sqlite3Db := set_available (available d ++ [i]) d.

(** [abandonFn] *)
Definition abandonFn (i : nat) (d : Sqlite3Db) : Sqlite3Db :=
  let conn := connections_ d i in
  release_connection i
    (set_conn i {| dbConnection := sqlite3_exec "ROLLBACK;" (dbConnection conn); statements := statements conn |} d).

(** A null pointer or a transaction of another database is only logged. *)
Definition releaseTransaction (t : option Sqlite3Transaction) (d : Sqlite3Db) : Sqlite3Db :=
  match t with Some t => release_connection (getConnection t) d | None => d end.

Definition goes (f : fate) (t : Sqlite3Transaction) (d : Sqlite3Db) : Sqlite3Db :=
  match f with
  | Released => releaseTransaction (Some t) d
  | Abandoned => set_abandoned (abandoned d ++ [conn_ t]) d
  | Lost => set_lost (lost d ++ [conn_ t]) d
  end.

(** Steps; [begins] are the texts that open a transaction.  Some steps are marked: a
    job that the full queue forgets, a scope that is assigned to while it holds a
    transaction, and a call of [abandon] by the program. *)
Context (begins : bytes -> bool).
Inductive mark := Ordinary | Forgotten | Overwritten | CallsAbandon.

Inductive db_step : mark -> Sqlite3Db -> Sqlite3Db -> Prop :=
| query_start d i rest sql params : available d ≡ₚ i :: rest -> begins (c_str sql) = false ->
    db_step Ordinary d (set_queries ((i, (sql, params)) :: queries d) (set_available rest d))
| query_end d i sql params rest fuel r d' : queries d ≡ₚ (i, (sql, params)) :: rest ->
    run_job fuel i sql params d = (r, d') -> r <> Ret None -> db_step Ordinary d (release_connection i (set_queries rest d'))
| query_refused d i q rest : queries d ≡ₚ (i, q) :: rest -> db_step Ordinary d (release_connection i (set_queries rest d))
| tx_acquire d i rest : available d ≡ₚ i :: rest ->
    db_step Ordinary d (set_live (Sqlite3Transaction_new i :: live d) (set_available rest d))
| tx_start d t rest o t' : live d ≡ₚ t :: rest -> op_start o t = Submitted t' -> db_step Ordinary d (set_live (t' :: rest) d)
| tx_finish d t rest o fuel r d' : live d ≡ₚ t :: rest -> busy_ t = Some o ->
    run_job fuel (conn_ t) (op_sql o).1 (op_sql o).2 d = (r, d') -> r <> Ret None ->
    db_step Ordinary d (set_live (op_finish o r t :: rest) d')
| tx_refused d t rest o : live d ≡ₚ t :: rest -> busy_ t = Some o -> db_step Ordinary d (set_live (releaseTransactionLock t :: rest) d)
| tx_scope_end d t rest accepted f : live d ≡ₚ t :: rest -> ScopedTransaction_destroy accepted (Some t) = Ret (Some f) ->
    db_step (if accepted then Ordinary else Forgotten) d (goes f t (set_live rest d))
| tx_assigned d t rest accepted other f r : live d ≡ₚ t :: rest -> ScopedTransaction_assign accepted (Some t) other = Ret (Some f, r) ->
    db_step Overwritten d (goes f t (set_live rest d))
| tx_abandon d t rest accepted f t' : live d ≡ₚ t :: rest -> abandon accepted t = Ret (Some f, t') ->
    db_step CallsAbandon d (goes f t (set_live (t' :: rest) d))
| abandoned_run d i rest : abandoned d ≡ₚ i :: rest -> db_step Ordinary d (abandonFn i (set_abandoned rest d)).

(** Executions with steps of the allowed marks only. *)
Definition db_run (allowed : mark -> bool) : Sqlite3Db -> Sqlite3Db -> Prop :=
  rtc (fun d d' => exists m, allowed m = true /\ db_step m d d').

Definition no_abandon (m : mark) : bool := match m with CallsAbandon => false | _ => true end.
Definition ordinary (m : mark) : bool := match m with Ordinary => true | _ => false end.

Definition held (d : Sqlite3Db) : list nat := available d ++ map fst (queries d) ++ map conn_ (live d) ++ abandoned d ++ lost d.

Lemma goes_held f t d : held (goes f t d) ≡ₚ conn_ t :: held d.
Proof. destruct f; unfold held; cbn; rewrite ?(Permutation_app_comm _ [conn_ t]), ?app_assoc; solve_Permutation. Qed.
End Database.
Arguments Sqlite3Db : clear implicits.

(** ** Where connections are *)
Section Conservation.
Context {C : Type} {SQ : SQLite C} (empty_data_null : bool) (sqlite3_exec : bytes -> C -> C) (begins : bytes -> bool).
#[local] Abbreviation db_step := (db_step empty_data_null sqlite3_exec begins).
#[local] Abbreviation db_run := (db_run empty_data_null sqlite3_exec begins).
Implicit Types d : Sqlite3Db C.

Lemma run_job_places fuel i sql ps d r d' : run_job empty_data_null fuel i sql ps d = (r, d') -> exists conn, d' = set_conn i conn d.
Proof. unfold run_job. destruct (executeOnConnection _ _ _ _ _) as [r' conn]. intros [= _ <-]. by eexists. Qed.

Lemma op_finish_conn o r t : conn_ (op_finish o r t) = conn_ t.
Proof. done. Qed.

Lemma op_start_submits o t t' : op_start o t = Submitted t' ->
  ended_ t = false /\ t' = {| conn_ := conn_ t; ended_ := false; busy_ := Some o |}.
Proof.
  unfold op_start, acquireTransactionLock, isTransactionEnded. destruct t as [i e [o'|]]; cbn; [done|].
  destruct e; [by destruct o|]. by intros [= <-].
Qed.

Lemma destroy_fate accepted t f : ScopedTransaction_destroy accepted (Some t) = Ret (Some f) ->
  f = if ended_ t then Released else if accepted then Abandoned else Lost.
Proof.
  unfold ScopedTransaction_destroy, abandon, isTransactionEnded. destruct t as [i [] [o|]]; cbn; try done; by intros [= <-].
Qed.

Lemma step_held m d d' : db_step m d d' -> m <> CallsAbandon -> held d' ≡ₚ held d.
Proof.
  intros S Hm. destruct S as [d i rest sql ps H _|d i sql ps rest fuel r d' H J _|d i q rest H|d i rest H|d t rest o t' H St|d t rest o fuel r d' H _ J _
    |d t rest o H _|d t rest accepted f H _|d t rest accepted other f r H _|d t rest accepted f t' H _|d i rest H]; try done.
  - unfold held; cbn. rewrite H. solve_Permutation.
  - destruct (run_job_places _ _ _ _ _ _ _ J) as [conn ->]. unfold held; cbn. rewrite H. cbn. solve_Permutation.
  - unfold held; cbn. rewrite H. cbn. solve_Permutation.
  - unfold held; cbn. rewrite H. solve_Permutation.
  - apply op_start_submits in St as [_ ->]. unfold held; cbn. rewrite H. cbn. solve_Permutation.
  - destruct (run_job_places _ _ _ _ _ _ _ J) as [conn ->]. unfold held; cbn. rewrite H. cbn. solve_Permutation.
  - unfold held; cbn. rewrite H. cbn. solve_Permutation.
  - rewrite goes_held. unfold held; cbn. rewrite H. cbn. solve_Permutation.
  - rewrite goes_held. unfold held; cbn. rewrite H. cbn. solve_Permutation.
  - unfold held; cbn. rewrite H. cbn. solve_Permutation.
Qed.

Lemma run_held allowed d d' : db_run allowed d d' -> allowed CallsAbandon = false -> held d' ≡ₚ held d.
Proof.
  intros R Ha. induction R as [d|d d1 d' (m & Hm & S) _ IH]; [done|]. rewrite IH. eapply step_held; [exact S|]. intros ->. congruence.
Qed.

Lemma step_lost m d d' : db_step m d d' -> ordinary m = true -> lost d' = lost d.
Proof.
  intros S Hm. destruct S as [| d i sql ps rest fuel r d' H J _ | | | | d t rest o fuel r d' H _ J _ | |d t rest accepted f H D| | |]; try done.
  - by destruct (run_job_places _ _ _ _ _ _ _ J) as [conn ->].
  - by destruct (run_job_places _ _ _ _ _ _ _ J) as [conn ->].
  - destruct accepted; [|done]. rewrite (destroy_fate _ _ _ D). by destruct (ended_ t).
Qed.


(** Calling [abandon] on a scoped transaction gives its connection back twice, once
    by the rollback job and once by the end of the scope: the pool then holds it twice. *)
Theorem abandon_releases_twice opened n : exists d,
  db_run (fun _ => true) (Sqlite3Db_new opened (S n)) d /\ available d = seq 1 n ++ [0; 0].
Proof.
  eexists. split.
  { eapply rtc_l; [exists Ordinary; split; [done|]; apply (tx_acquire _ _ _ _ 0 (seq 1 n)); done|].
    eapply rtc_l; [exists CallsAbandon; split; [done|]; eapply (tx_abandon _ _ _ _ (Sqlite3Transaction_new 0) [] true); reflexivity|].
    eapply rtc_l; [exists Ordinary; split; [done|]; apply (abandoned_run _ _ _ _ 0 []); reflexivity|].
    eapply rtc_l; [|apply rtc_refl]. exists Ordinary. split; [done|]. eapply (tx_scope_end _ _ _ _ {| conn_ := 0; ended_ := true; busy_ := None |} [] true); reflexivity. }
  cbn. by rewrite <- app_assoc.
Qed.
End Conservation.

(** ** The pool holds no open transaction *)

(** What SQLite says of transactions: [BEGIN] and its like open one, [COMMIT] and
    [ROLLBACK] end it when they are done. *)
Class SQLiteTransactions (C : Type) {SQ : SQLite C} {V : SQLiteView C} := {
  in_transaction : C -> bool;
  exec : bytes -> C -> C;
  opens : bytes -> bool;
  prepare_keeps sql c : in_transaction (sqlite3_prepare sql c).2 = in_transaction c;
  bind_keeps s i v c : in_transaction (sqlite3_bind s i v c) = in_transaction c;
  reset_keeps s c : in_transaction (sqlite3_reset s c) = in_transaction c;
  clear_keeps s c : in_transaction (sqlite3_clear_bindings s c) = in_transaction c;
  step_keeps s c t : sqlite3_sql s c = Some t -> opens t = false -> in_transaction c = false -> in_transaction (sqlite3_step s c).2 = false;
  step_ends s c t c' : sqlite3_sql s c = Some t -> t = ("COMMIT;" : bytes) \/ t = ("ROLLBACK;" : bytes) ->
    sqlite3_step s c = (SQLITE_DONE, c') -> in_transaction c' = false;
  exec_rollback c : in_transaction (exec "ROLLBACK;" c) = false;
  exec_same sql c : same_statements (fun _ => True) c (exec sql c);
}.

Section Clean.
Context {C : Type} `{SL : SQLiteLaws C} {ST : SQLiteTransactions C} (empty_data_null : bool).
#[local] Abbreviation db_step := (db_step empty_data_null exec opens).
#[local] Abbreviation db_run := (db_run empty_data_null exec opens).
#[local] Abbreviation execute := (executeOnConnection empty_data_null).
Implicit Types (d : Sqlite3Db C) (conn : Connection C).

(** Every cached statement is the one of its text. *)
Definition texts_ok conn : Prop := forall sql s w, statements conn !! sql = Some (s, w) ->
  sqlite3_sql s (dbConnection conn) = Some (c_str sql).

Definition clean conn : Prop := in_transaction (dbConnection conn) = false.

Lemma bind_loop_keeps s i ps c : in_transaction (bind_loop empty_data_null s i ps c) = in_transaction c.
Proof. revert i c. induction ps as [|v ps IH]; intros i c; cbn [bind_loop]; [done|]. rewrite IH. apply bind_keeps. Qed.

Lemma step_loop_keeps fuel s t cols acc c : sqlite3_sql s c = Some t -> opens t = false -> in_transaction c = false ->
  in_transaction (step_loop fuel s cols acc c).2 = false.
Proof.
  intros Hs Ho. revert cols acc c Hs. induction fuel as [|fuel IH]; intros cols acc c Hs Hc; cbn [step_loop]; [done|].
  pose proof (step_keeps s c t Hs Ho Hc) as Hk. pose proof (step_same s c s) as [Sm _]. destruct (sqlite3_step s c) as [rc c']. cbn in Hk, Sm.
  destruct rc; try done. cbn. apply IH; [|done]. destruct Sm as [-> _]; [by rewrite Hs|done].
Qed.

Lemma step_loop_ends fuel s t cols acc c q : sqlite3_sql s c = Some t -> t = ("COMMIT;" : bytes) \/ t = ("ROLLBACK;" : bytes) ->
  (step_loop fuel s cols acc c).1 = Ret (Some (inl q)) -> in_transaction (step_loop fuel s cols acc c).2 = false.
Proof.
  intros Hs Ht. revert cols acc c Hs. induction fuel as [|fuel IH]; intros cols acc c Hs; cbn [step_loop]; [done|].
  pose proof (step_ends s c t) as He. pose proof (step_same s c s) as [Sm _]. destruct (sqlite3_step s c) as [rc c']. cbn in Sm.
  destruct rc; cbn [fst snd]; try done; [|by intros _; apply He]. apply IH. destruct Sm as [-> _]; [by rewrite Hs|done].
Qed.

Lemma guard_keeps s c : in_transaction (reset_guard s c) = in_transaction c.
Proof. unfold reset_guard. by rewrite clear_keeps, reset_keeps. Qed.

Lemma texts_same P c c' sts : same_statements P c c' -> texts_ok {| dbConnection := c; statements := sts |} ->
  texts_ok {| dbConnection := c'; statements := sts |}.
Proof.
  intros Sm Ok sql s w H. cbn in H |- *. pose proof (Ok _ _ _ H) as E. cbn in E. destruct (Sm s) as [A _].
  destruct A as [-> _]; [by rewrite E|done].
Qed.

(** The statement is found or prepared, then run and reset. *)
Lemma execute_shape fuel sql ps conn r conn' : execute fuel sql ps conn = (r, conn') -> texts_ok conn ->
  (exists s c0 sts, sqlite3_sql s c0 = Some (c_str sql) /\ in_transaction c0 = in_transaction (dbConnection conn) /\
     texts_ok {| dbConnection := c0; statements := sts |} /\ (r, conn') =
       (let '(r, c) := step_loop fuel s None [] (bind_loop empty_data_null s 0 ps c0) in
        (r, {| dbConnection := reset_guard s c; statements := sts |}))) \/
  (exists msg, r = Ret (Some (inr (db_error QUERY_ERROR msg)))) /\ texts_ok conn' /\
     in_transaction (dbConnection conn') = in_transaction (dbConnection conn).
Proof.
  intros E Ok. unfold executeOnConnection, runQuery in E. destruct (statements conn !! sql) as [[s w]|] eqn:Hs.
  - left. exists s, (dbConnection conn), (statements conn). split_and!; [by eapply Ok|done|by destruct conn|]. by rewrite <- E.
  - pose proof (prepare_keeps (c_str sql) (dbConnection conn)) as Hk.
    destruct (sqlite3_prepare (c_str sql) (dbConnection conn)) as [[s|] c] eqn:P; cbn [snd] in Hk.
    + destruct (prepare_new _ _ _ _ P) as (_ & E1 & _ & Sm). left.
      exists s, c, (<[sql := (s, negb (sqlite3_stmt_readonly s c))]> (statements conn)). split_and!; [done|done| |by rewrite <- E].
      intros sql' s' w Hl. cbn in Hl |- *. destruct (decide (sql' = sql)) as [->|N].
      * rewrite lookup_insert_eq in Hl. by injection Hl as <- <-.
      * rewrite lookup_insert_ne in Hl by done. eapply (texts_same _ _ _ (statements conn) Sm); [by destruct conn|done].
    + right. injection E as <- <-. split_and!; [by eexists| |done].
      eapply (texts_same _ _ _ (statements conn)); [by eapply prepare_error|by destruct conn].
Qed.

Lemma run_same fuel s i ps cols acc c : same_statements (fun s' => s' <> s) c
  (reset_guard s (step_loop fuel s cols acc (bind_loop empty_data_null s i ps c)).2).
Proof.
  eapply (same_trans (fun s' => s' <> s) (fun s' => s' <> s)); [apply bind_loop_same| |done].
  eapply (same_trans (fun _ => True) (fun s' => s' <> s)); [apply step_loop_same| |done].
  eapply (same_trans (fun _ => True) (fun s' => s' <> s)); [apply reset_same|apply clear_others|done].
Qed.

Lemma execute_texts fuel sql ps conn r conn' : execute fuel sql ps conn = (r, conn') -> texts_ok conn -> texts_ok conn'.
Proof.
  intros E Ok. destruct (execute_shape _ _ _ _ _ _ E Ok) as [(s & c0 & sts & _ & _ & Ok0 & E')|(_ & ? & _)]; [|done].
  pose proof (run_same fuel s 0 ps None [] c0) as Sm. destruct (step_loop _ _ _ _ _) as [r' c']. injection E' as _ ->.
  by eapply texts_same.
Qed.

(** A query that does not open a transaction does not leave one open. *)
Lemma execute_clean fuel sql ps conn r conn' : execute fuel sql ps conn = (r, conn') -> texts_ok conn ->
  opens (c_str sql) = false -> clean conn -> clean conn'.
Proof.
  intros E Ok Ho Hc. unfold clean in *. destruct (execute_shape _ _ _ _ _ _ E Ok) as [(s & c0 & sts & Hs & Ht & _ & E')|(_ & _ & ->)]; [|done].
  pose proof (step_loop_keeps fuel s (c_str sql) None [] (bind_loop empty_data_null s 0 ps c0)) as K.
  destruct (step_loop _ _ _ _ _) as [r' c']. injection E' as _ ->. cbn in K |- *. rewrite guard_keeps. apply K; [|done|by rewrite bind_loop_keeps, Ht].
  destruct (bind_loop_same empty_data_null s 0 ps c0 s) as [A _]. destruct A as [-> _]; [by rewrite Hs|done].
Qed.

(** A commit or rollback with a result ends the transaction. *)
Lemma execute_ends fuel sql ps conn q conn' : execute fuel sql ps conn = (Ret (Some (inl q)), conn') -> texts_ok conn ->
  c_str sql = ("COMMIT;" : bytes) \/ c_str sql = ("ROLLBACK;" : bytes) -> clean conn'.
Proof.
  intros E Ok Ht. unfold clean. destruct (execute_shape _ _ _ _ _ _ E Ok) as [(s & c0 & sts & Hs & _ & _ & E')|([msg ?] & _)]; [|done].
  pose proof (step_loop_ends fuel s (c_str sql) None [] (bind_loop empty_data_null s 0 ps c0) q) as K.
  destruct (step_loop _ _ _ _ _) as [r' c']. injection E' as <- ->. cbn in K |- *. rewrite guard_keeps. apply K; [|done|done].
  destruct (bind_loop_same empty_data_null s 0 ps c0 s) as [A _]. destruct A as [-> _]; [by rewrite Hs|done].
Qed.

Record pool_ok d : Prop := {
  po_once : NoDup (held d);
  po_texts i : texts_ok (connections_ d i);
  po_free i : i ∈ available d ++ map fst (queries d) -> clean (connections_ d i);
  po_queries i sql ps : (i, (sql, ps)) ∈ queries d -> opens (c_str sql) = false;
  po_ended t : t ∈ live d -> ended_ t = true -> clean (connections_ d (conn_ t)) /\ busy_ t = None;
}.

Lemma once_first (l l' : list nat) i : NoDup l -> l ≡ₚ i :: l' -> i ∉ l'.
Proof. intros N P. rewrite P in N. by apply NoDup_cons in N as [? _]. Qed.

Lemma once_query d i q rest : NoDup (held d) -> queries d ≡ₚ (i, q) :: rest -> i ∉ available d ++ map fst rest ++ map conn_ (live d).
Proof.
  intros N P. assert (H : i ∉ (available d ++ map fst rest ++ map conn_ (live d)) ++ abandoned d ++ lost d); [|set_solver].
  eapply once_first; [exact N|]. unfold held. rewrite P. cbn. solve_Permutation.
Qed.

Lemma once_live d t rest : NoDup (held d) -> live d ≡ₚ t :: rest -> conn_ t ∉ available d ++ map fst (queries d) ++ map conn_ rest.
Proof.
  intros N P. assert (H : conn_ t ∉ (available d ++ map fst (queries d) ++ map conn_ rest) ++ abandoned d ++ lost d); [|set_solver].
  eapply once_first; [exact N|]. unfold held. rewrite P. cbn. solve_Permutation.
Qed.

Lemma once_abandoned d i rest : NoDup (held d) -> abandoned d ≡ₚ i :: rest -> i ∉ available d ++ map fst (queries d) ++ map conn_ (live d).
Proof.
  intros N P. assert (H : i ∉ (available d ++ map fst (queries d) ++ map conn_ (live d)) ++ rest ++ lost d); [|set_solver].
  eapply once_first; [exact N|]. unfold held. rewrite P. solve_Permutation.
Qed.

Lemma elem_conn t (l : list Sqlite3Transaction) : t ∈ l -> conn_ t ∈ map conn_ l.
Proof. apply (list_elem_of_fmap_2 conn_). Qed.

Lemma conn_other x l l' rest u : x ∉ l ++ l' ++ map conn_ rest -> u ∈ rest -> conn_ u <> x.
Proof. intros O Hu%elem_conn <-. apply O. apply elem_of_app; right. apply elem_of_app; by right. Qed.

Lemma place_other x i (l l' l'' : list nat) : x ∉ l ++ l' ++ l'' -> i ∈ l ++ l' -> i <> x.
Proof. intros O Hi ->. apply O. rewrite app_assoc. apply elem_of_app. by left. Qed.

Lemma set_conn_texts i j conn d : texts_ok conn -> texts_ok (connections_ d j) -> texts_ok (connections_ (set_conn i conn d) j).
Proof. cbn. by destruct (decide _). Qed.

Lemma pool_query_end d i sql ps rest fuel r d' : pool_ok d -> queries d ≡ₚ (i, (sql, ps)) :: rest ->
  run_job empty_data_null fuel i sql ps d = (r, d') ->
  NoDup (held (release_connection i (set_queries rest d'))) -> pool_ok (release_connection i (set_queries rest d')).
Proof.
  intros [N T F Q E] P J N'. unfold run_job in J. destruct (execute fuel sql ps (connections_ d i)) as [r' conn] eqn:Ex.
  injection J as _ <-. pose proof (once_query _ _ _ _ N P) as O.
  assert (Hi : (i, (sql, ps)) ∈ queries d) by (rewrite P; left).
  assert (Hc : clean conn).
  { eapply execute_clean; [exact Ex|apply T|by eapply Q|]. apply F, elem_of_app. right. exact (list_elem_of_fmap_2 fst _ _ Hi). }
  split; [done| | | |].
  - intros j. apply set_conn_texts; [by eapply execute_texts|apply T].
  - intros j Hj. destruct (decide (j = i)) as [->|Nj]; [by cbn; rewrite decide_True by done|].
    cbn; rewrite decide_False by done. apply F. cbn in Hj. rewrite P. cbn. set_solver.
  - intros j sql' ps' Hj. eapply Q. rewrite P. right. exact Hj.
  - intros t Ht He. cbn in Ht |- *. rewrite decide_False; [by apply E|]. by eapply conn_other.
Qed.

Lemma pool_tx_finish d t rest o fuel r d' : pool_ok d -> live d ≡ₚ t :: rest -> busy_ t = Some o ->
  run_job empty_data_null fuel (conn_ t) (op_sql o).1 (op_sql o).2 d = (r, d') ->
  NoDup (held (set_live (op_finish o r t :: rest) d')) -> pool_ok (set_live (op_finish o r t :: rest) d').
Proof.
  intros [N T F Q E] P B J N'. unfold run_job in J. destruct (execute _ _ _ _) as [r' conn] eqn:Ex.
  injection J as -> <-. pose proof (once_live _ _ _ N P) as O. assert (Ht : t ∈ live d) by (rewrite P; left).
  assert (He : ended_ t = false) by (destruct (ended_ t) eqn:Et; [destruct (E t Ht Et); congruence|done]).
  split; [done| | | |].
  - intros j. apply set_conn_texts; [by eapply execute_texts|apply T].
  - intros j Hj. cbn in Hj |- *. rewrite decide_False; [by apply F|]. by eapply place_other.
  - exact Q.
  - intros u Hu Eu. cbn in Hu. apply elem_of_cons in Hu as [->|Hu].
    + split; [|done]. cbn; rewrite decide_True by done. unfold op_finish in Eu. cbn in Eu. rewrite He in Eu.
      destruct o, r as [[[q|]|]| |]; try done; (eapply execute_ends; [exact Ex|apply T|]); [left|right]; reflexivity.
    + cbn. rewrite decide_False; [apply E; [|done]; rewrite P; by right|]. by eapply conn_other.
Qed.

Lemma pool_abandoned_run d i rest : pool_ok d -> abandoned d ≡ₚ i :: rest ->
  NoDup (held (abandonFn exec i (set_abandoned rest d))) -> pool_ok (abandonFn exec i (set_abandoned rest d)).
Proof.
  intros [N T F Q E] P N'. pose proof (once_abandoned _ _ _ N P) as O.
  split; [done| | | |].
  - intros j. cbn. destruct (decide (j = i)); [|apply T]. eapply texts_same; [apply exec_same|]. cbn. specialize (T i). by destruct (connections_ d i).
  - intros j Hj. cbn in Hj |- *. destruct (decide (j = i)); [apply exec_rollback|]. apply F. set_solver.
  - exact Q.
  - intros t Ht He. cbn. rewrite decide_False; [by apply E|]. by eapply conn_other.
Qed.

(** A transaction that leaves gives back a clean connection, or none. *)
Lemma pool_goes f d t rest : pool_ok d -> live d ≡ₚ t :: rest -> (f = Released -> clean (connections_ d (conn_ t))) ->
  NoDup (held (goes f t (set_live rest d))) -> pool_ok (goes f t (set_live rest d)).
Proof.
  intros [N T F Q E] P Hf N'. split; [done| | | |].
  - intros j. destruct f; apply T.
  - intros j Hj. destruct f; cbn in Hj |- *; try by apply F. apply elem_of_app in Hj as [[Hj|Hj]%elem_of_app|Hj];
      [apply F; set_solver|apply list_elem_of_singleton in Hj as ->; by apply Hf|apply F; set_solver].
  - intros j sql ps Hj. eapply Q. by destruct f.
  - intros u Hu Eu. assert (Hl : u ∈ live d) by (rewrite P; right; by destruct f). destruct (E u Hl Eu). by destruct f.
Qed.

(** Only the lists of the transactions change. *)
Lemma pool_live d l : pool_ok d -> NoDup (held (set_live l d)) ->
  (forall t, t ∈ l -> ended_ t = true -> t ∈ live d \/ clean (connections_ d (conn_ t)) /\ busy_ t = None) -> pool_ok (set_live l d).
Proof.
  intros [N T F Q E] N' H. split; [done|exact T|exact F|exact Q|]. intros t Ht Et. destruct (H t Ht Et) as [Hl|?]; [by apply E|done].
Qed.

Lemma pool_step m d d' : db_step m d d' -> m <> CallsAbandon -> pool_ok d -> pool_ok d'.
Proof.
  intros S Hm Ok. assert (N' : NoDup (held d')) by (rewrite (step_held _ _ _ _ _ _ S Hm); apply Ok).
  destruct S as [d i rest sql ps H Ho|d i sql ps rest fuel r d' H J _|d i q rest H|d i rest H|d t rest o t' H St|d t rest o fuel r d' H B J _
    |d t rest o H B|d t rest accepted f H D|d t rest accepted other f r H D|d t rest accepted f t' H _|d i rest H]; try done.
  - destruct Ok as [N T F Q E]. split; [done|exact T| | |exact E].
    + intros j Hj. apply F. cbn in Hj. rewrite H. set_solver.
    + intros j sql' ps' Hj. cbn in Hj. apply elem_of_cons in Hj as [[= -> -> ->]|Hj]; [done|by eapply Q].
  - by eapply pool_query_end.
  - destruct Ok as [N T F Q E]. split; [done|exact T| | |exact E].
    + intros j Hj. apply F. cbn in Hj. rewrite H. cbn. set_solver.
    + intros j sql' ps' Hj. eapply Q. rewrite H. right. exact Hj.
  - destruct Ok as [N T F Q E]. split; [done|exact T| |exact Q|].
    + intros j Hj. apply F. cbn in Hj. rewrite H. set_solver.
    + intros t Ht Et. cbn in Ht. apply elem_of_cons in Ht as [->|Ht]; [done|by apply E].
  - apply op_start_submits in St as [He ->]. apply pool_live; [done|done|]. intros u [->|Hu]%elem_of_cons Eu; [done|].
    left. rewrite H. by right.
  - by eapply pool_tx_finish.
  - assert (Ht : t ∈ live d) by (rewrite H; left). apply pool_live; [done|done|]. intros u [->|Hu]%elem_of_cons Eu.
    + right. split; [by apply (po_ended _ Ok t)|done].
    + left. rewrite H. by right.
  - assert (Ht : t ∈ live d) by (rewrite H; left). apply pool_goes; [done|done| |done]. intros ->.
    apply destroy_fate in D. destruct (ended_ t) eqn:Et; [by apply (po_ended _ Ok t)|by destruct accepted].
  - apply pool_goes; [done|done| |done]. intros ->. exfalso. unfold ScopedTransaction_assign, Sqlite3Transaction_destroy, abandon, isTransactionEnded in D.
    destruct t as [i [] [o|]], accepted; cbn in D; done.
  - by eapply pool_abandoned_run.
Qed.

End Clean.

(** ** Examples: the echoing connection, with a transaction state *)
Module TransactionWitnesses.
Import SqliteWitnesses.

Definition tx_kind (t : bytes) : option bool :=
  if decide (t = ("COMMIT;" : bytes) \/ t = ("ROLLBACK;" : bytes)) then Some false
  else if bool_decide (take 5 t = ("BEGIN" : bytes)) then Some true else None.

#[export] Instance tx_sqlite : SQLite (echo * bool) := {
  sqlite3_prepare sql c := let '(s, e) := sqlite3_prepare sql c.1 in (s, (e, c.2));
  sqlite3_stmt_readonly s c := sqlite3_stmt_readonly s c.1;
  sqlite3_bind s i v c := (sqlite3_bind s i v c.1, c.2);
  sqlite3_step s c :=
    let '(rc, e) := sqlite3_step s c.1 in
    (rc, (e, match rc with SQLITE_DONE => default c.2 (tx_kind (default [] (texts c.1 !! s))) | _ => c.2 end));
  sqlite3_reset s c := (sqlite3_reset s c.1, c.2);
  sqlite3_clear_bindings s c := (sqlite3_clear_bindings s c.1, c.2);
  sqlite3_changes _ := 0%Z;
  sqlite3_errmsg _ := [];
  sqlite3_extended_errcode _ := 0%Z;
}.

#[export] Instance tx_view : SQLiteView (echo * bool) := {
  sqlite3_sql s c := sqlite3_sql s c.1;
  parameter_count s c := parameter_count s c.1;
  bindings s c := bindings s c.1;
}.

#[export] Instance tx_laws : SQLiteLaws (echo * bool).
Proof.
  split.
  - intros sql c s c' H. cbn -[echo_sqlite] in H |- *. destruct (sqlite3_prepare sql c.1) as [[k|] e] eqn:P; [|done].
    injection H as <- <-. exact (prepare_new _ _ _ _ P).
  - intros sql c c' H. cbn -[echo_sqlite] in H |- *. destruct (sqlite3_prepare sql c.1) as [[k|] e] eqn:P; [done|].
    injection H as <-. exact (prepare_error _ _ _ P).
  - intros s i v c. apply (bind_in s i v c.1).
  - intros s i v c. apply (bind_others s i v c.1).
  - intros s c. pose proof (step_same s c.1) as H. cbn -[echo_sqlite]. by destruct (sqlite3_step s c.1).
  - intros s c. apply (reset_same s c.1).
  - intros s c. apply (clear_in s c.1).
  - intros s c. apply (clear_others s c.1).
Qed.

#[export] Instance tx_transactions : SQLiteTransactions (echo * bool).
Proof.
  refine {|
    in_transaction := fun c : echo * bool => c.2;
    exec := fun sql c => (c.1, default c.2 (tx_kind sql));
    opens := fun t => bool_decide (tx_kind t = Some true);
  |}.
  - intros sql c. cbn -[echo_sqlite]. by destruct (sqlite3_prepare sql c.1).
  - done.
  - done.
  - done.
  - intros s c t Hs Ho Hc. apply bool_decide_eq_false in Ho. cbn in Hs. cbn -[echo_sqlite tx_kind]. rewrite Hs. cbn [default].
    destruct (sqlite3_step s c.1) as [[] e]; try done. cbn -[tx_kind]. by destruct (tx_kind t) as [[]|].
  - intros s c t c' Hs Ht. cbn in Hs. cbn -[echo_sqlite tx_kind]. rewrite Hs. cbn [default].
    destruct (sqlite3_step s c.1) as [[] e]; try done. intros [= <-]. unfold tx_kind. by rewrite decide_True.
  - intros c. unfold tx_kind. rewrite decide_True by (by right). done.
  - intros sql c s. done.
Defined.

(** One connection: a transaction begins, commits and leaves its scope. *)
Definition opened (i : nat) : echo * bool := (dbConnection fresh_conn, false).
#[local] Abbreviation start := (Sqlite3Db_new opened 1).
Definition tx (o : option op) : Sqlite3Transaction := {| conn_ := 0; ended_ := false; busy_ := o |}.
Definition closed : Sqlite3Transaction := {| conn_ := 0; ended_ := true; busy_ := None |}.
Definition job (o : op) (d : Sqlite3Db (echo * bool)) : Sqlite3Db (echo * bool) :=
  (run_job false 3 0 (op_sql o).1 (op_sql o).2 d).2.
Definition begun : Sqlite3Db (echo * bool) := set_live [tx None] (job (Begin "DEFERRED") (set_live [tx None] (set_available [] start))).
Definition committed : Sqlite3Db (echo * bool) := release_connection 0 (set_live [] (job Commit begun)).

Example begun_open : in_transaction (dbConnection (connections_ begun 0)) = true.
Proof. vm_compute. reflexivity. Qed.

Lemma commit_run : db_run false exec opens ordinary start committed.
Proof.
  eapply rtc_l; [exists Ordinary; split; [done|]; apply (tx_acquire _ _ _ _ 0 []); reflexivity|].
  eapply rtc_l; [exists Ordinary; split; [done|]; apply (tx_start _ _ _ _ (tx None) [] (Begin "DEFERRED") (tx (Some (Begin "DEFERRED")))); reflexivity|].
  eapply rtc_l; [exists Ordinary; split; [done|]; eapply (tx_finish _ _ _ _ (tx (Some (Begin "DEFERRED"))) [] _ 3);
    [reflexivity|reflexivity|apply surjective_pairing|vm_compute; discriminate]|].
  eapply rtc_l; [exists Ordinary; split; [done|]; apply (tx_start _ _ _ _ (tx None) [] Commit (tx (Some Commit))); reflexivity|].
  eapply rtc_l; [exists Ordinary; split; [done|]; eapply (tx_finish _ _ _ _ (tx (Some Commit)) [] _ 3);
    [reflexivity|reflexivity|apply surjective_pairing|vm_compute; discriminate]|].
  eapply rtc_l; [exists Ordinary; split; [done|]; eapply (tx_scope_end _ _ _ _ closed [] true); [|reflexivity]|].
  { match goal with |- ?l ≡ₚ ?l' => enough (E : l = l') by (by rewrite E) end. vm_compute. reflexivity. }
  apply rtc_refl.
Qed.


End TransactionWitnesses.
