(* ===== verification/Task.v ===== *)
(** The coroutine type ([core/Task.hpp]).  The body of a coroutine is a program that
    returns, throws, awaits another coroutine or awaits something of the event loop;
    [co_await] is the transfer of control between frames that the awaiters of the class
    make.  The other files sequence effects directly; [task_direct] is why they may. *)
From S2P Require Import Prelude.

#[local] Open Scope Z_scope.

(** A [std::coroutine_handle<>] is its address; null is 0. *)
Abbreviation coroutine_handle := Z.

Section Task.
(** The values that coroutines return, what they await of the event loop, and how it
    answers. *)
Context {V Op Ans : Type}.

(** The continuation after [co_await] sees a value or an exception, which it may catch. *)
Inductive body :=
| CoReturn (v : V)
| CoThrow (e : exn)
| CoAwait (child : body) (k : V + exn -> body)
| Suspend (op : Op) (k : Ans -> body).

Record promise_type := { value : option V; continuation : coroutine_handle; ex : option exn }.

(** Where a coroutine is: before its first line, running, awaiting a task of its own,
    suspended, or at its final suspension. *)
Inductive point := Initial (b : body) | Active | Awaiting (handle_ : coroutine_handle) (k : V + exn -> body) | Waiting (k : Ans -> body) | Final.

Record frame := { promise : promise_type; at_ : point }.
Abbreviation frames := (gmap Z frame).

(** [Task]: its handle. *)
Definition Task_move (other : coroutine_handle) : coroutine_handle * coroutine_handle := (other, 0).

(** The call of a coroutine: a frame, suspended before the first line. *)
Definition get_return_object (b : body) (fs : frames) : coroutine_handle * frames :=
  let h := fresh ({[0]} ∪ dom fs) in
  (h, <[h := {| promise := {| value := None; continuation := 0; ex := None |}; at_ := Initial b |}]> fs).

Definition return_value (v : V) (p : promise_type) : promise_type := {| value := Some v; continuation := continuation p; ex := ex p |}.
Definition unhandled_exception (e : exn) (p : promise_type) : promise_type := {| value := value p; continuation := continuation p; ex := Some e |}.

(** What runs next, or why nothing does. *)
Inductive control := Run (h : coroutine_handle) (b : body) | Resume (h : coroutine_handle) | Suspended (h : coroutine_handle) (op : Op) | Finished (h : coroutine_handle).

(** [FinalAwaiter::await_suspend]; a finished root is reported to the executor. *)
Definition final_await_suspend (h : coroutine_handle) (p : promise_type) : control :=
  if continuation p =? 0 then Finished h else Resume (continuation p).

Definition set_point (h : coroutine_handle) (pt : point) (fs : frames) : frames :=
  alter (fun f => {| promise := promise f; at_ := pt |}) h fs.

Definition finish (h : coroutine_handle) (result : promise_type -> promise_type) (fs : frames) : outcome (control * frames) :=
  match fs !! h with
  | Some f => Ret (final_await_suspend h (result (promise f)), <[h := {| promise := result (promise f); at_ := Final |}]> fs)
  | None => Undef
  end.

(** [await_suspend] of a task; the promise of a null handle does not exist. *)
Definition await_suspend (handle_ caller : coroutine_handle) (fs : frames) : outcome (control * frames) :=
  match fs !! handle_ with
  | Some f => Ret (Resume handle_, <[handle_ := {| promise := {| value := value (promise f); continuation := caller; ex := ex (promise f) |}; at_ := at_ f |}]> fs)
  | None => Undef
  end.

(** [await_resume]; dereferencing an empty optional is undefined. *)
Definition await_resume (handle_ : coroutine_handle) (fs : frames) : outcome (V + exn) :=
  match fs !! handle_ with
  | None => Undef
  | Some f => match ex (promise f), value (promise f) with Some e, _ => Ret (inr e) | None, Some v => Ret (inl v) | None, None => Undef end
  end.

(** [Task<void>::await_resume] does not look at a value. *)
Definition void_await_resume (handle_ : coroutine_handle) (fs : frames) : outcome (unit + exn) :=
  match fs !! handle_ with
  | None => Undef
  | Some f => match ex (promise f) with Some e => Ret (inr e) | None => Ret (inl tt) end
  end.

(** [handle_.destroy()] destroys the task that the coroutine awaits too; destroying a
    running coroutine or a frame that does not exist is undefined. *)
Fixpoint destroy (fuel : nat) (h : coroutine_handle) (fs : frames) : outcome frames :=
  match fuel, fs !! h with
  | S fuel, Some f =>
      match at_ f with
      | Active => Undef
      | Awaiting t _ => fs ← (if t =? 0 then Ret fs else destroy fuel t fs); Ret (delete h fs)
      | _ => Ret (delete h fs)
      end
  | _, _ => Undef
  end.

(** [~Task] *)
Definition Task_destroy (handle_ : coroutine_handle) (fs : frames) : outcome frames :=
  if handle_ =? 0 then Ret fs else destroy (size fs) handle_ fs.

(** [operator=], and whether it is a self-assignment. *)
Definition Task_assign (self : bool) (this other : coroutine_handle) (fs : frames) : outcome (coroutine_handle * coroutine_handle * frames) :=
  if self then Ret (this, other, fs) else fs ← Task_destroy this fs; Ret (Task_move other, fs).

Definition done (handle_ : coroutine_handle) (fs : frames) : outcome bool :=
  match fs !! handle_ with Some f => Ret (match at_ f with Final => true | _ => false end) | None => Undef end.

(** [Task::resume]: whether it resumed the coroutine. *)
Definition resume (handle_ : coroutine_handle) (fs : frames) : outcome (option control) :=
  if handle_ =? 0 then Ret None else d ← done handle_ fs; Ret (if d : bool then None else Some (Resume handle_)).

(** One transfer of control. *)
Definition step (c : control) (fs : frames) : outcome (control * frames) :=
  match c with
  | Run h (CoReturn v) => finish h (return_value v) fs
  | Run h (CoThrow e) => finish h (unhandled_exception e) fs
  | Run h (CoAwait child k) =>
      let '(t, fs) := get_return_object child fs in
      await_suspend t h (set_point h (Awaiting t k) fs)
  | Run h (Suspend op k) => Ret (Suspended h op, set_point h (Waiting k) fs)
  | Resume h =>
      match fs !! h with
      | None => Undef
      | Some f =>
          match at_ f with
          | Initial b => Ret (Run h b, set_point h Active fs)
          | Awaiting t k => r ← await_resume t fs; fs ← Task_destroy t fs; Ret (Run h (k r), set_point h Active fs)
          | Active | Waiting _ | Final => Undef
          end
      end
  | Suspended _ _ | Finished _ => Ret (c, fs)
  end.

(** The event loop resumes a suspended coroutine with its answer. *)
Definition wake (h : coroutine_handle) (a : Ans) (fs : frames) : outcome (control * frames) :=
  match fs !! h with
  | Some f => match at_ f with Waiting k => Ret (Run h (k a), set_point h Active fs) | _ => Undef end
  | None => Undef
  end.

(** Until the coroutine has finished or there are no more answers; [None]: the fuel is
    used up.  The operations that were awaited are recorded. *)
Fixpoint drive (fuel : nat) (ops : list Op) (c : control) (fs : frames) (answers : list Ans) :
    option (outcome (list Op * control * frames * list Ans)) :=
  match fuel with
  | O => None
  | S fuel =>
      match c, answers with
      | Finished _, _ => Some (Ret (ops, c, fs, answers))
      | Suspended h op, [] => Some (Ret (ops ++ [op], c, fs, []))
      | Suspended h op, a :: answers =>
          match wake h a fs with Ret (c, fs) => drive fuel (ops ++ [op]) c fs answers | _ => Some Undef end
      | _, _ => match step c fs with Ret (c, fs) => drive fuel ops c fs answers | _ => Some Undef end
      end
  end.

(** [Executor::spawn] and the first resumption of a root task. *)
Definition spawn_root (b : body) : control * frames :=
  let '(h, fs) := get_return_object b ∅ in (Resume h, fs).
End Task.
Arguments body : clear implicits.
Arguments promise_type : clear implicits.
Arguments point : clear implicits.
Arguments frame : clear implicits.
Arguments control : clear implicits.

(** ** What awaiting means *)
Section Meaning.
Context {V Op Ans : Type}.
#[local] Abbreviation body := (body V Op Ans).
#[local] Abbreviation control := (control V Op Ans).
#[local] Abbreviation frame := (frame V Op Ans).
Implicit Types (p b : body) (fs F : gmap Z frame) (c : control).

(** A body as a direct computation: awaiting a coroutine runs it and goes on with its
    value or exception.  [None]: it waits for an answer that is not there. *)
Fixpoint eval p (answers : list Ans) : list Op * option ((V + exn) * list Ans) :=
  match p with
  | CoReturn v => ([], Some (inl v, answers))
  | CoThrow e => ([], Some (inr e, answers))
  | CoAwait child k =>
      let '(ops, r) := eval child answers in
      match r with
      | Some (r, answers) => let '(ops', r') := eval (k r) answers in (ops ++ ops', r')
      | None => (ops, None)
      end
  | Suspend op k =>
      match answers with
      | [] => ([op], None)
      | a :: answers => let '(ops, r) := eval (k a) answers in (op :: ops, r)
      end
  end.

(** What the promise of a finished coroutine holds. *)
Definition result_of (r : V + exn) (p : promise_type V) : promise_type V :=
  match r with inl v => return_value v p | inr e => unhandled_exception e p end.

Definition active (P : promise_type V) : frame := {| promise := P; at_ := Active |}.
Definition empty_promise (caller : coroutine_handle) : promise_type V := {| value := None; continuation := caller; ex := None |}.

Abbreviation config := (list Op * control * gmap Z frame * list Ans)%type.
Inductive one : config -> config -> Prop :=
| one_run ops h p fs c fs' a : step (Run h p) fs = Ret (c, fs') -> one (ops, Run h p, fs, a) (ops, c, fs', a)
| one_resume ops h fs c fs' a : step (Resume h) fs = Ret (c, fs') -> one (ops, Resume h, fs, a) (ops, c, fs', a)
| one_wake ops h op fs c fs' a ans : wake h a fs = Ret (c, fs') -> one (ops, Suspended h op, fs, a :: ans) (ops ++ [op], c, fs', ans).

Lemma one_drive x y n r : one x y -> drive n y.1.1.1 y.1.1.2 y.1.2 y.2 = Some r -> drive (S n) x.1.1.1 x.1.1.2 x.1.2 x.2 = Some r.
Proof.
  intros St H. destruct St as [ops h p fs c fs' a E|ops h fs c fs' a E|ops h op fs c fs' a ans E]; cbn in *; cbn [drive].
  - destruct a; by rewrite E.
  - destruct a; by rewrite E.
  - by rewrite E.
Qed.

Lemma steps_drive x y n r : rtc one x y -> drive n y.1.1.1 y.1.1.2 y.1.2 y.2 = Some r ->
  exists m, drive m x.1.1.1 x.1.1.2 x.1.2 x.2 = Some r.
Proof. intros St H. induction St as [x|x y z St _ IH]; [eauto|]. destruct (IH H) as [m Hm]. exists (S m). by eapply one_drive. Qed.

(** [F'] is [F] with the coroutine [h] suspended in a chain of awaited tasks below it. *)
Inductive suspended : coroutine_handle -> gmap Z frame -> gmap Z frame -> coroutine_handle -> Prop :=
| sus_wait h F P k : suspended h F (<[h := {| promise := P; at_ := Waiting k |}]> F) h
| sus_await h F P t k F' top : t <> 0 -> t ∉ dom F -> t <> h ->
    suspended t (<[h := {| promise := P; at_ := Awaiting t k |}]> F) F' top -> suspended h F F' top.

Lemma fresh_handle {A} (fs : gmap Z A) : fresh ({[0]} ∪ dom fs) <> 0 /\ fs !! fresh ({[0]} ∪ dom fs) = None.
Proof.
  pose proof (is_fresh ({[0]} ∪ dom fs : gset Z)) as H. split; [set_solver|]. apply not_elem_of_dom. set_solver.
Qed.

Lemma set_point_at h pt fs f : fs !! h = Some f -> set_point h pt fs = <[h := {| promise := promise f; at_ := pt |}]> fs.
Proof. intros H. unfold set_point. apply map_eq. intros i. destruct (decide (i = h)) as [->|N].
  - by rewrite lookup_alter_eq, H, lookup_insert_eq.
  - by rewrite lookup_alter_ne, lookup_insert_ne.
Qed.

Lemma finish_result r h P fs : fs !! h = Some (active P) -> ex P = None ->
  finish h (result_of r) fs = Ret (final_await_suspend h (result_of r P), <[h := {| promise := result_of r P; at_ := Final |}]> fs).
Proof. intros H _. unfold finish. by rewrite H. Qed.

(** The awaited coroutine is started. *)
Lemma step_await h P child k fs : fs !! h = Some (active P) ->
  exists t, t <> 0 /\ fs !! t = None /\ t <> h /\
    step (Run h (CoAwait child k)) fs = Ret (Resume t,
      <[t := {| promise := empty_promise h; at_ := Initial child |}]> (<[h := {| promise := P; at_ := Awaiting t k |}]> fs)).
Proof.
  intros H. destruct (fresh_handle fs) as [T0 T1]. set (t := fresh ({[0]} ∪ dom fs)) in *. exists t.
  assert (N : t <> h) by (intros ->; congruence). split_and!; [done|done|done|].
  cbn [step get_return_object]. fold t. rewrite (set_point_at h _ _ (active P)) by (by rewrite lookup_insert_ne).
  unfold await_suspend. rewrite lookup_insert_ne, lookup_insert_eq by done. cbn. f_equal. f_equal.
  by rewrite (insert_insert_ne _ h t) , insert_insert_eq by done.
Qed.

Lemma step_initial h P b fs : fs !! h = Some {| promise := P; at_ := Initial b |} ->
  step (Resume h) fs = Ret (Run h b, <[h := active P]> fs).
Proof. intros H. cbn. rewrite H. cbn. by rewrite (set_point_at _ _ _ _ H). Qed.

(** The awaited coroutine has finished: its result is taken and its frame destroyed. *)
Lemma step_awaited h P t k r fs : t <> 0 -> t <> h ->
  fs !! h = Some {| promise := P; at_ := Awaiting t k |} ->
  step (Resume h) (<[t := {| promise := result_of r (empty_promise h); at_ := Final |}]> fs) =
    Ret (Run h (k r), <[h := active P]> (delete t fs)).
Proof.
  intros T N H. cbn [step]. rewrite lookup_insert_ne, H by done. cbn [at_]. unfold await_resume, Task_destroy.
  rewrite lookup_insert_eq, (proj2 (Z.eqb_neq _ _)) by done. cbn [promise].
  assert (E : (match ex (result_of r (empty_promise h)), value (result_of r (empty_promise h)) with
    Some e, _ => Ret (inr e) | None, Some v => Ret (inl v) | None, None => Undef end) = Ret r) by (by destruct r).
  rewrite E. cbn [mbind outcome_bind]. set (fs' := <[t := _]> fs).
  assert (Hs : exists n, size fs' = S n).
  { destruct (size fs') eqn:Z; [|eauto]. apply map_size_empty_inv in Z. exfalso.
    assert (L : fs' !! t <> None) by (unfold fs'; by rewrite lookup_insert_eq). by rewrite Z, lookup_empty in L. }
  destruct Hs as [n ->]. cbn [destroy]. unfold fs' at 1. rewrite lookup_insert_eq. cbn [at_ mbind outcome_bind]. unfold fs'.
  rewrite delete_insert_eq. by rewrite (set_point_at h _ _ {| promise := P; at_ := Awaiting t k |}) by (by rewrite lookup_delete_ne).
Qed.

Lemma suspended_base h x F F' top : suspended h (<[h := x]> F) F' top -> suspended h F F' top.
Proof.
  intros H. remember (<[h := x]> F) as F0 eqn:E. destruct H as [h F0 P k|h F0 P t k F' top T0 Td N H]; subst F0; rewrite insert_insert_eq in *.
  - constructor.
  - eapply (sus_await _ _ P t k); [done| |done|done]. rewrite dom_insert in Td. set_solver.
Qed.

(** From the [co_await] to the first line of the awaited coroutine, from its last one
    back, and from a suspension on. *)
Lemma await_start h P child k fs ops answers : fs !! h = Some (active P) -> exists t, t <> 0 /\ fs !! t = None /\ t <> h /\
  rtc one (ops, Run h (CoAwait child k), fs, answers)
    (ops, Run t child, <[t := active (empty_promise h)]> (<[h := {| promise := P; at_ := Awaiting t k |}]> fs), answers).
Proof.
  intros Hh. destruct (step_await h P child k fs Hh) as (t & T0 & Tf & N & E). exists t. split_and!; [done|done|done|].
  eapply rtc_l; [apply one_run, E|]. apply rtc_once, one_resume. erewrite step_initial by apply lookup_insert_eq. by rewrite insert_insert_eq.
Qed.

Lemma await_return h P t k r fs ops answers : h <> 0 -> t <> 0 -> fs !! t = None -> t <> h -> fs !! h = Some (active P) ->
  rtc one (ops, final_await_suspend t (result_of r (empty_promise h)),
     <[t := {| promise := result_of r (empty_promise h); at_ := Final |}]> (<[h := {| promise := P; at_ := Awaiting t k |}]> fs), answers)
    (ops, Run h (k r), fs, answers).
Proof.
  intros H0 T0 Tf N Hh.
  assert (F : (final_await_suspend t (result_of r (empty_promise h)) : control) = Resume h).
  { unfold final_await_suspend. replace (continuation _) with h by (by destruct r). by rewrite (proj2 (Z.eqb_neq _ _)). }
  rewrite F. apply rtc_once, one_resume. rewrite (step_awaited h P t k r) by (done || apply lookup_insert_eq). f_equal. f_equal.
  rewrite delete_insert_ne, delete_id, insert_insert_eq by done. by apply insert_id.
Qed.

Lemma wake_next h P op k fs ops a answers : fs !! h = Some (active P) ->
  rtc one (ops, Run h (Suspend op k), fs, a :: answers) (ops ++ [op], Run h (k a), fs, answers).
Proof.
  intros Hh. eapply rtc_l; [apply one_run; cbn; by rewrite (set_point_at _ _ _ _ Hh)|]. apply rtc_once, one_wake. unfold wake.
  rewrite lookup_insert_eq. cbn. rewrite (set_point_at h _ _ {| promise := P; at_ := Waiting k |}) by apply lookup_insert_eq.
  rewrite insert_insert_eq. by rewrite insert_id.
Qed.

(** Running a body to its end or to where it waits, in any frame. *)
Lemma run_body p : forall h fs P ops answers, h <> 0 -> fs !! h = Some (active P) -> ex P = None ->
  match eval p answers with
  | (ops', Some (r, rest)) =>
      rtc one (ops, Run h p, fs, answers)
        (ops ++ ops', final_await_suspend h (result_of r P), <[h := {| promise := result_of r P; at_ := Final |}]> fs, rest)
  | (ops', None) => exists ops1 op top F', ops' = ops1 ++ [op] /\ suspended h fs F' top /\
      rtc one (ops, Run h p, fs, answers) (ops ++ ops1, Suspended top op, F', [])
  end.
Proof.
  induction p as [v|e|child IHc k IHk|op k IHk]; intros h fs P ops answers H0 Hh He; cbn [eval].
  - rewrite app_nil_r. apply rtc_once, one_run. apply (finish_result (inl v)); done.
  - rewrite app_nil_r. apply rtc_once, one_run. apply (finish_result (inr e)); done.
  - destruct (await_start h P child k fs ops answers Hh) as (t & T0 & Tf & N & Start).
    specialize (IHc t (<[t := active (empty_promise h)]> (<[h := {| promise := P; at_ := Awaiting t k |}]> fs)) (empty_promise h)
      ops answers T0 ltac:(apply lookup_insert_eq) eq_refl).
    destruct (eval child answers) as [opsc [[r rest]|]].
    + rewrite insert_insert_eq in IHc. pose proof (await_return h P t k r fs (ops ++ opsc) rest H0 T0 Tf N Hh) as Back.
      specialize (IHk r h fs P (ops ++ opsc) rest H0 Hh He). destruct (eval (k r) rest) as [opsk [[r' rest']|]].
      * rewrite <- app_assoc in IHk. eauto using rtc_trans.
      * destruct IHk as (ops1 & op & top & F' & -> & Hs & R). rewrite <- app_assoc in R.
        exists (opsc ++ ops1), op, top, F'. split_and!; [by rewrite <- app_assoc|done|eauto using rtc_trans].
    + destruct IHc as (ops1 & op & top & F' & -> & Hs & R). exists ops1, op, top, F'. split_and!; [done| |by eapply rtc_trans].
      eapply (sus_await h fs P t k); [done|by apply not_elem_of_dom|done|]. by eapply suspended_base.
  - destruct answers as [|a answers].
    + exists [], op, h, (<[h := {| promise := P; at_ := Waiting k |}]> fs). split_and!; [done|constructor|]. rewrite app_nil_r.
      apply rtc_once, one_run. cbn. by rewrite (set_point_at _ _ _ _ Hh).
    + pose proof (wake_next h P op k fs ops a answers Hh) as Next.
      specialize (IHk a h fs P (ops ++ [op]) answers H0 Hh He). destruct (eval (k a) answers) as [ops' [[r rest]|]].
      * rewrite <- app_assoc in IHk. by eapply rtc_trans.
      * destruct IHk as (ops1 & op1 & top & F' & -> & Hs & R). exists (op :: ops1), op1, top, F'. rewrite <- app_assoc in R.
        split_and!; [done|done|by eapply rtc_trans].
Qed.

Lemma suspended_keep h F F' top x f : suspended h F F' top -> x <> h -> F !! x = Some f -> F' !! x = Some f.
Proof.
  intros H. revert x f. induction H as [h F P k|h F P t k F' top T0 Td N H IH]; intros x f Nx Hx.
  - by rewrite lookup_insert_ne.
  - apply IH; [|by rewrite lookup_insert_ne]. intros ->. apply Td, elem_of_dom. eauto.
Qed.

(** Destroying a suspended coroutine destroys the chain below it and nothing else. *)
Lemma destroy_suspended h F F' top : suspended h F F' top ->
  (size (delete h F) < size F')%nat /\ forall n, (size F' - size (delete h F) <= n)%nat -> destroy n h F' = Ret (delete h F).
Proof.
  induction 1 as [h F P k|h F P t k F' top T0 Td N H [L IH]].
  - assert (E : size (<[h := {| promise := P; at_ := Waiting k |}]> F) = S (size (delete h F))).
    { rewrite <- insert_delete_eq. by rewrite map_size_insert_None by apply lookup_delete_eq. }
    rewrite E. split; [lia|]. intros [|n] Hn; [lia|]. cbn [destroy]. rewrite lookup_insert_eq. cbn [at_]. by rewrite delete_insert_eq.
  - set (F1 := <[h := {| promise := P; at_ := Awaiting t k |}]> F) in *.
    assert (Ft : F1 !! t = None) by (unfold F1; rewrite lookup_insert_ne by done; by apply not_elem_of_dom).
    rewrite (delete_id F1 t Ft) in L, IH.
    assert (E : size F1 = S (size (delete h F))).
    { unfold F1. rewrite <- insert_delete_eq. by rewrite map_size_insert_None by apply lookup_delete_eq. }
    split; [lia|]. intros [|n] Hn; [lia|]. cbn [destroy].
    rewrite (suspended_keep t F1 F' top h {| promise := P; at_ := Awaiting t k |} H) by (done || apply lookup_insert_eq).
    cbn [at_]. rewrite (proj2 (Z.eqb_neq t 0)) by done. rewrite IH by lia. cbn. unfold F1. by rewrite delete_insert_eq.
Qed.

(** C30: Awaiting is calling: driving a root coroutine through the frames, promises and
    transfers of the class awaits what its body awaits directly, in that order, gives
    its value or exception, reports the root as finished to the executor, and
    leaves no other frame; if answers are missing it stops suspended where the body
    waits, and destroying the root then frees every frame, none of them twice. *)
Theorem task_direct b answers : exists h fs fuel, spawn_root b = (Resume h, fs) /\
  match eval b answers with
  | (ops, Some (r, rest)) =>
      drive fuel [] (Resume h) fs answers = Some (Ret (ops, Finished h, {[h := {| promise := result_of r (empty_promise 0); at_ := Final |}]}, rest))
  | (ops, None) => exists top op fs', last ops = Some op /\
      drive fuel [] (Resume h) fs answers = Some (Ret (ops, Suspended top op, fs', [])) /\ Task_destroy h fs' = Ret ∅
  end.
Proof.
  destruct (fresh_handle (∅ : gmap Z frame)) as [H0 _]. unfold spawn_root, get_return_object. set (h := fresh ({[0]} ∪ dom _)) in *.
  exists h, ({[h := {| promise := empty_promise 0; at_ := Initial b |}]}).
  assert (Start : rtc one ([], Resume h, {[h := {| promise := empty_promise 0; at_ := Initial b |}]}, answers)
    ([], Run h b, {[h := active (empty_promise 0)]}, answers)).
  { apply rtc_once, one_resume. erewrite step_initial by apply lookup_insert_eq. by rewrite insert_singleton_eq. }
  pose proof (run_body b h {[h := active (empty_promise 0)]} (empty_promise 0) [] answers H0 (lookup_singleton_eq _ _) eq_refl) as R.
  destruct (eval b answers) as [ops [[r rest]|]].
  - assert (E : final_await_suspend h (result_of r (empty_promise 0)) = (Finished h : control)) by (by destruct r).
    rewrite E, insert_singleton_eq in R.
    destruct (steps_drive _ _ 1 _ (rtc_trans _ _ _ Start R) eq_refl) as [m Hm]. by exists m.
  - destruct R as (ops1 & op & top & F' & -> & Hs & R).
    destruct (steps_drive _ _ 1 _ (rtc_trans _ _ _ Start R) eq_refl) as [m Hm]. exists m. split; [done|].
    exists top, op, F'. split_and!; [by rewrite last_snoc|exact Hm|].
    unfold Task_destroy. rewrite (proj2 (Z.eqb_neq h 0)) by done. destruct (destroy_suspended _ _ _ _ Hs) as [_ D].
    rewrite D by lia. by rewrite delete_singleton_eq.
Qed.

(** For a coroutine that has finished it is that of the others with a value of [unit]. *)
Lemma void_await_resume_finished (r : V + exn) t caller fs :
  fs !! t = Some {| promise := result_of r (empty_promise caller); at_ := Final |} ->
  void_await_resume t fs = Ret (match r with inl _ => inl tt | inr e => inr e end) /\ await_resume t fs = Ret r.
Proof. intros H. unfold void_await_resume, await_resume. rewrite H. by destruct r. Qed.

(** Awaiting a null task, or one that has finished, is undefined. *)
Lemma await_misuse h t caller fs f : fs !! 0 = None -> fs !! t = Some f -> at_ f = Final ->
  await_suspend (Task_move h).2 caller fs = Undef /\
  exists fs', await_suspend t caller fs = Ret (Resume t, fs') /\ step (Resume t) fs' = Undef.
Proof.
  intros H0 Ht E. unfold await_suspend, Task_move. cbn [snd]. rewrite H0, Ht. split; [done|]. eexists. split; [done|].
  cbn [step]. rewrite lookup_insert_eq. cbn [at_]. by rewrite E.
Qed.
End Meaning.

(** ** Examples: a coroutine that catches what the one it awaits throws *)
Module TaskExamples.
Definition reader : body nat nat nat := Suspend 7%nat (fun n => if (n =? 0)%nat then CoThrow OutOfRange else CoReturn n).
Definition caller : body nat nat nat :=
  CoAwait reader (fun r => match r with inl n => CoAwait reader (fun r => match r with inl k => CoReturn (n + k)%nat | inr e => CoThrow e end)
    | inr _ => CoReturn 42%nat end).

(** The operations, what the promises left hold, and the number of frames. *)
Definition driven (answers : list nat) : option (list nat * list (option nat * option exn)) :=
  let '(c, fs) := spawn_root caller in
  match drive 50 [] c fs answers with
  | Some (Ret (ops, _, fs, _)) => Some (ops, map (fun p : Z * frame nat nat nat => (value (promise p.2), ex (promise p.2))) (map_to_list fs))
  | _ => None
  end.

Example driven_value : driven [1; 2]%nat = Some ([7; 7]%nat, [(Some 3%nat, None)]).
Proof. vm_compute. reflexivity. Qed.
Example driven_caught : driven [0]%nat = Some ([7]%nat, [(Some 42%nat, None)]).
Proof. vm_compute. reflexivity. Qed.
Example driven_thrown : driven [1; 0]%nat = Some ([7; 7]%nat, [(None, Some OutOfRange)]).
Proof. vm_compute. reflexivity. Qed.
Example driven_waits : length <$> (snd <$> driven [1]%nat) = Some 2%nat.
Proof. vm_compute. reflexivity. Qed.
End TaskExamples.
