(* ===== verification/HttpServer.v ===== *)
(** The server ([http/HttpServer.hpp], [http/HttpServer.cpp], [core/ListenerSocket.cpp],
    [net/Socket.cpp]): its configuration, and what its coroutines, the accept loops and
    the one of each connection, ask of the executor each time they are resumed.  The
    kernel's queue of a listening socket is an input.  Times are in seconds. *)
From S2P Require Import Prelude Effects Executor ServerConfig.

#[local] Open Scope Z_scope.
#[local] Arguments list_ascii_of_string : simpl never.

(** ** Sockets own a descriptor *)

(** A descriptor, -1 when there is none, and the [close] calls made. *)
Definition Socket_new : Z := -1.
Definition Socket_isValid (socket_fd_ : Z) : bool := negb (socket_fd_ =? -1).
Definition close_socket (socket_fd_ : Z) : Z * list Z := if Socket_isValid socket_fd_ then (-1, [socket_fd_]) else (socket_fd_, []).
Definition Socket_move (other : Z) : Z * Z := (other, -1).
Definition Socket_assign (self : bool) (this other : Z) : Z * Z * list Z :=
  if self then (this, other, []) else (other, -1, (close_socket this).2).
Definition Socket_release (socket_fd_ : Z) : Z * Z := (socket_fd_, -1).

(** ** The configuration *)

Record ListenerConfig := { host : bytes; port : bytes; isTls : bool }.
Record HttpServer := { listenBacklog_ : Z; tlsContext_ : bool; listenerConfigs_ : list ListenerConfig; router_ : bool }.

Definition HttpServer_new : HttpServer := {| listenBacklog_ := 100000; tlsContext_ := false; listenerConfigs_ := []; router_ := false |}.

(** [created], [certificate] and [key] are the answers of OpenSSL.  The context is
    there as soon as it was created. *)
Definition setTlsContext (created certificate key : bool) (s : HttpServer) : outcome unit * HttpServer :=
  let error msg := Throw (ServerException msg 500 true) in
  let s' := {| listenBacklog_ := listenBacklog_ s; tlsContext_ := created; listenerConfigs_ := listenerConfigs_ s; router_ := router_ s |} in
  if negb created then (error "Failed to create SSL_CTX", s')
  else if negb certificate then (error "Failed to load certificate", s')
  else if negb key then (error "Failed to load private key", s')
  else (Ret tt, s').

Definition add_config (c : ListenerConfig) (s : HttpServer) : HttpServer :=
  {| listenBacklog_ := listenBacklog_ s; tlsContext_ := tlsContext_ s; listenerConfigs_ := listenerConfigs_ s ++ [c]; router_ := router_ s |}.
Definition addListener (host port : bytes) : HttpServer -> HttpServer := add_config {| host := host; port := port; isTls := false |}.
Definition addTlsListener (host port : bytes) : HttpServer -> HttpServer := add_config {| host := host; port := port; isTls := true |}.
Definition setRouter (s : HttpServer) : HttpServer :=
  {| listenBacklog_ := listenBacklog_ s; tlsContext_ := tlsContext_ s; listenerConfigs_ := listenerConfigs_ s; router_ := true |}.
Definition setListenBacklog (backlog : Z) (s : HttpServer) : HttpServer :=
  {| listenBacklog_ := backlog; tlsContext_ := tlsContext_ s; listenerConfigs_ := listenerConfigs_ s; router_ := router_ s |}.

(** [run]: the workers it starts, as the flag [isFirst] of each. *)
Definition HttpServer_run (hardware_concurrency : nat) (ring_ok : bool) (N : nat) (s : HttpServer) : outcome (list bool) :=
  if negb (router_ s) then Throw (ServerException "Call setRouter() before run()" 500 true)
  else
    let N := if (N =? 0)%nat then hardware_concurrency else N in
    if negb ring_ok then Throw (ServerException "Failed to initialize io_uring" 500 true)
    else Ret (map (fun i => (i =? 0)%nat) (seq 0 N)).

(** ** A worker *)

(** What [accept4] meets: a connection, or an error other than EAGAIN (the empty queue). *)
Inductive arrival := Connecting (fd : Z) | Failing.
Inductive coroutine := TcpLoop (lfd : Z) | TlsLoop (lfd : Z) | Connection (tls : bool) (fd : Z).

(** The calls of the coroutine that runs, the queues of the listening sockets, the
    coroutines there were, the descriptors that were reset and the counter, which all
    workers share. *)
Record Worker := {
  calls : list call;
  backlogs : gmap Z (list arrival);
  coroutines : gmap Z coroutine;
  aborted : list Z;
  globalConnectionCount_ : Z;
}.

Definition set_calls (l : list call) (w : Worker) : Worker :=
  {| calls := l; backlogs := backlogs w; coroutines := coroutines w; aborted := aborted w; globalConnectionCount_ := globalConnectionCount_ w |}.
Definition set_backlog (lfd : Z) (l : list arrival) (w : Worker) : Worker :=
  {| calls := calls w; backlogs := <[lfd := l]> (backlogs w); coroutines := coroutines w; aborted := aborted w; globalConnectionCount_ := globalConnectionCount_ w |}.
Definition set_coroutines (m : gmap Z coroutine) (w : Worker) : Worker :=
  {| calls := calls w; backlogs := backlogs w; coroutines := m; aborted := aborted w; globalConnectionCount_ := globalConnectionCount_ w |}.
Definition set_aborted (l : list Z) (w : Worker) : Worker :=
  {| calls := calls w; backlogs := backlogs w; coroutines := coroutines w; aborted := l; globalConnectionCount_ := globalConnectionCount_ w |}.
Definition set_count (n : Z) (w : Worker) : Worker :=
  {| calls := calls w; backlogs := backlogs w; coroutines := coroutines w; aborted := aborted w; globalConnectionCount_ := n |}.

Definition emit (c : call) : M Worker unit := modify (fun w => set_calls (calls w ++ [c]) w).
Definition backlog (lfd : Z) (w : Worker) : list arrival := default [] (backlogs w !! lfd).

(** [tl_executor->spawn] of a new coroutine. *)
Definition spawn_coroutine (c : coroutine) : M Worker unit := fun w =>
  let h := fresh ({[null_handle]} ∪ dom (coroutines w)) in
  emit (Spawn h) (set_coroutines (<[h := c]> (coroutines w)) w).

Definition accept4 (lfd : Z) : M Worker (option arrival) := fun w =>
  match backlog lfd w with
  | [] => (Ret None, w)
  | a :: rest => (Ret (Some a), set_backlog lfd rest w)
  end.

Definition accept (lfd : Z) : M Worker (option Z) :=
  a ← accept4 lfd;
  match a with
  | None => mret None
  | Some (Connecting fd) => mret (Some fd)
  | Some Failing => throw (SocketException "Failed to accept connection")
  end.

(** The stream needs the context. *)
Definition acceptTls (ctx : bool) (lfd : Z) : M Worker (option Z) :=
  fd ← accept lfd;
  match fd with
  | Some fd => if ctx then mret (Some fd) else throw (RuntimeError "Failed to create SSL object")
  | None => mret None
  end.

(** -1 is [None]. *)
Definition acceptRawFd (lfd : Z) : M Worker (option Z) :=
  a ← accept4 lfd; mret (match a with Some (Connecting fd) => Some fd | _ => None end).

Section Server.
Context (cfg : ServerConfig) (server : HttpServer).

(** The inner loops; every round takes something from the queue, except the last. *)
Fixpoint tcp_round (fuel : nat) (lfd : Z) : M Worker unit :=
  match fuel with
  | O => undefined
  | S fuel =>
      stream ← accept lfd;
      match stream with
      | None => mret tt
      | Some fd => spawn_coroutine (Connection false fd) ;; tcp_round fuel lfd
      end
  end.

(** [for (int i = 0; i < 10; i++)]: connections that are closed with a reset. *)
Fixpoint reject_loop (n : nat) (lfd : Z) : M Worker unit :=
  match n with
  | O => mret tt
  | S n =>
      fd ← acceptRawFd lfd;
      match fd with
      | None => mret tt
      | Some fd => modify (fun w => set_aborted (aborted w ++ [fd]) w) ;; reject_loop n lfd
      end
  end.

Fixpoint tls_round (fuel : nat) (lfd : Z) : M Worker unit :=
  match fuel with
  | O => undefined
  | S fuel =>
      count ← gets globalConnectionCount_;
      if CONNECTION_LIMIT cfg <=? count then reject_loop 10 lfd
      else
        stream ← acceptTls (tlsContext_ server) lfd;
        match stream with
        | None => mret tt
        | Some fd =>
            modify (fun w => set_count (globalConnectionCount_ w + 1) w) ;;
            spawn_coroutine (Connection true fd) ;;
            tls_round fuel lfd
        end
  end.

Definition accept_round (tls : bool) (lfd : Z) : M Worker unit := fun w =>
  let fuel := S (length (backlog lfd w)) in
  if tls then tls_round fuel lfd w else tcp_round fuel lfd w.

(** A loop that is resumed: for the first time ([None]), or by an event or its
    deadline.  It returns whether it is over. *)
Definition acceptLoop (tls : bool) (self lfd timeNow : Z) (shutdown : bool) (timed_out : option bool) : M Worker bool :=
  let await := emit (WaitForRead lfd self (timeNow + 3)) ;; mret false in
  match timed_out with
  | None => emit (RegisterReadFd lfd) ;; await
  | Some true => if shutdown then mret true else await
  | Some false => accept_round tls lfd ;; await
  end.
Definition tcpAcceptLoop := acceptLoop false.
Definition tlsAcceptLoop := acceptLoop true.

(** A root coroutine that ends, by an exception too, is reported as finished; the
    exception is in its promise, which nobody reads. *)
Definition resume_root (self : Z) (body : M Worker bool) (w : Worker) : list call * Worker :=
  let '(r, w') := body (set_calls [] w) in
  (calls w' ++ match r with Ret false => [] | _ => [MarkRootFinished self] end, w').

(** [~ConnGuard] is commented out. *)
Definition ConnGuard_destroy (c : Z) : Z := c.

(** The coroutine of a connection, when its turns are put together; [conn_run] is
    what [HttpConnection::run] does.  Locals are destroyed on every way out. *)
Definition handleConnection (conn_run : M Worker unit) (fd : Z) : M Worker bool := fun w =>
  let '(r, w) := (emit (RegisterReadFd fd) ;; conn_run ;; emit (Unregister fd)) w in
  (_ ← r; Ret true, set_count (ConnGuard_destroy (globalConnectionCount_ w)) w).

(** [workerMain], up to the event loop: the listeners are opened in the order of the
    configuration, TCP ones listen first.  [bound] is what the constructor of a
    listener does ([ListenerSocket_new] of Endpoints.v), [listening] the answer of the kernel. *)
Fixpoint open_listeners (bound : ListenerConfig -> outcome Z) (configs : list ListenerConfig) : outcome (list (bool * Z)) :=
  match configs with
  | [] => Ret []
  | c :: configs =>
      lfd ← bound c; rest ← open_listeners bound configs; Ret ((isTls c, lfd) :: rest)
  end.

Fixpoint start_loops (listening : Z -> bool) (tls : bool) (lfds : list Z) : M Worker unit :=
  match lfds with
  | [] => mret tt
  | lfd :: lfds =>
      if listening lfd then spawn_coroutine (if tls then TlsLoop lfd else TcpLoop lfd) ;; start_loops listening tls lfds
      else throw (SocketException "Failed to listen on socket")
  end.

Definition of_kind (tls : bool) (l : list (bool * Z)) : list Z := (List.filter (fun p => Bool.eqb p.1 tls) l).*2.

Definition workerMain (bound : ListenerConfig -> outcome Z) (listening : Z -> bool) : M Worker unit :=
  listeners ← lift (open_listeners bound (listenerConfigs_ server));
  start_loops listening false (of_kind false listeners) ;;
  start_loops listening true (of_kind true listeners).
End Server.

(** ** New coroutines *)

(** The handles of new coroutines, one after the other. *)
Fixpoint spawned (cs : list coroutine) (m : gmap Z coroutine) : list Z * gmap Z coroutine :=
  match cs with
  | [] => ([], m)
  | c :: cs =>
      let h := fresh ({[null_handle]} ∪ dom m) in
      let '(hs, m') := spawned cs (<[h := c]> m) in (h :: hs, m')
  end.

Lemma spawned_new cs m : let '(hs, m') := spawned cs m in
  NoDup hs /\ (forall h, h ∈ hs -> h <> null_handle /\ m !! h = None) /\ m ⊆ m' /\
  Forall2 (fun h c => m' !! h = Some c) hs cs.
Proof.
  revert m. induction cs as [|c cs IH]; intros m; cbn [spawned].
  { split_and!; [constructor| |done|constructor]. intros h Hh. by apply elem_of_nil in Hh. }
  pose proof (is_fresh ({[null_handle]} ∪ dom m : gset Z)) as F. set (h := fresh _) in *.
  assert (Hm : m !! h = None) by (apply not_elem_of_dom; set_solver).
  specialize (IH (<[h := c]> m)). destruct (spawned cs (<[h := c]> m)) as [hs m']. destruct IH as (N & D & Sub & A).
  split_and!.
  - constructor; [|done]. intros Hh. destruct (D h Hh) as [_ E]. by rewrite lookup_insert_eq in E.
  - intros x [->|Hx]%elem_of_cons; [split; [set_solver|done]|]. destruct (D x Hx) as [? E]. split; [done|].
    apply lookup_insert_None in E. tauto.
  - etransitivity; [by apply insert_subseteq|exact Sub].
  - constructor; [|done]. eapply lookup_weaken; [apply lookup_insert_eq|exact Sub].
Qed.

(** What an executor makes of the spawns. *)
Lemma do_spawns hs ex : NoDup hs -> (forall h, h ∈ hs -> h <> null_handle /\ h ∉ ownedTasks_ ex) ->
  let ex' := do_calls (map Spawn hs) ex in
  calls_ok (map Spawn hs) ex /\ ownedTasks_ ex' = ownedTasks_ ex ++ hs /\
  readyQueue_ ex' = readyQueue_ ex ++ map (fun h => {| ready := h; timedOut := false |}) hs /\
  suspendedTasks_ ex' = suspendedTasks_ ex /\ nextSeq_ ex' = nextSeq_ ex /\ finishedRoots_ ex' = finishedRoots_ ex /\
  eventFd_ ex' = eventFd_ ex /\ (owned_ok ex -> owned_ok ex').
Proof.
  revert ex. induction hs as [|h hs IH]; intros ex N D; cbv zeta.
  { cbn. rewrite !app_nil_r. done. }
  apply NoDup_cons in N as [Nh N]. destruct (D h ltac:(left)) as [H0 Ho].
  assert (E : spawn h ex = push_ready h false (on_owned (fun l => l ++ [h]) (on_ownedMap <[h := length (ownedTasks_ ex)]> ex))).
  { unfold spawn. by rewrite (proj2 (Z.eqb_neq _ _)). }
  destruct (IH (spawn h ex) N) as (A & B & C & S & Q & F & V & O).
  { intros x Hx. destruct (D x ltac:(by right)) as [? ?]. split; [done|]. rewrite E. cbn. set_solver. }
  change (do_calls (map Spawn (h :: hs)) ex) with (do_calls (map Spawn hs) (spawn h ex)).
  rewrite B, C, S, Q, F, V. rewrite E. cbn [ownedTasks_ readyQueue_ suspendedTasks_ nextSeq_ finishedRoots_ eventFd_ push_ready on_readyQ on_owned on_ownedMap].
  split_and!; try done.
  - by rewrite <- app_assoc.
  - by rewrite <- app_assoc.
  - intros Ok. rewrite <- E. apply O. by apply spawn_owned.
Qed.

Lemma do_calls_app cs cs' ex : do_calls (cs ++ cs') ex = do_calls cs' (do_calls cs ex).
Proof. apply foldl_app. Qed.

Lemma calls_ok_app cs cs' ex : calls_ok (cs ++ cs') ex <-> calls_ok cs ex /\ calls_ok cs' (do_calls cs ex).
Proof.
  revert ex. induction cs as [|c cs IH]; intros ex; cbn [app calls_ok]; [unfold do_calls; cbn; tauto|].
  rewrite IH. unfold do_calls. cbn. tauto.
Qed.

(** ** The accept loops *)
Section Loops.
Context (cfg : ServerConfig) (server : HttpServer).
#[local] Abbreviation acceptLoop := (acceptLoop cfg server).

Definition round (tls : bool) : nat -> Z -> M Worker unit := if tls then tls_round cfg server else tcp_round.

(** There is room for [n] connections. *)
Definition room (tls : bool) (n : nat) (w : Worker) : Prop :=
  tls = true -> tlsContext_ server = true /\ globalConnectionCount_ w + Z.of_nat n <= CONNECTION_LIMIT cfg.

Lemma backlog_set lfd l w : backlog lfd (set_backlog lfd l w) = l.
Proof. unfold backlog. cbn. by rewrite lookup_insert_eq. Qed.

(** One connection is served. *)
Definition served (tls : bool) (lfd fd : Z) (rest : list arrival) (w : Worker) : Worker :=
  let h := fresh ({[null_handle]} ∪ dom (coroutines w)) in
  {| calls := calls w ++ [Spawn h]; backlogs := <[lfd := rest]> (backlogs w); coroutines := <[h := Connection tls fd]> (coroutines w);
     aborted := aborted w; globalConnectionCount_ := if tls then globalConnectionCount_ w + 1 else globalConnectionCount_ w |}.

Lemma round_serves tls fuel lfd fd rest w : backlog lfd w = Connecting fd :: rest -> room tls 1 w ->
  round tls (S fuel) lfd w = round tls fuel lfd (served tls lfd fd rest w).
Proof.
  intros B R. destruct tls; cbn [round tls_round tcp_round].
  - destruct (R eq_refl) as [Ctx L]. cbv [mbind M_bind mret M_ret gets]. rewrite (proj2 (Z.leb_gt _ _)) by lia.
    unfold acceptTls, accept, accept4. cbv [mbind M_bind mret M_ret]. rewrite B, Ctx. done.
  - unfold accept, accept4. cbv [mbind M_bind mret M_ret]. rewrite B. done.
Qed.

Lemma round_serves_all tls lfd fds tail : forall fuel w, backlog lfd w = map Connecting fds ++ tail -> room tls (length fds) w ->
  (length fds < fuel)%nat ->
  let '(hs, m) := spawned (map (Connection tls) fds) (coroutines w) in
  exists w', round tls fuel lfd w = round tls (fuel - length fds) lfd w' /\ calls w' = calls w ++ map Spawn hs /\
    backlog lfd w' = tail /\ coroutines w' = m /\ aborted w' = aborted w /\
    globalConnectionCount_ w' = (if tls then globalConnectionCount_ w + Z.of_nat (length fds) else globalConnectionCount_ w).
Proof.
  induction fds as [|fd fds IH]; intros fuel w B R F; cbn [map spawned length].
  { exists w. rewrite app_nil_r, Nat.sub_0_r. destruct tls; split_and!; try done; lia. }
  destruct fuel as [|fuel]; [cbn in F; lia|]. cbn [map app length] in *.
  assert (R1 : room tls 1 w) by (intros T; destruct (R T); split; [done|lia]).
  rewrite (round_serves tls fuel lfd fd _ w B R1). set (w1 := served _ _ _ _ w).
  assert (B1 : backlog lfd w1 = map Connecting fds ++ tail) by (unfold backlog, w1; cbn; by rewrite lookup_insert_eq).
  assert (R2 : room tls (length fds) w1) by (intros T; destruct (R T); split; [done|]; unfold w1; rewrite T; cbn; lia).
  specialize (IH fuel w1 B1 R2 ltac:(lia)). change (coroutines w1) with (<[fresh ({[null_handle]} ∪ dom (coroutines w)) := Connection tls fd]> (coroutines w)) in IH.
  destruct (spawned _ _) as [hs m]. destruct IH as (w' & E & C & B' & M & A & G). exists w'. split_and!; try done.
  - rewrite C. unfold w1. cbn. by rewrite <- app_assoc.
  - rewrite G. unfold w1. destruct tls; cbn; lia.
Qed.

(** The queue is empty, or its first entry is an error. *)
Lemma round_empty tls fuel lfd w : backlog lfd w = [] -> round tls (S fuel) lfd w = (Ret tt, w).
Proof.
  intros B. destruct tls; cbn [round tls_round tcp_round].
  - cbv [mbind M_bind mret M_ret gets]. destruct (_ <=? _).
    + cbn [reject_loop]. unfold acceptRawFd, accept4. cbv [mbind M_bind mret M_ret]. by rewrite B.
    + unfold acceptTls, accept, accept4. cbv [mbind M_bind mret M_ret]. by rewrite B.
  - unfold accept, accept4. cbv [mbind M_bind mret M_ret]. by rewrite B.
Qed.

Lemma round_fails tls fuel lfd w rest : backlog lfd w = Failing :: rest -> room tls 1 w ->
  round tls (S fuel) lfd w = (Throw (SocketException "Failed to accept connection"), set_backlog lfd rest w).
Proof.
  intros B R. destruct tls; cbn [round tls_round tcp_round].
  - destruct (R eq_refl) as [Ctx L]. cbv [mbind M_bind mret M_ret gets]. rewrite (proj2 (Z.leb_gt _ _)) by lia.
    unfold acceptTls, accept, accept4. cbv [mbind M_bind mret M_ret]. by rewrite B.
  - unfold accept, accept4. cbv [mbind M_bind mret M_ret]. by rewrite B.
Qed.

Lemma accept_round_round tls lfd w : accept_round cfg server tls lfd w = round tls (S (length (backlog lfd w))) lfd w.
Proof. by destruct tls. Qed.

(** C31: An accept loop that an event resumes takes every connection that waits, in
    their order, starts one new coroutine for each, and waits on its listener again
    (for TLS as long as the limit is not reached); the executor's state stays in order:
    the new coroutines are ready, and the loop is what the next event or deadline of the
    listener resumes.  A loop that its deadline resumes takes none. *)
Theorem connections_accepted tls self lfd timeNow shutdown fds w ex :
  backlog lfd w = map Connecting fds -> room tls (length fds) w ->
  self <> null_handle -> 0 <= lfd < 2147483648 -> (forall h, h ∈ ownedTasks_ ex -> is_Some (coroutines w !! h)) ->
  suspendedTasks_ ex !! lfd = None -> nextSeq_ ex < 2147483648 ->
  let '(cs, w') := resume_root self (acceptLoop tls self lfd timeNow shutdown (Some false)) w in
  let ex' := do_calls cs ex in
  (exists hs, Forall2 (fun h fd => coroutines w !! h = None /\ coroutines w' !! h = Some (Connection tls fd)) hs fds /\
     readyQueue_ ex' = readyQueue_ ex ++ map (fun h => {| ready := h; timedOut := false |}) hs /\ ownedTasks_ ex' = ownedTasks_ ex ++ hs) /\
  backlog lfd w' = [] /\ aborted w' = aborted w /\ calls_ok cs ex /\
  task <$> (suspendedTasks_ ex' !! lfd) = Some self /\
  (resume_root self (acceptLoop tls self lfd timeNow false (Some true)) w).1 = [WaitForRead lfd self (timeNow + 3)].
Proof.
  intros B R H0 Hl Ho Hs Hq. unfold resume_root, acceptLoop. cbv [mbind M_bind mret M_ret]. rewrite accept_round_round.
  change (backlog lfd (set_calls [] w)) with (backlog lfd w). rewrite B.
  pose proof (round_serves_all tls lfd fds [] (S (length (map Connecting fds))) (set_calls [] w)) as S.
  change (backlog lfd (set_calls [] w)) with (backlog lfd w) in S. rewrite app_nil_r in S. specialize (S B R).
  rewrite length_map in S |- *. specialize (S ltac:(lia)). change (coroutines (set_calls [] w)) with (coroutines w) in S.
  pose proof (spawned_new (map (Connection tls) fds) (coroutines w)) as N. destruct (spawned _ _) as [hs m].
  destruct N as (Nd & D & _ & F2). destruct S as (w1 & E & C & B1 & M & A & _). rewrite E.
  replace (Datatypes.S (length fds) - length fds)%nat with 1%nat by lia. rewrite (round_empty tls 0 lfd w1 B1). cbn -[do_calls].
  rewrite C. cbn -[do_calls]. rewrite app_nil_r.
  assert (D' : forall h, h ∈ hs -> h <> null_handle /\ h ∉ ownedTasks_ ex).
  { intros h Hh. destruct (D h Hh) as [? E']. split; [done|]. intros [c Hc]%Ho. congruence. }
  destruct (do_spawns hs ex Nd D') as (Ok & Ow & Rd & Su & Sq & _). rewrite do_calls_app.
  split_and!.
  - exists hs. split_and!; [|done|done]. rewrite Forall2_fmap_r in F2. rewrite Forall2_lookup in F2 |- *. intros i. specialize (F2 i).
    destruct (hs !! i) as [h|] eqn:Eh; inversion F2 as [x y P Ex Ey|Ex Ey]; constructor. split; [|by rewrite M].
    by apply D, (list_elem_of_lookup_2 _ i).
  - exact B1.
  - exact A.
  - apply calls_ok_app. split; [done|]. cbn -[do_calls]. rewrite Su, Sq. done.
  - unfold do_calls at 1. cbn -[do_calls]. rewrite to_int_id by lia. by rewrite lookup_insert_eq.
  - done.
Qed.

(** C32: One failing accept ends a listener for good: the connections before it are
    served, but its coroutine ends, the executor destroys it, and what arrives on the
    listener later wakes nobody.  The only other way a loop ends is its deadline, once the
    server shuts down. *)
Theorem accept_error_ends tls self lfd timeNow shutdown fds rest w ex :
  backlog lfd w = map Connecting fds ++ Failing :: rest -> room tls (length fds + 1) w ->
  owned_ok ex -> self ∈ ownedTasks_ ex -> (forall h, h ∈ ownedTasks_ ex -> is_Some (coroutines w !! h)) ->
  suspendedTasks_ ex !! lfd = None -> lfd <> eventFd_ ex ->
  let '(cs, w') := resume_root self (acceptLoop tls self lfd timeNow shutdown (Some false)) w in
  let ex' := reap (do_calls cs ex) in
  length (List.filter (fun c => match c with Spawn _ => true | _ => false end) cs) = length fds /\ backlog lfd w' = rest /\
  (self ∉ ownedTasks_ ex') /\ (forall e, evFd e = lfd -> dispatch_event e ex' = ex') /\
  (resume_root self (acceptLoop tls self lfd timeNow true (Some true)) w).1 = [MarkRootFinished self].
Proof.
  intros B R Ok Hself Ho Hs He. unfold resume_root, acceptLoop. cbv [mbind M_bind mret M_ret]. rewrite accept_round_round.
  change (backlog lfd (set_calls [] w)) with (backlog lfd w). rewrite B.
  assert (R' : room tls (length fds) (set_calls [] w)) by (intros T; destruct (R T); split; [done|cbn; lia]).
  pose proof (round_serves_all tls lfd fds (Failing :: rest) (S (length (map Connecting fds ++ Failing :: rest))) (set_calls [] w) B R') as S.
  rewrite length_app, length_map in S |- *. cbn [length] in S |- *. specialize (S ltac:(lia)).
  change (coroutines (set_calls [] w)) with (coroutines w) in S.
  pose proof (spawned_new (map (Connection tls) fds) (coroutines w)) as N. destruct (spawned _ _) as [hs m].
  destruct N as (Nd & D & _ & F2). destruct S as (w1 & E & C & B1 & _ & _ & G). rewrite E.
  replace (Datatypes.S (length fds + Datatypes.S (length rest)) - length fds)%nat with (Datatypes.S (Datatypes.S (length rest))) by lia.
  assert (R1 : room tls 1 w1). { intros T. destruct (R T). split; [done|]. rewrite T in G. rewrite G. cbn. lia. }
  rewrite (round_fails tls _ lfd w1 rest B1 R1). cbn -[do_calls reap]. rewrite C. cbn -[do_calls reap].
  assert (D' : forall h, h ∈ hs -> h <> null_handle /\ h ∉ ownedTasks_ ex).
  { intros h Hh. destruct (D h Hh) as [? E']. split; [done|]. intros [c Hc]%Ho. congruence. }
  destruct (do_spawns hs ex Nd D') as (_ & Ow & _ & Su & _ & Fi & Ev & O'). rewrite do_calls_app.
  set (ex1 := do_calls (map Spawn hs) ex) in *. set (ex2 := do_calls [MarkRootFinished self] ex1).
  destruct (reap_spec ex2 (O' Ok)) as (_ & P & m' & l' & F).
  split_and!.
  - rewrite List.filter_app, length_app. cbn. rewrite Nat.add_0_r.
    assert (L : length hs = length fds) by (apply Forall2_length in F2; by rewrite length_map in F2). rewrite <- L.
    clear. induction hs as [|h hs IH]; cbn; [done|by rewrite IH].
  - apply backlog_set.
  - rewrite P. intros [H _]%list_elem_of_filter. apply H. unfold ex2, do_calls. cbn. apply elem_of_app. right. by left.
  - intros e Hfd. unfold dispatch_event. rewrite F, Hfd. cbn [eventFd_ with_owned on_ownedMap on_owned on_finished suspendedTasks_].
    change (eventFd_ ex2) with (eventFd_ ex1). change (suspendedTasks_ ex2) with (suspendedTasks_ ex1).
    rewrite Ev, Su, Hs. by rewrite (proj2 (Z.eqb_neq _ _)).
  - done.
Qed.

(** ** The limit of connections *)

Definition is_tls (c : coroutine) : bool := match c with Connection true _ => true | _ => false end.
(** How many TLS connections there ever were. *)
Definition tls_connections (m : gmap Z coroutine) : nat := size (filter (fun p : Z * coroutine => is_tls p.2 = true) m).

Inductive server_step : Worker -> Worker -> Prop :=
| st_arrives lfd a w : server_step w (set_backlog lfd (backlog lfd w ++ [a]) w)
| st_loop tls self lfd timeNow shutdown t w : server_step w (resume_root self (acceptLoop tls self lfd timeNow shutdown t) w).2
| st_done self conn_run fd w :
    (forall w, coroutines (conn_run w).2 = coroutines w /\ globalConnectionCount_ (conn_run w).2 = globalConnectionCount_ w) ->
    server_step w (resume_root self (handleConnection conn_run fd) w).2.

Definition counted (w : Worker) : Prop :=
  globalConnectionCount_ w = Z.of_nat (tls_connections (coroutines w)) /\ globalConnectionCount_ w <= CONNECTION_LIMIT cfg.

(** [w'] comes from [w] without losing count. *)
Definition counts_on (w w' : Worker) : Prop := counted w -> counted w' /\ globalConnectionCount_ w <= globalConnectionCount_ w'.

Lemma counts_refl w w' : coroutines w' = coroutines w -> globalConnectionCount_ w' = globalConnectionCount_ w -> counts_on w w'.
Proof. intros E1 E2 [C L]. unfold counted. rewrite E1, E2. split; [done|lia]. Qed.

Lemma counts_trans w1 w2 w3 : counts_on w1 w2 -> counts_on w2 w3 -> counts_on w1 w3.
Proof. intros H1 H2 C. destruct (H1 C) as [C2 L]. destruct (H2 C2). split; [done|lia]. Qed.

Lemma tls_connections_insert m h c : m !! h = None -> tls_connections (<[h := c]> m) = (if is_tls c then S (tls_connections m) else tls_connections m).
Proof.
  intros H. unfold tls_connections. destruct (is_tls c) eqn:E.
  - rewrite map_filter_insert_True by done. apply map_size_insert_None. by apply map_lookup_filter_None_2; left.
  - rewrite map_filter_insert_False by (cbn; congruence). by rewrite delete_id.
Qed.

Lemma served_counts tls lfd fd rest w : (tls = true -> globalConnectionCount_ w < CONNECTION_LIMIT cfg) -> counts_on w (served tls lfd fd rest w).
Proof.
  intros L [C Le]. pose proof (is_fresh ({[null_handle]} ∪ dom (coroutines w) : gset Z)) as F.
  assert (Hm : coroutines w !! fresh ({[null_handle]} ∪ dom (coroutines w)) = None) by (apply not_elem_of_dom; set_solver).
  unfold counted, served. cbn -[tls_connections]. rewrite tls_connections_insert by done. destruct tls; cbn -[tls_connections]; [specialize (L eq_refl)|]; lia.
Qed.

Lemma reject_loop_keeps n lfd w : let w' := (reject_loop n lfd w).2 in
  coroutines w' = coroutines w /\ globalConnectionCount_ w' = globalConnectionCount_ w /\ calls w' = calls w.
Proof.
  revert w. induction n as [|n IH]; intros w; [done|]. cbn [reject_loop]. unfold acceptRawFd, accept4. cbv [mbind M_bind mret M_ret modify].
  destruct (backlog lfd w) as [|[fd|] rest]; [done| |done].
  match goal with |- context [reject_loop n lfd ?w1] => destruct (IH w1) as (-> & -> & ->) end. done.
Qed.

Lemma round_counts tls fuel lfd w : counts_on w (round tls fuel lfd w).2.
Proof.
  revert w. induction fuel as [|fuel IH]; intros w; [destruct tls; by apply counts_refl|].
  destruct (backlog lfd w) as [|[fd|] rest] eqn:B.
  - rewrite round_empty by done. by apply counts_refl.
  - destruct tls.
    + destruct (decide (CONNECTION_LIMIT cfg <= globalConnectionCount_ w)) as [L|L].
      * cbn [round tls_round]. cbv [mbind M_bind mret M_ret gets]. rewrite (proj2 (Z.leb_le _ _)) by done.
        destruct (reject_loop_keeps 10 lfd w) as (? & ? & _). by apply counts_refl.
      * destruct (tlsContext_ server) eqn:Ctx.
        -- rewrite (round_serves true fuel lfd fd rest w B) by (intros _; split; [done|lia]).
           eapply (counts_trans _ (served true lfd fd rest w)); [apply served_counts; lia|apply IH].
        -- cbn [round tls_round]. cbv [mbind M_bind mret M_ret gets]. rewrite (proj2 (Z.leb_gt _ _)) by lia.
           unfold acceptTls, accept, accept4. cbv [mbind M_bind mret M_ret]. rewrite B, Ctx. by apply counts_refl.
    + rewrite (round_serves false fuel lfd fd rest w B) by done. eapply (counts_trans _ (served false lfd fd rest w)); [by apply served_counts|apply IH].
  - destruct tls.
    + cbn [round tls_round]. cbv [mbind M_bind mret M_ret gets]. destruct (_ <=? _).
      * destruct (reject_loop_keeps 10 lfd w) as (? & ? & _). by apply counts_refl.
      * unfold acceptTls, accept, accept4. cbv [mbind M_bind mret M_ret]. rewrite B. by apply counts_refl.
    + rewrite round_fails with (rest := rest) by done. by apply counts_refl.
Qed.

Lemma step_counts w w' : server_step w w' -> counts_on w w'.
Proof.
  intros [lfd a w1|tls self lfd timeNow shutdown t w1|self conn_run fd w1 Hr].
  - by apply counts_refl.
  - unfold resume_root, acceptLoop. destruct t as [[]|]; [destruct shutdown; by apply counts_refl| |by apply counts_refl].
    cbv [mbind M_bind mret M_ret]. rewrite accept_round_round. set (fuel := S _).
    eapply counts_trans; [by apply (counts_refl w1 (set_calls [] w1))|].
    pose proof (round_counts tls fuel lfd (set_calls [] w1)) as R. destruct (round tls fuel lfd (set_calls [] w1)) as [[[]| |] w2]; exact R.
  - unfold resume_root, handleConnection. cbv [mbind M_bind mret M_ret emit modify ConnGuard_destroy].
    match goal with |- context [conn_run ?w2] => destruct (Hr w2) as [E1 E2]; destruct (conn_run w2) as [[[]| |] w3] end;
      cbn in E1, E2 |- *; by apply counts_refl.
Qed.

Lemma reject_loop_rejects n lfd fds w : backlog lfd w = map Connecting fds ->
  (reject_loop n lfd w).1 = Ret tt /\ aborted (reject_loop n lfd w).2 = aborted w ++ take n fds /\
  backlog lfd (reject_loop n lfd w).2 = map Connecting (drop n fds).
Proof.
  revert fds w. induction n as [|n IH]; intros fds w B; [cbn; by rewrite app_nil_r|]. cbn [reject_loop]. unfold acceptRawFd, accept4.
  cbv [mbind M_bind mret M_ret modify]. rewrite B. destruct fds as [|fd fds]; cbn [map]; [cbn; by rewrite app_nil_r|].
  match goal with |- context [reject_loop n lfd ?w1] => destruct (IH fds w1) as (-> & -> & ->); [unfold backlog; cbn; by rewrite lookup_insert_eq|] end.
  cbn. by rewrite <- app_assoc.
Qed.

(** The limit of connections is one of all times: the counter is the number of TLS
    connections there ever were, for a connection that ends is not taken off, and it never
    exceeds the limit; once it is reached no TLS connection is served again, whatever
    ends: an event resets the first ten that wait and leaves the others waiting. *)
Theorem limit_for_ever w0 w : counted w0 -> rtc server_step w0 w ->
  counted w /\
  (globalConnectionCount_ w = CONNECTION_LIMIT cfg -> forall w2, rtc server_step w w2 ->
    globalConnectionCount_ w2 = CONNECTION_LIMIT cfg /\ tls_connections (coroutines w2) = tls_connections (coroutines w) /\
    forall self lfd timeNow shutdown fds, backlog lfd w2 = map Connecting fds ->
    let '(cs, w3) := resume_root self (acceptLoop true self lfd timeNow shutdown (Some false)) w2 in
    cs = [WaitForRead lfd self (timeNow + 3)] /\ coroutines w3 = coroutines w2 /\
    aborted w3 = aborted w2 ++ take 10 fds /\ backlog lfd w3 = map Connecting (drop 10 fds)).
Proof.
  assert (Run : forall w w', rtc server_step w w' -> counts_on w w').
  { induction 1 as [w1|w1 w2 w3 St _ IH]; [by apply counts_refl|]. eapply counts_trans; [by apply step_counts|done]. }
  intros C0 R. destruct (Run _ _ R C0) as [C _]. split; [done|]. intros L w2 R2. destruct (Run _ _ R2 C) as [C2 G].
  assert (E : globalConnectionCount_ w2 = CONNECTION_LIMIT cfg) by (destruct C2; lia). split_and!; [done|destruct C, C2; lia|].
  intros self lfd timeNow shutdown fds B. unfold resume_root, acceptLoop. cbv [mbind M_bind mret M_ret]. rewrite accept_round_round.
  cbn [round tls_round]. cbv [mbind M_bind mret M_ret gets]. cbn [globalConnectionCount_ set_calls]. rewrite (proj2 (Z.leb_le _ _)) by lia.
  destruct (reject_loop_rejects 10 lfd fds (set_calls [] w2) B) as (E1 & E2 & E3).
  destruct (reject_loop_keeps 10 lfd (set_calls [] w2)) as (E4 & _ & E5).
  destruct (reject_loop 10 lfd (set_calls [] w2)) as [r w3]. cbn [fst snd] in *. rewrite E1. cbn. by rewrite E5.
Qed.
End Loops.

(** ** Starting a worker *)
Definition loop_of (tls : bool) (lfd : Z) : coroutine := if tls then TlsLoop lfd else TcpLoop lfd.

Lemma start_loops_spec listening tls lfds w : Forall (fun lfd => listening lfd = true) lfds ->
  let '(hs, m) := spawned (map (loop_of tls) lfds) (coroutines w) in
  start_loops listening tls lfds w = (Ret tt, set_coroutines m (set_calls (calls w ++ map Spawn hs) w)).
Proof.
  revert w. induction lfds as [|lfd lfds IH]; intros w L; cbn [map spawned start_loops].
  { rewrite app_nil_r. by destruct w. }
  apply Forall_cons in L as [L1 L]. rewrite L1. unfold spawn_coroutine, emit. cbv [mbind M_bind modify].
  match goal with |- context [start_loops listening tls lfds ?w2] => specialize (IH w2 L) end. cbn [coroutines set_calls set_coroutines] in IH.
  unfold loop_of at 1. destruct (spawned _ _) as [hs m]. rewrite IH. cbn. by rewrite <- app_assoc.
Qed.

Lemma open_listeners_spec bound configs lfds : Forall2 (fun c lfd => bound c = Ret lfd) configs lfds ->
  open_listeners bound configs = Ret (zip (map isTls configs) lfds).
Proof. induction 1 as [|c lfd configs lfds E _ IH]; [done|]. cbn. by rewrite E, IH. Qed.

(** A worker whose listeners can be opened starts one accept loop for each of them,
    the TCP ones first. *)
Lemma workerMain_loops server bound listening lfds w :
  Forall2 (fun c lfd => bound c = Ret lfd) (listenerConfigs_ server) lfds -> Forall (fun lfd => listening lfd = true) lfds ->
  let l := zip (map isTls (listenerConfigs_ server)) lfds in
  let '(hs, m) := spawned (map TcpLoop (of_kind false l)) (coroutines w) in
  let '(hs', m') := spawned (map TlsLoop (of_kind true l)) m in
  workerMain server bound listening w = (Ret tt, set_coroutines m' (set_calls (calls w ++ map Spawn hs ++ map Spawn hs') w)).
Proof.
  intros B L. cbv zeta. set (l := zip _ _).
  assert (K : forall tls, Forall (fun lfd => listening lfd = true) (of_kind tls l)).
  { intros tls. apply Forall_forall. intros lfd H. unfold of_kind in H. apply list_elem_of_fmap in H as ([t x] & -> & H).
    apply list_elem_of_In, List.filter_In in H as [H _]. apply list_elem_of_In, elem_of_zip_r in H. rewrite Forall_forall in L. by apply L. }
  pose proof (start_loops_spec listening false _ w (K false)) as S1. change (map (loop_of false)) with (map TcpLoop) in S1.
  destruct (spawned (map TcpLoop _) _) as [hs m].
  pose proof (start_loops_spec listening true _ (set_coroutines m (set_calls (calls w ++ map Spawn hs) w)) (K true)) as S2.
  change (map (loop_of true)) with (map TlsLoop) in S2. cbn [coroutines set_coroutines set_calls calls] in S2. destruct (spawned (map TlsLoop _) m) as [hs' m'].
  unfold workerMain, lift. cbv [mbind M_bind]. rewrite (open_listeners_spec _ _ _ B). fold l. rewrite S1, S2. by rewrite <- app_assoc.
Qed.

(** ** Examples *)
Module ServerWitnesses.

(** The default configuration with room for one connection. *)
Definition one_connection : ServerConfig := {|
  INACTIVITY_TIMEOUT_S := INACTIVITY_TIMEOUT_S default_config; FORMATION_TIMEOUT_S := FORMATION_TIMEOUT_S default_config;
  GRACEFUL_SHUTDOWN_TIMEOUT_S := GRACEFUL_SHUTDOWN_TIMEOUT_S default_config; EPOLL_WAIT_TIMEOUT_MS := EPOLL_WAIT_TIMEOUT_MS default_config;
  CONNECTION_CLOSE_MAX_BYTES := CONNECTION_CLOSE_MAX_BYTES default_config;
  GRACEFUL_CONNECTION_CLOSE_TIMEOUT_S := GRACEFUL_CONNECTION_CLOSE_TIMEOUT_S default_config;
  SINGLE_READ_BYTES := SINGLE_READ_BYTES default_config; MAX_HEADER_BYTES := MAX_HEADER_BYTES default_config;
  MAX_CONTENT_LENGTH := MAX_CONTENT_LENGTH default_config; MAX_TE_CHUNK_LENGTH := MAX_TE_CHUNK_LENGTH default_config;
  MAX_TE_LENGTH := MAX_TE_LENGTH default_config; MAX_WRITE_BUFFER_BYTES := MAX_WRITE_BUFFER_BYTES default_config;
  FILE_CONTENT_CACHE_THRESHOLD := FILE_CONTENT_CACHE_THRESHOLD default_config; FILE_BUFFERING_THRESHOLD := FILE_BUFFERING_THRESHOLD default_config;
  MAX_MULTIPART_CONTENT_LENGTH := MAX_MULTIPART_CONTENT_LENGTH default_config; MAX_MULTIPART_TE_LENGTH := MAX_MULTIPART_TE_LENGTH default_config;
  MAX_MULTIPART_FIELD_SIZE := MAX_MULTIPART_FIELD_SIZE default_config; MAX_MULTIPART_FILE_SIZE := MAX_MULTIPART_FILE_SIZE default_config;
  MAX_MULTIPART_PART_HEADER_SIZE := MAX_MULTIPART_PART_HEADER_SIZE default_config; MAX_MULTIPART_PARTS := MAX_MULTIPART_PARTS default_config;
  MAX_MULTIPART_BOUNDARY_LENGTH := MAX_MULTIPART_BOUNDARY_LENGTH default_config; MULTIPART_BUFFER_SIZE := MULTIPART_BUFFER_SIZE default_config;
  ENABLE_STATIC_COMPRESSION := ENABLE_STATIC_COMPRESSION default_config; COMPRESSION_BUFFER_SIZE := COMPRESSION_BUFFER_SIZE default_config;
  STATIC_STREAM_CHUNK_SIZE := STATIC_STREAM_CHUNK_SIZE default_config; STATIC_CACHE_DIR := STATIC_CACHE_DIR default_config;
  IO_URING_RING_SIZE := IO_URING_RING_SIZE default_config; PIPE_BUFFER_SIZE := PIPE_BUFFER_SIZE default_config;
  COMPRESS_MIN_BYTES := COMPRESS_MIN_BYTES default_config; STATIC_GZIP_COMPRESS_LEVEL := STATIC_GZIP_COMPRESS_LEVEL default_config;
  CONNECTION_LIMIT := 1; serverName_ := serverName_ default_config; serverLine_ := serverLine_ default_config |}.

Definition tls_server : HttpServer := (setTlsContext true true true (addTlsListener "0.0.0.0" "443" HttpServer_new)).2.
Definition idle : Worker := {| calls := []; backlogs := ∅; coroutines := {[1 := TlsLoop 5]}; aborted := []; globalConnectionCount_ := 0 |}.
Definition three : Worker := set_backlog 5 [Connecting 10; Connecting 11; Connecting 12] idle.
Definition loop (cfg : ServerConfig) (tls : bool) : Worker -> list call * Worker := resume_root 1 (acceptLoop cfg tls_server tls 1 5 7 false (Some false)).

Example one_of_three : (loop one_connection true three).1 = [Spawn 2; WaitForRead 5 1 10] /\ aborted (loop one_connection true three).2 = [11; 12].
Proof. vm_compute. done. Qed.

Definition ex0 : Executor := on_readyQ (fun _ => []) (spawn 1 (Executor_new 3)).

Lemma connections_accepted_witness :
  exists hs, length hs = 3%nat /\ readyQueue_ (do_calls (loop default_config true three).1 ex0) = map (fun h => {| ready := h; timedOut := false |}) hs.
Proof.
  pose proof (connections_accepted default_config tls_server true 1 5 7 false [10; 11; 12] three ex0 eq_refl) as H.
  specialize (H ltac:(intros _; split; [reflexivity|vm_compute; discriminate]) ltac:(discriminate) ltac:(lia)).
  specialize (H ltac:(intros h Hh; cbn in Hh; apply list_elem_of_singleton in Hh as ->; by eexists) eq_refl ltac:(cbn; lia)).
  unfold loop. destruct (resume_root 1 _ three) as [cs w']. destruct H as [(hs & F & R & _) _]. exists hs. split; [|exact R].
  by apply Forall2_length in F.
Defined.

Definition failing : Worker := set_backlog 5 [Connecting 10; Failing; Connecting 12] idle.
Lemma accept_error_ends_witness : (1 ∉ ownedTasks_ (reap (do_calls (loop default_config true failing).1 ex0))) /\
  backlog 5 (loop default_config true failing).2 = [Connecting 12].
Proof.
  pose proof (accept_error_ends default_config tls_server true 1 5 7 false [10] [Connecting 12] failing ex0 eq_refl) as H.
  specialize (H ltac:(intros _; split; [reflexivity|vm_compute; discriminate])).
  specialize (H ltac:(apply spawn_owned; [split; [constructor|intros; cbn; rewrite lookup_empty, lookup_nil; done]|apply not_elem_of_nil]) ltac:(left)).
  specialize (H ltac:(intros h Hh; cbn in Hh; apply list_elem_of_singleton in Hh as ->; by eexists) eq_refl ltac:(discriminate)).
  unfold loop. destruct (resume_root 1 _ failing) as [cs w']. destruct H as (_ & B & O & _). split; [exact O|exact B].
Defined.

Definition full : Worker := (loop one_connection true three).2.
Lemma limit_for_ever_witness : globalConnectionCount_ full = 1 /\ (loop one_connection true (set_backlog 5 (backlog 5 full ++ [Connecting 13]) full)).1 = [WaitForRead 5 1 10].
Proof.
  assert (C0 : counted one_connection idle) by (split; [reflexivity|vm_compute; discriminate]).
  assert (R0 : rtc (server_step one_connection tls_server) idle full).
  { eapply rtc_l; [apply (st_arrives _ _ 5 (Connecting 10))|]. eapply rtc_l; [apply (st_arrives _ _ 5 (Connecting 11))|].
    eapply rtc_l; [apply (st_arrives _ _ 5 (Connecting 12))|]. apply rtc_once.
    exact (st_loop one_connection tls_server true 1 5 7 false (Some false) three). }
  pose proof (limit_for_ever one_connection tls_server idle full C0 R0) as [_ H]. split; [reflexivity|].
  specialize (H eq_refl (set_backlog 5 (backlog 5 full ++ [Connecting 13]) full) (rtc_once _ _ (st_arrives one_connection tls_server 5 (Connecting 13) full))).
  destruct H as (_ & _ & H). specialize (H 1 5 7 false [13] eq_refl). unfold loop.
  destruct (resume_root 1 _ (set_backlog 5 (backlog 5 full ++ [Connecting 13]) full)) as [cs w']. exact (proj1 H).
Defined.
End ServerWitnesses.
