(* ===== verification/Endpoints.v ===== *)
(** The ends of connections: who owns the descriptor and the TLS session of a stream
    ([net/TcpStream.cpp], [net/TlsStream.cpp]), the address of a peer ([net/utils.hpp]),
    and the opening of a listening socket ([core/ListenerSocket.cpp]). *)
From S2P Require Import Prelude Effects HttpServer.

#[local] Open Scope Z_scope.
#[local] Arguments list_ascii_of_string : simpl never.

(** The calls that concern resources, in order.  Sessions are named by numbers. *)
Inductive os_event :=
| SslNew (ssl : nat) | SslSetFd (ssl : nat) (fd : Z) | SslShutdown (ssl : nat) | SslFree (ssl : nat)
| CloseFd (fd : Z) | NoDelay (fd : Z) | Linger (fd : Z) (on seconds : Z) | ReuseAddr (fd : Z) | ReusePort (fd : Z) | BindFd (fd : Z) | ListenFd (fd backlog : Z).

Definition log (e : os_event) : M (list os_event) unit := modify (fun l => l ++ [e]).
Definition log_all (es : list os_event) : M (list os_event) unit := modify (fun l => l ++ es).

(** ** Addresses *)

(** [sockaddr_storage]: the text that [inet_ntop] gives, and the port as it is stored. *)
Inductive sockaddr_storage := AF_INET (ip : bytes) (sin_port : Z) | AF_INET6 (ip : bytes) (sin6_port : Z) | OtherFamily.
Record PeerAddress := { peer_ip : bytes; peer_port : Z }.

(** Two bytes in the order of the network, loaded in the other one. *)
Definition ntohs (p : Z) : Z := 256 * (p mod 256) + p / 256 mod 256.

Definition resolvePeerAddress (addr : sockaddr_storage) : outcome PeerAddress :=
  match addr with
  | AF_INET ip p => Ret {| peer_ip := ip; peer_port := ntohs p |}
  | AF_INET6 ip p => Ret {| peer_ip := ip; peer_port := ntohs p |}
  | OtherFamily => Throw (RuntimeError "Unknown address family")
  end.

Lemma ntohs_bytes hi lo : 0 <= hi < 256 -> 0 <= lo < 256 -> ntohs (hi + 256 * lo) = 256 * hi + lo.
Proof. intros H L. unfold ntohs. Z.div_mod_to_equations. lia. Qed.

(** ** A TCP stream *)
Record TcpStream := { socket_ : Z; ip_ : bytes; port_ : Z }.

(** An exception of a constructor destroys the members that were there: the socket. *)
Definition closing_socket {A} (fd : Z) (m : M (list os_event) A) : M (list os_event) A := fun l =>
  match m l with
  | (Throw e, l) => (Throw e, l ++ map CloseFd (close_socket fd).2)
  | r => r
  end.

Definition set_nodelay (fd : Z) (nodelay_ok : bool) : M (list os_event) unit :=
  if nodelay_ok then log (NoDelay fd) else throw (RuntimeError "Failed to set TCP_NODELAY").

Definition TcpStream_new (fd : Z) (addr : sockaddr_storage) (nodelay_ok : bool) : M (list os_event) TcpStream :=
  closing_socket fd (
    a ← lift (resolvePeerAddress addr);
    _ ← set_nodelay fd nodelay_ok;
    mret {| socket_ := fd; ip_ := peer_ip a; port_ := peer_port a |}).

Definition TcpStream_destroy (s : TcpStream) : M (list os_event) unit := log_all (map CloseFd (close_socket (socket_ s)).2).

(** [resetConnection]: closing_socket will send RST. *)
Definition tcp_resetConnection (s : TcpStream) : M (list os_event) unit := log (Linger (socket_ s) 1 0).

(** ** A TLS stream *)
Record TlsStream := { tls_socket : Z; ssl_ : option nat; tls_ip : bytes; tls_port : Z }.

(** [ssl] is what [SSL_new] answers. *)
Definition TlsStream_new (fd : Z) (ssl : option nat) (addr : sockaddr_storage) (nodelay_ok : bool) : M (list os_event) TlsStream :=
  closing_socket fd (
    match ssl with
    | None => throw (RuntimeError "Failed to create SSL object")
    | Some ssl =>
        _ ← log (SslNew ssl);
        _ ← log (SslSetFd ssl fd);
        a ← lift (resolvePeerAddress addr);
        _ ← set_nodelay fd nodelay_ok;
        mret {| tls_socket := fd; ssl_ := Some ssl; tls_ip := peer_ip a; tls_port := peer_port a |}
    end).

(** What a stream that was moved from holds; the number of the port stays. *)
Definition moved_from (other : TlsStream) : TlsStream :=
  {| tls_socket := (Socket_move (tls_socket other)).2; ssl_ := None; tls_ip := []; tls_port := tls_port other |}.
Definition TlsStream_move (other : TlsStream) : TlsStream * TlsStream := (other, moved_from other).

Definition end_session (s : TlsStream) : list os_event := match ssl_ s with Some ssl => [SslShutdown ssl; SslFree ssl] | None => [] end.

(** The move assignment; the session that was there ends before its socket. *)
Definition TlsStream_assign (self : bool) (this other : TlsStream) : M (list os_event) (TlsStream * TlsStream) :=
  if self then mret (this, other)
  else
    _ ← log_all (end_session this);
    let '(fd, fd', closed) := Socket_assign false (tls_socket this) (tls_socket other) in
    _ ← log_all (map CloseFd closed);
    mret ({| tls_socket := fd; ssl_ := ssl_ other; tls_ip := tls_ip other; tls_port := tls_port other |},
          {| tls_socket := fd'; ssl_ := None; tls_ip := []; tls_port := tls_port other |}).

Definition TlsStream_destroy (s : TlsStream) : M (list os_event) unit :=
  log_all (end_session s ++ map CloseFd (close_socket (tls_socket s)).2).

Definition tls_resetConnection (s : TlsStream) : M (list os_event) unit := log (Linger (tls_socket s) 1 0).

(** *** Sessions and descriptors over a life of streams *)

(** Streams in places, as a program moves them around. *)
Record Streams := { places : gmap nat TlsStream; events : list os_event; given : list Z }.
Definition Streams_new : Streams := {| places := ∅; events := []; given := [] |}.

Inductive stream_op :=
| Construct (p : nat) (fd : Z) (ssl : option nat) (addr : sockaddr_storage) (nodelay_ok : bool)
| MoveTo (p q : nat) | AssignTo (p q : nat) | DestroyAt (p : nat).

(** An operation on a place that is not as it has to be does nothing. *)
Definition stream_step (o : stream_op) (w : Streams) : Streams :=
  match o with
  | Construct p fd ssl addr ok =>
      match places w !! p with
      | Some _ => w
      | None =>
          let '(r, es) := TlsStream_new fd ssl addr ok (events w) in
          {| places := match r with Ret s => <[p := s]> (places w) | _ => places w end; events := es; given := given w ++ [fd] |}
      end
  | MoveTo p q =>
      match places w !! p, places w !! q with
      | None, Some other =>
          let '(s, rest) := TlsStream_move other in
          {| places := <[p := s]> (<[q := rest]> (places w)); events := events w; given := given w |}
      | _, _ => w
      end
  | AssignTo p q =>
      match places w !! p, places w !! q with
      | Some this, Some other =>
          match TlsStream_assign (bool_decide (p = q)) this other (events w) with
          | (Ret (s, rest), es) => {| places := <[p := s]> (<[q := rest]> (places w)); events := es; given := given w |}
          | (_, es) => {| places := places w; events := es; given := given w |}
          end
      | _, _ => w
      end
  | DestroyAt p =>
      match places w !! p with
      | Some s => {| places := delete p (places w); events := (TlsStream_destroy s (events w)).2; given := given w |}
      | None => w
      end
  end.

Definition stream_run (ops : list stream_op) (w : Streams) : Streams := foldl (fun w o => stream_step o w) w ops.

(** What the calls have made and given back, and what is owned. *)
Definition sessions_made (l : list os_event) : list nat := omap (fun e => match e with SslNew s => Some s | _ => None end) l.
Definition sessions_freed (l : list os_event) : list nat := omap (fun e => match e with SslFree s => Some s | _ => None end) l.
Definition fds_closed (l : list os_event) : list Z := omap (fun e => match e with CloseFd fd => Some fd | _ => None end) l.

Definition session_of (s : TlsStream) : list nat := option_list (ssl_ s).
Definition fd_of (s : TlsStream) : list Z := if Socket_isValid (tls_socket s) then [tls_socket s] else [].
Definition owned {A} (f : TlsStream -> list A) (m : gmap nat TlsStream) : list A := concat (map f (map_to_list m).*2).

Lemma owned_insert {A} (f : TlsStream -> list A) m p s : m !! p = None -> owned f (<[p := s]> m) ≡ₚ f s ++ owned f m.
Proof. intros E. unfold owned. by rewrite map_to_list_insert. Qed.

Lemma owned_delete {A} (f : TlsStream -> list A) m p s : m !! p = Some s -> owned f m ≡ₚ f s ++ owned f (delete p m).
Proof. intros E. rewrite <- (insert_delete_id m p s E) at 1. apply owned_insert, lookup_delete_eq. Qed.

Lemma owned_replace {A} (f : TlsStream -> list A) m p s s' : m !! p = Some s ->
  exists rest, owned f m ≡ₚ f s ++ rest /\ owned f (<[p := s']> m) ≡ₚ f s' ++ rest.
Proof.
  intros E. exists (owned f (delete p m)). split; [by apply owned_delete|]. rewrite <- insert_delete_eq. apply owned_insert, lookup_delete_eq.
Qed.

(** The sessions that a failing constructor made and forgot. *)
Definition forgotten (o : stream_op) (w : Streams) : list nat :=
  match o with
  | Construct p fd (Some ssl) addr ok =>
      match places w !! p, (TlsStream_new fd (Some ssl) addr ok []).1 with None, Throw _ => [ssl] | _, _ => [] end
  | _ => []
  end.
Fixpoint leaked (ops : list stream_op) (w : Streams) : list nat :=
  match ops with [] => [] | o :: ops => forgotten o w ++ leaked ops (stream_step o w) end.

(** What a step does to the three accounts. *)
Definition session_account (w : Streams) : list nat := sessions_freed (events w) ++ owned session_of (places w).
Definition fd_account (w : Streams) : list Z := fds_closed (events w) ++ owned fd_of (places w).

Lemma closed_fds fd : fds_closed (map CloseFd (close_socket fd).2) = if Socket_isValid fd then [fd] else [].
Proof. unfold close_socket. by destruct (Socket_isValid fd). Qed.
Lemma no_sessions fds : sessions_made (map CloseFd fds) = [] /\ sessions_freed (map CloseFd fds) = [].
Proof. induction fds as [|fd fds [IH1 IH2]]; [done|]. by split. Qed.
Lemma ended_session s : sessions_made (end_session s) = [] /\ sessions_freed (end_session s) = session_of s /\ fds_closed (end_session s) = [].
Proof. unfold end_session, session_of. by destruct (ssl_ s). Qed.

(** The constructor: with its calls, and what it owns. *)
Lemma TlsStream_new_spec fd ssl addr ok l : exists es, let r := (TlsStream_new fd ssl addr ok []).1 in
  TlsStream_new fd ssl addr ok l = (r, l ++ es) /\ sessions_freed es = [] /\ sessions_made es = option_list ssl /\
  match r with
  | Ret s => session_of s = option_list ssl /\ fd_of s = (if Socket_isValid fd then [fd] else []) /\ fds_closed es = []
  | Throw _ => fds_closed es = if Socket_isValid fd then [fd] else []
  | Undef => False
  end.
Proof.
  unfold TlsStream_new, closing_socket, resolvePeerAddress, set_nodelay, fd_of, close_socket. destruct ssl as [ssl|].
  2:{ eexists. cbv zeta. split; [reflexivity|]. by destruct (Socket_isValid fd). }
  cbv [mbind M_bind mret M_ret log modify lift throw].
  destruct addr as [ip p|ip p|], ok; eexists; cbv zeta; (split; [rewrite <- !app_assoc; reflexivity|]); cbn; destruct (Socket_isValid fd); done.
Qed.

Definition balanced (leak : list nat) (w : Streams) : Prop :=
  sessions_made (events w) ≡ₚ session_account w ++ leak /\ List.filter Socket_isValid (given w) ≡ₚ fd_account w.

Lemma forgotten_construct p fd ssl addr ok w : places w !! p = None ->
  forgotten (Construct p fd ssl addr ok) w = match (TlsStream_new fd ssl addr ok []).1 with Throw _ => option_list ssl | _ => [] end.
Proof. intros P. destruct ssl; cbn [forgotten]; [by rewrite P|]. by destruct (TlsStream_new fd None addr ok []).1. Qed.

Lemma balanced_construct p fd ssl addr ok leak w : balanced leak w ->
  balanced (leak ++ forgotten (Construct p fd ssl addr ok) w) (stream_step (Construct p fd ssl addr ok) w).
Proof.
  intros [B1 B2]. cbn [stream_step]. destruct (places w !! p) as [s|] eqn:P.
  { assert (forgotten (Construct p fd ssl addr ok) w = []) as -> by (cbn; destruct ssl; by rewrite ?P). by rewrite app_nil_r. }
  rewrite forgotten_construct by done. destruct (TlsStream_new_spec fd ssl addr ok (events w)) as (es & E & Ef & Em & C). rewrite E.
  unfold balanced, session_account, fd_account in *. cbn [places events given].
  unfold sessions_made, sessions_freed, fds_closed in *. rewrite List.filter_app, !omap_app, B1, Ef, Em, B2. cbn [List.filter].
  destruct (TlsStream_new fd ssl addr ok []).1 as [s|e|] eqn:R; [| |done].
  - destruct C as (C1 & C2 & ->). rewrite !owned_insert by done. rewrite C1, C2, !app_nil_r. split; solve_Permutation.
  - rewrite C, app_nil_r. split; solve_Permutation.
Qed.

Lemma balanced_move p q leak w : balanced leak w -> balanced leak (stream_step (MoveTo p q) w).
Proof.
  intros [B1 B2]. cbn [stream_step]. destruct (places w !! p) eqn:P; [done|]. destruct (places w !! q) as [o|] eqn:Q; [|done].
  unfold balanced, session_account, fd_account in *. cbn [TlsStream_move places events given].
  assert (p <> q) as N by congruence.
  assert (forall A (f : TlsStream -> list A), f (moved_from o) = [] -> owned f (<[p := o]> (<[q := moved_from o]> (places w))) ≡ₚ owned f (places w)) as Keep.
  { intros A f E. rewrite owned_insert by by rewrite lookup_insert_ne. destruct (owned_replace f _ q o (moved_from o) Q) as (rest & H1 & H2). by rewrite H1, H2, E. }
  rewrite (Keep _ session_of), (Keep _ fd_of) by done. done.
Qed.

Lemma assign_events this other l : exists es this' rest, TlsStream_assign false this other l = (Ret (this', rest), l ++ es) /\
  sessions_made es = [] /\ sessions_freed es = session_of this /\ fds_closed es = fd_of this /\
  session_of this' = session_of other /\ fd_of this' = fd_of other /\ session_of rest = [] /\ fd_of rest = [].
Proof.
  eexists _, _, _. split; [unfold TlsStream_assign, Socket_assign; cbv [mbind M_bind mret M_ret log_all modify]; rewrite <- app_assoc; reflexivity|].
  unfold sessions_made, sessions_freed, fds_closed. rewrite !omap_app. destruct (ended_session this) as (E1 & E2 & E3), (no_sessions (close_socket (tls_socket this)).2) as [N1 N2].
  unfold sessions_made, sessions_freed, fds_closed in *. rewrite E1, E2, E3, N1, N2, app_nil_r. split_and!; try done; [by rewrite app_nil_r|apply closed_fds].
Qed.

Lemma balanced_assign p q leak w : balanced leak w -> balanced leak (stream_step (AssignTo p q) w).
Proof.
  intros [B1 B2]. cbn [stream_step]. destruct (places w !! p) as [this|] eqn:P; [|done]. destruct (places w !! q) as [other|] eqn:Q; [|done].
  case_bool_decide as N.
  - subst q. cbn. rewrite P in Q. injection Q as ->. rewrite insert_insert_eq, insert_id by done. by split.
  - destruct (assign_events this other (events w)) as (es & this' & rest & E & M1 & M2 & M3 & S1 & F1 & S2 & F2). rewrite E.
    unfold balanced, session_account, fd_account, sessions_made, sessions_freed, fds_closed in *. cbn [places events given].
    rewrite !omap_app, B1, B2, M1, M2, M3.
    assert (forall A (f : TlsStream -> list A), f this' = f other -> f rest = [] -> f this ++ owned f (<[p := this']> (<[q := rest]> (places w))) ≡ₚ owned f (places w)) as Keep.
    { intros A f E1 E2. destruct (owned_replace f (places w) q other rest Q) as (r & H1 & H2).
      destruct (owned_replace f (<[q := rest]> (places w)) p this this') as (r' & H3 & H4); [by rewrite lookup_insert_ne|].
      rewrite E2 in H2. assert (r ≡ₚ f this ++ r') as Hr by (by rewrite <- H3, H2). rewrite H4, E1, H1, Hr. solve_Permutation. }
    rewrite <- (Keep _ session_of), <- (Keep _ fd_of) by done. rewrite app_nil_r, <- !app_assoc. done.
Qed.

Lemma balanced_destroy p leak w : balanced leak w -> balanced leak (stream_step (DestroyAt p) w).
Proof.
  intros [B1 B2]. cbn [stream_step]. destruct (places w !! p) as [s|] eqn:P; [|done].
  unfold balanced, session_account, fd_account, sessions_made, sessions_freed, fds_closed in *. cbn [places events given TlsStream_destroy log_all modify snd].
  destruct (ended_session s) as (E1 & E2 & E3), (no_sessions (close_socket (tls_socket s)).2) as [N1 N2]. pose proof (closed_fds (tls_socket s)) as CF.
  unfold sessions_made, sessions_freed, fds_closed in *.
  rewrite !omap_app, E1, E2, E3, N1, N2, B1, B2. rewrite CF. fold (fd_of s).
  rewrite (owned_delete session_of _ _ _ P), (owned_delete fd_of _ _ _ P). rewrite !app_nil_r. cbn [app]. rewrite <- !app_assoc. done.
Qed.

Lemma balanced_step o leak w : balanced leak w -> balanced (leak ++ forgotten o w) (stream_step o w).
Proof.
  intros B. destruct o as [p fd ssl addr ok|p q|p q|p]; [by apply balanced_construct|..]; cbn [forgotten]; rewrite app_nil_r.
  - by apply balanced_move.
  - by apply balanced_assign.
  - by apply balanced_destroy.
Qed.

(** Whatever is done with streams, every descriptor is owned by one stream or was closed,
    once; every session is owned by one stream, was freed, once, or was made by a
    constructor that failed after it: nobody frees that one, since the destructor of an
    object whose constructor throws does not run and the pointer is a plain one. *)
Lemma streams_balanced ops : balanced (leaked ops Streams_new) (stream_run ops Streams_new).
Proof.
  assert (forall leak w, balanced leak w -> balanced (leak ++ leaked ops w) (stream_run ops w)) as Run.
  { unfold stream_run. induction ops as [|o ops IH]; intros leak w B; cbn [leaked foldl]; [by rewrite app_nil_r|]. rewrite app_assoc. by apply IH, balanced_step. }
  by apply (Run []).
Qed.

Example session_leaks : let w := stream_run [Construct 0 9 (Some 4%nat) (AF_INET "10.0.0.1" 80) false] Streams_new in
  events w = [SslNew 4; SslSetFd 4 9; CloseFd 9] /\ places w = ∅.
Proof. split; reflexivity. Qed.

(** ** A listening socket *)

(** What the system answers to the calls of the constructor. *)
Record Opening := { getaddrinfo_ok : bool; socket_fd : Z; reuse_addr_ok : bool; reuse_port_ok : bool; bind_ok : bool }.

Definition check (ok : bool) (e : os_event) (msg : bytes) : M (list os_event) unit :=
  if ok then log e else throw (SocketException msg).

Definition bind_socket (fd : Z) (os : Opening) : M (list os_event) unit :=
  _ ← check (reuse_addr_ok os) (ReuseAddr fd) "Failed to set reuse address";
  _ ← check (reuse_port_ok os) (ReusePort fd) "Failed to set reuse port";
  check (bind_ok os) (BindFd fd) "Failed to bind socket".

(** The first address is tried only. *)
Definition ListenerSocket_new (os : Opening) : M (list os_event) Z :=
  if negb (getaddrinfo_ok os) then throw (SocketException "Failed to locate address")
  else if negb (Socket_isValid (socket_fd os)) then throw (SocketException "Failed to create socket")
  else closing_socket (socket_fd os) (_ ← bind_socket (socket_fd os) os; mret (socket_fd os)).

Definition listen (fd backlog : Z) (ok : bool) : M (list os_event) unit := check ok (ListenFd fd backlog) "Failed to listen on socket".

(** A listener is bound with both options set before, or there is none: the exception
    says which call failed, and the descriptor is closed. *)
Lemma ListenerSocket_opens os l : Socket_isValid (socket_fd os) = true ->
  (exists fd, ListenerSocket_new os l = (Ret fd, l ++ [ReuseAddr fd; ReusePort fd; BindFd fd]) /\ fd = socket_fd os /\ bind_ok os = true) \/
  (exists msg es, ListenerSocket_new os l = (Throw (SocketException msg), l ++ es) /\
     fds_closed es = (if getaddrinfo_ok os then [socket_fd os] else []) /\ ~ BindFd (socket_fd os) ∈ es).
Proof.
  intros V. unfold ListenerSocket_new, closing_socket, bind_socket, check, close_socket. rewrite V. cbn [negb].
  destruct (getaddrinfo_ok os); cbn [negb]; [|right; exists "Failed to locate address", []; rewrite app_nil_r; split_and!; try done; set_solver].
  cbv [mbind M_bind mret M_ret log modify throw]. 
  destruct (reuse_addr_ok os); [|right; eexists _, _; split_and!; [reflexivity|done|set_solver]].
  destruct (reuse_port_ok os); [|right; eexists _, _; split_and!; [by rewrite <- !app_assoc|done|set_solver]].
  destruct (bind_ok os); [left; eexists; split_and!; [by rewrite <- !app_assoc|done|done]|right; eexists _, _; split_and!; [by rewrite <- !app_assoc|done|set_solver]].
Qed.
