(* ===== verification/Kernel.v ===== *)
(** The wrappers of epoll and io_uring ([core/EpollInstance.hpp/.cpp],
    [core/IoUringInstance.hpp]) beneath the event loop: the interest set that the calls
    of the executor make, and the rings through which file and splice operations go. *)
From S2P Require Import Prelude Bytes Executor.

#[local] Open Scope Z_scope.
#[local] Arguments list_ascii_of_string : simpl never.

(** ** epoll *)

(** An instance owns a descriptor, -1 when there is none; with it go the [close] calls. *)
Definition EpollInstance_new (created : option Z) : outcome Z :=
  match created with Some fd => Ret fd | None => Throw (EpollException "Failed to create epoll instance") end.
Definition EpollInstance_isValid (epoll_fd_ : Z) : bool := negb (epoll_fd_ =? -1).
Definition close_epoll_instance (epoll_fd_ : Z) : Z * list Z := if EpollInstance_isValid epoll_fd_ then (-1, [epoll_fd_]) else (epoll_fd_, []).
Definition EpollInstance_move (other : Z) : Z * Z := (other, -1).
Definition EpollInstance_assign (self : bool) (this other : Z) : Z * Z * list Z :=
  if self then (this, other, []) else (other, -1, (close_epoll_instance this).2).
Definition EpollInstance_release (epoll_fd_ : Z) : Z * Z := (epoll_fd_, -1).

(** The interest set: the descriptors, and whether EPOLLOUT is asked for. *)
Abbreviation interest := (gmap Z bool).

Definition EpollInstance_add (fd : Z) (out : bool) (m : interest) : outcome interest :=
  match m !! fd with
  | Some _ => Throw (EpollException ("Failed to add fd " ++ to_string fd ++ " to epoll"))
  | None => Ret (<[fd := out]> m)
  end.

Definition EpollInstance_modify (fd : Z) (out : bool) (m : interest) : outcome interest :=
  match m !! fd with
  | None => Throw (EpollException ("Failed to modify epoll, fd=" ++ to_string fd))
  | Some _ => Ret (<[fd := out]> m)
  end.

(** EEXIST is the only error of adding an open descriptor. *)
Definition EpollInstance_addOrModify (fd : Z) (out : bool) (m : interest) : outcome interest :=
  match m !! fd with Some _ => EpollInstance_modify fd out m | None => Ret (<[fd := out]> m) end.

(** ENOENT is not an error. *)
Definition EpollInstance_remove (fd : Z) (m : interest) : outcome interest := Ret (delete fd m).

(** What [::epoll_wait] answers; an interrupted call is repeated.  [None]: it waits. *)
Inductive wait_answer := Interrupted | WaitError | Events (n : Z).
Fixpoint EpollInstance_wait (answers : list wait_answer) : option (outcome Z * list wait_answer) :=
  match answers with
  | [] => None
  | Interrupted :: answers => EpollInstance_wait answers
  | WaitError :: answers => Some (Throw (EpollException "Failed to wait for events"), answers)
  | Events n :: answers => Some (Ret n, answers)
  end.

(** The calls that the executor has made. *)
Definition epoll_call (o : epoll_op) (m : interest) : outcome interest :=
  match o with
  | CTL_ADD fd => EpollInstance_add fd false m
  | CTL_MOD fd out => EpollInstance_modify fd out m
  | CTL_DEL fd => EpollInstance_remove fd m
  end.
Definition replay (ops : list epoll_op) : outcome interest := foldl (fun r o => m ← r; epoll_call o m) (Ret ∅) ops.

(** ** io_uring *)

Inductive uring_op :=
| IoRead (fd buf len offset : Z) | IoWrite (fd buf len offset : Z) | IoSplice (inFd inOffset outFd outOffset len : Z).
Record sqe := { io : uring_op; user_data : Z }.

(** The submission queue and its size, what the kernel works on, and the completions. *)
Record ring := { entries : nat; sq : list sqe; inflight : list sqe; cq : list (Z * Z) }.

(** [io_uring_get_sqe], then filling the entry. *)
Definition put_sqe (op : uring_op) (userData : Z) (r : ring) : bool * ring :=
  if (length (sq r) <? entries r)%nat
  then (true, {| entries := entries r; sq := sq r ++ [{| io := op; user_data := userData |}]; inflight := inflight r; cq := cq r |})
  else (false, r).

Definition prepRead (fd buf len userData offset : Z) : ring -> bool * ring := put_sqe (IoRead fd buf len offset) userData.
Definition prepWrite (fd buf len userData offset : Z) : ring -> bool * ring := put_sqe (IoWrite fd buf len offset) userData.
Definition prepSplice (inFd inOffset outFd outOffset len userData : Z) : ring -> bool * ring :=
  put_sqe (IoSplice inFd inOffset outFd outOffset len) userData.

(** [io_uring_submit]: the kernel takes the first [accepted] entries; what it answers
    is ignored. *)
Definition ring_submit (accepted : nat) (r : ring) : ring :=
  {| entries := entries r; sq := drop accepted (sq r); inflight := inflight r ++ take accepted (sq r); cq := cq r |}.

(** [drainCompletions]: the entries, in order, which are then seen. *)
Definition ring_drain (r : ring) : list (Z * Z) * ring :=
  (cq r, {| entries := entries r; sq := sq r; inflight := inflight r; cq := [] |}).

(** Some operations complete. *)
Definition ring_progress (r r' : ring) : Prop :=
  sq r' = sq r /\ exists done, cq r' = cq r ++ done /\ map user_data (inflight r) ≡ₚ map fst done ++ map user_data (inflight r').

(** ** The event loop over them *)
Section Ring.
(** The rest of the process; what the kernel completes while the loop waits, and how
    many entries it accepts. *)
Context {W : Type} {World0 : World W} (kernel : W -> ring -> ring) (accepted : W -> nat).

#[export] Instance ring_world : World (ring * W) := {|
  resume h t ex s := let '(cs, w) := resume h t ex s.2 in (cs, (s.1, w));
  store_result p res s := (s.1, store_result p res s.2);
  completions s := let '(cs, r) := ring_drain s.1 in (cs, (r, s.2));
  posted s := let '(ps, w) := posted s.2 in (ps, (s.1, w));
  epoll_wait t s := let '(es, w) := epoll_wait t s.2 in (es, (kernel w s.1, w));
  now s := let '(t, w) := now s.2 in (t, (s.1, w));
  prepFile p s :=
    let '(b, r) := match type p with
      | READ => prepRead (prepFd p) (buf p) (prepLen p) (userData p) (offset p) s.1
      | WRITE => prepWrite (prepFd p) (buf p) (prepLen p) (userData p) (offset p) s.1
      end in (b, (r, s.2));
  Executor.prepSplice p s := let '(b, r) := prepSplice (srcFd p) (srcOffset p) (dstFd p) (dstOffset p) (spliceLen p) (spliceData p) s.1 in (b, (r, s.2));
  ioSubmit s := (ring_submit (accepted s.2) s.1, ioSubmit s.2);
  shutdown s := shutdown s.2;
|}.

(** What the rings hold is what the executor waits for. *)
Definition ring_ids (r : ring) : list Z := map user_data (sq r) ++ map user_data (inflight r) ++ map fst (cq r).
Definition op_ids (ex : Executor) : list Z := keys (pendingFileOps_ ex) ++ keys (pendingSpliceOps_ ex).
Definition ring_ok (ex : Executor) (r : ring) : Prop := ring_ids r ≡ₚ op_ids ex.

(** The operation of an identifier. *)
Definition find_op (ex : Executor) (u : Z) : option PendingOp :=
  match pendingFileOps_ ex !! u with Some it => Some it | None => pendingSpliceOps_ ex !! u end.

Lemma op_ids_nodup ex : executor_inv ex -> NoDup (op_ids ex).
Proof.
  intros I. pose proof (inv_ids _ I) as N. unfold ids in N.
  apply NoDup_app in N as (_ & _ & N). apply NoDup_app in N as (_ & _ & N). exact N.
Qed.

Lemma find_op_elem ex u : u ∈ op_ids ex <-> is_Some (find_op ex u).
Proof.
  unfold op_ids, find_op. rewrite elem_of_app, !keys_elem. destruct (pendingFileOps_ ex !! u) as [it|]; [|].
  - split; [by eexists|]. intros _. left. by eexists.
  - split; [intros [[? H]|H]; [done|exact H]|by right].
Qed.

(** One completion: its coroutine is ready, its operation is over. *)
Lemma complete_one c ex s it : executor_inv ex -> find_op ex c.1 = Some it ->
  let '(ex', s') := complete c (ex, s) in
  readyQueue_ ex' = readyQueue_ ex ++ [{| ready := opHandle it; timedOut := false |}] /\ op_ids ex ≡ₚ c.1 :: op_ids ex' /\
  s' = store_result (resultPtr it) c.2 s /\ (forall u, u <> c.1 -> find_op ex' u = find_op ex u).
Proof.
  intros I F. destruct c as [u res]. unfold find_op in F. cbn [fst] in F. unfold complete.
  destruct (pendingFileOps_ ex !! u) as [it'|] eqn:E1; [injection F as ->|rewrite F].
  - split_and!; [done| |done|].
    + unfold op_ids. cbn. by rewrite (keys_delete _ _ _ E1).
    + intros u' N. unfold find_op. cbn. by rewrite lookup_delete_ne.
  - split_and!; [done| |done|].
    + unfold op_ids. cbn. rewrite (keys_delete _ _ _ F). solve_Permutation.
    + intros u' N. unfold find_op. cbn. by rewrite lookup_delete_ne.
Qed.

Lemma complete_all cs ex s rest : executor_inv ex -> map fst cs ++ rest ≡ₚ op_ids ex ->
  exists its, Forall2 (fun c it => find_op ex c.1 = Some it) cs its /\
  let '(ex', s') := foldl (fun s c => complete c s) (ex, s) cs in
  executor_inv ex' /\ readyQueue_ ex' = readyQueue_ ex ++ map (fun it => {| ready := opHandle it; timedOut := false |}) its /\
  rest ≡ₚ op_ids ex' /\ s' = foldl (fun s p => store_result (resultPtr p.2) p.1.2 s) s (zip cs its).
Proof.
  revert ex s. induction cs as [|c cs IH]; intros ex s I P.
  { exists []. split; [constructor|]. cbn. rewrite app_nil_r. done. }
  assert (F : is_Some (find_op ex c.1)) by (apply find_op_elem; rewrite <- P; left). destruct F as [it F].
  pose proof (complete_one c ex s it I F) as C. destruct (complete_inv c ex s I) as [I1 _]. cbn [foldl].
  destruct (complete c (ex, s)) as [ex1 s1] eqn:Ec. cbn [fst] in I1. destruct C as (R & K & -> & O).
  assert (P1 : map fst cs ++ rest ≡ₚ op_ids ex1) by (rewrite K in P; by apply Permutation_cons_inv in P).
  destruct (IH ex1 (store_result (resultPtr it) c.2 s) I1 P1) as (its & F2 & H). exists (it :: its). split.
  - constructor; [done|]. eapply Forall2_impl; [exact F2|]. intros x y Hx. cbn in Hx. rewrite <- O; [done|]. intros Ex.
    pose proof (op_ids_nodup ex I) as N. rewrite K in N. apply NoDup_cons in N as [N _]. apply N, find_op_elem. rewrite <- Ex. by eexists.
  - cbn [zip zip_with foldl fst snd]. destruct (foldl _ _ cs) as [ex' s']. destruct H as (I' & R' & P' & S'). split_and!; [done| |done|exact S'].
    rewrite R', R. cbn. by rewrite <- app_assoc.
Qed.

(** The steps between the drains keep the operations, but for the hand-over. *)
Definition same_ops (ex ex' : Executor) : Prop := pendingFileOps_ ex' = pendingFileOps_ ex /\ pendingSpliceOps_ ex' = pendingSpliceOps_ ex.

Lemma same_ops_trans ex1 ex2 ex3 : same_ops ex1 ex2 -> same_ops ex2 ex3 -> same_ops ex1 ex3.
Proof. intros [? ?] [? ?]. split; congruence. Qed.

Lemma foldl_same {A} (f : Executor -> A -> Executor) l ex : (forall ex a, same_ops ex (f ex a)) -> same_ops ex (foldl f ex l).
Proof. intros H. revert ex. induction l as [|a l IH]; intros ex; [done|]. eapply same_ops_trans; [apply H|apply IH]. Qed.

Lemma dispatch_same e ex : same_ops ex (dispatch_event e ex).
Proof.
  unfold dispatch_event. destruct (_ =? _).
  - pose proof (foldl_same (fun ex h => push_ready h false ex) (poolResumeQueue_ ex) ex (fun _ _ => conj eq_refl eq_refl)) as [A B]. by split.
  - destruct (_ !! _); [|done]. by destruct (should_wake _ _).
Qed.

Lemma expire_same `{DeadlineHeap} t ex : same_ops ex (expire t ex).
Proof.
  unfold expire. generalize (length (taskDeadlines_ ex)). intros n. revert ex. induction n as [|n IH]; intros ex; [done|]. cbn [expire_loop].
  destruct (top_pop _) as [[d rest]|]; [|done]. destruct (_ <=? _); [|done]. eapply same_ops_trans; [|apply IH].
  unfold expire_one. destruct (_ !! _); [|done]. by destruct (_ =? _).
Qed.

Lemma wake_turn_same ex : same_ops ex (wake_turn ex).
Proof.
  unfold wake_turn. set (slot := nth _ _ _).
  pose proof (foldl_same (fun ex k => wake_one k ex) slot ex (fun _ _ => conj eq_refl eq_refl)) as [A B]. by split.
Qed.

Lemma ring_ok_same ex ex' r : ring_ok ex r -> same_ops ex ex' -> ring_ok ex' r.
Proof. unfold ring_ok, op_ids. by intros P [-> ->]. Qed.

Lemma put_sqe_ids op u r : let '(b, r') := put_sqe op u r in if b then ring_ids r' ≡ₚ u :: ring_ids r else r' = r.
Proof. unfold put_sqe. destruct (_ <? _)%nat; [|done]. unfold ring_ids. cbn. rewrite map_app. cbn. solve_Permutation. Qed.

Lemma ring_submit_ids n r : ring_ids (ring_submit n r) ≡ₚ ring_ids r.
Proof.
  unfold ring_ids, ring_submit. cbn. rewrite !map_app. rewrite <- (take_drop n (sq r)) at 3. rewrite map_app. solve_Permutation.
Qed.

Lemma ring_progress_ids r r' : ring_progress r r' -> ring_ids r' ≡ₚ ring_ids r.
Proof. intros (E & dn & C & P). unfold ring_ids. rewrite E, C, P, map_app. solve_Permutation. Qed.

(** An operation that was not handed over yet is none of those that were. *)
Lemma prep_fresh ex u : executor_inv ex -> u ∈ map userData (pendingFileOpPreps_ ex) ++ map spliceData (pendingSpliceOpPreps_ ex) -> u ∉ op_ids ex.
Proof.
  intros I Hu H. pose proof (inv_ids _ I) as N. unfold ids in N. rewrite app_assoc in N. apply NoDup_app in N as (_ & N & _). by apply (N u).
Qed.

Definition file_handed (p : PendingFileOpPrep) (rest : list PendingFileOpPrep) (ex : Executor) : Executor :=
  on_filePreps (fun _ => rest) (on_fileOps <[userData p := {| opHandle := prepHandle p; resultPtr := prepResult p |}]> ex).
Definition splice_handed (p : PendingSpliceOpPrep) (rest : list PendingSpliceOpPrep) (ex : Executor) : Executor :=
  on_splicePreps (fun _ => rest) (on_spliceOps <[spliceData p := {| opHandle := spliceHandle p; resultPtr := spliceResult p |}]> ex).

Lemma file_handed_ids p rest ex : executor_inv ex -> pendingFileOpPreps_ ex = p :: rest -> op_ids (file_handed p rest ex) ≡ₚ userData p :: op_ids ex.
Proof.
  intros I E. assert (F : userData p ∉ op_ids ex) by (apply prep_fresh; [done|]; rewrite E; left).
  unfold op_ids in *. cbn. rewrite keys_insert; [done|]. apply eq_None_not_Some. intros H. apply F, elem_of_app. left. by apply keys_elem.
Qed.

Lemma splice_handed_ids p rest ex : executor_inv ex -> pendingSpliceOpPreps_ ex = p :: rest -> op_ids (splice_handed p rest ex) ≡ₚ spliceData p :: op_ids ex.
Proof.
  intros I E. assert (F : spliceData p ∉ op_ids ex) by (apply prep_fresh; [done|]; rewrite E; apply elem_of_app; right; left).
  unfold op_ids in *. cbn. rewrite keys_insert; [solve_Permutation|]. apply eq_None_not_Some. intros H. apply F, elem_of_app. right. by apply keys_elem.
Qed.

Lemma prep_files_ring l ex r w : executor_inv ex -> pendingFileOpPreps_ ex = l -> ring_ok ex r ->
  let s := prep_files l (ex, (r, w)) in ring_ok s.1 s.2.1 /\ s.2.2 = w.
Proof.
  revert ex r. induction l as [|p l IH]; intros ex r I E Ok; [done|].
  cbn [prep_files snd fst].
  assert (Es : exists op, prepFile p (r, w) = (let '(b, r') := put_sqe op (userData p) r in (b, (r', w)))).
  { cbn. unfold prepRead, prepWrite. destruct (type p); by eexists. }
  destruct Es as [op Es]. pose proof (put_sqe_ids op (userData p) r) as P.
  rewrite Es. destruct (put_sqe op (userData p) r) as [[] r']; [|by rewrite P].
  assert (I1 : executor_inv (file_handed p l ex)).
  { pose proof (file_handed_ids p l ex I E) as K. apply (inv_ops ex _ []); try done.
    - unfold waiting, file_handed. cbn. rewrite vals_insert, E; [cbn; solve_Permutation|]. apply eq_None_not_Some. intros H.
      apply (prep_fresh ex (userData p) I); [rewrite E; left|]. apply elem_of_app; left. by apply keys_elem.
    - change (ids ex) with (map userData (pendingFileOpPreps_ ex) ++ map spliceData (pendingSpliceOpPreps_ ex) ++ op_ids ex).
      change (ids (file_handed p l ex)) with (map userData l ++ map spliceData (pendingSpliceOpPreps_ ex) ++ op_ids (file_handed p l ex)).
      rewrite K, E. cbn. solve_Permutation. }
  apply (IH (file_handed p l ex) r' I1 eq_refl). unfold ring_ok. rewrite P, file_handed_ids by done. by rewrite Ok.
Qed.

Lemma prep_splices_ring l ex r w : executor_inv ex -> pendingSpliceOpPreps_ ex = l -> ring_ok ex r ->
  let s := prep_splices l (ex, (r, w)) in ring_ok s.1 s.2.1 /\ s.2.2 = w.
Proof.
  revert ex r. induction l as [|p l IH]; intros ex r I E Ok; [done|]. cbn [prep_splices snd fst].
  assert (Es : exists op, Executor.prepSplice p (r, w) = (let '(b, r') := put_sqe op (spliceData p) r in (b, (r', w)))) by (by eexists).
  destruct Es as [op Es]. pose proof (put_sqe_ids op (spliceData p) r) as P.
  rewrite Es. destruct (put_sqe op (spliceData p) r) as [[] r']; [|by rewrite P].
  assert (I1 : executor_inv (splice_handed p l ex)).
  { pose proof (splice_handed_ids p l ex I E) as K. apply (inv_ops ex _ []); try done.
    - unfold waiting, splice_handed. cbn. rewrite vals_insert, E; [cbn; solve_Permutation|]. apply eq_None_not_Some. intros H.
      apply (prep_fresh ex (spliceData p) I); [rewrite E; apply elem_of_app; right; left|]. apply elem_of_app; right. by apply keys_elem.
    - change (ids ex) with (map userData (pendingFileOpPreps_ ex) ++ map spliceData (pendingSpliceOpPreps_ ex) ++ op_ids ex).
      change (ids (splice_handed p l ex)) with (map userData (pendingFileOpPreps_ ex) ++ map spliceData l ++ op_ids (splice_handed p l ex)).
      rewrite K, E. cbn. solve_Permutation. }
  apply (IH (splice_handed p l ex) r' I1 eq_refl). unfold ring_ok. rewrite P, splice_handed_ids by done. by rewrite Ok.
Qed.

Lemma stores_ring l r (w : W) : (foldl (fun (s : ring * W) (p : Z * Z * PendingOp) => store_result (resultPtr p.2) p.1.2 s) (r, w) l).1 = r.
Proof. revert w. induction l as [|p l IH]; intros w; [done|]. apply IH. Qed.

Lemma poll_ring `{DeadlineHeap} ewt ex r w : executor_inv ex -> (forall w : W, null_handle ∉ (posted w).1) ->
  (forall w r, ring_progress r (kernel w r)) -> ring_ok ex r -> let s := poll ewt (ex, (r, w)) in ring_ok s.1 s.2.1.
Proof.
  intros I Hp Hk Ok. unfold poll. cbv zeta. cbn [epoll_wait ring_world fst snd].
  destruct (epoll_wait _ w) as [es w1]. specialize (Hp w1). cbn [posted ring_world fst snd].
  destruct (posted w1) as [ps w2]. cbn [now ring_world fst snd]. destruct (now w2) as [t w3].
  set (ex1 := foldl (fun ex h => post h ex) ex ps). set (ex2 := foldl (fun ex e => dispatch_event e ex) ex1 es).
  assert (S3 : same_ops ex (expire t ex2)).
  { eapply same_ops_trans; [apply (foldl_same (fun ex h => post h ex) ps); done|].
    eapply same_ops_trans; [apply (foldl_same (fun ex e => dispatch_event e ex) es); intros; apply dispatch_same|apply expire_same]. }
  assert (I3 : executor_inv (expire t ex2)).
  { destruct (posts_inv ps ex I Hp) as [I1 _]. destruct (events_inv es _ I1) as [I2 _]. by apply expire_inv. }
  assert (Ok3 : ring_ok (expire t ex2) (kernel w1 r)).
  { eapply ring_ok_same; [|exact S3]. unfold ring_ok. by rewrite (ring_progress_ids _ _ (Hk w1 r)). }
  unfold submit_ops. cbn [fst snd].
  destruct (prep_files_inv (pendingFileOpPreps_ (expire t ex2)) (expire t ex2) (kernel w1 r, w3) I3 eq_refl) as [I4 _].
  destruct (prep_files_ring (pendingFileOpPreps_ (expire t ex2)) (expire t ex2) (kernel w1 r) w3 I3 eq_refl Ok3) as [Ok4 _].
  destruct (prep_files _ _) as [ex4 [r4 w4]]. cbn [fst snd] in *.
  destruct (prep_splices_ring (pendingSpliceOpPreps_ ex4) ex4 r4 w4 I4 eq_refl Ok4) as [Ok5 _].
  destruct (prep_splices _ _) as [ex5 [r5 w5]]. cbn [fst snd ioSubmit ring_world] in *.
  eapply ring_ok_same; [|apply wake_turn_same]. unfold ring_ok. by rewrite ring_submit_ids.
Qed.

End Ring.

(** ** The interest set *)

(** A descriptor is registered when it is new, and only a registered one is asked for
    writability. *)
Definition interest_ok (c : call) (m : interest) : Prop :=
  match c with
  | RegisterReadFd fd => m !! fd = None
  | EnableWriteEvents fd | DisableWriteEvents fd => is_Some (m !! fd)
  | _ => True
  end.

(** The interest set of an executor, where [writeInterested_] are those asked for
    writability. *)
Definition mirrors (ex : Executor) (m : interest) : Prop :=
  replay (epoll_ ex) = Ret m /\ forall fd, fd ∈ writeInterested_ ex <-> m !! fd = Some true.

Lemma replay_snoc l o : replay (l ++ [o]) = (m ← replay l; epoll_call o m).
Proof. unfold replay. by rewrite foldl_app. Qed.

(** What a call makes of the set. *)
Definition interest_after (c : call) (m : interest) : interest :=
  match c with
  | RegisterReadFd fd => <[fd := false]> m
  | EnableWriteEvents fd => <[fd := true]> m
  | DisableWriteEvents fd => <[fd := false]> m
  | Unregister fd => delete fd m
  | _ => m
  end.

Lemma mirrors_other ex ex' m : epoll_ ex' = epoll_ ex -> writeInterested_ ex' = writeInterested_ ex -> mirrors ex m -> mirrors ex' m.
Proof. unfold mirrors. by intros -> ->. Qed.

Lemma insert_mirror (m : interest) (ws ws' : gset Z) fd b : (forall x, x ∈ ws <-> m !! x = Some true) ->
  (forall x, x ∈ ws' <-> (x <> fd /\ x ∈ ws) \/ (x = fd /\ b = true)) -> forall x, x ∈ ws' <-> <[fd := b]> m !! x = Some true.
Proof.
  intros H H' x. rewrite H'. destruct (decide (x = fd)) as [->|N].
  - rewrite lookup_insert_eq. split; [intros [[? _]|[_ ->]]; done|]. intros [= ->]. by right.
  - rewrite lookup_insert_ne, H by done. tauto.
Qed.

Lemma do_call_mirrors c ex m : mirrors ex m -> interest_ok c m -> mirrors (do_call c ex) (interest_after c m).
Proof.
  intros Hm. assert (Hm' := Hm). destruct Hm' as [R Wr].
  destruct c as [h|fd|fd|fd|fd|fd h dl|fd h dl|h dl|k|n h|ty fd b len h rp off|sf so df d_o len h rp|a]; cbn [do_call interest_ok interest_after]; intros Ok;
    try (eapply mirrors_other; [| |exact Hm]; done).
  - unfold spawn. destruct (_ =? _); [done|]. by eapply mirrors_other.
  - split.
    + unfold unregister. cbn [epoll_ on_epoll on_writeInt on_suspended]. rewrite replay_snoc, R. done.
    + intros x. unfold unregister. cbn [writeInterested_ on_writeInt on_epoll on_suspended]. rewrite elem_of_difference, Wr, not_elem_of_singleton, lookup_delete_Some.
      split; intros [? ?]; done.
  - split.
    + unfold registerReadFd. cbn [epoll_ on_epoll]. rewrite replay_snoc, R. cbn. unfold EpollInstance_add. by rewrite Ok.
    + apply (insert_mirror m (writeInterested_ ex)); [done|]. intros x. unfold registerReadFd. cbn [writeInterested_ on_epoll].
      assert (N : fd ∉ writeInterested_ ex) by (rewrite Wr, Ok; done). split; [|intros [[_ ?]|[_ ?]]; done].
      intros Hx. left. split; [|done]. by intros ->.
  - destruct Ok as [b Hb]. unfold enableWriteEvents. destruct (decide (fd ∈ writeInterested_ ex)) as [H|H].
    + assert (Hb' := proj1 (Wr fd) H). by rewrite insert_id.
    + split.
      * cbn [epoll_ on_epoll on_writeInt]. rewrite replay_snoc, R. cbn. unfold EpollInstance_modify. by rewrite Hb.
      * apply (insert_mirror m (writeInterested_ ex)); [done|]. intros x. cbn [writeInterested_ on_epoll on_writeInt].
        rewrite elem_of_union, elem_of_singleton. destruct (decide (x = fd)) as [->|N]; [tauto|]. tauto.
  - destruct Ok as [b Hb]. unfold disableWriteEvents. destruct (decide (fd ∈ writeInterested_ ex)) as [H|H].
    + split.
      * cbn [epoll_ on_epoll on_writeInt]. rewrite replay_snoc, R. cbn. unfold EpollInstance_modify. by rewrite Hb.
      * apply (insert_mirror m (writeInterested_ ex)); [done|]. intros x. cbn [writeInterested_ on_epoll on_writeInt].
        rewrite elem_of_difference, not_elem_of_singleton. split; [tauto|]. intros [?|[_ ?]]; [tauto|done].
    + assert (b = false) as -> by (destruct b; [by apply Wr in Hb|done]). by rewrite insert_id.
  - unfold fireEvent. destruct (_ !! _); [|done]. by eapply mirrors_other.
Qed.

Fixpoint interests_ok (cs : list call) (m : interest) : Prop :=
  match cs with [] => True | c :: cs => interest_ok c m /\ interests_ok cs (interest_after c m) end.

(** epoll and the executor agree: as long as coroutines register new descriptors and
    wait to write on registered ones, no call of epoll throws, EPOLLOUT is asked for
    exactly where [writeInterested_] says so, whatever calls are made in between, and a
    coroutine that registers a descriptor, waits on it any number of times and unregisters
    it leaves the interest set as it was. *)
Theorem epoll_mirror ex m : mirrors ex m ->
  (forall cs, interests_ok cs m -> mirrors (do_calls cs ex) (foldl (fun m c => interest_after c m) m cs)) /\
  forall fd cs, m !! fd = None ->
    Forall (fun c => exists h dl, c = EnableWriteEvents fd \/ c = DisableWriteEvents fd \/ c = WaitForRead fd h dl \/ c = WaitForWrite fd h dl) cs ->
    mirrors (do_calls (RegisterReadFd fd :: cs ++ [Unregister fd]) ex) m.
Proof.
  assert (All : forall cs ex m, mirrors ex m -> interests_ok cs m -> mirrors (do_calls cs ex) (foldl (fun m c => interest_after c m) m cs)).
  { clear. induction cs as [|c cs IH]; intros ex m Hm Ok; [done|]. destruct Ok as [Ok1 Ok2]. apply (IH (do_call c ex)); [|done]. by apply do_call_mirrors. }
  intros Hm. split; [intros cs Ok; by apply All|]. intros fd cs F Hc.
  assert (Shape : forall cs b, Forall (fun c => exists h dl, c = EnableWriteEvents fd \/ c = DisableWriteEvents fd \/ c = WaitForRead fd h dl \/ c = WaitForWrite fd h dl) cs ->
    interests_ok (cs ++ [Unregister fd]) (<[fd := b]> m) /\
    foldl (fun m c => interest_after c m) (<[fd := b]> m) (cs ++ [Unregister fd]) = m).
  { clear -F. induction cs as [|c cs IH]; intros b Hc.
    - cbn. split; [done|]. by rewrite delete_insert_id.
    - apply Forall_cons in Hc as [(h & dl & Hc1) Hc]. cbn [app interests_ok foldl].
      assert (E : exists b', interest_after c (<[fd := b]> m) = <[fd := b']> m).
      { destruct Hc1 as [->|[->|[->| ->]]]; cbn; rewrite ?insert_insert_eq; by eexists. }
      destruct E as [b' ->]. destruct (IH b' Hc) as [I1 I2]. split; [|exact I2]. split; [|exact I1].
      destruct Hc1 as [->|[->|[->| ->]]]; cbn; try done; rewrite lookup_insert_eq; by eexists. }
  destruct (Shape cs false Hc) as [S1 S2]. pose proof (All (RegisterReadFd fd :: cs ++ [Unregister fd]) ex m Hm (conj F S1)) as A.
  cbn [foldl interest_after] in A. by rewrite S2 in A.
Qed.

(** ** Examples *)
Module KernelWitnesses.
Import ExecutorWitnesses.
#[local] Existing Instance first_least_heap.
#[local] Existing Instance demo.
#[local] Existing Instance demo_disciplined.

(** A kernel that completes everything it works on. *)
Definition prompt (w : nat * nat) (r : ring) : ring :=
  {| entries := entries r; sq := sq r; inflight := []; cq := cq r ++ map (fun s => (user_data s, 5)) (inflight r) |}.
Lemma prompt_progress w r : ring_progress r (prompt w r).
Proof. split; [done|]. eexists. split; [reflexivity|]. rewrite map_map. cbn. by rewrite app_nil_r. Qed.

#[local] Instance rings : World (ring * (nat * nat)) := ring_world prompt (fun _ => 8%nat).

(** A read is submitted; two turns later it has completed. *)
Definition submitted : Executor := submitFile READ 9 1000 64 1 2000 0 (Executor_new 3).
Definition empty_ring : ring := {| entries := 8; sq := []; inflight := []; cq := [] |}.
Definition turn1 : Executor * (ring * (nat * nat)) := poll 1 (submitted, (empty_ring, (0, 3)%nat)).
Definition turn2 : Executor * (ring * (nat * nat)) := poll 1 turn1.

Lemma submitted_inv : executor_inv submitted.
Proof. apply submitFile_inv; [apply Executor_new_inv|done]. Qed.
Lemma turn2_inv : executor_inv turn2.1.
Proof.
  assert (P : forall w : ring * (nat * nat), null_handle ∉ (posted w).1) by (intros [r w]; cbn; apply not_elem_of_nil).
  unfold turn2. rewrite (surjective_pairing turn1). apply poll_inv; [|exact P]. apply poll_inv; [apply submitted_inv|exact P].
Qed.


(** A descriptor that is written to. *)
Definition session : list call := [EnableWriteEvents 7; WaitForWrite 7 1 20; DisableWriteEvents 7; WaitForRead 7 1 30].

Lemma epoll_mirror_witness : exists m, replay (epoll_ (do_calls (RegisterReadFd 7 :: session ++ [Unregister 7]) (Executor_new 3))) = Ret m /\ m !! 7 = None.
Proof.
  assert (M : mirrors (Executor_new 3) {[3 := false]}).
  { split; [reflexivity|]. intros fd. cbn. split; [intros H; by apply elem_of_empty in H|]. intros [_ H]%lookup_singleton_Some. done. }
  exists {[3 := false]}. split; [|reflexivity].
  refine (proj1 (proj2 (epoll_mirror (Executor_new 3) {[3 := false]} M) 7 session eq_refl _)).
  unfold session. repeat constructor; [exists 1, 0|exists 1, 20|exists 1, 0|exists 1, 30]; tauto.
Defined.
End KernelWitnesses.
