(* ===== verification/Streams.v ===== *)
(** Sending a file by the kernel ([TcpStream::sendFile] in [net/TcpStream.cpp]) and the
    TLS stream ([net/TlsStream.hpp/.cpp]), which implements the same interface [Net] over
    the calls of OpenSSL. *)
From S2P Require Import Prelude Bytes Net.

#[export] Instance send_event_eq_dec : EqDecision send_event.
Proof. solve_decision. Defined.

(** ** [sendfile] *)
Section SendFile.
(** The content of an open file, and the [errno] of a failing call. *)
Context (content : Z -> bytes) (errno : Z).

(** [::sendfile] at [offset]: [inl] the number of bytes, or EAGAIN ([true]) or another
    error.  The scripted socket has room for so many bytes. *)
Definition sendfile (fd offset remaining : nat) (k : Kernel) : (nat + bool) * Kernel :=
  let available := take remaining (drop offset (content (Z.of_nat fd))) in
  let next rest out := {| recv_script := recv_script k; send_script := rest; timeouts := timeouts k; outbox := out; flag := flag k |} in
  match available, send_script k with
  | [], _ => (inl 0, k)
  | _, [] => (inl (length available), next [] (outbox k ++ available))
  | _, (NoRoom | Room 0) :: rest => (inr true, next rest (outbox k))
  | _, Room n :: rest => (inl (length (take n available)), next rest (outbox k ++ take n available))
  | _, SendError :: rest => (inr false, next rest (outbox k))
  end.

(** The loop; a call uses up an entry of the script unless it is the last one. *)
Fixpoint sendFile_loop (fuel fd offset count remaining : nat) (k : Kernel) : option (Z * Kernel) :=
  match fuel with
  | 0 => None
  | S fuel =>
      if remaining =? 0 then Some (Z.of_nat (count - remaining), k)
      else
        let '(r, k) := sendfile fd offset remaining k in
        match r with
        | inr true => sendFile_loop fuel fd offset count remaining (tcp_suspend k)
        | inr false => Some ((- errno)%Z, k)
        | inl 0 => Some (Z.of_nat (count - remaining), k)
        | inl n => sendFile_loop fuel fd (offset + n) count (remaining - n) k
        end
  end.

Definition sendFile_fuel (k : Kernel) : nat := length (send_script k) + 3.
Definition tcp_sendFile (fd offset count : nat) (k : Kernel) : option (Z * Kernel) :=
  sendFile_loop (sendFile_fuel k) fd offset count count k.

Lemma take_drop_next (f : bytes) offset m n : take m (drop offset f) ++ take n (drop (offset + m) f) = take (m + n) (drop offset f).
Proof. rewrite <- drop_drop. by rewrite take_take_drop. Qed.

Lemma take_length_take' {A} n (l : list A) : take (length (take n l)) l = take n l.
Proof. rewrite length_take. destruct (Nat.le_gt_cases n (length l)); [by rewrite Nat.min_l|]. by rewrite Nat.min_r, !take_ge by lia. Qed.

Lemma take_of_take {A} n m (l : list A) : take (length (take n (take m l))) l = take n (take m l).
Proof. rewrite take_take. apply take_length_take'. Qed.

(** What a call sends, and what it leaves of the script. *)
Lemma sendfile_spec fd offset remaining k : remaining <> 0 ->
  let '(r, k') := sendfile fd offset remaining k in
  let f := content (Z.of_nat fd) in
  recv_script k' = recv_script k /\ timeouts k' = timeouts k /\ (SendError ∉ send_script k -> SendError ∉ send_script k') /\
  match r with
  | inl n => outbox k' = outbox k ++ take n (drop offset f) /\ n <= min remaining (length f - offset) /\
      (n = 0 -> length f <= offset) /\
      (length (send_script k') < length (send_script k) \/ send_script k' = [] /\ n = min remaining (length f - offset) \/ n = 0)
  | inr b => outbox k' = outbox k /\ length (send_script k') < length (send_script k) /\ (SendError ∉ send_script k -> b = true)
  end.
Proof.
  intros Hr. unfold sendfile. cbv zeta. set (f := content (Z.of_nat fd)).
  assert (L : length (take remaining (drop offset f)) = min remaining (length f - offset)) by (rewrite length_take, length_drop; lia).
  pose proof (take_length_take' remaining (drop offset f)) as T1. pose proof (fun n => take_of_take n remaining (drop offset f)) as T2.
  destruct (take remaining (drop offset f)) as [|a l].
  { cbn in L. split_and!; try done; try (by rewrite app_nil_r); lia. }
  destruct (send_script k) as [|[[|n]| |] rest]; cbn [recv_script timeouts outbox send_script].
  - split_and!; try done; try (by rewrite T1); try lia. right; left; split; [done|lia].
  - split_and!; try done; try set_solver; cbn; lia.
  - split_and!; try done; try (by rewrite T2); try set_solver; try (left; cbn; lia); rewrite length_take; lia.
  - split_and!; try done; try set_solver; cbn; lia.
  - split_and!; try done; try (cbn; lia); intros N; exfalso; set_solver.
Qed.

Lemma suspend_scripts k : send_script (tcp_suspend k) = send_script k /\ outbox (tcp_suspend k) = outbox k /\ recv_script (tcp_suspend k) = recv_script k.
Proof. unfold tcp_suspend. by destruct (timeouts k). Qed.

Lemma sendFile_loop_spec fuel fd offset count remaining k : let f := content (Z.of_nat fd) in
  remaining <= count -> length (send_script k) + (if decide (min remaining (length f - offset) = 0) then 0 else 2) < fuel ->
  exists n k' m, sendFile_loop fuel fd offset count remaining k = Some (n, k') /\ recv_script k' = recv_script k /\
    outbox k' = outbox k ++ take m (drop offset f) /\ m <= min remaining (length f - offset) /\
    (n = Z.of_nat (count - remaining + m) /\ m = min remaining (length f - offset) \/ n = (- errno)%Z /\ SendError ∈ send_script k).
Proof.
  cbv zeta. set (f := content (Z.of_nat fd)). revert offset remaining k.
  induction fuel as [|fuel IH]; intros offset remaining k Hc Hf; [lia|]. cbn [sendFile_loop].
  destruct (Nat.eqb_spec remaining 0) as [->|Hr].
  { exists (Z.of_nat (count - 0)), k, 0. cbn. rewrite app_nil_r. split_and!; try done; try lia; left; split; lia. }
  pose proof (sendfile_spec fd offset remaining k Hr) as S. cbv zeta in S. fold f in S. destruct (sendfile fd offset remaining k) as [r k1].
  destruct S as (R & _ & Se & S). destruct r as [[|n]|[]].
  - destruct S as (O & _ & E0 & _). specialize (E0 eq_refl). exists (Z.of_nat (count - remaining)), k1, 0.
    split_and!; try done; try lia; left; split; lia.
  - destruct S as (O & L & _ & M).
    assert (Hf' : length (send_script k1) + (if decide (min (remaining - S n) (length f - (offset + S n)) = 0) then 0 else 2) < fuel).
    { rewrite (decide_False (P := min remaining (length f - offset) = 0)) in Hf by lia. destruct M as [M|[[M1 M2]|M]]; [|rewrite M1; cbn; rewrite decide_True by lia; lia|done].
      destruct (decide _); lia. }
    destruct (IH (offset + S n) (remaining - S n) k1 ltac:(lia) Hf') as (n' & k' & m & E & R' & O' & L' & D).
    exists n', k', (S n + m). split_and!; [done|congruence| |lia|].
    + rewrite O', O, <- app_assoc. f_equal. apply take_drop_next.
    + destruct D as [[-> D]|[-> D]]; [left; split; lia|right]. split; [done|]. destruct (decide (SendError ∈ send_script k)) as [|N]; [done|]. by apply Se in N.
  - destruct S as (O & L & _). destruct (suspend_scripts k1) as (S1 & S2 & S3).
    assert (Hf' : length (send_script (tcp_suspend k1)) + (if decide (min remaining (length f - offset) = 0) then 0 else 2) < fuel) by (rewrite S1; lia).
    destruct (IH offset remaining (tcp_suspend k1) Hc Hf') as (n' & k' & m & E & R' & O' & L' & D).
    exists n', k', m. split_and!; [done|congruence|by rewrite O', S2, O|lia|].
    destruct D as [D|[-> D]]; [by left|right]. split; [done|]. rewrite S1 in D. destruct (decide (SendError ∈ send_script k)) as [|N]; [done|]. by apply Se in N.
  - destruct S as (O & L & B). exists (- errno)%Z, k1, 0. split_and!; try done; [by rewrite app_nil_r|lia|]. right. split; [done|].
    destruct (decide (SendError ∈ send_script k)) as [|N]; [done|]. by specialize (B N).
Qed.

End SendFile.

(** ** TLS *)

(** [SSL_get_error] *)
Inductive ssl_error := SSL_ERROR_WANT_READ | SSL_ERROR_WANT_WRITE | SSL_ERROR_ZERO_RETURN | SSL_ERROR_SYSCALL | SSL_ERROR_SSL.

(** The calls of OpenSSL on a connection, with the executor: [SSL_accept] is done or
    fails, [SSL_read] fills part of the buffer or fails, [SSL_write] takes a prefix or
    fails.  [plain_in] are the bytes of the peer that were not read yet, [plain_out] those
    taken from the program. *)
Class OpenSSL (K : Type) := {
  SSL_accept : K -> option ssl_error * K;
  SSL_read : nat -> K -> (bytes + ssl_error) * K;
  SSL_write : bytes -> K -> (nat + ssl_error) * K;
  ssl_suspend : K -> K;
  ssl_timed_out : K -> bool;
  plain_in : K -> bytes;
  plain_out : K -> bytes;
  ssl_budget : K -> nat;
  SSL_accept_law k : let '(_, k') := SSL_accept k in plain_in k' = plain_in k /\ plain_out k' = plain_out k /\ ssl_budget k' <= ssl_budget k;
  SSL_read_law n k : 0 < n -> let '(r, k') := SSL_read n k in
    plain_out k' = plain_out k /\ ssl_timed_out k' = ssl_timed_out k /\
    match r with
    | inl d => d <> [] /\ length d <= n /\ plain_in k = d ++ plain_in k' /\ ssl_budget k' + length d <= ssl_budget k
    | inr _ => plain_in k' = plain_in k /\ ssl_budget k' <= ssl_budget k
    end;
  SSL_write_law d k : let '(r, k') := SSL_write d k in
    plain_in k' = plain_in k /\ ssl_timed_out k' = ssl_timed_out k /\ ssl_budget k' = ssl_budget k /\
    match r with
    | inl n => 0 < n <= length d /\ plain_out k' = plain_out k ++ take n d
    | inr _ => plain_out k' = plain_out k
    end;
  ssl_suspend_law k : plain_in (ssl_suspend k) = plain_in k /\ plain_out (ssl_suspend k) = plain_out k /\
    ssl_budget (ssl_suspend k) <= ssl_budget k /\ (ssl_timed_out (ssl_suspend k) = true \/ ssl_budget (ssl_suspend k) < ssl_budget k);
}.

Section Tls.
Context {K : Type} {O : OpenSSL K}.

Definition tls_handshake (k : K) : HandshakeResult * K :=
  let '(ret, k) := SSL_accept k in
  (match ret with
   | None => DONE
   | Some SSL_ERROR_WANT_READ => WANT_READ
   | Some SSL_ERROR_WANT_WRITE => WANT_WRITE
   | Some _ => HS_ERROR
   end, k).

Definition tls_receive (n : nat) (k : K) : ReceiveResult * K :=
  let '(r, k) := SSL_read n k in
  (match r with
   | inl d => {| status := DATA; data := d |}
   | inr (SSL_ERROR_WANT_READ | SSL_ERROR_WANT_WRITE) => {| status := WOULD_BLOCK; data := [] |}
   | inr (SSL_ERROR_ZERO_RETURN | SSL_ERROR_SYSCALL) => {| status := CLOSED; data := [] |}
   | inr SSL_ERROR_SSL => {| status := ERROR; data := [] |}
   end, k).

Definition tls_send (d : bytes) (k : K) : Z * K :=
  let '(r, k) := SSL_write d k in
  (match r with
   | inl n => Z.of_nat n
   | inr (SSL_ERROR_WANT_WRITE | SSL_ERROR_WANT_READ) => 0
   | inr _ => (-1)
   end%Z, k).

(** Files are not sent by the kernel: the answer is always -1. *)
Definition tls_sendFile (fd offset count : Z) (k : K) : Z * K := ((-1)%Z, k).
Definition tls_supportsSendFile : bool := false.

#[export, refine] Instance tls_net : Net K := {|
  receive := tls_receive;
  send := tls_send;
  suspend := ssl_suspend;
  tl_timed_out := ssl_timed_out;
  handshake := tls_handshake;
  incoming := plain_in;
  sent := plain_out;
  budget := ssl_budget;
|}.
Proof.
  - intros n k Hn. unfold tls_receive. pose proof (SSL_read_law n k Hn) as L. destruct (SSL_read n k) as [[d|[]] k'];
      cbn [status data]; tauto.
  - intros d k. unfold tls_send. pose proof (SSL_write_law d k) as L. destruct (SSL_write d k) as [[n|[]] k'];
      cbn -[Z.of_nat]; rewrite ?Nat2Z.id, ?app_nil_r; destruct L as (? & ? & ? & L); split_and!; try done; try lia; tauto.
  - exact ssl_suspend_law.
  - intros k. unfold tls_handshake. pose proof (SSL_accept_law k) as L. by destruct (SSL_accept k).
Defined.
End Tls.

(** ** Examples *)
Module StreamsWitnesses.

Definition letters : bytes := "abcdefgh".
Definition slow : Kernel := {| recv_script := []; send_script := [NoRoom; Room 2; NoRoom; Room 2]; timeouts := []; outbox := []; flag := false |}.

Example slow_sends : tcp_sendFile (fun _ => letters) 32 9 2 5 slow = Some (5%Z, {| recv_script := []; send_script := []; timeouts := []; outbox := "cdefg"; flag := true |}).
Proof. vm_compute. reflexivity. Qed.
(** The file is shorter than its recorded length. *)
Example short_file : (tcp_sendFile (fun _ => letters) 32 9 6 5 slow) = Some (2%Z, {| recv_script := []; send_script := [NoRoom; Room 2]; timeouts := []; outbox := "gh"; flag := true |}).
Proof. vm_compute. reflexivity. Qed.


(** A session whose records carry the bytes of the socket as they are. *)
#[export, refine] Instance plain_ssl : OpenSSL Peer := {|
  SSL_accept k := (None, k);
  SSL_read n k := let '(r, k) := peer_receive n k in
    (match status r with DATA => inl (data r) | CLOSED => inr SSL_ERROR_ZERO_RETURN | WOULD_BLOCK => inr SSL_ERROR_WANT_READ | ERROR => inr SSL_ERROR_SSL end, k);
  SSL_write d k := match d with [] => (inr SSL_ERROR_SSL, k) | _ => (inl (length d), (peer_send d k).2) end;
  ssl_suspend := peer_suspend;
  ssl_timed_out := late;
  plain_in := incoming;
  plain_out := out;
  ssl_budget := budget;
|}.
Proof.
  - done.
  - intros n k Hn. pose proof (receive_law n k Hn) as L. cbn [receive peer_net] in L. destruct (peer_receive n k) as [r k'].
    destruct L as (A & B & C). split; [exact A|]. split; [exact B|]. destruct (status r); tauto.
  - intros d k. destruct d as [|c d]; [done|]. pose proof (send_law (c :: d) k) as L. cbn [send peer_net] in L. unfold peer_send in *.
    split_and!; try apply L; cbn [length]; try lia. cbn [snd out take]. by rewrite firstn_all.
  - intros k. exact (suspend_law (Net := peer_net) k).
Defined.
End StreamsWitnesses.
