(* ===== verification/MmapCache.v ===== *)
(** The cache of file mappings ([core/MmapCache.hpp]) and the sending of a file from it
    ([TcpStream::sendFileMmap] in [net/TcpStream.cpp]). *)
From S2P Require Import Prelude Bytes Effects Net.

(** ** Mappings *)
Inductive pointer := Null | MAP_FAILED | At (address : nat).

Record CachedFileMmap := { mmappedData : pointer; size : nat; fd : Z }.
Definition CachedFileMmap_new : CachedFileMmap := {| mmappedData := Null; size := 0; fd := -1 |}.

(** The calls that give resources back. *)
Inductive os_call := Munmap (address size : nat) | Close (fd : Z).
Definition CachedFileMmap_destroy (f : CachedFileMmap) : list os_call :=
  match mmappedData f with At a => [Munmap a (size f)] | _ => [] end ++ (if (fd f =? -1)%Z then [] else [Close (fd f)]).

(** What [open] (a negative number when it fails), [fstat] (the size) and [mmap] answer. *)
Record answers := { opened : Z; stat_size : option nat; mapped : option nat }.

(** The cache, and the calls made so far. *)
Record MmapCache := { cache_ : gmap bytes CachedFileMmap; os_calls : list os_call }.
Definition MmapCache_new : MmapCache := {| cache_ := ∅; os_calls := [] |}.

Definition closes (c : os_call) (m : MmapCache) : MmapCache := {| cache_ := cache_ m; os_calls := os_calls m ++ [c] |}.

Definition get (path : bytes) (os : answers) (m : MmapCache) : option CachedFileMmap * MmapCache :=
  match cache_ m !! path with
  | Some cached => (Some cached, m)
  | None =>
      if (opened os <? 0)%Z then (None, m)
      else match stat_size os with
      | None => (None, closes (Close (opened os)) m)
      | Some st_size =>
          match mapped os with
          | None => (None, closes (Close (opened os)) m)
          | Some a =>
              let cached_file := {| mmappedData := At a; size := st_size; fd := opened os |} in
              (Some cached_file, {| cache_ := <[path := cached_file]> (cache_ m); os_calls := os_calls m |})
          end
      end
  end.

(** The end of the thread. *)
Definition entries (m : MmapCache) : list CachedFileMmap := (map_to_list (cache_ m)).*2.
Definition MmapCache_destroy (m : MmapCache) : list os_call := os_calls m ++ concat (map CachedFileMmap_destroy (entries m)).

(** *** Every descriptor is owned *)
Fixpoint gets (l : list (bytes * answers)) (m : MmapCache) : MmapCache :=
  match l with [] => m | (path, os) :: l => gets l (get path os m).2 end.

(** The descriptors and the mappings that the calls of a run have opened. *)
Definition misses (path : bytes) (m : MmapCache) : bool := match cache_ m !! path with Some _ => false | None => true end.
Fixpoint opened_by (l : list (bytes * answers)) (m : MmapCache) : list Z :=
  match l with
  | [] => []
  | (path, os) :: l => (if misses path m && (0 <=? opened os)%Z then [opened os] else []) ++ opened_by l (get path os m).2
  end.
Fixpoint mapped_by (l : list (bytes * answers)) (m : MmapCache) : list (nat * nat) :=
  match l with
  | [] => []
  | (path, os) :: l =>
      (if misses path m && (0 <=? opened os)%Z then match stat_size os, mapped os with Some n, Some a => [(a, n)] | _, _ => [] end else []) ++
      mapped_by l (get path os m).2
  end.

Definition closed (l : list os_call) : list Z := omap (fun c => match c with Close fd => Some fd | _ => None end) l.
Definition unmapped (l : list os_call) : list (nat * nat) := omap (fun c => match c with Munmap a n => Some (a, n) | _ => None end) l.
Definition region (f : CachedFileMmap) : list (nat * nat) := match mmappedData f with At a => [(a, size f)] | _ => [] end.

Definition held_fds (m : MmapCache) : list Z := closed (os_calls m) ++ map fd (entries m).
Definition held_regions (m : MmapCache) : list (nat * nat) := unmapped (os_calls m) ++ concat (map region (entries m)).
Definition live (m : MmapCache) : Prop := map_Forall (fun _ f => (0 <= fd f)%Z) (cache_ m).

Lemma entries_insert path f m calls : cache_ m !! path = None ->
  entries {| cache_ := <[path := f]> (cache_ m); os_calls := calls |} ≡ₚ f :: entries m.
Proof. intros E. unfold entries. cbn. by rewrite map_to_list_insert. Qed.

Lemma get_held path os m :
  held_fds (get path os m).2 ≡ₚ held_fds m ++ (if misses path m && (0 <=? opened os)%Z then [opened os] else []) /\
  held_regions (get path os m).2 ≡ₚ held_regions m ++
    (if misses path m && (0 <=? opened os)%Z then match stat_size os, mapped os with Some n, Some a => [(a, n)] | _, _ => [] end else []) /\
  (live m -> live (get path os m).2).
Proof.
  unfold get, misses. destruct (cache_ m !! path) as [f|] eqn:E; cbn [andb]; [by rewrite !app_nil_r|].
  rewrite Z.ltb_antisym. destruct (0 <=? opened os)%Z eqn:O; cbn [negb]; [|by rewrite !app_nil_r].
  assert (forall c, closes (Close c) m = {| cache_ := cache_ m; os_calls := os_calls m ++ [Close c] |}) as C by done.
  unfold held_fds, held_regions, closed, unmapped. destruct (stat_size os) as [n|]; [destruct (mapped os) as [a|]|]; cbn [snd].
  - rewrite (entries_insert path) by done. cbn [os_calls map concat region mmappedData size fd]. split; [|split].
    + by rewrite Permutation_cons_append, app_assoc.
    + change (concat (region ?f :: ?l)) with (region f ++ concat l). cbn [region mmappedData size]. by rewrite (Permutation_app_comm [_]), app_assoc.
    + intros L. apply map_Forall_insert_2; [cbn; by apply Z.leb_le|done].
  - rewrite C. cbn [os_calls]. rewrite !omap_app. cbn [omap list_omap]. rewrite !app_nil_r. split; [|done]. solve_Permutation.
  - rewrite C. cbn [os_calls]. rewrite !omap_app. cbn [omap list_omap]. rewrite !app_nil_r. split; [|done]. solve_Permutation.
Qed.

Lemma gets_held l m : held_fds (gets l m) ≡ₚ held_fds m ++ opened_by l m /\ held_regions (gets l m) ≡ₚ held_regions m ++ mapped_by l m /\
  (live m -> live (gets l m)).
Proof.
  revert m. induction l as [|[path os] l IH]; intros m; cbn [gets opened_by mapped_by]; [by rewrite !app_nil_r|].
  destruct (get_held path os m) as (H1 & H2 & H3). destruct (IH (get path os m).2) as (I1 & I2 & I3).
  rewrite I1, I2, H1, H2, <- !app_assoc. split; [done|]. split; [done|]. tauto.
Qed.

Lemma destroy_closes fs : Forall (fun f => 0 <= fd f)%Z fs ->
  closed (concat (map CachedFileMmap_destroy fs)) = map fd fs /\ unmapped (concat (map CachedFileMmap_destroy fs)) = concat (map region fs).
Proof.
  induction 1 as [|f fs Hf _ [IH1 IH2]]; [done|]. unfold closed, unmapped in *. cbn [map concat]. rewrite !omap_app, IH1, IH2.
  unfold CachedFileMmap_destroy, region. rewrite (proj2 (Z.eqb_neq (fd f) (-1))) by lia. by destruct (mmappedData f).
Qed.

(** Whatever the calls answer, a descriptor that was opened is closed exactly once by the
    end of the thread, and a region that was mapped is unmapped exactly once. *)
Lemma mappings_released l : let calls := MmapCache_destroy (gets l MmapCache_new) in
  closed calls ≡ₚ opened_by l MmapCache_new /\ unmapped calls ≡ₚ mapped_by l MmapCache_new.
Proof.
  cbv zeta. destruct (gets_held l MmapCache_new) as (H1 & H2 & H3). set (m := gets l MmapCache_new) in *.
  assert (Forall (fun f => 0 <= fd f)%Z (entries m)) as L.
  { unfold entries. apply Forall_fmap, Forall_forall. intros [p f] Hf%elem_of_map_to_list. exact (H3 (map_Forall_empty _) p f Hf). }
  destruct (destroy_closes _ L) as [D1 D2]. unfold MmapCache_destroy, closed, unmapped in *. rewrite !omap_app, D1, D2. split; [exact H1|exact H2].
Qed.

(** A mapping that was given out stays: the file is never looked at again. *)
Lemma get_stale path os m f m' l os' : get path os m = (Some f, m') -> (get path os' (gets l m')).1 = Some f /\ (get path os' (gets l m')).2 = gets l m'.
Proof.
  intros E. assert (cache_ m' !! path = Some f) as C.
  { unfold get in E. destruct (cache_ m !! path) as [g|] eqn:G; [by simplify_eq|].
    destruct (opened os <? 0)%Z; [done|]. destruct (stat_size os); [|done]. destruct (mapped os); [|done]. simplify_eq. cbn. by rewrite lookup_insert_eq. }
  clear E. revert m' C. induction l as [|[p o] l IH]; intros m' C; cbn [gets].
  - unfold get. by rewrite C.
  - apply IH. unfold get. destruct (cache_ m' !! p) eqn:G; [done|]. destruct (opened o <? 0)%Z; [done|]. destruct (stat_size o); [|done]. destruct (mapped o); [|done].
    cbn. rewrite lookup_insert_ne; [done|]. by intros ->; rewrite C in G.
Qed.

(** ** Sending from a mapping *)
Section SendFileMmap.
(** The bytes of a mapping now, and [errno] when none was made. *)
Context (view : CachedFileMmap -> bytes) (errno EINVAL : Z).

Fixpoint mmap_loop (fuel : nat) (buffer : bytes) (total_sent : nat) (k : Kernel) : option (Z * Kernel) :=
  match fuel with
  | 0 => None
  | S fuel =>
      match drop total_sent buffer with
      | [] => Some (Z.of_nat total_sent, k)
      | span =>
          let '(bytes_sent, k) := tcp_send span k in
          if (bytes_sent =? 0)%Z then mmap_loop fuel buffer total_sent (tcp_suspend k)
          else if (bytes_sent <? 0)%Z then Some (bytes_sent, k)
          else mmap_loop fuel buffer (total_sent + Z.to_nat bytes_sent) k
      end
  end.

Definition mmap_fuel (k : Kernel) : nat := length (send_script k) + 2.

(** The bounds are compared on 64 bits without sign; reading outside of the mapping has no
    defined result. *)
Definition sendFileMmap (filePath : bytes) (offset count : Z) (os : answers) (m : MmapCache) (k : Kernel) :
    option (outcome Z * (MmapCache * Kernel)) :=
  if (count =? 0)%Z then Some (Ret 0%Z, (m, k))
  else
    let '(mmapFile, m) := get filePath os m in
    match mmapFile with
    | None => Some (Ret (- errno)%Z, (m, k))
    | Some f =>
        if (Z.of_nat (size f) <? (offset + count) mod 2 ^ 64)%Z then Some (Ret (- EINVAL)%Z, (m, k))
        else if (0 <=? offset)%Z && (offset + count <=? Z.of_nat (length (view f)))%Z then
          '(n, k) ← mmap_loop (mmap_fuel k) (take (Z.to_nat count) (drop (Z.to_nat offset) (view f))) 0 k; Some (Ret n, (m, k))
        else Some (Undef, (m, k))
    end.

(** What a call of [send] leaves. *)
Lemma tcp_send_spec d k : d <> [] -> let '(n, k') := tcp_send d k in
  recv_script k' = recv_script k /\
  ((n = (-1)%Z /\ SendError ∈ send_script k /\ outbox k' = outbox k) \/
   exists j, n = Z.of_nat j /\ j <= length d /\ outbox k' = outbox k ++ take j d /\ (forall e, e ∈ send_script k' -> e ∈ send_script k) /\
     (length (send_script k') < length (send_script k) \/ send_script k' = [] /\ j = length d)).
Proof.
  intros Hd. unfold tcp_send. destruct (send_script k) as [|[n| |] rest]; cbn; (split; [done|]).
  - right. exists (length d). rewrite firstn_all. split_and!; try done. by right.
  - right. exists (length (take n d)). rewrite length_take. split_and!; try done; try lia; try set_solver.
    f_equal. destruct (Nat.le_gt_cases n (length d)); [by rewrite Nat.min_l|]. by rewrite Nat.min_r, !take_ge by lia.
  - right. exists 0. cbn. rewrite app_nil_r. split_and!; try done; try lia; try set_solver.
  - left. split_and!; try done. set_solver.
Qed.

Lemma mmap_loop_spec fuel buffer total k : total <= length buffer ->
  length (send_script k) + (if decide (total = length buffer) then 1 else 2) <= fuel ->
  exists n k' j, mmap_loop fuel buffer total k = Some (n, k') /\ recv_script k' = recv_script k /\ outbox k' = outbox k ++ take j (drop total buffer) /\
    total + j <= length buffer /\ (n = Z.of_nat (length buffer) /\ total + j = length buffer \/ n = (-1)%Z /\ SendError ∈ send_script k).
Proof.
  revert total k. induction fuel as [|fuel IH]; intros total k Ht Hf; [destruct (decide _); lia|]. cbn [mmap_loop].
  destruct (drop total buffer) as [|b span] eqn:D.
  { apply (f_equal length) in D. rewrite length_drop in D. cbn in D. exists (Z.of_nat total), k, 0. cbn. rewrite app_nil_r. split_and!; try done; try lia. }
  assert (total < length buffer) as Hlt by (apply (f_equal length) in D; rewrite length_drop in D; cbn in D; lia).
  rewrite decide_False in Hf by lia. pose proof (tcp_send_spec (b :: span) k ltac:(done)) as S. destruct (tcp_send (b :: span) k) as [n k1].
  destruct S as (R & [(-> & E & O)|(j & -> & Lj & O & Es & M)]).
  { cbn. exists (-1)%Z, k1, 0. cbn. rewrite app_nil_r. split_and!; try done; try lia. by right. }
  assert (length (b :: span) = length buffer - total) as Ls by (rewrite <- D; apply length_drop).
  destruct (Z.eqb_spec (Z.of_nat j) 0) as [Ej|Nj].
  - assert (j = 0) as -> by lia. destruct M as [M|[_ M]]; [|rewrite Ls in M; lia].
    assert (send_script (tcp_suspend k1) = send_script k1 /\ outbox (tcp_suspend k1) = outbox k1 /\ recv_script (tcp_suspend k1) = recv_script k1) as (U1 & U2 & U3)
      by (unfold tcp_suspend; by destruct (timeouts k1)).
    destruct (IH total (tcp_suspend k1) Ht) as (n & k' & i & E & R' & O' & Li & C).
    { rewrite U1, decide_False by lia. lia. }
    exists n, k', i. rewrite E, R', O', U2, U3, O, D. cbn [take]. rewrite app_nil_r. split_and!; try done. rewrite U1 in C. destruct C as [C|[C1 C2]]; [by left|right; auto].
  - rewrite (proj2 (Z.ltb_ge (Z.of_nat j) 0)) by lia. rewrite Nat2Z.id. destruct (IH (total + j) k1) as (n & k' & i & E & R' & O' & Li & C); [lia| |].
    { destruct M as [M|[M1 M2]]; [destruct (decide _); lia|]. rewrite M1, decide_True by lia. cbn [length]. lia. }
    exists n, k', (j + i). rewrite E, R', O', O, <- app_assoc. rewrite <- D. rewrite <- (drop_drop buffer). rewrite take_take_drop.
    split_and!; try done; try lia. destruct C as [[-> C]|[-> C]]; [left; split; [done|lia]|right; auto].
Qed.

(** Within the bounds a mapped file is sent exactly: the call ends, with nothing sent and
    an error if there is no mapping or the part is not in it, and else with the whole part
    and its length, or after an error of the socket with a prefix and -1. *)
Lemma sendFileMmap_exact path offset count os m k : (0 <= offset)%Z -> (0 < count)%Z -> (offset + count < 2 ^ 64)%Z ->
  (forall f, length (view f) = size f) ->
  let '(found, m') := get path os m in
  exists n k' j, sendFileMmap path offset count os m k = Some (Ret n, (m', k')) /\ recv_script k' = recv_script k /\
    match found with
    | None => n = (- errno)%Z /\ k' = k
    | Some f =>
        if (Z.of_nat (size f) <? offset + count)%Z then n = (- EINVAL)%Z /\ k' = k
        else outbox k' = outbox k ++ take j (drop (Z.to_nat offset) (view f)) /\ j <= Z.to_nat count /\
          (n = count /\ j = Z.to_nat count \/ n = (-1)%Z /\ SendError ∈ send_script k)
    end.
Proof.
  intros Ho Hc Hs Hv. destruct (get path os m) as [found m'] eqn:G. unfold sendFileMmap. rewrite (proj2 (Z.eqb_neq count 0)) by lia. rewrite G.
  destruct found as [f|]; [|by eexists _, k, 0]. rewrite Z.mod_small by lia.
  destruct (Z.ltb_spec (Z.of_nat (size f)) (offset + count)) as [Lt|Ge]; [by eexists _, k, 0|].
  rewrite (proj2 (Z.leb_le 0 offset)), (proj2 (Z.leb_le (offset + count) (Z.of_nat (length (view f))))) by (rewrite ?Hv; lia). cbn [andb].
  set (part := take (Z.to_nat count) (drop (Z.to_nat offset) (view f))).
  assert (length part = Z.to_nat count) as Lp by (unfold part; rewrite length_take, length_drop, Hv; lia).
  destruct (mmap_loop_spec (mmap_fuel k) part 0 k) as (n & k' & j & E & R & O & L & C); [lia|unfold mmap_fuel; destruct (decide _); lia|].
  exists n, k', j. rewrite E. split; [done|]. split; [done|]. rewrite O, drop_0. split; [|split; [lia|]].
  - f_equal. unfold part. rewrite take_take. f_equal. lia.
  - destruct C as [[-> C]|C]; [left; rewrite Lp; lia|by right].
Qed.
End SendFileMmap.

(** The sum of the bounds wraps around: a large count passes the test. *)
Lemma sendFileMmap_wraps view errno EINVAL path f m k os : cache_ m !! path = Some f -> length (view f) = size f -> 4 <= size f -> (Z.of_nat (size f) < 2 ^ 63)%Z ->
  sendFileMmap view errno EINVAL path 8 (2 ^ 64 - 4) os m k = Some (Undef, (m, k)).
Proof.
  intros E V Hs Hb. unfold sendFileMmap. change (2 ^ 64 - 4 =? 0)%Z with false. unfold get. rewrite E.
  change ((8 + (2 ^ 64 - 4)) mod 2 ^ 64)%Z with 4%Z. rewrite (proj2 (Z.ltb_ge (Z.of_nat (size f)) 4)) by lia.
  rewrite V. rewrite (proj2 (Z.leb_gt (8 + (2 ^ 64 - 4)) (Z.of_nat (size f)))) by lia. done.
Qed.
