(* ===== verification/Json.v ===== *)
(** JSON documents: the library nlohmann/json as an interface with laws, and what the
    program builds with it ([toJsonObject] of [utils.hpp], [toJson], [toString] and
    [getColumnObject] of [orm/ActiveRecord.hpp]). *)
From Stdlib Require Import Floats.SpecFloat.
From S2P Require Import Prelude Bytes DbValue Model.
From S2P Require Router.

#[local] Arguments list_ascii_of_string : simpl never.

(** ** The library *)

(** [nlohmann::json]: constructors from C++ values, [j\[key\] = v], [j.find(key)],
    reading [j\[key\]], conversion to a string, [dump] (which throws on texts that are not UTF-8) and [parse]. *)
Class NlohmannJson := {
  json : Type;
  json_null : json;
  json_object : json;
  json_bool : bool -> json;
  json_int : Z -> json;
  json_double : spec_float -> json;
  json_string : bytes -> json;
  json_array : list json -> json;
  json_pairs : list (bytes * json) -> json;
  set_key : bytes -> json -> json -> outcome json;
  find_key : bytes -> json -> option json;
  index_key : bytes -> json -> outcome json;
  get_string : json -> outcome bytes;
  dump : Z -> json -> outcome bytes;
  parse : bytes -> outcome json;
}.

(** Documented behaviour of [operator\[\]] and [find]: a null becomes an object when
    a key is assigned; keys are unique; a braced list of pairs is an object. *)
Class JsonLaws `{NlohmannJson} := {
  is_object : json -> bool;
  null_no_object : is_object json_null = false;
  object_is_object : is_object json_object = true;
  set_key_ok k v j : j = json_null \/ is_object j = true ->
    exists j', set_key k v j = Ret j' /\ is_object j' = true /\
      forall k', find_key k' j' = if bool_decide (k' = k) then Some v else find_key k' j;
  find_null k : find_key k json_null = None;
  find_object k : find_key k json_object = None;
  find_pairs k l : NoDup (map fst l) -> find_key k (json_pairs l) = assoc_first k l;
}.

Section Build.
Context {J : NlohmannJson}.

(** [for (const auto &\[k, v\] : pairs) j\[k\] = v;] *)
Fixpoint put_pairs (pairs : list (bytes * json)) (j : json) : outcome json :=
  match pairs with
  | [] => Ret j
  | (k, v) :: pairs => j ← set_key k v j; put_pairs pairs j
  end.

Definition toJsonObject (pairs : fields) : outcome json :=
  put_pairs (map (fun p => (p.1, json_string p.2)) pairs) json_object.

(** ** Records *)

(** The conversion of a member; a number that was never set is indeterminate. *)
Definition json_of_field (t : FieldType) (v : Field) : outcome json :=
  match t, v with
  | TInt _ _, FInt n => Ret (json_int n)
  | TFloat, FFloat f => Ret (json_double (to_double f))
  | TDouble, FDouble d => Ret (json_double d)
  | TText, FText s => Ret (json_string s)
  | TText, FNone => Ret (json_string [])
  | TBool, FBool b => Ret (json_bool b)
  | TBlob, FBlob b => Ret (json_array (map (fun c => json_int (code c)) b))
  | TBlob, FNone => Ret (json_array [])
  | _, _ => Undef
  end.

Definition addToJ (self : Object) (col : Column) (j : json) : outcome json :=
  match optional (fieldType col), member self (fieldPtr col) with
  | true, FNone => Ret j
  | _, v => v ← json_of_field (raw (fieldType col)) v; set_key (dbName col) v j
  end.

Fixpoint add_columns (self : Object) (cols : list Column) (j : json) : outcome json :=
  match cols with
  | [] => Ret j
  | col :: cols => j ← addToJ self col j; add_columns self cols j
  end.

Definition toJson (m : Model) (self : Object) : outcome json := add_columns self (model_columns m) json_null.
Definition toString (m : Model) (self : Object) (indent : Z) : outcome bytes := j ← toJson m self; dump indent j.
End Build.

(** The loop keeps the last column that was registered for the member. *)
Fixpoint column_object (p : nat) (cols : list Column) (result : option Column) : option Column :=
  match cols with
  | [] => result
  | c :: cols => column_object p cols (if bool_decide (fieldPtr c = p) then Some c else result)
  end.

Definition getColumnObject (m : Model) (p : nat) : outcome Column :=
  match column_object p (model_columns m) None with
  | Some c => Ret c
  | None => Throw (OrmException "Field does not belong to Model")
  end.

(** ** Properties *)
Section Laws.
Context {J : NlohmannJson} {JL : JsonLaws}.

Lemma put_pairs_ok pairs j : j = json_null \/ is_object j = true ->
  exists j', put_pairs pairs j = Ret j' /\ (is_object j = true -> is_object j' = true) /\
    forall k, find_key k j' = match assoc_last k pairs with Some v => Some v | None => find_key k j end.
Proof.
  revert j. induction pairs as [|[k v] pairs IH]; intros j Hj; [by exists j|].
  destruct (set_key_ok k v j Hj) as (j1 & E1 & O1 & F1). cbn [put_pairs]. rewrite E1. cbn [mbind outcome_bind].
  destruct (IH j1 (or_intror O1)) as (j' & E & O & F). exists j'. split; [exact E|]. split; [intros _; by apply O|].
  intros k'. rewrite F, F1. unfold assoc_last. cbn [rev]. rewrite assoc_first_app. destruct (assoc_first k' (rev pairs)); [done|].
  cbn. destruct (beqb_spec k k') as [->|N]; [by rewrite bool_decide_true|]. by rewrite bool_decide_false by congruence.
Qed.

(** A list of pairs as an object: of a key that occurs several times the last value stays. *)
Lemma toJsonObject_ok pairs : exists j, toJsonObject pairs = Ret j /\ is_object j = true /\
  forall k, find_key k j = json_string <$> assoc_last k pairs.
Proof.
  destruct (put_pairs_ok (map (fun p => (p.1, json_string p.2)) pairs) json_object (or_intror object_is_object)) as (j & E & O & F).
  exists j. split; [exact E|]. split; [apply O, object_is_object|]. intros k. rewrite F, find_object. unfold assoc_last.
  rewrite <- map_rev. induction (rev pairs) as [|[k' v] l IH]; [done|]. cbn. by destruct (k' =?b k).
Qed.

(** What the document has for a column. *)
Definition column_json (o : Object) (c : Column) : option json :=
  match optional (fieldType c), member o (fieldPtr c) with
  | true, FNone => None
  | _, v => match json_of_field (raw (fieldType c)) v with Ret j => Some j | _ => None end
  end.

Lemma has_type_json c o : has_type (fieldType c) (member o (fieldPtr c)) ->
  forall j, j = json_null \/ is_object j = true ->
  exists j', addToJ o c j = Ret j' /\ (j' = j \/ is_object j' = true) /\ (column_json o c <> None -> is_object j' = true) /\
    (column_json o c = None -> j' = j) /\
    forall k, find_key k j' = if bool_decide (k = dbName c) then match column_json o c with Some v => Some v | None => find_key k j end else find_key k j.
Proof.
  intros T j Hj. unfold addToJ, column_json.
  assert (C : (optional (fieldType c) = true /\ member o (fieldPtr c) = FNone) \/
    exists v, json_of_field (raw (fieldType c)) (member o (fieldPtr c)) = Ret v /\
      (optional (fieldType c) = false \/ member o (fieldPtr c) <> FNone)).
  { revert T. unfold has_type. destruct (raw (fieldType c)), (member o (fieldPtr c)); cbn; try done;
      intros T; first [by left|right; eexists; (split; [reflexivity|]); by right]. }
  destruct C as [[O M]|(v & E & N)].
  - rewrite O, M. exists j. split_and!; try done; [by left|]. intros k. by destruct (bool_decide _).
  - destruct (set_key_ok (dbName c) v j Hj) as (j1 & E1 & O1 & F1). exists j1.
    assert (X : match optional (fieldType c), member o (fieldPtr c) with
      | true, FNone => Ret j | _, w => x ← json_of_field (raw (fieldType c)) w; set_key (dbName c) x j end = Ret j1).
    { destruct (optional (fieldType c)); [destruct (member o (fieldPtr c)); try (by destruct N)|]; rewrite E; exact E1. }
    assert (Y : match optional (fieldType c), member o (fieldPtr c) with
      | true, FNone => None | _, w => match json_of_field (raw (fieldType c)) w with Ret x => Some x | _ => None end end = Some v).
    { destruct (optional (fieldType c)); [destruct (member o (fieldPtr c)); try (by destruct N)|]; by rewrite E. }
    rewrite X, Y. split_and!; try done. by right.
Qed.

Lemma add_columns_ok o cols j : NoDup (map dbName cols) -> Forall (fun c => has_type (fieldType c) (member o (fieldPtr c))) cols ->
  j = json_null \/ is_object j = true ->
  exists j', add_columns o cols j = Ret j' /\ (Forall (fun c => column_json o c = None) cols -> j' = j) /\
    (Exists (fun c => column_json o c <> None) cols \/ is_object j = true -> is_object j' = true) /\
    (forall c, c ∈ cols -> column_json o c <> None -> find_key (dbName c) j' = column_json o c) /\
    (forall k, (forall c, c ∈ cols -> dbName c = k -> column_json o c = None) -> find_key k j' = find_key k j).
Proof.
  intros Nd T. revert j. induction cols as [|c cols IH]; intros j Hj.
  - exists j. split_and!; [done|done|by intros [H%Exists_nil|]|intros c H; by apply elem_of_nil in H|done].
  - cbn in Nd. apply NoDup_cons in Nd as [Hc Nd]. apply Forall_cons in T as [Tc T].
    destruct (has_type_json c o Tc j Hj) as (j1 & E1 & O1 & S1 & N1 & F1).
    assert (Hj1 : j1 = json_null \/ is_object j1 = true) by (destruct O1 as [->|]; auto).
    destruct (IH Nd T j1 Hj1) as (j' & E & Nn & Ob & In & Out). exists j'. cbn [add_columns]. rewrite E1. cbn [mbind outcome_bind].
    split_and!; [exact E| | | |].
    + intros [H1 H2]%Forall_cons. rewrite Nn by done. by apply N1.
    + intros [H|H]; apply Ob.
      * apply Exists_cons in H as [H|H]; [right; by apply S1|by left].
      * right. destruct O1 as [->|]; done.
    + intros d Hd Hn. apply elem_of_cons in Hd as [->|Hd]; [|by apply In].
      rewrite Out, F1, bool_decide_true by (try done; intros d Hd Ed; destruct Hc; rewrite <- Ed; by apply list_elem_of_fmap_2).
      by destruct (column_json o c).
    + intros k H. rewrite Out by (intros d Hd; apply H; by right). rewrite F1. case_bool_decide as D; [|done].
      rewrite H; [done|left|done].
Qed.

(** Columns with one name are one column. *)
Lemma column_same (cols : list Column) c d : NoDup (map dbName cols) -> d ∈ cols -> c ∈ cols -> dbName d = dbName c -> d = c.
Proof.
  intros Nd [i Hi]%list_elem_of_lookup [k Hk]%list_elem_of_lookup E.
  assert (i = k) as ->; [|congruence].
  eapply (NoDup_lookup (map dbName cols)); [done| |]; rewrite list_lookup_fmap, ?Hi, ?Hk; [reflexivity|cbn; by rewrite E].
Qed.

Lemma column_none o c : has_type (fieldType c) (member o (fieldPtr c)) ->
  optional (fieldType c) = true /\ member o (fieldPtr c) = FNone <-> column_json o c = None.
Proof.
  unfold has_type, column_json. destruct (optional (fieldType c)), (raw (fieldType c)), (member o (fieldPtr c)); cbn; try done;
    intros _; split; try done; by intros [].
Qed.

(** The document of an object has exactly its columns: under the name of each column
    the value of its member, but for empty optional members, which have no key; no
    other key.  An object all of whose members are empty optional ones becomes null
    instead of an empty object. *)
Theorem toJson_columns m o : model_ok m -> object_of m o ->
  exists j, toJson m o = Ret j /\
    (forall c, c ∈ model_columns m -> find_key (dbName c) j = column_json o c) /\
    (forall k, k ∉ map dbName (model_columns m) -> find_key k j = None) /\
    (j = json_null <-> Forall (fun c => optional (fieldType c) = true /\ member o (fieldPtr c) = FNone) (model_columns m)).
Proof.
  intros [Nd _] Ho.
  assert (T : Forall (fun c => has_type (fieldType c) (member o (fieldPtr c))) (model_columns m)).
  { eapply Forall_impl; [apply (oo_types _ _ Ho)|]. by intros c (_ & H & _). }
  destruct (add_columns_ok o (model_columns m) json_null Nd T (or_introl eq_refl)) as (j & E & Nn & Ob & In & Out).
  exists j. split; [exact E|]. split; [|split].
  - intros c Hc. destruct (column_json o c) as [v|] eqn:Ec; [rewrite In, Ec by congruence; done|].
    rewrite Out, find_null; [done|]. intros d Hd Ed. by rewrite (column_same _ _ _ Nd Hd Hc Ed).
  - intros k Hk. rewrite Out, find_null; [done|]. intros d Hd <-. destruct Hk. by apply list_elem_of_fmap_2.
  - transitivity (Forall (fun c => column_json o c = None) (model_columns m)).
    2: { rewrite !Forall_forall. rewrite Forall_forall in T. split; intros H c Hc; apply (column_none o c (T c Hc)), (H c Hc). }
    split; [|exact Nn]. intros ->. apply Forall_forall. intros c Hc. destruct (column_json o c) eqn:Ec; [|done].
    enough (is_object json_null = true) by (rewrite null_no_object in *; done).
    apply Ob. left. apply Exists_exists. exists c. by rewrite Ec.
Qed.
End Laws.

(** ** A library for examples *)
Module JsonWitnesses.
Import ModelWitnesses.

Inductive doc :=
| DNull
| DBool (b : bool)
| DInt (n : Z)
| DDouble (d : spec_float)
| DString (s : bytes)
| DArray (l : list doc)
| DObject (l : list (bytes * doc)).

Definition doc_set (k : bytes) (v j : doc) : outcome doc :=
  match j with
  | DNull => Ret (DObject [(k, v)])
  | DObject l => Ret (DObject (Router.put_assoc k v l))
  | _ => Throw (RuntimeError "type_error")
  end.
Definition doc_find (k : bytes) (j : doc) : option doc := match j with DObject l => assoc_first k l | _ => None end.

Definition quoted (s : bytes) : bytes := DQUOTE :: s ++ [DQUOTE].

(** Printing without escapes; numbers with a fraction are not printed. *)
Fixpoint doc_print (j : doc) : bytes :=
  match j with
  | DNull => "null"
  | DBool b => if b then "true" else "false"
  | DInt n => to_string n
  | DDouble _ => "0.0"
  | DString s => quoted s
  | DArray l => "[" ++ concat (map (fun j => doc_print j ++ ",") l) ++ "]"
  | DObject l => "{" ++ concat (map (fun p => quoted p.1 ++ ":" ++ doc_print p.2 ++ ",") l) ++ "}"
  end.

#[export] Instance doc_json : NlohmannJson := {|
  json := doc; json_null := DNull; json_object := DObject []; json_bool := DBool; json_int := DInt; json_double := DDouble;
  json_string := DString; json_array := DArray; json_pairs := DObject; set_key := doc_set; find_key := doc_find;
  index_key k j := match j with DObject l => Ret (default DNull (assoc_first k l)) | DNull => Ret DNull | _ => Throw (RuntimeError "type_error") end;
  get_string j := match j with DString s => Ret s | _ => Throw (RuntimeError "type_error") end;
  dump _ j := Ret (doc_print j); parse _ := Throw (RuntimeError "parse_error") |}.

#[export] Instance doc_laws : JsonLaws.
Proof.
  refine {| is_object j := match j : @json doc_json with DObject _ => true | _ => false end |}; try done.
  intros k v [| | | | | |l] [H|H]; try done; eexists; (split; [reflexivity|]); split; try done; intros k'; cbn.
  - destruct (beqb_spec k k') as [->|N]; [by rewrite bool_decide_true|by rewrite bool_decide_false by congruence].
  - rewrite Router.assoc_put. destruct (beqb_spec k k') as [->|N]; [by rewrite bool_decide_true|by rewrite bool_decide_false by congruence].
Defined.

(** Ann has no nickname. *)
Lemma toJson_columns_witness :
  exists j, toJson users ann = Ret j /\ find_key "name" j = Some (DString "Ann") /\ find_key "age" j = Some (DInt 41) /\
    find_key "nick" j = None /\ j <> json_null.
Proof.
  destruct (toJson_columns users ann users_ok ann_ok) as (j & E & F & _ & N). exists j. split; [exact E|].
  split; [apply (F (column 1 text "name" false GENERATE_OFF UPDATE_OFF)); right; left|].
  split; [apply (F (column 3 uint8 "age" false GENERATE_OFF LOCKED)); right; right; right; left|].
  split; [apply (F (column 2 opt_text "nick" false GENERATE_OFF UPDATE_OFF)); right; right; left|].
  intros H%N. by apply Forall_cons in H as [[H _] _].
Defined.

(** An object with nothing but an empty optional member. *)
Example nothing_is_null :
  toString {| tableName := "t"; model_columns := [column 0 opt_text "nick" false GENERATE_OFF UPDATE_OFF] |}
    {| members := {[0 := FNone]}; persisted_ := true |} (-1) = Ret ("null" : bytes).
Proof. reflexivity. Qed.
End JsonWitnesses.
