(* ===== verification/Relations.v ===== *)
(** The relations a model declares ([orm/Relations.hpp]: [manyToOne], [oneToOne] and
    their options; [orm/ActiveRecord.hpp]: which declaration [related] and [ref] use).
    A static assertion that fails is [None]. *)
From S2P Require Import Prelude Bytes DbValue Model Predicate SelectQuery ActiveRecord ManyToMany.

#[local] Arguments list_ascii_of_string : simpl never.

Inductive RelationType := ONE_TO_ONE | MANY_TO_ONE | MANY_TO_MANY.

#[export] Instance FieldType_eq_dec : EqDecision FieldType.
Proof. solve_decision. Defined.
#[export] Instance CppType_eq_dec : EqDecision CppType.
Proof. solve_decision. Defined.

(** A foreign key with the options of the schema, which no query reads. *)
Record FkDeclaration := {
  fk_relation : FkRelation;
  relationType : RelationType;
  onDeletePolicy : OnDelete;
  index : bool;
  constraintName : bytes;
}.

(** [std::tuple<remove_optional_t<FieldTypes>...>] *)
Definition rawFkTypesTuple (ptrs : list (nat * CppType)) : list CppType :=
  map (fun p => {| raw := raw p.2; optional := false |}) ptrs.
Definition PkTypesTuple (m : Model) : list CppType := map fieldType (pkColumns m).

(** The key types compared are those of the model that declares the relation. *)
Definition declare (type : RelationType) (definer : Model) (target : nat) (ptrs : list (nat * CppType)) : option FkDeclaration :=
  if bool_decide (PkTypesTuple definer = rawFkTypesTuple ptrs) then
    Some {| fk_relation := {| fkFieldPtrs := ptrs; relatedName := []; fk_target := target |}; relationType := type;
            onDeletePolicy := NO_ACTION; index := true; constraintName := [] |}
  else None.
Definition manyToOne := declare MANY_TO_ONE.
Definition oneToOne := declare ONE_TO_ONE.

Definition withRelatedName (name : bytes) (d : FkDeclaration) : FkDeclaration :=
  {| fk_relation := {| fkFieldPtrs := fkFieldPtrs (fk_relation d); relatedName := name; fk_target := fk_target (fk_relation d) |};
     relationType := relationType d; onDeletePolicy := onDeletePolicy d; index := index d; constraintName := constraintName d |}.
Definition noIndex (d : FkDeclaration) : FkDeclaration :=
  {| fk_relation := fk_relation d; relationType := relationType d; onDeletePolicy := onDeletePolicy d; index := false;
     constraintName := constraintName d |}.
Definition withConstraintName (name : bytes) (d : FkDeclaration) : FkDeclaration :=
  {| fk_relation := fk_relation d; relationType := relationType d; onDeletePolicy := onDeletePolicy d; index := index d;
     constraintName := name |}.

(** SET_NULL asks for optional members. *)
Definition onDelete (od : OnDelete) (d : FkDeclaration) : option FkDeclaration :=
  let allowed := match od with SET_NULL => forallb (fun p => optional p.2) (fkFieldPtrs (fk_relation d)) | _ => true end in
  if allowed then
    Some {| fk_relation := fk_relation d; relationType := relationType d; onDeletePolicy := od; index := index d;
            constraintName := constraintName d |}
  else None.

(** [getFieldPtrPairs]: each member has the type of the key it refers to. *)
Definition pairs_typed (target : Model) (r : FkRelation) : bool :=
  (length (pkColumns target) <=? length (fkFieldPtrs r)) &&
  forallb (fun '(fk, pk) => bool_decide ({| raw := raw (fk : nat * CppType).2; optional := false |} = fieldType (pk : Column)))
    (getFieldPtrPairs target r).

(** [relations()]: a tuple of both kinds. *)
Inductive Relation := ForeignKey (d : FkDeclaration) | ManyToMany (r : ManyToManyRelation).

Definition getRelationIfFk (r : Relation) : list FkRelation :=
  match r with ForeignKey d => [fk_relation d] | ManyToMany _ => [] end.
Definition fkRelations (rels : list Relation) : list FkRelation := concat (map getRelationIfFk rels).
Definition getRelationIfManyToMany (r : Relation) : list ManyToManyRelation :=
  match r with ManyToMany r => [r] | ForeignKey _ => [] end.
Definition manyToManyRelations (rels : list Relation) : list ManyToManyRelation := concat (map getRelationIfManyToMany rels).

Definition getRelationByForeignKeyFieldPtrs (fields : list (nat * CppType)) (rels : list FkRelation) : list FkRelation :=
  List.filter (fun r => bool_decide (fkFieldPtrs r = fields)) rels.

(** The relation must be the only one. *)
Definition the_only {A} (l : list A) : option A := match l with [a] => Some a | _ => None end.

(** [related<Definer, RelatedName>()] on a model. *)
Definition related_relation (name : bytes) (model : nat) (definer_rels : list Relation) : option FkRelation :=
  the_only (if name =?b [] then getFkRelationByTargetModel model (fkRelations definer_rels)
            else getFkRelationByName name (fkRelations definer_rels)).

(** [ref<Target, fields...>()] *)
Definition ref_relation (target : nat) (fields : list (nat * CppType)) (rels : list Relation) : option FkRelation :=
  the_only (match fields with
            | [] => getFkRelationByTargetModel target (fkRelations rels)
            | _ => getRelationByForeignKeyFieldPtrs fields (fkRelations rels)
            end).

Lemma the_only_in {A} (l : list A) a : the_only l = Some a -> l = [a].
Proof. destruct l as [|b [|]]; cbn; congruence. Qed.

(** What is found was declared, and under no other member of the lookup. *)
Lemma related_found name model rels r : related_relation name model rels = Some r ->
  r ∈ fkRelations rels /\ (if name =?b [] then fk_target r = model else relatedName r = name) /\
  forall r', r' ∈ fkRelations rels -> (if name =?b [] then fk_target r' = model else relatedName r' = name) -> r' = r.
Proof.
  unfold related_relation. intros H%the_only_in.
  assert (K : forall x, x ∈ [r] <-> x ∈ fkRelations rels /\ (if name =?b [] then fk_target x = model else relatedName x = name)).
  { intros x. rewrite <- H. destruct (name =?b []); unfold getFkRelationByTargetModel, getFkRelationByName;
      rewrite !list_elem_of_In, filter_In, <- list_elem_of_In; [by rewrite Nat.eqb_eq|by rewrite beqb_eq]. }
  destruct (proj1 (K r) ltac:(left)) as [H1 H2]. split; [done|]. split; [done|]. intros r' H3 H4.
  apply list_elem_of_singleton, K. done.
Qed.

(** [FieldT Model::*]: a member of the model, with its type, that has a column. *)
Definition is_member (m : Model) (p : nat * CppType) : bool :=
  existsb (fun c => bool_decide (fieldPtr c = p.1) && bool_decide (fieldType c = p.2)) (model_columns m).

Lemma is_member_ok m p : is_member m p = true -> exists c, c ∈ model_columns m /\ fieldPtr c = p.1 /\ fieldType c = p.2.
Proof.
  intros (c & Hc & H)%existsb_exists. apply andb_true_iff in H as [H1%bool_decide_eq_true H2%bool_decide_eq_true].
  exists c. by rewrite list_elem_of_In.
Qed.

(** The assertion of [getFieldPtrPairs] gives what [ref] and [related] need. *)
Lemma pairs_typed_ok definer target r : length (fkFieldPtrs r) = length (pkColumns target) ->
  forallb (is_member definer) (fkFieldPtrs r) = true -> pairs_typed target r = true -> fk_ok definer target r.
Proof.
  intros L M [_ H]%andb_true_iff. split; [done|]. apply Forall_forall. intros [fk pk] Hx.
  rewrite forallb_forall in H, M. specialize (H _ (proj1 (list_elem_of_In _ _) Hx)). cbn beta iota in H.
  apply bool_decide_eq_true in H. split; [|done]. apply is_member_ok, M, list_elem_of_In.
  unfold getFieldPtrPairs in Hx. by apply elem_of_zip_l in Hx.
Qed.

(** The same for the fields of a many-to-many relation. *)
Definition fields_declared (mt : Model) (fields : list ThroughField) : bool :=
  forallb (fun f => is_member mt (throughPtr f, throughType f)) fields &&
  forallb (fun f => bool_decide (modelType f = {| raw := raw (throughType f); optional := false |})) fields &&
  bool_decide (NoDup (map throughPtr fields)).

Lemma fields_declared_ok mt l : fields_declared mt (throughFields (relation l)) = true -> relation_ok mt l.
Proof.
  intros [[H1 H2]%andb_true_iff H3%bool_decide_eq_true]%andb_true_iff. rewrite forallb_forall in H1, H2. split; [| |done].
  - apply Forall_forall. intros f Hf%list_elem_of_In. by apply (is_member_ok mt (throughPtr f, throughType f)), H1.
  - apply Forall_forall. intros f Hf%list_elem_of_In. by apply (bool_decide_eq_true _), H2.
Qed.

Lemma side_declared_ok m l side :
  forallb (fun f => is_member m (modelPtr f, modelType f)) (getThroughFields side (relation l)) = true -> side_ok m l side.
Proof.
  rewrite forallb_forall. intros H. apply Forall_forall. intros f Hf%list_elem_of_In.
  by apply (is_member_ok m (modelPtr f, modelType f)), H.
Qed.
