(* ===== verification/DemoModels.v ===== *)
(** The models of the demo application ([app/include/models]: [User], [Post], [Follow],
    [PostLike]) as data of the ORM: their tables, the relations between them, and what
    their likes, follows and friendships store and find. *)
From S2P Require Import Prelude Bytes DbValue Model Predicate SelectQuery WriteQueries ActiveRecord ManyToMany Relations.

#[local] Arguments list_ascii_of_string : simpl never.

Definition int64 : CppType := {| raw := TInt true 64; optional := false |}.
Definition opt_int64 : CppType := {| raw := TInt true 64; optional := true |}.
Definition text : CppType := {| raw := TText; optional := false |}.
Definition opt_text : CppType := {| raw := TText; optional := true |}.

(** The declaration order of the models. *)
Definition USER := 0.
Definition POST := 1.
Definition FOLLOW := 2.
Definition POST_LIKE := 3.

(** [Column{&M::field, "name"}], and with the modes that the models use. *)
Definition plain_column (p : nat) (t : CppType) (name : bytes) : Column := default_column p t name false GENERATE_OFF.
Definition id_column : Column := default_column 0 int64 "id" true DB_INCREMENT.
Definition created_column (p : nat) (name : bytes) : Column :=
  {| fieldPtr := p; fieldType := int64; dbName := name; isPrimaryKey := false; isIndexed := false; isUnique := false;
     autoGenerateMode := GENERATE_DB_NOW; defaultValue := VNull; customGenerator := None; autoUpdateMode := LOCKED; customUpdator := None |}.

Section Models.
(** The clock, in milliseconds. *)
Context (now : Z).

Definition getNowTime (_ : Object) : DbValue := VInt now.

Definition updated_column (p : nat) (name : bytes) : Column :=
  {| fieldPtr := p; fieldType := int64; dbName := name; isPrimaryKey := false; isIndexed := false; isUnique := false;
     autoGenerateMode := GENERATE_DB_NOW; defaultValue := VNull; customGenerator := None; autoUpdateMode := UPDATE_CUSTOM;
     customUpdator := Some getNowTime |}.

(** An [Email] is bound and read as its text. *)
Definition User : Model := {| tableName := "users"; model_columns :=
  [id_column; plain_column 2 opt_text "email"; plain_column 1 opt_text "name"; plain_column 3 opt_int64 "age";
   plain_column 4 opt_int64 "best_friend"; plain_column 5 opt_int64 "mother"; plain_column 6 opt_text "password";
   created_column 7 "created_at"; updated_column 8 "updated_at"] |}.

Definition Post : Model := {| tableName := "posts"; model_columns :=
  [id_column; plain_column 1 text "title"; plain_column 2 text "content"; plain_column 3 opt_int64 "user_id";
   created_column 4 "created_at"; updated_column 5 "updated_at"] |}.

Definition Follow : Model := {| tableName := "user_follows_user"; model_columns :=
  [id_column; plain_column 1 int64 "followee_id"; plain_column 2 int64 "follower_id"; plain_column 3 opt_int64 "random_num";
   plain_column 4 opt_text "str"] |}.

Definition PostLike : Model := {| tableName := "post_like_user"; model_columns :=
  [id_column; plain_column 1 int64 "user_id"; plain_column 2 int64 "post_id"; created_column 3 "liked_at"] |}.

(** [DefaultThroughModel<User, User, "user_friend_user">] *)
Definition Friendship : Model := DefaultThroughModel "user_friend_user" int64 int64.

(** [ThroughField{.throughPtr, .modelPtr = M::pkFieldPtr(), .throughPtrModel}] *)
Definition through_field (p : nat) (side : ThroughPtrModel) : ThroughField :=
  {| throughPtr := p; throughType := int64; modelPtr := 0; modelType := int64; throughPtrModel := side |}.

Definition User_relations : option (list Relation) :=
  bestFriend ← manyToOne User USER [(4, opt_int64)];
  mother ← manyToOne User USER [(5, opt_int64)];
  dtm ← match default_through_fields User User with Ret l => Some l | _ => None end;
  friendship ← manyToManyRelation USER USER dtm;
  follows ← manyToManyRelation USER USER [through_field 1 SideA; through_field 2 SideB];
  Some [ForeignKey (withRelatedName "best_friends" bestFriend); ForeignKey (withRelatedName "children" mother);
        ManyToMany (withSymmetryMode DOUBLE_ROW (withRelationName "friendship" friendship));
        ManyToMany (withReciprocalName "followers" (withRelationName "follows" follows))].

Definition Post_relations : option (list Relation) :=
  user ← manyToOne Post USER [(3, opt_int64)];
  user ← onDelete SET_NULL user;
  likes ← manyToManyRelation USER POST [through_field 2 SideB; through_field 1 SideA];
  Some [ForeignKey (withRelatedName "user_posts" user); ManyToMany (withRelationName "likes" likes)].

Definition Follow_relations : option (list Relation) :=
  followee ← manyToOne Follow USER [(1, int64)];
  followee ← onDelete CASCADE followee;
  follower ← manyToOne Follow USER [(2, int64)];
  follower ← onDelete CASCADE follower;
  Some [ForeignKey (withRelatedName "user_followeds" followee); ForeignKey (withRelatedName "user_follows" follower)].

Definition PostLike_relations : option (list Relation) :=
  user ← manyToOne PostLike USER [(1, int64)];
  user ← onDelete CASCADE user;
  post ← manyToOne PostLike POST [(2, int64)];
  post ← onDelete CASCADE post;
  Some [ForeignKey (withRelatedName "user_likes" user); ForeignKey (withRelatedName "post_likes" post)].

Definition relations (model : nat) : list Relation :=
  default [] (match model with 0 => User_relations | 1 => Post_relations | 2 => Follow_relations | 3 => PostLike_relations | _ => None end).
Definition many_relations (model : nat) : list ManyToManyRelation := manyToManyRelations (relations model).

(** ** The declarations are consistent *)

Lemma demo_models_ok : Forall model_ok [User; Post; Follow; PostLike; Friendship].
Proof. repeat constructor; set_solver. Qed.

Lemma demo_models_ok_each : model_ok User /\ model_ok Post /\ model_ok Follow /\ model_ok PostLike /\ model_ok Friendship.
Proof. pose proof demo_models_ok as H. rewrite !Forall_cons in H. tauto. Qed.

(** No static assertion fails. *)
Lemma relations_declared : Forall is_Some [User_relations; Post_relations; Follow_relations; PostLike_relations].
Proof. repeat constructor; eexists; reflexivity. Qed.

Definition model_of (n : nat) : Model := nth n [User; Post; Follow; PostLike] Friendship.

Lemma demo_fk_ok n r : n < 4 -> r ∈ fkRelations (relations n) -> fk_ok (model_of n) (model_of (fk_target r)) r.
Proof.
  intros Hn Hr. do 4 (destruct n as [|n]; [apply list_elem_of_In in Hr; vm_compute in Hr;
    repeat (destruct Hr as [<-|Hr]; [by apply pairs_typed_ok|]); done|]). lia.
Qed.

(** ** What likes, follows and friendships store and find *)

Definition lookup (name : bytes) (model related : nat) : option RelationLookup :=
  getManyToManyRelation name model related many_relations.

Section Meaning.
Context (sql_eq : DbValue -> DbValue -> tri).
Context (sql_eq_comm : forall v w, sql_eq v w = sql_eq w v) (sql_eq_refl : forall v, v <> VNull -> sql_eq v v = Yes).

(** Member [k] of a through row is the identifier of an object. *)
Definition names_object (T : Object) (k : nat) (o : Object) : Prop :=
  sql_eq (toDbValue int64 (member T k)) (toDbValue int64 (member o 0)) = Yes.

(** A relation with one member for each side, between these models. *)
Lemma demo_related mt mother mself l self a b : model_ok mt -> model_ok mother ->
  fields_declared mt (throughFields (relation l)) = true ->
  getThroughFields (far l) (relation l) = [through_field a (far l)] ->
  getThroughFields (near l) (relation l) = [through_field b (near l)] ->
  is_member mother (0, int64) = true -> symmetryMode (relation l) <> SINGLE_ROW -> symmetryMode (relation l) <> DB_SINGLE_ROW ->
  exists q, manyRelated mt mother l mself self = Ret q /\
    forall R T, selects_pair sql_eq mt mother q R T <-> names_object T a R /\ names_object T b self.
Proof.
  intros Hm Ho Hf Fa Fb Hi M1 M2.
  destruct (manyRelated_selects sql_eq sql_eq_comm mt mother mself l self Hm Ho) as (q & E & H).
  - by apply fields_declared_ok.
  - apply side_declared_ok. rewrite Fa. cbn [forallb modelPtr modelType through_field]. by rewrite Hi.
  - by destruct (symmetryMode (relation l)).
  - exists q. split; [done|]. intros R T. rewrite H. unfold key_matches. rewrite Fa, Fb, !Forall_singleton.
    unfold names_object, toDbValue. cbn [throughType throughPtr modelPtr through_field raw optional int64]. done.
Qed.

(** The row that a call of [addRelation] stores when the caller is on side A. *)
Lemma through_row l self other a b va vb : symmetryMode (relation l) <> SINGLE_ROW -> symmetryMode (relation l) <> DB_SINGLE_ROW ->
  getThroughFields (self_side l) (relation l) = [through_field a (self_side l)] ->
  getThroughFields (other_side l) (relation l) = [through_field b (other_side l)] ->
  member self 0 = va -> member other 0 = vb ->
  throughObj l self other = assign b vb (assign a va default_object).
Proof.
  intros M1 M2 Fa Fb <- <-. unfold throughObj, through_of, assign_fields. destruct (symmetryMode (relation l)); try done;
    by rewrite Fa, Fb.
Qed.

Lemma named a n (o T : Object) : member T a = FInt n -> member o 0 = FInt n -> names_object T a o.
Proof. intros H1 H2. unfold names_object. rewrite H1, H2. by apply sql_eq_refl. Qed.

(** Likes are one relation seen from its two ends: whether a post is liked through
    the post or through the user, the same row is stored, with the user's and the
    post's identifiers in their columns; the users who like a post, and the posts a
    user likes, are those joined by such a row, and no others. *)
Theorem demo_likes post user k i : member post 0 = FInt k -> member user 0 = FInt i ->
  exists lp lu q q', lookup "likes" POST USER = Some lp /\ lookup "likes" USER POST = Some lu /\
    throughObj lp post user = throughObj lu user post /\
    member (throughObj lp post user) 1 = FInt i /\ member (throughObj lp post user) 2 = FInt k /\
    manyRelated PostLike User lp Post post = Ret q /\ manyRelated PostLike Post lu User user = Ret q' /\
    (forall R T, selects_pair sql_eq PostLike User q R T <-> names_object T 1 R /\ names_object T 2 post) /\
    (forall R T, selects_pair sql_eq PostLike Post q' R T <-> names_object T 2 R /\ names_object T 1 user).
Proof.
  intros Hp Hu. destruct demo_models_ok_each as (U & P & _ & L & _).
  destruct (lookup "likes" POST USER) as [lp|] eqn:Ep; [|done]. destruct (lookup "likes" USER POST) as [lu|] eqn:Eu; [|done].
  assert (Xp := Ep). vm_compute in Xp. injection Xp as Xp. assert (Xu := Eu). vm_compute in Xu. injection Xu as Xu.
  destruct (demo_related PostLike User Post lp post 1 2 L U) as (q & Q & Hq); [by subst..|].
  destruct (demo_related PostLike Post User lu user 2 1 L P) as (q' & Q' & Hq'); [by subst..|].
  assert (Tp : throughObj lp post user = assign 1 (FInt i) (assign 2 (FInt k) default_object)) by (apply through_row; by subst).
  assert (Tu : throughObj lu user post = assign 2 (FInt k) (assign 1 (FInt i) default_object)) by (apply through_row; by subst).
  exists lp, lu, q, q'. rewrite Tp, Tu. split_and!; try done.
Qed.

(** Whom a user follows and who follows a user are read from the same rows: after
    [a.addRelation<"follows">(b)] the query of [follows] on [a] gives [b] and the query
    of [followers] on [b] gives [a], and each query gives only such pairs; but the row
    holds the identifier of [a] as its followee and that of [b] as its follower. *)
Theorem demo_follows a b i j : member a 0 = FInt i -> member b 0 = FInt j ->
  exists lf lr q q', lookup "follows" USER USER = Some lf /\ lookup "followers" USER USER = Some lr /\
    let T := throughObj lf a b in
    member T 1 = FInt i /\ member T 2 = FInt j /\
    manyRelated Follow User lf User a = Ret q /\ manyRelated Follow User lr User b = Ret q' /\
    selects_pair sql_eq Follow User q b T /\ selects_pair sql_eq Follow User q' a T /\
    (forall R T, selects_pair sql_eq Follow User q R T <-> names_object T 2 R /\ names_object T 1 a) /\
    (forall R T, selects_pair sql_eq Follow User q' R T <-> names_object T 1 R /\ names_object T 2 b).
Proof.
  intros Ha Hb. destruct demo_models_ok_each as (U & _ & F & _).
  destruct (lookup "follows" USER USER) as [lf|] eqn:Ef; [|done]. destruct (lookup "followers" USER USER) as [lr|] eqn:Er; [|done].
  assert (Xf := Ef). vm_compute in Xf. injection Xf as Xf. assert (Xr := Er). vm_compute in Xr. injection Xr as Xr.
  destruct (demo_related Follow User User lf a 2 1 F U) as (q & Q & Hq); [by subst..|].
  destruct (demo_related Follow User User lr b 1 2 F U) as (q' & Q' & Hq'); [by subst..|].
  assert (T : throughObj lf a b = assign 2 (FInt j) (assign 1 (FInt i) default_object)) by (apply through_row; by subst).
  exists lf, lr, q, q'. cbv zeta. rewrite T. split_and!; try done; [apply Hq|apply Hq']; split; by eapply named.
Qed.
End Meaning.
End Models.

Module DemoModelWitnesses.
Import RecordWitnesses.

Definition object (n : Z) : Object := {| members := {[0 := FInt n]}; persisted_ := true |}.

(** User 7 likes post 3: found from both ends, and not for another post. *)
Lemma demo_likes_witness :
  exists lp lu q q', lookup 0 "likes" POST USER = Some lp /\ lookup 0 "likes" USER POST = Some lu /\
    manyRelated PostLike (User 0) lp (Post 0) (object 3) = Ret q /\ manyRelated PostLike (Post 0) lu (User 0) (object 7) = Ret q' /\
    selects_pair value_eq PostLike (User 0) q (object 7) (throughObj lp (object 3) (object 7)) /\
    selects_pair value_eq PostLike (Post 0) q' (object 3) (throughObj lu (object 7) (object 3)) /\
    ~ selects_pair value_eq PostLike (Post 0) q' (object 4) (throughObj lu (object 7) (object 3)).
Proof.
  destruct (demo_likes 0 value_eq value_eq_comm (object 3) (object 7) 3 7 eq_refl eq_refl)
    as (lp & lu & q & q' & E1 & E2 & T & M1 & M2 & E3 & E4 & H & H').
  exists lp, lu, q, q'. rewrite H, !H', <- T. unfold names_object. rewrite M1, M2. split_and!; try done. by intros [N _].
Defined.

(** User 1 follows user 2. *)
Lemma demo_follows_witness :
  exists lf q, lookup 0 "follows" USER USER = Some lf /\
    manyRelated Follow (User 0) lf (User 0) (object 1) = Ret q /\
    selects_pair value_eq Follow (User 0) q (object 2) (throughObj lf (object 1) (object 2)) /\
    member (throughObj lf (object 1) (object 2)) 1 = FInt 1.
Proof.
  destruct (demo_follows 0 value_eq value_eq_comm value_eq_refl (object 1) (object 2) 1 2 eq_refl eq_refl)
    as (lf & lr & q & q' & E1 & E2 & M1 & _ & E3 & _ & H & _).
  exists lf, q. split_and!; done.
Defined.
End DemoModelWitnesses.
