(* ===== verification/TestRunner.v ===== *)
(** The runner of the demo's own test suites ([app/include/TestRunner.hpp]): named steps
    that may throw, their results, and the answer of a route that runs them. *)
From S2P Require Import Prelude Bytes Effects DbValue Json.
From S2P Require HttpResponse.

#[local] Arguments list_ascii_of_string : simpl never.

Record TestStepResult := { step_name : bytes; passed : bool; detail : bytes }.

(** [e.what()] of the exceptions that only the standard library throws. *)
Class StdWhat := std_what : exn -> bytes.

Definition message_of `{StdWhat} (e : exn) : bytes :=
  match e with
  | SocketException m | EpollException m | ServerException m _ _ | HandlerException m _ _
  | CompressorException m | ConnectionException m | DatabaseException m | OrmException m
  | InvalidArgument m | RuntimeError m => m
  | UnknownException => "unknown exception"
  | e => std_what e
  end.

(** The reading of a boolean from a document, and the documents of braced pairs. *)
Class JsonBooleans `{NlohmannJson} := {
  get_bool : json -> outcome bool;
  get_bool_bool b : get_bool (json_bool b) = Ret b;
  index_pairs k v l : NoDup (map fst l) -> assoc_first k l = Some v -> index_key k (json_pairs l) = Ret v;
}.

Section Runner.
Context {S : Type} `{StdWhat} {J : NlohmannJson} {JB : JsonBooleans}.

(** A step runs on the state of the suite; an exception ends the step only. *)
Definition run_step (name : bytes) (step : M S unit) : M (S * list TestStepResult) unit := fun '(s, results) =>
  match step s with
  | (Ret _, s) => (Ret tt, (s, results ++ [{| step_name := name; passed := true; detail := [] |}]))
  | (Throw e, s) => (Ret tt, (s, results ++ [{| step_name := name; passed := false; detail := message_of e |}]))
  | (Undef, s) => (Undef, (s, results))
  end.

Definition allPassed (results : list TestStepResult) : bool := forallb passed results.

Definition step_json (r : TestStepResult) : json :=
  json_pairs [("name" : bytes, json_string (step_name r)); ("passed" : bytes, json_bool (passed r)); ("detail" : bytes, json_string (detail r))].

Definition results_json (results : list TestStepResult) : json :=
  json_pairs [("allPassed" : bytes, json_bool (allPassed results)); ("steps" : bytes, json_array (map step_json results))].

Definition expect_result (cond : expected QueryResult) (msg : bytes) : M S unit :=
  match cond with inl _ => mret tt | inr _ => throw (RuntimeError msg) end.
Definition expect (cond : bool) (msg : bytes) : M S unit := if cond then mret tt else throw (RuntimeError msg).

Definition unwrap {A} (result : expected A) (context : bytes) : M S A :=
  match result with inl a => mret a | inr e => throw (RuntimeError (context ++ " failed: " ++ message e)) end.

(** [co_await] of a call of the ORM, and [unwrap] of its result. *)
Definition unwrapped {A} (call : M S (expected A)) (context : bytes) : M S A := r ← call; unwrap r context.

(** The end of every suite. *)
Definition summary (results : list TestStepResult) : outcome HttpResponse.HttpResponse :=
  flag ← index_key "allPassed" (results_json results);
  ok ← get_bool flag;
  body ← dump 2 (results_json results);
  Ret (HttpResponse.HttpResponse_typed (if (ok : bool) then 200 else 500) "application/json" body).

(** A route is a sequence of steps, with code between them that nothing guards. *)
Inductive part := Step (name : bytes) (step : M S unit) | Between (code : M S unit).

Definition unguarded (m : M S unit) : M (S * list TestStepResult) unit := fun '(s, results) => let '(r, s) := m s in (r, (s, results)).

Fixpoint run_parts (parts : list part) : M (S * list TestStepResult) unit :=
  match parts with
  | [] => mret tt
  | Step name step :: parts => _ ← run_step name step; run_parts parts
  | Between code :: parts => _ ← unguarded code; run_parts parts
  end.

Definition suite (parts : list part) : M S HttpResponse.HttpResponse := fun s =>
  match run_parts parts (s, []) with
  | (Ret _, (s, results)) => (summary results, s)
  | (Throw e, (s, _)) => (Throw e, s)
  | (Undef, (s, _)) => (Undef, s)
  end.

(** *** A suite whose steps pass *)
Definition ok_step (name : bytes) : TestStepResult := {| step_name := name; passed := true; detail := [] |}.
Fixpoint step_names (parts : list part) : list bytes :=
  match parts with [] => [] | Step name _ :: parts => name :: step_names parts | Between _ :: parts => step_names parts end.

Definition triple (P : S -> Prop) (m : M S unit) (Q : S -> Prop) : Prop := forall s, P s -> exists s', m s = (Ret tt, s') /\ Q s'.

(** Each part is given what the part before it establishes. *)
Inductive proceeds : (S -> Prop) -> list part -> (S -> Prop) -> Prop :=
| proceeds_nil P : proceeds P [] P
| proceeds_step P Q R name m parts : triple P m Q -> proceeds Q parts R -> proceeds P (Step name m :: parts) R
| proceeds_between P Q R m parts : triple P m Q -> proceeds Q parts R -> proceeds P (Between m :: parts) R.

Lemma proceeds_run P parts Q s rs : proceeds P parts Q -> P s ->
  exists s', run_parts parts (s, rs) = (Ret tt, (s', rs ++ map ok_step (step_names parts))) /\ Q s'.
Proof.
  intros Pr. revert s rs. induction Pr as [P|P Q R name m parts Hm _ IH|P Q R m parts Hm _ IH]; intros s rs Hs.
  - exists s. cbn. by rewrite app_nil_r.
  - destruct (Hm s Hs) as (s1 & E & Hs1). destruct (IH s1 (rs ++ [ok_step name]) Hs1) as (s2 & E2 & Hs2). exists s2. split; [|done].
    assert (run_step name m (s, rs) = (Ret tt, (s1, rs ++ [ok_step name]))) as E1 by (unfold run_step; by rewrite E).
    change (run_parts (Step name m :: parts)) with (run_step name m ≫= fun _ => run_parts parts). mstep E1.
    rewrite E2. by rewrite <- app_assoc.
  - destruct (Hm s Hs) as (s1 & E & Hs1). destruct (IH s1 rs Hs1) as (s2 & E2 & Hs2). exists s2. split; [|done].
    assert (unguarded m (s, rs) = (Ret tt, (s1, rs))) as E1 by (unfold unguarded; by rewrite E).
    change (run_parts (Between m :: parts)) with (unguarded m ≫= fun _ => run_parts parts). mstep E1. by rewrite E2.
Qed.

(** The answer of the route: 200 with the results, all passed. *)
Definition all_passed_answer (names : list bytes) : outcome HttpResponse.HttpResponse :=
  body ← dump 2 (results_json (map ok_step names)); Ret (HttpResponse.HttpResponse_typed 200 "application/json" body).

Lemma ok_steps_passed names : allPassed (map ok_step names) = true.
Proof. induction names; done. Qed.

Lemma summary_flag results :
  summary results = (body ← dump 2 (results_json results);
    Ret (HttpResponse.HttpResponse_typed (if allPassed results then 200 else 500) "application/json" body)).
Proof.
  unfold summary.
  assert (index_key "allPassed" (results_json results) = Ret (json_bool (allPassed results))) as ->
    by (apply index_pairs; [cbn; repeat constructor; set_solver|done]).
  cbn [mbind outcome_bind]. by rewrite get_bool_bool.
Qed.

Lemma proceeds_suite P parts Q s : proceeds P parts Q -> P s ->
  exists s', suite parts s = (all_passed_answer (step_names parts), s') /\ Q s'.
Proof.
  intros Pr Hs. destruct (proceeds_run P parts Q s [] Pr Hs) as (s' & E & HQ). exists s'. split; [|done].
  unfold suite. rewrite E. cbn [app]. by rewrite summary_flag, ok_steps_passed.
Qed.

Lemma run_step_throws name m s rs e s' : m s = (Throw e, s') ->
  run_step name m (s, rs) = (Ret tt, (s', rs ++ [{| step_name := name; passed := false; detail := message_of e |}])).
Proof. intros E. unfold run_step. by rewrite E. Qed.

Lemma run_parts_throws name m parts s rs e s' : m s = (Throw e, s') ->
  run_parts (Step name m :: parts) (s, rs) = run_parts parts (s', rs ++ [{| step_name := name; passed := false; detail := message_of e |}]).
Proof.
  intros E. change (run_parts (Step name m :: parts)) with (run_step name m ≫= fun _ => run_parts parts).
  by mstep (run_step_throws name m s rs e s' E).
Qed.

(** *** Steps are isolated *)
Definition is_step (p : part) : bool := match p with Step _ _ => true | Between _ => false end.
Definition defined (p : part) : Prop := match p with Step _ m | Between m => forall s, (m s).1 <> Undef end.

(** Whatever the steps throw, every one is run and has its result, in order; the answer
    is 200 if all have passed and 500 otherwise.  Code between the steps is needed for
    anything else to happen. *)
Lemma suite_isolates parts s : forallb is_step parts = true -> Forall defined parts ->
  exists s' results, suite parts s = (body ← dump 2 (results_json results);
      Ret (HttpResponse.HttpResponse_typed (if allPassed results then 200 else 500) "application/json" body), s') /\
    map step_name results = step_names parts.
Proof.
  intros Hp Hd.
  assert (forall s rs, exists s' results, run_parts parts (s, rs) = (Ret tt, (s', rs ++ results)) /\ map step_name results = step_names parts) as Run.
  { induction parts as [|[name m|m] parts IH]; intros s0 rs; [by exists s0, []; rewrite app_nil_r| |done].
    apply Forall_cons in Hd as [Hm Hd]. specialize (IH Hp Hd). cbn [defined] in Hm.
    assert (exists s1 r, run_step name m (s0, rs) = (Ret tt, (s1, rs ++ [r])) /\ step_name r = name) as (s1 & r & E & Hr).
    { unfold run_step. specialize (Hm s0). destruct (m s0) as [[]  s1]; [by eexists _, _|by eexists _, _|done]. }
    destruct (IH s1 (rs ++ [r])) as (s2 & results & E2 & Hn). exists s2, (r :: results). split.
    - change (run_parts (Step name m :: parts)) with (run_step name m ≫= fun _ => run_parts parts). mstep E. rewrite E2. by rewrite <- app_assoc.
    - cbn. by rewrite Hr, Hn. }
  destruct (Run s []) as (s' & results & E & Hn). exists s', results. split; [|done]. unfold suite. rewrite E. cbn [app]. by rewrite summary_flag.
Qed.
End Runner.
Arguments part S : clear implicits.
