(* ===== verification/SuiteState.v ===== *)
(** The state of a suite of the demo's checks ([app/src/routes/ormTestRoutes.cpp]): the
    database beside the local objects that the steps share, what the steps do with them,
    and transactions with their scopes ([db/IDatabase.hpp], [db/ITransaction.hpp],
    [db/ScopedTransaction.hpp]). *)
From S2P Require Import Prelude Bytes Effects DbValue Model WriteQueries ActiveRecord Json TestRunner.
From S2P Require HttpResponse.

#[local] Arguments list_ascii_of_string : simpl never.

(** ** Local objects *)
Section Locals.
Context {S X : Type} `{EqDecision X} (type_name : FieldType -> bytes).

Record SuiteState := { suite_db : S; locals : X -> Object }.
#[local] Abbreviation step := (M SuiteState unit).

(** A call of the ORM. *)
Definition on_database {A} (f : M S A) : M SuiteState A := fun s =>
  let '(r, d) := f (suite_db s) in (r, {| suite_db := d; locals := locals s |}).

Definition set_local (x : X) (f : Object -> Object) (s : SuiteState) : SuiteState :=
  {| suite_db := suite_db s; locals := fun y => if decide (y = x) then f (locals s x) else locals s y |}.

(** [x = {...}], [x.member = ...], and [x.member = y] with the key of [y]. *)
Definition assign_local (x : X) (o : Object) : step := modify (set_local x (fun _ => o)).
Definition set_member (x : X) (p : nat) (v : Field) : step := modify (set_local x (assign p v)).
Definition set_to_key (x : X) (p : nat) (y : X) : step := fun s => (Ret tt, set_local x (assign p (member (locals s y) 0)) s).
Definition local_key (x : X) : M SuiteState Field := gets (fun s => member (locals s x) 0).

(** A method of a local object that changes it. *)
Definition on_local {A} (x : X) (f : M (S * Object) A) : M SuiteState A := fun s =>
  let '(r, (d, o)) := f (suite_db s, locals s x) in (r, set_local x (fun _ => o) {| suite_db := d; locals := locals s |}).

(** [unwrap(co_await x.save(transaction), context)] *)
Definition save_in (m : Model) (db : option (Database S)) (transaction : option (Database S)) (x : X) (context : bytes) : step :=
  _ ← unwrapped (on_local x (save m db type_name transaction)) context; mret tt.
Definition destroy_local (m : Model) (db : option (Database S)) (x : X) (context : bytes) : step :=
  _ ← unwrapped (on_local x (destroy m db type_name None)) context; mret tt.

(** A suite whose locals are not initialised. *)
Definition suite_with_locals `{StdWhat} {J : NlohmannJson} {JB : JsonBooleans} (parts : list (part SuiteState)) : M S HttpResponse.HttpResponse := fun s =>
  let '(r, s) := suite parts {| suite_db := s; locals := fun _ => default_object |} in (r, suite_db s).
End Locals.
Arguments SuiteState : clear implicits.

Definition positive_key (o : Object) : bool := match member o 0 with FInt n => (0 <? n)%Z | _ => false end.

(** A database that refuses everything. *)
Definition refusing (msg : bytes) {S} : Database S := fun _ _ s => (Ret (inr {| type := DB_BUSY; message := msg |}), s).

(** ** Transactions *)

(** The methods of a transaction, and of a database. *)
Record ITransaction (S : Type) := {
  tx_begin : bytes -> M S (expected QueryResult);
  tx_commit : M S (expected QueryResult);
  tx_rollback : M S (expected QueryResult);
  tx_abandon : M S unit;
  tx_executeQuery : Database S;
  tx_isTransactionEnded : S -> bool;
}.
Arguments tx_begin {S}. Arguments tx_commit {S}. Arguments tx_rollback {S}. Arguments tx_abandon {S}.
Arguments tx_executeQuery {S}. Arguments tx_isTransactionEnded {S}.

Record IDatabase (S : Type) := {
  executeQuery : Database S;
  acquireTransaction : M S (expected (ITransaction S));
  releaseTransaction : ITransaction S -> M S unit;
}.
Arguments executeQuery {S}. Arguments acquireTransaction {S}. Arguments releaseTransaction {S}.

Section Transactions.
Context {S X : Type} `{EqDecision X} (d : IDatabase S).

(** [~ScopedTransaction] *)
Definition scope_end (t : ITransaction S) : M S unit :=
  ended ← gets (tx_isTransactionEnded t); if (ended : bool) then releaseTransaction d t else tx_abandon t.

(** A destructor runs after the block, and when an exception leaves it. *)
Definition finally {T A} (body : M T A) (destructor : M T unit) : M T A := fun s =>
  match body s with
  | (Ret a, s) => (_ ← destructor; mret a) s
  | (Throw e, s) => (_ ← destructor; throw e) s
  | (Undef, s) => (Undef, s)
  end.

(** The block from [ScopedTransaction::create] to the end of the scope.  The result of
    [create] is used without a test. *)
Definition scoped {A} (body : ITransaction S -> M (SuiteState S X) A) : M (SuiteState S X) A :=
  created ← on_database (acquireTransaction d);
  match created with
  | inr _ => undefined
  | inl t => finally (body t) (on_database (scope_end t))
  end.

(** [expect(co_await transaction->commit(), msg)], and the rollback. *)
Definition expect_done (call : M S (expected QueryResult)) (msg : bytes) : M (SuiteState S X) unit :=
  r ← on_database call; expect_result r msg.

(** A transaction is given back once, however its block ends. *)
Lemma scoped_ends {A} (body : ITransaction S -> M (SuiteState S X) A) s t d1 :
  acquireTransaction d (suite_db s) = (Ret (inl t), d1) ->
  let '(r, s1) := body t {| suite_db := d1; locals := locals s |} in
  r <> Undef -> (forall x, exists x', scope_end t x = (Ret tt, x')) ->
  exists d2, scope_end t (suite_db s1) = (Ret tt, d2) /\ scoped body s = (r, {| suite_db := d2; locals := locals s1 |}).
Proof.
  intros E. destruct (body t _) as [r s1] eqn:B. intros Hr Hend. destruct (Hend (suite_db s1)) as (d2 & E2). exists d2. split; [done|].
  assert (on_database (X := X) (acquireTransaction d) s = (Ret (inl t), {| suite_db := d1; locals := locals s |})) as E1 by (unfold on_database; by rewrite E).
  assert (on_database (X := X) (scope_end t) s1 = (Ret tt, {| suite_db := d2; locals := locals s1 |})) as E3 by (unfold on_database; by rewrite E2).
  unfold scoped. rewrite (mbind_Ret _ _ _ _ _ E1). unfold finally. rewrite B. destruct r as [a|e|]; [|by rewrite (mbind_Ret _ _ _ _ _ E3)|done].
  by rewrite (mbind_Ret _ _ _ _ _ E3).
Qed.
End Transactions.
