(* ===== verification/PredicateTests.v ===== *)
(** The demo's checks of conditions ([app/src/routes/ormTestRoutes.cpp],
    GET /tests/orm/predicates_test): what its steps ask and expect of a database with
    one table of users, and that they pass. *)
From S2P Require Import Prelude Bytes Effects DbValue Model Predicate Conditions SelectQuery WriteQueries ActiveRecord DemoModels Json TestRunner.
From S2P Require HttpResponse.

#[local] Arguments list_ascii_of_string : simpl never.

(** The members of a user. *)
Definition user_ptr (p : nat) (t : CppType) : FieldPtr := {| ptr_model := 0; ptr_field := p; ptr_type := t |}.
Definition id_ : FieldPtr := user_ptr 0 int64.
Definition name_ : FieldPtr := user_ptr 1 opt_text.
Definition email_ : FieldPtr := user_ptr 2 opt_text.
Definition age_ : FieldPtr := user_ptr 3 opt_int64.
Definition bestFriend_ : FieldPtr := user_ptr 4 opt_int64.
Definition mother_ : FieldPtr := user_ptr 5 opt_int64.

(** An aggregate with the members that are name_equals; the others are zero or empty. *)
Definition new_user (name email age password : Field) : Object :=
  {| members := list_to_map [(0, FInt 0); (1, name); (2, email); (3, age); (4, FNone); (5, FNone); (6, password); (7, FInt 0); (8, FInt 0)];
     persisted_ := false |}.

Section PredicatesTest.
Context (now : Z).
#[local] Abbreviation Pu := (default_resolve [User now]).

Definition seed_users : list Object :=
  [new_user (FText "Alice") (FText "alice@example.com") (FInt 20) (FText "secret");
   new_user (FText "Bob") (FText "bob@example.com") (FInt 25) (FText "secret");
   new_user (FText "Charlie") (FText "charlie@example.com") (FInt 30) (FText "secret");
   new_user (FText "David") (FText "david@example.com") (FInt 35) (FText "secret");
   new_user (FText "Diana") (FText "diana@example.com") FNone FNone].

Definition both_of (p q : outcome BasePredicate) : outcome BasePredicate := p ← p; q ← q; Ret (pred_and p q).
Definition either_of (p q : outcome BasePredicate) : outcome BasePredicate := p ← p; q ← q; Ret (pred_or p q).

(** The conditions of the steps. *)
Definition name_is (n : bytes) : outcome BasePredicate := equals Pu name_ (FText n) [].
Definition p_notEquals := notEquals Pu name_ (FText "Alice") [].
Definition p_greater := greater Pu age_ (FInt 25) [].
Definition p_lesser := lesser Pu age_ (FInt 25) [].
Definition p_greaterOrEqual := greaterOrEqual Pu age_ (FInt 30) [].
Definition p_lesserOrEqual := lesserOrEqual Pu age_ (FInt 25) [].
Definition p_isNull := Predicate.isNull Pu age_ [].
Definition p_isNotNull := isNotNull Pu age_ [].
Definition p_like := like Pu name_ "A%" [].
Definition p_ilike := ilike Pu name_ "alice" [].
Definition p_contains := contains Pu name_ "li" [].
Definition p_iContains := iContains Pu name_ "AL" [].
Definition p_startsWith := startsWith Pu name_ "A" [].
Definition p_endsWith := endsWith Pu name_ "e" [].
Definition p_in := in_values Pu name_ [FText "Alice"; FText "Charlie"; FText "Diana"] [].
Definition p_notIn := notIn_values Pu name_ [FText "Alice"; FText "Bob"] [].
Definition p_between := between Pu age_ (FInt 25) (FInt 30) [].
Definition p_and := both_of (greaterOrEqual Pu age_ (FInt 25) []) (lesserOrEqual Pu age_ (FInt 30) []).
Definition p_or := either_of (name_is "Alice") (name_is "Diana").
Definition p_nested := either_of (both_of (greaterOrEqual Pu age_ (FInt 30) []) (lesserOrEqual Pu age_ (FInt 35) [])) (name_is "Diana").
Definition p_trueAnd := both_of (name_is "Alice") (Ret (pred_bool true)).
Definition p_falseAnd := both_of (name_is "Alice") (Ret (pred_bool false)).
Definition p_trueOr := either_of (name_is "Alice") (Ret (pred_bool true)).
Definition p_falseOr := either_of (name_is "Alice") (Ret (pred_bool false)).
Definition p_aliased := equals Pu name_ (FText "Alice") "users".
Definition p_function := iContains Pu name_ "LI" [].
Definition p_range := between Pu age_ (FInt 20) (FInt 30) [].
Definition p_ordering := both_of (both_of (name_is "Alice") (greater Pu age_ (FInt 18) [])) (isNotNull Pu email_ []).
Definition p_fields := equals_fields Pu age_ id_ ([], []).
Definition p_complex := both_of p_range (notEquals Pu name_ (FText "Bob") []).
Definition p_emptyIn := in_values Pu name_ [] [].
End PredicatesTest.

Section PredicateSteps.
Context {S : Type} `{StdWhat} {J : NlohmannJson} {JB : JsonBooleans}.
Context (now : Z) (db : option (Database S)) (type_name : FieldType -> bytes).
#[local] Abbreviation UserM := (User now).

(** [User::filter(pred).select()] *)
Definition select_rows (p : outcome BasePredicate) (context : bytes) : M S (list Object) :=
  p ← lift p; unwrapped (select db type_name [UserM] (filter_query UserM p []) None) context.

Definition bulkDestroy_all : M S unit :=
  _ ← unwrapped (bulkDestroy UserM db type_name (pred_bool true) false None) "bulkDestroy"; mret tt.

Definition count_users : M S Z :=
  c ← unwrapped (count db type_name [UserM] (queryAll UserM []) None) "count";
  match c with FInt n => mret n | _ => undefined end.

Definition expect_rows (rows : list Object) (n : nat) (msg : bytes) : M S unit := expect (length rows =? n) msg.

(** [rows\[0\].name == "..."] *)
Definition name_equals (n : bytes) (o : Object) : bool := match member o 1 with FText s => s =?b n | _ => false end.
Definition expect_first (rows : list Object) (n msg : bytes) : M S unit :=
  match rows with [] => undefined | o :: _ => expect (name_equals n o) msg end.

(** [expect(pred.toString() == text, "..." + pred.toString())] *)
Definition expect_text (p : outcome BasePredicate) (text msg : bytes) : M S unit :=
  p ← lift p; t ← lift (pred_toString p); expect (t =?b text) (msg ++ t).

Definition expect_find (needle sql msg : bytes) : M S unit :=
  expect (match find_sub needle sql with Some _ => true | None => false end) (msg ++ sql).

Definition resolved_text (p : outcome BasePredicate) : M S (bytes * list DbValue) := p ← lift p; lift (resolvePredicates p []).
Definition expect_params (params : list DbValue) (n : nat) : M S unit :=
  expect (length params =? n) ("expected " ++ to_string (Z.of_nat n) ++ " parameters, got " ++ to_string (Z.of_nat (length params))).

Definition cleanup_step : M S unit :=
  _ ← bulkDestroy_all; n ← count_users; expect (n =? 0)%Z "expected empty users table".
Definition seed_step : M S unit :=
  '(insertedCount, _) ← unwrapped (bulkInsert UserM db type_name seed_users false None) "bulkInsert";
  expect (insertedCount =? 5)%Z ("expected 5 inserted users, got " ++ to_string insertedCount).
Definition equals_step : M S unit :=
  rows ← select_rows (name_is now "Alice") "equals select";
  _ ← expect_rows rows 1 "expected 1 row"; _ ← expect_first rows "Alice" "expected Alice";
  expect_text (name_is now "Alice") "( a.name = ? )" "unexpected SQL: ".
Definition notEquals_step : M S unit :=
  rows ← select_rows (p_notEquals now) "notEquals select"; _ ← expect_rows rows 4 "expected 4 rows";
  expect_text (p_notEquals now) "( a.name != ? )" "unexpected SQL: ".
Definition greater_step : M S unit :=
  rows ← select_rows (p_greater now) "greater select"; _ ← expect_rows rows 2 "expected Charlie and David";
  expect_text (p_greater now) "( a.age > ? )" "unexpected SQL: ".
Definition lesser_step : M S unit :=
  rows ← select_rows (p_lesser now) "lesser select";
  _ ← expect_rows rows 1 "expected only Alice"; _ ← expect_first rows "Alice" "expected Alice";
  expect_text (p_lesser now) "( a.age < ? )" "unexpected SQL: ".
Definition greaterOrEqual_step : M S unit :=
  rows ← select_rows (p_greaterOrEqual now) "greaterOrEqual select"; _ ← expect_rows rows 2 "expected Charlie and David";
  expect_text (p_greaterOrEqual now) "( a.age >= ? )" "unexpected SQL: ".
Definition lesserOrEqual_step : M S unit :=
  rows ← select_rows (p_lesserOrEqual now) "lesserOrEqual select"; _ ← expect_rows rows 2 "expected Alice and Bob";
  expect_text (p_lesserOrEqual now) "( a.age <= ? )" "unexpected SQL: ".
Definition isNull_step : M S unit :=
  rows ← select_rows (p_isNull now) "isNull select";
  _ ← expect_rows rows 1 "expected one user with NULL age"; _ ← expect_first rows "Diana" "expected Diana";
  expect_text (p_isNull now) "( a.age IS NULL )" "unexpected SQL: ".
Definition isNotNull_step : M S unit :=
  rows ← select_rows (p_isNotNull now) "isNotNull select"; _ ← expect_rows rows 4 "expected four users with non-null age";
  expect_text (p_isNotNull now) "( a.age IS NOT NULL )" "unexpected SQL: ".
Definition like_step : M S unit :=
  rows ← select_rows (p_like now) "like select"; _ ← expect_rows rows 1 "expected Alice"; _ ← expect_first rows "Alice" "expected Alice";
  expect_text (p_like now) "( a.name LIKE ?  ESCAPE '\' )" "unexpected SQL: ".
Definition ilike_step : M S unit :=
  rows ← select_rows (p_ilike now) "ilike select"; _ ← expect_rows rows 1 "expected Alice"; _ ← expect_first rows "Alice" "expected Alice";
  expect_text (p_ilike now) "( LOWER(a.name) LIKE LOWER(?)  ESCAPE '\' )" "unexpected SQL: ".
Definition contains_step : M S unit :=
  rows ← select_rows (p_contains now) "contains select"; _ ← expect_rows rows 2 "expected Alice and Charlie";
  expect_text (p_contains now) "( a.name LIKE ?  ESCAPE '\' )" "unexpected SQL: ".
Definition iContains_step : M S unit :=
  rows ← select_rows (p_iContains now) "iContains select"; _ ← expect_rows rows 1 "expected Alice"; _ ← expect_first rows "Alice" "expected Alice";
  expect_text (p_iContains now) "( LOWER(a.name) LIKE LOWER(?)  ESCAPE '\' )" "unexpected SQL: ".
Definition startsWith_step : M S unit :=
  rows ← select_rows (p_startsWith now) "startsWith select"; _ ← expect_rows rows 1 "expected Alice"; expect_first rows "Alice" "expected Alice".
Definition endsWith_step : M S unit :=
  rows ← select_rows (p_endsWith now) "endsWith select"; expect_rows rows 2 "expected Alice and Charlie".
Definition in_step : M S unit :=
  rows ← select_rows (p_in now) "in select"; _ ← expect_rows rows 3 "expected Alice, Charlie and Diana";
  expect_text (p_in now) "( a.name IN (  ? , ? , ?  ) )" "unexpected SQL: ".
Definition notIn_step : M S unit :=
  rows ← select_rows (p_notIn now) "notIn select"; _ ← expect_rows rows 3 "expected Charlie, David and Diana";
  expect_text (p_notIn now) "( a.name NOT IN (  ? , ?  ) )" "unexpected SQL: ".
Definition between_step : M S unit :=
  rows ← select_rows (p_between now) "between select"; _ ← expect_rows rows 2 "expected Bob and Charlie";
  expect_text (p_between now) "( a.age BETWEEN ? AND ? )" "unexpected SQL: ".
Definition and_step : M S unit :=
  rows ← select_rows (p_and now) "and select"; _ ← expect_rows rows 2 "expected Bob and Charlie";
  expect_text (p_and now) "(( a.age >= ? ) AND ( a.age <= ? ))" "unexpected SQL: ".
Definition or_step : M S unit :=
  rows ← select_rows (p_or now) "or select"; _ ← expect_rows rows 2 "expected Alice and Diana";
  expect_text (p_or now) "(( a.name = ? ) OR ( a.name = ? ))" "unexpected SQL: ".
Definition nested_step : M S unit :=
  rows ← select_rows (p_nested now) "nested select"; expect_rows rows 3 "expected Charlie, David and Diana".

Definition true_false_step : M S unit :=
  rows ← select_rows (p_trueAnd now) "true AND select"; _ ← expect_rows rows 1 "TRUE AND predicate should preserve predicate";
  rows ← select_rows (p_falseAnd now) "false AND select"; _ ← expect_rows rows 0 "FALSE AND predicate should return no rows";
  rows ← select_rows (p_trueOr now) "true OR select"; _ ← expect_rows rows 5 "TRUE OR predicate should return all rows";
  rows ← select_rows (p_falseOr now) "false OR select"; expect_rows rows 1 "FALSE OR predicate should preserve predicate".
Definition aliased_step : M S unit := expect_text (p_aliased now) "( users.name = ? )" "unexpected aliased SQL: ".
Definition function_step : M S unit :=
  _ ← expect_text (p_function now) "( LOWER(a.name) LIKE LOWER(?)  ESCAPE '\' )" "unexpected function SQL: ";
  rows ← select_rows (p_function now) "function select"; expect_rows rows 2 "expected Alice and Charlie".
Definition resolve_step : M S unit :=
  '(sql, params) ← resolved_text (p_range now);
  _ ← expect (sql =?b "a.age BETWEEN ? AND ?") ("unexpected resolved SQL: " ++ sql); expect_params params 2.
Definition ordering_step : M S unit :=
  '(sql, params) ← resolved_text (p_ordering now);
  _ ← expect_params params 2;
  _ ← expect_find "a.name = ?" sql "name predicate missing: ";
  _ ← expect_find "a.age > ?" sql "age predicate missing: ";
  expect_find "a.email IS NOT NULL" sql "IS NOT NULL predicate missing: ".
Definition field_comparison_step : M S unit :=
  _ ← expect_text (p_fields now) " a.age = a.id " "unexpected field comparison SQL: ";
  '(sql, params) ← resolved_text (p_fields now);
  _ ← expect (sql =?b " a.age = a.id ") ("unexpected resolved field comparison SQL: " ++ sql);
  expect (length params =? 0) "field comparison should have no parameters".

(** The loop over the rows: the message reads an optional name. *)
Fixpoint expect_each (rows : list Object) : M S unit :=
  match rows with
  | [] => mret tt
  | user :: rows =>
      match member user 1 with
      | FText n => _ ← expect (name_equals "Alice" user || name_equals "Charlie" user) ("unexpected user in result: " ++ n); expect_each rows
      | _ => undefined
      end
  end.
Definition complex_step : M S unit :=
  rows ← select_rows (p_complex now) "complex select"; _ ← expect_rows rows 2 "expected Alice and Charlie"; expect_each rows.
Definition empty_in_step : M S unit :=
  '(sql, params) ← resolved_text (p_emptyIn now);
  _ ← expect (length params =? 0) "empty IN should have no parameters";
  expect_find "a.name IN" sql "expected IN predicate in SQL: ".
Definition final_cleanup_step : M S unit :=
  _ ← bulkDestroy_all; n ← count_users; expect (n =? 0)%Z "expected empty users table after cleanup".

Definition predicates_parts : list (part S) :=
  [Step "cleanup" cleanup_step; Step "seed users" seed_step; Step "equals" equals_step; Step "notEquals" notEquals_step;
   Step "greater" greater_step; Step "lesser" lesser_step; Step "greaterOrEqual" greaterOrEqual_step; Step "lesserOrEqual" lesserOrEqual_step;
   Step "isNull" isNull_step; Step "isNotNull" isNotNull_step; Step "like" like_step; Step "ilike" ilike_step; Step "contains" contains_step;
   Step "iContains" iContains_step; Step "startsWith" startsWith_step; Step "endsWith" endsWith_step; Step "in" in_step;
   Step "notIn" notIn_step; Step "between" between_step; Step "and" and_step; Step "or" or_step;
   Step "nested boolean predicates" nested_step; Step "true false predicates" true_false_step; Step "explicit table alias" aliased_step;
   Step "function predicate" function_step; Step "resolve predicates" resolve_step; Step "parameter ordering" ordering_step;
   Step "field comparison" field_comparison_step; Step "complex predicate" complex_step; Step "empty IN predicates" empty_in_step;
   Step "final cleanup" final_cleanup_step].
Definition predicates_test : M S HttpResponse.HttpResponse := suite predicates_parts.
End PredicateSteps.

(** ** A database with the table of users

    What the steps rely on: a SELECT with a condition of the suite answers with the rows
    that meet it, in any order; COUNT counts, DELETE WHERE TRUE empties the table, and
    INSERT adds the objects with an identifier and the times of the rows. *)

(** The row of a new user. *)
Definition stored_user (key : Z * Z * Z) (o : Object) : Object :=
  {| members := <[0 := FInt key.1.1]> (<[7 := FInt key.1.2]> (<[8 := FInt key.2]> (members o))); persisted_ := persisted_ o |}.

Definition key_ok (key : Z * Z * Z) : Prop :=
  let ok n := (- 2 ^ 63 <= n < 2 ^ 63)%Z in ok key.1.1 /\ ok key.1.2 /\ ok key.2.

Class UsersTable {CD : Conditions} {S : Type} (now : Z) (db : Database S) (script : list (outcome BasePredicate)) := {
  table : S -> list Object;
  table_selects s p sql ps : Ret p ∈ script ->
    buildSelectSqlAndSetParams [User now] 0 None (filter_query (User now) p []) = Ret (sql, ps) ->
    exists r s', db sql ps s = (Ret (inl r), s') /\ table s' = table s /\
      rows r ≡ₚ map (row_of (User now)) (List.filter (fun o => meets (row_env "a" (User now) o) p) (table s));
  table_counts s sql ps :
    buildSelectSqlAndSetParams [User now] 0 None (queryAll (User now) []) = Ret (sql, ps) ->
    exists r row s', db ("SELECT COUNT(*) FROM (" ++ sql ++ ")") ps s = (Ret (inl r), s') /\ table s' = table s /\
      rows r = [row] /\ DbValue.values row = [VInt (Z.of_nat (length (table s)))];
  table_deletes s sql ps :
    buildDeleteSqlAndSetParams (User now) (Some (pred_bool true)) false = Ret (sql, ps) ->
    exists r s', db sql ps s = (Ret (inl r), s') /\ table s' = [] /\ rows r = [] /\ affectedRows r = Z.of_nat (length (table s));
  table_inserts s sql ps :
    buildInsertSqlAndSetParams (User now) seed_users false = Ret (sql, ps) ->
    exists r s' keys, db sql ps s = (Ret (inl r), s') /\ Forall key_ok keys /\ length keys = length seed_users /\
      table s' = table s ++ zip_with stored_user keys seed_users /\ rows r = [] /\ affectedRows r = Z.of_nat (length seed_users);
}.

(** The conditions of the suite that are sent to the database. *)
Definition script (now : Z) : list (outcome BasePredicate) :=
  map (fun f => f now)
    [(fun now => name_is now "Alice"); p_notEquals; p_greater; p_lesser; p_greaterOrEqual; p_lesserOrEqual; p_isNull; p_isNotNull; p_like; p_ilike;
     p_contains; p_iContains; p_startsWith; p_endsWith; p_in; p_notIn; p_between; p_and; p_or; p_nested; p_trueAnd; p_falseAnd;
     p_trueOr; p_falseOr; p_function; p_complex].

(** ** Every step of the suite passes *)
Section PredicatesPass.
Context {CD : Conditions} {CL : ConditionLaws} (long : 64 <= like_limit).
Context {S : Type} `{StdWhat} {J : NlohmannJson} {JB : JsonBooleans}.
Context (now : Z) (db : Database S) (type_name : FieldType -> bytes) {UT : UsersTable now db (script now)}.
#[local] Abbreviation UserM := (User now).
#[local] Abbreviation Db := (Some db).

(** The rows that the step before has left, and leaves. *)
Definition keeps_table (L : list Object) (m : M S unit) : Prop :=
  forall s, table s = L -> exists s', m s = (Ret tt, s') /\ table s' = L.

Lemma keeps_expect L b msg (k : unit -> M S unit) : b = true -> keeps_table L (k tt) -> keeps_table L (u ← expect b msg; k u).
Proof. intros -> Hk s Hs. exact (Hk s Hs). Qed.

Lemma keeps_expect_end L b msg : b = true -> keeps_table L (expect b msg).
Proof. intros -> s Hs. by exists s. Qed.

Lemma keeps_lift {A} L (o : outcome A) a (k : A -> M S unit) : o = Ret a -> keeps_table L (k a) -> keeps_table L (x ← lift o; k x).
Proof. intros -> Hk s Hs. exact (Hk s Hs). Qed.

Lemma hydrate_all (os : list Object) (rs : list Row) : Forall (object_of UserM) os -> rs ≡ₚ map (row_of UserM) os ->
  exists os', hydrate_rows (hydrateModelRow type_name UserM) rs = Ret os' /\ os' ≡ₚ map setPersisted os.
Proof.
  intros Ho P. apply Permutation_map_inv in P as (os2 & -> & P2).
  assert (Forall (object_of UserM) os2) as Ho2 by (rewrite <- P2; done). exists (map setPersisted os2). split; [|by rewrite P2].
  pose proof (demo_models_ok_each now) as (Um & _). clear -Ho2 Um.
  induction Ho2 as [|o os2 Ho _ IH]; [done|]. cbn [map hydrate_rows]. rewrite hydrateModelRow_row_of by done. cbn [mbind outcome_bind]. by rewrite IH.
Qed.

Lemma keeps_seq L (m : M S unit) (k : M S unit) : keeps_table L m -> keeps_table L k -> keeps_table L (_ ← m; k).
Proof. intros Hm Hk s Hs. destruct (Hm s Hs) as (s1 & E & Hs1). mstep E. by apply Hk. Qed.

(** A SELECT of the suite brings the objects that meet its condition. *)
Lemma keeps_select_rows L E q p context (k : list Object -> M S unit) :
  q = Ret p -> Ret p ∈ script now -> Forall (object_of UserM) L ->
  (exists sql ps, buildSelectSqlAndSetParams [UserM] 0 None (filter_query UserM p []) = Ret (sql, ps)) ->
  List.filter (fun o => meets (row_env "a" UserM o) p) L = E ->
  (forall rows, rows ≡ₚ map setPersisted E -> keeps_table L (k rows)) ->
  keeps_table L (rows ← select_rows now Db type_name q context; k rows).
Proof.
  intros -> Hin Ho (sql & ps & B) HE Hk s Hs.
  destruct (table_selects s p sql ps Hin B) as (r & s' & D & T & R). rewrite Hs, HE in R.
  destruct (hydrate_all E (rows r)) as (os & Hy & P); [|done|].
  { rewrite <- HE. rewrite Forall_forall in Ho |- *. intros o [Ho' _]%list_elem_of_In%filter_In. apply Ho. by apply list_elem_of_In. }
  assert (select_rows now Db type_name (Ret p) context s = (Ret os, s')) as Es.
  { unfold select_rows, unwrapped, select, WriteQueries.run, lift. cbv [mbind M_bind]. rewrite B. cbn [dispatch]. rewrite D.
    unfold hydrateModel. change (main_model [UserM]) with UserM. by rewrite Hy. }
  mstep Es. destruct (Hk os P s') as (s2 & E2 & T2); [congruence|]. eauto.
Qed.

(** Emptying, counting, and filling the table. *)
Lemma run_ok {A} statement sql ps (use : QueryResult -> outcome A) r a s s' :
  statement = Ret (sql, ps) -> db sql ps s = (Ret (inl r), s') -> use r = Ret a -> WriteQueries.run Db None statement use s = (Ret (inl a), s').
Proof. intros -> D U. unfold WriteQueries.run, lift. cbv [mbind M_bind]. cbn [dispatch]. by rewrite D, U. Qed.

Lemma unwrapped_ok {A} (call : M S (expected A)) context s s' a : call s = (Ret (inl a), s') -> unwrapped call context s = (Ret a, s').
Proof. intros E. unfold unwrapped. by mstep E. Qed.

Lemma written_nothing r : rows r = [] -> written type_name UserM r = Ret (affectedRows r, []).
Proof. intros E. unfold written, hydrateModel. by rewrite E. Qed.

Lemma destroy_empties : triple (fun _ => True) (bulkDestroy_all now Db type_name) (fun s => table s = []).
Proof.
  intros s _. destruct (table_deletes s _ _ eq_refl) as (r & s' & D & T & R & _). exists s'. split; [|done].
  unfold bulkDestroy_all.
  assert (unwrapped (bulkDestroy UserM Db type_name (pred_bool true) false None) "bulkDestroy" s = (Ret (affectedRows r, []), s')) as E; [|by mstep E].
  apply unwrapped_ok. eapply run_ok; [reflexivity|exact D|by apply written_nothing].
Qed.

Lemma count_empty s : table s = [] -> exists s', count_users now Db type_name s = (Ret 0%Z, s') /\ table s' = [].
Proof.
  intros Hs. destruct (table_counts s _ _ eq_refl) as (r & row & s' & D & T & R & V). rewrite Hs in T, V. exists s'. split; [|done].
  unfold count_users.
  assert (unwrapped (count Db type_name [UserM] (queryAll UserM []) None) "count" s = (Ret (FInt 0), s')) as E; [|by mstep E].
  apply unwrapped_ok. eapply run_ok; [reflexivity|exact D|]. unfold result_at. rewrite R.
  change ([row] !! 0) with (Some row). cbn [mbind outcome_bind].
  unfold as_index, value_at. by rewrite V.
Qed.

Lemma cleanup_empties msg :
  triple (fun _ => True) (_ ← bulkDestroy_all now Db type_name; n ← count_users now Db type_name; expect (n =? 0)%Z msg) (fun s => table s = []).
Proof.
  intros s Hs. destruct (destroy_empties s Hs) as (s1 & E1 & T1). destruct (count_empty s1 T1) as (s2 & E2 & T2).
  exists s2. mstep E1. by mstep E2.
Qed.

Lemma seed_fills : triple (fun s => table s = []) (seed_step now Db type_name)
  (fun s => exists keys, Forall key_ok keys /\ length keys = 5 /\ table s = zip_with stored_user keys seed_users).
Proof.
  intros s Hs. destruct (table_inserts s _ _ eq_refl) as (r & s' & keys & D & K & L & T & R & A). rewrite Hs in T.
  exists s'. split; [|by exists keys]. unfold seed_step.
  assert (unwrapped (bulkInsert UserM Db type_name seed_users false None) "bulkInsert" s = (Ret (5%Z, []), s')) as E; [|by mstep E].
  apply unwrapped_ok. eapply run_ok; [reflexivity|exact D|]. rewrite written_nothing by done. by rewrite A.
Qed.

(** *** The five users, whatever their identifiers and times *)
Definition mask {A} (bs : list bool) (l : list A) : list A := map snd (List.filter fst (zip bs l)).

Lemma filter_mask {A} (f : A -> bool) l bs : map f l = bs -> List.filter f l = mask bs l.
Proof.
  intros <-. induction l as [|a l IH]; [done|]. unfold mask in *. cbn. destruct (f a); cbn; by rewrite IH.
Qed.

Definition fits_type (t : CppType) (v : Field) : Prop := width_ok (raw t) /\ has_type t v /\ keeps (raw t) v.

Lemma fits_int b n : (- 2 ^ 63 <= n < 2 ^ 63)%Z -> fits_type {| raw := TInt true 64; optional := b |} (FInt n).
Proof. intros Hn. split; [done|]. split; [apply in_range_spec; cbn; lia|]. cbn. lia. Qed.

Lemma fits_text v : v = FNone \/ (exists t, v = FText t) -> fits_type opt_text v.
Proof. intros [->|[t ->]]; by split_and!. Qed.

Lemma fits_age v : v = FNone \/ (exists n, v = FInt n /\ (- 2 ^ 63 <= n < 2 ^ 63)%Z) -> fits_type opt_int64 v.
Proof. intros [->|(n & -> & Hn)]; [by split_and!|by apply fits_int]. Qed.

Lemma column_fits (o : Object) c v : member o (fieldPtr c) = v -> fits_type (fieldType c) v ->
  width_ok (raw (fieldType c)) /\ has_type (fieldType c) (member o (fieldPtr c)) /\ keeps (raw (fieldType c)) (member o (fieldPtr c)).
Proof. by intros ->. Qed.

Lemma stored_object_of k name email age password : key_ok k ->
  (forall v, v ∈ [name; email; password] -> v = FNone \/ exists t, v = FText t) ->
  (age = FNone \/ exists n, age = FInt n /\ (- 2 ^ 63 <= n < 2 ^ 63)%Z) ->
  object_of UserM (stored_user k (new_user name email age password)).
Proof.
  intros Hk Ht Ha. destruct k as [[i c] u], Hk as (Hi & Hc & Hu). cbn [fst snd] in Hi, Hc, Hu. split.
  - intros p. transitivity (p ∈ [0; 1; 2; 3; 4; 5; 6; 7; 8]); [|cbn; set_solver]. split.
    + intros [v Hv]. destruct (decide (p ∈ [0; 1; 2; 3; 4; 5; 6; 7; 8])) as [|N]; [done|]. exfalso.
      revert Hv. cbn [stored_user new_user members]. rewrite !lookup_insert_ne by (intros <-; apply N; set_solver).
      rewrite not_elem_of_list_to_map_1; [done|]. cbn. done.
    + intros Hp. apply list_elem_of_In in Hp. repeat destruct Hp as [<-|Hp]; first [by destruct Hp|eexists; reflexivity].
  - set (o := stored_user (i, c, u) (new_user name email age password)). unfold User. cbn [model_columns].
    repeat apply Forall_cons_2; [| | | | | | | | |apply Forall_nil_2].
    + apply (column_fits o _ (FInt i)); [reflexivity|by apply fits_int].
    + apply (column_fits o _ email); [reflexivity|apply fits_text, Ht; set_solver].
    + apply (column_fits o _ name); [reflexivity|apply fits_text, Ht; set_solver].
    + apply (column_fits o _ age); [reflexivity|by apply fits_age].
    + apply (column_fits o _ FNone); [reflexivity|apply fits_age; by left].
    + apply (column_fits o _ FNone); [reflexivity|apply fits_age; by left].
    + apply (column_fits o _ password); [reflexivity|apply fits_text, Ht; set_solver].
    + apply (column_fits o _ (FInt c)); [reflexivity|by apply fits_int].
    + apply (column_fits o _ (FInt u)); [reflexivity|by apply fits_int].
Qed.

Context (k1 k2 k3 k4 k5 : Z * Z * Z) (keys_ok : Forall key_ok [k1; k2; k3; k4; k5]).
Definition seeded : list Object := zip_with stored_user [k1; k2; k3; k4; k5] seed_users.

Lemma seeded_objects : Forall (object_of UserM) seeded.
Proof.
  pose proof keys_ok as K. rewrite !Forall_cons in K. destruct K as (H1 & H2 & H3 & H4 & H5 & _).
  repeat apply Forall_cons_2; try apply Forall_nil_2; apply stored_object_of; try done.
  all: first [by left|(right; eexists; split; [reflexivity|lia])|(intros v Hv; apply list_elem_of_In in Hv)].
  all: repeat (destruct Hv as [<-|Hv]; [first [by left|(right; by eexists)]|]); by destruct Hv.
Qed.

(** Which of the users meet a condition. *)
Lemma seeded_filter p bs : forallb (fun o => settled (row_env "a" UserM o) p) seeded = true ->
  (forall lt, lt = id \/ lt = tolower -> map (fun o => meets (CD := plain_with lt) (row_env "a" UserM o) p) seeded = bs) ->
  List.filter (fun o => meets (row_env "a" UserM o) p) seeded = mask bs seeded.
Proof.
  intros Hs Hm. apply filter_mask. rewrite <- (Hm letter letter_case). apply map_ext_in. intros o Ho.
  rewrite forallb_forall in Hs. apply settled_meets; [done|]. by apply Hs.
Qed.

Lemma keeps_first L rows o n msg (k : unit -> M S unit) : rows ≡ₚ [o] -> name_equals n o = true -> keeps_table L (k tt) ->
  keeps_table L (u ← expect_first rows n msg; k u).
Proof. intros ->%Permutation_singleton_r Hn. by apply keeps_expect. Qed.

Lemma keeps_first_end L rows o n msg : rows ≡ₚ [o] -> name_equals n o = true -> keeps_table L (expect_first rows n msg).
Proof. intros ->%Permutation_singleton_r Hn. by apply keeps_expect_end. Qed.

Ltac by_select i bs :=
  lazymatch goal with
  | |- keeps_table _ (mbind _ (select_rows _ _ _ ?q _)) =>
      let q' := eval lazy in q in
      lazymatch q' with
      | Ret ?p =>
          apply (keeps_select_rows seeded (mask bs seeded) q p);
          [ reflexivity
          | apply list_elem_of_lookup; exists i; reflexivity
          | apply seeded_objects
          | eexists _, _; reflexivity
          | apply seeded_filter; [vm_compute; reflexivity|intros lt [->| ->]; vm_compute; reflexivity]
          | let R := fresh "rows" in let P := fresh "P" in intros R P ]
      end
  end.
Ltac by_text := unfold expect_text; eapply keeps_lift; [reflexivity|]; eapply keeps_lift; [reflexivity|]; apply keeps_expect_end; reflexivity.
Ltac by_length := unfold expect_rows; first [apply keeps_expect | apply keeps_expect_end];
  [match goal with P : _ ≡ₚ _ |- _ => rewrite (Permutation_length P); reflexivity end|..].
Ltac by_first := first [eapply keeps_first | eapply keeps_first_end]; 
  [match goal with P : _ ≡ₚ _ |- _ => exact P end|reflexivity|..].

Lemma equals_passes : keeps_table seeded (equals_step now Db type_name).
Proof. unfold equals_step. by_select 0 [true; false; false; false; false]. by_length. by_first. by_text. Qed.
Lemma notEquals_passes : keeps_table seeded (notEquals_step now Db type_name).
Proof. unfold notEquals_step. by_select 1 [false; true; true; true; true]. by_length. by_text. Qed.
Lemma greater_passes : keeps_table seeded (greater_step now Db type_name).
Proof. unfold greater_step. by_select 2 [false; false; true; true; false]. by_length. by_text. Qed.
Lemma lesser_passes : keeps_table seeded (lesser_step now Db type_name).
Proof. unfold lesser_step. by_select 3 [true; false; false; false; false]. by_length. by_first. by_text. Qed.
Lemma greaterOrEqual_passes : keeps_table seeded (greaterOrEqual_step now Db type_name).
Proof. unfold greaterOrEqual_step. by_select 4 [false; false; true; true; false]. by_length. by_text. Qed.
Lemma lesserOrEqual_passes : keeps_table seeded (lesserOrEqual_step now Db type_name).
Proof. unfold lesserOrEqual_step. by_select 5 [true; true; false; false; false]. by_length. by_text. Qed.
Lemma isNull_passes : keeps_table seeded (isNull_step now Db type_name).
Proof. unfold isNull_step. by_select 6 [false; false; false; false; true]. by_length. by_first. by_text. Qed.
Lemma isNotNull_passes : keeps_table seeded (isNotNull_step now Db type_name).
Proof. unfold isNotNull_step. by_select 7 [true; true; true; true; false]. by_length. by_text. Qed.
Lemma like_passes : keeps_table seeded (like_step now Db type_name).
Proof. unfold like_step. by_select 8 [true; false; false; false; false]. by_length. by_first. by_text. Qed.
Lemma ilike_passes : keeps_table seeded (ilike_step now Db type_name).
Proof. unfold ilike_step. by_select 9 [true; false; false; false; false]. by_length. by_first. by_text. Qed.
Lemma contains_passes : keeps_table seeded (contains_step now Db type_name).
Proof. unfold contains_step. by_select 10 [true; false; true; false; false]. by_length. by_text. Qed.
Lemma iContains_passes : keeps_table seeded (iContains_step now Db type_name).
Proof. unfold iContains_step. by_select 11 [true; false; false; false; false]. by_length. by_first. by_text. Qed.
Lemma startsWith_passes : keeps_table seeded (startsWith_step now Db type_name).
Proof. unfold startsWith_step. by_select 12 [true; false; false; false; false]. by_length. by_first. Qed.
Lemma endsWith_passes : keeps_table seeded (endsWith_step now Db type_name).
Proof. unfold endsWith_step. by_select 13 [true; false; true; false; false]. by_length. Qed.
Lemma in_passes : keeps_table seeded (in_step now Db type_name).
Proof. unfold in_step. by_select 14 [true; false; true; false; true]. by_length. by_text. Qed.
Lemma notIn_passes : keeps_table seeded (notIn_step now Db type_name).
Proof. unfold notIn_step. by_select 15 [false; false; true; true; true]. by_length. by_text. Qed.
Lemma between_passes : keeps_table seeded (between_step now Db type_name).
Proof. unfold between_step. by_select 16 [false; true; true; false; false]. by_length. by_text. Qed.
Lemma and_passes : keeps_table seeded (and_step now Db type_name).
Proof. unfold and_step. by_select 17 [false; true; true; false; false]. by_length. by_text. Qed.
Lemma or_passes : keeps_table seeded (or_step now Db type_name).
Proof. unfold or_step. by_select 18 [true; false; false; false; true]. by_length. by_text. Qed.
Lemma nested_passes : keeps_table seeded (nested_step now Db type_name).
Proof. unfold nested_step. by_select 19 [false; false; true; true; true]. by_length. Qed.
Lemma true_false_passes : keeps_table seeded (true_false_step now Db type_name).
Proof.
  unfold true_false_step. by_select 20 [true; false; false; false; false]. by_length. by_select 21 [false; false; false; false; false]. by_length.
  by_select 22 [true; true; true; true; true]. by_length. by_select 23 [true; false; false; false; false]. by_length.
Qed.
Lemma aliased_passes : keeps_table seeded (aliased_step now).
Proof. unfold aliased_step. by_text. Qed.
Lemma function_passes : keeps_table seeded (function_step now Db type_name).
Proof.
  unfold function_step. apply keeps_seq; [by_text|].
  by_select 24 [true; false; true; false; false]. by_length.
Qed.
Ltac by_resolve := unfold resolved_text; intros s Hs; eexists; split; [reflexivity|done].
Lemma resolve_passes : keeps_table seeded (resolve_step (S := S) now).
Proof. by_resolve. Qed.
Lemma ordering_passes : keeps_table seeded (ordering_step (S := S) now).
Proof. by_resolve. Qed.
Lemma field_comparison_passes : keeps_table seeded (field_comparison_step (S := S) now).
Proof. by_resolve. Qed.
Lemma empty_in_passes : keeps_table seeded (empty_in_step (S := S) now).
Proof. by_resolve. Qed.

Lemma each_passes L rows : Forall (fun o => exists n, member o 1 = FText n /\ name_equals "Alice" o || name_equals "Charlie" o = true) rows ->
  keeps_table L (expect_each rows).
Proof.
  induction 1 as [|o rows (n & E & N) _ IH]; [intros s Hs; by exists s|]. cbn [expect_each]. rewrite E. by apply keeps_expect.
Qed.

Lemma complex_passes : keeps_table seeded (complex_step now Db type_name).
Proof.
  unfold complex_step. by_select 25 [true; false; true; false; false]. by_length. apply each_passes. rewrite P.
  repeat apply Forall_cons_2; [eexists; split; reflexivity..|apply Forall_nil_2].
Qed.
End PredicatesPass.

Section PredicatesSuite.
Context {CD : Conditions} {CL : ConditionLaws} (long : 64 <= like_limit).
Context {S : Type} `{StdWhat} {J : NlohmannJson} {JB : JsonBooleans}.
Context (now : Z) (db : Database S) (type_name : FieldType -> bytes) {UT : UsersTable now db (script now)}.

(** The five users are in the table. *)
Definition has_seeded (s : S) : Prop := exists keys, Forall key_ok keys /\ length keys = 5 /\ table s = zip_with stored_user keys seed_users.

Lemma seeded_triple m :
  (forall k1 k2 k3 k4 k5, Forall key_ok [k1; k2; k3; k4; k5] -> keeps_table now db (seeded k1 k2 k3 k4 k5) m) ->
  triple has_seeded m has_seeded.
Proof.
  intros Hm s (keys & K & Len & T). destruct keys as [|k1 [|k2 [|k3 [|k4 [|k5 [|]]]]]]; try done.
  destruct (Hm k1 k2 k3 k4 k5 K s T) as (s' & E & T'). exists s'. split; [done|]. by exists [k1; k2; k3; k4; k5].
Qed.

Tactic Notation "next" uconstr(passes) := apply (proceeds_step has_seeded has_seeded); [apply seeded_triple; intros; by apply passes|].

Lemma predicates_proceed :
  proceeds (fun _ => True) (predicates_parts now (Some db) type_name) (fun s => table s = []).
Proof.
  unfold predicates_parts. eapply proceeds_step; [by apply cleanup_empties|]. eapply proceeds_step; [by apply seed_fills|].
  next equals_passes. next notEquals_passes. next greater_passes. next lesser_passes. next greaterOrEqual_passes.
  next lesserOrEqual_passes. next isNull_passes. next isNotNull_passes. next like_passes. next ilike_passes.
  next contains_passes. next iContains_passes. next startsWith_passes. next endsWith_passes. next in_passes. next notIn_passes.
  next between_passes. next and_passes. next or_passes. next nested_passes. next true_false_passes. next aliased_passes.
  next function_passes. next resolve_passes. next ordering_passes. next field_comparison_passes. next complex_passes.
  next empty_in_passes.
  eapply proceeds_step; [|apply proceeds_nil]. intros s _. by apply cleanup_empties.
Qed.

(** C37: The suite of conditions passes on every database that keeps the laws, whichever
    the state it starts in, the order in which a SELECT brings the rows, and whether LIKE
    tells capitals apart: each of the 31 steps finds what it expects, the answer is 200
    with all steps passed, and the table of users is empty. *)
Theorem predicates_test_passes s :
  exists s', predicates_test now (Some db) type_name s = (all_passed_answer (step_names (predicates_parts now (Some db) type_name)), s') /\
    table s' = [] /\ length (step_names (predicates_parts now (Some db) type_name)) = 31.
Proof.
  destruct (proceeds_suite _ _ _ s predicates_proceed I) as (s' & E & T). by exists s'.
Qed.
End PredicatesSuite.

(** ** Examples

    A database that keeps the laws: a list of users, and the statements of the suite. *)
Module PredicateTestWitnesses.
Import JsonWitnesses.

#[export] Instance plain_what : StdWhat := fun _ => [].

#[export] Instance doc_booleans : JsonBooleans.
Proof.
  refine {| get_bool j := match j : @json doc_json with DBool b => Ret b | _ => Throw (RuntimeError "type_error") end |}; [done|].
  intros k v l _ E. change (Ret (default DNull (assoc_first k l)) = (Ret v : outcome doc)). by rewrite E.
Defined.

Definition statement (p : BasePredicate) : outcome (bytes * list DbValue) :=
  buildSelectSqlAndSetParams [User 0] 0 None (filter_query (User 0) p []).

Definition is_statement (sql : bytes) (ps : list DbValue) (p : BasePredicate) : bool :=
  match statement p with Ret (sql', ps') => bool_decide (sql = sql' /\ ps = ps') | _ => false end.

Definition conditions : list BasePredicate := omap (fun q => match q with Ret p => Some p | _ => None end) (script 0).
Definition condition_of (sql : bytes) (ps : list DbValue) : option BasePredicate := List.find (is_statement sql ps) conditions.

Definition is_text (o : outcome (bytes * list DbValue)) (sql : bytes) : bool :=
  match o with Ret (text, _) => sql =?b text | _ => false end.
Definition count_text : outcome (bytes * list DbValue) :=
  '(sql, ps) ← buildSelectSqlAndSetParams [User 0] 0 None (queryAll (User 0) []); Ret ("SELECT COUNT(*) FROM (" ++ sql ++ ")", ps).

Definition answer_rows (n : nat) (l : list Row) : QueryResult := {| affectedRows := Z.of_nat n; rows := l; result_columns := ∅ |}.
Definition new_keys : list (Z * Z * Z) := [(1, 0, 0); (2, 0, 0); (3, 0, 0); (4, 0, 0); (5, 0, 0)]%Z.

Definition list_db : Database (list Object) := fun sql ps s =>
  match condition_of sql ps with
  | Some p => (Ret (inl (answer_rows 0 (map (row_of (User 0)) (List.filter (fun o => meets (row_env "a" (User 0) o) p) s)))), s)
  | None =>
      if is_text count_text sql
      then (Ret (inl (answer_rows 0 [{| DbValue.values := [VInt (Z.of_nat (length s))]; DbValue.columns := ∅ |}])), s)
      else if is_text (buildDeleteSqlAndSetParams (User 0) (Some (pred_bool true)) false) sql
      then (Ret (inl (answer_rows (length s) [])), [])
      else if is_text (buildInsertSqlAndSetParams (User 0) seed_users false) sql
      then (Ret (inl (answer_rows 5 [])), s ++ zip_with stored_user new_keys seed_users)
      else (Ret (inr {| type := QUERY_ERROR; message := sql |}), s)
  end.

Lemma condition_found p sql ps : Ret p ∈ script 0 -> statement p = Ret (sql, ps) -> condition_of sql ps = Some p.
Proof.
  intros Hp. assert (p ∈ conditions) as Hc by (apply list_elem_of_omap; eauto). clear Hp. revert sql ps.
  apply list_elem_of_In in Hc. vm_compute in Hc.
  repeat (destruct Hc as [<-|Hc]; [intros sql ps E; vm_compute in E; injection E as <- <-; vm_compute; reflexivity|]). by destruct Hc.
Qed.

#[export] Instance list_table : UsersTable 0 list_db (script 0).
Proof.
  refine {| table := fun s : list Object => s |}.
  - intros s p sql ps Hp E. unfold list_db. rewrite (condition_found p sql ps Hp E). by do 2 eexists.
  - intros s sql ps E. injection E as <- <-. do 3 eexists. split; [reflexivity|]. done.
  - intros s sql ps E. injection E as <- <-. do 2 eexists. split; [reflexivity|]. done.
  - intros s sql ps E. injection E as <- <-. exists (answer_rows 5 []), (s ++ zip_with stored_user new_keys seed_users), new_keys.
    split; [reflexivity|]. split; [|done]. repeat apply Forall_cons_2; [..|apply Forall_nil_2]; (split_and!; cbn; lia).
Defined.

Lemma predicates_test_passes_witness :
  exists s', predicates_test 0 (Some list_db) (fun _ => []) [] =
    (all_passed_answer (step_names (predicates_parts 0 (Some list_db) (fun _ => []))), s') /\ s' = [].
Proof.
  destruct (predicates_test_passes (ltac:(by apply Nat.leb_le) : 64 <= like_limit) 0 list_db (fun _ => []) []) as (s' & E & T & _).
  exists s'. split; [exact E|exact T].
Defined.
End PredicateTestWitnesses.
