(* ===== verification/CteTests.v ===== *)
(** The demo's checks of common table expressions ([app/src/routes/ormTestRoutes.cpp],
    GET /tests/orm/cte_test): the queries of the steps, with the texts they become, and
    the handler over its local users. *)
From S2P Require Import Prelude Bytes Effects DbValue Model Predicate SelectQuery WriteQueries ActiveRecord DemoModels Json TestRunner SuiteState PredicateTests.
From S2P Require HttpResponse.

#[local] Arguments list_ascii_of_string : simpl never.

(** ** The queries *)
Section Queries.
Context (now : Z).
#[local] Abbreviation UserM := (User now).
#[local] Abbreviation Pu := (default_resolve [User now]).

(** [User::filter(condition)] *)
Definition filtered_by (p : outcome BasePredicate) : outcome SelectQuery := p ← p; Ret (filter_query UserM p []).
Definition with_cte (name : bytes) (query : outcome SelectQuery) (t : CteType) (q : outcome SelectQuery) : outcome SelectQuery :=
  query ← query; q ← q; withCte [UserM] name query t q.
Definition all_columns (alias : bytes) (q : outcome SelectQuery) : outcome SelectQuery := q ← q; allColumns [UserM] 0 alias [] q.
Definition from_ (table alias : bytes) (q : outcome SelectQuery) : outcome SelectQuery := from table alias <$> q.
Definition column_ (name alias as_ : bytes) (q : outcome SelectQuery) : outcome SelectQuery := column name alias as_ <$> q.
Definition join_ (table : bytes) (p : BasePredicate) (alias : bytes) (q : outcome SelectQuery) : outcome SelectQuery :=
  q ← q; join_table_name table p alias INNER q.

Definition adults (limit : Z) : outcome SelectQuery := filtered_by (greaterOrEqual Pu age_ (FInt limit) []).

Definition basic_query : outcome SelectQuery :=
  all_columns [] (from_ "adults" "a" (with_cte "adults" (adults 18) NONRECURSIVE (filtered_by (lesser Pu age_ (FInt 30) [])))).

Definition nested_query : outcome SelectQuery :=
  let adultUsers := filtered_by (greater Pu age_ (FInt 18) []) in
  let adultUsersBelow30 :=
    q ← from_ "adults" "a" (all_columns [] (with_cte "adults" adultUsers NONRECURSIVE (Ret (queryAll UserM []))));
    p ← lesser Pu age_ (FInt 30) [];
    Ret (select_where p q) in
  from_ "adultsBelow30" "a" (all_columns [] (with_cte "adultsBelow30" adultUsersBelow30 NONRECURSIVE (Ret (queryAll UserM [])))).

Definition motherStats : outcome SelectQuery :=
  q ← field [UserM] mother_ [] [] (queryAll UserM []);
  q ← functionField [UserM] "COUNT" id_ [] "childCount" q;
  p ← isNotNull Pu mother_ [];
  groupBy [UserM] mother_ [] (select_where p q).

Definition join_query : outcome SelectQuery :=
  q ← with_cte "motherStats" motherStats NONRECURSIVE (Ret (queryAll UserM "u"));
  q ← field [UserM] name_ "u" "name" q;
  q ← join_ "motherStats" (pred_raw "u.id" EQUALS "ms.mother" []) "ms" (Ret (column "childCount" "ms" "childCount" q));
  Ret (orderBy_column "childCount" DESC "ms" q).

Definition multiple_query : outcome SelectQuery :=
  q ← with_cte "motherStats" motherStats NONRECURSIVE (with_cte "adults" (adults 18) NONRECURSIVE (Ret (queryAll UserM [])));
  q ← join_ "motherStats" (pred_raw "a.id" EQUALS "ms.mother" []) "ms"
        (from_ "adults" "a" (column_ "childCount" "ms" [] (column_ "age" "a" [] (column_ "name" "a" [] (Ret q)))));
  Ret (orderBy_column "childCount" DESC "ms" q).

Definition referenced_query : outcome SelectQuery :=
  join_ "adults" (pred_raw "a.best_friend" EQUALS "b.id" []) "b"
    (from_ "adults" "a" (column_ "name" "b" "friendname" (column_ "name" "a" "username"
      (with_cte "adults" (adults 18) NONRECURSIVE (Ret (queryAll UserM [])))))).

Definition unused_query : outcome SelectQuery := with_cte "adults" (adults 18) NONRECURSIVE (Ret (queryAll UserM [])).

Definition fake_cte : Cte := {| cte_name := "users"; cte_sql := "SELECT 123 as id, 'fake' as name"; cte_params := []; cte_type := NONRECURSIVE |}.
Definition collision_query : outcome SelectQuery :=
  q ← withCte_text fake_cte (queryAll UserM []); from_ "users" "u" (column_ "name" "u" [] (column_ "id" "u" [] (Ret q))).

Definition chain_query : outcome SelectQuery :=
  let youngAdults := from_ "adults" "b" (all_columns "b" (filtered_by (lesser Pu age_ (FInt 30) "b"))) in
  let namedAdults := from_ "youngAdults" "y" (all_columns "y" (filtered_by (isNotNull Pu name_ "y"))) in
  from_ "namedAdults" "a" (column_ "name" "a" []
    (with_cte "namedAdults" namedAdults NONRECURSIVE (with_cte "youngAdults" youngAdults NONRECURSIVE
      (with_cte "adults" (adults 18) NONRECURSIVE (Ret (queryAll UserM [])))))).

(** The user converts to its identifier. *)
Definition ancestors_query (user : Object) : outcome SelectQuery :=
  let base := filtered_by (equals Pu id_ (member user 0) []) in
  let recursive := p ← equals_fields Pu id_ mother_ ("a" : bytes, "x" : bytes); join_ "ancestors" p "x" (Ret (queryAll UserM [])) in
  let union := b ← base; r ← recursive; Ret (unionQuery [UserM] b r) in
  from_ "ancestors" "a" (all_columns [] (with_cte "ancestors" union RECURSIVE (Ret (SelectQuery_default [UserM])))).

Definition statement_of (q : outcome SelectQuery) : outcome (bytes * list DbValue) := q ← q; buildSelectSqlAndSetParams [UserM] 0 None q.
End Queries.

(** What the queries say: the parameters of the CTEs come before those of the query. *)
Definition columns_as (a : bytes) : bytes :=
  comma_list (map (fun n => a ++ "." ++ n) (literals ["id"; "email"; "name"; "age"; "best_friend"; "mother"; "password"; "created_at"; "updated_at"])).

Lemma cte_statements now user n : member user 0 = FInt n ->
  let all := " SELECT " ++ columns_as "a" ++ " FROM " in
  let adults_cte := "adults AS ( " ++ all ++ "users AS a WHERE  a.age >= ?   ) " : bytes in
  let stats_cte := "motherStats AS (  SELECT a.mother, COUNT(a.id) AS childCount FROM users AS a WHERE  a.mother IS NOT NULL GROUP BY a.mother  ) " : bytes in
  statement_of now (basic_query now) = Ret ("WITH " ++ adults_cte ++ all ++ "adults AS a WHERE  a.age < ?  ", [VInt 18; VInt 30]) /\
  statement_of now (nested_query now) =
    Ret ("WITH adultsBelow30 AS ( WITH adults AS ( " ++ all ++ "users AS a WHERE  a.age > ?   ) " ++ all ++
         "adults AS a WHERE  a.age < ?   ) " ++ all ++ "adultsBelow30 AS a ", [VInt 18; VInt 30]) /\
  statement_of now (join_query now) =
    Ret ("WITH " ++ stats_cte ++ " SELECT u.name AS name, ms.childCount AS childCount FROM users AS u JOIN motherStats AS ms ON  u.id = ms.mother  ORDER BY ms.childCount DESC ", []) /\
  statement_of now (multiple_query now) =
    Ret ("WITH " ++ adults_cte ++ " , " ++ stats_cte ++
         " SELECT a.name, a.age, ms.childCount FROM adults AS a JOIN motherStats AS ms ON  a.id = ms.mother  ORDER BY ms.childCount DESC ", [VInt 18]) /\
  statement_of now (referenced_query now) =
    Ret ("WITH " ++ adults_cte ++ " SELECT a.name AS username, b.name AS friendname FROM adults AS a JOIN adults AS b ON  a.best_friend = b.id  ", [VInt 18]) /\
  statement_of now (unused_query now) = Ret ("WITH " ++ adults_cte ++ all ++ "users AS a ", [VInt 18]) /\
  statement_of now (collision_query now) = Ret ("WITH users AS ( SELECT 123 as id, 'fake' as name )  SELECT u.id, u.name FROM users AS u " : bytes, []) /\
  statement_of now (chain_query now) =
    Ret ("WITH " ++ adults_cte ++ " , youngAdults AS (  SELECT " ++ columns_as "b" ++ " FROM adults AS b WHERE  b.age < ?   )  , namedAdults AS (  SELECT " ++
         columns_as "y" ++ " FROM youngAdults AS y WHERE  y.name IS NOT NULL  )  SELECT a.name FROM namedAdults AS a ", [VInt 18; VInt 30]) /\
  statement_of now (ancestors_query now user) =
    Ret ("WITH  RECURSIVE ancestors AS ( " ++ all ++ "users AS a WHERE  a.id = ?   UNION " ++ all ++
         "users AS a JOIN ancestors AS x ON  a.id = x.mother    ) " ++ all ++ "ancestors AS a ", [VInt (to_int64 n)]).
Proof.
  intros E. cbv zeta. unfold ancestors_query. rewrite E. split_and!; reflexivity.
Qed.

(** ** The handler: seven local users beside the state of the database *)
Inductive local := Alice | Betty | Bob | Charlie | Diana | Jack | Johnny.
#[export] Instance local_eq_dec : EqDecision local.
Proof. solve_decision. Defined.

Section CteTest.
Context {S : Type} `{StdWhat} {J : NlohmannJson} {JB : JsonBooleans}.
Context (now : Z) (db : option (Database S)) (type_name : FieldType -> bytes).
#[local] Abbreviation UserM := (User now).

#[local] Abbreviation CteState := (SuiteState S local).
#[local] Abbreviation step := (M CteState unit).

(** [x = {.name = ...}] *)
Definition assign_user (x : local) (name email : bytes) (age : Z) : step := assign_local x (new_user (FText name) (FText email) (FInt age) FNone).

Definition save_local (x : local) (context : bytes) : step := save_in type_name UserM db None x context.

(** [x.mother = y], by the conversion of [y] to its key. *)
Definition set_mother (x y : local) : step := set_to_key x 5 y.
Definition set_bestFriend (x y : local) : step := set_to_key x 4 y.

(** The rows of a query, and its result as it is. *)
Definition selected_by (q : outcome SelectQuery) : M CteState (list Object) :=
  q ← lift q; on_database (unwrapped (select db type_name [UserM] q None) "selecting users").
Definition executed (q : outcome SelectQuery) : M CteState QueryResult :=
  q ← lift q; on_database (unwrapped (execute db [UserM] q None) "selecting users").
Definition tuples (types : list (CppType * bytes)) (r : QueryResult) : M CteState (list (list Field)) := lift (hydrateTuple type_name types r).
Definition expect_count {A} (rows : list A) (n : nat) (msg : bytes) : step := expect (length rows =? n) msg.

Definition cte_cleanup_step : step :=
  _ ← on_database (unwrapped (bulkDestroy UserM db type_name (pred_bool true) false None) "User bulkDestroy");
  n ← on_database (count_users now db type_name); expect (n =? 0)%Z "users not empty".

Definition cte_seed_step : step :=
  _ ← assign_user Alice "Alice" "alice@example.com" 55;
  _ ← assign_user Betty "Betty" "betty@example.com" 17;
  _ ← assign_user Bob "Bob" "bob@example.com" 28;
  _ ← assign_user Charlie "Charlie" "charlie@example.com" 25;
  _ ← assign_user Diana "Diana" "diana@example.com" 35;
  _ ← assign_user Jack "Jack" "jack@example.com" 17;
  _ ← assign_user Johnny "Johnny" "johnny@example.com" 1;
  _ ← save_local Alice "alice save"; _ ← save_local Betty "betty save"; _ ← save_local Bob "bob save";
  _ ← set_mother Charlie Alice; _ ← set_mother Diana Alice;
  _ ← save_local Charlie "charlie save"; _ ← save_local Diana "diana save";
  _ ← set_mother Jack Diana; _ ← set_mother Johnny Betty;
  _ ← save_local Jack "jack save"; _ ← save_local Johnny "johnny save";
  l ← gets locals;
  expect (forallb (fun x => positive_key (l x)) [Alice; Betty; Bob; Charlie; Diana; Jack; Johnny]) "ids not set".

Definition basic_step : step := rows ← selected_by (basic_query now); expect_count rows 2 "expected 2 adults below 30".
Definition nested_cte_step : step := rows ← selected_by (nested_query now); expect_count rows 2 "expected 2 adults below 30".

(** Between the steps. *)
Definition mothers_again : step :=
  _ ← set_mother Charlie Alice; _ ← set_mother Diana Alice; _ ← set_mother Jack Diana; _ ← set_mother Johnny Betty;
  _ ← save_local Charlie "charlie save"; _ ← save_local Diana "diana save"; _ ← save_local Jack "jack save"; save_local Johnny "johnny save".

Definition str : CppType := text.
Definition join_cte_step : step :=
  r ← executed (join_query now); rows ← tuples [(str, "name" : bytes); (int64, "childCount" : bytes)] r;
  expect_count rows 3 "expected 3 users with children".
Definition multiple_step : step :=
  r ← executed (multiple_query now); rows ← tuples [(str, "name" : bytes); (int64, "age" : bytes); (int64, "childCount" : bytes)] r;
  expect_count rows 2 "expected 2 adults with children".

Definition best_friends : step :=
  _ ← set_bestFriend Jack Betty; _ ← set_bestFriend Charlie Bob; _ ← set_bestFriend Diana Alice; _ ← set_bestFriend Bob Diana;
  _ ← save_local Jack "jack save"; _ ← save_local Charlie "charlie save"; _ ← save_local Diana "diana save"; save_local Bob "bob save".

Definition referenced_step : step :=
  r ← executed (referenced_query now); rows ← tuples [(str, "username" : bytes); (str, "friendname" : bytes)] r;
  expect_count rows 3 "expected 3 adults with best friends".
Definition unused_step : step := rows ← selected_by (unused_query now); expect_count rows 7 "expected 7 users".
Definition collision_step : step := r ← executed (collision_query now); expect (result_size r =? 1) "expected 1 row".
Definition chain_step : step := r ← executed (chain_query now); expect (result_size r =? 2) "expected 2 users".

Definition ancestors_of (x : local) (context : bytes) : M CteState (list Object) :=
  l ← gets locals; q ← lift (ancestors_query now (l x)); on_database (unwrapped (select db type_name [UserM] q None) context).
Definition recursive_step : step :=
  jacks ← ancestors_of Jack "selecting jack's ancestors"; _ ← expect_count jacks 3 "expected 3 ancestors";
  johnnys ← ancestors_of Johnny "selecting johnny's ancestors"; expect_count johnnys 2 "expected 2 ancestors".

Definition cte_final_step : step :=
  _ ← on_database (unwrapped (bulkDestroy UserM db type_name (pred_bool true) false None) "final User"); mret tt.

Definition cte_parts : list (part CteState) :=
  [Step "cleanup" cte_cleanup_step; Step "seed users" cte_seed_step; Step "basic CTE" basic_step; Step "CTE within CTE" nested_cte_step;
   Between mothers_again; Step "Join-ing with a CTE" join_cte_step; Step "Multiple CTEs" multiple_step; Between best_friends;
   Step "CTE referenced multiple times" referenced_step; Step "CTE unused" unused_step;
   Step "CTE name collision with tableName" collision_step; Step "CTE chain" chain_step;
   Step "Recursive CTE - Ancestors" recursive_step; Step "final cleanup" cte_final_step].

Definition cte_test : M S HttpResponse.HttpResponse := suite_with_locals cte_parts.
End CteTest.

(** The comment above the suites says that a failing step is recorded and the suite
    goes on; but the code between the steps is in none of them: with a database that
    refuses everything the route throws instead of answering. *)
Section Escapes.
Context {S : Type} `{StdWhat} {J : NlohmannJson} {JB : JsonBooleans}.
Context (now : Z) (type_name : FieldType -> bytes) (msg : bytes).
#[local] Abbreviation db := (Some (refusing (S := S) msg)).

(** The steps before the first code between steps fail, and nothing but their results changes. *)
Lemma refused_cleanup s : exists e, cte_cleanup_step now db type_name s = (Throw e, s).
Proof. destruct s. eexists. reflexivity. Qed.

Lemma refused_basic s : exists e, basic_step now db type_name s = (Throw e, s).
Proof. destruct s. eexists. reflexivity. Qed.

Lemma refused_nested s : exists e, nested_cte_step now db type_name s = (Throw e, s).
Proof. destruct s. eexists. reflexivity. Qed.

Lemma refused_seed s : exists e s', cte_seed_step now db type_name s = (Throw e, s') /\ suite_db s' = suite_db s /\
  exists s2, mothers_again now db type_name s' = (Throw (RuntimeError ("charlie save failed: " ++ msg)), s2) /\ suite_db s2 = suite_db s.
Proof. destruct s. eexists _, _. split; [reflexivity|]. split; [reflexivity|]. eexists. split; reflexivity. Qed.

(** The step after the failing ones is not reached, and no answer is made. *)
Lemma cte_test_escapes s : cte_test now db type_name s = (Throw (RuntimeError ("charlie save failed: " ++ msg)), s).
Proof.
  unfold cte_test, suite_with_locals. set (c := {| suite_db := s; locals := fun _ => default_object |}).
  destruct (refused_cleanup c) as (e0 & E0). destruct (refused_seed c) as (e1 & s1 & E1 & _ & s2 & E4 & Es2).
  destruct (refused_basic s1) as (e2 & E2). destruct (refused_nested s1) as (e3 & E3).
  unfold suite, cte_parts.
  erewrite (run_parts_throws "cleanup") by exact E0. erewrite (run_parts_throws "seed users") by exact E1.
  erewrite (run_parts_throws "basic CTE") by exact E2. erewrite (run_parts_throws "CTE within CTE") by exact E3.
  cbn [run_parts]. cbv [mbind M_bind unguarded]. rewrite E4. by rewrite Es2.
Qed.
End Escapes.
