(* ===== verification/RecordTests.v ===== *)
(** The demo's checks of single records, bulk operations and transactions
    ([app/src/routes/ormTestRoutes.cpp], GET /tests/orm/single_test), over any database
    with transactions. *)
From S2P Require Import Prelude Bytes Effects DbValue Model Predicate SelectQuery WriteQueries ActiveRecord DemoModels Json TestRunner SuiteState PredicateTests.
From S2P Require HttpResponse.

#[local] Arguments list_ascii_of_string : simpl never.

(** The locals that the steps share, and the one of the last step. *)
Inductive record := Greg | BobRecord | Carol.
#[export] Instance record_eq_dec : EqDecision record.
Proof. solve_decision. Defined.

Definition decimal (n : Z) : bytes := to_string n.

Section SingleTest.
Context {S : Type} `{StdWhat} {J : NlohmannJson} {JB : JsonBooleans}.
Context (now : Z) (d : IDatabase S) (type_name : FieldType -> bytes).
#[local] Abbreviation UserM := (User now).
#[local] Abbreviation PostM := (Post now).
#[local] Abbreviation db := (Some (executeQuery d)).
#[local] Abbreviation Pu := (default_resolve [UserM]).
#[local] Abbreviation RecordState := (SuiteState S record).
#[local] Abbreviation step := (M RecordState unit).

Definition save_record (transaction : option (Database S)) (x : record) : step := save_in type_name UserM db transaction x "save".

Definition destroy_all (m : Model) : M RecordState Z :=
  '(n, _) ← on_database (unwrapped (bulkDestroy m db type_name (pred_bool true) false None) "bulkDestroy"); mret n.
Definition count_all (m : Model) : M RecordState Z :=
  c ← on_database (unwrapped (count db type_name [m] (queryAll m []) None) "count");
  match c with FInt n => mret n | _ => undefined end.
Definition empty_table (m : Model) (msg : bytes) : step :=
  n ← count_all m; expect (n =? 0)%Z (msg ++ decimal n).

(** [unwrap(co_await User::find(x.id, transaction), context)] *)
Definition find_key (k : Field) (transaction : option (Database S)) (context : bytes) : M RecordState (option Object) :=
  on_database (unwrapped (find UserM db type_name [k] transaction) context).
Definition find_record (x : record) (transaction : option (Database S)) (context : bytes) : M RecordState (option Object) :=
  k ← local_key x; find_key k transaction context.

(** [found.has_value() && found->age == n] *)
Definition has_age (n : Z) (found : option Object) : bool :=
  match found with Some o => match member o 3 with FInt a => (a =? n)%Z | _ => false end | None => false end.
Definition the_found (found : option Object) : M RecordState Object := match found with Some o => mret o | None => undefined end.
Definition age_or (n : Z) (o : Object) : Z := match member o 3 with FInt a => a | _ => n end.
Definition no_value (o : Object) (p : nat) : bool := match member o p with FNone => true | _ => false end.
Definition name_or (n : bytes) (o : Object) : bytes := match member o 1 with FText t => t | _ => n end.

Definition record_cleanup_step : step :=
  _ ← destroy_all UserM; _ ← empty_table UserM "expected 0 rows after cleanup, got ";
  _ ← destroy_all PostM; empty_table PostM "expected 0 rows after cleanup, got ".

Definition single_insert_step : step :=
  _ ← save_record None Greg; l ← gets locals; expect (positive_key (l Greg)) "id not populated after insert".

Definition single_find_step : step :=
  found ← find_record Greg None "find";
  _ ← expect (match found with Some _ => true | None => false end) "find() returned nullopt";
  o ← the_found found;
  _ ← expect (no_value o 3) ("age should be null, got " ++ decimal (age_or (-1) o));
  expect (name_equals "greg" o) ("name mismatch: " ++ name_or "<unknown>" o).

Definition single_update_step : step :=
  _ ← set_member Greg 3 (FInt 20); _ ← set_member Greg 6 FNone;
  _ ← save_record None Greg;
  found ← find_record Greg None "find";
  _ ← expect (has_age 20 found) "age not updated";
  o ← the_found found; expect (no_value o 6) "password should be null after update".

Definition single_destroy_step : step :=
  _ ← destroy_local type_name UserM db Greg "destroy"; empty_table UserM "expected 0 rows after destroy, got ".

Definition record_batch : list Object :=
  [new_user (FText "Alice") (FText "alice@example.com") FNone FNone; new_user (FText "Bob") (FText "bob@example.com") FNone FNone;
   new_user (FText "Joe") (FText "joe@example.com") FNone FNone; new_user (FText "John") (FText "john@example.com") FNone FNone].

Definition bulk_insert_step : step :=
  '(insertedCount, _) ← on_database (unwrapped (bulkInsert UserM db type_name record_batch false None) "bulkInsert");
  expect (insertedCount =? 4)%Z ("expected 4 rows, got " ++ decimal insertedCount).

(** The members of the patch that are not named are not read. *)
Definition patch : Object := new_user (FText "megaJoe") FNone FNone (FText "1234").
Definition p_bulk : outcome BasePredicate := both_of (iContains Pu name_ "j" []) (Ret (pred_bool true)).

Fixpoint expect_all (rows : list Object) : step :=
  match rows with
  | [] => mret tt
  | u :: rows =>
      _ ← expect (name_equals "megaJoe" u) ("row id " ++ decimal (match member u 0 with FInt n => n | _ => 0%Z end) ++ " not updated");
      expect_all rows
  end.

Definition bulk_update_step : step :=
  pred ← lift p_bulk;
  '(updatedCount, _) ← on_database (unwrapped (bulkUpdate UserM db type_name patch [1; 6] pred false None) "bulkUpdate");
  _ ← expect (updatedCount =? 2)%Z ("expected 2 rows, got " ++ decimal updatedCount);
  afterUpdate ← on_database (unwrapped (select db type_name [UserM] (filter_query UserM pred []) None) "get");
  expect_all afterUpdate.

Definition bulk_destroy_step : step :=
  destroyedCount ← destroy_all UserM;
  _ ← expect (destroyedCount =? 4)%Z ("expected 4 rows, got " ++ decimal destroyedCount);
  empty_table UserM "expected 0 rows, got ".

(** [co_await transaction->begin()], whose result nobody reads. *)
Definition begin_ (t : ITransaction S) : step := _ ← on_database (tx_begin t "DEFERRED"); mret tt.
Definition inside (t : ITransaction S) : option (Database S) := Some (tx_executeQuery t).

Definition transaction_commit_step : step :=
  scoped d (fun t =>
    _ ← begin_ t; _ ← save_record (inside t) BobRecord;
    _ ← expect_done (tx_commit t) "commit() returned false";
    found ← find_record BobRecord None "find"; expect (has_age 12 found) "expected age to be 12 after commit").

Definition transaction_rollback_step : step :=
  _ ← set_member BobRecord 3 (FInt 6);
  _ ← scoped d (fun t =>
    _ ← begin_ t;
    _ ← save_in type_name UserM db (inside t) BobRecord "save inside transaction";
    outside ← find_record BobRecord None "find outside transaction";
    _ ← expect (has_age 12 outside) "expected age to still be 12 outside the transaction";
    found ← find_record BobRecord (inside t) "find inside transaction";
    _ ← expect (has_age 6 found) "expected age to be 6 inside the transaction";
    expect_done (tx_rollback t) "rollback() returned false");
  found ← find_record BobRecord None "find"; expect (has_age 12 found) "expected age to be 12 due to rollback".

(** [carolId] is 0 throughout. *)
Definition insert_then_rollback_step : step :=
  _ ← assign_local Carol (new_user (FText "carol") (FText "carol@example.com") FNone (FText "secret"));
  _ ← scoped d (fun t =>
    _ ← begin_ t; _ ← save_record (inside t) Carol;
    l ← gets locals;
    _ ← expect (positive_key (l Carol)) "id not populated after insert inside transaction";
    expect_done (tx_rollback t) "rollback() returned false");
  found ← find_key (FInt 0) None "find after rollback";
  expect (match found with None => true | Some _ => false end) "expected row to not exist after rollback, but find() succeeded".

Definition record_final_step : step := _ ← destroy_all UserM; mret tt.

Definition record_parts : list (part RecordState) :=
  [Step "cleanup" record_cleanup_step;
   Between (assign_local Greg (new_user (FText "greg") (FText "greg@example.com") FNone (FText "secret")));
   Step "single insert" single_insert_step; Step "single find" single_find_step; Step "single update" single_update_step;
   Step "single destroy" single_destroy_step; Step "bulk insert" bulk_insert_step; Step "bulk update" bulk_update_step;
   Step "bulk destroy" bulk_destroy_step;
   Between (assign_local BobRecord (new_user (FText "bob") (FText "bob@example.com") (FInt 12) (FText "secret")));
   Step "transaction commit" transaction_commit_step; Step "transaction rollback" transaction_rollback_step;
   Step "insert then rollback" insert_then_rollback_step; Step "final cleanup" record_final_step].

Definition single_test : M S HttpResponse.HttpResponse := suite_with_locals record_parts.
End SingleTest.

(** ** What the last step sees *)

(** The user that an insertion returns. *)
Definition carol_row : Object :=
  {| members := list_to_map [(0, FInt 1); (1, FText "carol"); (2, FText "carol@example.com"); (3, FNone); (4, FNone); (5, FNone); (6, FText "secret"); (7, FInt 0); (8, FInt 0)];
     persisted_ := true |}.
Definition one_row (m : Model) (o : Object) : QueryResult := {| affectedRows := 1; rows := [row_of m o]; result_columns := ∅ |}.
Definition no_rows : QueryResult := {| affectedRows := 0; rows := []; result_columns := ∅ |}.

(** A database that only knows whether [carol] is in it. *)
Definition carol_db (now : Z) : Database bool := fun sql ps stored =>
  match ps with
  | [] => (Ret (inl no_rows), false)
  | [VInt id] => (Ret (inl (if stored && (id =? 1)%Z then one_row (User now) carol_row else no_rows)), stored)
  | _ => (Ret (inl (one_row (User now) carol_row)), true)
  end.

(** Its transactions, with a rollback that undoes or one that does not. *)
Definition carol_database (now : Z) (undoes : bool) : IDatabase bool :=
  let t := {| tx_begin _ := mret (inl no_rows); tx_commit := mret (inl no_rows);
              tx_rollback := fun stored => (Ret (inl no_rows), if undoes then false else stored);
              tx_abandon := mret tt; tx_executeQuery := carol_db now; tx_isTransactionEnded _ := true |} in
  {| executeQuery := carol_db now; acquireTransaction := mret (inl t); releaseTransaction _ := mret tt |}.

(** The step passes whether the rollback has removed the row or left it: it looks for the
    identifier 0, not for that of the row. *)
Lemma rollback_unseen now (undoes : bool) l : exists s',
  insert_then_rollback_step now (carol_database now undoes) (fun _ => []) {| suite_db := false; locals := l |} = (Ret tt, s') /\
  suite_db s' = negb undoes /\ member (locals s' Carol) 0 = FInt 1.
Proof. destruct undoes; (eexists; split; [reflexivity|]; split; reflexivity). Qed.
