(* ===== verification/RelationTests.v ===== *)
(** The demo's checks of relations ([app/src/routes/ormTestRoutes.cpp], GET
    /tests/orm/relations_test): foreign keys in both directions, likes, friendships and
    follows over their through tables, and the statements they become. *)
From S2P Require Import Prelude Bytes Effects DbValue Model Predicate SelectQuery WriteQueries ActiveRecord ManyToMany Relations DemoModels Json TestRunner SuiteState PredicateTests.
From S2P Require HttpResponse.

#[local] Arguments list_ascii_of_string : simpl never.

(** The local objects: users and posts. *)
Inductive thing := Alice | Bob | Charlie | Diana | Post1 | Post2 | Lonely.
#[export] Instance thing_eq_dec : EqDecision thing.
Proof. solve_decision. Defined.
Definition kind (x : thing) : nat := match x with Post1 | Post2 => POST | _ => USER end.

Definition new_post (title content : bytes) (user : Field) : Object :=
  {| members := list_to_map [(0, FInt 0); (1, FText title); (2, FText content); (3, user); (4, FInt 0); (5, FInt 0)]; persisted_ := false |}.

Section Queries.
Context (now : Z).

(** A lookup that fails does not compile. *)
Definition declared {A} (o : option A) : outcome A := match o with Some a => Ret a | None => Undef end.

(** [self.ref<Target, fields...>()], [self.related<Definer, name>()], [self.manyRelated<name, Other>()] *)
Definition ref_query (model target : nat) (fields : list (nat * CppType)) (self : Object) : outcome SelectQuery :=
  r ← declared (ref_relation target fields (relations now model)); ref (model_of now target) r self.
Definition related_query (model definer : nat) (name : bytes) (self : Object) : outcome SelectQuery :=
  r ← declared (related_relation name model (relations now definer)); related (model_of now definer) (model_of now model) r self.

(** The through model of a relation. *)
Definition through_model (name : bytes) : Model :=
  if name =?b "likes" then PostLike else if name =?b "friendship" then Friendship else Follow.
Definition manyRelated_query (name : bytes) (model other : nat) (self : Object) : outcome SelectQuery :=
  l ← declared (lookup now name model other);
  manyRelated (through_model name) (model_of now other) l (model_of now model) self.

Definition joined_models : list Model := [Post now; User now].
Definition posts_with_users : outcome SelectQuery :=
  p ← equals_fields (default_resolve joined_models) {| ptr_model := 0; ptr_field := 3; ptr_type := opt_int64 |}
        {| ptr_model := 1; ptr_field := 0; ptr_type := int64 |} ("p" : bytes, "u" : bytes);
  q ← join_model joined_models 1 p (Some ("u" : bytes)) INNER (SelectQuery_alias joined_models "p");
  q ← allColumns joined_models 0 "p" "p" q; allColumns joined_models 1 "u" "u" q.

(** The rows that follow a user or are followed. *)
Definition follows_of (user : Object) : outcome SelectQuery :=
  let side p := equals (default_resolve [Follow]) {| ptr_model := 0; ptr_field := p; ptr_type := int64 |} (member user 0) [] in
  p ← either_of (side 2) (side 1); Ret (filter_query Follow p []).
End Queries.

Section RelationsTest.
Context {S : Type} `{StdWhat} {J : NlohmannJson} {JB : JsonBooleans}.
Context (now : Z) (db : option (Database S)) (type_name : FieldType -> bytes).
#[local] Abbreviation State := (SuiteState S thing).
#[local] Abbreviation step := (M State unit).
#[local] Abbreviation model x := (model_of now (kind x)).

Definition save_thing (x : thing) (context : bytes) : step := save_in type_name (model x) db None x context.
Definition destroy_thing (x : thing) (context : bytes) : step := destroy_local type_name (model x) db x context.
Definition the_local (x : thing) : M State Object := gets (fun s => locals s x).

Definition found_in (m : Model) (q : outcome SelectQuery) (context : bytes) : M State (list Object) :=
  q ← lift q; on_database (unwrapped (select db type_name [m] q None) context).
Definition first_of (m : Model) (q : outcome SelectQuery) (context : bytes) : M State (option Object) :=
  q ← lift q; on_database (unwrapped (first db type_name [m] q None) context).

Definition ref_first (x : thing) (target : nat) (fields : list (nat * CppType)) (context : bytes) : M State (option Object) :=
  self ← the_local x; first_of (model_of now target) (ref_query now (kind x) target fields self) context.
Definition related_rows (x : thing) (definer : nat) (name context : bytes) : M State (list Object) :=
  self ← the_local x; found_in (model_of now definer) (related_query now (kind x) definer name self) context.
(** The query is over the related model, the through model and the caller's. *)
Definition many_rows (x : thing) (name : bytes) (other : nat) (context : bytes) : M State (list Object) :=
  self ← the_local x; q ← lift (manyRelated_query now name (kind x) other self);
  on_database (unwrapped (select db type_name (related_models (through_model name) (model_of now other) (model x)) q None) context).

Definition add_relation (name : bytes) (x y : thing) (context : bytes) : M State Z :=
  self ← the_local x; other ← the_local y; l ← lift (declared (lookup now name (kind x) (kind y)));
  on_database (unwrapped (addRelation db type_name (through_model name) l self other None) context).
Definition remove_relation (name : bytes) (x y : thing) (context : bytes) : M State Z :=
  self ← the_local x; other ← the_local y; l ← lift (declared (lookup now name (kind x) (kind y)));
  on_database (unwrapped (removeRelation db type_name (through_model name) l self other None) context).
Definition upsert_relation (name : bytes) (self other : nat) (obj : Object) (context : bytes) : M State Z :=
  l ← lift (declared (lookup now name self other));
  on_database (unwrapped (upsertRelationThrough db type_name (through_model name) l obj None) context).

Definition destroy_rows (m : Model) (context : bytes) : step :=
  _ ← on_database (unwrapped (bulkDestroy m db type_name (pred_bool true) false None) context); mret tt.
Definition count_rows (m : Model) (q : outcome SelectQuery) (context : bytes) : M State Z :=
  q ← lift q; c ← on_database (unwrapped (count db type_name [m] q None) context);
  match c with FInt n => mret n | _ => undefined end.

Definition same_key (o : Object) (x : thing) : M State bool := 
  self ← the_local x; mret (match member o 0, member self 0 with FInt a, FInt b => (a =? b)%Z | _, _ => false end).
Definition is_local (o : option Object) (x : thing) : M State bool := match o with Some o => same_key o x | None => mret false end.
Definition expect_size (rows : list Object) (n : nat) (msg : bytes) : step := expect (length rows =? n) msg.
(** [expect(rows.size() == 1 && rows\[0\].id == x.id, msg)] *)
Definition expect_only (rows : list Object) (x : thing) (msg : bytes) : step :=
  b ← match rows with [o] => same_key o x | _ => mret false end; expect b msg.

Definition relations_cleanup_step : step :=
  _ ← destroy_rows PostLike "PostLike bulkDestroy"; _ ← destroy_rows Follow "Follow bulkDestroy";
  _ ← destroy_rows (Post now) "Post bulkDestroy"; _ ← destroy_rows (User now) "User bulkDestroy";
  n ← count_rows (User now) (Ret (queryAll (User now) [])) "count"; _ ← expect (n =? 0)%Z "users not empty";
  n ← count_rows (Post now) (Ret (queryAll (Post now) [])) "count"; expect (n =? 0)%Z "posts not empty".

Definition assign_person (x : thing) (name email : bytes) (age : Z) : step := assign_local x (new_user (FText name) (FText email) (FInt age) FNone).

Definition relations_seed_step : step :=
  _ ← assign_person Alice "Alice" "alice@example.com" 30; _ ← assign_person Bob "Bob" "bob@example.com" 28;
  _ ← assign_person Charlie "Charlie" "charlie@example.com" 25; _ ← assign_person Diana "Diana" "diana@example.com" 22;
  _ ← save_thing Alice "alice save"; _ ← save_thing Bob "bob save"; _ ← save_thing Charlie "charlie save"; _ ← save_thing Diana "diana save";
  l ← gets locals; expect (forallb (fun x => positive_key (l x)) [Alice; Bob; Charlie; Diana]) "ids not set".

Definition many_to_one_step : step :=
  k ← local_key Alice;
  _ ← assign_local Post1 (new_post "Hello" "world" k); _ ← assign_local Post2 (new_post "Second" "post" k);
  _ ← save_thing Post1 "post1 save"; _ ← save_thing Post2 "post2 save";
  author ← ref_first Post1 USER [] "ref author"; b ← is_local author Alice; _ ← expect b "ref() did not return Alice";
  alicePosts ← related_rows Alice POST [] "related posts";
  _ ← expect_size alicePosts 2 ("expected 2 posts for Alice, got " ++ to_string (Z.of_nat (length alicePosts)));
  alicePostsNamed ← related_rows Alice POST "user_posts" "named related"; expect_size alicePostsNamed 2 "named related mismatch".

Definition has_no_user (o : option Object) : bool := match o with Some o => match member o 3 with FNone => true | _ => false end | None => false end.
Definition set_null_step : step :=
  let find_post x context := k ← local_key x; on_database (unwrapped (find (Post now) db type_name [k] None) context) in
  _ ← destroy_thing Alice "destroy alice";
  p1 ← find_post Post1 "find post1"; p2 ← find_post Post2 "find post2";
  _ ← expect (has_no_user p1) "post1.user should be null after SET_NULL"; _ ← expect (has_no_user p2) "post2.user should be null after SET_NULL";
  _ ← assign_person Alice "Alice" "alice@example.com" 30; save_thing Alice "recreate alice".

Definition self_ref_step : step :=
  _ ← set_to_key Bob 4 Alice; _ ← set_to_key Bob 5 Diana; _ ← save_thing Bob "bob update";
  best ← ref_first Bob USER [(4, opt_int64)] "ref bestFriend"; b ← is_local best Alice; _ ← expect b "bestFriend mismatch";
  mom ← ref_first Bob USER [(5, opt_int64)] "ref mother"; b ← is_local mom Diana; _ ← expect b "mother mismatch";
  bestFriendsOfAlice ← related_rows Alice USER "best_friends" "best_friends"; _ ← expect_only bestFriendsOfAlice Bob "expected Bob as best_friend of Alice";
  childrenOfDiana ← related_rows Diana USER "children" "children"; expect_only childrenOfDiana Bob "expected Bob as child of Diana".

Definition likes_step : step :=
  _ ← set_to_key Post1 3 Alice; _ ← set_to_key Post2 3 Alice;
  _ ← save_thing Post1 "re-assign post1"; _ ← save_thing Post2 "re-assign post2";
  cnt ← add_relation "likes" Post1 Alice "post1 likes alice"; _ ← expect (cnt =? 1)%Z "expected 1 from Post side";
  cnt ← add_relation "likes" Post1 Alice "post1 likes alice again"; _ ← expect (cnt =? 0)%Z "expected 0 on duplicate";
  cnt ← add_relation "likes" Bob Post1 "bob likes post1"; _ ← expect (cnt =? 1)%Z "bob like insert";
  aliceLikes ← many_rows Alice "likes" POST "alice likes"; _ ← expect_size aliceLikes 1 "Alice should like 1 post so far";
  post1Likers ← many_rows Post1 "likes" USER "post1 likers"; _ ← expect_size post1Likers 2 "post1 should have 2 likers (alice + bob)";
  removed ← remove_relation "likes" Alice Post1 "remove like"; _ ← expect (removed =? 1)%Z "expected 1 row removed";
  aliceLikes ← many_rows Alice "likes" POST "after remove"; expect_size aliceLikes 0 "Alice should have 0 likes left".

(** Between the steps; what is read is only logged. *)
Definition log_posts : step :=
  q ← lift (posts_with_users now);
  queryResult ← on_database (unwrapped (execute db (joined_models now) q None) "none");
  _ ← lift (hydrateJoined type_name [(Post now, "p" : bytes); (User now, "u" : bytes)] queryResult); mret tt.

Definition through_step : step :=
  user ← local_key Charlie; post ← local_key Post1;
  cnt ← upsert_relation "likes" POST USER (assign 2 post (assign 1 user default_object)) "upsert through obj";
  _ ← expect (1 <=? cnt)%Z "through upsert failed";
  charlieLikes ← many_rows Charlie "likes" POST "charlie likes"; expect_only charlieLikes Post1 "charlie should like post1".

Definition friendship_step : step :=
  cnt ← add_relation "friendship" Alice Bob "friend alice-bob"; _ ← expect (cnt =? 2)%Z "DOUBLE_ROW should insert 2 rows";
  cnt ← add_relation "friendship" Alice Bob "friend again"; _ ← expect (cnt =? 0)%Z "should be 0 on duplicate";
  cnt ← add_relation "friendship" Alice Charlie "friend alice-charlie"; _ ← expect (cnt =? 2)%Z "second friendship";
  aliceFriends ← many_rows Alice "friendship" USER "alice friends"; _ ← expect_size aliceFriends 2 "Alice should have 2 friends";
  bobFriends ← many_rows Bob "friendship" USER "bob friends"; _ ← expect_only bobFriends Alice "Bob should only see Alice";
  removed ← remove_relation "friendship" Alice Bob "unfriend"; _ ← expect (removed =? 2)%Z "DOUBLE_ROW remove should delete 2 rows";
  aliceFriends ← many_rows Alice "friendship" USER "after unfriend"; expect_size aliceFriends 1 "only Charlie left".

Definition follows_step : step :=
  cnt ← add_relation "follows" Alice Bob "alice follows bob"; _ ← expect (cnt =? 1)%Z "follow insert";
  cnt ← add_relation "follows" Bob Alice "bob follows alice"; _ ← expect (cnt =? 1)%Z "reverse follow";
  cnt ← add_relation "follows" Alice Charlie "alice follows charlie"; _ ← expect (cnt =? 1)%Z "second follow";
  aliceFollowing ← many_rows Alice "follows" USER "alice following"; _ ← expect_size aliceFollowing 2 "Alice should follow 2 people";
  aliceFollowers ← many_rows Alice "followers" USER "alice followers"; _ ← expect_only aliceFollowers Bob "Alice should have 1 follower (Bob)";
  removed ← remove_relation "follows" Alice Bob "unfollow"; _ ← expect (removed =? 1)%Z "unfollow count";
  aliceFollowing ← many_rows Alice "follows" USER "after unfollow"; expect_size aliceFollowing 1 "only Charlie left".

Definition follow_through_step : step :=
  follower ← local_key Diana; followee ← local_key Alice;
  let f := assign 4 (FText "hello") (assign 3 (FInt 42) (assign 1 followee (assign 2 follower default_object))) in
  cnt ← upsert_relation "follows" USER USER f "upsert follow with extras"; expect (1 <=? cnt)%Z "follow with extras failed".

Definition cascade_step : step :=
  _ ← destroy_thing Charlie "destroy charlie";
  _ ← count_rows PostLike (Ret (queryAll PostLike [])) "likes count";
  charlie ← the_local Charlie;
  charlieFollows ← count_rows Follow (follows_of charlie) "charlie follows left";
  expect (charlieFollows =? 0)%Z "Charlie’s follow rows should have been cascaded".

Definition empty_relations_step : step :=
  _ ← assign_local Lonely (new_user (FText "Lonely") (FText "lonely@example.com") FNone FNone); _ ← save_thing Lonely "lonely save";
  friends ← many_rows Lonely "friendship" USER "lonely friends"; _ ← expect_size friends 0 "lonely should have 0 friends";
  following ← many_rows Lonely "follows" USER "lonely following"; _ ← expect_size following 0 "lonely should follow 0";
  posts ← related_rows Lonely POST [] "lonely posts"; expect_size posts 0 "lonely should have 0 posts".

Definition relations_final_step : step :=
  _ ← destroy_rows PostLike "final PostLike"; _ ← destroy_rows Follow "final Follow"; _ ← destroy_rows (Post now) "final Post";
  destroy_rows (User now) "final User".

Definition relations_parts : list (part State) :=
  [Step "cleanup" relations_cleanup_step; Step "seed users" relations_seed_step; Step "many-to-one Post.user + reverse related()" many_to_one_step;
   Step "OnDelete::SET_NULL" set_null_step; Step "self-ref many-to-one (bestFriend + mother)" self_ref_step;
   Step "M2M likes – upsert / manyRelated / remove" likes_step; Between log_posts;
   Step "M2M with through-object upsert (extra columns)" through_step; Step "symmetric M2M friendship (DOUBLE_ROW)" friendship_step;
   Step "asymmetric M2M follows" follows_step; Step "Follow through model extra fields + uniqueness" follow_through_step;
   Step "CASCADE on through tables" cascade_step; Step "empty relation queries" empty_relations_step; Step "final cleanup" relations_final_step].

Definition relations_test : M S HttpResponse.HttpResponse := suite_with_locals relations_parts.
End RelationsTest.

(** ** What the queries of the steps ask *)
Definition statement_over (models : list Model) (q : outcome SelectQuery) : outcome (bytes * list DbValue) :=
  q ← q; buildSelectSqlAndSetParams models 0 None q.

(** For a user with the key [n] and a post with the key [k] of the user [u]: the parameters are the keys of the callers. *)
Lemma relation_statements now n k u :
  let user := assign 0 (FInt n) default_object in let post := assign 3 (FInt u) (assign 0 (FInt k) default_object) in
  let users a := " SELECT " ++ comma_list (map (fun c => a ++ "." ++ c) (literals ["id"; "email"; "name"; "age"; "best_friend"; "mother"; "password"; "created_at"; "updated_at"])) ++ " FROM users AS " ++ a in
  let posts a := " SELECT " ++ comma_list (map (fun c => a ++ "." ++ c) (literals ["id"; "title"; "content"; "user_id"; "created_at"; "updated_at"])) ++ " FROM posts AS " ++ a in
  let through name other := " JOIN " ++ name ++ " AS T ON  R.id = T." ++ other in
  let many mt other model q := statement_over (related_models mt (model_of now other) (model_of now model)) q in
  statement_over [User now] (ref_query now POST USER [] post) = Ret (users "a" ++ " WHERE  a.id = ?  ", [VInt (to_int64 u)]) /\
  statement_over [Post now] (related_query now USER POST [] user) = Ret (posts "a" ++ " WHERE  a.user_id = ?  ", [VInt (to_int64 n)]) /\
  related_query now USER POST "user_posts" user = related_query now USER POST [] user /\
  statement_over [User now] (related_query now USER USER "best_friends" user) = Ret (users "a" ++ " WHERE  a.best_friend = ?  ", [VInt (to_int64 n)]) /\
  statement_over [User now] (related_query now USER USER "children" user) = Ret (users "a" ++ " WHERE  a.mother = ?  ", [VInt (to_int64 n)]) /\
  many PostLike POST USER (manyRelated_query now "likes" USER POST user) =
    Ret (posts "R" ++ through "post_like_user" "post_id" ++ "  WHERE  T.user_id = ?  ", [VInt (to_int64 n)]) /\
  many PostLike USER POST (manyRelated_query now "likes" POST USER post) =
    Ret (users "R" ++ through "post_like_user" "user_id" ++ "  WHERE  T.post_id = ?  ", [VInt (to_int64 k)]) /\
  many Friendship USER USER (manyRelated_query now "friendship" USER USER user) =
    Ret (users "R" ++ through "user_friend_user" "pkB" ++ "  WHERE  T.pkA = ?  ", [VInt (to_int64 n)]) /\
  many Follow USER USER (manyRelated_query now "follows" USER USER user) =
    Ret (users "R" ++ through "user_follows_user" "follower_id" ++ "  WHERE  T.followee_id = ?  ", [VInt (to_int64 n)]) /\
  many Follow USER USER (manyRelated_query now "followers" USER USER user) =
    Ret (users "R" ++ through "user_follows_user" "followee_id" ++ "  WHERE  T.follower_id = ?  ", [VInt (to_int64 n)]).
Proof.
  cbv zeta. split_and!; reflexivity.
Qed.

(** ** The query between the steps is in none of them *)
Section Escapes.
Context {S : Type} `{StdWhat} {J : NlohmannJson} {JB : JsonBooleans}.
Context (now : Z) (type_name : FieldType -> bytes) (msg : bytes).
#[local] Abbreviation db := (Some (refusing (S := S) msg)).

Lemma refused_log s : log_posts now db type_name s = (Throw (RuntimeError ("none failed: " ++ msg)), s).
Proof. destruct s. reflexivity. Qed.

(** A step that fails and leaves the database as it was. *)
Definition refuses (step : M (SuiteState S thing) unit) : Prop := forall s, exists e s', step s = (Throw e, s') /\ suite_db s' = suite_db s.

Lemma refuses_after (a : M (SuiteState S thing) unit) k : (forall s, exists s', a s = (Ret tt, s') /\ suite_db s' = suite_db s) -> refuses k -> refuses (_ ← a; k).
Proof.
  intros Ha Hk s. destruct (Ha s) as (s1 & E & D). destruct (Hk s1) as (e & s2 & E2 & D2). exists e, s2. rewrite (mbind_Ret _ _ _ _ _ E). split; [done|congruence].
Qed.

Lemma refuses_bind {A} (a : M (SuiteState S thing) A) k : (forall s, exists e s', a s = (Throw e, s') /\ suite_db s' = suite_db s) -> refuses (a ≫= k).
Proof. intros Ha s. destruct (Ha s) as (e & s' & E & D). exists e, s'. by rewrite (mbind_Throw _ _ _ _ _ E). Qed.

Lemma refused_save x context : refuses (save_thing now db type_name x context).
Proof.
  intros [v l]. unfold save_thing, save_in. assert (exists o r, save (model_of now (kind x)) db type_name None (v, l x) = (Ret (inr r), (v, o))) as (o & r & E).
  { unfold save. rewrite (mbind_Ret self _ (v, l x) (l x) (v, l x)) by done. cbv beta. destruct (persisted_ (l x)); destruct x; eexists _, _; reflexivity. }
  assert (on_local x (save (model_of now (kind x)) db type_name None) {| suite_db := v; locals := l |} =
    (Ret (inr r), set_local x (fun _ => o) {| suite_db := v; locals := l |})) as E1 by (unfold on_local; cbn [suite_db locals]; by rewrite E).
  eexists _, _. unfold unwrapped. rewrite mbind_assoc. rewrite (mbind_Ret _ _ _ _ _ E1). split; reflexivity.
Qed.

Lemma assigned x o (s : SuiteState S thing) : exists s', assign_local x o s = (Ret tt, s') /\ suite_db s' = suite_db s.
Proof. by eexists. Qed.

Lemma refused_steps : Forall refuses [relations_seed_step now db type_name; many_to_one_step now db type_name; set_null_step now db type_name;
  self_ref_step now db type_name; likes_step now db type_name].
Proof.
  repeat apply Forall_cons_2; [..|by apply Forall_nil_2].
  - do 4 (apply refuses_after; [intros [v l]; eexists; split; reflexivity|]). apply refuses_bind, refused_save.
  - intros s. destruct (assigned Post1 (new_post "Hello" "world" (member (locals s Alice) 0)) s) as (s1 & E1 & D1).
    destruct (assigned Post2 (new_post "Second" "post" (member (locals s Alice) 0)) s1) as (s2 & E2 & D2).
    destruct (refused_save Post1 "post1 save" s2) as (e & s3 & E3 & D3). exists e, s3. unfold many_to_one_step.
    rewrite (mbind_Ret (local_key Alice) _ s (member (locals s Alice) 0) s) by done. rewrite (mbind_Ret _ _ _ _ _ E1), (mbind_Ret _ _ _ _ _ E2).
    rewrite (mbind_Throw _ _ _ _ _ E3). split; [done|congruence].
  - apply refuses_bind. intros [v l]. eexists _, _. split; reflexivity.
  - do 2 (apply refuses_after; [intros [v l]; eexists; split; reflexivity|]). apply refuses_bind, refused_save.
  - do 2 (apply refuses_after; [intros [v l]; eexists; split; reflexivity|]). apply refuses_bind, refused_save.
Qed.

Lemma refused_relations_cleanup s : exists e, relations_cleanup_step now db type_name s = (Throw e, s).
Proof. destruct s. eexists. reflexivity. Qed.

(** The seven steps behind the query are not reached. *)
Lemma relations_test_escapes s : relations_test now db type_name s = (Throw (RuntimeError ("none failed: " ++ msg)), s).
Proof.
  unfold relations_test, suite_with_locals. set (c := {| suite_db := s; locals := fun _ => default_object |}).
  destruct (refused_relations_cleanup c) as (e0 & E0). pose proof refused_steps as F. rewrite !Forall_cons in F. destruct F as (F1 & F2 & F3 & F4 & F5 & _).
  destruct (F1 c) as (e1 & s1 & E1 & D1). destruct (F2 s1) as (e2 & s2 & E2 & D2). destruct (F3 s2) as (e3 & s3 & E3 & D3).
  destruct (F4 s3) as (e4 & s4 & E4 & D4). destruct (F5 s4) as (e5 & s5 & E5 & D5). assert (suite_db s5 = suite_db c) as Es by congruence.
  unfold suite, relations_parts.
  erewrite (run_parts_throws "cleanup") by exact E0. erewrite (run_parts_throws "seed users") by exact E1.
  erewrite (run_parts_throws "many-to-one Post.user + reverse related()") by exact E2. erewrite (run_parts_throws "OnDelete::SET_NULL") by exact E3.
  erewrite (run_parts_throws "self-ref many-to-one (bestFriend + mother)") by exact E4.
  erewrite (run_parts_throws "M2M likes – upsert / manyRelated / remove") by exact E5.
  cbn [run_parts]. cbv [mbind M_bind unguarded]. rewrite (refused_log s5). by rewrite Es.
Qed.
End Escapes.
