(* ===== verification/Demo.v ===== *)
(** Routes of the demo application ([app/src/routes.cpp] and the groups basic, cookies,
    sessions, URL paths and forms of [app/src/routes]): handlers over the request, its
    body, the session and JSON, their registration, and what a client observes. *)
From S2P Require Import Prelude Bytes Effects ServerConfig HttpTypes BodyStream CookieStore ErrorFactory Router Session Json.
From S2P Require HttpRequest HttpResponse HeaderStore.

#[local] Arguments list_ascii_of_string : simpl never.

(** ** [std::stoi]: blanks, a sign, and the digits that follow *)
Fixpoint digits_value (acc : Z) (s : bytes) : Z :=
  match s with
  | c :: s => if isdigit c then digits_value (acc * 10 + (code c - 48)) s else acc
  | [] => acc
  end.

Definition stoi (s : bytes) : outcome Z :=
  let s := drop_while isspace s in
  let '(negative, s) := match s with
                        | "-"%char :: s => (true, s)
                        | "+"%char :: s => (false, s)
                        | _ => (false, s)
                        end in
  match s with
  | c :: _ =>
      if isdigit c then
        let n := if (negative : bool) then (- digits_value 0 s)%Z else digits_value 0 s in
        if ((- 2 ^ 31 <=? n) && (n <? 2 ^ 31))%Z then Ret n else Throw OutOfRange
      else Throw (InvalidArgument "stoi")
  | [] => Throw (InvalidArgument "stoi")
  end.

Lemma stoi_defined s : stoi s <> Undef.
Proof. unfold stoi. repeat case_match; congruence. Qed.

Example stoi_examples : map stoi [("42" : bytes); ("  -7x" : bytes); ("" : bytes); ("2147483648" : bytes)] =
  [Ret 42%Z; Ret (-7)%Z; Throw (InvalidArgument "stoi"); Throw OutOfRange].
Proof. reflexivity. Qed.

Section Demo.
Context {S St F : Type} {HR : HasRequest S} {IS : ISessionStore St} {HS : HasSession S St} {BIO : BodyIO S} {J : NlohmannJson}.
(** The configuration, and the order in which an [unordered_map] is walked. *)
Context (cfg : ServerConfig) (walk : gmap bytes bytes -> fields).

#[local] Abbreviation Handler := (Handler S F).
#[local] Abbreviation Middleware := (Middleware S F).
#[local] Abbreviation routes := (M (Router Handler Middleware) unit).

Definition the_request : M S HttpRequest.HttpRequest := gets get_request.

(** [HttpResponse(200, j.dump())], and with the content type of JSON. *)
Definition dumped (j : outcome json) : M S (Response F) :=
  j ← lift j; body ← lift (dump (-1) j); mret (Plain (HttpResponse.HttpResponse_body 200 body)).
Definition with_type (t : bytes) (r : HttpResponse.HttpResponse) : Response F :=
  Plain (HttpResponse.with_headers (HeaderStore.setHeaderLower "content-type" t) r).
Definition as_json (j : outcome json) : M S (Response F) :=
  j ← lift j; body ← lift (dump (-1) j); mret (with_type "application/json" (HttpResponse.HttpResponse_body 200 body)).

(** [if (x.empty()) x = "..."] *)
Definition param_or (d key : bytes) (r : HttpRequest.HttpRequest) : bytes :=
  let v := HttpRequest.getQueryParam key [] r in if v =?b [] then d else v.

(** ** Sessions: the pointer is null without the middleware *)
Definition with_session_ptr {A} (f : Session -> M S A) : M S A :=
  p ← getSession; match p with Some session => f session | None => undefined end.

Definition session_set_route : Handler :=
  request ← the_request;
  let key := param_or "test" "key" request in
  let value := param_or "hello" "value" request in
  with_session_ptr (fun _ =>
    update_session (session_set key value);;
    dumped (Ret (json_pairs [("key" : bytes, json_string key); ("value" : bytes, json_string value)]))).

Definition session_get_route : Handler :=
  request ← the_request;
  let key := param_or "test" "key" request in
  with_session_ptr (fun session =>
    let val := session_get key session in
    dumped (body ← set_key "key" (json_string key) json_null;
            match val with
            | Some v => body ← set_key "value" (json_string v) body; set_key "found" (json_bool true) body
            | None => body ← set_key "value" json_null body; set_key "found" (json_bool false) body
            end)).

Definition session_all_route : Handler :=
  with_session_ptr (fun session =>
    dumped (put_pairs (map (fun p => (p.1, json_string p.2)) (walk (data_ session))) json_object)).

Definition session_delete_route : Handler :=
  request ← the_request;
  let key := param_or "test" "key" request in
  with_session_ptr (fun session =>
    let existed := session_has key session in
    update_session (session_remove key);;
    dumped (Ret (json_pairs [("removed" : bytes, json_string key); ("existed" : bytes, json_bool existed)]))).

Definition session_invalidate_route : Handler :=
  with_session_ptr (fun _ =>
    update_session invalidate;;
    dumped (Ret (json_pairs [("invalidated" : bytes, json_bool true)]))).

Definition registerSessionTestRoutes : routes :=
  get "/tests/session/set" session_set_route;;
  get "/tests/session/get" session_get_route;;
  get "/tests/session/all" session_all_route;;
  get "/tests/session/delete" session_delete_route;;
  get "/tests/session/invalidate" session_invalidate_route.

(** ** Cookies *)
Definition cookie_of (request : HttpRequest.HttpRequest) : outcome Cookie :=
  let param key := HttpRequest.getQueryParam key [] request in
  let present key := negb (param key =?b []) in
  age ← (if present "maxage" then stoi (param "maxage") else Ret (-1)%Z);
  Ret {| name := param_or "test" "name" request; value := param_or "hello" "value" request;
         path := param_or "/" "path" request; httpOnly := present "httponly"; secure := present "secure";
         sameSite := param_or "Lax" "samesite" request; maxAge := age; expires := None; domain := param "domain" |}.

Definition cookie_json (c : Cookie) : json :=
  json_pairs [("name" : bytes, json_string (name c)); ("value" : bytes, json_string (value c));
    ("path" : bytes, json_string (path c)); ("domain" : bytes, json_string (domain c));
    ("maxAge" : bytes, json_int (maxAge c)); ("sameSite" : bytes, json_string (sameSite c));
    ("httpOnly" : bytes, json_bool (httpOnly c)); ("secure" : bytes, json_bool (secure c))].

Definition cookie_set_route : Handler :=
  request ← the_request;
  c ← lift (cookie_of request);
  res ← as_json (Ret (cookie_json c));
  mret (map_cookies (setCookie c) res).

Definition cookie_read_route : Handler :=
  request ← the_request;
  as_json (toJsonObject (HttpRequest.getCookies request)).

Definition cookie_delete_route : Handler :=
  request ← the_request;
  let name := param_or "test" "name" request in
  res ← as_json (Ret (json_pairs [("removed" : bytes, json_string name)]));
  mret (map_cookies (deleteCookie name "/") res).

Definition registerCookieTestRoutes : routes :=
  get "/tests/cookies/set" cookie_set_route;;
  get "/tests/cookies/read" cookie_read_route;;
  get "/tests/cookies/delete" cookie_delete_route.

(** ** Bodies: [HttpRequest::jsonBody] and [HttpRequest::getFormData] *)
Definition content_type_is (t : bytes) (r : HttpRequest.HttpRequest) : bool :=
  starts_with t (toLowerCase (HttpRequest.getContentType r)).

Definition jsonBody : M S json :=
  request ← the_request;
  if negb (content_type_is "application/json" request) then mret json_null
  else body ← consumeBody cfg; lift (parse body).

Definition formData : M S HttpRequest.form :=
  request ← the_request;
  if negb (content_type_is "application/x-www-form-urlencoded" request) then mret ∅
  else body ← consumeBody cfg; mret (HttpRequest.getFormData request body).

(** [formData\[key\]\[0\]]: beyond the end of an empty vector for a missing field. *)
Definition first_value (form : HttpRequest.form) (key : bytes) : outcome bytes :=
  match default [] (form !! key) with v :: _ => Ret v | [] => Undef end.

Definition form_route : Handler :=
  form ← formData;
  as_json (username ← first_value form "username"; password ← first_value form "password";
           Ret (json_pairs [("username" : bytes, json_string username); ("password" : bytes, json_string password)])).

Definition checkboxes_route : Handler :=
  form ← formData;
  let terms := default [] (form !! ("terms" : bytes)) in
  as_json (username ← first_value form "username"; password ← first_value form "password";
           Ret (json_pairs [("username" : bytes, json_string username); ("password" : bytes, json_string password);
                            ("terms" : bytes, json_array (map json_string terms))])).

Definition json_form_route : Handler :=
  body ← jsonBody;
  as_json (username ← index_key "username" body; password ← index_key "password" body;
           Ret (json_pairs [("username" : bytes, username); ("password" : bytes, password)])).

(** Up to the multipart form. *)
Definition registerFormTestRoutes : routes :=
  post "/tests/forms/urlencoded" form_route;;
  post "/tests/forms/urlencoded/checkboxes" checkboxes_route;;
  post "/tests/forms/json" json_form_route.

(** ** Basic routes *)
Definition ping_route : Handler := mret (Plain (HttpResponse.HttpResponse_typed 200 "text/html; charset=utf-8" "pong")).

Definition debugRequestHandler : Handler :=
  request ← the_request;
  cookies ← lift (toJsonObject (HttpRequest.getCookies request));
  body ← consumeBody cfg;
  request ← the_request;
  as_json (headers ← toJsonObject (HttpRequest.headers_ request);
           query ← toJsonObject (HttpRequest.queryParams_ request);
           Ret (json_pairs [("method" : bytes, json_string (HttpRequest.method_ request));
                            ("path" : bytes, json_string (HttpRequest.path_ request));
                            ("rawPath" : bytes, json_string (HttpRequest.rawPath_ request));
                            ("headers" : bytes, headers); ("query" : bytes, query); ("cookies" : bytes, cookies);
                            ("body" : bytes, json_string body)])).

Definition echo_route : Handler :=
  body ← consumeBody cfg;
  request ← the_request;
  let res := HttpResponse.HttpResponse_body 200 body in
  let ct := HttpRequest.getHeader "Content-Type" request in
  mret (if ct =?b [] then Plain res else with_type ct res).

Definition throw_route : Handler := throw (RuntimeError "Deliberate test error").

Definition registerBasicTestRoutes : routes :=
  get "/tests/ping" ping_route;;
  get "/tests/debug/request" debugRequestHandler;;
  post "/tests/debug/request" debugRequestHandler;;
  post "/tests/echo" echo_route;;
  put "/tests/echo" echo_route;;
  get "/tests/error/throw" throw_route.

(** ** URL paths *)
Definition path_param_json (names : list (bytes * bytes)) : Handler :=
  request ← the_request;
  as_json (Ret (json_pairs (map (fun p => (p.1, json_string (HttpRequest.getPathParam p.2 [] request))) names))).

Definition my_posts_route : Handler :=
  as_json (Ret (json_pairs [("user" : bytes, json_string "me");
    ("posts" : bytes, json_array (map json_string [("post1" : bytes); ("post2" : bytes); ("post3" : bytes)]))])).
Definition delete_item_route : Handler := mret (Plain (HttpResponse.HttpResponse_code 200)).

Definition registerUrlPathTestRoutes : routes :=
  get "/tests/users/<id>" (path_param_json [("userId" : bytes, "id" : bytes)]);;
  get "/tests/users/me/posts/" my_posts_route;;
  get "/tests/users/<userId>/posts/<postId>" (path_param_json [("userId" : bytes, "userId" : bytes); ("postId" : bytes, "postId" : bytes)]);;
  delete_ "/tests/items/<id>" delete_item_route;;
  get "/tests/wildcard/*" (path_param_json [("path" : bytes, "*" : bytes)]);;
  get "/tests/deepwildcard/**" (path_param_json [("path" : bytes, "**" : bytes)]);;
  get "/tests/decode/path/<name>" (path_param_json [("name" : bytes, "name" : bytes)]).

(** ** The application's own routes *)
Definition random_route : Handler := mret (with_type "text/html" (HttpResponse.HttpResponse_code 200)).

Definition index_route : Handler :=
  request ← the_request;
  let response := HttpResponse.with_headers (HeaderStore.setHeaderLower "content-type" "text/html") (HttpResponse.HttpResponse_code 200) in
  mret (Plain (if HttpRequest.method_ request =?b "HEAD" then HttpResponse.stripBody response else response)).

Definition hello_route : Handler :=
  body ← consumeBody cfg;
  name ← lift (data ← parse body; v ← index_key "name" data; get_string v);
  mret (with_type "text/plain" (HttpResponse.HttpResponse_body 200 ("Hello, " ++ name ++ "!"))).

Definition put_route : Handler :=
  body ← consumeBody cfg; mret (Plain (HttpResponse.HttpResponse_body 200 body)).

Definition registerRoutes : routes :=
  get "/random" random_route;;
  get "/" index_route;;
  post "/" hello_route;;
  put "/" put_route.

(** [registerMiddlewares]: the order of the chain. *)
Definition registerMiddlewares (cors staticFiles compression cacheControl session : Middleware) : routes :=
  modify (use cors);; modify (use staticFiles);; modify (use compression);; modify (use cacheControl);; modify (use session).

(** [main] and [registerAllTestRoutes], without the groups for streams, the thread pool
    and the ORM. *)
Definition registerAll : routes :=
  registerRoutes;; registerBasicTestRoutes;; registerCookieTestRoutes;; registerSessionTestRoutes;;
  registerUrlPathTestRoutes;; registerFormTestRoutes.
End Demo.

(** ** Sessions, from request to request *)
Section Sessions.
Context {S St F : Type} {HR : HasRequest S} {IS : ISessionStore St} {SL : SessionStoreLaws St} {HS : HasSession S St}.
Context {J : NlohmannJson} {JL : JsonLaws}.
#[local] Abbreviation Response := (Response F).

Lemma begin_request scfg (s : S) : get_request (begin_session scfg s) = HttpRequest.setSessionHandle (Some 0) (get_request s).
Proof. unfold begin_session. by rewrite get_put, request_put_handle. Qed.

Lemma begin_param scfg (s : S) d k : param_or d k (get_request (begin_session scfg s)) = param_or d k (get_request s).
Proof. by rewrite begin_request. Qed.

(** The identifier that a request brings. *)
Definition client_id (scfg : SessionConfig) (s : S) : bytes :=
  sanitize scfg (default [] (HttpRequest.getCookie "session_id" (get_request s))).

(** The first [getSession] of a handler. *)
Lemma begin_getSession scfg (s : S) o st :
  (if client_id scfg s =?b [] then o = None /\ st = get_store s else load (client_id scfg s) (get_store s) = (Ret o, st)) ->
  let ses := match o with Some x => markLoaded x | None => Session_new end in
  exists s', getSession (begin_session scfg s) = (Ret (Some ses), s') /\
    get_handle s' = {| id := client_id scfg s; session := Some ses |} /\ get_store s' = st.
Proof.
  intros L ses. unfold getSession. rewrite (mbind_Ret _ _ _ (get_request (begin_session scfg s)) (begin_session scfg s)) by done.
  rewrite begin_request. cbn [HttpRequest.sessionHandle_ HttpRequest.setSessionHandle].
  unfold handle_get, mbind, M_bind, gets. rewrite begin_handle. cbn [session SessionHandle_new id]. fold (client_id scfg s).
  destruct (client_id scfg s =?b []) eqn:E.
  - destruct L as [-> ->]. eexists. split; [reflexivity|]. by rewrite handle_get_put, store_put_handle, begin_handle, begin_store.
  - unfold on_store. rewrite begin_store, L. eexists. split; [reflexivity|].
    by rewrite handle_get_put, store_put_handle, handle_put_store, begin_handle, store_get_put.
Qed.

Lemma dumped_ok j body (s : S) : dump (-1) j = Ret body ->
  dumped (S := S) (F := F) (Ret j) s = (Ret (Plain (HttpResponse.HttpResponse_body 200 body)), s).
Proof. intros H. unfold dumped, lift, mbind, M_bind. by rewrite H. Qed.

Lemma set_route_run scfg (s : S) k v o st body :
  (if client_id scfg s =?b [] then o = None /\ st = get_store s else load (client_id scfg s) (get_store s) = (Ret o, st)) ->
  param_or "test" "key" (get_request s) = k -> param_or "hello" "value" (get_request s) = v ->
  dump (-1) (json_pairs [("key" : bytes, json_string k); ("value" : bytes, json_string v)]) = Ret body ->
  exists s', session_set_route (F := F) (begin_session scfg s) = (Ret (Plain (HttpResponse.HttpResponse_body 200 body)), s') /\
    get_handle s' = {| id := client_id scfg s;
      session := Some (session_set k v (match o with Some x => markLoaded x | None => Session_new end)) |} /\ get_store s' = st.
Proof.
  intros L Hk Hv Hb. destruct (begin_getSession scfg s o st L) as (s1 & E & Eh & Es).
  unfold session_set_route, the_request. rewrite (mbind_Ret _ _ _ (get_request (begin_session scfg s)) (begin_session scfg s)) by done.
  cbv zeta. rewrite !begin_param, Hk, Hv. unfold with_session_ptr. rewrite (mbind_Ret _ _ _ _ _ E).
  unfold update_session. erewrite (mbind_Ret (modify _)) by reflexivity. rewrite (dumped_ok _ body) by done.
  eexists. split; [reflexivity|]. rewrite handle_get_put, store_put_handle, Eh. done.
Qed.

(** A response with the session's cookie. *)
Definition with_session_cookie (scfg : SessionConfig) (i body : bytes) : Response :=
  Plain (HttpResponse.with_cookies (setCookie (session_cookie scfg i)) (HttpResponse.HttpResponse_body 200 body)).

(** The document that [session_get_route] sends. *)
Definition lookup_document (key : bytes) (val : option bytes) : outcome json :=
  body ← set_key "key" (json_string key) json_null;
  match val with
  | Some v => body ← set_key "value" (json_string v) body; set_key "found" (json_bool true) body
  | None => body ← set_key "value" json_null body; set_key "found" (json_bool false) body
  end.

Lemma lookup_document_ok key val : exists j, lookup_document key val = Ret j /\ find_key "key" j = Some (json_string key) /\
  find_key "value" j = Some (from_option json_string json_null val) /\ find_key "found" j = Some (json_bool (bool_decide (is_Some val))).
Proof.
  destruct (set_key_ok "key" (json_string key) json_null (or_introl eq_refl)) as (j1 & E1 & O1 & F1).
  unfold lookup_document. rewrite E1. cbn [mbind outcome_bind].
  destruct (set_key_ok "value" (from_option json_string json_null val) j1 (or_intror O1)) as (j2 & E2 & O2 & F2).
  destruct (set_key_ok "found" (json_bool (bool_decide (is_Some val))) j2 (or_intror O2)) as (j3 & E3 & _ & F3).
  exists j3. split; [|by rewrite !F3, !F2, !F1].
  destruct val; cbn [from_option] in E2; rewrite E2; exact E3.
Qed.

Lemma get_route_run scfg (s : S) k o st :
  (if client_id scfg s =?b [] then o = None /\ st = get_store s else load (client_id scfg s) (get_store s) = (Ret o, st)) ->
  param_or "test" "key" (get_request s) = k ->
  let ses := match o with Some x => markLoaded x | None => Session_new end in
  exists s', session_get_route (F := F) (begin_session scfg s) = dumped (lookup_document k (session_get k ses)) s' /\
    get_handle s' = {| id := client_id scfg s; session := Some ses |} /\ get_store s' = st.
Proof.
  intros L Hk ses. destruct (begin_getSession scfg s o st L) as (s1 & E & Eh & Es). exists s1. split; [|done].
  unfold session_get_route, the_request. rewrite (mbind_Ret _ _ _ (get_request (begin_session scfg s)) (begin_session scfg s)) by done.
  cbv zeta. rewrite begin_param, Hk. unfold with_session_ptr. by rewrite (mbind_Ret _ _ _ _ _ E).
Qed.

(** The demo's sessions work across requests: a new client that asks
    /tests/session/set for key [k] and value [v] gets 200 and one cookie; when it sends
    that cookie back within the lifetime of the store, /tests/session/get finds [v]
    under [k], and nothing under another key; and although it only reads, the session
    is saved again and its lifetime starts anew. *)
Theorem session_roundtrip scfg (s : S) k v body : minIdSize scfg <= 64 <= maxIdSize scfg -> client_id scfg s = [] ->
  param_or "test" "key" (get_request s) = k -> param_or "hello" "value" (get_request s) = v ->
  dump (-1) (json_pairs [("key" : bytes, json_string k); ("value" : bytes, json_string v)]) = Ret body ->
  (forall e st, generateId (get_store s) <> (Throw e, st)) -> (forall st, generateId (get_store s) <> (Undef, st)) ->
  exists i s2, i <> [] /\
    SessionMiddleware scfg session_set_route s = (Ret (with_session_cookie scfg i body), s2) /\
    forall d s3 k', (0 <= d <= lifetime (get_store s))%Z -> get_store s3 = elapse d (get_store s2) ->
      HttpRequest.getCookie "session_id" (get_request s3) = Some i -> param_or "test" "key" (get_request s3) = k' ->
      exists j, (find_key "key" j = Some (json_string k') /\
          find_key "value" j = Some (if bool_decide (k' = k) then json_string v else json_null) /\
          find_key "found" j = Some (json_bool (bool_decide (k' = k)))) /\
        forall b, dump (-1) j = Ret b -> exists s4,
          SessionMiddleware scfg session_get_route s3 = (Ret (with_session_cookie scfg i b), s4) /\
          forall d', (0 <= d' <= lifetime (get_store s))%Z -> exists st,
            load i (elapse d' (get_store s4)) = (Ret (Some (markLoaded (session_set k v Session_new))), st).
Proof.
  intros B Hid Hk Hv Hb NT NU.
  destruct (set_route_run scfg s k v None (get_store s) body) as (s1 & E & Eh & Es); try done; [by rewrite Hid|].
  destruct (finish_saves scfg (Plain (HttpResponse.HttpResponse_body 200 body) : Response) s1 (session_set k v Session_new))
    as (i & s2 & Ef & Si & Ni & _ & Lt & L); rewrite ?Eh, ?Es; try done; [apply sanitize_idem|].
  exists i, s2. split; [done|]. split; [by rewrite SessionMiddleware_eq, (mbind_Ret _ _ _ _ _ E), Ef|].
  intros d s3 k' Hd E3 C3 Hk'. rewrite Es in L, Lt. destruct (L d Hd) as [st El].
  assert (Ci : client_id scfg s3 = i) by (unfold client_id; rewrite C3; exact Si).
  assert (Lst : lifetime st = lifetime (get_store s)).
  { pose proof (load_lifetime i (elapse d (get_store s2))) as X. by rewrite El, elapse_lifetime, Lt in X. }
  destruct (get_route_run scfg s3 k' (Some (session_set k v Session_new)) st) as (s4 & E4 & Eh4 & Es4); [|done|].
  { rewrite Ci, (proj2 (beqb_neq _ _) Ni). by rewrite E3. }
  set (val := session_get k' (markLoaded (session_set k v Session_new))) in E4.
  assert (V : val = if bool_decide (k' = k) then Some v else None).
  { unfold val, session_get. cbn. case_bool_decide as D; [by rewrite D, lookup_insert_eq|].
    by rewrite lookup_insert_ne by congruence. }
  destruct (lookup_document_ok k' val) as (j & Ej & F1 & F2 & F3). exists j. split.
  { rewrite F1, F2, F3, V. by destruct (bool_decide (k' = k)). }
  intros b Eb. rewrite Ej, (dumped_ok j b s4 Eb) in E4.
  destruct (finish_saves scfg (Plain (HttpResponse.HttpResponse_body 200 b) : Response) s4 (markLoaded (session_set k v Session_new)))
    as (i' & s5 & Ef' & _ & _ & Hi & _ & L'); rewrite ?Eh4; cbn [id session]; rewrite ?Ci; try done.
  rewrite Eh4 in Hi. cbn [id] in Hi. rewrite Ci in Hi. rewrite (Hi Ni) in Ef', L'. rewrite Es4, Lst in L'.
  exists s5. split; [by rewrite SessionMiddleware_eq, (mbind_Ret _ _ _ _ _ E4), Ef'|exact L'].
Qed.
End Sessions.

(** ** What the cookie routes send *)
Section CookieRoutes.
Context {S F : Type} {HR : HasRequest S} {J : NlohmannJson} {JL : JsonLaws}.

(** All cookies of the request; of a name that occurs twice the last one, where
    [getCookie] gives the first. *)
Lemma cookie_read_document (s : S) : exists j, cookie_read_route (F := F) s = as_json (Ret j) s /\
  forall k, find_key k j = json_string <$> assoc_last k (HttpRequest.getCookies (get_request s)).
Proof.
  destruct (toJsonObject_ok (HttpRequest.getCookies (get_request s))) as (j & E & _ & H). exists j. split; [|exact H].
  unfold cookie_read_route, the_request. rewrite (mbind_Ret _ _ _ (get_request s) s) by done. by rewrite E.
Qed.

(** The cookie that is described in the body is the one that is set; a Max-Age that is
    no number, or no [int], is an exception. *)
Theorem cookie_set_sends (s : S) :
  match cookie_of (get_request s) with
  | Ret c => forall body, dump (-1) (cookie_json c) = Ret body -> exists r,
      cookie_set_route (F := F) s = (Ret (Plain r), s) /\ HttpResponse.cookies r = [c] /\ HttpResponse.body_ r = body /\
      HttpResponse.statusCode_ r = 200%Z
  | Throw e => cookie_set_route (F := F) s = (Throw e, s) /\
      stoi (HttpRequest.getQueryParam "maxage" [] (get_request s)) = Throw e
  | Undef => False
  end.
Proof.
  unfold cookie_set_route, the_request. destruct (cookie_of (get_request s)) as [c|e|] eqn:Ec.
  - intros body Eb. rewrite (mbind_Ret _ _ _ (get_request s) s) by done. rewrite Ec.
    unfold as_json, lift, mbind, M_bind. rewrite Eb. by eexists.
  - rewrite (mbind_Ret _ _ _ (get_request s) s) by done. rewrite Ec. split; [done|]. revert Ec. unfold cookie_of. cbv beta zeta.
    destruct (negb (HttpRequest.getQueryParam "maxage" [] (get_request s) =?b [])); cbn [mbind outcome_bind]; [|done]. destruct (stoi _); cbn; congruence.
  - revert Ec. unfold cookie_of. cbv beta zeta.
    destruct (negb (HttpRequest.getQueryParam "maxage" [] (get_request s) =?b [])); cbn [mbind outcome_bind]; [|done].
    pose proof (stoi_defined (HttpRequest.getQueryParam "maxage" [] (get_request s))) as D. by destruct (stoi _).
Qed.
End CookieRoutes.

(** ** Requests that the handlers do not expect *)
Section Hazards.
Context {S St F : Type} {HR : HasRequest S} {IS : ISessionStore St} {HS : HasSession S St} {BIO : BodyIO S} {J : NlohmannJson}.
Context (cfg : ServerConfig) (walk : gmap bytes bytes -> fields).

(** Without the session middleware ([main] leaves it out on demand) each session route
    goes through a null pointer. *)
Theorem session_needs_middleware (s : S) (route : Handler S F) :
  HttpRequest.sessionHandle_ (get_request s) = None ->
  route ∈ [session_set_route; session_get_route; session_all_route walk; session_delete_route; session_invalidate_route] ->
  route s = (Undef, s).
Proof.
  intros H Hr. rewrite !elem_of_cons, elem_of_nil in Hr.
  assert (P : forall (f : Session -> M S (Response F)), with_session_ptr f s = (Undef, s)).
  { intros f. unfold with_session_ptr, getSession, gets, mbind, M_bind. by rewrite H. }
  destruct Hr as [->|[->|[->|[->|[->|[]]]]]]; try apply P;
    unfold session_set_route, session_get_route, session_delete_route, the_request;
    rewrite (mbind_Ret _ _ _ (get_request s) s) by done; apply P.
Qed.

(** A form that is not sent as one, or a field that it lacks, is read beyond the end
    of an empty vector. *)
Theorem form_needs_fields (s s' : S) (form : HttpRequest.form) (route : Handler S F) :
  route ∈ [form_route cfg; checkboxes_route cfg] ->
  (content_type_is "application/x-www-form-urlencoded" (get_request s) = false -> route s = (Undef, s)) /\
  (formData cfg s = (Ret form, s') -> default [] (form !! ("username" : bytes)) = [] -> route s = (Undef, s')).
Proof.
  intros Hr. rewrite !elem_of_cons, elem_of_nil in Hr.
  assert (P : forall form s', formData cfg s = (Ret form, s') -> default [] (form !! ("username" : bytes)) = [] -> route s = (Undef, s')).
  { intros f t E N. destruct Hr as [->|[->|[]]]; unfold form_route, checkboxes_route; rewrite (mbind_Ret _ _ _ _ _ E);
      unfold as_json, first_value; rewrite N; done. }
  split; [|by apply P]. intros H. apply (P ∅); [|done].
  unfold formData, the_request. rewrite (mbind_Ret _ _ _ (get_request s) s) by done. by rewrite H.
Qed.
End Hazards.

(** ** Which route a path reaches *)
Section Routing.
Context {S St F : Type} {HR : HasRequest S} {IS : ISessionStore St} {HS : HasSession S St} {BIO : BodyIO S} {J : NlohmannJson}.
Context (cfg : ServerConfig) (walk : gmap bytes bytes -> fields).
#[local] Abbreviation Handler := (Handler S F).
#[local] Abbreviation Middleware := (Middleware S F).

Definition application : Router Handler Middleware := (registerAll (F := F) cfg walk Router_new).2.

(** The handler for a method and a target, as the router looks it up, with the
    parameters of the path. *)
Definition route_of (method target : bytes) : option (Handler * outcome fields) :=
  let request := HttpRequest.parsePathAndQueryParams target (HttpRequest.setMethod method (HttpRequest.fresh [] 0)) in
  node ← findMatchingRouteEntry application (HttpRequest.pathParts_ request);
  handler ← assoc_first (lookup_method method) (requestHandlers node);
  Some (handler, getPathParams (patternParts node) (HttpRequest.pathParts_ request)).

(** Every registration of the demo succeeds, and targets reach their routes: the
    query does not matter, nor do repeated and trailing slashes; HEAD is answered by
    the route for GET; an escaped slash stays inside its parameter; a literal segment
    is preferred, and left again where it leads to no route; but it hides the parameter
    route when the path ends at it. *)
Theorem routing :
  (registerAll (F := F) cfg walk Router_new).1 = Ret tt /\
  route_of "GET" "/tests/session/set?key=a" = Some (session_set_route, Ret []) /\
  route_of "HEAD" "//tests//session/get/" = Some (session_get_route, Ret []) /\
  route_of "POST" "/tests/session/get" = None /\
  route_of "POST" "/tests/echo" = Some (echo_route cfg, Ret []) /\
  route_of "DELETE" "/tests/items/9" = Some (delete_item_route, Ret [("id" : bytes, "9" : bytes)]) /\
  route_of "GET" "/tests/users/42" = Some (path_param_json [("userId" : bytes, "id" : bytes)], Ret [("id" : bytes, "42" : bytes)]) /\
  route_of "GET" "/tests/users/me/posts" = Some (my_posts_route, Ret []) /\
  route_of "GET" "/tests/users/me/posts/7" =
    Some (path_param_json [("userId" : bytes, "userId" : bytes); ("postId" : bytes, "postId" : bytes)],
          Ret [("userId" : bytes, "me" : bytes); ("postId" : bytes, "7" : bytes)]) /\
  route_of "GET" "/tests/users/me" = None /\
  route_of "GET" "/tests/decode/path/foo%2Fbar" =
    Some (path_param_json [("name" : bytes, "name" : bytes)], Ret [("name" : bytes, "foo/bar" : bytes)]) /\
  route_of "GET" "/tests/deepwildcard/a/b/c" =
    Some (path_param_json [("path" : bytes, "**" : bytes)], Ret [("**" : bytes, "a/b/c" : bytes)]) /\
  route_of "GET" "/tests/deepwildcard" = None.
Proof.
  split; [vm_compute; reflexivity|].
  split_and!; lazy -[session_set_route session_get_route echo_route delete_item_route path_param_json my_posts_route]; reflexivity.
Qed.
End Routing.

(** ** Error pages ([app/include/errors.hpp]) *)
Section Errors.
(** [json{{"errorCode", ...}, {"errorMessage", ...}}.dump()] *)
Context (json_dump : Z -> bytes -> bytes).

Definition jsonFormatter : Formatter := fun statusCode message =>
  let response := HttpResponse.HttpResponse_code statusCode in
  let body := json_dump statusCode (if message =?b "" then HttpResponse.statusText statusCode else message) in
  let response := HttpResponse.with_headers (HeaderStore.setHeaderLower "content-type" "application/json") response in
  let response := HttpResponse.with_headers (HeaderStore.setCacheControl "no-store") response in
  HttpResponse.setBody body response.

Definition htmlFormatter : Formatter := fun statusCode message =>
  let response := HttpResponse.HttpResponse_code statusCode in
  let statusText := HttpResponse.statusText statusCode in
  let msg := if message =?b [] then statusText else message in
  let title := to_string statusCode ++ " " ++ statusText in
  let body := "<!DOCTYPE html>" ++ "<html><head><title>" ++ title ++ "</title></head>" ++ "<body>" ++
    "<h1>" ++ title ++ "</h1>" ++ "<p>" ++ msg ++ "</p>" ++ "</body></html>" in
  let response := HttpResponse.with_headers (HeaderStore.setHeaderLower "content-type" "text/html") response in
  let response := HttpResponse.with_headers (HeaderStore.setCacheControl "no-store") response in
  HttpResponse.setBody body response.

Definition getErrorFactory : ErrorFactory :=
  setFormatter "text/html" htmlFormatter (setFormatter "application/json" jsonFormatter (ErrorFactory_new json_dump)).
End Errors.

(** A browser gets the page, other clients the document. *)
Example html_for_browsers code msg :
  build sample_strtof (SS := InsertionSort.insertion_sort) (getErrorFactory (fun _ _ => [])) 
    (HttpRequest.addHeader "Accept" "text/html,application/xhtml+xml" (HttpRequest.fresh [] 0)) code msg = Ret (htmlFormatter code msg).
Proof. reflexivity. Qed.

Module DemoWitnesses.
Import SessionWitnesses JsonWitnesses.
#[local] Existing Instance world_request.
#[local] Existing Instance world_session.

(** The client of the first example sets "hello" under "test". *)
Lemma session_roundtrip_witness :
  exists i s2 body, SessionMiddleware cfg0 session_set_route w0 = (Ret (with_session_cookie (F := unit) cfg0 i body), s2) /\
    forall s3, get_store s3 = elapse 45 (get_store s2) -> HttpRequest.getCookie "session_id" (get_request s3) = Some i ->
      HttpRequest.queryParams_ (get_request s3) = [] ->
      exists j b s4, find_key "value" j = Some (DString "hello") /\
        SessionMiddleware cfg0 session_get_route s3 = (Ret (with_session_cookie (F := unit) cfg0 i b), s4).
Proof.
  destruct (session_roundtrip (F := unit) cfg0 w0 "test" "hello"
    (doc_print (DObject [("key" : bytes, DString "test"); ("value" : bytes, DString "hello")])))
    as (i & s2 & _ & E & H); [cbn; lia|reflexivity..| | |].
  - intros e st. vm_compute. discriminate.
  - intros st. vm_compute. discriminate.
  - exists i, s2. eexists. split; [exact E|]. intros s3 E3 C3 Q.
    assert (K : param_or "test" "key" (get_request s3) = "test") by (unfold param_or, HttpRequest.getQueryParam; by rewrite Q).
    destruct (H 45%Z s3 "test" ltac:(vm_compute; split; discriminate) E3 C3 K) as (j & (_ & F & _) & R).
    destruct (R (doc_print j) eq_refl) as (s4 & X & _). by exists j, (doc_print j), s4.
Defined.

(** A cookie for an hour, and one for no number of seconds. *)
Definition asks (target : bytes) : HttpRequest.HttpRequest := HttpRequest.parsePathAndQueryParams target (HttpRequest.fresh [] 0).

Lemma cookie_set_sends_witness :
  (exists r c, cookie_set_route (F := unit) (asks "/tests/cookies/set?name=a&maxage=3600&secure") =
     (Ret (Plain r), asks "/tests/cookies/set?name=a&maxage=3600&secure") /\
     HttpResponse.cookies r = [c] /\ maxAge c = 3600%Z /\ secure c = true /\ httpOnly c = false) /\
  (cookie_set_route (F := unit) (asks "/tests/cookies/set?maxage=soon")).1 = Throw (InvalidArgument "stoi").
Proof.
  split.
  - pose proof (cookie_set_sends (F := unit) (asks "/tests/cookies/set?name=a&maxage=3600&secure")) as H.
    destruct (cookie_of _) as [c| |] eqn:E in H; [|by vm_compute in E..].
    destruct (H _ eq_refl) as (r & X & C & _). exists r, c. split; [exact X|]. split; [exact C|].
    vm_compute in E. by injection E as <-.
  - pose proof (cookie_set_sends (F := unit) (asks "/tests/cookies/set?maxage=soon")) as H.
    destruct (cookie_of _) as [|e|] eqn:E in H; [by vm_compute in E| |by vm_compute in E].
    vm_compute in E. injection E as <-. by rewrite (proj1 H).
Defined.

(** The session routes of an application without middlewares. *)
Lemma session_needs_middleware_witness :
  HttpRequest.sessionHandle_ (get_request w0) = None /\ session_set_route (F := unit) w0 = (Undef, w0).
Proof. split; [done|]. apply (session_needs_middleware (fun _ => []) w0); [done|left]. Defined.
End DemoWitnesses.
