(* ===== verification/StreamRoutes.v ===== *)
(** Routes of the demo application that stream ([app/src/routes/streamTestRoutes.cpp]):
    the lambdas that make the blocks, with what they capture, the handlers, and what a
    client receives, plain and compressed. *)
From S2P Require Import Prelude Bytes Effects ServerConfig HttpTypes BodyStream Net ConnectionIO ChunkDecoder HttpConnection Streaming Compression Router Demo.
From S2P Require HttpRequest HttpResponse HttpStreamResponse HeaderStore.

#[local] Arguments list_ascii_of_string : simpl never.

(** The lambdas, each with the variables it captures by value and changes. *)
Inductive demo_stream :=
| Basic (i : nat) | Single (done : bool) | Empty | Count (i n : Z) | Throwing (i : Z) | Echo (offset : nat) (body : bytes).

Definition basic_chunks : list bytes := literals ["Hello"; ", "; "World"; "!"].

(** A call of the lambda. *)
Definition call {S} (f : demo_stream) : M S (option bytes * demo_stream) :=
  match f with
  | Basic i => if 4 <=? i then mret (None, Basic i) else mret (basic_chunks !! i, Basic (Datatypes.S i))
  | Single done => if done then mret (None, Single done) else mret (Some ("hello" : bytes), Single true)
  | Empty => mret (None, Empty)
  | Count i n => if (n <=? i)%Z then mret (None, Count i n) else mret (Some ("chunk-" ++ to_string (i + 1)), Count (i + 1) n)
  | Throwing i =>
      if (i =? 2)%Z then throw (RuntimeError "Deliberate stream error") else mret (Some ("chunk-" ++ to_string (i + 1)), Throwing (i + 1))
  | Echo offset body =>
      if length body <=? offset then mret (None, Echo offset body)
      else
        let len := min 4 (length body - offset) in
        mret (Some (take len (drop offset body)), Echo (offset + len) body)
  end.

Section Routes.
Context {S F : Type} {HR : HasRequest S} {BIO : BodyIO S} (cfg : ServerConfig).
(** The lambda as the function of a response. *)
Context (fn : demo_stream -> F).
#[local] Abbreviation Handler := (Handler S F).
#[local] Abbreviation routes := (M (Router Handler (Middleware S F)) unit).

Definition streamed (f : demo_stream) : Response F := Stream (HttpStreamResponse.HttpStreamResponse_fn 200 (fn f)).

Definition basic_route : Handler := mret (Stream (HttpStreamResponse.HttpStreamResponse_typed 200 "text/plain" (fn (Basic 0)))).
Definition single_route : Handler := mret (streamed (Single false)).
Definition empty_route : Handler := mret (streamed Empty).
Definition count_route : Handler :=
  request ← gets get_request;
  n ← lift (stoi (HttpRequest.getPathParam "n" [] request));
  mret (streamed (Count 0 (if (n <? 0)%Z then 0 else n)%Z)).
Definition stream_throw_route : Handler := mret (streamed (Throwing 0)).
Definition stream_echo_route : Handler :=
  body ← consumeBody cfg;
  request ← gets get_request;
  let ct := HttpRequest.getHeader "Content-Type" request in
  let res := streamed (Echo 0 body) in
  mret (if ct =?b [] then res else map_headers (HeaderStore.setHeaderLower "content-type" ct) res).

Definition registerStreamTestRoutes : routes :=
  get "/tests/stream/basic" basic_route;;
  get "/tests/stream/single" single_route;;
  get "/tests/stream/empty" empty_route;;
  get "/tests/stream/count/<n>" count_route;;
  get "/tests/stream/throw" stream_throw_route;;
  post "/tests/stream/echo" stream_echo_route.
End Routes.

(** ** What the lambdas give *)

(** The blocks of [chunk-i+1], ..., [chunk-i+k]. *)
Definition numbered (i : Z) (k : nat) : list bytes := map (fun j => "chunk-" ++ to_string (i + 1 + Z.of_nat j)) (seq 0 k).

Lemma numbered_S i k : numbered i (S k) = ("chunk-" ++ to_string (i + 1)) :: numbered (i + 1) k.
Proof.
  unfold numbered. cbn [seq map]. rewrite <- seq_shift, map_map. f_equal; [by rewrite Z.add_0_r|]. apply map_ext. intros j.
  do 2 f_equal. lia.
Qed.

Lemma count_yields {S} (s : S) i k : yields call (Count i (i + Z.of_nat k)) s (numbered i k) (Count (i + Z.of_nat k) (i + Z.of_nat k)) s.
Proof.
  revert i. induction k as [|k IH]; intros i.
  - apply y_end. cbn. rewrite Z.add_0_r. by rewrite Z.leb_refl.
  - rewrite numbered_S. eapply y_chunk; [cbn [call]; rewrite (proj2 (Z.leb_gt (i + Z.of_nat (Datatypes.S k)) i)) by lia; reflexivity|].
    replace (i + Z.of_nat (Datatypes.S k))%Z with (i + 1 + Z.of_nat k)%Z by lia. apply IH.
Qed.

(** A text in pieces of four. *)
Fixpoint pieces (fuel : nat) (body : bytes) : list bytes :=
  match fuel, body with
  | Datatypes.S fuel, _ :: _ => take 4 body :: pieces fuel (drop 4 body)
  | _, _ => []
  end.

Lemma pieces_concat fuel body : length body <= 4 * fuel -> concat (pieces fuel body) = body.
Proof.
  revert body. induction fuel as [|fuel IH]; intros body L; destruct body as [|a body]; cbn in L; try done; try lia.
  cbn [pieces concat]. rewrite IH by (rewrite length_drop; cbn [length]; lia). apply take_drop.
Qed.

Lemma pieces_sizes fuel body : Forall (fun c => 0 < length c <= 4) (pieces fuel body).
Proof.
  revert body. induction fuel as [|fuel IH]; intros body; [by destruct body|]. destruct body as [|a body]; [done|]. cbn [pieces].
  constructor; [|done]. rewrite length_take. cbn [length]. lia.
Qed.

Lemma echo_yields {S} (s : S) offset body fuel : length body <= offset + 4 * fuel ->
  exists f', yields call (Echo offset body) s (pieces fuel (drop offset body)) f' s.
Proof.
  revert offset. induction fuel as [|fuel IH]; intros offset L.
  { exists (Echo offset body). destruct (drop offset body) eqn:D; (apply y_end; cbn [call]; by rewrite (proj2 (Nat.leb_le (length body) offset)) by lia). }
  destruct (drop offset body) as [|a rest] eqn:D.
  - exists (Echo offset body). apply y_end. cbn [call]. apply (f_equal length) in D. rewrite length_drop in D. cbn in D.
    by rewrite (proj2 (Nat.leb_le (length body) offset)) by lia.
  - assert (length (drop offset body) = Datatypes.S (length rest)) as Ld by by rewrite D. rewrite length_drop in Ld.
    destruct (IH (offset + min 4 (length body - offset))) as (f' & Y); [lia|]. exists f'.
    change (pieces (Datatypes.S fuel) (a :: rest)) with (take 4 (a :: rest) :: pieces fuel (drop 4 (a :: rest))). rewrite <- D.
    assert (take 4 (drop offset body) = take (min 4 (length body - offset)) (drop offset body)) as ->.
    { destruct (Nat.le_gt_cases 4 (length body - offset)); [by rewrite Nat.min_l|]. rewrite Nat.min_r, !take_ge by (rewrite ?length_drop; lia). done. }
    assert (drop 4 (drop offset body) = drop (offset + min 4 (length body - offset)) body) as ->.
    { rewrite drop_drop. destruct (Nat.le_gt_cases 4 (length body - offset)); [by rewrite Nat.min_l|]. rewrite Nat.min_r by lia. rewrite !drop_ge by lia. done. }
    eapply y_chunk; [cbn [call]; rewrite (proj2 (Nat.leb_gt (length body) offset)) by lia; reflexivity|exact Y].
Qed.

(** The echo of a body as a stream: the lambda gives blocks of one to four bytes that
    make up the body, none of them empty (an empty block would end the stream), so that
    a decoder of chunks within its limits reads the body back from what is sent. *)
Lemma echo_stream {S} (s : S) cfg body rest : limits_ok cfg -> (4 <= MAX_TE_CHUNK_LENGTH cfg)%Z -> (Z.of_nat (length body) <= MAX_TE_LENGTH cfg)%Z ->
  exists chunks f', yields call (Echo 0 body) s chunks f' s /\ concat chunks = body /\ Forall (fun c => 0 < length c <= 4) chunks /\
    decodes cfg CHUNK_SIZE 0 0 (encoded chunks ++ rest) body (CRLF ++ rest).
Proof.
  intros L L4 Lb. destruct (echo_yields s 0 body (length body)) as (f' & Y); [lia|]. rewrite drop_0 in Y.
  assert (concat (pieces (length body) body) = body) as C by (apply pieces_concat; lia).
  pose proof (pieces_sizes (length body) body) as Z4. eexists _, f'. split; [exact Y|]. split; [exact C|]. split; [exact Z4|].
  rewrite <- C at 3. apply encoded_decodes; [done| |done|by rewrite C].
  eapply Forall_impl; [exact Z4|]. cbn. intros c Hc. lia.
Qed.

(** The stream that counts gives its numbers from 1, and none for a negative one. *)
Lemma count_stream {S F} {HR : HasRequest S} (fn : demo_stream -> F) (s : S) n : stoi (HttpRequest.getPathParam "n" [] (get_request s)) = Ret n ->
  exists f f', count_route fn s = (Ret (streamed fn f), s) /\ yields call f s (numbered 0 (Z.to_nat n)) f' s.
Proof.
  intros E. exists (Count 0 (if (n <? 0)%Z then 0 else n)%Z), (Count (0 + Z.of_nat (Z.to_nat n)) (0 + Z.of_nat (Z.to_nat n))). split.
  - unfold count_route. rewrite (mbind_Ret _ _ _ (get_request s) s) by done. by rewrite (mbind_Ret _ _ _ n s) by (unfold lift; by rewrite E).
  - replace (if (n <? 0)%Z then 0 else n)%Z with (0 + Z.of_nat (Z.to_nat n))%Z by (destruct (Z.ltb_spec n 0); lia). apply count_yields.
Qed.

(** A stream that throws has given two blocks. *)
Lemma throwing_stream {S} (s : S) : exists f1 f2,
  call (Throwing 0) s = (Ret (Some ("chunk-1" : bytes), f1), s) /\ call f1 s = (Ret (Some ("chunk-2" : bytes), f2), s) /\
  call f2 s = (Throw (RuntimeError "Deliberate stream error"), s).
Proof. eexists _, _. split_and!; reflexivity. Qed.

(** *** On a connection *)

(** The lambdas look at nothing but what they captured. *)
Definition step (f : demo_stream) : outcome (option bytes * demo_stream) := (call f tt).1.

Lemma call_step {S} f (s : S) : call f s = (step f, s).
Proof.
  unfold step. destruct f as [i|d| |i n|i|o b]; cbn [call]; [destruct (4 <=? i)|destruct d|..|destruct (n <=? i)%Z|destruct (i =? 2)%Z|destruct (length b <=? o)]; done.
Qed.

Lemma yields_gives {S} f (s : S) l f' s' : yields call f s l f' s' -> gives step f l None.
Proof.
  induction 1 as [f s f' s' E|f s c f1 s1 l f' s' E _ IH]; rewrite call_step in E; injection E; intros; [by eapply gives_end|by eapply gives_chunk].
Qed.

Section Connected.
Context {K : Type} {N : Net K} (cfg : ServerConfig) (toHttpDate : Z -> bytes) (date : K -> bytes) (std_what : exn -> bytes) (reset_connection : K -> K).
Hypothesis send_all : forall d k, (send d k).1 = Z.of_nat (length d).
Context (today : bytes).
Hypothesis same_day : forall k, date k = today.

#[local] Open Scope Z_scope.
#[local] Abbreviation response := (HttpStreamResponse.HttpStreamResponse demo_stream).
#[local] Abbreviation sent_head r := (HttpResponse.head_bytes cfg toHttpDate today (HttpStreamResponse.statusCode_ r) (HttpStreamResponse.headers r) (HttpStreamResponse.cookies r)).
#[local] Abbreviation send_stream := (HttpConnection.send_stream cfg toHttpDate date std_what call reset_connection).

(** Four bytes as a chunk are nine at most. *)
Lemma small_chunk_bytes c : (length c <= 4)%nat -> (length (HttpStreamResponse.chunk_bytes c) <= 9)%nat.
Proof. intros H. destruct c as [|? [|? [|? [|? [|? ?]]]]]; cbn in H; try lia; vm_compute; lia. Qed.

(** The echo on a connection: behind the header comes a chunked body that decodes to
    the body of the request, and nothing comes behind it. *)
Lemma echo_served (r : response) body (s : HttpConnection K) blocks buffered sofar :
  limits_ok cfg -> 4 <= MAX_TE_CHUNK_LENGTH cfg -> Z.of_nat (length body) <= MAX_TE_LENGTH cfg -> 9 <= MAX_WRITE_BUFFER_BYTES cfg ->
  Forall CookieStore.int_cookie (HttpStreamResponse.cookies r) -> fits cfg (sent_head r) ->
  HttpStreamResponse.nextChunkFn_ r = Some (Echo 0 body) -> HttpStreamResponse.isChunked_ r = true -> ready s buffered sofar -> (length body < blocks)%nat ->
  exists s' w, send_stream blocks r s = (Ret (Some tt), s') /\ ready s' buffered (sofar ++ sent_head r ++ w) /\
    decodes cfg CHUNK_SIZE 0 0 w body CRLF.
Proof.
  intros L L4 Lb W9 Hk Hh Hn Hc Hr Hb. destruct (echo_yields s 0 body (length body)) as (f' & Y); [lia|]. rewrite drop_0 in Y.
  assert (concat (pieces (length body) body) = body) as C by (apply pieces_concat; lia). pose proof (pieces_sizes (length body) body) as Z4.
  assert (length (pieces (length body) body) <= length body)%nat as Lp.
  { rewrite <- C at 3. clear -Z4. induction Z4 as [|c l [H _] _ IH]; [cbn; lia|]. cbn [concat length]. rewrite length_app. lia. }
  assert (forall c, (length c <= 4)%nat -> is_u64 (Z.of_nat (length c)) /\ fits cfg (wire_block r c)) as Small.
  { intros c H. split; [unfold is_u64; rewrite two64_val; lia|]. unfold fits, wire_block. rewrite Hc. pose proof (small_chunk_bytes c H). lia. }
  destruct (send_stream_sent cfg toHttpDate date std_what call reset_connection send_all today same_day step call_step
    (Echo 0 body) _ None r s blocks buffered sofar (yields_gives _ _ _ _ _ Y) Hn) as (s' & E & _ & Hr'); [|done|lia|].
  - split; [done|done|eapply Forall_impl; [exact Z4|]; cbn; intros c H; apply Small; lia|].
    destruct (Small []) as [H1 H2]; [cbn; lia|]. cbn [last_blocks map concat]. rewrite app_nil_r. split; [by repeat constructor|exact H2].
  - rewrite (wire_split r _ (pieces (length body) body) []) in Hr' by done. eexists s', _. split; [exact E|]. split; [exact Hr'|].
    assert (decodes cfg CHUNK_SIZE 0 0 (encoded (pieces (length body) body) ++ []) (concat (pieces (length body) body)) (CRLF ++ [])) as D.
    { apply encoded_decodes; [done| |lia|rewrite C; lia]. eapply Forall_impl; [exact Z4|]. cbn. intros c H. lia. }
    rewrite C in D. exact D.
Qed.

(** The stream that throws on a connection: its two blocks, then the text of the
    exception without a heading, and the end of the body; the coroutine returns. *)
Lemma throw_served (r : response) (s : HttpConnection K) blocks buffered sofar :
  limits_ok cfg -> 32 <= MAX_TE_CHUNK_LENGTH cfg -> 64 <= MAX_TE_LENGTH cfg -> 64 <= MAX_WRITE_BUFFER_BYTES cfg ->
  Forall CookieStore.int_cookie (HttpStreamResponse.cookies r) -> fits cfg (sent_head r) ->
  HttpStreamResponse.nextChunkFn_ r = Some (Throwing 0) -> HttpStreamResponse.isChunked_ r = true -> ready s buffered sofar -> (2 < blocks)%nat ->
  exists s' w, send_stream blocks r s = (Ret None, s') /\ ready s' buffered (sofar ++ sent_head r ++ w) /\
    decodes cfg CHUNK_SIZE 0 0 w "chunk-1chunk-2Deliberate stream error" CRLF.
Proof.
  intros L L4 Lb W Hk Hh Hn Hc Hr Hb.
  assert (forall c, is_u64 (Z.of_nat (length c)) -> Z.of_nat (length (HttpStreamResponse.chunk_bytes c)) <= 64 -> block_ok cfg r c) as Small.
  { intros c H1 H2. split; [done|]. unfold fits, wire_block. rewrite Hc. lia. }
  set (l := ["chunk-1"%string : bytes; "chunk-2"%string : bytes]). set (e := RuntimeError "Deliberate stream error").
  destruct (send_stream_sent cfg toHttpDate date std_what call reset_connection send_all today same_day step call_step
    (Throwing 0) l (Some e) r s blocks buffered sofar) as (s' & E & _ & Hr').
  - do 2 (eapply gives_chunk; [reflexivity|]). by apply gives_throw.
  - done.
  - split; [done|done| |split].
    + repeat apply Forall_cons_2; try apply Forall_nil_2; apply Small; vm_compute; repeat split; congruence.
    + repeat apply Forall_cons_2; try apply Forall_nil_2; vm_compute; repeat split; congruence.
    + unfold fits, wire_block. rewrite Hc. etransitivity; [|exact W]. vm_compute. congruence.
  - done.
  - exact Hb.
  - rewrite (wire_split r _ (l ++ [error_text std_what e]) []) in Hr' by done. eexists s', _. split; [exact E|]. split; [exact Hr'|].
    cbn [map concat]. apply (encoded_decodes cfg L (l ++ [error_text std_what e]) [] 0); [|lia|etransitivity; [|exact Lb]; vm_compute; congruence].
    repeat apply Forall_cons_2; try apply Forall_nil_2; (split; [vm_compute; reflexivity|etransitivity; [|exact L4]; vm_compute; congruence]).
Qed.
End Connected.

(** A compressor in between changes what is sent, not what is received. *)
Section Compressed.
Context {S C : Type} {IC : ICompressor C} {CF : Compressors C} {CL : CompressorLaws C}.

Lemma echo_compressed (s : S) comp body : fed comp [] [] ->
  exists fuel outs comp' f', yields (nextChunk call fuel) (Compressed comp (Source (Echo 0 body)) false) s outs (Compressed comp' f' true) s /\
    decode (getEncoding comp) (concat outs) = Some body /\ Forall (fun b => b <> []) outs.
Proof.
  intros Hf. destruct (echo_yields s 0 body (length body)) as (f' & Y); [lia|]. rewrite drop_0 in Y.
  assert (forall f l g (t t' : S), yields call f t l g t' -> yields (nextChunk (S := S) (C := C) call 1) (Source f) t l (Source g) t') as Src.
  { intros f l g t t' H. induction H as [f t g t' E|f t c f1 t1 l g t' E _ IH]; [apply y_end|eapply y_chunk; [|exact IH]]; cbn; by mstep E. }
  destruct (compressed_yields call 1 (Datatypes.S (Datatypes.S (length (pieces (length body) body)))) _ _ _ _ _ (Src _ _ _ _ _ Y) comp [] [] Hf) as (outs & comp' & Y' & D & N); [lia|].
  eexists _, outs, comp', _. split; [exact Y'|]. split; [|exact N]. cbn in D. rewrite D. f_equal. apply pieces_concat. lia.
Qed.
End Compressed.
