(* ===== verification/PoolRoutes.v ===== *)
(** Routes of the demo application over the thread pool
    ([app/src/routes/threadPoolTestRoutes.cpp]).  What they use of the pool is an
    interface: a job that was submitted is awaited by its handle, once ([ThreadPool.v]
    shows that awaiting gives what the job returned or threw). *)
From S2P Require Import Prelude Bytes Effects HttpTypes Json BodyStream Session Router ThreadPool Demo.
From S2P Require HttpRequest HttpResponse HeaderStore.

#[local] Arguments list_ascii_of_string : simpl never.

#[local] Abbreviation job := (callable Z exn).

(** The pool and the clock (in nanoseconds) of a handler's state; results that nobody
    reads are zero. *)
Class PoolAccess (S : Type) := {
  submit_job : job -> M S nat;
  await_job : nat -> M S Z;
  forget_job : job -> M S unit;
  steady_now : M S Z;
  pending : S -> nat -> option job;
}.

(** Every job is accepted; the handles in use are told apart, and awaiting one gives the
    outcome of its job, whenever the others run. *)
Class PoolAccessLaws (S : Type) {P : PoolAccess S} := {
  submit_law f s : exists h s', submit_job f s = (Ret h, s') /\ pending s h = None /\
    forall i, pending s' i = if decide (i = h) then Some f else pending s i;
  await_law h f s : pending s h = Some f ->
    exists s', await_job h s = (match f with Returns r => Ret r | Throws e => Throw e end, s') /\
      forall i, i <> h -> pending s' i = pending s i;
  now_law s : exists t s', steady_now s = (Ret t, s') /\ forall i, pending s' i = pending s i;
}.

Section Routes.
Context {S F : Type} {HR : HasRequest S} {BIO : BodyIO S} {J : NlohmannJson} {P : PoolAccess S}.
#[local] Abbreviation Handler := (Handler S F).
#[local] Abbreviation routes := (M (Router Handler (Middleware S F)) unit).

Definition plain_text (body : bytes) : Response F := Plain (HttpResponse.HttpResponse_body 200 body).
Definition result_json (n : Z) : Handler := as_json (Ret (json_pairs [("result" : bytes, json_int n)])).

(** Waiting without letting go of the thread; the fuel counts the readings of the clock. *)
Fixpoint spin_until (fuel : nat) (limit : Z) : M S unit :=
  match fuel with
  | 0 => undefined
  | Datatypes.S fuel => t ← steady_now; if (t <? limit)%Z then spin_until fuel limit else mret tt
  end.
Definition five_seconds : Z := 5 * 10 ^ 9.
Definition slow_route (fuel : nat) : Handler :=
  t ← steady_now; _ ← spin_until fuel (t + five_seconds); mret (plain_text "slow response").
Definition slowpool_route : Handler :=
  h ← submit_job (Returns 0%Z); _ ← await_job h; mret (plain_text "slow pooled response").

Definition pool_basic_route : Handler := h ← submit_job (Returns 42%Z); result ← await_job h; result_json result.
Definition pool_exception_route : Handler :=
  h ← submit_job (Throws (RuntimeError "pool task exploded")); _ ← await_job h; mret (plain_text "unreachable").
Definition pool_deferred_route : Handler :=
  handle ← submit_job (Returns 99%Z);
  other ← submit_job (Returns 0%Z); _ ← await_job other;
  result ← await_job handle; result_json result.

Fixpoint submit_all (js : list Z) : M S (list nat) :=
  match js with [] => mret [] | i :: js => h ← submit_job (Returns i); hs ← submit_all js; mret (h :: hs) end.
Fixpoint await_all (handles : list nat) : M S (list Z) :=
  match handles with [] => mret [] | h :: hs => r ← await_job h; rs ← await_all hs; mret (r :: rs) end.

Definition clamp (n lo hi : Z) : Z := if (n <? lo)%Z then lo else if (hi <? n)%Z then hi else n.
Definition job_count (nParam : bytes) : outcome Z := if nParam =?b [] then Ret 3%Z else n ← stoi nParam; Ret (clamp n 1 16).
Definition indices (n : Z) : list Z := map Z.of_nat (seq 0 (Z.to_nat n)).

Definition pool_concurrent_route : Handler :=
  start ← steady_now;
  request ← the_request;
  n ← lift (job_count (HttpRequest.getQueryParam "n" [] request));
  handles ← submit_all (indices n);
  results ← await_all handles;
  finish ← steady_now;
  as_json (Ret (json_pairs [("results" : bytes, json_array (map json_int results)); ("time" : bytes, json_int (Z.quot (finish - start) (10 ^ 6)))])).

Definition pool_forget_route : Handler :=
  _ ← forget_job (Returns 0%Z);
  as_json (Ret (json_pairs [("note" : bytes, json_string "task is running in background, check server logs")])).
(** The handle is destroyed at once. *)
Definition pool_unawaited_route : Handler :=
  _ ← submit_job (Returns 0%Z); mret (plain_text "no crash, check logs for unawaited warning").

Definition registerThreadPoolTestRoutes (fuel : nat) : routes :=
  get "/tests/slow" (slow_route fuel);;
  get "/tests/slowpool" slowpool_route;;
  get "/tests/pool/basic" pool_basic_route;;
  get "/tests/pool/exception" pool_exception_route;;
  get "/tests/pool/deferred" pool_deferred_route;;
  get "/tests/pool/concurrent" pool_concurrent_route;;
  get "/tests/pool/forget" pool_forget_route;;
  get "/tests/pool/unawaited" pool_unawaited_route.

(** ** What they answer *)
Context {L : PoolAccessLaws S}.

Lemma submit_all_ok js s : exists hs s', submit_all js s = (Ret hs, s') /\ NoDup hs /\
  Forall2 (fun h i => pending s' h = Some (Returns i)) hs js /\ Forall (fun h => pending s h = None) hs /\ forall h, h ∉ hs -> pending s' h = pending s h.
Proof.
  revert s. induction js as [|i js IH]; intros s; [exists [], s; split_and!; try done; constructor|].
  destruct (submit_law (Returns i) s) as (h & s1 & E & Hn & Hp). destruct (IH s1) as (hs & s2 & E2 & ND & P2 & N2 & O2).
  assert (h ∉ hs) as Hh.
  { intros I. rewrite Forall_forall in N2. specialize (N2 h I). rewrite Hp, decide_True in N2 by done. done. }
  exists (h :: hs), s2. cbn [submit_all]. rewrite (mbind_Ret _ _ _ _ _ E). rewrite (mbind_Ret _ _ _ _ _ E2). split; [done|]. split; [by constructor|].
  split; [constructor; [|done]; by rewrite O2, Hp, decide_True by done|]. split.
  - constructor; [done|]. apply Forall_forall. intros h' I. rewrite Forall_forall in N2. specialize (N2 h' I). rewrite Hp in N2. case_decide; [done|exact N2].
  - intros h' [N I]%not_elem_of_cons. by rewrite O2, Hp, decide_False by done.
Qed.

Lemma await_all_ok hs js s : NoDup hs -> Forall2 (fun h i => pending s h = Some (Returns i)) hs js ->
  exists s', await_all hs s = (Ret js, s').
Proof.
  intros ND. revert js s. induction ND as [|h hs Hh ND IH]; intros js s H; inversion H as [|? i ? js' Hi H']; subst; [by exists s|].
  destruct (await_law h (Returns i) s Hi) as (s1 & E & K). destruct (IH js' s1) as (s2 & E2).
  { apply Forall2_same_length_lookup_2; [by eapply Forall2_length|]. intros k h' i' Ih Ii. rewrite K; [exact (Forall2_lookup_lr (fun h i => pending s h = Some (Returns i)) _ _ k h' i' H' Ih Ii)|].
    intros ->. apply Hh. by eapply list_elem_of_lookup_2. }
  exists s2. cbn [await_all]. rewrite (mbind_Ret _ _ _ _ _ E). by rewrite (mbind_Ret _ _ _ _ _ E2).
Qed.

(** The results of jobs that run at the same time come in the order of their submission:
    every number below the count, whatever the pool runs first. *)
Lemma concurrent_in_order s n : job_count (HttpRequest.getQueryParam "n" [] (get_request (steady_now s).2)) = Ret n ->
  exists t s', pool_concurrent_route s =
    as_json (Ret (json_pairs [("results" : bytes, json_array (map json_int (indices n))); ("time" : bytes, json_int t)])) s'.
Proof.
  intros En. destruct (now_law s) as (t0 & s0 & E0 & _). rewrite E0 in En. cbn [snd] in En.
  destruct (submit_all_ok (indices n) s0) as (hs & s1 & E1 & ND & P1 & _).
  destruct (await_all_ok hs (indices n) s1 ND P1) as (s2 & E2). destruct (now_law s2) as (t1 & s3 & E3 & _).
  exists (Z.quot (t1 - t0) (10 ^ 6)), s3. unfold pool_concurrent_route. rewrite (mbind_Ret _ _ _ _ _ E0). unfold the_request.
  rewrite (mbind_Ret _ _ _ (get_request s0) s0) by done. rewrite (mbind_Ret _ _ _ n s0) by (unfold lift; by rewrite En).
  rewrite (mbind_Ret _ _ _ _ _ E1), (mbind_Ret _ _ _ _ _ E2). by rewrite (mbind_Ret _ _ _ _ _ E3).
Qed.

(** One job: its result, or its exception, reaches the handler. *)
Lemma job_reaches s f : exists h s1 s2, submit_job f s = (Ret h, s1) /\
  await_job h s1 = (match f with Returns r => Ret r | Throws e => Throw e end, s2).
Proof.
  destruct (submit_law f s) as (h & s1 & E & _ & Hp). destruct (await_law h f s1) as (s2 & E2 & _); [by rewrite Hp, decide_True|]. by exists h, s1, s2.
Qed.

Lemma pool_answers s : (exists s', pool_basic_route s = result_json 42 s') /\ (exists s', pool_deferred_route s = result_json 99 s') /\
  (exists s', pool_exception_route s = (Throw (RuntimeError "pool task exploded"), s')) /\
  (exists s', slowpool_route s = (Ret (plain_text "slow pooled response"), s')).
Proof.
  split_and!.
  - destruct (job_reaches s (Returns 42%Z)) as (h & s1 & s2 & E1 & E2). exists s2. unfold pool_basic_route. by rewrite (mbind_Ret _ _ _ _ _ E1), (mbind_Ret _ _ _ _ _ E2).
  - destruct (submit_law (Returns 99%Z) s) as (h & s1 & E1 & _ & P1). destruct (submit_law (Returns 0%Z) s1) as (h' & s2 & E2 & F2 & P2).
    destruct (await_law h' (Returns 0%Z) s2) as (s3 & E3 & K3); [by rewrite P2, decide_True|].
    assert (h <> h') as N by (intros ->; by rewrite P1, decide_True in F2).
    destruct (await_law h (Returns 99%Z) s3) as (s4 & E4 & _); [by rewrite K3, P2, decide_False, P1, decide_True by done|].
    exists s4. unfold pool_deferred_route. by rewrite (mbind_Ret _ _ _ _ _ E1), (mbind_Ret _ _ _ _ _ E2), (mbind_Ret _ _ _ _ _ E3), (mbind_Ret _ _ _ _ _ E4).
  - destruct (job_reaches s (Throws (RuntimeError "pool task exploded"))) as (h & s1 & s2 & E1 & E2). exists s2. unfold pool_exception_route.
    rewrite (mbind_Ret _ _ _ _ _ E1). by rewrite (mbind_Throw _ _ _ _ _ E2).
  - destruct (job_reaches s (Returns 0%Z)) as (h & s1 & s2 & E1 & E2). exists s2. unfold slowpool_route. by rewrite (mbind_Ret _ _ _ _ _ E1), (mbind_Ret _ _ _ _ _ E2).
Qed.
End Routes.

(** A pool that runs a job when it is awaited. *)
Definition lazy_pool : Type := HttpRequest.HttpRequest * (list job * Z).
#[export] Instance lazy_access : PoolAccess lazy_pool := {|
  submit_job f := fun '(r, (fs, t)) => (Ret (length fs), (r, (fs ++ [f], t)));
  await_job h := fun '(r, (fs, t)) => (match fs !! h with Some (Returns v) => Ret v | Some (Throws e) => Throw e | None => Undef end, (r, (fs, t)));
  forget_job _ := mret tt;
  steady_now := fun '(r, (fs, t)) => (Ret t, (r, (fs, t + 1)%Z));
  pending s h := s.2.1 !! h;
|}.
#[export] Instance lazy_laws : PoolAccessLaws lazy_pool.
Proof.
  split.
  - intros f [r [fs t]]. exists (length fs), (r, (fs ++ [f], t)). split; [done|]. cbn. split; [by apply lookup_ge_None_2|]. intros i.
    case_decide as D; [subst i; by apply list_lookup_middle|]. destruct (Nat.lt_ge_cases i (length fs)); [by rewrite lookup_app_l|].
    rewrite lookup_app_r, (lookup_ge_None_2 fs) by lia. by apply lookup_ge_None_2; cbn; lia.
  - intros h f [r [fs t]] E. cbn in E. exists (r, (fs, t)). cbn. rewrite E. by destruct f.
  - intros [r [fs t]]. by exists t, (r, (fs, t + 1)%Z).
Defined.
