(* ===== verification/FormRoutes.v ===== *)
(** The multipart form of the demo application ([app/src/routes/formTestRoutes.cpp]): the
    handlers it registers with the parser, over the local variables and the file that
    they capture by reference, and what a form is answered. *)
From S2P Require Import Prelude Bytes Effects ServerConfig HttpTypes BodyStream MultipartParser MultipartForm FileIO Router Json Demo.
From S2P Require HttpRequest HttpResponse HeaderStore.

#[local] Open Scope Z_scope.
#[local] Arguments list_ascii_of_string : simpl never.

(** The local variables of the handler. *)
Record form_locals := { username_ : bytes; password_ : bytes; terms_ : list bytes; writer_ : option AsyncFileWriter }.

Definition set_username (v : bytes) (l : form_locals) : form_locals :=
  {| username_ := v; password_ := password_ l; terms_ := terms_ l; writer_ := writer_ l |}.
Definition set_password (v : bytes) (l : form_locals) : form_locals :=
  {| username_ := username_ l; password_ := v; terms_ := terms_ l; writer_ := writer_ l |}.
Definition push_term (v : bytes) (l : form_locals) : form_locals :=
  {| username_ := username_ l; password_ := password_ l; terms_ := terms_ l ++ [v]; writer_ := writer_ l |}.
Definition set_writer (w : option AsyncFileWriter) (l : form_locals) : form_locals :=
  {| username_ := username_ l; password_ := password_ l; terms_ := terms_ l; writer_ := w |}.

(** Where they are while the coroutine runs, and the file system. *)
Class FormFrame (S W : Type) := {
  get_locals : S -> form_locals;
  put_locals : form_locals -> S -> S;
  get_disk : S -> W;
  put_disk : W -> S -> S;
}.

Section Route.
Context {S W F : Type} {HR : HasRequest S} {BIO : BodyIO S} {FS : FileSystem W} {FF : FormFrame S W} {J : NlohmannJson}.
(** The configuration, the order in which an [unordered_map] is walked, and the rounds for
    the loops of the parser. *)
Context (cfg : ServerConfig) (walk : multi -> list (bytes * list bytes)) (rounds : nat).

Definition on_locals (f : form_locals -> form_locals) (s : S) : S := put_locals (f (get_locals s)) s.
Definition on_disk {A} (m : M W A) : M S A := fun s => let '(a, w) := m (get_disk s) in (a, put_disk w s).

(** [co_await writerOpt->writeChunk(...)]: the result is not looked at. *)
Definition write_part (d : bytes) : M S unit :=
  l ← gets get_locals;
  match writer_ l with
  | None => undefined
  | Some w => '(_, w) ← on_disk (writeChunk w d); modify (on_locals (set_writer (Some w)))
  end.

(** The end of the scope of [writerOpt], however it is left. *)
Definition closing_writer {A} (m : M S A) : M S A := fun s =>
  let '(a, s) := m s in
  match writer_ (get_locals s) with Some w => (a, (on_disk (writer_close w) s).2) | None => (a, s) end.

Definition form_fields (mp : MultipartParser S) : MultipartParser S :=
  storeFieldValues "terms" (fun v => on_locals (push_term v))
    (storeFieldValue "password" (fun v => on_locals (set_password v))
      (onField "username" (fun v => modify (on_locals (set_username v))) mp)).

Definition form_answer : M S (Response F) :=
  l ← gets get_locals;
  as_json (Ret (json_pairs [("username" : bytes, json_string (username_ l)); ("password" : bytes, json_string (password_ l));
                            ("terms" : bytes, json_array (map json_string (terms_ l)))])).

(** [co_await mp.go()] *)
Definition await_go (mp : MultipartParser S) : M S unit :=
  r ← go cfg walk rounds mp; match r with Some tt => mret tt | None => undefined end.

Definition multipart_route : Handler S F :=
  mp ← MultipartParser_new cfg;
  modify (put_locals {| username_ := []; password_ := []; terms_ := []; writer_ := None |});;
  let mp := form_fields mp in
  writerOpt ← on_disk (AsyncFileWriter_open "./app/public/test.bin");
  modify (on_locals (set_writer writerOpt));;
  closing_writer
    match writerOpt with
    | None => throw (RuntimeError "File issue")
    | Some _ => await_go (onFile "file" write_part mp);; form_answer
    end.

Definition registerMultipartRoute : M (Router (Handler S F) (Middleware S F)) unit := post "/tests/forms/multipart" multipart_route.
End Route.

(** ** What a form is answered *)

(** The values of a field, and the contents sent for a file, in the order of the parts. *)
Definition field_values (name : bytes) (l : list form_part) : list bytes :=
  map part_data (List.filter (fun p => negb (part_file p) && (part_name p =?b name)) l).
Definition file_content (name : bytes) (l : list form_part) : bytes :=
  concat (map part_data (List.filter (fun p => part_file p && (part_name p =?b name)) l)).

Record form_result := { r_username : bytes; r_password : bytes; r_terms : list bytes; r_content : bytes }.

(** The last user name and password, all the terms, and the file. *)
Definition form_result_of (l : list form_part) : form_result :=
  {| r_username := List.last (field_values "username" l) []; r_password := List.last (field_values "password" l) [];
     r_terms := field_values "terms" l; r_content := file_content "file" l |}.

(** What the handlers make of a field, of the terms and of a block of the file. *)
Definition field_effect (name v : bytes) (x : form_result) : form_result :=
  if name =?b "username" then {| r_username := v; r_password := r_password x; r_terms := r_terms x; r_content := r_content x |}
  else {| r_username := r_username x; r_password := v; r_terms := r_terms x; r_content := r_content x |}.
Definition multi_effect (name : bytes) (vs : list bytes) (x : form_result) : form_result :=
  {| r_username := r_username x; r_password := r_password x; r_terms := r_terms x ++ vs; r_content := r_content x |}.
Definition file_effect (name d : bytes) (x : form_result) : form_result :=
  {| r_username := r_username x; r_password := r_password x; r_terms := r_terms x; r_content := r_content x ++ d |}.

Section Effects.
Context {S W : Type} {HR : HasRequest S} {BIO : BodyIO S} {FS : FileSystem W} {FF : FormFrame S W}.

Definition the_fields : list (bytes * (bytes -> M S unit)) :=
  [("username" : bytes, fun v => modify (on_locals (set_username v))); ("password" : bytes, fun v => modify (on_locals (set_password v)))].
Definition the_multis : list (bytes * (list bytes -> M S unit)) :=
  [("terms" : bytes, fun vs => modify (fun s => fold_left (fun s v => on_locals (push_term v) s) vs s))].
Definition the_files : list (bytes * option (bytes -> M S unit)) := [("file" : bytes, Some write_part)].

#[local] Abbreviation deliver := (deliver_part the_fields the_multis the_files field_effect file_effect).

(** What a part does to the four results. *)
Definition after_part (x : form_result) (p : form_part) : form_result :=
  {| r_username := List.last (field_values "username" [p]) (r_username x); r_password := List.last (field_values "password" [p]) (r_password x);
     r_terms := r_terms x; r_content := r_content x ++ file_content "file" [p] |}.

Definition add_terms (vs : list bytes) (m : multi) : multi :=
  match vs with [] => m | _ => <["terms" : bytes := default [] (m !! ("terms" : bytes)) ++ vs]> m end.

Lemma delivered x m p : deliver (x, m) p = (after_part x p, add_terms (field_values "terms" [p]) m).
Proof.
  unfold MultipartForm.deliver_part, after_part, field_values, file_content, has_file, has_field, has_multi, the_files, the_fields, the_multis. cbn [move_handler assoc_first List.filter].
  rewrite !(beqb_sym _ (part_name p)). destruct (part_file p); cbn [negb andb].
  - destruct (part_name p =?b "file"); cbn; [by rewrite app_nil_r; destruct x|by rewrite app_nil_r; destruct x].
  - destruct (beqb_spec (part_name p) "username") as [->|]; [cbn; rewrite app_nil_r; by destruct x|].
    destruct (beqb_spec (part_name p) "password") as [->|]; [cbn; rewrite app_nil_r; by destruct x|].
    destruct (beqb_spec (part_name p) "terms") as [->|]; cbn; rewrite app_nil_r; by destruct x.
Qed.

Lemma values_cons name p l : field_values name (p :: l) = field_values name [p] ++ field_values name l.
Proof. unfold field_values. cbn [List.filter]. by destruct (_ && _). Qed.

Lemma content_cons name p l : file_content name (p :: l) = file_content name [p] ++ file_content name l.
Proof. unfold file_content. cbn [List.filter]. destruct (_ && _); [|done]. cbn [map concat]. by rewrite app_nil_r. Qed.

Lemma last_of_app {A} (a b : list A) d : List.last (a ++ b) d = List.last b (List.last a d).
Proof.
  revert d. induction a as [|x a IH]; intros d; [done|]. cbn [app]. destruct a as [|y a]; [|exact (IH d)].
  cbn. destruct b as [|z b]; [done|]. clear. revert z. induction b as [|w b IH]; intros z; [done|]. exact (IH w).
Qed.

Lemma add_terms_app a b m : add_terms (a ++ b) m = add_terms b (add_terms a m).
Proof.
  destruct a as [|x a]; [done|]. destruct b as [|y b]; [by rewrite app_nil_r|]. cbn [app add_terms]. unfold multi in *.
  rewrite lookup_insert, insert_insert. case_decide; [|done]. cbn [default from_option id]. by rewrite <- app_assoc.
Qed.

Lemma form_delivered l x m : fold_left deliver l (x, m) =
  ({| r_username := List.last (field_values "username" l) (r_username x); r_password := List.last (field_values "password" l) (r_password x);
      r_terms := r_terms x; r_content := r_content x ++ file_content "file" l |}, add_terms (field_values "terms" l) m).
Proof.
  revert x m. induction l as [|p l IH]; intros x m; [cbn; rewrite app_nil_r; by destruct x|]. cbn [fold_left]. rewrite delivered, IH.
  unfold after_part. cbn [r_username r_password r_terms r_content].
  rewrite (values_cons "username" p l), (values_cons "password" p l), (values_cons "terms" p l), (content_cons "file" p l), !last_of_app, add_terms_app.
  by rewrite app_assoc.
Qed.

(** A map is walked through all of its entries. *)
Lemma form_received_as walk l : (forall m : multi, walk m ≡ₚ map_to_list m) ->
  received the_fields the_multis the_files field_effect multi_effect file_effect walk l {| r_username := []; r_password := []; r_terms := []; r_content := [] |} = form_result_of l.
Proof.
  unfold multi. intros Hw. unfold received. rewrite form_delivered. cbn [r_username r_password r_terms r_content app]. unfold form_result_of.
  destruct (field_values "terms" l) as [|v vs] eqn:E; cbn [add_terms].
  - specialize (Hw ∅). rewrite map_to_list_empty in Hw. apply Permutation_nil_r in Hw.
    match goal with |- context [walk ?m] => change (walk m) with (walk (∅ : gmap bytes (list bytes))) end. by rewrite Hw.
  - specialize (Hw {["terms" : bytes := v :: vs]}). rewrite map_to_list_singleton in Hw. apply Permutation_singleton_r in Hw.
    match goal with |- context [walk ?m] => assert (walk m = [("terms" : bytes, v :: vs)]) as -> end; [|reflexivity].
    by rewrite <- Hw.
Qed.
End Effects.

(** A parser begins with no handlers, and nothing read. *)
Lemma parser_fresh {S} {HR : HasRequest S} {BIO : BodyIO S} cfg (s s' : S) mp : MultipartParser_new cfg s = (Ret mp, s') ->
  mp = {| contentLength_ := contentLength_ mp; contentConsumed_ := 0; reader_ := []; boundary_ := boundary_ mp; fieldHandlers_ := []; MultiFieldHandlers_ := []; fileHandlers_ := [] |}.
Proof.
  unfold MultipartParser_new. unfold mbind, M_bind, gets, modify_request, modify, lift, throw. destruct (HttpRequest.getContentLength (get_request s)) as [r q].
  destruct (size_limit cfg q r) as [n|e|]; [|done..]. destruct (negb _); [done|]. destruct (content_boundary _) as [b|e|]; [|done..].
  destruct (bool_decide _); [done|]. destruct (_ <? _); [done|]. by intros [= <- _].
Qed.

(** What the route asks of the stream of the body: it fills buffers as long as it can,
    and leaves the variables and the file alone; and of a file that is open: what was
    written stays, and what is written is appended. *)
Class FormLaws (S W : Type) {BIO : BodyIO S} {FS : FileSystem W} {FF : FormFrame S W} := {
  delivers : S -> bytes -> Prop;
  holds : W -> AsyncFileWriter -> bytes -> Prop;
  delivers_eager s rest n : delivers s rest -> 0 < n -> exists s', BodyStream.read n s = (Ret (take (Z.to_nat n) rest), s') /\
    delivers s' (drop (Z.to_nat n) rest) /\ get_locals s' = get_locals s /\ get_disk s' = get_disk s;
  delivers_locals s rest l : delivers s rest -> delivers (put_locals l s) rest /\ get_locals (put_locals l s) = l /\ get_disk (put_locals l s) = get_disk s;
  delivers_disk s rest w : delivers s rest -> delivers (put_disk w s) rest /\ get_locals (put_disk w s) = get_locals s /\ get_disk (put_disk w s) = w;
  holds_write w wr c d : holds w wr c -> exists b wr' w', writeChunk wr d w = (Ret (b, wr'), w') /\ holds w' wr' (c ++ d);
}.

Section Answered.
Context {S W F : Type} {HR : HasRequest S} {BIO : BodyIO S} {FS : FileSystem W} {FF : FormFrame S W} {FL : FormLaws S W} {J : NlohmannJson}.
Context (cfg : ServerConfig) (walk : multi -> list (bytes * list bytes)) (rounds : nat).

(** The four results in the variables and in the file, while [rest] is to come. *)
Definition in_form (s : S) (rest : bytes) (x : form_result) : Prop :=
  delivers s rest /\ exists wr, get_locals s = {| username_ := r_username x; password_ := r_password x; terms_ := r_terms x; writer_ := Some wr |} /\ holds (get_disk s) wr (r_content x).

Lemma in_form_locals s rest x x' f : in_form s rest x -> r_content x' = r_content x ->
  (forall wr, f {| username_ := r_username x; password_ := r_password x; terms_ := r_terms x; writer_ := Some wr |} =
    {| username_ := r_username x'; password_ := r_password x'; terms_ := r_terms x'; writer_ := Some wr |}) -> in_form (on_locals f s) rest x'.
Proof.
  intros (D & wr & L & H) Hc Hf. unfold on_locals. rewrite L, Hf. destruct (delivers_locals s rest {| username_ := r_username x'; password_ := r_password x'; terms_ := r_terms x'; writer_ := Some wr |} D) as (D' & L' & K').
  split; [done|]. exists wr. rewrite L', K', Hc. by split.
Qed.

Lemma form_eager s rest x n : in_form s rest x -> 0 < n -> exists s', BodyStream.read n s = (Ret (take (Z.to_nat n) rest), s') /\ in_form s' (drop (Z.to_nat n) rest) x.
Proof.
  intros (D & wr & L & H) Hn. destruct (delivers_eager s rest n D Hn) as (s' & E & D' & L' & K'). exists s'. split; [done|]. split; [done|]. exists wr. by rewrite L', K'.
Qed.

Lemma form_field name h v s rest x : assoc_first name the_fields = Some h -> in_form s rest x -> exists s', h v s = (Ret tt, s') /\ in_form s' rest (field_effect name v x).
Proof.
  unfold the_fields, field_effect. cbn [assoc_first]. rewrite !(beqb_sym _ name). destruct (name =?b "username").
  - intros [= <-] HI. eexists. split; [reflexivity|]. by eapply in_form_locals.
  - destruct (name =?b "password"); [|done]. intros [= <-] HI. eexists. split; [reflexivity|]. by eapply in_form_locals.
Qed.

Lemma form_multi name h vs s rest x : assoc_first name the_multis = Some h -> in_form s rest x -> exists s', h vs s = (Ret tt, s') /\ in_form s' rest (multi_effect name vs x).
Proof.
  unfold the_multis. cbn [assoc_first]. destruct (_ =?b name); [|done]. intros [= <-] HI. eexists. split; [reflexivity|].
  revert s x HI. induction vs as [|v vs IH]; intros s x HI; cbn [fold_left].
  - unfold multi_effect. rewrite app_nil_r. by destruct x.
  - replace (multi_effect name (v :: vs) x) with (multi_effect name vs (multi_effect name [v] x)) by (unfold multi_effect; cbn; by rewrite <- app_assoc).
    apply IH. by eapply in_form_locals.
Qed.

Lemma form_file name h l d s rest x : move_handler name the_files = Some (Some h, l) -> in_form s rest x -> exists s', h d s = (Ret tt, s') /\ in_form s' rest (file_effect name d x).
Proof.
  unfold the_files. cbn [move_handler]. destruct (_ =?b name); [|done]. intros [= <- _] (D & wr & L & H). destruct (holds_write _ wr _ d H) as (b & wr' & w' & E & H').
  unfold write_part. rewrite (mbind_Ret _ _ s (get_locals s) s) by done. rewrite L. cbn [writer_]. rewrite (mbind_Ret _ _ s (b, wr') (put_disk w' s)) by (unfold on_disk; by rewrite E).
  destruct (delivers_disk s rest w' D) as (D1 & L1 & K1). eexists. split; [reflexivity|]. unfold on_locals. rewrite L1, L.
  destruct (delivers_locals (put_disk w' s) rest (set_writer (Some wr') {| username_ := r_username x; password_ := r_password x; terms_ := r_terms x; writer_ := Some wr |}) D1) as (D2 & L2 & K2).
  split; [done|]. exists wr'. rewrite L2, K2, K1. by split.
Qed.

Definition form_json (x : form_result) : json :=
  json_pairs [("username" : bytes, json_string (r_username x)); ("password" : bytes, json_string (r_password x)); ("terms" : bytes, json_array (map json_string (r_terms x)))].

(** A form that fits is answered with what was in it, and its file is on the disk, closed:
    the last user name and password, all the terms in order, and the whole content sent
    under "file", in whatever order and sizes the parts come. *)
Theorem form_answered (s s1 : S) mp b l after w1 wr body :
  MultipartParser_new cfg s = (Ret mp, s1) -> boundary_ mp = CRLF ++ "--" ++ b ->
  AsyncFileWriter_open "./app/public/test.bin" (get_disk s1) = (Ret (Some wr), w1) -> holds w1 wr [] ->
  delivers s1 (form_text (boundary_ mp) l ++ after) ->
  limits cfg -> Z.of_nat (length (boundary_ mp) + 2) < MULTIPART_BUFFER_SIZE cfg -> (forall m : multi, walk m ≡ₚ map_to_list m) ->
  l <> [] -> Forall (part_ok cfg (boundary_ mp)) l -> NoDup (file_names l) -> Z.of_nat (length l) <= MAX_MULTIPART_PARTS cfg ->
  Z.of_nat (length (form_text (boundary_ mp) l)) <= contentLength_ mp < two64 -> (length (form_text (boundary_ mp) l) < rounds)%nat ->
  dump (-1) (form_json (form_result_of l)) = Ret body ->
  exists s' w wr', multipart_route (F := F) cfg walk rounds s = (Ret (with_type "application/json" (HttpResponse.HttpResponse_body 200 body)), s') /\
    holds w wr' (r_content (form_result_of l)) /\ get_disk s' = (writer_close wr' w).2.
Proof.
  intros Hnew Hb Hopen Hh Hd Hlim Hfit Hwalk Hne Hok Hnd Hn Hlen Hr Hdump. unfold multipart_route. rewrite (mbind_Ret _ _ _ _ _ Hnew).
  set (l0 := {| username_ := []; password_ := []; terms_ := []; writer_ := None |}). destruct (delivers_locals s1 _ l0 Hd) as (D1 & L1 & K1).
  rewrite (mbind_Ret _ _ s1 tt (put_locals l0 s1)) by done. cbv zeta. rewrite (mbind_Ret _ _ _ (Some wr) (put_disk w1 (put_locals l0 s1))) by (unfold on_disk; by rewrite K1, Hopen).
  destruct (delivers_disk _ _ w1 D1) as (D2 & L2 & K2). set (s2 := put_disk w1 _) in *. rewrite (mbind_Ret _ _ s2 tt (on_locals (set_writer (Some wr)) s2)) by done.
  set (s3 := on_locals _ s2). set (x0 := {| r_username := []; r_password := []; r_terms := []; r_content := [] |}).
  assert (in_form s3 (form_text (boundary_ mp) l ++ after) x0) as HI.
  { unfold s3, on_locals. rewrite L2, L1. destruct (delivers_locals s2 _ (set_writer (Some wr) l0) D2) as (D3 & L3 & K3). split; [done|]. exists wr. rewrite L3, K3, K2. by split. }
  destruct (go_received cfg in_form form_eager the_fields the_multis the_files field_effect multi_effect file_effect form_field form_multi form_file) with
    (boundary := boundary_ mp) (length_ := contentLength_ mp) (walk := walk) (fuel := rounds) (p := onFile "file" write_part (form_fields mp)) (b := b) (l := l) (after := after) (x := x0) (s := s3)
    as (s4 & p4 & rest' & E & _ & _ & HI4); try done.
  - intros name x. unfold file_effect. rewrite app_nil_r. by destruct x.
  - intros name u v x. unfold file_effect. cbn. by rewrite app_assoc.
  - intros name h l'. unfold the_files. cbn [move_handler]. destruct (_ =?b name); [|done]. by intros [= <- _].
  - pose proof (parser_fresh _ _ _ _ Hnew) as ->. by repeat split.
  - rewrite form_received_as in HI4 by done. destruct HI4 as (D4 & wr4 & L4 & H4). set (x := form_result_of l) in *.
    unfold closing_writer. rewrite (mbind_Ret _ _ s3 tt s4) by (unfold await_go; by rewrite (mbind_Ret _ _ _ _ _ E)).
    unfold form_answer. rewrite (mbind_Ret _ _ s4 (get_locals s4) s4) by done. rewrite L4. cbn [username_ password_ terms_]. fold (form_json x).
    unfold as_json. rewrite (mbind_Ret _ _ s4 (form_json x) s4) by done. rewrite (mbind_Ret _ _ s4 body s4) by (unfold lift; by rewrite Hdump).
    cbn [mret M_ret]. rewrite L4. cbn [writer_]. unfold on_disk. destruct (writer_close wr4 (get_disk s4)) as [a w5] eqn:Ec. destruct (delivers_disk s4 rest' w5 D4) as (_ & _ & K5).
    eexists _, (get_disk s4), wr4. split; [reflexivity|]. split; [exact H4|]. cbn [snd]. by rewrite K5, Ec.
Qed.

(** A request that is no multipart form is refused before the file is opened. *)
Lemma multipart_refused (s s1 : S) e : MultipartParser_new cfg s = (Throw e, s1) -> multipart_route (F := F) cfg walk rounds s = (Throw e, s1).
Proof. intros E. unfold multipart_route. unfold mbind at 1, M_bind. by rewrite E. Qed.
End Answered.

(** ** A client *)
Module FormRoutesWitnesses.
Import JsonWitnesses MemoryFiles MultipartFormWitnesses.

Record form_state := { fs_request : HttpRequest.HttpRequest; fs_body : option BodyStream; fs_left : bytes; fs_locals : form_locals; fs_disk : disk }.

#[local, refine] Instance state_request : HasRequest form_state := {|
  get_request := fs_request;
  put_request r s := {| fs_request := r; fs_body := fs_body s; fs_left := fs_left s; fs_locals := fs_locals s; fs_disk := fs_disk s |};
|}.
Proof. all: by intros; destruct s. Defined.

#[local] Instance state_body : BodyIO form_state := {|
  get_body := fs_body;
  put_body b s := {| fs_request := fs_request s; fs_body := b; fs_left := fs_left s; fs_locals := fs_locals s; fs_disk := fs_disk s |};
  readFn _ size _ := fun s => (Ret (take (Z.to_nat size) (fs_left s)),
    {| fs_request := fs_request s; fs_body := fs_body s; fs_left := drop (Z.to_nat size) (fs_left s); fs_locals := fs_locals s; fs_disk := fs_disk s |});
  drainFn _ _ := mret tt;
|}.

#[local] Instance state_frame : FormFrame form_state disk := {|
  get_locals := fs_locals;
  put_locals l s := {| fs_request := fs_request s; fs_body := fs_body s; fs_left := fs_left s; fs_locals := l; fs_disk := fs_disk s |};
  get_disk := fs_disk;
  put_disk d s := {| fs_request := fs_request s; fs_body := fs_body s; fs_left := fs_left s; fs_locals := fs_locals s; fs_disk := d |};
|}.

Definition state_delivers (s : form_state) (rest : bytes) : Prop :=
  fs_left s = rest /\ exists b, fs_body s = Some b /\ remaining_ b = Z.of_nat (length rest) /\ is_u64 (remaining_ b) /\ (exhausted_ b = true -> rest = []).

Definition file_holds (d : disk) (w : AsyncFileWriter) (c : bytes) : Prop :=
  exists path t, opened d !! writer_fd w = Some path /\ files d !! path = Some (c, t).

Lemma state_eager s rest n : state_delivers s rest -> 0 < n -> exists s', BodyStream.read n s = (Ret (take (Z.to_nat n) rest), s') /\
  state_delivers s' (drop (Z.to_nat n) rest) /\ fs_locals s' = fs_locals s /\ fs_disk s' = fs_disk s.
Proof.
  intros (Hl & b & Hb & Hr & Hu & He) Hn. unfold BodyStream.read, the_body, mbind, M_bind, get_body, state_body. rewrite Hb. destruct (exhausted_ b) eqn:Ex.
  - exists s. rewrite He, take_nil, drop_nil by done. split; [done|]. split; [|done]. split; [by rewrite Hl, He|]. exists b. rewrite Hr, He in * by done. by split_and!.
  - unfold readFn. rewrite Hb. cbn. eexists. split; [by rewrite Hl|]. split; [|done]. cbn. split; [by rewrite ?Hl|]. eexists. split; [done|]. cbn. unfold is_u64 in Hu.
    assert (u64 (remaining_ b - Z.of_nat (length (take (Z.to_nat n) rest))) = Z.of_nat (length (drop (Z.to_nat n) rest))) as ->.
    { rewrite u64_small; rewrite ?Hr, ?length_drop, ?length_take; [lia|]. unfold is_u64. lia. }
    split; [done|]. split; [unfold is_u64; rewrite length_drop; lia|]. rewrite Ex. cbn [orb].
    intros [H|H]%orb_true_iff; apply Z.eqb_eq in H; apply nil_length_inv; rewrite ?length_take, ?length_drop in *; lia.
Qed.

Lemma file_write d w c block : file_holds d w c -> exists b w' d', writeChunk w block d = (Ret (b, w'), d') /\ file_holds d' w' (c ++ block).
Proof.
  intros (path & t & Ho & Hf). unfold writeChunk, sys, mbind, M_bind. cbn [uring_write memory]. unfold append_to. rewrite Ho.
  destruct (Z.ltb_spec (Z.of_nat (length block)) 0); [lia|]. eexists _, _, _. split; [reflexivity|]. exists path, t. cbn. split; [done|]. by rewrite lookup_alter_eq, Hf.
Qed.

#[local, refine] Instance state_laws : FormLaws form_state disk := {|
  delivers := state_delivers;
  holds := file_holds;
  delivers_eager := state_eager;
  holds_write := file_write;
|}.
Proof. all: intros s rest ? []; by repeat split. Defined.

(** A browser's form, with the password after the file. *)
Definition browser_form : list form_part :=
  [text_part "terms" "b"; text_part "username" "me"; file_part "file" "a.bin" MultipartWitnesses.data; text_part "password" "pw"; text_part "terms" "c"].

Definition browser_request : HttpRequest.HttpRequest :=
  HttpRequest.addHeader "Content-Type" "multipart/form-data; boundary=xyz"
    (HttpRequest.addHeader "Content-Length" (to_string (Z.of_nat (length (form_text MultipartWitnesses.bound browser_form)))) (HttpRequest.fresh [] 0)).

Definition browser : form_state :=
  {| fs_request := browser_request; fs_body := Some (mkBodyStream (Z.of_nat (length (form_text MultipartWitnesses.bound browser_form))) LengthBody);
     fs_left := form_text MultipartWitnesses.bound browser_form; fs_locals := {| username_ := []; password_ := []; terms_ := []; writer_ := None |};
     fs_disk := {| files := ∅; opened := ∅; next_fd := 5 |} |}.

Lemma form_answered_witness : exists body s', multipart_route (F := unit) default_config map_to_list rounds browser =
    (Ret (with_type "application/json" (HttpResponse.HttpResponse_body 200 body)), s') /\
  form_result_of browser_form = {| r_username := "me"; r_password := "pw"; r_terms := ["b"%string : bytes; "c"%string : bytes]; r_content := MultipartWitnesses.data |} /\
  (exists w wr', holds w wr' MultipartWitnesses.data /\ fs_disk s' = (writer_close wr' w).2).
Proof.
  destruct (MultipartParser_new default_config browser) as [[mp|e|] s1] eqn:E; [|vm_compute in E; discriminate..].
  assert (boundary_ mp = MultipartWitnesses.bound /\ contentLength_ mp = Z.of_nat (length (form_text MultipartWitnesses.bound browser_form)) /\
    fs_disk s1 = fs_disk browser /\ fs_left s1 = fs_left browser /\ fs_body s1 = fs_body browser) as (Hb & Hl & Hd & Hle & Hbo) by (vm_compute in E; injection E as <- <-; by vm_compute).
  destruct (form_answered (F := unit) default_config map_to_list rounds browser s1 mp "xyz" browser_form [] 
    {| files := {["./app/public/test.bin" : bytes := ([], 0)]}; opened := {[5 := "./app/public/test.bin" : bytes]}; next_fd := 6 |} {| writer_fd := 5; writer_offset := 0 |}
    (doc_print (@form_json doc_json (form_result_of browser_form)))) as (s' & w & wr' & R & H & D).
  - exact E.
  - by rewrite Hb.
  - cbn [get_disk state_frame]. rewrite Hd. vm_compute. reflexivity.
  - eexists _, _. split; reflexivity.
  - rewrite Hb, app_nil_r. split; [by rewrite Hle|]. rewrite Hbo. eexists. split; [reflexivity|]. split; [reflexivity|]. split; [vm_compute; split; congruence|done].
  - split; vm_compute; congruence.
  - rewrite Hb. vm_compute. congruence.
  - done.
  - done.
  - rewrite Hb. repeat apply Forall_cons_2; try apply Forall_nil_2; split; try (vm_compute; split; (reflexivity || lia)); try (vm_compute; congruence); vm_compute; reflexivity.
  - refine (proj1 (bool_decide_eq_true _) _). vm_compute. reflexivity.
  - vm_compute. congruence.
  - rewrite Hb, Hl. vm_compute. split; congruence.
  - rewrite Hb. apply Nat.ltb_lt. vm_compute. reflexivity.
  - reflexivity.
  - eexists _, s'. split; [exact R|]. split; [vm_compute; reflexivity|]. exists w, wr'. by split.
Defined.
End FormRoutesWitnesses.
