(* ===== verification/DemoApp.v ===== *)
(** The demo application as a whole ([app/main.cpp], [app/include/middlewares.hpp],
    [app/include/routes/testRoutes.hpp]): the chain of middlewares with their settings,
    all the groups of routes over one state, and what the main program starts. *)
From S2P Require Import Prelude Bytes Effects ServerConfig HttpTypes BodyStream Router Json Demo.
From S2P Require HttpRequest HeaderStore CorsMiddleware CacheControlMiddleware CompressionMiddleware Compression ErrorFactory FileIO StaticFiles StaticMiddleware ByteRanges Session.
From S2P Require HttpServer DbValue Model ActiveRecord TestRunner SuiteState PredicateTests CteTests RecordTests RelationTests StreamRoutes PoolRoutes MultipartParser FormRoutes.

#[local] Arguments list_ascii_of_string : simpl never.

(** ** The settings of the middlewares *)
Definition demo_cors (host : bytes) : CorsMiddleware.CorsState :=
  CorsMiddleware.setCorsMaxAge 10
    (CorsMiddleware.setCorsOrigins (literals ["http://localhost:8080"; "https://localhost:8443"; "http://127.0.0.1:8080"] ++
        [("http://" ++ host ++ ":8080" : bytes); ("https://" ++ host ++ ":8443" : bytes)])
      CorsMiddleware.CorsMiddleware_default).

(** [here]: the directory of the header. *)
Definition demo_static_config (here : bytes) : StaticFiles.StaticConfig :=
  {| StaticFiles.root := FileIO.path_append here "../public"; StaticFiles.prefix := "static"; StaticFiles.mimeCacheControl := ∅;
     StaticFiles.defaultCacheControl := "max-age=5, public" |}.
Definition demo_static {W} {FS : FileIO.FileSystem W} (cfg : ServerConfig) (here : bytes) : M W StaticFiles.StaticState :=
  s ← StaticFiles.StaticMiddleware_new cfg (demo_static_config here);
  mret (StaticFiles.setMimeCacheControl "text/css" "no-cache, no-store" s).

(** [InMemorySessionStore(std::chrono::seconds(std::stoi(std::to_string(120))))] *)
Definition demo_ttl : outcome Z := stoi (to_string 120).

Definition demo_cache : outcome CacheControlMiddleware.CacheControlConfig :=
  let '(r, c) := CacheControlMiddleware.setRouteCacheControl "/tests/debug/*" "max-age=5, public" CacheControlMiddleware.CacheControlConfig_default in
  r;; Ret (CacheControlMiddleware.setDefaultCacheControl "no-cache, no-store" (CacheControlMiddleware.setMimeCacheControl "text/html" "max-age=5, public" c)).

(** ** The routes and the chain, over one state *)

(** The state of the data base within the state of a connection. *)
Class HasDatabase (S D : Type) := { get_db : S -> D; put_db : D -> S -> S }.

Section App.
Context {S W D St C G : Type} {HR : HasRequest S} {BIO : BodyIO S} {IS : Session.ISessionStore St} {HS : Session.HasSession S St}
  {J : NlohmannJson} {JB : TestRunner.JsonBooleans} `{TestRunner.StdWhat} {P : PoolRoutes.PoolAccess S} {FS : FileIO.FileSystem W} {FF : FormRoutes.FormFrame S W}
  {HP : StaticMiddleware.HasProcess S W} {HD : HasDatabase S D} {IC : Compression.ICompressor C} {CF : Compression.Compressors C} {SS : StdSort}.
#[local] Abbreviation F := (Compression.ChunkFn C G).
#[local] Abbreviation Handler := (Handler S F).
#[local] Abbreviation Middleware := (Middleware S F).
#[local] Abbreviation routes := (M (Router Handler Middleware) unit).

(** What the parts take as parameters: the order of maps, the closures as functions of
    responses, the rounds of the loops that wait, the clock and names of the data base. *)
Context (cfg : ServerConfig) (walk : gmap bytes bytes -> fields) (walk_multi : MultipartParser.multi -> list (bytes * list bytes))
  (stream : StreamRoutes.demo_stream -> F) (multipart : ByteRanges.ByteRanges -> F) (rounds : nat)
  (now : Z) (type_name : DbValue.FieldType -> bytes)
  (strtof : bytes -> ErrorFactory.float) (build : HttpRequest.HttpRequest -> Z -> bytes -> outcome HttpResponse.HttpResponse) (thread_hash : Z) (to_sys : Z -> Z).

(** A suite of the ORM as a handler. *)
Definition suite_route (suite : M D HttpResponse.HttpResponse) : Handler := fun s =>
  let '(r, d) := suite (get_db s) in (match r with Ret r => Ret (Plain r) | Throw e => Throw e | Undef => Undef end, put_db d s).

(** [db] is [OrmConfig::db], which [main] has set. *)
Definition registerOrmTestRoutes (db : SuiteState.IDatabase D) : routes :=
  get "/tests/orm/single_test" (suite_route (RecordTests.single_test now db type_name));;
  get "/tests/orm/relations_test" (suite_route (RelationTests.relations_test now (Some (SuiteState.executeQuery db)) type_name));;
  get "/tests/orm/predicates_test" (suite_route (PredicateTests.predicates_test now (Some (SuiteState.executeQuery db)) type_name));;
  get "/tests/orm/cte_test" (suite_route (CteTests.cte_test now (Some (SuiteState.executeQuery db)) type_name)).

Definition registerAllTestRoutes (db : SuiteState.IDatabase D) : routes :=
  registerBasicTestRoutes cfg;; registerCookieTestRoutes;; registerSessionTestRoutes walk;; registerUrlPathTestRoutes;;
  StreamRoutes.registerStreamTestRoutes cfg stream;; PoolRoutes.registerThreadPoolTestRoutes rounds;;
  registerFormTestRoutes cfg;; FormRoutes.registerMultipartRoute cfg walk_multi rounds;; registerOrmTestRoutes db.

(** [registerMiddlewares]: the order in which they are put on the chain. *)
Definition demo_chain (host : bytes) (static : StaticFiles.StaticState) (cache : CacheControlMiddleware.CacheControlConfig) : routes :=
  Demo.registerMiddlewares (CorsMiddleware.CorsMiddleware (demo_cors host))
    (StaticMiddleware.StaticMiddleware cfg strtof build thread_hash to_sys multipart static)
    (CompressionMiddleware.CompressionMiddleware cfg strtof build)
    (CacheControlMiddleware.CacheControlMiddleware cache)
    (Session.SessionMiddleware Session.SessionConfig_default).

(** ** The main program *)
(** The number of threads is read as an [int], and given to [run] as an [unsigned]. *)
Record main_answers := { logging : bytes; middleware : bytes; threads : Z }.
Definition yes (answer : bytes) : bool := existsb (Ascii.eqb "y") answer.
Definition demo_host : bytes := "0.0.0.0".

Definition main_router (a : main_answers) (static : StaticFiles.StaticState) (cache : CacheControlMiddleware.CacheControlConfig) (db : SuiteState.IDatabase D) : routes :=
  mwhen (yes (middleware a)) (demo_chain demo_host static cache);;
  registerRoutes cfg;; registerAllTestRoutes db.
End App.

(** The server: certificates, the router, and two listeners. *)
Definition main_server (created certificate key : bool) : outcome HttpServer.HttpServer :=
  let '(r, s) := HttpServer.setTlsContext created certificate key HttpServer.HttpServer_new in
  r;; Ret (HttpServer.addTlsListener demo_host "8443" (HttpServer.addListener demo_host "8080" (HttpServer.setRouter s))).

Definition main_run (created certificate key : bool) (hardware_concurrency : nat) (ring_ok : bool) (a : main_answers) : outcome (list bool) :=
  s ← main_server created certificate key; HttpServer.HttpServer_run hardware_concurrency ring_ok (Z.to_nat (threads a mod 2 ^ 32)) s.

(** ** What it comes to *)

(** The origins that may read answers: the two ports under the three names of the host,
    of which 127.0.0.1 is served without TLS only. *)
Lemma demo_origins host o : CorsMiddleware.isOriginAllowed (CorsMiddleware.allowedOrigins (CorsMiddleware.corsConfig_ (demo_cors host))) o = true <->
  o ∈ literals ["http://localhost:8080"; "https://localhost:8443"; "http://127.0.0.1:8080"] ++ [("http://" ++ host ++ ":8080" : bytes); ("https://" ++ host ++ ":8443" : bytes)].
Proof.
  rewrite CorsMiddleware.isOriginAllowed_spec. cbn [demo_cors CorsMiddleware.setCorsMaxAge CorsMiddleware.setCorsOrigins CorsMiddleware.corsConfig_ CorsMiddleware.allowedOrigins].
  split; [|by left]. intros [H|H]; [done|]. exfalso. cbn [literals map app] in H. rewrite !elem_of_cons, elem_of_nil in H.
  by destruct H as [H|[H|[H|[H|[H|[]]]]]].
Qed.

Definition below_debug (parts : list bytes) : bool := match parts with [a; b; _] => (a =?b "tests") && (b =?b "debug") | _ => false end.

Lemma debug_pattern parts : CacheControlMiddleware.routeMatches parts "/tests/debug/*" = Ret (below_debug parts).
Proof.
  change (CacheControlMiddleware.routeMatches parts "/tests/debug/*") with (Ret (CacheControlMiddleware.pattern_loop parts "tests/debug/*")). f_equal.
  destruct parts as [|a parts]; [reflexivity|]. unfold below_debug.
  assert (CacheControlMiddleware.pattern_loop (a :: parts) "tests/debug/*" = if negb (a =?b "tests") then false else CacheControlMiddleware.pattern_loop parts "debug/*") as -> by reflexivity.
  destruct parts as [|b parts]; [by destruct (a =?b "tests")|].
  assert (CacheControlMiddleware.pattern_loop (b :: parts) "debug/*" = if negb (b =?b "debug") then false else CacheControlMiddleware.pattern_loop parts "*") as -> by reflexivity.
  destruct parts as [|c parts]; [by destruct (a =?b "tests"), (b =?b "debug")|].
  assert (CacheControlMiddleware.pattern_loop (c :: parts) "*" = bool_decide (parts = [])) as -> by reflexivity.
  destruct parts; by destruct (a =?b "tests"), (b =?b "debug").
Qed.

(** The pages right below /tests/debug, and texts in HTML, may be kept for five seconds;
    other answers are not kept, and errors never. *)
Lemma demo_cache_control : exists c, demo_cache = Ret c /\ forall parts status hs, HeaderStore.getHeaderLower "cache-control" hs = [] ->
  CacheControlMiddleware.cache_control c parts status hs = Ret (HeaderStore.setCacheControl
    (if (400 <=? status)%Z then "no-store"
     else if below_debug parts || (HeaderStore.getHeaderLower "content-type" hs =?b "text/html") then "max-age=5, public" else "no-cache, no-store") hs).
Proof.
  exists {| CacheControlMiddleware.routeCacheControl := [("/tests/debug/*" : bytes, "max-age=5, public" : bytes)];
            CacheControlMiddleware.mimeCacheControl := <["text/html" : bytes := "max-age=5, public" : bytes]> ∅;
            CacheControlMiddleware.defaultCacheControl := "no-cache, no-store" |}.
  split; [reflexivity|]. intros parts status hs Hcc. unfold CacheControlMiddleware.cache_control. rewrite Hcc. change (negb ([] =?b "")) with false. cbv iota.
  destruct (400 <=? status)%Z; [done|].
  cbn [CacheControlMiddleware.find_route CacheControlMiddleware.routeCacheControl CacheControlMiddleware.mimeCacheControl CacheControlMiddleware.defaultCacheControl fst snd].
  rewrite debug_pattern. cbn [mbind outcome_bind]. destruct (below_debug parts); [done|]. cbn [mbind outcome_bind orb].
  destruct (beqb_spec (HeaderStore.getHeaderLower "content-type" hs) "text/html") as [->|Hn]; [done|].
  destruct (negb _); [|done]. by rewrite lookup_insert_ne, lookup_empty by congruence.
Qed.

(** ** The whole table of routes *)

(** Registering and looking up, with the handlers and the middlewares left alone. *)
Ltac routed :=
  lazy -[CorsMiddleware.CorsMiddleware StaticMiddleware.StaticMiddleware CompressionMiddleware.CompressionMiddleware
    CacheControlMiddleware.CacheControlMiddleware Session.SessionMiddleware demo_cors demo_host Session.SessionConfig_default
    session_set_route session_get_route session_all_route session_delete_route session_invalidate_route
    cookie_set_route cookie_read_route cookie_delete_route form_route checkboxes_route json_form_route FormRoutes.multipart_route
    ping_route debugRequestHandler echo_route throw_route path_param_json my_posts_route delete_item_route random_route index_route hello_route put_route
    StreamRoutes.basic_route StreamRoutes.single_route StreamRoutes.empty_route StreamRoutes.count_route StreamRoutes.stream_throw_route StreamRoutes.stream_echo_route
    PoolRoutes.slow_route PoolRoutes.slowpool_route PoolRoutes.pool_basic_route PoolRoutes.pool_exception_route PoolRoutes.pool_deferred_route
    PoolRoutes.pool_concurrent_route PoolRoutes.pool_forget_route PoolRoutes.pool_unawaited_route
    suite_route RecordTests.single_test RelationTests.relations_test PredicateTests.predicates_test CteTests.cte_test SuiteState.executeQuery];
  reflexivity.

Section AppRouting.
Context {S W D St C G : Type} {HR : HasRequest S} {BIO : BodyIO S} {IS : Session.ISessionStore St} {HS : Session.HasSession S St}
  {J : NlohmannJson} {JB : TestRunner.JsonBooleans} `{TestRunner.StdWhat} {P : PoolRoutes.PoolAccess S} {FS : FileIO.FileSystem W} {FF : FormRoutes.FormFrame S W}
  {HP : StaticMiddleware.HasProcess S W} {HD : HasDatabase S D} {IC : Compression.ICompressor C} {CF : Compression.Compressors C} {SS : StdSort}.
Context (cfg : ServerConfig) (walk : gmap bytes bytes -> fields) (walk_multi : MultipartParser.multi -> list (bytes * list bytes))
  (stream : StreamRoutes.demo_stream -> Compression.ChunkFn C G) (multipart : ByteRanges.ByteRanges -> Compression.ChunkFn C G) (rounds : nat)
  (now : Z) (type_name : DbValue.FieldType -> bytes)
  (strtof : bytes -> ErrorFactory.float) (build : HttpRequest.HttpRequest -> Z -> bytes -> outcome HttpResponse.HttpResponse) (thread_hash : Z) (to_sys : Z -> Z).
Context (static : StaticFiles.StaticState) (cache : CacheControlMiddleware.CacheControlConfig) (db : SuiteState.IDatabase D).
#[local] Abbreviation F := (Compression.ChunkFn C G).

Definition app (a : main_answers) : outcome unit * Router (Handler S F) (Middleware S F) :=
  main_router cfg walk walk_multi stream multipart rounds now type_name strtof build thread_hash to_sys a static cache db Router_new.

Definition in_app (method target : bytes) : option (Handler S F) :=
  let request := HttpRequest.parsePathAndQueryParams target (HttpRequest.setMethod method (HttpRequest.fresh [] 0)) in
  node ← findMatchingRouteEntry (app {| logging := "n"; middleware := "n"; threads := 4 |}).2 (HttpRequest.pathParts_ request);
  assoc_first (lookup_method method) (requestHandlers node).

(** The middlewares are on the chain when they are asked for, and in the order of
    [registerMiddlewares]; the routes are the same. *)
Lemma chain_on_demand a : (app a).1 = Ret tt /\
  middlewares_ (app a).2 = (if yes (middleware a) then
    [CorsMiddleware.CorsMiddleware (demo_cors demo_host); StaticMiddleware.StaticMiddleware cfg strtof build thread_hash to_sys multipart static;
     CompressionMiddleware.CompressionMiddleware cfg strtof build; CacheControlMiddleware.CacheControlMiddleware cache;
     Session.SessionMiddleware Session.SessionConfig_default] else []) /\
  pathTreeRoot_ (app a).2 = pathTreeRoot_ (app {| logging := "n"; middleware := "n"; threads := 4 |}).2.
Proof.
  unfold app, main_router. destruct (yes (middleware a)); cbn [mwhen]; split_and!; routed.
Qed.

(** The groups do not get into each other's way: every registration succeeds, and each
    route of the groups for forms, streams, the pool and the ORM is reached. *)
Theorem app_routing :
  in_app "GET" "/" = Some index_route /\
  in_app "GET" "/tests/session/get" = Some session_get_route /\
  in_app "POST" "/tests/forms/multipart" = Some (FormRoutes.multipart_route cfg walk_multi rounds) /\
  in_app "POST" "/tests/forms/urlencoded" = Some (form_route cfg) /\
  in_app "GET" "/tests/stream/basic" = Some (StreamRoutes.basic_route stream) /\
  in_app "GET" "/tests/stream/single" = Some (StreamRoutes.single_route stream) /\
  in_app "HEAD" "/tests/stream/empty" = Some (StreamRoutes.empty_route stream) /\
  in_app "GET" "/tests/stream/count/12" = Some (StreamRoutes.count_route stream) /\
  in_app "GET" "/tests/stream/throw" = Some (StreamRoutes.stream_throw_route stream) /\
  in_app "POST" "/tests/stream/echo" = Some (StreamRoutes.stream_echo_route cfg stream) /\
  in_app "GET" "/tests/stream/echo" = None /\
  in_app "GET" "/tests/slow" = Some (PoolRoutes.slow_route rounds) /\
  in_app "GET" "/tests/slowpool" = Some PoolRoutes.slowpool_route /\
  in_app "GET" "/tests/pool/basic" = Some PoolRoutes.pool_basic_route /\
  in_app "GET" "/tests/pool/exception" = Some PoolRoutes.pool_exception_route /\
  in_app "GET" "/tests/pool/deferred/" = Some PoolRoutes.pool_deferred_route /\
  in_app "GET" "/tests/pool/concurrent?n=4" = Some PoolRoutes.pool_concurrent_route /\
  in_app "GET" "/tests/pool/forget" = Some PoolRoutes.pool_forget_route /\
  in_app "GET" "/tests/pool/unawaited" = Some PoolRoutes.pool_unawaited_route /\
  in_app "GET" "/tests/orm/single_test" = Some (suite_route (RecordTests.single_test now db type_name)) /\
  in_app "GET" "/tests/orm/relations_test" = Some (suite_route (RelationTests.relations_test now (Some (SuiteState.executeQuery db)) type_name)) /\
  in_app "GET" "/tests/orm/predicates_test" = Some (suite_route (PredicateTests.predicates_test now (Some (SuiteState.executeQuery db)) type_name)) /\
  in_app "GET" "/tests/orm/cte_test" = Some (suite_route (CteTests.cte_test now (Some (SuiteState.executeQuery db)) type_name)).
Proof. split_and!; routed. Qed.
End AppRouting.

(** With its certificates the server starts one worker per thread asked for, or as many
    as the machine has for an answer that is no number (which reads as 0); without them
    it does not start, whatever the listeners. *)
Lemma main_starts hw a : main_run true true true hw true a =
  Ret (map (fun i => (i =? 0)%nat) (seq 0 (if (threads a mod 2 ^ 32 =? 0)%Z then hw else Z.to_nat (threads a mod 2 ^ 32)))).
Proof.
  unfold main_run, main_server, HttpServer.HttpServer_run. cbn [HttpServer.setTlsContext negb mbind outcome_bind HttpServer.router_ HttpServer.add_config HttpServer.addTlsListener HttpServer.addListener HttpServer.setRouter].
  destruct (Z.eqb_spec (threads a mod 2 ^ 32) 0) as [->|Hn]; [done|]. pose proof (Z.mod_pos_bound (threads a) (2 ^ 32) eq_refl).
  destruct (Nat.eqb_spec (Z.to_nat (threads a mod 2 ^ 32)) 0); [lia|done].
Qed.

Lemma main_needs_certificates hw ring a key : main_run true false key hw ring a = Throw (ServerException "Failed to load certificate" 500 true).
Proof. done. Qed.
